(* ===== verification/_CoqProject ===== *)
-Q . S2P
Prelude.v
Bytes.v
Json.v
Text.v
Digest.v
CanonicalValue.v
IpcFrame.v
IpcChannel.v
IpcBroker.v
ErrorRegistry.v
AuditChain.v
SideEffect.v
Database.v
Binding.v
Oracle.v
Crypto.v
Egress.v
Authority.v
Closure.v
Generation.v
Contracts.v
Schemas.v
Kcip.v
RuntimeSystemd.v
RuntimeGateway.v
Commands.v
CommandWorker.v
Auth.v
RetryScheduler.v
Handlers.v
GenerationCommands.v
Secrets.v
PlatformRecovery.v
RecoverySystem.v
RecoveryVerdict.v
StateBroker.v
EgressBroker.v
BrowserAction.v
