(* ===== verification/Prelude.v ===== *)
(** * KajovoCML NG: a verified model of the control-plane core

    KajovoCML NG is a control plane that generates, runs and supervises components.  Its TypeScript packages under
    [src/packages] share one PostgreSQL schema ([src/database]); a server and a set of workers run commands as
    transactions, start runtime hosts under systemd, talk to them over framed Unix sockets, and reach the outside world
    only through recorded side effects.  This library translates the logic that those parts rely on into executable
    definitions and proves the contracts between them.

    ** How the program is modelled

    A function that may throw is a function into [result]; a transaction maps committed tables to a [result] of new
    tables, so that a throw commits nothing; tables are records of finite maps with the columns the code reads or
    writes, with the unique keys and row triggers of the schema as errors with their SQLSTATE.  Asynchronous code is a
    state machine whose events are the points where the code waits: theorems about it quantify over every list of
    events, and so over every interleaving, failure and close.  What is not in the repository is a parameter with the
    behaviour the code relies on: SHA-256 ([Digest.Hash], 32 bytes; theorems that need injectivity conclude with an
    explicit [collision]), HMAC, AES-GCM, the collation of the host ([Json.Locale]), the zod formats
    ([IpcChannel.Formats]), DNS, [systemctl], the proc file system and the native descriptor calls.  Identifiers from
    [randomUUID] and the clock are arguments.  Each file ends with samples that evaluate the definitions
    and with the instances of the theorems at these samples.

    ** Parts

    - [Prelude]: errors and results, the monad [io] of transactions in a row, loops, reachability, stable sorting, tactics ([inv_ok], [reflect_bools]) and the
      hint database [kcml].  [Bytes] and [Text]: buffers, strings, encodings and number texts of the language.
    - [Json], [Digest], [CanonicalValue] ([packages/schemas/src/index.ts]): [canonicalJson], its digest, and
      [toCanonicalJsonValue] over a JavaScript heap with sharing and cycles.  [Schemas]: the zod schemas of the same file
      and the registry of browser actions.
    - [IpcFrame], [IpcChannel], [IpcBroker] ([packages/runtime-capability-ipc/src/index.ts]): the frame codec and the
      incremental decoder, the multiplexing client and the descriptor server, and the authenticated broker
      requests with their replay ledger.
    - [Kcip] ([packages/kcip]): envelopes and the sequence guard, over [Schemas] and [ErrorRegistry].
    - [ErrorRegistry] ([error-retry-registry.ts], [errors.ts], [retry-planner.ts]): the registry of error
      codes, its validation, and the retry plan of a failure.
    - [Contracts] ([packages/contract-pack]): admission of the parity and ownership registries, state machines.
    - [Database] ([packages/database], [recovery-authority.ts]): transaction protocol, serializable retry,
      sequences, lock order, schema contract, the recovery barrier.  [AuditChain] ([audit-integrity.ts] and the SQL function that appends),
      [SideEffect] ([side-effect-ledger.ts]): the two ledgers.
    - [Binding] ([binding-registry.ts]), [Authority] ([agentic-authority], [content-provenance],
      [broker-authority.ts], [browser-preview-protocol]): what a dispatch is bound to and who may use it.
    - [Oracle] ([recovery-oracle.ts]) and [Closure] ([closure-predicates.ts]): what may be done after a crash,
      and when an ended object has really been shut down.
    - [Generation] ([generation-lifecycle.ts], [generation-orchestrator] and the row triggers): jobs, fenced
      phase runs, workspace revisions and activation.  [GenerationCommands] ([canonical-operation-handlers.ts],
      [exact-operation-handlers.ts]): the commands on generation jobs and their blockers, over the same tables.
    - [Crypto] ([crypto.ts]): base32 and TOTP with 32-bit accumulators, the envelope cipher.  [Egress]
      ([egress-policy.ts]): address classes and the pinned request.
    - [RuntimeSystemd] ([runtime-systemd.ts]): a runtime action from its intent in [SideEffect] through [systemctl] to
      the read-back.  [RuntimeGateway] ([runtime-gateway.ts]): admission of runtime hosts, over the tables of
      [RuntimeSystemd], the frames of [IpcFrame] and the schemas of [Schemas]; the columns of the recovery head are a
      parameter, because its query names two that the schema does not create.
    - [Commands] ([operations.ts], [operation-handler-catalog.ts]): how a request becomes a command, with its
      idempotency record, activation domain and concurrency claim.  [CommandWorker]: the worker that runs it, over the
      tables of [Commands], with any number of workers and of crashes.  [RetryScheduler]: what becomes of a failed
      command, as a system on top of the one of the workers.
    - [PlatformRecovery] ([platform-recovery.ts]): the coordinator that classifies everything in flight after a restart and
      opens the gate of the authoritative writes again, with its own tables as the rest of the database of
      [Commands].  [RecoverySystem]: any number of coordinators, restarts and takeovers among the workers of [CommandWorker].
      [RecoveryVerdict]: a whole run, and the state it ends in.
    - [Auth] ([auth.ts]): the owner's password, one-time passwords, recovery codes, API key, sessions and the
      throttle of logins, each operation split where it leaves the database.
    - [Handlers]: what every operation handler of [exact-operation-handlers.ts] is given and how it reads its arguments.
      [Secrets] ([secrets.ts], [secret-operations.ts] and the handlers of secrets): sealed versions and their activation,
      over the cipher of [Crypto].
    - [StateBroker] and [EgressBroker] ([worker-runtime/src/index.ts]): what a runtime may ask of the broker, its local state
      over the lineages and limits of [Authority], and its external requests over [Egress] and the secrets of [Secrets].
    - [BrowserAction] (the handlers of browser actions, [session-service.ts], [browser-interaction]): an action from its
      admission over its two transactions around the browser host to the wait of its caller for the outcome, with the registry of [Schemas].

    Names follow the sources; a prefix of two or three letters tells apart record fields that the code keeps in different
    objects under one name.

    ** What the theorems show

    - Codecs and identities: frames arrive in order and complete however the byte stream is cut; canonical text and digest
      identify a value up to key order; contexts, envelopes, tickets and base32 texts are read back as
      written; [toCanonicalJsonValue] terminates on every heap.
    - Authentication and replay: an accepted broker request is never accepted again; two requests with one
      authenticator are equal or exhibit a collision; two verified audit snapshots with one head agree in
      every column the chain covers, and in no other; pins, lineages and state namespaces bind every identity.
    - State machines: the generation service keeps one active phase of a job, completions are fenced, an accepted
      patch stores exactly its result; the side-effect ledger keeps its evidence contiguous; a promise of the
      capability client is settled at most once and none is lost, and after a close only a write that waits for the
      socket to drain is left; where its query can run, the gateway opens a connection only for a vouched peer of a
      current instance, and its row never goes back.
    - Commands: a request is admitted as one command however often it is sent; at most one application of it is
      committed, exactly one if it succeeded and none if it failed or waits; a specialist prepares and acts at most once
      per claim, though again under a later claim; a worker whose claim was taken over commits nothing; a failed command gets at most one
      successor, and none before its effects are known not to be applied; the scheduler refines the system of
      the workers, so that these hold together.
    - Recovery: while the gate is open the last recovery ended READY for the lineage that is current, with everything accounted
      for; a coordinator that was taken over is fenced off; what is resumed can be claimed again, anything else blocks;
      a run that nothing disturbs always ends, with a verdict that is computed from the data it found; the
      guarantees of the workers hold across any number of recoveries.
    - Accounts: a changed password leaves no old session, a session that passes for a second factor was given
      one, a recovery code is used once, wrong passwords are bounded per address and window.  A secret has one active
      version, and the owner reads back exactly what was sealed in it.
    - Brokers and browsers: no update of the local state is lost and reads see the last commit; what the egress broker sends
      is authorized, checked at each redirect and limited; a browser action is sent to the host at most once, the
      trigger of its effect stays recorded, and a reconciliation confirms only what a read-back shows.
    - Fail-closed decisions: the oracle authorizes only on current evidence; a closure that passes leaves nothing
      alive; a runtime action is applied only on a read-back after the command; a pinned request reaches only public addresses;
      registries that are admitted are total and unambiguous.
    - Termination and bounds: retries, decoder loops and buffers are bounded; transactions that take
      their row locks in order deadlock only where two of them upgrade the mode of one lock.
    - Behaviours that the code does not intend are theorems as well: a switched generation cannot be rolled back, a
      successor run stays queued, a connection lost during its admission stays active, no runtime can resolve a secret,
      a version number that a handler took blocks its secret, a stale browser action stays the first in line, and one that was
      applied can be cancelled; with the schema as it is the gateway accepts nobody and every wait for the outcome of a
      browser action fails; a job that is resumed can have two active runs; the actor of an audit event is covered by
      no digest.

    ** Bounds and fuel

    Recursion that the sources bound by data is on fuel that the entry point computes: the decoder loop runs once per
    buffered byte and each turn consumes a header ([IpcFrame.consume_loop_fuel]); [JSON.parse] has the length of its text
    ([Json.JSON_parse_print]); the visitor of a heap has the number of its objects, and never runs out on a
    closed heap ([CanonicalValue.toCanonicalJsonValue_total]); audit pages and retries are counted by their limits.  Machine widths are kept
    where the code meets them: 32-bit shifts in [Crypto], 32-bit frame sequences with their wrap, [bigint] and
    [integer] columns.  JSON numbers are the safe integers and strings are Latin-1 code units.

    ** Not modelled

    Most handlers of the operations and the polling loops of the workers are sequences of SQL over many tables and are the next parts of this development; [Commands] takes the
    handlers as a class with laws.  The tables that a recovery only inventories are a parameter of it ([PlatformRecovery.InventorySource]).  Left out for good are
    generated tables of data, the user interface, the scripts that compile the contract documents, command lines,
    HTTP wiring, the browser driver and the clients of external services, whose behaviour is that of code outside the repository.
    Rows keep neither timestamps that nothing reads nor columns that only repeat the lineage. *)
From stdpp Require Export base gmap strings list sorting pretty.
From Stdlib Require Export ZArith Lia.
#[global] Open Scope Z_scope.

(** ** Errors and results

    A TypeScript function that may throw is a function into [result]. *)

(** What a [throw] carries: the JavaScript class and its message.  A
    [PgError] is a PostgreSQL error with its SQLSTATE, and a [DomainErr] has the
    stable error code of the registry. *)
Inductive exn :=
| JsError (message : string)
| RangeError (message : string)
| ZodError
| PgError (code : string)
| ContractError (message : string)
| ConversionError (path valueKind : string)
| KcipErr (code message : string)
| DomainErr (code message : string).

#[export] Instance exn_eq_dec : EqDecision exn.
Proof. solve_decision. Defined.

Inductive result (A : Type) :=
| Ok (a : A)
| Throw (e : exn).
Arguments Ok {A} a.
Arguments Throw {A} e.

#[export] Instance result_ret : MRet result := fun A a => Ok a.
#[export] Instance result_bind : MBind result := fun A B f m =>
  match m with Ok a => f a | Throw e => Throw e end.
#[export] Instance result_fmap : FMap result := fun A B f m =>
  match m with Ok a => Ok (f a) | Throw e => Throw e end.

(** [if (b) throw e] *)
Definition throw_if (b : bool) (e : exn) : result unit :=
  if b then Throw e else Ok tt.

(** [a ?? throw e] on an optional value. *)
Definition or_throw {A} (o : option A) (e : exn) : result A :=
  match o with Some a => Ok a | None => Throw e end.

Definition is_Ok {A} (r : result A) : bool :=
  match r with Ok _ => true | Throw _ => false end.

(** The value of a computation that returned. *)
Definition get_Ok {A} (d : A) (r : result A) : A :=
  match r with Ok a => a | Throw _ => d end.
Lemma get_Ok_spec {A} (d : A) r : is_Ok r = true -> r = Ok (get_Ok d r).
Proof. by destruct r. Qed.

(** A [for] loop whose body may throw. *)
Fixpoint for_each {A} (body : A -> result unit) (l : list A) : result unit :=
  match l with
  | [] => Ok tt
  | x :: l => _ ← body x; for_each body l
  end.

(** A [for] loop that threads a state. *)
Fixpoint fold_result {A S} (body : S -> A -> result S) (s : S) (l : list A) : result S :=
  match l with
  | [] => Ok s
  | x :: l => s' ← body s x; fold_result body s' l
  end.

Lemma bind_Ok_inv {A B} (m : result A) (f : A -> result B) b :
  m ≫= f = Ok b <-> exists a, m = Ok a /\ f a = Ok b.
Proof.
  destruct m as [a|e]; cbn; split.
  - eauto.
  - intros (a' & [= <-] & H); exact H.
  - discriminate.
  - intros (a' & [=] & _).
Qed.

Lemma throw_if_Ok b e u : throw_if b e = Ok u <-> b = false.
Proof. destruct b, u; cbn; split; congruence. Qed.

Lemma or_throw_Ok {A} (o : option A) e a : or_throw o e = Ok a <-> o = Some a.
Proof. destruct o; cbn; split; congruence. Qed.

Lemma for_each_Ok {A} (body : A -> result unit) l :
  for_each body l = Ok tt <-> Forall (fun x => body x = Ok tt) l.
Proof.
  induction l as [|x l IH]; cbn.
  - split; constructor.
  - rewrite bind_Ok_inv, Forall_cons, <- IH. split.
    + intros ([] & ? & ?); auto.
    + intros [? ?]; eauto.
Qed.

Lemma fold_result_app {A S} (body : S -> A -> result S) s l1 l2 :
  fold_result body s (l1 ++ l2) = (s' ← fold_result body s l1; fold_result body s' l2).
Proof.
  revert s; induction l1 as [|x l1 IH]; intros s; cbn; [done|].
  destruct (body s x); cbn; [apply IH|done].
Qed.

(** An invariant kept by the body is kept by the loop. *)
Lemma fold_result_inv {A S} (P : S -> Prop) (body : S -> A -> result S) l s s' :
  (forall s x s', P s -> body s x = Ok s' -> P s') ->
  P s -> fold_result body s l = Ok s' -> P s'.
Proof.
  intros Hstep; revert s; induction l as [|x l IH]; cbn; intros s Hs H.
  - by injection H as <-.
  - apply bind_Ok_inv in H as (s1 & H1 & H2). eauto.
Qed.

(** [inv_ok] turns hypotheses [m = Ok _] about sequenced code into the facts
    that every step went through. *)
Ltac inv_ok :=
  repeat match goal with
  | H : (_ ≫= _) = Ok _ |- _ =>
      let a := fresh "a" in let Ha := fresh "Hok" in
      apply bind_Ok_inv in H as (a & Ha & H)
  | H : throw_if _ _ = Ok _ |- _ => apply throw_if_Ok in H
  | H : or_throw _ _ = Ok _ |- _ => apply or_throw_Ok in H
  | H : Ok _ = Ok _ |- _ => injection H as H
  | H : mret _ = Ok _ |- _ => injection H as H
  | H : Throw _ = Ok _ |- _ => discriminate H
  | u : unit |- _ => destruct u
  end.

(** Boolean tests of the code, reflected into propositions. *)
Ltac reflect_bools :=
  repeat match goal with
  | H : _ && _ = true |- _ => apply andb_true_iff in H as [? ?]
  | H : _ || _ = false |- _ => apply orb_false_iff in H as [? ?]
  | H : negb _ = false |- _ => apply negb_false_iff in H
  | H : negb _ = true |- _ => apply negb_true_iff in H
  | H : (_ =? _)%Z = true |- _ => apply Z.eqb_eq in H
  | H : (_ =? _)%Z = false |- _ => apply Z.eqb_neq in H
  | H : (_ <? _)%Z = true |- _ => apply Z.ltb_lt in H
  | H : (_ <? _)%Z = false |- _ => apply Z.ltb_ge in H
  | H : (_ <=? _)%Z = true |- _ => apply Z.leb_le in H
  | H : (_ <=? _)%Z = false |- _ => apply Z.leb_gt in H
  | H : String.eqb _ _ = true |- _ => apply String.eqb_eq in H
  | H : String.eqb _ _ = false |- _ => apply String.eqb_neq in H
  | H : bool_decide _ = true |- _ => apply bool_decide_eq_true in H
  | H : bool_decide _ = false |- _ => apply bool_decide_eq_false in H
  end.

Create HintDb kcml.
Create Rewrite HintDb kcml.
#[export] Hint Resolve Permutation_refl Forall_nil_2 : kcml.
#[export] Hint Rewrite @bind_Ok_inv @throw_if_Ok @or_throw_Ok : kcml.

(** ** Effects on the world *)

Definition io (W A : Type) : Type := W -> result A * W.
#[export] Instance io_ret W : MRet (io W) := fun A a w => (Ok a, w).
#[export] Instance io_bind W : MBind (io W) := fun A B f m w =>
  match m w with (Ok a, w) => f a w | (Throw e, w) => (Throw e, w) end.
Definition lift {W A} (r : result A) : io W A := fun w => (r, w).
(** [m.catch(() => a)] *)
Definition io_catch {W A} (m : io W A) (a : A) : io W A := fun w => match m w with (Throw _, w) => (Ok a, w) | ok => ok end.
(** A database transaction: its changes are kept when it returns and undone when it throws. *)
Definition txn {W A} (body : W -> result (A * W)) : io W A := fun w => match body w with Ok (a, w') => (Ok a, w') | Throw e => (Throw e, w) end.
Definition get {W} : io W W := fun w => (Ok w, w).

Lemma bind_io_Ok {W A B} (m : io W A) (f : A -> io W B) w b w'' :
  (m ≫= f) w = (Ok b, w'') <-> exists a w', m w = (Ok a, w') /\ f a w' = (Ok b, w'').
Proof.
  unfold mbind, io_bind. destruct (m w) as [[a|e] w']; split.
  - eauto.
  - by intros (? & ? & [= <- <-] & E).
  - intros [=].
  - intros (? & ? & [=] & _).
Qed.
Lemma lift_Ok {W A} (r : result A) (w : W) a w' : lift r w = (Ok a, w') <-> r = Ok a /\ w' = w.
Proof. unfold lift. split; [by intros [= -> ->]|by intros [-> ->]]. Qed.
Lemma txn_Ok {W A} (body : W -> result (A * W)) (w : W) a w' : txn body w = (Ok a, w') <-> body w = Ok (a, w').
Proof. unfold txn. destruct (body w) as [[a0 w0]|e]; split; intros E; inversion E; by subst. Qed.
Ltac inv_io :=
  repeat match goal with
  | E : (_ ≫= _) _ = (Ok _, _) |- _ =>
      let a := fresh "a" in let w := fresh "w" in let Ha := fresh "Hio" in apply bind_io_Ok in E as (a & w & Ha & E)
  | E : lift _ _ = (Ok _, _) |- _ => apply lift_Ok in E as [E ->]
  | E : txn _ _ = (Ok _, _) |- _ => apply txn_Ok in E
  | E : mret _ _ = (Ok _, _) |- _ => injection E as E
  end; inv_ok.

(** ** Reachability *)

Section Star.
Context {A : Type} (R : A -> A -> Prop).

Inductive star : A -> A -> Prop :=
| star_refl a : star a a
| star_step a b c : R a b -> star b c -> star a c.

Lemma star_one a b : R a b -> star a b.
Proof. intros H; eapply star_step; [exact H|apply star_refl]. Qed.

Lemma star_trans a b c : star a b -> star b c -> star a c.
Proof. induction 1; eauto using star. Qed.

Lemma star_invariant (P : A -> Prop) a b :
  (forall x y, P x -> R x y -> P y) -> P a -> star a b -> P b.
Proof. intros Hstep Ha H; induction H; eauto. Qed.
End Star.
#[export] Hint Constructors star : kcml.

Lemma filter_perm {A} (p : A -> bool) l k : l ≡ₚ k -> List.filter p l ≡ₚ List.filter p k.
Proof.
  induction 1 as [|x l k _ IH|x y l|l k m _ IH1 _ IH2]; cbn; [done| | |by etransitivity].
  - by destruct (p x); [rewrite IH|].
  - destruct (p x), (p y); [apply Permutation_swap|done..].
Qed.

(** ** Stable sorting ([Array.prototype.sort] with a comparator) *)

Section StableSort.
Context {A : Type} (leb : A -> A -> bool).

Fixpoint sort_insert (x : A) (l : list A) : list A :=
  match l with
  | [] => [x]
  | y :: l' => if leb x y then x :: l else y :: sort_insert x l'
  end.

Definition stable_sort (l : list A) : list A := foldr sort_insert [] l.

Lemma sort_insert_perm x l : sort_insert x l ≡ₚ x :: l.
Proof.
  induction l as [|y l IH]; cbn; [done|].
  destruct (leb x y); [done|]. rewrite IH. apply Permutation_swap.
Qed.

Lemma stable_sort_perm l : stable_sort l ≡ₚ l.
Proof.
  induction l as [|x l IH]; cbn; [done|].
  by rewrite sort_insert_perm, IH.
Qed.

Lemma elem_of_stable_sort x l : x ∈ stable_sort l <-> x ∈ l.
Proof. by rewrite stable_sort_perm. Qed.

Context (leb_total : forall x y, leb x y = true \/ leb y x = true)
        (leb_trans : forall x y z, leb x y = true -> leb y z = true -> leb x z = true).

Lemma sort_insert_sorted x l :
  StronglySorted (fun a b => leb a b = true) l ->
  StronglySorted (fun a b => leb a b = true) (sort_insert x l).
Proof.
  induction 1 as [|y l Hl IH Hy]; cbn; [repeat constructor|].
  destruct (leb x y) eqn:E.
  - constructor; [by constructor|]. constructor; [done|].
    eapply Forall_impl; [exact Hy|]. cbn. eauto.
  - constructor; [done|]. rewrite sort_insert_perm. constructor; [|done].
    destruct (leb_total x y); congruence.
Qed.

Lemma stable_sort_sorted l : StronglySorted (fun a b => leb a b = true) (stable_sort l).
Proof. induction l; cbn; [constructor|by apply sort_insert_sorted]. Qed.

(** A sorted list is a fixed point of the sort. *)
Lemma stable_sort_id l :
  StronglySorted (fun a b => leb a b = true) l -> stable_sort l = l.
Proof.
  induction 1 as [|x l Hl IH Hx]; [done|]. unfold stable_sort in *. cbn. rewrite IH.
  destruct l as [|y l]; cbn; [done|]. inversion_clear Hx as [|? ? Hxy]. by rewrite Hxy.
Qed.

(** With a comparator that is antisymmetric on the sorted elements, the
    result does not depend on the order of the input. *)
Lemma stable_sort_unique l1 l2 :
  (forall x y, x ∈ l1 -> y ∈ l1 -> leb x y = true -> leb y x = true -> x = y) ->
  l1 ≡ₚ l2 -> stable_sort l1 = stable_sort l2.
Proof.
  intros Hanti Hp.
  assert (Hp' : stable_sort l1 ≡ₚ stable_sort l2) by (by rewrite !stable_sort_perm).
  assert (Hanti' : forall x y, x ∈ stable_sort l1 -> y ∈ stable_sort l1 ->
            leb x y = true -> leb y x = true -> x = y)
    by (intros x y ??; apply Hanti; by apply elem_of_stable_sort).
  pose proof (stable_sort_sorted l1) as Hs1. pose proof (stable_sort_sorted l2) as Hs2.
  revert Hp' Hanti' Hs1 Hs2. generalize (stable_sort l1) as k1, (stable_sort l2) as k2.
  induction k1 as [|x k1 IH]; intros k2 Hk Hk' S1 S2.
  { by apply Permutation_nil in Hk as ->. }
  destruct k2 as [|y k2]; [by apply symmetry, Permutation_nil in Hk|].
  inversion_clear S1 as [|? ? S1' F1]. inversion_clear S2 as [|? ? S2' F2].
  assert (x = y) as ->.
  { assert (Hx : x ∈ y :: k2) by (rewrite <- Hk; constructor).
    assert (Hy : y ∈ x :: k1) by (rewrite Hk; constructor).
    apply elem_of_cons in Hx as [->|Hx]; [done|].
    apply elem_of_cons in Hy as [->|Hy]; [done|].
    rewrite Forall_forall in F1, F2.
    apply Hk'; [by constructor|by constructor|by apply F1|by apply F2]. }
  f_equal. apply IH; auto.
  - by apply (inj (cons y)) in Hk.
  - intros a b ??; apply Hk'; by constructor.
Qed.
End StableSort.

(** Mapping commutes with filters and sorts that look at what it keeps. *)
Lemma filter_map_swap {A B} (p : B -> bool) (q : A -> bool) (f : A -> B) l :
  (forall x, p (f x) = q x) -> List.filter p (map f l) = map f (List.filter q l).
Proof.
  intros H; induction l as [|x l IH]; cbn; [done|].
  rewrite H. destruct (q x); cbn; by rewrite IH.
Qed.

Lemma stable_sort_map {A B} (leb : A -> A -> bool) (leb' : B -> B -> bool) (f : A -> B) l :
  (forall x y, leb' (f x) (f y) = leb x y) ->
  stable_sort leb' (map f l) = map f (stable_sort leb l).
Proof.
  intros H. unfold stable_sort. induction l as [|x l IH]; cbn; [done|].
  rewrite IH. generalize (foldr (sort_insert leb) [] l) as k.
  induction k as [|y k IHk]; cbn; [done|]. rewrite H.
  destruct (leb x y); cbn; [done|]. by rewrite IHk.
Qed.

(** A key that identifies the elements of a list. *)
Lemma NoDup_map_unique {A B} (f : A -> B) l x y :
  NoDup (map f l) -> In x l -> In y l -> f x = f y -> x = y.
Proof.
  induction l as [|a l IH]; cbn; [done|]. rewrite NoDup_cons. intros [Ha Hl] [->|Hx] [->|Hy] E; auto.
  - exfalso. apply Ha. rewrite E. by apply list_elem_of_In, in_map.
  - exfalso. apply Ha. rewrite <- E. by apply list_elem_of_In, in_map.
Qed.
