(* ===== verification/Bytes.v ===== *)
(** * Bytes and text

    [Buffer]s are lists of integers, JavaScript strings are [string]s whose
    characters are the code units 0..255 (Latin-1); the text encodings of the
    Node standard library that the code uses: big-endian integers, UTF-8, hex,
    decimal and the 64-letter alphabet. *)
From Stdlib Require Import Ascii String DecimalString DecimalZ.
From S2P Require Import Prelude.

(** ** Bytes and big-endian integers *)

Definition is_byte (b : Z) : Prop := 0 <= b < 256.
#[export] Instance is_byte_dec b : Decision (is_byte b).
Proof. unfold is_byte. apply _. Defined.

(** [Buffer.writeUIntnBE]: the low [n] bytes of [z], most significant first. *)
Fixpoint be_bytes (n : nat) (z : Z) : list Z :=
  match n with
  | O => []
  | S n => (z / 256 ^ Z.of_nat n) mod 256 :: be_bytes n z
  end.

(** [Buffer.readUIntnBE] *)
Definition be_value (l : list Z) : Z := fold_left (fun acc b => acc * 256 + b) l 0.

Lemma length_be_bytes n z : length (be_bytes n z) = n.
Proof. induction n; cbn; auto. Qed.

Lemma be_bytes_is_byte n z : Forall is_byte (be_bytes n z).
Proof.
  induction n; cbn; constructor; auto. unfold is_byte. apply Z.mod_pos_bound. lia.
Qed.

Lemma fold_be_value l acc :
  fold_left (fun acc b => acc * 256 + b) l acc = acc * 256 ^ Z.of_nat (length l) + be_value l.
Proof.
  unfold be_value. revert acc; induction l as [|b l IH]; intros acc; cbn [fold_left length].
  - cbn. lia.
  - rewrite (IH (acc * 256 + b)), (IH (0 * 256 + b)), Nat2Z.inj_succ, Z.pow_succ_r by lia. lia.
Qed.

Lemma be_value_cons b l : be_value (b :: l) = b * 256 ^ Z.of_nat (length l) + be_value l.
Proof.
  unfold be_value at 1. cbn [fold_left]. rewrite fold_be_value. lia.
Qed.

Lemma be_value_be_bytes n z : be_value (be_bytes n z) = z mod 256 ^ Z.of_nat n.
Proof.
  induction n as [|n IH]; cbn [be_bytes].
  - by rewrite Z.mod_1_r.
  - rewrite be_value_cons, length_be_bytes, IH.
    rewrite Nat2Z.inj_succ, Z.pow_succ_r by lia.
    rewrite (Z.mul_comm 256), Z.rem_mul_r by lia. lia.
Qed.

Lemma be_value_be_bytes_small n z :
  0 <= z < 256 ^ Z.of_nat n -> be_value (be_bytes n z) = z.
Proof. intros H. rewrite be_value_be_bytes. by apply Z.mod_small. Qed.

Lemma be_bytes_inj n x y :
  0 <= x < 256 ^ Z.of_nat n -> 0 <= y < 256 ^ Z.of_nat n ->
  be_bytes n x = be_bytes n y -> x = y.
Proof.
  intros Hx Hy H. apply (f_equal be_value) in H.
  by rewrite !be_value_be_bytes_small in H.
Qed.

Lemma be_value_bound l : Forall is_byte l -> 0 <= be_value l < 256 ^ Z.of_nat (length l).
Proof.
  induction 1 as [|b l Hb Hl IH]; [cbn; lia|].
  rewrite be_value_cons. cbn [length]. rewrite Nat2Z.inj_succ, Z.pow_succ_r by lia.
  unfold is_byte in Hb. nia.
Qed.

#[export] Hint Resolve be_bytes_is_byte : kcml.
#[export] Hint Rewrite length_be_bytes be_value_be_bytes : kcml.

(** ** Characters *)

Definition code (c : ascii) : Z := Z.of_N (N_of_ascii c).
Definition char_of (z : Z) : ascii := ascii_of_N (Z.to_N z).

Lemma code_bound c : 0 <= code c < 256.
Proof. unfold code. pose proof (N_ascii_bounded c). lia. Qed.

Lemma char_of_code c : char_of (code c) = c.
Proof. unfold char_of, code. rewrite N2Z.id. apply ascii_N_embedding. Qed.

Lemma code_char_of z : 0 <= z < 256 -> code (char_of z) = z.
Proof. intros H. unfold char_of, code. rewrite N_ascii_embedding; lia. Qed.

Lemma code_inj c d : code c = code d -> c = d.
Proof. intros H. by rewrite <- (char_of_code c), H, char_of_code. Qed.

Definition chars (s : string) : list ascii := list_ascii_of_string s.
Definition of_chars (l : list ascii) : string := string_of_list_ascii l.

Lemma of_chars_chars s : of_chars (chars s) = s.
Proof. apply string_of_list_ascii_of_string. Qed.
Lemma chars_of_chars l : chars (of_chars l) = l.
Proof. apply list_ascii_of_string_of_list_ascii. Qed.
Lemma chars_inj s t : chars s = chars t -> s = t.
Proof. intros H. by rewrite <- (of_chars_chars s), H, of_chars_chars. Qed.
Lemma chars_app s t : chars (s +:+ t) = chars s ++ chars t.
Proof.
  induction s as [|c s IH]; [done|].
  change (c :: chars (s +:+ t) = c :: (chars s ++ chars t)). by f_equal.
Qed.
#[export] Hint Rewrite of_chars_chars chars_of_chars chars_app : kcml.

(** Character classes of the regular expressions. *)
Definition in_range (lo hi : ascii) (c : ascii) : bool :=
  (code lo <=? code c) && (code c <=? code hi).
Definition is_digit : ascii -> bool := in_range "0" "9".
Definition is_upper : ascii -> bool := in_range "A" "Z".
Definition is_lower : ascii -> bool := in_range "a" "z".
Definition is_hex (c : ascii) : bool := is_digit c || in_range "a" "f" c.

Definition str_forallb (p : ascii -> bool) (s : string) : bool := forallb p (chars s).
Definition str_existsb (p : ascii -> bool) (s : string) : bool := existsb p (chars s).
(** [s.includes(c)] for a one-character pattern *)
Definition includes_char (c : ascii) (s : string) : bool := str_existsb (Ascii.eqb c) s.
(** [s.startsWith(p)] *)
Definition starts_with (p s : string) : bool := String.prefix p s.
(** [s.endsWith(c)] for a one-character pattern *)
Definition ends_with_char (c : ascii) (s : string) : bool :=
  match last (chars s) with Some d => Ascii.eqb c d | None => false end.

Definition to_upper_char (c : ascii) : ascii :=
  if is_lower c then char_of (code c - 32) else c.
(** [toUpperCase()] on ASCII *)
Definition to_upper (s : string) : string := of_chars (map to_upper_char (chars s)).

(** [s.split(c)] *)
Fixpoint split_chars (c : ascii) (l : list ascii) : list (list ascii) :=
  match l with
  | [] => [[]]
  | d :: l =>
      if Ascii.eqb c d then [] :: split_chars c l
      else match split_chars c l with
           | [] => [[d]]
           | w :: ws => (d :: w) :: ws
           end
  end.
Definition split_on (c : ascii) (s : string) : list string :=
  map of_chars (split_chars c (chars s)).

(** [String.prototype.trim]: the white space of the modelled code units. *)
Definition js_space (c : ascii) : bool := existsb (Z.eqb (code c)) [9; 10; 11; 12; 13; 32; 160].
Fixpoint drop_spaces (l : list ascii) : list ascii :=
  match l with c :: l' => if js_space c then drop_spaces l' else l | [] => [] end.
Definition trim_chars (l : list ascii) : list ascii := rev (drop_spaces (rev (drop_spaces l))).

(** [JSON] truthiness of strings: only the empty string is falsy. *)
Definition truthy (s : string) : bool := negb (String.eqb s "").

Lemma split_chars_none c l : existsb (Ascii.eqb c) l = false -> split_chars c l = [l].
Proof.
  induction l as [|d l IH]; cbn; [done|].
  intros [-> H]%orb_false_iff. by rewrite (IH H).
Qed.

Lemma split_chars_app c l1 l2 :
  existsb (Ascii.eqb c) l1 = false ->
  split_chars c (l1 ++ c :: l2) = l1 :: split_chars c l2.
Proof.
  induction l1 as [|d l IH]; cbn.
  - intros _. by rewrite Ascii.eqb_refl.
  - intros [-> H]%orb_false_iff. by rewrite (IH H).
Qed.

(** ** Decimal text of integers ([String(n)], [n.toString(10)]) *)

Definition dec (z : Z) : string := NilZero.string_of_int (Z.to_int z).
Definition parse_dec (s : string) : option Z :=
  match NilZero.int_of_string s with
  | Some d => let z := Z.of_int d in
              if String.eqb (dec z) s then Some z else None
  | None => None
  end.

Lemma int_of_string_dec z : NilZero.int_of_string (dec z) = Some (Z.to_int z).
Proof.
  apply NilZero.isi; intros H; pose proof (DecimalZ.of_to z) as E;
    rewrite H in E; cbn in E; subst z; discriminate H.
Qed.

Lemma parse_dec_dec z : parse_dec (dec z) = Some z.
Proof.
  unfold parse_dec. by rewrite int_of_string_dec, DecimalZ.of_to, String.eqb_refl.
Qed.

Lemma dec_inj x y : dec x = dec y -> x = y.
Proof. intros H. apply (f_equal parse_dec) in H. rewrite !parse_dec_dec in H. congruence. Qed.

Definition is_dec_char (c : ascii) : bool := is_digit c || Ascii.eqb c "-".

Lemma uint_chars d : forallb is_digit (chars (NilEmpty.string_of_uint d)) = true.
Proof. unfold chars. induction d; cbn in *; auto. Qed.

Lemma zero_uint_chars d : forallb is_digit (chars (NilZero.string_of_uint d)) = true.
Proof. destruct d; try apply (uint_chars (_ d)); reflexivity. Qed.

Lemma forallb_impl {A} (p q : A -> bool) l :
  (forall x, p x = true -> q x = true) -> forallb p l = true -> forallb q l = true.
Proof. intros H. rewrite !forallb_forall. auto. Qed.

Lemma dec_chars z : forallb is_dec_char (chars (dec z)) = true.
Proof.
  assert (Hd : forall c, is_digit c = true -> is_dec_char c = true)
    by (intros c H; unfold is_dec_char; by rewrite H).
  unfold dec. destruct (Z.to_int z) as [d|d]; cbn.
  - eapply forallb_impl; [exact Hd|apply zero_uint_chars].
  - eapply forallb_impl; [exact Hd|apply zero_uint_chars].
Qed.

Lemma dec_nonempty z : chars (dec z) <> [].
Proof.
  intros H. pose proof (int_of_string_dec z) as E.
  assert (dec z = "") as H0 by (apply chars_inj; exact H).
  rewrite H0 in E. discriminate E.
Qed.

(** ** UTF-8 ([Buffer.from(s, 'utf8')]) *)

Definition utf8_char (c : ascii) : list Z :=
  if code c <? 128 then [code c] else [192 + code c / 64; 128 + code c mod 64].
Definition utf8_chars (l : list ascii) : list Z := l ≫= utf8_char.
Definition utf8 (s : string) : list Z := utf8_chars (chars s).

(** [buffer.toString('utf8')]; [None] for bytes outside the modelled
    character range. *)
Fixpoint utf8_decode_chars (l : list Z) : option (list ascii) :=
  match l with
  | [] => Some []
  | b :: l =>
      if b <? 128 then cons (char_of b) <$> utf8_decode_chars l
      else match l with
           | c :: l =>
               if ((b =? 194) || (b =? 195)) && (128 <=? c) && (c <? 192)
               then cons (char_of ((b - 192) * 64 + (c - 128))) <$> utf8_decode_chars l
               else None
           | [] => None
           end
  end.
Definition utf8_decode (l : list Z) : option string := of_chars <$> utf8_decode_chars l.

Lemma utf8_decode_chars_spec l : utf8_decode_chars (utf8_chars l) = Some l.
Proof.
  induction l as [|c l IH]; [done|]. unfold utf8_chars in *. cbn [mbind list_bind].
  pose proof (code_bound c) as Hc. unfold utf8_char at 1.
  destruct (code c <? 128) eqn:E; cbn [app utf8_decode_chars].
  - rewrite E, IH. cbn. by rewrite char_of_code.
  - assert (E2 : (192 + code c / 64 <? 128) = false)
      by (apply Z.ltb_ge; pose proof (Z.div_pos (code c) 64); lia).
    apply Z.ltb_ge in E. rewrite E2.
    assert (Hq : code c / 64 = 2 \/ code c / 64 = 3).
    { assert (2 <= code c / 64 < 4); [|lia]. split.
      - apply Z.div_le_lower_bound; lia.
      - apply Z.div_lt_upper_bound; lia. }
    pose proof (Z.mod_pos_bound (code c) 64). pose proof (Z.div_mod (code c) 64).
    replace (_ && _ && _) with true.
    + assert (Hz : (192 + code c / 64 - 192) * 64 + (128 + code c mod 64 - 128) = code c) by lia.
      by rewrite IH, Hz, char_of_code.
    + symmetry. rewrite !andb_true_iff, orb_true_iff, !Z.eqb_eq, Z.leb_le, Z.ltb_lt. lia.
Qed.

Lemma utf8_decode_utf8 s : utf8_decode (utf8 s) = Some s.
Proof. unfold utf8_decode, utf8. rewrite utf8_decode_chars_spec. cbn. by rewrite of_chars_chars. Qed.

Lemma utf8_inj s t : utf8 s = utf8 t -> s = t.
Proof. intros H. apply (f_equal utf8_decode) in H. rewrite !utf8_decode_utf8 in H. congruence. Qed.

Lemma utf8_is_byte s : Forall is_byte (utf8 s).
Proof.
  unfold utf8, utf8_chars. apply Forall_bind. apply Forall_forall. intros c _.
  change (Forall is_byte (utf8_char c)).
  unfold utf8_char. pose proof (code_bound c). destruct (code c <? 128) eqn:E;
    [apply Z.ltb_lt in E|apply Z.ltb_ge in E]; rewrite ?Forall_cons; unfold is_byte;
    repeat split; auto; Z.to_euclidean_division_equations; lia.
Qed.
#[export] Hint Resolve utf8_is_byte : kcml.
#[export] Hint Rewrite utf8_decode_utf8 parse_dec_dec : kcml.

(** ** Hexadecimal ([digest('hex')], [Buffer.from(s, 'hex')]) *)

Definition hex_digit (n : Z) : ascii := if n <? 10 then char_of (48 + n) else char_of (87 + n).
Definition hex_value (c : ascii) : option Z :=
  if is_digit c then Some (code c - 48)
  else if in_range "a" "f" c then Some (code c - 87)
  else if in_range "A" "F" c then Some (code c - 55) else None.

Definition hex_chars (l : list Z) : list ascii :=
  l ≫= fun b => [hex_digit (b / 16); hex_digit (b mod 16)].
Definition hex (l : list Z) : string := of_chars (hex_chars l).

(** Decoding stops at the first pair that is not hexadecimal. *)
Fixpoint hex_decode_chars (l : list ascii) : list Z :=
  match l with
  | c :: d :: l =>
      match hex_value c, hex_value d with
      | Some x, Some y => x * 16 + y :: hex_decode_chars l
      | _, _ => []
      end
  | _ => []
  end.
Definition hex_decode (s : string) : list Z := hex_decode_chars (chars s).

(** A check of a decidable fact about every number below [n]. *)
Definition all_below (n : nat) (p : Z -> bool) : bool := forallb p (map Z.of_nat (seq 0 n)).
Lemma all_below_spec n p z : all_below n p = true -> 0 <= z < Z.of_nat n -> p z = true.
Proof.
  unfold all_below. rewrite forallb_forall. intros H Hz. apply H.
  apply in_map_iff. exists (Z.to_nat z). rewrite in_seq. lia.
Qed.

Lemma hex_value_digit n : 0 <= n < 16 -> hex_value (hex_digit n) = Some n.
Proof.
  intros H.
  assert (all_below 16 (fun n => bool_decide (hex_value (hex_digit n) = Some n)) = true)
    as Ha by (vm_compute; reflexivity).
  by apply (all_below_spec _ _ n) in Ha as ?%bool_decide_eq_true.
Qed.

Lemma hex_decode_hex l : Forall is_byte l -> hex_decode (hex l) = l.
Proof.
  intros Hl. unfold hex_decode, hex. rewrite chars_of_chars.
  induction Hl as [|b l Hb Hl IH]; [done|]. unfold is_byte in Hb.
  change (hex_chars (b :: l)) with (hex_digit (b / 16) :: hex_digit (b mod 16) :: hex_chars l).
  cbn [hex_decode_chars].
  rewrite !hex_value_digit, IH by (Z.to_euclidean_division_equations; lia).
  f_equal. Z.to_euclidean_division_equations; lia.
Qed.

Lemma hex_inj l k : Forall is_byte l -> Forall is_byte k -> hex l = hex k -> l = k.
Proof. intros Hl Hk H. by rewrite <- (hex_decode_hex l), <- (hex_decode_hex k), H. Qed.

Lemma length_hex l : String.length (hex l) = (2 * length l)%nat.
Proof.
  assert (Hs : forall s, String.length s = length (chars s))
    by (unfold chars; induction s; cbn; congruence).
  unfold hex. rewrite Hs, chars_of_chars.
  induction l as [|b l IH]; [done|].
  change (hex_chars (b :: l)) with (hex_digit (b / 16) :: hex_digit (b mod 16) :: hex_chars l).
  cbn. lia.
Qed.

(** ** Base64 ([toString('base64')], [toString('base64url')], [Buffer.from]) *)

Definition b64_alphabet : list ascii :=
  chars "ABCDEFGHIJKLMNOPQRSTUVWXYZabcdefghijklmnopqrstuvwxyz0123456789+/".
Definition b64url_alphabet : list ascii :=
  chars "ABCDEFGHIJKLMNOPQRSTUVWXYZabcdefghijklmnopqrstuvwxyz0123456789-_".
Definition letter (alphabet : list ascii) (n : Z) : ascii := nth (Z.to_nat n) alphabet "="%char.

Fixpoint b64_chars (alphabet : list ascii) (pad : bool) (l : list Z) : list ascii :=
  let L := letter alphabet in
  match l with
  | [] => []
  | [a] => [L (a / 4); L (a mod 4 * 16)] ++ if pad then ["="; "="]%char else []
  | [a; b] => [L (a / 4); L (a mod 4 * 16 + b / 16); L (b mod 16 * 4)] ++ if pad then ["="]%char else []
  | a :: b :: c :: l =>
      [L (a / 4); L (a mod 4 * 16 + b / 16); L (b mod 16 * 4 + c / 64); L (c mod 64)]
      ++ b64_chars alphabet pad l
  end.
Definition base64 (l : list Z) : string := of_chars (b64_chars b64_alphabet true l).
Definition base64url (l : list Z) : string := of_chars (b64_chars b64url_alphabet false l).

(** Node's decoder accepts both alphabets, skips other characters and stops at
    the padding. *)
Definition b64_value (c : ascii) : option Z :=
  if is_upper c then Some (code c - 65)
  else if is_lower c then Some (code c - 71)
  else if is_digit c then Some (code c + 4)
  else if Ascii.eqb c "+" || Ascii.eqb c "-" then Some 62
  else if Ascii.eqb c "/" || Ascii.eqb c "_" then Some 63 else None.
Fixpoint b64_values (l : list ascii) : list Z :=
  match l with
  | [] => []
  | c :: l => if Ascii.eqb c "=" then []
              else match b64_value c with Some v => v :: b64_values l | None => b64_values l end
  end.
Fixpoint b64_bytes (l : list Z) : list Z :=
  match l with
  | a :: b :: c :: d :: l =>
      [a * 4 + b / 16; b mod 16 * 16 + c / 4; c mod 4 * 64 + d] ++ b64_bytes l
  | [a; b; c] => [a * 4 + b / 16; b mod 16 * 16 + c / 4]
  | [a; b] => [a * 4 + b / 16]
  | _ => []
  end.
Definition base64_decode (s : string) : list Z := b64_bytes (b64_values (chars s)).

Lemma b64url_letter n :
  0 <= n < 64 ->
  Ascii.eqb (letter b64url_alphabet n) "=" = false /\ b64_value (letter b64url_alphabet n) = Some n.
Proof.
  intros H.
  assert (all_below 64 (fun n => negb (Ascii.eqb (letter b64url_alphabet n) "=") &&
    bool_decide (b64_value (letter b64url_alphabet n) = Some n)) = true)
    as Ha by (vm_compute; reflexivity).
  apply (all_below_spec _ _ n) in Ha; [|done]. cbv beta in Ha. reflect_bools. auto.
Qed.

Lemma b64_values_letter n l :
  0 <= n < 64 ->
  b64_values (letter b64url_alphabet n :: l) = n :: b64_values l.
Proof. intros [E1 E2]%b64url_letter. cbn [b64_values]. by rewrite E1, E2. Qed.

Lemma list_ind3 {A} (P : list A -> Prop) :
  P [] -> (forall a, P [a]) -> (forall a b, P [a; b]) ->
  (forall a b c l, P l -> P (a :: b :: c :: l)) -> forall l, P l.
Proof.
  intros H0 H1 H2 H3. fix IH 1. intros [|a [|b [|c l]]]; [apply H0|apply H1|apply H2|].
  apply H3, IH.
Qed.

(** Every buffer survives the URL-safe text form. *)
Lemma base64_decode_base64url l : Forall is_byte l -> base64_decode (base64url l) = l.
Proof.
  unfold base64_decode, base64url. rewrite chars_of_chars.
  induction l as [|a|a b|a b c l IH] using list_ind3; intros Hl; [done|..];
    rewrite ?Forall_cons in Hl; unfold is_byte in Hl; destruct_and?;
    cbn [b64_chars app];
    rewrite !b64_values_letter by (Z.to_euclidean_division_equations; lia);
    cbn [b64_values b64_bytes app]; [..|rewrite IH by done];
    repeat (f_equal; try (Z.to_euclidean_division_equations; lia)).
Qed.
#[export] Hint Resolve base64_decode_base64url hex_decode_hex : kcml.

(** ** The code-unit order of strings ([a < b], [sort()] without comparator) *)

Fixpoint lex_leb (a b : list Z) : bool :=
  match a, b with
  | [], _ => true
  | _ :: _, [] => false
  | x :: a, y :: b => if x <? y then true else if x =? y then lex_leb a b else false
  end.
Definition str_leb (s t : string) : bool := lex_leb (map code (chars s)) (map code (chars t)).
(** [s < t] *)
Definition str_ltb (s t : string) : bool := negb (str_leb t s).

Lemma lex_leb_total a b : lex_leb a b = true \/ lex_leb b a = true.
Proof.
  revert b; induction a as [|x a IH]; intros [|y b]; cbn; auto.
  destruct (Z.ltb_spec x y), (Z.ltb_spec y x), (Z.eqb_spec x y), (Z.eqb_spec y x); auto; lia.
Qed.
Lemma lex_leb_trans a b c : lex_leb a b = true -> lex_leb b c = true -> lex_leb a c = true.
Proof.
  revert b c; induction a as [|x a IH]; intros [|y b] [|z c]; cbn; auto; try discriminate.
  destruct (Z.ltb_spec x y), (Z.ltb_spec y z), (Z.ltb_spec x z), (Z.eqb_spec x y),
    (Z.eqb_spec y z), (Z.eqb_spec x z); auto; try lia; try discriminate; eauto.
Qed.
Lemma lex_leb_antisym a b : lex_leb a b = true -> lex_leb b a = true -> a = b.
Proof.
  revert b; induction a as [|x a IH]; intros [|y b]; cbn; auto; try discriminate.
  destruct (Z.ltb_spec x y), (Z.ltb_spec y x), (Z.eqb_spec x y), (Z.eqb_spec y x);
    try lia; try discriminate. intros ? ?. subst. f_equal. auto.
Qed.

Lemma str_leb_total s t : str_leb s t = true \/ str_leb t s = true.
Proof. apply lex_leb_total. Qed.
Lemma str_leb_trans s t u : str_leb s t = true -> str_leb t u = true -> str_leb s u = true.
Proof. apply lex_leb_trans. Qed.
Lemma str_leb_antisym s t : str_leb s t = true -> str_leb t s = true -> s = t.
Proof.
  intros H1 H2. apply chars_inj.
  assert (Hi : Inj eq eq code) by (intros c d; apply code_inj).
  apply (inj (map code)). by apply lex_leb_antisym.
Qed.
Lemma str_leb_refl s : str_leb s s = true.
Proof. destruct (str_leb_total s s); done. Qed.
#[export] Hint Resolve str_leb_refl str_leb_trans str_leb_total : kcml.
