(* ===== verification/Json.v ===== *)
(** * JSON values and their canonical text

    [packages/schemas/src/index.ts]: the [CanonicalJsonValue] tree,
    [canonicalJson] and the digest of it, with the parts of the JSON object of
    the language they use ([JSON.stringify] of scalars, [JSON.parse],
    [Object.entries]).  Numbers are the safe integers: a JSON number with a
    fraction or an exponent is outside the model. *)
From Stdlib Require Import Ascii String.
From S2P Require Import Prelude.
From S2P Require Import Bytes.

#[local] Set Warnings "-register-all".

(** [String.prototype.localeCompare] is implementation-defined: all the code
    can rely on is a consistent comparison.  Its antisymmetry (distinct
    strings never compare equal) is a separate property, which collations of
    full Unicode do not have. *)
Class Locale := {
  locale_leb : string -> string -> bool;
  locale_total : forall s t, locale_leb s t = true \/ locale_leb t s = true;
  locale_trans : forall s t u, locale_leb s t = true -> locale_leb t u = true -> locale_leb s u = true;
}.
Class LocaleAntisym `{Locale} := locale_antisym :
  forall s t, locale_leb s t = true -> locale_leb t s = true -> s = t.

(** The comparison of a runtime without collation data: code-unit order. *)
Definition code_unit_locale : Locale :=
  {| locale_leb := str_leb; locale_total := str_leb_total; locale_trans := str_leb_trans |}.
Lemma code_unit_locale_antisym : @LocaleAntisym code_unit_locale.
Proof. exact str_leb_antisym. Qed.

(** ** Values *)

Inductive json :=
| JNull
| JBool (b : bool)
| JNum (z : Z)
| JStr (s : string)
| JArr (l : list json)
| JObj (l : list (string * json)).

Section JsonInd.
Context (P : json -> Prop).
Context (Hnull : P JNull) (Hbool : forall b, P (JBool b)) (Hnum : forall z, P (JNum z))
  (Hstr : forall s, P (JStr s)) (Harr : forall l, Forall P l -> P (JArr l))
  (Hobj : forall l, Forall (fun kv => P (snd kv)) l -> P (JObj l)).
Fixpoint json_nested_ind (j : json) : P j :=
  match j with
  | JNull => Hnull | JBool b => Hbool b | JNum z => Hnum z | JStr s => Hstr s
  | JArr l => Harr l ((fix go l : Forall P l := match l with
      | [] => List.Forall_nil _ | j :: l => List.Forall_cons _ _ _ (json_nested_ind j) (go l) end) l)
  | JObj l => Hobj l ((fix go l : Forall (fun kv => P (snd kv)) l := match l with
      | [] => List.Forall_nil _
      | kv :: l => List.Forall_cons _ _ _ (json_nested_ind (snd kv)) (go l) end) l)
  end.
End JsonInd.

(** The largest safe integer of a double. *)
Definition max_safe : Z := 2 ^ 53 - 1.
Definition safe_int (z : Z) : bool := (- max_safe <=? z) && (z <=? max_safe).

(** Numbers are safe and the keys of an object are distinct. *)
Fixpoint wf_json (j : json) : bool :=
  match j with
  | JNum z => safe_int z
  | JArr l => forallb wf_json l
  | JObj l => bool_decide (NoDup (map fst l)) && forallb (fun kv => wf_json (snd kv)) l
  | _ => true
  end.

(** ** Objects

    An object is the list of its own properties in creation order. *)

(** Array-index keys are enumerated first, in numeric order. *)
Definition index_of_key (k : string) : option Z :=
  match parse_dec k with
  | Some z => if (0 <=? z) && (z <? 2 ^ 32 - 1) then Some z else None
  | None => None
  end.
Definition is_index {A} (kv : string * A) : bool :=
  match index_of_key (fst kv) with Some _ => true | None => false end.
Definition index_leb {A} (a b : string * A) : bool :=
  match index_of_key (fst a), index_of_key (fst b) with
  | Some x, Some y => x <=? y
  | _, _ => true
  end.
(** [Object.entries(o)] *)
Definition object_entries {A} (l : list (string * A)) : list (string * A) :=
  stable_sort index_leb (List.filter is_index l) ++ List.filter (fun kv => negb (is_index kv)) l.

Lemma filter_negb_perm {A} (p : A -> bool) l :
  List.filter p l ++ List.filter (fun x => negb (p x)) l ≡ₚ l.
Proof.
  induction l as [|x l IH]; cbn; [done|]. destruct (p x); cbn.
  - by rewrite IH.
  - by rewrite <- Permutation_middle, IH.
Qed.

Lemma object_entries_perm {A} (l : list (string * A)) : object_entries l ≡ₚ l.
Proof. unfold object_entries. rewrite stable_sort_perm. apply filter_negb_perm. Qed.

(** Own-property definition: in place for a known key, at the end otherwise. *)
Fixpoint define_prop {A} (k : string) (v : A) (l : list (string * A)) : list (string * A) :=
  match l with
  | [] => [(k, v)]
  | (k', v') :: l => if String.eqb k k' then (k', v) :: l else (k', v') :: define_prop k v l
  end.
(** [o.k] *)
Fixpoint get_prop {A} (k : string) (l : list (string * A)) : option A :=
  match l with
  | [] => None
  | (k', v) :: l => if String.eqb k k' then Some v else get_prop k l
  end.

Lemma define_prop_fresh {A} k (v : A) l : k ∉ map fst l -> define_prop k v l = l ++ [(k, v)].
Proof.
  induction l as [|[k' v'] l IH]; cbn; [done|].
  rewrite not_elem_of_cons. intros [Hk Hl].
  destruct (String.eqb_spec k k'); [done|]. by rewrite IH.
Qed.

Lemma get_define {A} k k' (v : A) l : get_prop k (define_prop k' v l) = if String.eqb k k' then Some v else get_prop k l.
Proof.
  induction l as [|[k1 v1] l IH]; cbn.
  - done.
  - destruct (String.eqb_spec k' k1) as [->|Hne]; cbn; [by destruct (String.eqb k k1)|].
    rewrite IH. destruct (String.eqb_spec k k1), (String.eqb_spec k k'); congruence.
Qed.
Lemma get_define_eq {A} k (v : A) l : get_prop k (define_prop k v l) = Some v.
Proof. by rewrite get_define, String.eqb_refl. Qed.
Lemma get_define_ne {A} k k' (v : A) l : k <> k' -> get_prop k (define_prop k' v l) = get_prop k l.
Proof. intros Hn. by rewrite get_define, (proj2 (String.eqb_neq k k')). Qed.
Lemma define_keys {A} k (v : A) l x : x ∈ map fst (define_prop k v l) <-> x = k \/ x ∈ map fst l.
Proof.
  induction l as [|[k1 v1] l IH]; cbn; [by rewrite list_elem_of_singleton, elem_of_nil; tauto|].
  destruct (String.eqb_spec k k1) as [->|?]; cbn; rewrite !elem_of_cons, ?IH; tauto.
Qed.

(** ** Text of scalars ([JSON.stringify]) *)

Definition escape_char (c : ascii) : list ascii :=
  if code c =? 34 then [char_of 92; char_of 34]
  else if code c =? 92 then [char_of 92; char_of 92]
  else if code c =? 8 then ["\"; "b"]%char
  else if code c =? 9 then ["\"; "t"]%char
  else if code c =? 10 then ["\"; "n"]%char
  else if code c =? 12 then ["\"; "f"]%char
  else if code c =? 13 then ["\"; "r"]%char
  else if code c <? 32 then ["\"; "u"; "0"; "0"; hex_digit (code c / 16); hex_digit (code c mod 16)]%char
  else [c].
Definition quote : ascii := "034"%char.
Definition quote_chars (l : list ascii) : list ascii :=
  quote :: (l ≫= escape_char) ++ [quote].
Definition quote_string (s : string) : list ascii := quote_chars (chars s).

(** [parts.join(',')] *)
Fixpoint join_commas (parts : list (list ascii)) : list ascii :=
  match parts with
  | [] => []
  | [p] => p
  | p :: parts => p ++ ","%char :: join_commas parts
  end.

(** ** The canonical text *)

Section Canonical.
Context `{L : Locale}.

Definition key_leb {A} (a b : string * A) : bool := locale_leb (fst a) (fst b).
(** [Object.entries(o).sort(([l],[r]) => l.localeCompare(r))] *)
Definition sorted_entries {A} (l : list (string * A)) : list (string * A) :=
  stable_sort key_leb (object_entries l).

Definition member_text (kv : string * list ascii) : list ascii :=
  quote_string (fst kv) ++ ":"%char :: snd kv.

(** [canonicalJson] (the texts of the values are computed before the sort,
    which only looks at the keys). *)
Fixpoint canonical_chars (j : json) : list ascii :=
  match j with
  | JNull => chars "null"
  | JBool true => chars "true"
  | JBool false => chars "false"
  | JNum z => chars (dec z)
  | JStr s => quote_string s
  | JArr l => "["%char :: join_commas (map canonical_chars l) ++ ["]"%char]
  | JObj l =>
      "{"%char :: join_commas (map member_text
        (sorted_entries (map (fun kv => (fst kv, canonical_chars (snd kv))) l))) ++ ["}"%char]
  end.
Definition canonicalJson (j : json) : string := of_chars (canonical_chars j).

(** The value with every object in the order of its canonical text. *)
Fixpoint sort_keys (j : json) : json :=
  match j with
  | JArr l => JArr (map sort_keys l)
  | JObj l => JObj (sorted_entries (map (fun kv => (fst kv, sort_keys (snd kv))) l))
  | _ => j
  end.

Lemma key_leb_total {A} (a b : string * A) : key_leb a b = true \/ key_leb b a = true.
Proof. apply locale_total. Qed.
Lemma key_leb_trans {A} (a b c : string * A) :
  key_leb a b = true -> key_leb b c = true -> key_leb a c = true.
Proof. apply locale_trans. Qed.

Lemma sorted_entries_perm {A} (l : list (string * A)) : sorted_entries l ≡ₚ l.
Proof. unfold sorted_entries. by rewrite stable_sort_perm, object_entries_perm. Qed.

(** Sorting by key commutes with mapping the values. *)
Lemma sorted_entries_map {A B} (f : A -> B) (l : list (string * A)) :
  sorted_entries (map (fun kv => (fst kv, f (snd kv))) l) =
  map (fun kv => (fst kv, f (snd kv))) (sorted_entries l).
Proof.
  unfold sorted_entries, object_entries.
  rewrite (filter_map_swap _ (@is_index A)) by done.
  rewrite (filter_map_swap _ (fun kv : string * A => negb (is_index kv))) by done.
  rewrite (stable_sort_map (@index_leb A)) by done.
  rewrite <- map_app. by rewrite (stable_sort_map (@key_leb A)).
Qed.

Definition is_scalar (j : json) : bool :=
  match j with JArr _ | JObj _ => false | _ => true end.
(** Equality of values up to the order of object keys. *)
Inductive json_equiv : json -> json -> Prop :=
| equiv_scalar j : is_scalar j = true -> json_equiv j j
| equiv_arr l k : Forall2 json_equiv l k -> json_equiv (JArr l) (JArr k)
| equiv_obj l l' k :
    l ≡ₚ l' -> Forall2 (fun a b => fst a = fst b /\ json_equiv (snd a) (snd b)) l' k ->
    json_equiv (JObj l) (JObj k).

Lemma json_equiv_sort_keys j : json_equiv j (sort_keys j).
Proof.
  induction j as [|b|z|s|l IH|l IH] using json_nested_ind; cbn;
    try (by constructor).
  - apply equiv_arr. induction IH; cbn; constructor; auto.
  - rewrite sorted_entries_map. econstructor.
    + symmetry. apply sorted_entries_perm.
    + rewrite <- (sorted_entries_perm l) in IH. revert IH.
      generalize (sorted_entries l) as k. intros k IH.
      induction IH; cbn; constructor; auto.
Qed.
End Canonical.

(** ** [JSON.parse]

    On the integer numbers of the model and on the characters 0..255; [None]
    is a [SyntaxError] or a value outside the model. *)

Definition is_space (c : ascii) : bool :=
  (code c =? 32) || (code c =? 9) || (code c =? 10) || (code c =? 13).
Fixpoint skip_space (l : list ascii) : list ascii :=
  match l with c :: l' => if is_space c then skip_space l' else l | [] => [] end.

Fixpoint span (p : ascii -> bool) (l : list ascii) : list ascii * list ascii :=
  match l with
  | c :: l' => if p c then let '(a, b) := span p l' in (c :: a, b) else ([], l)
  | [] => ([], [])
  end.

Definition parse_number (l : list ascii) : option (Z * list ascii) :=
  let '(tok, rest) := span is_dec_char l in
  match rest with
  | c :: _ => if Ascii.eqb c "." || Ascii.eqb c "e" || Ascii.eqb c "E" then None
              else z ← parse_dec (of_chars tok); if safe_int z then Some (z, rest) else None
  | [] => z ← parse_dec (of_chars tok); if safe_int z then Some (z, rest) else None
  end.

Definition unescape (c : ascii) : option ascii :=
  if (code c =? 34) || (code c =? 92) || (code c =? 47) then Some c
  else if Ascii.eqb c "b" then Some (char_of 8)
  else if Ascii.eqb c "t" then Some (char_of 9)
  else if Ascii.eqb c "n" then Some (char_of 10)
  else if Ascii.eqb c "f" then Some (char_of 12)
  else if Ascii.eqb c "r" then Some (char_of 13) else None.

(** The body of a string, after the opening quote. *)
Fixpoint parse_string (l : list ascii) : option (list ascii * list ascii) :=
  match l with
  | [] => None
  | c :: l =>
      if code c =? 34 then Some ([], l)
      else if code c =? 92 then
        match l with
        | "u"%char :: a :: b :: x :: y :: l =>
            match hex_value a, hex_value b, hex_value x, hex_value y with
            | Some 0, Some 0, Some h, Some k =>
                '(s, r) ← parse_string l; Some (char_of (h * 16 + k) :: s, r)
            | _, _, _, _ => None
            end
        | d :: l => e ← unescape d; '(s, r) ← parse_string l; Some (e :: s, r)
        | [] => None
        end
      else if code c <? 32 then None
      else '(s, r) ← parse_string l; Some (c :: s, r)
  end.

Definition literal (word : string) (j : json) (l : list ascii) : option (json * list ascii) :=
  let w := chars word in
  if bool_decide (firstn (length w) l = w) then Some (j, skipn (length w) l) else None.

Fixpoint parse_value (n : nat) (l : list ascii) : option (json * list ascii) :=
  match n with
  | O => None
  | S n =>
      match skip_space l with
      | [] => None
      | c :: r =>
          if Ascii.eqb c quote then '(s, r) ← parse_string r; Some (JStr (of_chars s), r)
          else if Ascii.eqb c "[" then
            match skip_space r with
            | "]"%char :: r' => Some (JArr [], r')
            | r' => '(es, r) ← parse_elements n r'; Some (JArr es, r)
            end
          else if Ascii.eqb c "{" then
            match skip_space r with
            | "}"%char :: r' => Some (JObj [], r')
            | r' => '(ms, r) ← parse_members n [] r'; Some (JObj ms, r)
            end
          else if Ascii.eqb c "n" then literal "null" JNull (c :: r)
          else if Ascii.eqb c "t" then literal "true" (JBool true) (c :: r)
          else if Ascii.eqb c "f" then literal "false" (JBool false) (c :: r)
          else '(z, r) ← parse_number (c :: r); Some (JNum z, r)
      end
  end
with parse_elements (n : nat) (l : list ascii) : option (list json * list ascii) :=
  match n with
  | O => None
  | S n =>
      '(j, r) ← parse_value n l;
      match skip_space r with
      | ","%char :: r => '(js, r) ← parse_elements n r; Some (j :: js, r)
      | "]"%char :: r => Some ([j], r)
      | _ => None
      end
  end
with parse_members (n : nat) (acc : list (string * json)) (l : list ascii)
    : option (list (string * json) * list ascii) :=
  match n with
  | O => None
  | S n =>
      match skip_space l with
      | c :: r =>
          if Ascii.eqb c quote then
            '(k, r) ← parse_string r;
            match skip_space r with
            | ":"%char :: r =>
                '(j, r) ← parse_value n r;
                let acc := define_prop (of_chars k) j acc in
                match skip_space r with
                | ","%char :: r => parse_members n acc r
                | "}"%char :: r => Some (acc, r)
                | _ => None
                end
            | _ => None
            end
          else None
      | [] => None
      end
  end.

(** [JSON.parse(s)]: every level consumes a character, so the length is
    enough fuel (twice, for the element and the value levels). *)
Definition JSON_parse_chars (l : list ascii) : option json :=
  '(j, r) ← parse_value (2 * length l + 2) l;
  match skip_space r with [] => Some j | _ => None end.
Definition JSON_parse (s : string) : option json := JSON_parse_chars (chars s).

(** ** Round trip of the text form *)

(** The text of a value with the members of every object in list order. *)
Fixpoint print_chars (j : json) : list ascii :=
  match j with
  | JNull => chars "null"
  | JBool true => chars "true"
  | JBool false => chars "false"
  | JNum z => chars (dec z)
  | JStr s => quote_string s
  | JArr l => "["%char :: join_commas (map print_chars l) ++ ["]"%char]
  | JObj l => "{"%char :: join_commas (map member_text
                (map (fun kv => (fst kv, print_chars (snd kv))) l)) ++ ["}"%char]
  end.

(** Fuel that [parse_value] needs for a value. *)
Fixpoint psize (j : json) : nat :=
  match j with
  | JArr l => S (foldr (fun j n => S (psize j + n)) O l)
  | JObj l => S (foldr (fun kv n => S (psize (snd kv) + n)) O l)
  | _ => 1
  end%nat.

(** What may follow a number. *)
Definition delimited (rest : list ascii) : Prop :=
  match rest with
  | c :: _ => is_dec_char c || Ascii.eqb c "." || Ascii.eqb c "e" || Ascii.eqb c "E" = false
  | [] => True
  end.

Ltac all_chars c := destruct c as [[] [] [] [] [] [] [] []].

Lemma parse_string_escape c t :
  parse_string (escape_char c ++ t) = ('(s, r) ← parse_string t; Some (c :: s, r)).
Proof. all_chars c; reflexivity. Qed.

Lemma parse_string_quote s rest :
  parse_string ((s ≫= escape_char) ++ quote :: rest) = Some (s, rest).
Proof.
  induction s as [|c s IH]; [reflexivity|].
  change ((c :: s) ≫= escape_char) with (escape_char c ++ (s ≫= escape_char)).
  rewrite <- app_assoc, parse_string_escape, IH. reflexivity.
Qed.

Lemma span_app p a b :
  forallb p a = true -> match b with c :: _ => p c = false | [] => True end ->
  span p (a ++ b) = (a, b).
Proof.
  induction a as [|c a IH]; cbn.
  - intros _ Hb. destruct b as [|c b]; cbn; [done|by rewrite Hb].
  - intros [-> Ha]%andb_true_iff Hb. by rewrite (IH Ha Hb).
Qed.

Lemma delimited_inv rest : delimited rest ->
  match rest with c :: _ => is_dec_char c = false | [] => True end.
Proof. destruct rest; cbn; [done|]. intros H; reflect_bools. done. Qed.

Lemma parse_number_dec z rest :
  safe_int z = true -> delimited rest -> parse_number (chars (dec z) ++ rest) = Some (z, rest).
Proof.
  intros Hz Hr. unfold parse_number.
  rewrite (span_app _ _ _ (dec_chars z) (delimited_inv _ Hr)).
  rewrite of_chars_chars, parse_dec_dec. cbn. rewrite Hz.
  destruct rest as [|c r]; [done|]. cbn in Hr. reflect_bools.
  match goal with H : is_dec_char _ = false |- _ => clear H end.
  by repeat match goal with H : _ = false |- _ => rewrite H; clear H end.
Qed.

Lemma dec_char_dispatch c : is_dec_char c = true ->
  is_space c = false /\ Ascii.eqb c quote = false /\ Ascii.eqb c "[" = false /\
  Ascii.eqb c "{" = false /\ Ascii.eqb c "n" = false /\ Ascii.eqb c "t" = false /\
  Ascii.eqb c "f" = false.
Proof. all_chars c; try discriminate; repeat split. Qed.

Lemma parse_value_number n z rest :
  safe_int z = true -> delimited rest ->
  parse_value (S n) (chars (dec z) ++ rest) = Some (JNum z, rest).
Proof.
  intros Hz Hr. pose proof (dec_chars z) as Hc. pose proof (dec_nonempty z) as Hn.
  pose proof (parse_number_dec z rest Hz Hr) as Hp.
  destruct (chars (dec z)) as [|c r] eqn:E; [done|].
  cbn in Hc. apply andb_true_iff in Hc as [Hc _].
  destruct (dec_char_dispatch c Hc) as (H0 & H1 & H2 & H3 & H4 & H5 & H6).
  cbn [app parse_value skip_space]. rewrite H0, H1, H2, H3, H4, H5, H6.
  change (c :: r ++ rest) with ((c :: r) ++ rest). by rewrite Hp.
Qed.

Lemma print_head j rest : wf_json j = true ->
  exists c r, print_chars j ++ rest = c :: r /\ is_space c = false /\ Ascii.eqb c "]" = false.
Proof.
  destruct j as [|[]|z|s|l|l]; intros _; try (eexists _, _; repeat split; reflexivity).
  cbn. pose proof (dec_chars z) as Hc. pose proof (dec_nonempty z) as Hn.
  destruct (chars (dec z)) as [|c r]; [done|]. exists c, (r ++ rest). split; [done|].
  cbn in Hc. apply andb_true_iff in Hc as [Hc _].
  split; [by apply dec_char_dispatch|]. all_chars c; try discriminate Hc; reflexivity.
Qed.

Definition parses (j : json) : Prop :=
  wf_json j = true -> forall n rest, (psize j <= n)%nat -> delimited rest ->
  parse_value n (print_chars j ++ rest) = Some (j, rest).

Lemma parse_elements_print j l n rest :
  Forall parses (j :: l) -> forallb wf_json (j :: l) = true ->
  (foldr (fun j n => S (psize j + n)) O (j :: l) <= n)%nat ->
  parse_elements n (join_commas (map print_chars (j :: l)) ++ "]"%char :: rest) =
  Some (j :: l, rest).
Proof.
  revert j n; induction l as [|k l IH]; intros j n HP Hwf Hn;
    rewrite Forall_cons in HP; destruct HP as [Hj HP];
    cbn [forallb] in Hwf; apply andb_true_iff in Hwf as [Hwj Hwf];
    (destruct n as [|n]; [cbn in Hn; lia|]).
  - cbn [map join_commas parse_elements]. cbn in Hn.
    rewrite Hj; [reflexivity|done|lia|reflexivity].
  - change (join_commas (map print_chars (j :: k :: l))) with
      (print_chars j ++ ","%char :: join_commas (map print_chars (k :: l))).
    cbn [foldr] in Hn. cbn [parse_elements]. rewrite <- app_assoc.
    rewrite Hj; [|done|lia|reflexivity]. cbn [mbind option_bind skip_space app].
    change (is_space ",") with false. cbn match.
    rewrite IH; [reflexivity|done|done|cbn [foldr]; lia].
Qed.

Lemma parse_members_print kv l n acc rest :
  Forall (fun kv => parses (snd kv)) (kv :: l) ->
  forallb (fun kv => wf_json (snd kv)) (kv :: l) = true ->
  NoDup (map fst (acc ++ kv :: l)) ->
  (foldr (fun kv n => S (psize (snd kv) + n)) O (kv :: l) <= n)%nat ->
  parse_members n acc (join_commas (map member_text
     (map (fun kv => (fst kv, print_chars (snd kv))) (kv :: l))) ++ "}"%char :: rest) =
  Some (acc ++ kv :: l, rest).
Proof.
  revert kv n acc; induction l as [|kv' l IH]; intros [k j] n acc HP Hwf Hnd Hn;
    rewrite Forall_cons in HP; destruct HP as [Hj HP];
    cbn [forallb] in Hwf; apply andb_true_iff in Hwf as [Hwj Hwf];
    (destruct n as [|n]; [cbn in Hn; lia|]); cbn [snd] in Hj, Hwj.
  all: assert (Hfresh : k ∉ map fst acc)
    by (rewrite map_app in Hnd; apply NoDup_app in Hnd as (_ & Hd & _);
        intros Hk; apply (Hd k Hk); left).
  - cbn [map join_commas foldr snd fst] in *. unfold member_text, quote_string, quote_chars.
    cbn [parse_members fst snd app]. change (skip_space (quote :: ?r)) with (quote :: r).
    repeat first [rewrite <- app_assoc | progress cbn [app]].
    change (Ascii.eqb quote quote) with true. cbn match. rewrite parse_string_quote.
    cbn [mbind option_bind]. cbn [skip_space]. change (is_space ":") with false. cbn match.
    rewrite Hj; [|done|lia|reflexivity]. cbn [mbind option_bind].
    rewrite of_chars_chars, define_prop_fresh by done. reflexivity.
  - change (join_commas (map member_text (map ?f (?a :: ?b :: ?l)))) with
      (member_text (f a) ++ ","%char :: join_commas (map member_text (map f (b :: l)))).
    cbn [foldr snd fst] in *. unfold member_text at 1, quote_string, quote_chars.
    cbn [parse_members fst snd app]. change (skip_space (quote :: ?r)) with (quote :: r).
    repeat first [rewrite <- app_assoc | progress cbn [app]].
    change (Ascii.eqb quote quote) with true. cbn match. rewrite parse_string_quote.
    cbn [mbind option_bind]. cbn [skip_space]. change (is_space ":") with false. cbn match.
    rewrite Hj; [|done|lia|reflexivity]. cbn [mbind option_bind skip_space].
    change (is_space ",") with false. cbn match.
    rewrite of_chars_chars, define_prop_fresh by done.
    rewrite IH; [by rewrite <- app_assoc|done|done| |lia].
    by rewrite <- app_assoc.
Qed.

Lemma parse_value_print j : parses j.
Proof.
  induction j as [|b|z|s|l IH|l IH] using json_nested_ind; intros Hwf n rest Hn Hr;
    (destruct n as [|n]; [cbn in Hn; lia|]).
  - reflexivity.
  - destruct b; reflexivity.
  - by apply parse_value_number.
  - cbn [print_chars parse_value]. unfold quote_string, quote_chars.
    repeat first [rewrite <- app_assoc | progress cbn [app]].
    change (skip_space (quote :: ?r)) with (quote :: r). cbn match.
    change (Ascii.eqb quote quote) with true. cbn match.
    rewrite parse_string_quote. cbn. by rewrite of_chars_chars.
  - cbn [print_chars parse_value]. rewrite <- app_comm_cons, <- app_assoc.
    change (skip_space ("["%char :: ?r)) with ("["%char :: r). cbn match.
    change (Ascii.eqb "[" quote) with false. change (Ascii.eqb "[" "[") with true. cbn match.
    destruct l as [|k l]; [reflexivity|].
    pose proof (parse_elements_print k l n rest IH Hwf) as Hp. cbn [psize] in Hn.
    specialize (Hp ltac:(lia)). cbn [app].
    assert (Hh : exists c r, join_commas (map print_chars (k :: l)) ++ "]"%char :: rest = c :: r
              /\ is_space c = false /\ Ascii.eqb c "]" = false).
    { cbn [wf_json forallb] in Hwf. apply andb_true_iff in Hwf as [Hk _].
      destruct l as [|k' l]; cbn [map join_commas]; rewrite <- ?app_assoc; by apply print_head. }
    destruct Hh as (c & r & Hh & Hs & Hb). rewrite Hh in Hp |- *.
    cbn [skip_space]. rewrite Hs. all_chars c; try discriminate; cbn match; rewrite Hp; reflexivity.
  - cbn [print_chars parse_value]. rewrite <- app_comm_cons, <- app_assoc.
    change (skip_space ("{"%char :: ?r)) with ("{"%char :: r). cbn match.
    change (Ascii.eqb "{" quote) with false. change (Ascii.eqb "{" "[") with false.
    change (Ascii.eqb "{" "{") with true. cbn match.
    destruct l as [|kv l]; [reflexivity|].
    cbn [wf_json] in Hwf. apply andb_true_iff in Hwf as [Hnd Hwf].
    apply bool_decide_eq_true in Hnd. cbn [psize] in Hn.
    pose proof (parse_members_print kv l n [] rest IH Hwf Hnd ltac:(lia)) as Hp.
    cbn [app] in *.
    assert (Hh : exists r, join_commas (map member_text
                (map (fun kv => (fst kv, print_chars (snd kv))) (kv :: l))) ++ "}"%char :: rest
              = quote :: r).
    { destruct l; cbn [map join_commas]; unfold member_text at 1, quote_string, quote_chars;
        rewrite <- ?app_assoc; eexists; reflexivity. }
    destruct Hh as (r & Hh). rewrite Hh in Hp |- *. cbn [skip_space].
    change (is_space quote) with false. cbn match. unfold quote in *. cbn match. by rewrite Hp.
Qed.

Lemma length_join_commas parts :
  (foldr (fun p n => length p + n) 0 parts <= length (join_commas parts))%nat.
Proof.
  induction parts as [|p parts IH]; [done|]. destruct parts; cbn [join_commas foldr] in *; [lia|].
  rewrite length_app. cbn [length]. lia.
Qed.

Lemma length_join_commas_sep parts :
  (foldr (fun p n => S (length p + n)) 0 parts <= S (length (join_commas parts)))%nat.
Proof.
  induction parts as [|p parts IH]; [cbn; lia|]. destruct parts; cbn [join_commas foldr] in *; [lia|].
  rewrite length_app. cbn [length]. lia.
Qed.

Lemma psize_length j : (psize j <= 2 * length (print_chars j))%nat.
Proof.
  induction j as [|b|z|s|l IH|l IH] using json_nested_ind.
  - cbn; lia.
  - destruct b; cbn; lia.
  - cbn. pose proof (dec_nonempty z). destruct (chars (dec z)); cbn; [done|lia].
  - cbn. lia.
  - cbn [psize print_chars]. rewrite length_cons, length_app.
    pose proof (length_join_commas_sep (map print_chars l)) as Hl.
    enough (foldr (fun j n => S (psize j + n)) 0 l <=
            2 * foldr (fun p n => S (length p + n)) 0 (map print_chars l))%nat by (cbn; lia).
    clear Hl. induction IH; cbn in *; lia.
  - cbn [psize print_chars]. rewrite length_cons, length_app.
    match goal with |- context [join_commas ?k] => pose proof (length_join_commas_sep k) as Hl end.
    enough (foldr (fun kv n => S (psize (snd kv) + n)) 0 l <=
            2 * foldr (fun p n => S (length p + n)) 0 (map member_text
              (map (fun kv => (fst kv, print_chars (snd kv))) l)))%nat by (cbn; lia).
    clear Hl. induction IH as [|kv l Hkv IH IHl]; cbn [foldr map] in *; [lia|].
    unfold member_text at 1. cbn [fst snd]. rewrite length_app. cbn [length]. lia.
Qed.

Lemma JSON_parse_print j : wf_json j = true -> JSON_parse_chars (print_chars j) = Some j.
Proof.
  intros Hwf. unfold JSON_parse_chars. pose proof (psize_length j).
  rewrite <- (app_nil_r (print_chars j)) at 2.
  rewrite parse_value_print; [reflexivity|done|lia|done].
Qed.

Section CanonicalTheory.
Context `{L : Locale}.

Lemma canonical_chars_print j : canonical_chars j = print_chars (sort_keys j).
Proof.
  induction j as [|[]|z|s|l IH|l IH] using json_nested_ind; try reflexivity.
  - cbn. do 3 f_equal. rewrite map_map. induction IH; cbn; congruence.
  - cbn [canonical_chars print_chars sort_keys]. rewrite !sorted_entries_map.
    do 4 f_equal. rewrite map_map. cbn [fst snd].
    rewrite <- (sorted_entries_perm l) in IH. induction IH as [|kv k Hkv _ IHk]; cbn; [done|].
    by rewrite Hkv, IHk.
Qed.

Lemma sort_keys_fst l :
  map fst (sorted_entries (map (fun kv => (fst kv, sort_keys (snd kv))) l)) ≡ₚ map fst l.
Proof. by rewrite sorted_entries_perm, map_map. Qed.

Lemma wf_sort_keys j : wf_json j = true -> wf_json (sort_keys j) = true.
Proof.
  induction j as [|[]|z|s|l IH|l IH] using json_nested_ind; cbn; auto.
  - induction IH; cbn; [done|]. intros [? ?]%andb_true_iff. apply andb_true_iff; auto.
  - intros [Hnd Hl]%andb_true_iff. apply bool_decide_eq_true in Hnd. apply andb_true_iff. split.
    + apply bool_decide_eq_true. by rewrite sort_keys_fst.
    + rewrite sorted_entries_map. apply forallb_forall. intros kv' Hin.
      apply in_map_iff in Hin as (kv & <- & Hin). cbn.
      rewrite <- list_elem_of_In, (sorted_entries_perm l), list_elem_of_In in Hin.
      rewrite forallb_forall in Hl. rewrite List.Forall_forall in IH. auto.
Qed.

(** The canonical text determines the value up to key order. *)
Lemma JSON_parse_canonicalJson j :
  wf_json j = true -> JSON_parse (canonicalJson j) = Some (sort_keys j).
Proof.
  intros Hwf. unfold JSON_parse, canonicalJson. rewrite chars_of_chars, canonical_chars_print.
  by apply JSON_parse_print, wf_sort_keys.
Qed.
End CanonicalTheory.
