(* ===== verification/Text.v ===== *)
(** * Text functions of the language

    What the sources use of JavaScript strings and number texts beyond [Bytes]: letter case, searching and
    splitting, digits in a base, and the integers that [Number(text)] reads. *)
From Stdlib Require Import Ascii String DecimalString DecimalZ.
From S2P Require Import Prelude Bytes.

Definition to_lower_char (c : ascii) : ascii := if is_upper c then char_of (code c + 32) else c.
(** Letters outside ASCII stay: no pattern of the program accepts them in either case. *)
Definition to_lower (s : string) : string := of_chars (map to_lower_char (chars s)).
(** The text after the last [c], if there is one *)
Fixpoint after_last (c : ascii) (l : list ascii) : option (list ascii) :=
  match l with
  | [] => None
  | x :: l => match after_last c l with Some r => Some r | None => if Ascii.eqb x c then Some l else None end
  end.
(** The text before and after the first [c] *)
Fixpoint at_first (c : ascii) (l : list ascii) : option (list ascii * list ascii) :=
  match l with
  | [] => None
  | x :: l => if Ascii.eqb x c then Some ([], l) else '(a, b) ← at_first c l; Some (x :: a, b)
  end.
(** [text.trim().split(/\s+/u)], without the empty part of an empty text *)
Fixpoint words_from (w : list ascii) (l : list ascii) : list (list ascii) :=
  match l with
  | [] => match w with [] => [] | _ => [rev w] end
  | c :: l => if js_space c then match w with [] => words_from [] l | _ => rev w :: words_from [] l end else words_from (c :: w) l
  end.
Definition words : list ascii -> list (list ascii) := words_from [].
(** ** Digits *)

Definition digit_value (base : Z) (c : ascii) : option Z :=
  let v := if is_digit c then Some (code c - 48) else if is_lower c then Some (code c - 87)
           else if is_upper c then Some (code c - 55) else None in
  v ← v; if v <? base then Some v else None.
Fixpoint digits_value (base acc : Z) (l : list ascii) : option Z :=
  match l with
  | [] => Some acc
  | c :: l => v ← digit_value base c; digits_value base (acc * base + v) l
  end.
(** One digit at least *)
Definition digits (base : Z) (l : list ascii) : option Z := match l with [] => None | _ => digits_value base 0 l end.
(** [BigInt(text)] of decimal digits *)
Definition digits_Z (l : list ascii) : Z := fold_left (fun a c => a * 10 + (code c - 48)) l 0.
Definition digits_only (l : list ascii) : bool := match l with [] => false | _ => forallb is_digit l end.
(** [Number(text)] where it is an integer: an optional sign, digits with an optional fraction and exponent, or a prefixed
    literal, white space around; the empty text is zero.  Rounding to a double is not modelled: values up to 2^53 are exact. *)
Definition split_sign (l : list ascii) : Z * list ascii :=
  match l with c :: r => if Ascii.eqb c "-" then (-1, r) else if Ascii.eqb c "+" then (1, r) else (1, l) | [] => (1, l) end.
Definition exponent_value (l : list ascii) : option Z :=
  let '(sign, l) := split_sign l in if digits_only l then Some (sign * digits_Z l) else None.
(** [mantissa * 10^(exponent - scale)], if it is an integer *)
Definition scaled (mantissa e : Z) : option Z :=
  if 0 <=? e then Some (mantissa * 10 ^ e) else if mantissa mod 10 ^ (- e) =? 0 then Some (mantissa / 10 ^ (- e)) else None.
Definition decimal_integer (l : list ascii) : option Z :=
  let '(sign, l) := split_sign l in
  let '(m, x) := match at_first "e" (map to_lower_char l) with Some (m, x) => (m, exponent_value x) | None => (l, Some 0) end in
  let '(whole, fraction) := match at_first "." m with Some (a, b) => (a, b) | None => (m, []) end in
  e ← x;
  if forallb is_digit whole && forallb is_digit fraction && negb (length (whole ++ fraction) =? 0)%nat
  then v ← scaled (digits_Z (whole ++ fraction)) (e - Z.of_nat (length fraction)); Some (sign * v)
  else None.
Definition js_integer (s : string) : option Z :=
  match trim_chars (chars s) with
  | [] => Some 0
  | (c :: x :: _ :: _) as l =>
      if Ascii.eqb c "0" && existsb (Ascii.eqb x) ["x"; "X"]%char then digits 16 (skipn 2 l)
      else if Ascii.eqb c "0" && existsb (Ascii.eqb x) ["o"; "O"]%char then digits 8 (skipn 2 l)
      else if Ascii.eqb c "0" && existsb (Ascii.eqb x) ["b"; "B"]%char then digits 2 (skipn 2 l)
      else decimal_integer l
  | l => decimal_integer l
  end.
Example js_integers :
  map js_integer ["12"; " 7 "; ""; "1e3"; "1.50e1"; "1.5"; "0x1F"; "-4"; "abc"; "."; "Infinity"] =
  [Some 12; Some 7; Some 0; Some 1000; Some 15; None; Some 31; Some (-4); None; None; None].
Proof. vm_compute. reflexivity. Qed.

(** ** Theory *)

Lemma digits_value_cons base acc c l v : digit_value base c = Some v -> digits_value base acc (c :: l) = digits_value base (acc * base + v) l.
Proof. intros E. cbn. by rewrite E. Qed.
Lemma digits_value_uint d : forall p, digits_value 10 (Zpos p) (chars (NilEmpty.string_of_uint d)) = Some (Zpos (Pos.of_uint_acc d p)).
Proof.
  induction d as [|d IH|d IH|d IH|d IH|d IH|d IH|d IH|d IH|d IH|d IH]; intros p; [done|..];
    (etrans; [apply digits_value_cons; cbv; reflexivity|]); (etrans; [|apply IH]); f_equal; lia.
Qed.
Lemma digits_value_uint0 d : digits_value 10 0 (chars (NilEmpty.string_of_uint d)) = Some (Z.of_N (Pos.of_uint d)).
Proof. induction d as [|d IH|d _|d _|d _|d _|d _|d _|d _|d _|d _]; [done|exact IH|..]; apply (digits_value_uint d). Qed.
