(* ===== verification/Digest.v ===== *)
(** * Canonical digests

    What the canonical text identifies: two values have the same text exactly
    when they are equal up to the order of object keys, and so the same digest
    only then or on a SHA-256 collision.  SHA-256 ([node:crypto]) is a
    parameter of the model. *)
From Stdlib Require Import Ascii String.
From S2P Require Import Prelude Bytes Json.

(** [createHash('sha256').update(b).digest()]: 32 bytes, whatever the input. *)
Class Hash := {
  hash : list Z -> list Z;
  hash_length : forall b, length (hash b) = 32%nat;
  hash_bytes : forall b, Forall is_byte (hash b);
}.

(** Two different inputs with one digest. *)
Definition collision `{Hash} : Prop := exists x y, x <> y /\ hash x = hash y.

Lemma hash_inj_or_collision `{Hash} x y : hash x = hash y -> x = y \/ collision.
Proof.
  intros E. destruct (decide (x = y)) as [->|N]; [by left|]. right. by exists x, y.
Qed.

(** A stand-in with the right shape, for examples: the length of the input
    and its last 24 bytes. *)
Definition toy_hash_bytes (b : list Z) : list Z :=
  be_bytes 8 (Z.of_nat (length b)) ++
  firstn 24 (map (fun x => x mod 256) (rev b) ++ repeat 0 24).
Definition toy_hash : Hash.
Proof.
  refine {| hash := toy_hash_bytes |}.
  - intros b. unfold toy_hash_bytes.
    rewrite length_app, length_be_bytes, length_firstn, length_app, repeat_length. lia.
  - intros b. unfold toy_hash_bytes. apply Forall_app. split; [apply be_bytes_is_byte|].
    apply Forall_take, Forall_app. split.
    + apply List.Forall_map, List.Forall_forall. intros x _. unfold is_byte.
      apply Z.mod_pos_bound. lia.
    + apply List.Forall_forall. intros x Hx%repeat_spec. subst. unfold is_byte. lia.
Defined.

Definition sha256_text `{Hash} (bytes : list Z) : string := "sha256:" +:+ hex (hash bytes).
(** [sha256] of a string value *)
Definition sha256 `{Hash} (value : string) : string := sha256_text (utf8 value).
Definition canonicalDigest `{Locale} `{Hash} (value : json) : string := sha256 (canonicalJson value).

Lemma sha256_text_inj `{Hash} x y : sha256_text x = sha256_text y -> hash x = hash y.
Proof.
  intros E. apply hex_inj; [apply hash_bytes..|].
  apply chars_inj. apply (f_equal chars) in E. unfold sha256_text in E.
  rewrite !chars_app in E. by apply (app_inv_head (chars "sha256:")).
Qed.

(** ** Equality up to key order is an equivalence *)

Lemma Forall2_perm_r {A B} (R : A -> B -> Prop) l k k' :
  Forall2 R l k -> k ≡ₚ k' -> exists l', l ≡ₚ l' /\ Forall2 R l' k'.
Proof.
  intros HF Hp. revert l HF.
  induction Hp as [|y k k' Hp IH|x y k|k1 k2 k3 _ IH1 _ IH2]; intros l HF.
  - exists []. by inversion_clear HF.
  - apply Forall2_cons_inv_r in HF as (x & l' & HR & HF' & ->).
    destruct (IH _ HF') as (m & Hm & HFm).
    exists (x :: m). split; [by apply perm_skip|by constructor].
  - apply Forall2_cons_inv_r in HF as (a & l' & Ha & HF' & ->).
    apply Forall2_cons_inv_r in HF' as (b & l'' & Hb & HF'' & ->).
    exists (b :: a :: l''). split; [apply Permutation_swap|repeat constructor; auto].
  - destruct (IH1 _ HF) as (m & Hm & HFm). destruct (IH2 _ HFm) as (m' & Hm' & HFm').
    exists m'. split; [by etransitivity|done].
Qed.

Lemma Forall2_flip' {A B} (R : A -> B -> Prop) l k : Forall2 R l k -> Forall2 (fun b a => R a b) k l.
Proof. induction 1; constructor; auto. Qed.

Lemma Forall2_Forall_l {A B} (P R : A -> B -> Prop) (Q : A -> Prop) l k :
  (forall a b, Q a -> R a b -> P a b) -> Forall Q l -> Forall2 R l k -> Forall2 P l k.
Proof. intros H HQ HR. induction HR; inversion_clear HQ; constructor; auto. Qed.

Lemma json_equiv_refl j : json_equiv j j.
Proof.
  induction j as [|b|z|s|l IH|l IH] using json_nested_ind; try (by constructor).
  - apply equiv_arr. by induction IH; constructor.
  - econstructor; [done|]. induction IH; constructor; auto.
Qed.

Lemma json_equiv_sym j k : json_equiv j k -> json_equiv k j.
Proof.
  revert k; induction j as [|b|z|s|l IH|l IH] using json_nested_ind; intros k Hk;
    inversion Hk as [? Hs|l0 k0 HF|l0 l' k0 Hp HF]; subst; try done.
  - apply equiv_arr. apply Forall2_flip'. eapply Forall2_Forall_l; [|exact IH|exact HF]. auto.
  - rewrite Hp in IH. apply symmetry in Hp.
    assert (HF' : Forall2 (fun a b => fst a = fst b /\ json_equiv (snd a) (snd b)) k0 l').
    { apply Forall2_flip'. eapply Forall2_Forall_l; [|exact IH|exact HF].
      cbn. intros a b Ha [He Hq]. split; [by symmetry|by apply Ha]. }
    destruct (Forall2_perm_r _ _ _ _ HF' Hp) as (m & Hm & HFm).
    by econstructor.
Qed.

Lemma json_equiv_trans j k m : json_equiv j k -> json_equiv k m -> json_equiv j m.
Proof.
  revert k m; induction j as [|b|z|s|l IH|l IH] using json_nested_ind; intros k m Hk Hm;
    inversion Hk as [? Hs|l0 k0 HF|l0 l' k0 Hp HF]; subst; try done.
  - inversion Hm as [? Hs|? m0 HF'|]; subst; [done|].
    apply equiv_arr. clear Hk Hm. revert m0 HF'. induction HF; intros m0 HF';
      inversion_clear HF'; [constructor|]. inversion_clear IH. constructor; eauto.
  - inversion Hm as [? Hs| |? k' m0 Hp' HF']; subst; [done|].
    destruct (Forall2_perm_r _ _ _ _ HF Hp') as (l'' & Hl'' & HF'').
    econstructor; [etransitivity; eassumption|].
    rewrite Hp, Hl'' in IH. clear -IH HF' HF''. revert m0 HF'.
    induction HF'' as [|a b la lb [E1 E2] _ IHF]; intros m0 HF';
      inversion_clear HF' as [|? c ? mc [E3 E4]]; [constructor|]. inversion_clear IH as [|? ? Ha IH'].
    constructor; [|by apply IHF]. split; [congruence|]. cbn in Ha. eauto.
Qed.

#[export] Instance json_equiv_equivalence : Equivalence json_equiv.
Proof.
  split; [intros j; apply json_equiv_refl|intros j k; apply json_equiv_sym|
          intros j k m; apply json_equiv_trans].
Qed.

Section Identity.
Context `{LocaleAntisym}.

Lemma sorted_entries_unique {A} (l k : list (string * A)) :
  NoDup (map fst l) -> l ≡ₚ k -> sorted_entries l = sorted_entries k.
Proof.
  intros Hnd Hp. unfold sorted_entries.
  apply stable_sort_unique; [apply key_leb_total|apply key_leb_trans| |].
  - intros a b Ha Hb Hab Hba. rewrite object_entries_perm in Ha, Hb.
    assert (E : fst a = fst b) by (by apply locale_antisym).
    clear -Hnd Ha Hb E. induction l as [|x l IH]; [by apply not_elem_of_nil in Ha|].
    cbn in Hnd. apply NoDup_cons in Hnd as [Hx Hnd].
    rewrite !elem_of_cons in Ha, Hb.
    destruct Ha as [->|Ha], Hb as [->|Hb]; [done| | |by apply IH].
    + destruct Hx. rewrite E. by apply (list_elem_of_fmap_2 fst).
    + destruct Hx. rewrite <- E. by apply (list_elem_of_fmap_2 fst).
  - by rewrite !object_entries_perm.
Qed.

Lemma canonical_chars_equiv j k :
  wf_json j = true -> json_equiv j k -> canonical_chars j = canonical_chars k.
Proof.
  revert k; induction j as [|b|z|s|l IH|l IH] using json_nested_ind; intros k Hwf Hk;
    inversion Hk as [? Hs|l0 k0 HF|l0 l' k0 Hp HF]; subst; try done.
  - cbn [canonical_chars]. do 3 f_equal. cbn in Hwf. clear Hk.
    induction HF; [done|]. inversion_clear IH. cbn in Hwf. apply andb_true_iff in Hwf as [??].
    cbn. f_equal; auto.
  - cbn [canonical_chars]. do 4 f_equal. cbn in Hwf.
    apply andb_true_iff in Hwf as [Hnd%bool_decide_eq_true Hwf].
    rewrite (sorted_entries_unique _ (map (fun kv => (fst kv, canonical_chars (snd kv))) l')).
    2: by rewrite map_map. 2: by apply Permutation_map.
    f_equal. rewrite Hp in IH.
    assert (Hwf' : Forall (fun kv => wf_json (snd kv) = true) l').
    { rewrite <- Hp. apply List.Forall_forall. by apply forallb_forall. }
    clear -HF IH Hwf'. induction HF as [|a b la lb [E1 E2] _ IHF]; [done|].
    inversion_clear IH as [|? ? Ha IH']. inversion_clear Hwf'. cbn. f_equal; auto.
    rewrite E1. f_equal. auto.
Qed.
End Identity.

(** The text determines the value whatever the collation does. *)
Lemma canonicalJson_inj `{Locale} j k :
  wf_json j = true -> wf_json k = true -> canonicalJson j = canonicalJson k -> json_equiv j k.
Proof.
  intros Hj Hk E. apply (f_equal JSON_parse) in E. rewrite !JSON_parse_canonicalJson in E by done.
  injection E as E. transitivity (sort_keys j); [apply json_equiv_sort_keys|].
  rewrite E. symmetry. apply json_equiv_sort_keys.
Qed.

Lemma canonicalDigest_inj `{Locale} `{Hash} j k :
  wf_json j = true -> wf_json k = true ->
  canonicalDigest j = canonicalDigest k -> json_equiv j k \/ collision.
Proof.
  intros Hj Hk E. apply sha256_text_inj, hash_inj_or_collision in E as [E|C]; [left|by right].
  apply utf8_inj in E. by apply canonicalJson_inj.
Qed.

(** Canonical text and digest are identities.  With a collation that tells distinct strings apart, two values have
    the same text exactly when they are equal up to the order of object keys, at every depth; such values have the
    same digest, and whatever the collation does, values with one digest are equal in this sense or exhibit a SHA-256
    collision. *)
Theorem canonicalDigest_identity `{LocaleAntisym} `{Hash} j k :
  wf_json j = true -> wf_json k = true ->
  (canonicalJson j = canonicalJson k <-> json_equiv j k)
  /\ (json_equiv j k -> canonicalDigest j = canonicalDigest k)
  /\ (canonicalDigest j = canonicalDigest k -> json_equiv j k \/ collision).
Proof.
  intros Hj Hk. assert (E : json_equiv j k -> canonicalJson j = canonicalJson k).
  { intros E. unfold canonicalJson. f_equal. by apply canonical_chars_equiv. }
  split; [split; [by apply canonicalJson_inj|exact E]|]. split; [|by apply canonicalDigest_inj].
  intros E'. unfold canonicalDigest. by rewrite E.
Qed.

(** ** Witnesses *)

Definition sample1 : json := JObj [("b", JNum 1); ("a", JArr [JNull])].
Definition sample2 : json := JObj [("a", JArr [JNull]); ("b", JNum 1)].

Lemma canonicalDigest_identity_witness :
  @canonicalJson code_unit_locale sample1 = @canonicalJson code_unit_locale sample2 <-> json_equiv sample1 sample2.
Proof.
  apply (@canonicalDigest_identity code_unit_locale code_unit_locale_antisym toy_hash sample1 sample2);
    vm_compute; reflexivity.
Defined.
