(* ===== verification/CanonicalValue.v ===== *)
(** * Materialising runtime values ([toCanonicalJsonValue])

    [packages/schemas/src/index.ts], [toCanonicalJsonValue]: the conversion of
    an arbitrary runtime value, a graph of objects in the JavaScript heap with
    sharing and cycles, into the one JSON tree that is persisted and digested.
    Numbers are the integers with the special values; arrays are dense. *)
From Stdlib Require Import Ascii String.
From S2P Require Import Prelude Bytes Json Digest.

#[local] Set Warnings "-register-all".

(** ** [Date.prototype.toISOString] *)

(** Year, month and day of a day count from 1970-01-01. *)
Definition civil_from_days (days : Z) : Z * Z * Z :=
  let z := days + 719468 in
  let era := z / 146097 in
  let doe := z mod 146097 in
  let yoe := (doe - doe / 1460 + doe / 36524 - doe / 146096) / 365 in
  let doy := doe - (365 * yoe + yoe / 4 - yoe / 100) in
  let mp := (5 * doy + 2) / 153 in
  let d := doy - (153 * mp + 2) / 5 + 1 in
  let m := if mp <? 10 then mp + 3 else mp - 9 in
  let y := yoe + era * 400 + (if m <=? 2 then 1 else 0) in
  (y, m, d).

(** [String(n).padStart(width, '0')] *)
Definition pad_start (width : nat) (n : Z) : string :=
  let d := chars (dec n) in of_chars (repeat "0"%char (width - length d) ++ d).

Definition iso_string (t : Z) : string :=
  let '(y, m, d) := civil_from_days (t / 86400000) in
  let ms := t mod 86400000 in
  let year := if (0 <=? y) && (y <=? 9999) then pad_start 4 y
              else if y <? 0 then "-" +:+ pad_start 6 (- y) else "+" +:+ pad_start 6 y in
  year +:+ "-" +:+ pad_start 2 m +:+ "-" +:+ pad_start 2 d +:+ "T" +:+
  pad_start 2 (ms / 3600000) +:+ ":" +:+ pad_start 2 (ms / 60000 mod 60) +:+ ":" +:+
  pad_start 2 (ms / 1000 mod 60) +:+ "." +:+ pad_start 3 (ms mod 1000) +:+ "Z".

(** ** Runtime values *)

Inductive num := NInt (z : Z) | NNegZero | NNaN | NInfinity (negative : bool).

Inductive value :=
| VUndefined | VNull
| VBool (b : bool)
| VNumber (n : num)
| VBigInt (z : Z)
| VString (s : string)
| VFunction | VSymbol
| VRef (l : nat).

(** What a reference points to.  A plain object has the prototype
    [Object.prototype] or [null]; [constructor] is the name of the class of any
    other object. *)
Inductive object :=
| OArray (items : list value)
| OPlain (props : list (string * value))
| OInstance (constructor : option string)
| ODate (time : option Z)
| OBytes (b : list Z).

Abbreviation heap := (gmap nat object).

(** The members of a container, with the step of the path that names them. *)
Definition children (o : object) : list value :=
  match o with
  | OArray items => items
  | OPlain props => map snd props
  | _ => []
  end.

Section Visit.
Context `{L : Locale}.

(** [items.map((item, index) => visit(item, path))]; the outer option is
    the fuel of [visit]. *)
Fixpoint map_visit (f : nat -> value -> option (result json)) (i : nat) (l : list value)
    : option (result (list json)) :=
  match l with
  | [] => Some (Ok [])
  | v :: l =>
      r ← f i v;
      match r with
      | Throw e => Some (Throw e)
      | Ok j => rs ← map_visit f (S i) l; Some (js ← rs; Ok (j :: js))
      end
  end.

(** [output[key] = v] on a fresh object literal: the inherited accessor
    [__proto__] swallows its own name. *)
Definition assign_prop (key : string) (j : json) (output : list (string * json)) :=
  if String.eqb key "__proto__" then output else define_prop key j output.

Fixpoint fill_props (f : string -> value -> option (result json))
    (output : list (string * json)) (l : list (string * value))
    : option (result (list (string * json))) :=
  match l with
  | [] => Some (Ok output)
  | (k, v) :: l =>
      r ← f k v;
      match r with
      | Throw e => Some (Throw e)
      | Ok j => fill_props f (assign_prop k j output) l
      end
  end.

Definition item_path (path : string) (i : nat) : string :=
  path +:+ "[" +:+ dec (Z.of_nat i) +:+ "]".
Definition key_path (path key : string) : string := path +:+ "." +:+ key.

Definition conversion_error (path kind : string) : option (result json) :=
  Some (Throw (ConversionError path kind)).

(** The inner function [visit]; [None] is lack of fuel (or a reference
    outside the heap, which no program state has). *)
Fixpoint visit (n : nat) (h : heap) (ancestors : gset nat) (input : value) (path : string)
    : option (result json) :=
  match n with
  | O => None
  | S n =>
      match input with
      | VNull => Some (Ok JNull)
      | VString s => Some (Ok (JStr s))
      | VBool b => Some (Ok (JBool b))
      | VBigInt z => Some (Ok (JStr (dec z)))
      | VNumber (NInt z) => Some (Ok (JNum z))
      | VNumber NNegZero => Some (Ok (JNum 0))
      | VNumber _ => conversion_error path "non-finite number"
      | VUndefined => conversion_error path "undefined"
      | VFunction => conversion_error path "function"
      | VSymbol => conversion_error path "symbol"
      | VRef l =>
          o ← h !! l;
          match o with
          | ODate None => conversion_error path "invalid Date"
          | ODate (Some t) => Some (Ok (JStr (iso_string t)))
          | OBytes b => Some (Ok (JStr ("base64:" +:+ base64 b)))
          | OInstance c =>
              if decide (l ∈ ancestors) then conversion_error path "cycle"
              else conversion_error path (default "unknown prototype" c)
          | OArray items =>
              if decide (l ∈ ancestors) then conversion_error path "cycle"
              else rs ← map_visit (fun i v => visit n h ({[l]} ∪ ancestors) v (item_path path i)) 0 items;
                   Some (js ← rs; Ok (JArr js))
          | OPlain props =>
              if decide (l ∈ ancestors) then conversion_error path "cycle"
              else rs ← fill_props (fun k v => visit n h ({[l]} ∪ ancestors) v (key_path path k))
                          [] (sorted_entries props);
                   Some (ps ← rs; Ok (JObj ps))
          end
      end
  end.

(** The depth of a visit is bounded by the number of objects. *)
Definition toCanonicalJsonValue (h : heap) (v : value) : option (result json) :=
  visit (S (S (size h))) h ∅ v "$".

(** ** Termination *)

(** Every reference of the heap and of the value has a target. *)
Definition value_closed (h : heap) (v : value) : Prop :=
  match v with VRef l => is_Some (h !! l) | _ => True end.
Definition heap_closed (h : heap) : Prop :=
  forall l o, h !! l = Some o -> Forall (value_closed h) (children o).

Lemma map_visit_total (f : nat -> value -> option (result json)) l i :
  (forall i v, v ∈ l -> is_Some (f i v)) -> is_Some (map_visit f i l).
Proof.
  revert i; induction l as [|v l IH]; intros i Hf; cbn; [eauto|].
  destruct (Hf i v) as [[j|e] ->]; [constructor| |]; cbn; [|eauto].
  destruct (IH (S i)) as [r ->]; [intros; apply Hf; by constructor|]. cbn. eauto.
Qed.

Lemma fill_props_total (f : string -> value -> option (result json)) l acc :
  (forall k v, v ∈ map snd l -> is_Some (f k v)) -> is_Some (fill_props f acc l).
Proof.
  revert acc; induction l as [|[k v] l IH]; intros acc Hf; cbn; [eauto|].
  destruct (Hf k v) as [[j|e] ->]; [constructor| |]; cbn; [|eauto].
  apply IH. intros; apply Hf; by constructor.
Qed.

Lemma sorted_entries_snd {A} (l : list (string * A)) v :
  v ∈ map snd (sorted_entries l) <-> v ∈ map snd l.
Proof. by rewrite sorted_entries_perm. Qed.

Lemma visit_total n h anc v path :
  heap_closed h -> value_closed h v -> anc ⊆ dom h ->
  (size (dom h ∖ anc) < n)%nat -> is_Some (visit n h anc v path).
Proof.
  intros Hh. revert anc v path; induction n as [|n IH]; intros anc v path Hv Hanc Hn; [lia|].
  destruct v as [| |b|[z| | |neg]|z|s| | |l]; cbn; eauto.
  destruct Hv as [o Ho]. rewrite Ho. cbn.
  assert (Hl : l ∈ dom h) by (apply elem_of_dom; eauto).
  assert (Hchild : l ∉ anc -> forall w p, w ∈ children o ->
            is_Some (visit n h ({[l]} ∪ anc) w p)).
  { intros Hla w p Hw. apply IH.
    - specialize (Hh _ _ Ho). rewrite List.Forall_forall in Hh. apply Hh.
      by apply list_elem_of_In.
    - apply union_subseteq. split; [by apply singleton_subseteq_l|done].
    - enough (size (dom h ∖ ({[l]} ∪ anc)) < size (dom h ∖ anc))%nat by lia.
      apply subset_size. clear -Hla Hl. set_solver. }
  destruct o as [items|props|c|[t|]|b]; cbn; try (case_decide; cbn); eauto.
  - destruct (map_visit_total (fun i v => visit n h ({[l]} ∪ anc) v (item_path path i)) items 0)
      as [r ->]; [intros; by apply Hchild|]. cbn. eauto.
  - destruct (fill_props_total (fun k v => visit n h ({[l]} ∪ anc) v (key_path path k))
                (sorted_entries props) []) as [r ->].
    + intros k w Hw. apply Hchild; [done|]. cbn. by apply sorted_entries_snd.
    + cbn. eauto.
Qed.

Lemma toCanonicalJsonValue_terminates h v :
  heap_closed h -> value_closed h v -> is_Some (toCanonicalJsonValue h v).
Proof.
  intros Hh Hv. apply visit_total; [done|done|set_solver|].
  rewrite difference_empty_L, size_dom. lia.
Qed.

(** ** Cycles *)

(** [l] holds a reference to [l']. *)
Definition points_to (h : heap) (l l' : nat) : Prop :=
  exists o, h !! l = Some o /\ VRef l' ∈ children o.

Lemma map_visit_Ok_elem (f : nat -> value -> option (result json)) l i js v :
  map_visit f i l = Some (Ok js) -> v ∈ l -> exists k j, f k v = Some (Ok j).
Proof.
  revert i js; induction l as [|w l IH]; intros i js H Hv; [by apply not_elem_of_nil in Hv|].
  cbn in H. destruct (f i w) as [[j|e]|] eqn:E; cbn in H; try discriminate.
  destruct (map_visit f (S i) l) as [[ks|e]|] eqn:E'; cbn in H; try discriminate.
  apply elem_of_cons in Hv as [->|Hv]; eauto.
Qed.

Lemma fill_props_Ok_elem (f : string -> value -> option (result json)) l acc ps v :
  fill_props f acc l = Some (Ok ps) -> v ∈ map snd l -> exists k j, f k v = Some (Ok j).
Proof.
  revert acc; induction l as [|[k w] l IH]; intros acc H Hv; [by apply not_elem_of_nil in Hv|].
  cbn in H. destruct (f k w) as [[j|e]|] eqn:E; cbn in H; try discriminate.
  cbn in Hv. apply elem_of_cons in Hv as [->|Hv]; eauto.
Qed.

(** A successful visit visits every referenced object successfully, with the
    current one among the ancestors. *)
Lemma visit_Ok_child n h anc l l' path j :
  visit n h anc (VRef l) path = Some (Ok j) -> points_to h l l' ->
  (l ∉ anc) /\ (exists n' path' j', visit n' h ({[l]} ∪ anc) (VRef l') path' = Some (Ok j')).
Proof.
  intros H (o & Ho & Hl'). destruct n as [|n]; [discriminate|].
  cbn in H. rewrite Ho in H. cbn in H.
  destruct o as [items|props|c|[t|]|b]; cbn in Hl'; try (by apply not_elem_of_nil in Hl').
  - case_decide; [discriminate|]. split; [done|].
    destruct (map_visit _ _ _) as [[js|e]|] eqn:E; cbn in H; try discriminate.
    apply (map_visit_Ok_elem _ _ _ _ (VRef l')) in E as (i & k & E); [|done]. eauto.
  - case_decide; [discriminate|]. split; [done|].
    destruct (fill_props _ _ _) as [[js|e]|] eqn:E; cbn in H; try discriminate.
    apply (fill_props_Ok_elem _ _ _ _ (VRef l')) in E as (i & k & E); [eauto|].
    by apply sorted_entries_snd.
Qed.

Lemma visit_Ok_not_ancestor n h anc l l' path j :
  visit n h anc (VRef l) path = Some (Ok j) -> points_to h l l' -> l ∉ anc.
Proof. intros H Hp. by destruct (visit_Ok_child _ _ _ _ _ _ _ H Hp). Qed.

(** A value with a reachable cycle is never converted. *)
Lemma visit_acyclic h l0 l j :
  toCanonicalJsonValue h (VRef l0) = Some (Ok j) ->
  star (points_to h) l0 l ->
  forall l', points_to h l l' -> ~ star (points_to h) l' l.
Proof.
  unfold toCanonicalJsonValue. generalize (S (S (size h))) as n, (∅ : gset nat) as anc, "$" as path.
  intros n anc path Hv Hstar. revert n anc path j Hv.
  induction Hstar as [l|l0 l1 l Hstep _ IH]; intros n anc path j Hv l' Hl' Hback.
  - destruct (visit_Ok_child _ _ _ _ _ _ _ Hv Hl') as (_ & n' & path' & j' & Hv').
    assert (Hin : l ∈ {[l]} ∪ anc) by set_solver. revert Hv' Hin.
    generalize ({[l]} ∪ anc) as anc'. clear Hv.
    assert (Hsucc : exists w, points_to h l w) by eauto. clear Hl'.
    revert n' path' j'. induction Hback as [l|a b l Hab _ IHb]; intros n' path' j' anc' Hv' Hin.
    + destruct Hsucc as [w Hw]. by apply (visit_Ok_not_ancestor _ _ _ _ _ _ _ Hv' Hw).
    + destruct (visit_Ok_child _ _ _ _ _ _ _ Hv' Hab) as (_ & n2 & p2 & j2 & Hv2).
      eapply IHb; [exact Hsucc|exact Hv2|set_solver].
  - destruct (visit_Ok_child _ _ _ _ _ _ _ Hv Hstep) as (_ & n' & path' & j' & Hv').
    by apply (IH _ _ _ _ Hv' l' Hl').
Qed.

(** ** Functional specification

    On a value that is already a JSON tree, spread over the heap, the
    conversion sorts the keys and forgets the properties named [__proto__]. *)
Fixpoint canonicalize (j : json) : json :=
  match j with
  | JArr l => JArr (map canonicalize l)
  | JObj l => JObj (List.filter (fun kv => negb (String.eqb (fst kv) "__proto__"))
                (sorted_entries (map (fun kv => (fst kv, canonicalize (snd kv))) l)))
  | _ => j
  end.

(** [represents h j v]: the heap value [v] is the tree [j]. *)
Inductive represents (h : heap) : json -> value -> Prop :=
| rep_null : represents h JNull VNull
| rep_bool b : represents h (JBool b) (VBool b)
| rep_num z : represents h (JNum z) (VNumber (NInt z))
| rep_str s : represents h (JStr s) (VString s)
| rep_arr l js vs :
    h !! l = Some (OArray vs) -> Forall2 (represents h) js vs ->
    represents h (JArr js) (VRef l)
| rep_obj l kjs kvs :
    h !! l = Some (OPlain kvs) ->
    Forall2 (fun a b => fst a = fst b /\ represents h (snd a) (snd b)) kjs kvs ->
    represents h (JObj kjs) (VRef l).

(** A heap value is the representation of at most one tree. *)
Lemma represents_inj h j j' v : represents h j v -> represents h j' v -> j = j'.
Proof.
  revert j' v; induction j as [|b|z|s|l IH|l IH] using json_nested_ind; intros j' v Hj Hj';
    inversion Hj as [| | | |l1 js vs Ho HF|l1 kjs kvs Ho HF]; subst;
    inversion Hj' as [| | | |l2 js' vs' Ho' HF'|l2 kjs' kvs' Ho' HF']; subst;
    try congruence; rewrite Ho' in Ho; injection Ho as ->; f_equal.
  - clear -IH HF HF'. revert js' HF'. induction HF as [|j v js vs Hjv HF IHF]; intros js' HF';
      [by apply Forall2_nil_inv_r in HF'|].
    apply Forall2_cons_inv_r in HF' as (j1 & js1 & Hj1 & HF1 & ->).
    apply Forall_cons in IH as [IHj IH]. f_equal; eauto.
  - clear -IH HF HF'. revert kjs' HF'.
    induction HF as [|[k j] [k1 v] js vs [E Hjv] HF IHF]; intros js' HF';
      [by apply Forall2_nil_inv_r in HF'|].
    apply Forall2_cons_inv_r in HF' as ([k2 j1] & js1 & [E' Hj1] & HF1 & ->).
    apply Forall_cons in IH as [IHj IH]. cbn in *. f_equal; [f_equal; [congruence|]|]; eauto.
Qed.

(** The ancestors of a visit represent larger trees only. *)
Definition ancestors_above (h : heap) (anc : gset nat) (j : json) : Prop :=
  forall a j', a ∈ anc -> represents h j' (VRef a) -> (psize j < psize j')%nat.

Lemma ancestors_above_child h anc l j k :
  represents h j (VRef l) -> (psize k < psize j)%nat ->
  ancestors_above h anc j -> ancestors_above h ({[l]} ∪ anc) k.
Proof.
  intros Hj Hk Ha a j' [->%elem_of_singleton|Hin]%elem_of_union Hj'.
  - by rewrite <- (represents_inj _ _ _ _ Hj Hj').
  - specialize (Ha _ _ Hin Hj'). lia.
Qed.

Lemma ancestors_above_fresh h anc l j :
  represents h j (VRef l) -> ancestors_above h anc j -> l ∉ anc.
Proof. intros Hj Ha Hin. specialize (Ha _ _ Hin Hj). lia. Qed.

Lemma map_visit_spec (f : nat -> value -> option (result json)) js vs i r :
  Forall2 (fun j v => forall i r, f i v = Some r -> r = Ok (canonicalize j)) js vs ->
  map_visit f i vs = Some r -> r = Ok (map canonicalize js).
Proof.
  intros HF; revert i r; induction HF as [|j v js vs Hjv HF IH]; intros i r H; cbn in H;
    [cbn; congruence|].
  destruct (f i v) as [q|] eqn:E; cbn in H; [|discriminate].
  rewrite (Hjv _ _ E) in H. destruct (map_visit f (S i) vs) as [rs|] eqn:E'; cbn in H; [|discriminate].
  rewrite (IH _ _ E') in H. cbn in *. congruence.
Qed.

Lemma fill_props_spec (f : string -> value -> option (result json)) (zs : list (string * (json * value))) acc r :
  Forall (fun z => forall r, f (fst z) (snd (snd z)) = Some r ->
              r = Ok (canonicalize (fst (snd z)))) zs ->
  NoDup (map fst acc ++ map fst zs) ->
  fill_props f acc (map (fun z => (fst z, snd (snd z))) zs) = Some r ->
  r = Ok (acc ++ List.filter (fun kv => negb (String.eqb (fst kv) "__proto__"))
            (map (fun z => (fst z, canonicalize (fst (snd z)))) zs)).
Proof.
  intros HF; revert acc; induction HF as [|[k [j v]] zs Hz HF IH]; intros acc Hnd H; cbn in H.
  { rewrite app_nil_r. congruence. }
  destruct (f k v) as [q|] eqn:E; cbn in H; [|discriminate]. rewrite (Hz _ E) in H.
  cbn [map List.filter fst snd] in *. unfold assign_prop in H.
  destruct (String.eqb k "__proto__") eqn:Ek; cbn [negb].
  - apply IH in H; [done|]. apply NoDup_app in Hnd as (Ha & Hd & Hz').
    apply NoDup_app. apply NoDup_cons in Hz' as [_ Hz']. split_and!; [done| |done].
    intros x Hx Hx'. apply (Hd x Hx). by right.
  - rewrite define_prop_fresh in H.
    + apply IH in H; [by rewrite <- app_assoc in H|].
      by rewrite map_app, <- app_assoc.
    + apply NoDup_app in Hnd as (_ & Hd & _). intros Hk. apply (Hd k Hk). by left.
Qed.

Lemma Forall2_zip_keys {A B} (P : A -> B -> Prop) (l : list (string * A)) (k : list (string * B)) :
  Forall2 (fun a b => fst a = fst b /\ P (snd a) (snd b)) l k ->
  exists zs : list (string * (A * B)),
    l = map (fun z => (fst z, fst (snd z))) zs /\ k = map (fun z => (fst z, snd (snd z))) zs /\
    Forall (fun z => P (fst (snd z)) (snd (snd z))) zs.
Proof.
  induction 1 as [|[x a] [y b] l k [E Hab] _ (zs & -> & -> & HP)].
  - by exists [].
  - cbn in E. subst y. exists ((x, (a, b)) :: zs). split_and!; [done|done|by constructor].
Qed.

Lemma psize_arr_elem j l : j ∈ l -> (psize j < psize (JArr l))%nat.
Proof.
  intros Hj. cbn. induction l as [|k l IH]; [by apply not_elem_of_nil in Hj|].
  apply elem_of_cons in Hj as [->|Hj]; cbn; [lia|specialize (IH Hj); lia].
Qed.
Lemma psize_obj_elem kv l : kv ∈ l -> (psize (snd kv) < psize (JObj l))%nat.
Proof.
  intros Hj. cbn. induction l as [|k l IH]; [by apply not_elem_of_nil in Hj|].
  apply elem_of_cons in Hj as [->|Hj]; cbn; [lia|specialize (IH Hj); lia].
Qed.

Lemma Forall_children_arr (P : json -> Prop) l :
  Forall P l -> wf_json (JArr l) = true ->
  Forall (fun j => P j /\ wf_json j = true /\ (psize j < psize (JArr l))%nat) l.
Proof.
  cbn [wf_json]. rewrite forallb_forall, !List.Forall_forall. intros HP Hwf j Hj.
  split_and!; auto. by apply psize_arr_elem, list_elem_of_In.
Qed.
Lemma Forall_children_obj (P : json -> Prop) l :
  Forall (fun kv => P (snd kv)) l -> wf_json (JObj l) = true ->
  Forall (fun kv => P (snd kv) /\ wf_json (snd kv) = true /\
                    (psize (snd kv) < psize (JObj l))%nat) l.
Proof.
  cbn [wf_json]. intros HP [_ Hwf]%andb_true_iff. revert HP Hwf.
  rewrite forallb_forall, !List.Forall_forall. intros HP Hwf kv Hj.
  split_and!; auto. by apply psize_obj_elem, list_elem_of_In.
Qed.

Definition visits_ok (h : heap) (j : json) : Prop :=
  forall n v anc path r, represents h j v -> wf_json j = true -> ancestors_above h anc j ->
  visit n h anc v path = Some r -> r = Ok (canonicalize j).

Lemma visit_represents n h j v anc path r :
  represents h j v -> wf_json j = true -> ancestors_above h anc j ->
  visit n h anc v path = Some r -> r = Ok (canonicalize j).
Proof.
  revert n v anc path r; induction j as [|b|z|s|l IH|l IH] using json_nested_ind;
    intros n v anc path r Hj Hwf Ha H; (destruct n as [|n]; [discriminate|]);
    inversion Hj as [| | | |l1 js vs Ho HF|l1 kjs kvs Ho HF]; subst; cbn in H; try (cbn; congruence);
    rewrite Ho in H; cbn in H; pose proof (ancestors_above_fresh _ _ _ _ Hj Ha) as Hfresh;
    rewrite decide_False in H by done.
  - destruct (map_visit _ 0 vs) as [rs|] eqn:E; cbn in H; [|discriminate].
    eapply (map_visit_spec _ l vs) in E; [rewrite E in H; cbn in *; congruence|].
    eapply Forall2_Forall_l; [|exact (Forall_children_arr (visits_ok h) l IH Hwf)|exact HF].
    cbn. intros k w (Hk & Hwk & Hsk) Hkw i q Hq.
    eapply Hk; [exact Hkw|exact Hwk| |exact Hq].
    eapply ancestors_above_child; [exact Hj|exact Hsk|exact Ha].
  - apply Forall2_zip_keys in HF as (zs & El & -> & Hzs).
    rewrite sorted_entries_map in H.
    destruct (fill_props _ _ _) as [rs|] eqn:E; cbn in H; [|discriminate].
    eapply (fill_props_spec _ (sorted_entries zs)) in E.
    + rewrite E in H. injection H as <-. cbn [app canonicalize].
      rewrite El, sorted_entries_map, sorted_entries_map, map_map. reflexivity.
    + rewrite sorted_entries_perm. apply List.Forall_forall. intros z Hz q Hq.
      assert (Hzl : (fst z, fst (snd z)) ∈ l).
      { rewrite El. apply list_elem_of_In, (in_map (fun z => (fst z, fst (snd z)))). done. }
      destruct (proj1 (List.Forall_forall _ _) (Forall_children_obj (visits_ok h) l IH Hwf) _
                  (proj1 (list_elem_of_In _ _) Hzl)) as (Hk & Hwk & Hsk).
      rewrite List.Forall_forall in Hzs. cbn in *.
      eapply Hk; [by apply Hzs|exact Hwk| |exact Hq].
      eapply ancestors_above_child; [exact Hj|exact Hsk|exact Ha].
    + cbn [map app]. rewrite sorted_entries_perm. rewrite El in Hwf. cbn in Hwf.
      apply andb_true_iff in Hwf as [Hnd%bool_decide_eq_true _].
      by rewrite map_map in Hnd.
Qed.

(** The conversion computes [canonicalize] on every representation of a
    tree. *)
Lemma toCanonicalJsonValue_computes h j v :
  represents h j v -> wf_json j = true -> heap_closed h -> value_closed h v ->
  toCanonicalJsonValue h v = Some (Ok (canonicalize j)).
Proof.
  intros Hj Hwf Hh Hv. destruct (toCanonicalJsonValue_terminates h v Hh Hv) as [r Hr].
  rewrite Hr. f_equal. eapply visit_represents; [exact Hj|exact Hwf| |exact Hr].
  intros a j' Hin. by apply not_elem_of_empty in Hin.
Qed.
End Visit.

Section Wire.
Context `{L : Locale}.

Lemma wf_canonicalize j : wf_json j = true -> wf_json (canonicalize j) = true.
Proof.
  induction j as [|[]|z|s|l IH|l IH] using json_nested_ind; cbn; auto.
  - induction IH; cbn; [done|]. intros [? ?]%andb_true_iff. apply andb_true_iff; auto.
  - intros [Hnd Hl]%andb_true_iff. apply bool_decide_eq_true in Hnd.
    rewrite forallb_forall in Hl. rewrite List.Forall_forall in IH.
    apply andb_true_iff. split.
    + apply bool_decide_eq_true.
      assert (Hs : NoDup (map fst (sorted_entries (map (fun kv => (fst kv, canonicalize (snd kv))) l))))
        by (by rewrite sorted_entries_perm, map_map).
      revert Hs. generalize (sorted_entries (map (fun kv => (fst kv, canonicalize (snd kv))) l)) as k.
      induction k as [|kv k IHk]; cbn; [done|]. intros [Hk Hnd']%NoDup_cons.
      destruct (negb _); [|auto]. cbn. apply NoDup_cons. split; [|auto].
      intros Hin. apply Hk. apply list_elem_of_In in Hin. apply in_map_iff in Hin as (x & <- & Hx).
      apply filter_In in Hx as [Hx _]. by apply list_elem_of_In, in_map.
    + apply forallb_forall. intros kv Hin. apply filter_In in Hin as [Hin _].
      rewrite <- list_elem_of_In, sorted_entries_perm, list_elem_of_In in Hin.
      apply in_map_iff in Hin as (kv' & <- & Hin). cbn. auto.
Qed.

(** What a JSON value becomes when its canonical text is parsed again. *)
Definition wire_json (j : json) : json := sort_keys (canonicalize j).

Lemma JSON_parse_wire j :
  wf_json j = true -> JSON_parse (canonicalJson (canonicalize j)) = Some (wire_json j).
Proof. intros Hwf. by apply JSON_parse_canonicalJson, wf_canonicalize. Qed.
End Wire.

(** [JSON.parse(bytes.toString('utf8'))] *)
Definition parse_bytes (b : list Z) : option json := s ← utf8_decode b; JSON_parse s.
(** [Buffer.from(canonicalJson(toCanonicalJsonValue(j)), 'utf8')] *)
Definition canonical_bytes `{Locale} (j : json) : list Z := utf8 (canonicalJson (canonicalize j)).

Lemma parse_canonical_bytes `{Locale} j :
  wf_json j = true -> parse_bytes (canonical_bytes j) = Some (wire_json j).
Proof.
  intros Hwf. unfold parse_bytes, canonical_bytes. rewrite utf8_decode_utf8. by apply JSON_parse_wire.
Qed.

(** ** Properties *)

(** On every closed heap, cyclic ones included, [toCanonicalJsonValue]
    returns: a depth of two more than the number of objects is enough.  When it returns a value, no
    object reachable from the argument lies on a cycle. *)
Theorem toCanonicalJsonValue_total `{Locale} h v :
  heap_closed h -> value_closed h v ->
  exists r, toCanonicalJsonValue h v = Some r /\
    forall j l0 l l', r = Ok j -> v = VRef l0 -> star (points_to h) l0 l ->
      points_to h l l' -> ~ star (points_to h) l' l.
Proof.
  intros Hh Hv. destruct (toCanonicalJsonValue_terminates h v Hh Hv) as [r Hr].
  exists r. split; [done|]. intros j l0 l l' -> -> Hs Hl. by eapply visit_acyclic.
Qed.

(** Functional specification: on every heap representation of a JSON tree,
    with any sharing of its objects, the conversion returns exactly the tree
    with sorted keys and without the properties named [__proto__], and the
    canonical text of the outcome parses back to it. *)
Theorem toCanonicalJsonValue_spec `{Locale} h j v :
  represents h j v -> wf_json j = true -> heap_closed h -> value_closed h v ->
  toCanonicalJsonValue h v = Some (Ok (canonicalize j)) /\
  JSON_parse (canonicalJson (canonicalize j)) = Some (sort_keys (canonicalize j)).
Proof.
  intros Hj Hwf Hh Hv. split; [by apply toCanonicalJsonValue_computes|by apply JSON_parse_wire].
Qed.

(** A property named [__proto__] is lost silently: whatever tree it holds,
    the object that carries it is converted without error to the empty
    object, so both have one digest. *)
Theorem proto_property_dropped `{Locale} `{Hash} h l j v :
  h !! l = Some (OPlain [("__proto__", v)]) -> represents h j v -> wf_json j = true ->
  heap_closed h -> 
  exists k, toCanonicalJsonValue h (VRef l) = Some (Ok k) /\
            canonicalDigest k = canonicalDigest (JObj []).
Proof.
  intros Ho Hj Hwf Hh. exists (JObj []). split; [|done].
  apply (toCanonicalJsonValue_computes h (JObj [("__proto__", j)])).
  - econstructor; [exact Ho|]. repeat constructor. done.
  - cbn [wf_json map forallb fst snd]. rewrite Hwf. done.
  - done.
  - eexists. exact Ho.
Qed.

(** ** Witnesses *)

(** [{ b: [1, -0], a: shared, c: shared }] with a cycle through [b]'s array. *)
Definition cyclic_heap : heap :=
  <[0%nat := OPlain [("b", VRef 1%nat); ("a", VRef 2%nat); ("c", VRef 2%nat)]]>
  (<[1%nat := OArray [VNumber (NInt 1); VRef 0%nat]]>
  (<[2%nat := OPlain [("x", VNull)]]> ∅)).
Definition tree_heap : heap :=
  <[0%nat := OPlain [("b", VRef 2%nat); ("a", VRef 2%nat)]]>
  (<[2%nat := OPlain [("x", VNull); ("__proto__", VString "y")]]> ∅).

Ltac by_computation :=
  lazymatch goal with |- value_closed ?h (VRef ?l) => change (is_Some (h !! l)) | _ => idtac end;
  lazymatch goal with |- is_Some ?x => apply (bool_decide_unpack (is_Some x)) end;
  vm_compute; exact I.
Ltac closed_heap :=
  intros l o Ho; unfold cyclic_heap, tree_heap in Ho; repeat (apply lookup_insert_Some in Ho as [[<- <-]|[_ Ho]];
    [cbn; rewrite ?Forall_cons; split_and?; try apply List.Forall_nil; cbn; auto; by_computation|]);
  rewrite lookup_empty in Ho; discriminate Ho.

Example cyclic_heap_rejected :
  @toCanonicalJsonValue code_unit_locale cyclic_heap (VRef 0%nat) =
  Some (Throw (ConversionError "$.b[1]" "cycle")).
Proof. vm_compute. reflexivity. Qed.

Lemma toCanonicalJsonValue_total_witness :
  exists r, @toCanonicalJsonValue code_unit_locale cyclic_heap (VRef 0%nat) = Some r.
Proof.
  destruct (@toCanonicalJsonValue_total code_unit_locale cyclic_heap (VRef 0%nat)) as (r & Hr & _).
  - closed_heap.
  - by_computation.
  - exists r. exact Hr.
Defined.

Definition tree_json : json :=
  let x := JObj [("x", JNull); ("__proto__", JStr "y")] in JObj [("b", x); ("a", x)].

Lemma toCanonicalJsonValue_spec_witness :
  @toCanonicalJsonValue code_unit_locale tree_heap (VRef 0%nat) =
  Some (Ok (JObj [("a", JObj [("x", JNull)]); ("b", JObj [("x", JNull)])])).
Proof.
  refine (proj1 (@toCanonicalJsonValue_spec code_unit_locale tree_heap tree_json (VRef 0%nat) _ _ _ _)).
  - repeat (econstructor; try (vm_compute; reflexivity)).
  - vm_compute. reflexivity.
  - closed_heap.
  - by_computation.
Defined.

Lemma proto_property_dropped_witness :
  exists k, @toCanonicalJsonValue code_unit_locale
    (<[7%nat := OPlain [("__proto__", VNumber (NInt 5))]]> ∅) (VRef 7%nat) = Some (Ok k) /\
    @canonicalDigest code_unit_locale toy_hash k = @canonicalDigest code_unit_locale toy_hash (JObj []).
Proof.
  apply (@proto_property_dropped code_unit_locale toy_hash _ 7%nat (JNum 5) (VNumber (NInt 5))).
  - vm_compute. reflexivity.
  - constructor.
  - vm_compute. reflexivity.
  - closed_heap.
Defined.
