(* ===== verification/IpcFrame.v ===== *)
(** * Runtime IPC: frames

    [packages/runtime-capability-ipc/src/index.ts]: the binary frames of the
    anonymous handler channel ([encodeRuntimeFrame],
    [decodeRuntimeFrameHeader]) and their incremental decoder
    ([consumeRuntimeFrames]). *)
From Stdlib Require Import Ascii String.
From S2P Require Import Prelude Bytes Json Digest CanonicalValue.

Definition RUNTIME_IPC_MAGIC : list Z := utf8 "KCR1".
Definition RUNTIME_IPC_MAX_PAYLOAD : Z := 1024 * 1024.
Definition RUNTIME_IPC_MAX_STREAM_CHUNK : Z := 64 * 1024.
Definition RUNTIME_IPC_HEADER_BYTES : nat := 16.
Definition RUNTIME_IPC_MAX_PENDING : nat := 32.

Inductive RuntimeFrameType :=
| HELLO | READY | REQUEST | RESPONSE | ERROR | STREAM_OPEN
| STREAM_CHUNK | STREAM_CREDIT | STREAM_END | CANCEL | SHUTDOWN | HEARTBEAT.
#[export] Instance RuntimeFrameType_eq_dec : EqDecision RuntimeFrameType.
Proof. solve_decision. Defined.

Definition runtimeFrameType (t : RuntimeFrameType) : Z :=
  match t with
  | HELLO => 1 | READY => 2 | REQUEST => 3 | RESPONSE => 4 | ERROR => 5 | STREAM_OPEN => 6
  | STREAM_CHUNK => 7 | STREAM_CREDIT => 8 | STREAM_END => 9 | CANCEL => 10
  | SHUTDOWN => 11 | HEARTBEAT => 12
  end.
Definition frame_types : list RuntimeFrameType :=
  [HELLO; READY; REQUEST; RESPONSE; ERROR; STREAM_OPEN; STREAM_CHUNK; STREAM_CREDIT;
   STREAM_END; CANCEL; SHUTDOWN; HEARTBEAT].

(** A payload is a JSON value or a [Buffer]. *)
Inductive frame_payload := PJson (j : json) | PBuffer (b : list Z).

Record RuntimeFrame := {
  frameType : RuntimeFrameType;
  flags : Z;
  sequence : Z;
  payload : frame_payload;
}.

Record frame_header := {
  h_frameType : RuntimeFrameType;
  h_flags : Z;
  h_payloadLength : Z;
  h_sequence : Z;
}.

Definition lengthZ {A} (l : list A) : Z := Z.of_nat (length l).

Section Frames.
Context `{L : Locale}.

(** The JSON value of a payload ([toCanonicalJsonValue] of a [Buffer] is its
    base64 text). *)
Definition payload_json (p : frame_payload) : json :=
  match p with PJson j => j | PBuffer b => JStr ("base64:" +:+ base64 b) end.

Definition runtimePayloadBytes (f : RuntimeFrame) : result (list Z) :=
  match frameType f with
  | STREAM_CHUNK =>
      match payload f with
      | PJson _ => Throw (JsError "RUNTIME_PROTOCOL_STREAM_CHUNK_INVALID")
      | PBuffer b =>
          if lengthZ b >? RUNTIME_IPC_MAX_STREAM_CHUNK
          then Throw (JsError "RUNTIME_PAYLOAD_TOO_LARGE") else Ok b
      end
  | _ => Ok (canonical_bytes (payload_json (payload f)))
  end.

(** [header.writeUIntnBE(value, ...)] throws on a value out of range. *)
Definition write_uint (n : nat) (z : Z) : result (list Z) :=
  if (0 <=? z) && (z <? 256 ^ Z.of_nat n) then Ok (be_bytes n z)
  else Throw (RangeError "ERR_OUT_OF_RANGE").

Definition encodeRuntimeFrame (f : RuntimeFrame) : result (list Z) :=
  bytes ← runtimePayloadBytes f;
  _ ← throw_if (lengthZ bytes >? RUNTIME_IPC_MAX_PAYLOAD) (JsError "RUNTIME_PAYLOAD_TOO_LARGE");
  _ ← throw_if (negb (safe_int (sequence f)) || (sequence f <? 1) || (sequence f >? 0xffffffff))
        (JsError "RUNTIME_PROTOCOL_SEQUENCE_INVALID");
  version ← write_uint 1 1;
  kind ← write_uint 1 (runtimeFrameType (frameType f));
  fl ← write_uint 2 (flags f);
  len ← write_uint 4 (lengthZ bytes);
  seq ← write_uint 4 (sequence f);
  Ok (RUNTIME_IPC_MAGIC ++ version ++ kind ++ fl ++ len ++ seq ++ bytes).
End Frames.

(** [header.subarray(from, from + n)] *)
Definition slice (from n : nat) (l : list Z) : list Z := firstn n (skipn from l).
Definition read_uint (from n : nat) (l : list Z) : Z := be_value (slice from n l).

Definition decodeRuntimeFrameHeader (header : list Z) : result frame_header :=
  _ ← throw_if (negb (length header =? RUNTIME_IPC_HEADER_BYTES)%nat
                || negb (bool_decide (slice 0 4 header = RUNTIME_IPC_MAGIC))
                || negb (read_uint 4 1 header =? 1))
        (JsError "RUNTIME_PROTOCOL_INVALID_HEADER");
  ft ← or_throw (List.find (fun t => runtimeFrameType t =? read_uint 5 1 header) frame_types)
        (JsError "RUNTIME_PROTOCOL_UNKNOWN_FRAME");
  let payloadLength := read_uint 8 4 header in
  _ ← throw_if (payloadLength >? RUNTIME_IPC_MAX_PAYLOAD) (JsError "RUNTIME_PAYLOAD_TOO_LARGE");
  let seq := read_uint 12 4 header in
  _ ← throw_if (seq <? 1) (JsError "RUNTIME_PROTOCOL_SEQUENCE_INVALID");
  Ok {| h_frameType := ft; h_flags := read_uint 6 2 header;
        h_payloadLength := payloadLength; h_sequence := seq |}.

(** ** The incremental decoder

    The state of the closure of [consumeRuntimeFrames]: the bytes not yet
    decoded and the next sequence number, until the socket is destroyed. *)
Inductive conn :=
| Open (pending : list Z) (expectedSequence : Z)
| Destroyed (e : exn).

(** One turn of the [while] loop. *)
Inductive turn :=
| Wait
| Fail (e : exn)
| Deliver (f : RuntimeFrame) (pending : list Z) (expectedSequence : Z).

Definition next_sequence (s : Z) : Z := if s =? 0xffffffff then 0 else s + 1.

Definition decode_payload (t : RuntimeFrameType) (b : list Z) : result frame_payload :=
  match t with
  | STREAM_CHUNK => Ok (PBuffer b)
  | _ => match parse_bytes b with
         | Some j => Ok (PJson j)
         | None => Throw (JsError "RUNTIME_PROTOCOL_INVALID_JSON")
         end
  end.

Definition consume_turn (pending : list Z) (expected : Z) : turn :=
  if (length pending <? RUNTIME_IPC_HEADER_BYTES)%nat then Wait
  else match decodeRuntimeFrameHeader (slice 0 RUNTIME_IPC_HEADER_BYTES pending) with
  | Throw e => Fail e
  | Ok h =>
      if expected =? 0 then Fail (JsError "RUNTIME_PROTOCOL_SEQUENCE_WRAP")
      else if negb (h_sequence h =? expected) then Fail (JsError "RUNTIME_PROTOCOL_SEQUENCE_INVALID")
      else
        let total := (RUNTIME_IPC_HEADER_BYTES + Z.to_nat (h_payloadLength h))%nat in
        if (length pending <? total)%nat then Wait
        else match decode_payload (h_frameType h)
                     (slice RUNTIME_IPC_HEADER_BYTES (Z.to_nat (h_payloadLength h)) pending) with
        | Throw e => Fail e
        | Ok p => Deliver {| frameType := h_frameType h; flags := h_flags h;
                             sequence := h_sequence h; payload := p |}
                    (skipn total pending) (next_sequence expected)
        end
  end.

(** The loop; every delivery consumes a header, so the length of the buffer
    is enough fuel.  Delivered frames are handed to [onFrame] in order. *)
Fixpoint consume_loop (n : nat) (pending : list Z) (expected : Z) : conn * list RuntimeFrame :=
  match n with
  | O => (Open pending expected, [])
  | S n =>
      match consume_turn pending expected with
      | Wait => (Open pending expected, [])
      | Fail e => (Destroyed e, [])
      | Deliver f pending' expected' =>
          let '(c, fs) := consume_loop n pending' expected' in (c, f :: fs)
      end
  end.

(** The ['data'] handler; a destroyed socket delivers no more data. *)
Definition on_data (c : conn) (chunk : list Z) : conn * list RuntimeFrame :=
  match c with
  | Destroyed e => (Destroyed e, [])
  | Open pending expected =>
      let pending := pending ++ chunk in consume_loop (S (length pending)) pending expected
  end.

Fixpoint on_chunks (c : conn) (chunks : list (list Z)) : conn * list RuntimeFrame :=
  match chunks with
  | [] => (c, [])
  | chunk :: chunks =>
      let '(c1, fs1) := on_data c chunk in
      let '(c2, fs2) := on_chunks c1 chunks in (c2, fs1 ++ fs2)
  end.

(** [consumeRuntimeFrames]: a fresh connection expects sequence 1. *)
Definition consumeRuntimeFrames (chunks : list (list Z)) : conn * list RuntimeFrame :=
  on_chunks (Open [] 1) chunks.

(** ** The decoder does not depend on how the stream is cut into chunks *)

Lemma slice_app n (l k : list Z) from :
  (from + n <= length l)%nat -> slice from n (l ++ k) = slice from n l.
Proof.
  intros H. unfold slice. rewrite skipn_app. replace (from - length l)%nat with 0%nat by lia.
  rewrite firstn_app. rewrite length_skipn. replace (n - (length l - from))%nat with 0%nat by lia.
  cbn. by rewrite app_nil_r.
Qed.

Lemma consume_turn_app p c e :
  match consume_turn p e with
  | Wait => True
  | Fail x => consume_turn (p ++ c) e = Fail x
  | Deliver f p' e' => consume_turn (p ++ c) e = Deliver f (p' ++ c) e'
  end.
Proof.
  unfold consume_turn. rewrite length_app.
  destruct (Nat.ltb_spec (length p) RUNTIME_IPC_HEADER_BYTES) as [|Hl]; [done|].
  destruct (Nat.ltb_spec (length p + length c) RUNTIME_IPC_HEADER_BYTES); [lia|].
  rewrite slice_app by (cbn in *; lia).
  destruct (decodeRuntimeFrameHeader _) as [h|x]; [|done].
  destruct (e =? 0); [done|]. destruct (negb _); [done|].
  set (total := (RUNTIME_IPC_HEADER_BYTES + Z.to_nat (h_payloadLength h))%nat).
  destruct (Nat.ltb_spec (length p) total); [done|].
  destruct (Nat.ltb_spec (length p + length c) total); [lia|].
  rewrite slice_app by (unfold total in *; lia).
  destruct (decode_payload _ _) as [q|x]; [|done].
  f_equal. rewrite skipn_app. by replace (total - length p)%nat with 0%nat by lia.
Qed.

Lemma consume_turn_shrinks p e f p' e' :
  consume_turn p e = Deliver f p' e' -> (length p' < length p)%nat.
Proof.
  unfold consume_turn.
  destruct (Nat.ltb_spec (length p) RUNTIME_IPC_HEADER_BYTES) as [|Hl]; [discriminate|].
  destruct (decodeRuntimeFrameHeader _) as [h|x]; [|discriminate].
  destruct (e =? 0); [discriminate|]. destruct (negb _); [discriminate|].
  destruct (Nat.ltb_spec (length p) (RUNTIME_IPC_HEADER_BYTES + Z.to_nat (h_payloadLength h))) as [|Ht];
    [discriminate|].
  destruct (decode_payload _ _); [|discriminate]. intros [= _ <- _].
  rewrite length_skipn. unfold RUNTIME_IPC_HEADER_BYTES in *. lia.
Qed.

(** More fuel than bytes changes nothing. *)
Lemma consume_loop_fuel n m p e :
  (length p < n)%nat -> (length p < m)%nat -> consume_loop n p e = consume_loop m p e.
Proof.
  revert m p e; induction n as [|n IH]; intros m p e Hn Hm; [lia|].
  destruct m as [|m]; [lia|]. cbn. destruct (consume_turn p e) as [| |f p' e'] eqn:E; [done..|].
  apply consume_turn_shrinks in E. rewrite (IH m) by lia. done.
Qed.

Lemma on_data_open p e chunk n :
  (length (p ++ chunk) < n)%nat -> on_data (Open p e) chunk = consume_loop n (p ++ chunk) e.
Proof. intros H. apply consume_loop_fuel; lia. Qed.

Lemma consume_loop_app n p c e :
  (length (p ++ c) < n)%nat ->
  consume_loop n (p ++ c) e =
    let '(s, fs) := consume_loop n p e in
    let '(s', fs') := on_data s c in (s', fs ++ fs').
Proof.
  revert p e; induction n as [|n IH]; intros p e Hn; [lia|].
  pose proof (consume_turn_app p c e) as Ht. cbn [consume_loop].
  destruct (consume_turn p e) as [|x|f p' e'] eqn:E.
  - change (consume_loop (S n) (p ++ c) e = let '(s', fs') := on_data (Open p e) c in (s', [] ++ fs')).
    rewrite (on_data_open _ _ _ (S n)) by done. by destruct (consume_loop (S n) (p ++ c) e).
  - by rewrite Ht.
  - rewrite Ht. apply consume_turn_shrinks in E. rewrite length_app in Hn.
    rewrite IH by (rewrite length_app; lia).
    destruct (consume_loop n p' e') as [s fs]. by destruct (on_data s c).
Qed.

Lemma on_data_app c a b :
  on_data c (a ++ b) =
    let '(s, fs) := on_data c a in let '(s', fs') := on_data s b in (s', fs ++ fs').
Proof.
  destruct c as [p e|x]; [|done].
  rewrite (on_data_open _ _ _ (S (length (p ++ a ++ b)))) by lia.
  rewrite (on_data_open _ _ a (S (length (p ++ a ++ b)))) by (rewrite !length_app; lia).
  rewrite app_assoc. rewrite consume_loop_app by lia. done.
Qed.

Lemma consume_loop_idle n p e :
  (length p < n)%nat ->
  match consume_loop n p e with
  | (Open p' e', _) => on_data (Open p' e') [] = (Open p' e', [])
  | _ => True
  end.
Proof.
  revert p e; induction n as [|n IH]; intros p e Hn; [lia|]. cbn [consume_loop].
  destruct (consume_turn p e) as [|x|f p' e'] eqn:E; [|done|].
  - unfold on_data. rewrite app_nil_r. cbn. by rewrite E.
  - apply consume_turn_shrinks in E. specialize (IH p' e' ltac:(lia)).
    by destruct (consume_loop n p' e') as [[] ?].
Qed.

(** Feeding chunk by chunk is feeding the concatenation. *)
Lemma on_chunks_concat c chunks :
  on_data c [] = (c, []) -> on_chunks c chunks = on_data c (concat chunks).
Proof.
  revert c; induction chunks as [|a chunks IH]; intros c Hc; cbn [on_chunks concat]; [done|].
  rewrite on_data_app. destruct (on_data c a) as [s fs] eqn:E.
  assert (Hs : on_data s [] = (s, [])).
  { destruct c as [p e|x]; [|by injection E as <- <-]. destruct s as [p' e'|x]; [|done].
    pose proof (consume_loop_idle (S (length (p ++ a))) (p ++ a) e ltac:(lia)) as Hi.
    unfold on_data in E. by rewrite E in Hi. }
  by rewrite IH.
Qed.

(** ** Round trip *)

Section RoundTrip.
Context `{L : Locale}.

(** What the receiver sees of a frame that was sent. *)
Definition wire_payload (f : RuntimeFrame) : frame_payload :=
  match frameType f, payload f with
  | STREAM_CHUNK, p => p
  | _, p => PJson (wire_json (payload_json p))
  end.
Definition wire_frame (f : RuntimeFrame) : RuntimeFrame :=
  {| frameType := frameType f; flags := flags f; sequence := sequence f; payload := wire_payload f |}.
Definition wf_frame (f : RuntimeFrame) : bool := wf_json (payload_json (payload f)).

Lemma write_uint_Ok n z bs :
  write_uint n z = Ok bs <-> 0 <= z < 256 ^ Z.of_nat n /\ bs = be_bytes n z.
Proof.
  unfold write_uint. destruct (_ && _) eqn:E; split.
  - intros [= <-]. reflect_bools. auto.
  - by intros [_ ->].
  - discriminate.
  - intros [[??] _]. apply andb_false_iff in E as [E|E]; reflect_bools; lia.
Qed.

Lemma find_frame_type t :
  List.find (fun t' => runtimeFrameType t' =? runtimeFrameType t) frame_types = Some t.
Proof. by destruct t. Qed.

(** The shape of an encoded frame. *)
Lemma encodeRuntimeFrame_Ok f bytes :
  encodeRuntimeFrame f = Ok bytes ->
  exists body,
    runtimePayloadBytes f = Ok body /\ lengthZ body <= RUNTIME_IPC_MAX_PAYLOAD /\
    1 <= sequence f <= 0xffffffff /\ 0 <= flags f < 65536 /\
    bytes = (RUNTIME_IPC_MAGIC ++ be_bytes 1 1 ++ be_bytes 1 (runtimeFrameType (frameType f)) ++
             be_bytes 2 (flags f) ++ be_bytes 4 (lengthZ body) ++ be_bytes 4 (sequence f)) ++ body.
Proof.
  unfold encodeRuntimeFrame. intros H. inv_ok.
  repeat match goal with H : write_uint _ _ = Ok _ |- _ => apply write_uint_Ok in H as [? ->] end.
  subst. reflect_bools. eexists. split; [eassumption|]. rewrite <- !app_assoc.
  split_and!; try done; try lia.
Qed.

Lemma slice_at n from pre mid post :
  length pre = from -> length mid = n -> slice from n (pre ++ mid ++ post) = mid.
Proof.
  intros <- <-. unfold slice. rewrite skipn_app, skipn_all, Nat.sub_diag, drop_0. cbn [app].
  by rewrite firstn_app, firstn_all, Nat.sub_diag, app_nil_r.
Qed.

Lemma read_uint_at n from pre z post :
  length pre = from -> 0 <= z < 256 ^ Z.of_nat n ->
  read_uint from n (pre ++ be_bytes n z ++ post) = z.
Proof.
  intros Hp Hz. unfold read_uint. rewrite slice_at by (rewrite ?length_be_bytes; done).
  by apply be_value_be_bytes_small.
Qed.

Lemma frame_type_bound t : 0 <= runtimeFrameType t < 256 ^ Z.of_nat 1.
Proof. destruct t; cbn; lia. Qed.

Lemma decode_encoded_header t fl len seq :
  0 <= fl < 65536 -> 0 <= len <= RUNTIME_IPC_MAX_PAYLOAD -> 1 <= seq <= 0xffffffff ->
  decodeRuntimeFrameHeader (RUNTIME_IPC_MAGIC ++ be_bytes 1 1 ++ be_bytes 1 (runtimeFrameType t) ++
     be_bytes 2 fl ++ be_bytes 4 len ++ be_bytes 4 seq) =
  Ok {| h_frameType := t; h_flags := fl; h_payloadLength := len; h_sequence := seq |}.
Proof.
  intros Hf Hl Hs. unfold RUNTIME_IPC_MAX_PAYLOAD in *.
  set (M := RUNTIME_IPC_MAGIC). assert (HM : length M = 4%nat) by reflexivity.
  pose proof (frame_type_bound t) as Ht.
  set (hd := M ++ _).
  assert (R0 : slice 0 4 hd = M) by (apply (slice_at 4 0 []); done).
  assert (R1 : read_uint 4 1 hd = 1) by (apply read_uint_at; [done|lia]).
  assert (R2 : read_uint 5 1 hd = runtimeFrameType t).
  { unfold hd. rewrite (app_assoc M). apply read_uint_at; [|done].
    by rewrite length_app, HM, length_be_bytes. }
  assert (R3 : read_uint 6 2 hd = fl).
  { unfold hd. rewrite (app_assoc M), (app_assoc (M ++ _)). apply read_uint_at; [|cbn; lia].
    by rewrite !length_app, HM, !length_be_bytes. }
  assert (R4 : read_uint 8 4 hd = len).
  { unfold hd. rewrite (app_assoc M), (app_assoc (M ++ _)), (app_assoc ((M ++ _) ++ _)).
    apply read_uint_at; [|cbn; lia]. by rewrite !length_app, HM, !length_be_bytes. }
  assert (R5 : read_uint 12 4 hd = seq).
  { unfold hd. rewrite (app_assoc M), (app_assoc (M ++ _)), (app_assoc ((M ++ _) ++ _)),
      (app_assoc (((M ++ _) ++ _) ++ _)), <- (app_nil_r (be_bytes 4 seq)).
    apply read_uint_at; [|cbn; lia]. by rewrite !length_app, HM, !length_be_bytes. }
  assert (R6 : length hd = 16%nat) by (unfold hd; by rewrite !length_app, HM, !length_be_bytes).
  unfold decodeRuntimeFrameHeader. rewrite R0, R1, R2, R3, R4, R5, R6, find_frame_type.
  rewrite bool_decide_true by done. cbn [negb orb Nat.eqb RUNTIME_IPC_HEADER_BYTES].
  rewrite Z.gtb_ltb. destruct (Z.ltb_spec RUNTIME_IPC_MAX_PAYLOAD len) as [Hx|_];
    [unfold RUNTIME_IPC_MAX_PAYLOAD in Hx; lia|].
  destruct (Z.ltb_spec seq 1); [lia|]. reflexivity.
Qed.

Lemma decode_payload_encoded f body :
  wf_frame f = true -> runtimePayloadBytes f = Ok body ->
  decode_payload (frameType f) body = Ok (wire_payload f).
Proof.
  unfold wf_frame, runtimePayloadBytes, decode_payload, wire_payload. intros Hwf Hb.
  destruct (frameType f) eqn:Et;
    try (injection Hb as <-; by rewrite parse_canonical_bytes).
  destruct (payload f) as [j|b]; [discriminate|].
  destruct (_ >? _); [discriminate|]. by injection Hb as <-.
Qed.

Lemma consume_turn_encoded f bytes rest :
  encodeRuntimeFrame f = Ok bytes -> wf_frame f = true ->
  consume_turn (bytes ++ rest) (sequence f) = Deliver (wire_frame f) rest (next_sequence (sequence f)).
Proof.
  intros (body & Hb & Hlen & Hseq & Hfl & ->)%encodeRuntimeFrame_Ok Hwf.
  set (hd := RUNTIME_IPC_MAGIC ++ _). 
  assert (Hd : decodeRuntimeFrameHeader hd = Ok {| h_frameType := frameType f; h_flags := flags f;
              h_payloadLength := lengthZ body; h_sequence := sequence f |})
    by (apply decode_encoded_header; unfold lengthZ in *; lia).
  assert (Hh : length hd = 16%nat) by (unfold hd; by rewrite !length_app, !length_be_bytes).
  clearbody hd. unfold consume_turn. rewrite <- app_assoc.
  assert (S1 : slice 0 RUNTIME_IPC_HEADER_BYTES (hd ++ body ++ rest) = hd)
    by (apply (slice_at 16 0 []); done).
  rewrite S1, Hd. cbn [h_frameType h_flags h_payloadLength h_sequence].
  destruct (Z.eqb_spec (sequence f) 0); [lia|]. rewrite Z.eqb_refl. cbn [negb].
  unfold lengthZ. rewrite Nat2Z.id, !length_app, Hh. unfold RUNTIME_IPC_HEADER_BYTES.
  destruct (Nat.ltb_spec (16 + (length body + length rest)) 16); [lia|].
  destruct (Nat.ltb_spec (16 + (length body + length rest)) (16 + length body)); [lia|].
  rewrite slice_at by done. rewrite (decode_payload_encoded f body Hwf Hb).
  unfold wire_frame. f_equal.
  rewrite app_assoc, skipn_app, length_app, Hh, Nat.sub_diag.
  rewrite skipn_all2 by (rewrite length_app; lia). done.
Qed.
End RoundTrip.

(** ** Streams of frames *)

(** The frames carry the sequence numbers [s], [s + 1], ... *)
Fixpoint numbered_from (s : Z) (fs : list RuntimeFrame) : Prop :=
  match fs with
  | [] => True
  | f :: fs => sequence f = s /\ numbered_from (next_sequence s) fs
  end.

Fixpoint sequence_after (s : Z) (n : nat) : Z :=
  match n with O => s | S n => sequence_after (next_sequence s) n end.

Section Streams.
Context `{L : Locale}.

Lemma consume_loop_encoded fs bytes s n :
  Forall2 (fun f b => encodeRuntimeFrame f = Ok b) fs bytes ->
  forallb wf_frame fs = true -> numbered_from s fs -> (length (concat bytes) < n)%nat ->
  consume_loop n (concat bytes) s = (Open [] (sequence_after s (length fs)), map wire_frame fs).
Proof.
  intros HF; revert s n; induction HF as [|f b fs bytes Hf HF IH]; intros s n Hwf Hs Hn;
    (destruct n as [|n]; [lia|]); [done|].
  cbn in Hwf, Hs. apply andb_true_iff in Hwf as [Hwf1 Hwf]. destruct Hs as [<- Hs].
  cbn [consume_loop concat]. rewrite (consume_turn_encoded f b) by done.
  rewrite (IH _ n Hwf Hs); [done|]. cbn in Hn. rewrite length_app in Hn.
  pose proof (consume_turn_shrinks _ _ _ _ _ (consume_turn_encoded f b [] Hf Hwf1)) as Hb.
  rewrite app_nil_r in Hb. cbn in Hb. lia.
Qed.

Lemma consume_turn_deliver_sequence p e f p' e' :
  consume_turn p e = Deliver f p' e' -> sequence f = e /\ e' = next_sequence e.
Proof.
  unfold consume_turn. destruct (_ <? _)%nat; [discriminate|].
  destruct (decodeRuntimeFrameHeader _) as [h|x]; [|discriminate].
  destruct (e =? 0); [discriminate|]. destruct (h_sequence h =? e) eqn:E; [|discriminate].
  cbn [negb]. destruct (_ <? _)%nat; [discriminate|]. destruct (decode_payload _ _); [|discriminate].
  intros [= <- _ <-]. reflect_bools. done.
Qed.

Lemma consume_loop_numbered n p e c fs :
  consume_loop n p e = (c, fs) ->
  numbered_from e fs /\
  match c with Open _ e' => e' = sequence_after e (length fs) | Destroyed _ => True end.
Proof.
  revert p e c fs; induction n as [|n IH]; intros p e c fs H; cbn in H.
  { by injection H as <- <-. }
  destruct (consume_turn p e) as [|x|f p' e'] eqn:E; try by injection H as <- <-.
  apply consume_turn_deliver_sequence in E as [Hf ->].
  destruct (consume_loop n p' _) as [c0 fs0] eqn:E0. injection H as <- <-.
  apply IH in E0 as [H1 H2]. split; [done|]. by destruct c0.
Qed.

(** The bytes that wait for the rest of their frame. *)
Definition max_buffered : Z := Z.of_nat RUNTIME_IPC_HEADER_BYTES + RUNTIME_IPC_MAX_PAYLOAD.

Lemma header_payload_bound h hd :
  decodeRuntimeFrameHeader hd = Ok h -> h_payloadLength h <= RUNTIME_IPC_MAX_PAYLOAD.
Proof.
  unfold decodeRuntimeFrameHeader. intros H. inv_ok. subst. cbn.
  match goal with H : (_ >? RUNTIME_IPC_MAX_PAYLOAD) = false |- _ => rewrite Z.gtb_ltb in H end.
  by reflect_bools.
Qed.

Lemma consume_turn_wait_bound p e : consume_turn p e = Wait -> lengthZ p < max_buffered.
Proof.
  unfold consume_turn, max_buffered, lengthZ.
  destruct (Nat.ltb_spec (length p) RUNTIME_IPC_HEADER_BYTES) as [H|_].
  { intros _. unfold RUNTIME_IPC_MAX_PAYLOAD. lia. }
  destruct (decodeRuntimeFrameHeader _) as [h|x] eqn:Eh; [|discriminate].
  apply header_payload_bound in Eh.
  destruct (e =? 0); [discriminate|]. destruct (negb _); [discriminate|].
  destruct (Nat.ltb_spec (length p) (RUNTIME_IPC_HEADER_BYTES + Z.to_nat (h_payloadLength h)));
    [|destruct (decode_payload _ _); discriminate].
  intros _. unfold RUNTIME_IPC_MAX_PAYLOAD in *. lia.
Qed.

Lemma consume_loop_bound n p e p' e' fs :
  (length p < n)%nat -> consume_loop n p e = (Open p' e', fs) -> lengthZ p' < max_buffered.
Proof.
  revert p e fs; induction n as [|n IH]; intros p e fs Hn H; [lia|]. cbn in H.
  destruct (consume_turn p e) as [|x|f q e1] eqn:E; [|discriminate|].
  - injection H as <- <- <-. by apply consume_turn_wait_bound in E.
  - apply consume_turn_shrinks in E. destruct (consume_loop n q e1) as [c fs0] eqn:E0.
    injection H as -> <-. eapply IH; [|exact E0]. lia.
Qed.
End Streams.

(** ** Properties *)

Section Properties.
Context `{L : Locale}.

(** C1. Streaming round trip: encoded frames numbered from 1, cut into chunks
    in any way, are all delivered, in order and with their canonical payloads,
    and leave an empty buffer. *)
Theorem frame_stream_round_trip fs bytes chunks :
  Forall2 (fun f b => encodeRuntimeFrame f = Ok b) fs bytes ->
  forallb wf_frame fs = true -> numbered_from 1 fs -> concat chunks = concat bytes ->
  consumeRuntimeFrames chunks = (Open [] (sequence_after 1 (length fs)), map wire_frame fs).
Proof.
  intros HF Hwf Hs Hc. unfold consumeRuntimeFrames. rewrite on_chunks_concat by done.
  rewrite Hc. unfold on_data. cbn [app]. by apply consume_loop_encoded; [| | |lia].
Qed.

(** The decoder is insensitive to packet boundaries: two ways of cutting
    the same byte stream, well formed or not, end in the same connection
    state and deliver the same frames. *)
Theorem chunking_irrelevant chunks1 chunks2 :
  concat chunks1 = concat chunks2 -> consumeRuntimeFrames chunks1 = consumeRuntimeFrames chunks2.
Proof. intros H. unfold consumeRuntimeFrames. rewrite !on_chunks_concat by done. by rewrite H. Qed.

(** Whatever bytes arrive, the delivered frames carry the sequence numbers
    1, 2, 3, ... without gap or repetition, and an open connection never buffers more than one
    header and one maximal payload. *)
Theorem delivered_in_order chunks :
  let '(c, fs) := consumeRuntimeFrames chunks in
  numbered_from 1 fs /\
  match c with
  | Open p e => e = sequence_after 1 (length fs) /\ lengthZ p < max_buffered
  | Destroyed _ => True
  end.
Proof.
  unfold consumeRuntimeFrames. rewrite on_chunks_concat by done. unfold on_data. cbn [app].
  destruct (consume_loop _ _ _) as [c fs] eqn:E.
  pose proof (consume_loop_numbered _ _ _ _ _ E) as [H1 H2]. split; [done|].
  destruct c as [p e|]; [|done]. split; [done|].
  eapply consume_loop_bound; [|exact E]. lia.
Qed.
End Properties.

(** ** Witnesses *)

Definition hello_frame : RuntimeFrame :=
  {| frameType := HELLO; flags := 0; sequence := 1; payload := PJson (JObj [("b", JNum 1); ("a", JNull)]) |}.
Definition chunk_frame : RuntimeFrame :=
  {| frameType := STREAM_CHUNK; flags := 3; sequence := 2; payload := PBuffer [1; 2; 255] |}.
Definition encoded (f : RuntimeFrame) : list Z :=
  match @encodeRuntimeFrame code_unit_locale f with Ok b => b | Throw _ => [] end.

Lemma frame_stream_round_trip_witness :
  @consumeRuntimeFrames (firstn 5 (encoded hello_frame) ::
    [skipn 5 (encoded hello_frame) ++ encoded chunk_frame]) =
  (Open [] 3, map (@wire_frame code_unit_locale) [hello_frame; chunk_frame]).
Proof.
  apply (@frame_stream_round_trip code_unit_locale [hello_frame; chunk_frame]
           [encoded hello_frame; encoded chunk_frame]).
  - repeat constructor.
  - reflexivity.
  - cbn. repeat split.
  - cbn [concat]. rewrite !app_nil_r, app_assoc. by rewrite firstn_skipn.
Defined.

Lemma chunking_irrelevant_witness :
  consumeRuntimeFrames [[75]; [67]] = consumeRuntimeFrames [[75; 67]].
Proof. apply (chunking_irrelevant [[75]; [67]] [[75; 67]]). reflexivity. Defined.
