(* ===== verification/IpcChannel.v ===== *)
(** * Runtime IPC: the request channel

    [packages/runtime-capability-ipc/src/index.ts]: the multiplexing client
    [RuntimeCapabilityClient] as a state machine (calls, time-outs, responses,
    close) and the serving side [createCapabilityFdServer]. *)
From Stdlib Require Import Ascii String.
From S2P Require Import Prelude Bytes Json Digest CanonicalValue IpcFrame.

(** The string formats that zod checks: UUIDs, and date-times with an offset
    together with the time value [new Date(s).getTime()] of an accepted one. *)
Class Formats := {
  uuid_ok : string -> bool;
  datetime_ms : string -> option Z;
}.

(** ** Requests *)

Inductive capability_operation := op_secret | op_callComponent | op_callExternal | op_state | op_logger | op_runtime.
#[export] Instance capability_operation_eq_dec : EqDecision capability_operation.
Proof. solve_decision. Defined.
Definition operation_name (o : capability_operation) : string :=
  match o with
  | op_secret => "secret" | op_callComponent => "callComponent" | op_callExternal => "callExternal"
  | op_state => "state" | op_logger => "logger" | op_runtime => "runtime"
  end.
Definition capability_operations : list capability_operation :=
  [op_secret; op_callComponent; op_callExternal; op_state; op_logger; op_runtime].
Definition operation_of_name (s : string) : option capability_operation :=
  List.find (fun o => String.eqb (operation_name o) s) capability_operations.

(** [request_payload] is [None] when the property is absent. *)
Record RuntimeCapabilityRequest := {
  requestId : string;
  operation : capability_operation;
  capabilityAlias : option string;
  deadlineAt : string;
  cancellationVersion : Z;
  correlationId : string;
  request_payload : option json;
}.

Section Channel.
Context `{L : Locale} `{F : Formats}.

(** [runtimeCapabilityRequestSchema.parse] on a typed request. *)
Definition valid_alias (a : option string) : bool :=
  match a with
  | Some s => (1 <=? String.length s)%nat && (String.length s <=? 256)%nat
  | None => true
  end.
Definition valid_request (r : RuntimeCapabilityRequest) : bool :=
  uuid_ok (requestId r) && valid_alias (capabilityAlias r)
  && match datetime_ms (deadlineAt r) with Some _ => true | None => false end
  && (0 <=? cancellationVersion r) && safe_int (cancellationVersion r) && uuid_ok (correlationId r).

Definition request_json (r : RuntimeCapabilityRequest) : json :=
  JObj ([("requestId", JStr (requestId r)); ("operation", JStr (operation_name (operation r)));
        ("capabilityAlias", match capabilityAlias r with Some s => JStr s | None => JNull end);
        ("deadlineAt", JStr (deadlineAt r)); ("cancellationVersion", JNum (cancellationVersion r));
        ("correlationId", JStr (correlationId r))]
        ++ match request_payload r with Some p => [("payload", p)] | None => [] end).

(** [z.object({...}).strict()]: no other property. *)
Definition strict_keys (keys : list string) (l : list (string * json)) : bool :=
  forallb (fun kv => existsb (String.eqb (fst kv)) keys) l.
Definition request_keys : list string :=
  ["requestId"; "operation"; "capabilityAlias"; "deadlineAt"; "cancellationVersion"; "correlationId"; "payload"].

(** [runtimeCapabilityRequestSchema.parse] on a received value. *)
Definition parse_request (j : json) : result RuntimeCapabilityRequest :=
  match j with
  | JObj l =>
      _ ← throw_if (negb (strict_keys request_keys l)) ZodError;
      match get_prop "requestId" l, get_prop "operation" l, get_prop "capabilityAlias" l,
            get_prop "deadlineAt" l, get_prop "cancellationVersion" l, get_prop "correlationId" l with
      | Some (JStr id), Some (JStr op), Some alias, Some (JStr d), Some (JNum cv), Some (JStr co) =>
          op ← or_throw (operation_of_name op) ZodError;
          alias ← match alias with JStr s => Ok (Some s) | JNull => Ok None | _ => Throw ZodError end;
          let r := {| requestId := id; operation := op; capabilityAlias := alias; deadlineAt := d;
                      cancellationVersion := cv; correlationId := co;
                      request_payload := get_prop "payload" l |} in
          _ ← throw_if (negb (valid_request r)) ZodError;
          Ok r
      | _, _, _, _, _, _ => Throw ZodError
      end
  | _ => Throw ZodError
  end.

(** ** The client *)

(** [#pending] maps a request id to the promise of its call; calls are numbered in the order in which they
    registered.  [c_blocked] are the calls whose REQUEST waits in [write] for the socket to drain: the promise of
    [invoke] goes on only after that, so an outcome that comes before is kept in [c_held]. *)
Record client := {
  c_pending : gmap string nat;
  c_cancelled : gset string;
  c_sequence : Z;
  c_closed : bool;
  c_calls : nat;
  c_blocked : gset nat;
  c_held : list (nat * result (option json));
}.
Definition new_client : client :=
  {| c_pending := ∅; c_cancelled := ∅; c_sequence := 1; c_closed := false; c_calls := 0; c_blocked := ∅; c_held := [] |}.

(** What the outside sees: frames written to the socket, the promise of an [invoke] resolved or rejected, and
    a rejection that nothing handles yet ([unhandledRejection] of the process). *)
Inductive effect :=
| Sent (bytes : list Z)
| Settled (call : nat) (outcome : result (option json))
| Unhandled (call : nat).

Definition set_pending (c : client) (p : gmap string nat) : client :=
  {| c_pending := p; c_cancelled := c_cancelled c; c_sequence := c_sequence c;
     c_closed := c_closed c; c_calls := c_calls c; c_blocked := c_blocked c; c_held := c_held c |}.
Definition set_cancelled (c : client) (s : gset string) : client :=
  {| c_pending := c_pending c; c_cancelled := s; c_sequence := c_sequence c;
     c_closed := c_closed c; c_calls := c_calls c; c_blocked := c_blocked c; c_held := c_held c |}.
Definition set_blocked (c : client) (b : gset nat) (held : list (nat * result (option json))) : client :=
  {| c_pending := c_pending c; c_cancelled := c_cancelled c; c_sequence := c_sequence c;
     c_closed := c_closed c; c_calls := c_calls c; c_blocked := b; c_held := held |}.

(** [write]: the sequence number is taken before the frame is encoded.  A frame goes to the socket; [accepted] is
    what [socket.write] returns, and when it is [false] the promise waits for [drain] or [error]. *)
Inductive write_outcome := Written (bytes : list Z) | Waiting (bytes : list Z).
Definition client_write (accepted : bool) (c : client) (t : RuntimeFrameType) (j : json) : client * result write_outcome :=
  if c_sequence c >? 0xffffffff then (c, Throw (JsError "RUNTIME_PROTOCOL_SEQUENCE_WRAP"))
  else
    let seq := c_sequence c in
    let c' := {| c_pending := c_pending c; c_cancelled := c_cancelled c; c_sequence := seq + 1;
                 c_closed := c_closed c; c_calls := c_calls c; c_blocked := c_blocked c; c_held := c_held c |} in
    (c', bytes ← encodeRuntimeFrame {| frameType := t; flags := 0; sequence := seq; payload := PJson j |};
         Ok (if accepted then Written bytes else Waiting bytes)).

(** The inner promises of calls are settled; an [invoke] that waits for its write does not see it yet. *)
Fixpoint settle_all (c : client) (outcomes : list (nat * result (option json))) : client * list effect :=
  match outcomes with
  | [] => (c, [])
  | (k, o) :: outcomes =>
      let '(c1, out) := if decide (k ∈ c_blocked c)
                        then (set_blocked c (c_blocked c) (c_held c ++ [(k, o)]), if is_Ok o then [] else [Unhandled k])
                        else (c, [Settled k o]) in
      let '(c2, outs) := settle_all c1 outcomes in (c2, out ++ outs)
  end.

(** [invoke]: [inl] is a rejection before the call registers, [inr] the number
    of the registered call.  [now] is [Date.now()]. *)
Definition client_invoke (maxPending : nat) (now : Z) (r : RuntimeCapabilityRequest) (accepted : bool) (c : client)
    : client * (exn + nat) * list effect :=
  if c_closed c then (c, inl (JsError "RUNTIME_CHANNEL_CLOSED"), [])
  else if negb (valid_request r) then (c, inl ZodError, [])
  else match c_pending c !! requestId r with
  | Some _ => (c, inl (JsError "RUNTIME_DUPLICATE_REQUEST_ID"), [])
  | None =>
      if (maxPending <=? size (c_pending c))%nat then (c, inl (JsError "RUNTIME_STREAM_BACKPRESSURE"), [])
      else if match datetime_ms (deadlineAt r) with Some d => d <=? now | None => true end
      then (c, inl (JsError "RUNTIME_DEADLINE_EXCEEDED"), [])
      else
        let call := c_calls c in
        let c1 := {| c_pending := <[requestId r := call]> (c_pending c); c_cancelled := c_cancelled c;
                     c_sequence := c_sequence c; c_closed := c_closed c; c_calls := S call;
                     c_blocked := c_blocked c; c_held := c_held c |} in
        let '(c2, w) := client_write accepted c1 REQUEST (request_json r) in
        match w with
        | Ok (Written bytes) => (c2, inr call, [Sent bytes])
        | Ok (Waiting bytes) => (set_blocked c2 ({[call]} ∪ c_blocked c2) (c_held c2), inr call, [Sent bytes])
        | Throw e => (set_pending c2 (delete (requestId r) (c_pending c2)), inr call, [Settled call (Throw e)])
        end
  end.

Definition cancel_json (id : string) : json := JObj [("requestId", JStr id)].

(** The timer of a pending call fires; nobody waits for the CANCEL to be written. *)
Definition client_timeout (id : string) (c : client) : client * list effect :=
  match c_pending c !! id with
  | None => (c, [])
  | Some call =>
      let c1 := set_cancelled (set_pending c (delete id (c_pending c))) ({[id]} ∪ c_cancelled c) in
      let '(c2, w) := client_write true c1 CANCEL (cancel_json id) in
      let '(c3, out) := settle_all c2 [(call, Throw (JsError "RUNTIME_DEADLINE_EXCEEDED"))] in
      (c3, match w with Ok (Written bytes) | Ok (Waiting bytes) => [Sent bytes] | Throw _ => [] end ++ out)
  end.

(** The response record of [consumeRuntimeFrames]'s handler. *)
Definition parse_response (p : frame_payload) : result (string * option json * option string) :=
  match p with
  | PJson (JObj l) =>
      _ ← throw_if (negb (strict_keys ["requestId"; "payload"; "error"] l)) ZodError;
      match get_prop "requestId" l, get_prop "error" l with
      | Some (JStr id), None => _ ← throw_if (negb (uuid_ok id)) ZodError; Ok (id, get_prop "payload" l, None)
      | Some (JStr id), Some (JStr e) => _ ← throw_if (negb (uuid_ok id)) ZodError; Ok (id, get_prop "payload" l, Some e)
      | _, _ => Throw ZodError
      end
  | _ => Throw ZodError
  end.

(** A delivered frame; [Throw] makes the decoder destroy the socket. *)
Definition client_frame (f : RuntimeFrame) (c : client) : client * result unit * list effect :=
  match frameType f with
  | RESPONSE | ERROR =>
      match parse_response (payload f) with
      | Throw e => (c, Throw e, [])
      | Ok (id, value, err) =>
          match c_pending c !! id with
          | None =>
              if decide (id ∈ c_cancelled c)
              then (set_cancelled c (c_cancelled c ∖ {[id]}), Ok tt, [])
              else (c, Throw (JsError "RUNTIME_PROTOCOL_REQUEST_MISMATCH"), [])
          | Some call =>
              let '(c', out) := settle_all (set_pending c (delete id (c_pending c)))
                [(call, if decide (frameType f = ERROR)
                        then Throw (JsError (default "RUNTIME_REMOTE_ERROR" err)) else Ok value)] in
              (c', Ok tt, out)
          end
      end
  | _ => (c, Throw (JsError "RUNTIME_PROTOCOL_UNEXPECTED_FRAME"), [])
  end.

(** [close], called by the owner and on the socket's [close] event; it leaves waiting writes waiting. *)
Definition client_close (e : exn) (c : client) : client * list effect :=
  if c_closed c then (c, [])
  else settle_all {| c_pending := ∅; c_cancelled := ∅; c_sequence := c_sequence c; c_closed := true; c_calls := c_calls c;
                     c_blocked := c_blocked c; c_held := c_held c |}
         (map (fun kv => (snd kv, Throw e)) (map_to_list (c_pending c))).
(** The socket drains: the waiting writes are done, and their calls see what they missed. *)
Definition client_drain (c : client) : client * list effect :=
  (set_blocked c ∅ [], map (fun ko => Settled (fst ko) (snd ko)) (c_held c)).
(** The socket fails: the waiting writes end, the channel is closed, and a call whose write failed finds its
    promise rejected by the close. *)
Definition client_error (e : exn) (c : client) : client * list effect :=
  let '(c1, o1) := client_drain c in let '(c2, o2) := client_close e c1 in (c2, o1 ++ o2).

(** The events the client reacts to, in any order. *)
Inductive client_event :=
| Invoke (now : Z) (r : RuntimeCapabilityRequest) (accepted : bool)
| Timeout (id : string)
| Frame (f : RuntimeFrame)
| Drain
| SocketError (e : exn)
| Close (e : exn).

Definition client_step (maxPending : nat) (ev : client_event) (c : client) : client * list effect :=
  match ev with
  | Invoke now r accepted => let '(c', _, out) := client_invoke maxPending now r accepted c in (c', out)
  | Timeout id => client_timeout id c
  | Frame f => let '(c', _, out) := client_frame f c in (c', out)
  | Drain => client_drain c
  | SocketError e => client_error e c
  | Close e => client_close e c
  end.

Fixpoint client_run (maxPending : nat) (evs : list client_event) (c : client) : client * list effect :=
  match evs with
  | [] => (c, [])
  | ev :: evs =>
      let '(c1, o1) := client_step maxPending ev c in
      let '(c2, o2) := client_run maxPending evs c1 in (c2, o1 ++ o2)
  end.

(** ** The server *)

Record fd_server := {
  s_sequence : Z;
  s_cancelled : gset string;
  s_destroyed : option exn;
  s_executed : list RuntimeCapabilityRequest;
  s_written : list (list Z);
}.
Definition new_server : fd_server :=
  {| s_sequence := 1; s_cancelled := ∅; s_destroyed := None; s_executed := []; s_written := [] |}.

Definition parse_cancel (p : frame_payload) : result string :=
  match p with
  | PJson (JObj l) =>
      _ ← throw_if (negb (strict_keys ["requestId"] l)) ZodError;
      match get_prop "requestId" l with
      | Some (JStr id) => _ ← throw_if (negb (uuid_ok id)) ZodError; Ok id
      | _ => Throw ZodError
      end
  | _ => Throw ZodError
  end.

(** [socket.destroy(error)]; the first error wins. *)
Definition destroy (e : exn) (s : fd_server) : fd_server :=
  {| s_sequence := s_sequence s; s_cancelled := s_cancelled s;
     s_destroyed := match s_destroyed s with Some e0 => Some e0 | None => Some e end;
     s_executed := s_executed s; s_written := s_written s |}.

(** The response frame; the value [undefined] ([None]) is not representable.
    [socket.write] reaches the peer only while the socket lives. *)
Definition respond (id : string) (value : option json) (s : fd_server) : fd_server :=
  let seq := s_sequence s in
  let s' := {| s_sequence := seq + 1; s_cancelled := s_cancelled s; s_destroyed := s_destroyed s;
               s_executed := s_executed s; s_written := s_written s |} in
  match match value with
        | None => Throw (ConversionError "$.payload" "undefined")
        | Some j => encodeRuntimeFrame {| frameType := RESPONSE; flags := 0; sequence := seq;
                      payload := PJson (JObj [("requestId", JStr id); ("payload", j)]) |}
        end with
  | Throw e => destroy e s'
  | Ok bytes =>
      {| s_sequence := seq + 1; s_cancelled := s_cancelled s; s_destroyed := s_destroyed s;
         s_executed := s_executed s;
         s_written := s_written s ++ match s_destroyed s with None => [bytes] | Some _ => [] end |}
  end.

(** One link of the promise chain: the frames are handled strictly one after
    the other, whether or not the socket still lives. *)
Definition serve_frame (handler : RuntimeCapabilityRequest -> result (option json))
    (s : fd_server) (f : RuntimeFrame) : fd_server :=
  match frameType f with
  | CANCEL =>
      match parse_cancel (payload f) with
      | Ok id => {| s_sequence := s_sequence s; s_cancelled := {[id]} ∪ s_cancelled s;
                    s_destroyed := s_destroyed s; s_executed := s_executed s; s_written := s_written s |}
      | Throw e => destroy e s
      end
  | REQUEST =>
      match match payload f with PJson j => parse_request j | PBuffer _ => Throw ZodError end with
      | Throw e => destroy e s
      | Ok r =>
          let s1 := {| s_sequence := s_sequence s; s_cancelled := s_cancelled s; s_destroyed := s_destroyed s;
                       s_executed := s_executed s ++ [r]; s_written := s_written s |} in
          match handler r with
          | Throw e => destroy e s1
          | Ok value =>
              if decide (requestId r ∈ s_cancelled s1)
              then {| s_sequence := s_sequence s1; s_cancelled := s_cancelled s1 ∖ {[requestId r]};
                      s_destroyed := s_destroyed s1; s_executed := s_executed s1; s_written := s_written s1 |}
              else respond (requestId r) value s1
          end
      end
  | _ => destroy (JsError "RUNTIME_PROTOCOL_UNEXPECTED_FRAME") s
  end.

Definition createCapabilityFdServer (handler : RuntimeCapabilityRequest -> result (option json))
    (frames : list RuntimeFrame) : fd_server :=
  fold_left (serve_frame handler) frames new_server.
End Channel.

(** ** The client settles every call exactly once *)

Section ClientTheory.
Context `{L : Locale} `{F : Formats}.

Definition settled_calls (out : list effect) : list nat :=
  omap (fun e => match e with Settled k _ => Some k | Sent _ | Unhandled _ => None end) out.
Definition pending_calls (c : client) : list nat := map snd (map_to_list (c_pending c)).
Definition held_calls (c : client) : list nat := map fst (c_held c).

Lemma settled_calls_app o1 o2 : settled_calls (o1 ++ o2) = settled_calls o1 ++ settled_calls o2.
Proof. unfold settled_calls. induction o1 as [|[b|k q|k] o1 IH]; cbn in *; congruence. Qed.

(** The calls registered so far are the settled, the held and the pending ones, each once; only calls that wait
    for their write are held. *)
Definition accounted (c : client) (settled : list nat) : Prop :=
  settled ++ held_calls c ++ pending_calls c ≡ₚ seq 0 (c_calls c) /\ Forall (fun k => k ∈ c_blocked c) (held_calls c).

Lemma settle_all_spec c outcomes c' out :
  settle_all c outcomes = (c', out) ->
  (c_pending c' = c_pending c /\ c_calls c' = c_calls c /\ c_closed c' = c_closed c /\ c_cancelled c' = c_cancelled c /\
   c_blocked c' = c_blocked c) /\
  settled_calls out ++ held_calls c' ≡ₚ held_calls c ++ map fst outcomes /\
  (Forall (fun k => k ∈ c_blocked c) (held_calls c) -> Forall (fun k => k ∈ c_blocked c') (held_calls c')).
Proof.
  revert c c' out; induction outcomes as [|[k o] outcomes IH]; intros c c' out; cbn [settle_all].
  - intros [= <- <-]. cbn. by rewrite app_nil_r.
  - destruct (decide (k ∈ c_blocked c)) as [Hk|Hk].
    + destruct (settle_all _ outcomes) as [c2 outs] eqn:E. apply IH in E as ((Hp & Hc & Hcl & Hcn & Hb) & Hs & Hf).
      intros [= <- <-]. split; [done|]. cbn [c_blocked c_held set_blocked held_calls] in *.
      rewrite settled_calls_app. replace (settled_calls (if is_Ok o then [] else [Unhandled k])) with (@nil nat) by (by destruct (is_Ok o)).
      unfold held_calls in *. cbn [c_held set_blocked] in *. rewrite map_app in Hs, Hf. split.
      * cbn [app map fst]. rewrite Hs, <- app_assoc. done.
      * intros Hh. apply Hf. apply Forall_app. split; [done|]. by repeat constructor.
    + destruct (settle_all _ outcomes) as [c2 outs] eqn:E. apply IH in E as (Hfr & Hs & Hf).
      intros [= <- <-]. split; [done|]. split; [|done]. cbn [app map fst settled_calls omap list_omap].
      fold (settled_calls outs). rewrite Hs. by rewrite <- Permutation_middle.
Qed.

Lemma pending_calls_insert c id k :
  c_pending c !! id = None ->
  map snd (map_to_list (<[id := k]> (c_pending c))) ≡ₚ k :: pending_calls c.
Proof. intros H. unfold pending_calls. by rewrite map_to_list_insert. Qed.

Lemma pending_calls_delete (p : gmap string nat) id k :
  p !! id = Some k -> map snd (map_to_list p) ≡ₚ k :: map snd (map_to_list (delete id p)).
Proof.
  intros H. rewrite <- (insert_delete_id p id k H) at 1.
  by rewrite map_to_list_insert by apply lookup_delete_eq.
Qed.

Lemma client_write_frame acc c t j c' w :
  client_write acc c t j = (c', w) ->
  c_pending c' = c_pending c /\ c_calls c' = c_calls c /\ c_cancelled c' = c_cancelled c /\
  c_closed c' = c_closed c /\ c_blocked c' = c_blocked c /\ c_held c' = c_held c.
Proof. unfold client_write. destruct (_ >? _); by intros [= <- _]. Qed.

(** Settling calls that leave the pending table keeps the account. *)
Lemma settle_all_accounted c0 c outcomes c' out settled :
  accounted c0 settled -> settle_all c outcomes = (c', out) ->
  c_calls c = c_calls c0 -> c_blocked c = c_blocked c0 -> c_held c = c_held c0 ->
  pending_calls c0 ≡ₚ map fst outcomes ++ pending_calls c -> accounted c' (settled ++ settled_calls out).
Proof.
  intros [Ha Hf] Hs Hc Hb Hh Hp. apply settle_all_spec in Hs as ((Ep & Ec & _) & Hs & Hf').
  split.
  - rewrite Ec, Hc, <- Ha, Hp. unfold pending_calls. rewrite Ep, <- !app_assoc. f_equiv.
    rewrite !app_assoc. f_equiv. rewrite Hs. unfold held_calls. by rewrite Hh.
  - apply Hf'. unfold held_calls in *. by rewrite Hb, Hh.
Qed.

Lemma client_invoke_accounted mp now r acc c settled :
  accounted c settled ->
  let '(c', _, out) := client_invoke mp now r acc c in accounted c' (settled ++ settled_calls out).
Proof.
  intros Ha. unfold client_invoke.
  destruct (c_closed c); [by rewrite app_nil_r|].
  destruct (negb _); [by rewrite app_nil_r|].
  destruct (c_pending c !! requestId r) eqn:E; [by rewrite app_nil_r|].
  destruct (_ <=? _)%nat; [by rewrite app_nil_r|].
  destruct (match datetime_ms _ with Some _ => _ | None => _ end); [by rewrite app_nil_r|].
  set (c1 := {| c_pending := <[requestId r := c_calls c]> (c_pending c) |}).
  destruct (client_write acc c1 REQUEST (request_json r)) as [c2 w] eqn:Ew.
  apply client_write_frame in Ew as (Hp & Hc & _ & _ & Hb & Hh). destruct Ha as [Ha Hf].
  assert (Hreg : settled ++ held_calls c ++ c_calls c :: pending_calls c ≡ₚ seq 0 (S (c_calls c))).
  { rewrite seq_S, <- Ha. cbn [plus]. etransitivity; [|apply Permutation_cons_append]. by rewrite <- !Permutation_middle. }
  destruct w as [[bytes|bytes]|e]; unfold accounted, pending_calls, held_calls in *;
    cbn [settled_calls omap list_omap set_pending set_blocked c_pending c_calls c_held c_blocked];
    rewrite ?Hp, ?Hc, ?Hb, ?Hh; cbn [c1 c_pending c_calls c_held c_blocked]; rewrite ?app_nil_r.
  - split; [|done]. by rewrite pending_calls_insert.
  - split; [by rewrite pending_calls_insert|]. eapply Forall_impl; [exact Hf|]. set_solver.
  - split; [|done]. rewrite delete_insert_id by done. rewrite <- Hreg, <- app_assoc. cbn [app]. by rewrite <- !Permutation_middle.
Qed.

Lemma settled_held c : settled_calls (snd (client_drain c)) = held_calls c.
Proof. unfold settled_calls, held_calls. cbn. induction (c_held c) as [|[k o] l IH]; cbn in *; congruence. Qed.

Lemma client_drain_accounted c settled :
  accounted c settled -> let '(c', out) := client_drain c in accounted c' (settled ++ settled_calls out).
Proof.
  intros [Ha _]. cbn. split; [|constructor]. unfold held_calls, pending_calls in *. cbn [set_blocked c_held c_pending c_calls map].
  pose proof (settled_held c) as Hs. cbn [client_drain snd] in Hs. rewrite Hs. unfold held_calls. by rewrite <- app_assoc.
Qed.

Lemma client_close_accounted e c settled :
  accounted c settled -> let '(c', out) := client_close e c in accounted c' (settled ++ settled_calls out).
Proof.
  intros Ha. unfold client_close. destruct (c_closed c); [by rewrite app_nil_r|].
  destruct (settle_all _ _) as [c' out] eqn:E. eapply (settle_all_accounted c); [done|exact E|done..|].
  unfold pending_calls. cbn [c_pending]. rewrite map_to_list_empty, map_map, app_nil_r. done.
Qed.

Lemma settle_all_unblocked c outcomes :
  c_blocked c = ∅ -> settled_calls (snd (settle_all c outcomes)) = map fst outcomes.
Proof.
  intros Hb. induction outcomes as [|[k o] outcomes IH]; cbn [settle_all]; [done|].
  rewrite decide_False by (rewrite Hb; set_solver). destruct (settle_all c outcomes) as [c2 outs]. cbn in *. by rewrite IH.
Qed.

Lemma client_error_settles e c settled :
  accounted c settled -> (c_closed c = true -> c_pending c = ∅) ->
  settled ++ settled_calls (snd (client_error e c)) ≡ₚ seq 0 (c_calls c).
Proof.
  intros [Ha _] Hc. rewrite <- Ha. unfold client_error. pose proof (settled_held c) as Hh.
  unfold client_drain in *. cbn [snd] in Hh.
  destruct (client_close e (set_blocked c ∅ [])) as [c2 o2] eqn:E. cbn [snd]. rewrite settled_calls_app, Hh. do 2 f_equiv.
  unfold client_close in E. cbn [set_blocked c_closed] in E. destruct (c_closed c).
  - injection E as _ <-. unfold pending_calls. by rewrite (Hc eq_refl), map_to_list_empty.
  - replace o2 with (snd (c2, o2)) by done. rewrite <- E, settle_all_unblocked, map_map by done. done.
Qed.

Lemma client_step_accounted mp ev c settled :
  accounted c settled ->
  let '(c', out) := client_step mp ev c in accounted c' (settled ++ settled_calls out).
Proof.
  intros Ha. destruct ev as [now r acc|id|f| |e|e]; cbn [client_step].
  - pose proof (client_invoke_accounted mp now r acc c settled Ha) as H.
    by destruct (client_invoke mp now r acc c) as [[c' res] out].
  - unfold client_timeout. destruct (c_pending c !! id) as [k|] eqn:E; [|by rewrite app_nil_r].
    destruct (client_write true _ _ _) as [c2 w] eqn:Ew. apply client_write_frame in Ew as (Hp & Hc & _ & _ & Hb & Hh).
    destruct (settle_all c2 _) as [c3 out] eqn:Es. rewrite settled_calls_app.
    replace (settled_calls (match w with Ok _ => _ | Throw _ => _ end)) with (@nil nat) by (by destruct w as [[]|]).
    eapply (settle_all_accounted c); [done|exact Es|done|done|done|].
    unfold pending_calls. rewrite Hp. cbn [set_cancelled set_pending c_pending map fst]. by apply pending_calls_delete.
  - unfold client_frame. destruct (frameType f); try (by rewrite app_nil_r);
      destruct (parse_response (payload f)) as [[[id v] err]|e]; try (by rewrite app_nil_r);
      (destruct (c_pending c !! id) as [k|] eqn:E;
        [|destruct (decide (id ∈ c_cancelled c)); by rewrite app_nil_r]);
      destruct (settle_all _ _) as [c' out] eqn:Es;
      (eapply (settle_all_accounted c); [done|exact Es|done|done|done|]);
      unfold pending_calls; cbn [set_pending c_pending map fst]; by apply pending_calls_delete.
  - by apply client_drain_accounted.
  - unfold client_error. pose proof (client_drain_accounted c settled Ha) as Hd.
    destruct (client_drain c) as [c1 o1]. apply (client_close_accounted e) in Hd.
    destruct (client_close e c1) as [c2 o2]. by rewrite settled_calls_app, app_assoc.
  - by apply client_close_accounted.
Qed.

Lemma client_run_accounted mp evs c settled :
  accounted c settled ->
  let '(c', out) := client_run mp evs c in accounted c' (settled ++ settled_calls out).
Proof.
  revert c settled; induction evs as [|ev evs IH]; intros c settled Ha; cbn [client_run];
    [by rewrite app_nil_r|].
  pose proof (client_step_accounted mp ev c settled Ha) as H1.
  destruct (client_step mp ev c) as [c1 o1]. specialize (IH c1 _ H1).
  destruct (client_run mp evs c1) as [c2 o2]. by rewrite settled_calls_app, app_assoc.
Qed.

(** The table of pending calls is bounded and is empty once closed. *)
Definition client_ok (mp : nat) (c : client) : Prop :=
  (size (c_pending c) <= mp)%nat /\ (c_closed c = true -> c_pending c = ∅ /\ c_cancelled c = ∅).

Lemma size_delete_le (p : gmap string nat) id : (size (delete id p) <= size p)%nat.
Proof. apply map_subseteq_size, delete_subseteq. Qed.

(** Settling changes neither table. *)
Lemma settle_all_ok mp c outcomes : client_ok mp c -> client_ok mp (fst (settle_all c outcomes)).
Proof.
  destruct (settle_all c outcomes) as [c' out] eqn:E. apply settle_all_spec in E as ((Hp & _ & Hcl & Hcn & _) & _).
  unfold client_ok. cbn [fst]. by rewrite Hp, Hcl, Hcn.
Qed.
Lemma remove_pending_ok mp c id s k : c_pending c !! id = Some k -> client_ok mp c ->
  client_ok mp (set_cancelled (set_pending c (delete id (c_pending c))) s).
Proof.
  intros E [Hs Hc]. split; cbn; [pose proof (size_delete_le (c_pending c) id); lia|].
  intros H. destruct (Hc H) as [Hc' _]. by rewrite Hc', lookup_empty in E.
Qed.
Lemma client_write_ok mp acc c t j : client_ok mp c -> client_ok mp (fst (client_write acc c t j)).
Proof.
  destruct (client_write acc c t j) as [c' w] eqn:E. apply client_write_frame in E as (Hp & _ & Hcn & Hcl & _).
  unfold client_ok. cbn [fst]. by rewrite Hp, Hcl, Hcn.
Qed.

Lemma client_close_ok mp e c : client_ok mp c -> client_ok mp (fst (client_close e c)).
Proof.
  intros Hok. unfold client_close. destruct (c_closed c) eqn:Ec; [exact Hok|]. apply settle_all_ok. split; cbn; [|done].
  rewrite map_size_empty. lia.
Qed.

Lemma client_invoke_ok mp now r acc c : client_ok mp c -> client_ok mp (fst (fst (client_invoke mp now r acc c))).
Proof.
  intros Hok. pose proof Hok as [Hs Hc]. unfold client_invoke. destruct (c_closed c) eqn:Ec; [exact Hok|].
  destruct (negb _); [exact Hok|].
  destruct (c_pending c !! requestId r) eqn:E; [exact Hok|].
  destruct (Nat.leb_spec mp (size (c_pending c))); [exact Hok|].
  destruct (match datetime_ms _ with Some _ => _ | None => _ end); [exact Hok|].
  set (c1 := {| c_pending := <[requestId r := c_calls c]> (c_pending c) |}).
  destruct (client_write acc c1 REQUEST (request_json r)) as [c2 w] eqn:Ew.
  apply client_write_frame in Ew as (Hp & _ & _ & Hcl & _).
  assert (Hs1 : (size (c_pending c1) <= mp)%nat) by (cbn; rewrite map_size_insert_None by done; lia).
  destruct w as [[bytes|bytes]|e]; split; cbn [fst set_pending set_blocked c_pending c_closed];
    rewrite ?Hp, ?Hcl; cbn [c1 c_closed]; try congruence.
  pose proof (size_delete_le (c_pending c1) (requestId r)). lia.
Qed.

Lemma client_step_ok mp ev c : client_ok mp c -> client_ok mp (fst (client_step mp ev c)).
Proof.
  intros Hok. pose proof Hok as [Hs Hc]. destruct ev as [now r acc|id|f| |e|e]; cbn [client_step].
  - pose proof (client_invoke_ok mp now r acc c Hok). by destruct (client_invoke mp now r acc c) as [[c' res] out].
  - unfold client_timeout. destruct (c_pending c !! id) as [k|] eqn:E; [|exact Hok].
    pose proof (client_write_ok mp true _ CANCEL (cancel_json id) (remove_pending_ok mp c id ({[id]} ∪ c_cancelled c) k E Hok)) as Hw.
    destruct (client_write true _ _ _) as [c2 w]. cbn [fst] in Hw.
    pose proof (settle_all_ok mp c2 [(k, Throw (JsError "RUNTIME_DEADLINE_EXCEEDED"))] Hw) as H3.
    by destruct (settle_all c2 _) as [c3 out].
  - unfold client_frame. destruct (frameType f); try exact Hok;
      destruct (parse_response (payload f)) as [[[id v] err]|e]; try exact Hok;
      (destruct (c_pending c !! id) as [k|] eqn:E;
       [pose proof (remove_pending_ok mp c id (c_cancelled c) k E Hok) as Hd;
        match goal with |- context [settle_all ?c1 ?l] =>
          pose proof (settle_all_ok mp c1 l Hd) as H3; by destruct (settle_all c1 l) as [c3 out] end
       |destruct (decide (id ∈ c_cancelled c)); split; cbn; try done;
        intros H; destruct (Hc H) as [H1 H2]; rewrite H1, H2; split; [done|set_solver]]).
  - exact Hok.
  - unfold client_error. cbn [client_drain]. pose proof (client_close_ok mp e (set_blocked c ∅ []) Hok) as H3.
    by destruct (client_close e _).
  - by apply client_close_ok.
Qed.

Lemma client_run_ok mp evs c : client_ok mp c -> client_ok mp (fst (client_run mp evs c)).
Proof.
  revert c; induction evs as [|ev evs IH]; intros c Hc; cbn [client_run]; [done|].
  pose proof (client_step_ok mp ev c Hc) as H1. destruct (client_step mp ev c) as [c1 o1].
  specialize (IH c1 H1). by destruct (client_run mp evs c1).
Qed.
End ClientTheory.

(** ** Requests that do not fit in a frame *)

Section Oversized.
Context `{L : Locale} `{F : Formats}.

Lemma length_join_commas_member p parts :
  p ∈ parts -> (length p <= length (join_commas parts))%nat.
Proof.
  induction parts as [|q parts IH]; intros Hp; [by apply not_elem_of_nil in Hp|].
  destruct parts as [|q' parts].
  - apply elem_of_cons in Hp as [->|Hp]; [done|by apply not_elem_of_nil in Hp].
  - change (join_commas (q :: q' :: parts)) with (q ++ ","%char :: join_commas (q' :: parts)).
    rewrite length_app. cbn [length].
    apply elem_of_cons in Hp as [->|Hp]; [lia|]. specialize (IH Hp). lia.
Qed.

Lemma length_canonical_member k v l :
  (k, v) ∈ l -> (length (canonical_chars v) <= length (canonical_chars (JObj l)))%nat.
Proof.
  intros Hin. cbn [canonical_chars]. rewrite length_cons, length_app.
  match goal with |- context [join_commas ?ps] =>
    enough (length (canonical_chars v) <= length (join_commas ps))%nat by lia end.
  etransitivity; [|apply (length_join_commas_member (member_text (k, canonical_chars v)))].
  - unfold member_text. rewrite length_app. cbn. lia.
  - apply list_elem_of_fmap_2'  with (x := (k, canonical_chars v)); [|done].
    rewrite sorted_entries_perm.
    by apply (list_elem_of_fmap_2' (fun kv => (fst kv, canonical_chars (snd kv))) l (k, v)).
Qed.

Lemma length_utf8 s : (length (chars s) <= length (utf8 s))%nat.
Proof.
  unfold utf8, utf8_chars. induction (chars s) as [|c l IH]; [done|].
  change ((c :: l) ≫= utf8_char) with (utf8_char c ++ (l ≫= utf8_char)).
  rewrite length_app. unfold utf8_char at 1. cbn [length]. destruct (_ <? _); cbn [length]; lia.
Qed.

Lemma length_quote_string s : (length (chars s) <= length (quote_string s))%nat.
Proof.
  unfold quote_string, quote_chars. rewrite length_cons, length_app.
  enough (length (chars s) <= length (chars s ≫= escape_char))%nat by lia.
  induction (chars s) as [|c l IH]; [done|].
  change ((c :: l) ≫= escape_char) with (escape_char c ++ (l ≫= escape_char)).
  rewrite length_app. cbn [length].
  enough (1 <= length (escape_char c))%nat by lia. apply Nat.leb_le. all_chars c; reflexivity.
Qed.

(** A request with a string payload beyond the frame limit does not encode. *)
Lemma oversized_request_fails r s n fl :
  request_payload r = Some (JStr s) -> RUNTIME_IPC_MAX_PAYLOAD < lengthZ (chars s) ->
  encodeRuntimeFrame {| frameType := REQUEST; flags := fl; sequence := n;
                        payload := PJson (request_json r) |} =
  Throw (JsError "RUNTIME_PAYLOAD_TOO_LARGE").
Proof.
  intros Hp Hs. unfold encodeRuntimeFrame, runtimePayloadBytes. cbn [frameType payload payload_json mbind result_bind].
  enough (Hb : RUNTIME_IPC_MAX_PAYLOAD < lengthZ (canonical_bytes (request_json r))).
  { apply Z.gtb_lt in Hb || (rewrite Z.gtb_ltb; apply Z.ltb_lt in Hb). unfold throw_if.
    first [rewrite Hb | rewrite Z.gtb_ltb, Hb]. done. }
  unfold canonical_bytes, canonicalJson. unfold lengthZ in *.
  pose proof (length_utf8 (of_chars (canonical_chars (canonicalize (request_json r))))) as H1.
  rewrite chars_of_chars in H1.
  assert (H2 : (length (quote_string s) <= length (canonical_chars (canonicalize (request_json r))))%nat).
  { unfold request_json. cbn [canonicalize].
    apply (length_canonical_member "payload" (JStr s)).
    apply list_elem_of_In, filter_In. split; [|reflexivity].
    apply list_elem_of_In. rewrite sorted_entries_perm. apply list_elem_of_In, in_map_iff.
    exists ("payload", JStr s). split; [done|]. apply in_or_app. right. rewrite Hp. by left. }
  pose proof (length_quote_string s). lia.
Qed.
End Oversized.

Section Registered.
Context `{L : Locale} `{F : Formats}.

Lemma client_invoke_registered mp now r acc c c' call out :
  client_invoke mp now r acc c = (c', inr call, out) ->
  exists c1, c_sequence c1 = c_sequence c /\
    match client_write acc c1 REQUEST (request_json r) with
    | (c2, Ok (Written bytes)) | (c2, Ok (Waiting bytes)) => c_sequence c' = c_sequence c2 /\ out = [Sent bytes]
    | (c2, Throw e) => c_sequence c' = c_sequence c2 /\ out = [Settled call (Throw e)]
    end.
Proof.
  unfold client_invoke. destruct (c_closed c); [discriminate|].
  destruct (negb _); [discriminate|]. destruct (c_pending c !! requestId r); [discriminate|].
  destruct (_ <=? _)%nat; [discriminate|].
  destruct (match datetime_ms _ with Some _ => _ | None => _ end); [discriminate|].
  match goal with |- context [client_write _ ?x _ _] => set (c1 := x) end.
  intros H. exists c1. split; [done|].
  destruct (client_write acc c1 _ _) as [c2 [[bytes|bytes]|e]]; by injection H as <- <- <-.
Qed.

Lemma client_write_spec acc c t j :
  c_sequence c <= 0xffffffff ->
  exists c', client_write acc c t j =
    (c', bytes ← encodeRuntimeFrame {| frameType := t; flags := 0; sequence := c_sequence c; payload := PJson j |};
         Ok (if acc then Written bytes else Waiting bytes)) /\
    c_sequence c' = c_sequence c + 1.
Proof.
  intros H. unfold client_write. rewrite Z.gtb_ltb.
  destruct (Z.ltb_spec 0xffffffff (c_sequence c)); [lia|]. by eexists.
Qed.
End Registered.

(** ** Properties *)

Section Properties.
Context `{L : Locale} `{F : Formats}.

(** C35. Every call is settled at most once and none is lost: for every interleaving of invocations (whether or not the
    socket accepts their frame at once), responses, time-outs, drains, socket errors and closes, no promise is settled
    twice, never more than [maxPending] calls are pending, and every registered call is settled, pending, or held
    back, where only a call whose frame still waits for the socket to drain is held back.  Once the channel is closed
    nothing is pending, so every call is settled when no write waits; a drain or an error of the socket at any
    time settles all that is held back, and an error settles every call. *)
Theorem client_settles_once maxPending evs :
  let '(c, out) := client_run maxPending evs new_client in
  NoDup (settled_calls out) /\ (size (c_pending c) <= maxPending)%nat /\
  settled_calls out ++ held_calls c ++ pending_calls c ≡ₚ seq 0 (c_calls c) /\
  Forall (fun k => k ∈ c_blocked c) (held_calls c) /\
  (c_closed c = true -> settled_calls out ++ held_calls c ≡ₚ seq 0 (c_calls c) /\
     (c_blocked c = ∅ -> settled_calls out ≡ₚ seq 0 (c_calls c))) /\
  settled_calls (snd (client_step maxPending Drain c)) = held_calls c /\
  (forall e, settled_calls (out ++ snd (client_step maxPending (SocketError e) c)) ≡ₚ seq 0 (c_calls c)).
Proof.
  pose proof (client_run_accounted maxPending evs new_client []) as Ha.
  assert (Hok : client_ok maxPending new_client)
    by (split; [cbn [new_client c_pending]; rewrite map_size_empty; lia|done]).
  pose proof (client_run_ok maxPending evs new_client Hok) as [Hs Hc].
  destruct (client_run maxPending evs new_client) as [c out]. cbn [fst app] in *.
  destruct Ha as [Ha Hf]; [by split|]. split_and!; [|exact Hs|exact Ha|exact Hf| | |].
  - assert (Hnd : NoDup (seq 0 (c_calls c))) by apply NoDup_seq.
    rewrite <- Ha in Hnd. by apply NoDup_app in Hnd as [Hnd _].
  - intros H. destruct (Hc H) as [Hp _]. unfold pending_calls in Ha. rewrite Hp, map_to_list_empty, app_nil_r in Ha.
    split; [exact Ha|]. intros Hb. rewrite Hb in Hf. destruct (held_calls c) as [|k l]; [by rewrite app_nil_r in Ha|].
    apply Forall_cons in Hf as [Hk _]. set_solver.
  - apply settled_held.
  - intros e. cbn [client_step]. rewrite settled_calls_app. apply client_error_settles; [by split|]. intros H. by destruct (Hc H).
Qed.

(** A request too large for a frame is rejected to its caller but still
    consumes a sequence number, so the next request that is sent is refused
    by the peer as out of sequence and the channel is destroyed. *)
Theorem oversized_request_breaks_channel maxPending now1 now2 acc1 acc2 r1 r2 s c call bytes c1 c2 out1 :
  request_payload r1 = Some (JStr s) -> RUNTIME_IPC_MAX_PAYLOAD < lengthZ (chars s) ->
  1 <= c_sequence c < 0xffffffff ->
  client_invoke maxPending now1 r1 acc1 c = (c1, inr call, out1) ->
  client_invoke maxPending now2 r2 acc2 c1 = (c2, inr (S call), [Sent bytes]) ->
  out1 = [Settled call (Throw (JsError "RUNTIME_PAYLOAD_TOO_LARGE"))] /\
  on_data (Open [] (c_sequence c)) bytes = (Destroyed (JsError "RUNTIME_PROTOCOL_SEQUENCE_INVALID"), []).
Proof.
  intros Hp Hs Hseq H1 H2.
  apply client_invoke_registered in H1 as (d1 & Hd1 & H1).
  destruct (client_write_spec acc1 d1 REQUEST (request_json r1)) as (e1 & He1 & Hq1); [lia|].
  rewrite He1, (oversized_request_fails r1 s) in H1 by done. destruct H1 as [Hc1 ->]. split; [done|].
  apply client_invoke_registered in H2 as (d2 & Hd2 & H2).
  destruct (client_write_spec acc2 d2 REQUEST (request_json r2)) as (e2 & He2 & Hq2); [lia|].
  rewrite He2 in H2.
  assert (Hb : exists fr, encodeRuntimeFrame fr = Ok bytes /\ sequence fr = c_sequence c + 1).
  { destruct (encodeRuntimeFrame _) eqn:E; cbn in H2; destruct acc2; destruct H2 as [_ [= ->]];
      eexists; (split; [exact E|cbn; lia]). }
  destruct Hb as (fr & Hb & Hfr).
  apply encodeRuntimeFrame_Ok in Hb as (body & _ & Hlen & Hs1 & Hfl & ->).
  set (hd := RUNTIME_IPC_MAGIC ++ _).
  assert (Hd : decodeRuntimeFrameHeader hd = Ok {| h_frameType := frameType fr; h_flags := flags fr;
              h_payloadLength := lengthZ body; h_sequence := sequence fr |})
    by (apply decode_encoded_header; unfold lengthZ in *; lia).
  assert (Hh : length hd = 16%nat) by (unfold hd; by rewrite !length_app, !length_be_bytes).
  clearbody hd. unfold on_data. cbn [app consume_loop]. unfold consume_turn.
  rewrite length_app, Hh. cbn [Nat.ltb Nat.leb plus RUNTIME_IPC_HEADER_BYTES].
  assert (S1 : slice 0 RUNTIME_IPC_HEADER_BYTES (hd ++ body) = hd)
    by (rewrite <- (app_nil_r body); apply (slice_at 16 0 []); done).
  rewrite S1, Hd. cbn [h_sequence].
  destruct (Z.eqb_spec (c_sequence c) 0); [lia|]. rewrite Hfr.
  destruct (Z.eqb_spec (c_sequence c + 1) (c_sequence c)); [lia|]. done.
Qed.

(** Cancellation cannot overtake its request: the server handles frames one
    after the other, so a [CANCEL] that follows its [REQUEST] finds the handler
    run and the response written; the id stays in the cancelled set, and the
    response of a later request with that id is suppressed. *)
Theorem cancel_after_request_ineffective handler s0 fr fc r r' value bytes :
  frameType fr = REQUEST -> payload fr = PJson (request_json r) -> parse_request (request_json r) = Ok r' ->
  frameType fc = CANCEL -> payload fc = PJson (cancel_json (requestId r')) -> uuid_ok (requestId r') = true ->
  handler r' = Ok value -> requestId r' ∉ s_cancelled s0 -> s_destroyed s0 = None ->
  s_written (serve_frame handler s0 fr) = s_written s0 ++ [bytes] ->
  let s2 := fold_left (serve_frame handler) [fr; fc] s0 in
  s_written s2 = s_written s0 ++ [bytes] /\
  s_executed s2 = s_executed s0 ++ [r'] /\
  s_written (serve_frame handler s2 fr) = s_written s2.
Proof.
  intros Hft Hfp Hp Hct Hcp Hu Hh Hc Hd Hw. cbn [fold_left].
  assert (Hs1 : s_cancelled (serve_frame handler s0 fr) = s_cancelled s0 /\
                s_executed (serve_frame handler s0 fr) = s_executed s0 ++ [r']).
  { unfold serve_frame, respond. rewrite Hft, Hfp, Hp, Hh. cbn [s_cancelled].
    rewrite decide_False by done. destruct value as [j|]; [|done].
    cbn zeta. by destruct (encodeRuntimeFrame _). }
  revert Hs1 Hw. generalize (serve_frame handler s0 fr) as s1. intros s1 [Hc1 He1] Hw.
  assert (Hpc : parse_cancel (PJson (cancel_json (requestId r'))) = Ok (requestId r'))
    by (cbn; by rewrite Hu).
  unfold serve_frame at 1. rewrite Hct, Hcp, Hpc. cbn [s_written].
  split; [done|]. split; [unfold serve_frame; by rewrite Hct, Hcp, Hpc|].
  assert (Hin : requestId r' ∈ {[requestId r']} ∪ s_cancelled s1) by set_solver.
  unfold serve_frame. rewrite Hct, Hcp, Hpc, Hft, Hfp, Hp, Hh. cbn [s_cancelled].
  by rewrite decide_True by done.
Qed.
End Properties.

(** ** Witnesses *)

(** Stand-ins for the formats: any 36 characters are a UUID, and a date-time
    is written as its time value. *)
Definition toy_formats : Formats :=
  {| uuid_ok := fun s => (String.length s =? 36)%nat; datetime_ms := parse_dec |}.

Definition uuid_a : string := "aaaaaaaa-aaaa-4aaa-8aaa-aaaaaaaaaaaa".
Definition uuid_b : string := "bbbbbbbb-bbbb-4bbb-8bbb-bbbbbbbbbbbb".
Definition sample_request (id : string) (p : option json) : RuntimeCapabilityRequest :=
  {| requestId := id; operation := op_state; capabilityAlias := Some "alias"; deadlineAt := "1000";
     cancellationVersion := 0; correlationId := uuid_a; request_payload := p |}.

Definition big_text : string := of_chars (repeat "a"%char (S (Z.to_nat RUNTIME_IPC_MAX_PAYLOAD))).
Lemma big_text_length : RUNTIME_IPC_MAX_PAYLOAD < lengthZ (chars big_text).
Proof.
  unfold big_text, lengthZ. rewrite chars_of_chars, repeat_length, Nat2Z.inj_succ, Z2Nat.id; [lia|].
  unfold RUNTIME_IPC_MAX_PAYLOAD. lia.
Qed.

Definition big_request : RuntimeCapabilityRequest := sample_request uuid_a (Some (JStr big_text)).
Definition small_request : RuntimeCapabilityRequest := sample_request uuid_b (Some JNull).
Definition burnt_client : client :=
  {| c_pending := delete uuid_a (<[uuid_a := 0%nat]> ∅); c_cancelled := ∅; c_sequence := 2;
     c_closed := false; c_calls := 1; c_blocked := ∅; c_held := [] |}.

Lemma big_request_invoke :
  @client_invoke code_unit_locale toy_formats RUNTIME_IPC_MAX_PENDING 0 big_request true new_client =
  (burnt_client, inr 0%nat, [Settled 0 (Throw (JsError "RUNTIME_PAYLOAD_TOO_LARGE"))]).
Proof.
  pose proof (@oversized_request_fails code_unit_locale big_request big_text 1 0 eq_refl big_text_length) as H.
  unfold client_invoke, client_write. cbn -[request_json encodeRuntimeFrame big_text] in *.
  by rewrite H.
Qed.

Lemma oversized_request_breaks_channel_witness :
  exists bytes, on_data (Open [] 1) bytes = (Destroyed (JsError "RUNTIME_PROTOCOL_SEQUENCE_INVALID"), []).
Proof.
  eexists.
  refine (proj2 (@oversized_request_breaks_channel code_unit_locale toy_formats RUNTIME_IPC_MAX_PENDING 0 0 true true
    big_request small_request big_text new_client 0%nat _ burnt_client _ _ eq_refl big_text_length _
    big_request_invoke _)).
  - cbn. lia.
  - vm_compute. reflexivity.
Defined.

(** The socket closes before it drains: the call is never settled, and its rejection stays unhandled. *)
Definition ended (evs : list client_event) : list nat * list nat * nat :=
  let '(c, out) := @client_run code_unit_locale toy_formats 2 evs new_client in
  (settled_calls out, held_calls c, length (List.filter (fun e => match e with Unhandled _ => true | _ => false end) out)).
Example closed_before_drain :
  ended [Invoke 0 small_request false; Close (JsError "RUNTIME_CHANNEL_CLOSED")] = ([], [0%nat], 1%nat) /\
  ended [Invoke 0 small_request false; Timeout uuid_b; Drain] = ([0%nat], [], 1%nat) /\
  ended [Invoke 0 small_request false; SocketError (JsError "EPIPE")] = ([0%nat], [], 0%nat) /\
  ended [Invoke 0 small_request true; Close (JsError "RUNTIME_CHANNEL_CLOSED")] = ([0%nat], [], 0%nat).
Proof. vm_compute. split_and!; reflexivity. Qed.

Definition request_frame (r : RuntimeCapabilityRequest) : RuntimeFrame :=
  {| frameType := REQUEST; flags := 0; sequence := 1; payload := PJson (request_json r) |}.
Definition cancel_frame (id : string) : RuntimeFrame :=
  {| frameType := CANCEL; flags := 0; sequence := 2; payload := PJson (cancel_json id) |}.
Definition echo_handler (r : RuntimeCapabilityRequest) : result (option json) := Ok (request_payload r).

Lemma cancel_after_request_ineffective_witness :
  s_executed (fold_left (@serve_frame code_unit_locale toy_formats echo_handler)
    [request_frame small_request; cancel_frame uuid_b] new_server) = [small_request].
Proof.
  refine (proj1 (proj2 (@cancel_after_request_ineffective code_unit_locale toy_formats echo_handler new_server
    (request_frame small_request) (cancel_frame uuid_b) small_request small_request (Some JNull) _
    _ _ _ _ _ _ _ _ _ _))).
  all: try (vm_compute; reflexivity).
  cbn. apply not_elem_of_empty.
Defined.
