(* ===== verification/IpcBroker.v ===== *)
(** * The broker protocol: authenticated requests

    [packages/runtime-capability-ipc/src/index.ts]: [signRequest],
    [verifyRequest], the replay ledger, the length-prefixed frames of the
    broker socket and the admission of peers. *)
From Stdlib Require Import Ascii String.
From S2P Require Import Prelude Bytes Json Digest CanonicalValue IpcFrame IpcChannel.

(** [createHmac('sha256', key).update(message).digest()] *)
Class Hmac := {
  hmac : list Z -> list Z -> list Z;
  hmac_length : forall k m, length (hmac k m) = 32%nat;
  hmac_bytes : forall k m, Forall is_byte (hmac k m);
}.
Definition hmac_collision `{Hmac} (key : list Z) : Prop :=
  exists x y, x <> y /\ hmac key x = hmac key y.

(** ** Requests *)

Inductive capability :=
| STATE_READ | STATE_WRITE | SECRET_USE | EGRESS_REQUEST | ARTIFACT_READ | ARTIFACT_WRITE | CHILD_EXEC.
Definition capability_name (c : capability) : string :=
  match c with
  | STATE_READ => "STATE_READ" | STATE_WRITE => "STATE_WRITE" | SECRET_USE => "SECRET_USE"
  | EGRESS_REQUEST => "EGRESS_REQUEST" | ARTIFACT_READ => "ARTIFACT_READ"
  | ARTIFACT_WRITE => "ARTIFACT_WRITE" | CHILD_EXEC => "CHILD_EXEC"
  end.
Definition capabilities : list capability :=
  [STATE_READ; STATE_WRITE; SECRET_USE; EGRESS_REQUEST; ARTIFACT_READ; ARTIFACT_WRITE; CHILD_EXEC].

(** The request without its [mac]; [cr_payload] is [None] when absent. *)
Record UnsignedRequest := {
  cr_requestId : string;
  cr_executionId : string;
  cr_capability : capability;
  cr_operation : string;
  cr_channelGeneration : string;
  cr_capabilityBinding : string;
  cr_issuedAt : string;
  cr_payload : option json;
  cr_deadlineAt : string;
  cr_nonce : string;
}.
Record CapabilityRequest := { cr_unsigned : UnsignedRequest; cr_mac : string }.

Definition hex_string (n : nat) (s : string) : bool :=
  (String.length s =? n)%nat && str_forallb is_hex s.
(** [/^sha256:[0-9a-f]{64}$/u] *)
Definition digest_ok (s : string) : bool :=
  starts_with "sha256:" s && hex_string 64 (String.substring 7 (String.length s - 7) s).

(** The replay ledger: the deadline of each accepted request, by key. *)
Abbreviation ledger := (gmap string Z).

Section Broker.
Context `{L : Locale} `{F : Formats} `{M : Hmac}.

Definition is_some {A} (o : option A) : bool := match o with Some _ => true | None => false end.

(** [capabilityRequestSchema] *)
Definition valid_capability_request (r : CapabilityRequest) : bool :=
  let u := cr_unsigned r in
  uuid_ok (cr_requestId u) && uuid_ok (cr_executionId u) && truthy (cr_operation u)
  && uuid_ok (cr_channelGeneration u) && digest_ok (cr_capabilityBinding u)
  && is_some (datetime_ms (cr_issuedAt u)) && is_some (datetime_ms (cr_deadlineAt u))
  && hex_string 32 (cr_nonce u) && hex_string 64 (cr_mac r).

Definition unsigned_json (u : UnsignedRequest) : json :=
  JObj ([("protocol", JStr "KCML-CAPABILITY-IPC/1"); ("requestId", JStr (cr_requestId u));
         ("executionId", JStr (cr_executionId u)); ("capability", JStr (capability_name (cr_capability u)));
         ("operation", JStr (cr_operation u)); ("channelGeneration", JStr (cr_channelGeneration u));
         ("capabilityBinding", JStr (cr_capabilityBinding u)); ("issuedAt", JStr (cr_issuedAt u));
         ("deadlineAt", JStr (cr_deadlineAt u)); ("nonce", JStr (cr_nonce u))]
        ++ match cr_payload u with Some p => [("payload", p)] | None => [] end).

(** [authenticatedBytes] *)
Definition authenticatedBytes (u : UnsignedRequest) : list Z := utf8 (canonicalJson (unsigned_json u)).

Definition nul : string := String (char_of 0) EmptyString.
(** [capabilityBinding] *)
Definition capabilityBinding (executionId : string) (c : capability) (operation channelGeneration : string) : string :=
  "sha256:" +:+ hex (hmac (utf8 "KCML-CAPABILITY-BINDING/1")
    (utf8 (executionId +:+ nul +:+ capability_name c +:+ nul +:+ operation +:+ nul +:+ channelGeneration))).
Definition binding_of (u : UnsignedRequest) : string :=
  capabilityBinding (cr_executionId u) (cr_capability u) (cr_operation u) (cr_channelGeneration u).

Definition mac_of (key : list Z) (u : UnsignedRequest) : string := hex (hmac key (authenticatedBytes u)).

(** [signRequest]; [nonce] are the 16 random bytes, [now] the clock. *)
Definition signRequest (requestId executionId : string) (c : capability) (operation : string)
    (payload : option json) (deadlineAt : string)
    (channelKey : list Z) (channelGeneration : string) (now : Z) (nonce : list Z) : result CapabilityRequest :=
  let u := {| cr_requestId := requestId; cr_executionId := executionId; cr_capability := c;
              cr_operation := operation; cr_channelGeneration := channelGeneration;
              cr_capabilityBinding := capabilityBinding executionId c operation channelGeneration;
              cr_issuedAt := iso_string now; cr_payload := payload; cr_deadlineAt := deadlineAt;
              cr_nonce := hex nonce |} in
  let r := {| cr_unsigned := u; cr_mac := mac_of channelKey u |} in
  _ ← throw_if (negb (valid_capability_request r)) ZodError;
  Ok r.

(** ** The replay ledger *)

Definition ledger_key (u : UnsignedRequest) : string :=
  cr_executionId u +:+ ":" +:+ cr_channelGeneration u +:+ ":" +:+ cr_nonce u.

(** [CapabilityReplayLedger.consume]: expired entries are dropped first. *)
Definition ledger_prune (now : Z) (l : ledger) : ledger := filter (fun kv => now < snd kv) l.
Definition ledger_consume (capacity : nat) (u : UnsignedRequest) (expiresAt now : Z) (l : ledger)
    : result unit * ledger :=
  let l := ledger_prune now l in
  match l !! ledger_key u with
  | Some _ => (Throw (JsError "IPC_REPLAY_REJECTED"), l)
  | None =>
      if (capacity <=? size l)%nat then (Throw (JsError "IPC_REPLAY_LEDGER_CAPACITY"), l)
      else (Ok tt, <[ledger_key u := expiresAt]> l)
  end.

(** ** Verification *)

(** The checks of [verifyRequest] before the ledger. *)
Definition check_request (channelKey : list Z) (now : Z) (expectedGeneration : option string)
    (r : CapabilityRequest) : result Z :=
  let u := cr_unsigned r in
  _ ← throw_if (negb (valid_capability_request r)) ZodError;
  let expected := hmac channelKey (authenticatedBytes u) in
  let actual := hex_decode (cr_mac r) in
  _ ← throw_if (negb (length actual =? length expected)%nat || negb (bool_decide (actual = expected)))
        (JsError "IPC_AUTHENTICATION_FAILED");
  _ ← throw_if (match expectedGeneration with
                | Some g => truthy g && negb (String.eqb (cr_channelGeneration u) g)
                | None => false end) (JsError "IPC_CHANNEL_GENERATION_STALE");
  _ ← throw_if (negb (String.eqb (cr_capabilityBinding u) (binding_of u))) (JsError "IPC_CAPABILITY_BINDING_INVALID");
  issuedAt ← or_throw (datetime_ms (cr_issuedAt u)) (JsError "IPC_REQUEST_STALE");
  _ ← throw_if ((issuedAt >? now + 5000) || (issuedAt <? now - 120000)) (JsError "IPC_REQUEST_STALE");
  deadline ← or_throw (datetime_ms (cr_deadlineAt u)) ZodError;
  _ ← throw_if (deadline <=? now) (JsError "IPC_DEADLINE_EXCEEDED");
  Ok deadline.

Definition verifyRequest (capacity : nat) (channelKey : list Z) (now : Z) (expectedGeneration : option string)
    (r : CapabilityRequest) (l : ledger) : result CapabilityRequest * ledger :=
  match check_request channelKey now expectedGeneration r with
  | Throw e => (Throw e, l)
  | Ok deadline =>
      let '(res, l') := ledger_consume capacity (cr_unsigned r) deadline now l in
      (_ ← res; Ok r, l')
  end.

(** ** The socket frames of the broker *)

Definition MAX_FRAME : Z := 8 * 1024 * 1024.

Definition encodeFrame (body : list Z) : result (list Z) :=
  if lengthZ body >? MAX_FRAME then Throw (JsError "IPC_FRAME_TOO_LARGE")
  else Ok (be_bytes 4 (lengthZ body) ++ body).

(** The state of [consumeFrames]; [Uncaught] is an exception that escapes the
    ['data'] listener. *)
Inductive broker_conn :=
| BOpen (pending : list Z)
| BDestroyed (e : exn)
| BUncaught (e : exn).

Fixpoint broker_loop (n : nat) (pending : list Z) : broker_conn * list json :=
  match n with
  | O => (BOpen pending, [])
  | S n =>
      if (length pending <? 4)%nat then (BOpen pending, [])
      else
        let len := read_uint 0 4 pending in
        if len >? MAX_FRAME then (BDestroyed (JsError "IPC_FRAME_TOO_LARGE"), [])
        else if lengthZ pending <? len + 4 then (BOpen pending, [])
        else match parse_bytes (slice 4 (Z.to_nat len) pending) with
             | None => (BUncaught (JsError "SyntaxError"), [])
             | Some j => let '(c, js) := broker_loop n (skipn (4 + Z.to_nat len) pending) in (c, j :: js)
             end
  end.

Definition consumeFrames (c : broker_conn) (chunk : list Z) : broker_conn * list json :=
  match c with
  | BOpen pending => let pending := pending ++ chunk in broker_loop (S (length pending)) pending
  | _ => (c, [])
  end.

(** ** Peers

    [configured] is [KCML_ALLOWED_PEER_UIDS] after [Number]: [None] is [NaN]. *)
Definition verifyPeer (production : bool) (configured : list (option Z)) (uid : Z) : result unit :=
  _ ← throw_if (production && bool_decide (configured = [])) (JsError "IPC_PEER_ALLOWLIST_REQUIRED");
  throw_if (negb (bool_decide (configured = []))
            && negb (existsb (fun c => bool_decide (c = Some uid)) configured))
    (JsError "IPC_PEER_IDENTITY_DENIED").
End Broker.

(** ** Theory *)

Section BrokerTheory.
Context `{L : Locale} `{F : Formats} `{M : Hmac}.

(** A series of verification attempts against one ledger, each with its own
    clock reading, channel key and expected generation. *)
Record attempt := {
  at_now : Z;
  at_key : list Z;
  at_generation : option string;
  at_request : CapabilityRequest;
}.
Definition try_attempt (capacity : nat) (l : ledger) (a : attempt) : ledger :=
  snd (verifyRequest capacity (at_key a) (at_now a) (at_generation a) (at_request a) l).

(** The clock readings never go back. *)
Fixpoint chronological (t : Z) (l : list attempt) (t' : Z) : Prop :=
  match l with
  | [] => t <= t'
  | a :: l => t <= at_now a /\ chronological (at_now a) l t'
  end.

Lemma chronological_le t l t' : chronological t l t' -> t <= t'.
Proof.
  revert t; induction l as [|a l IH]; cbn; intros t; [done|]. intros [H1 H2%IH]. lia.
Qed.

Lemma ledger_prune_lookup now l k d : l !! k = Some d -> now < d -> ledger_prune now l !! k = Some d.
Proof. intros H Hd. unfold ledger_prune. by apply map_lookup_filter_Some. Qed.

Lemma ledger_consume_keeps capacity u e now l k d :
  l !! k = Some d -> now < d -> snd (ledger_consume capacity u e now l) !! k = Some d.
Proof.
  intros H Hd. pose proof (ledger_prune_lookup now l k d H Hd) as Hp. unfold ledger_consume.
  destruct (ledger_prune now l !! ledger_key u) as [x|] eqn:E; [done|].
  destruct (_ <=? _)%nat; [done|]. cbn. rewrite lookup_insert_ne; [done|]. congruence.
Qed.

Lemma try_attempt_keeps capacity l a k d :
  l !! k = Some d -> at_now a < d -> try_attempt capacity l a !! k = Some d.
Proof.
  intros H Hd. unfold try_attempt, verifyRequest.
  destruct (check_request _ _ _ _) as [deadline|e]; [|done].
  pose proof (ledger_consume_keeps capacity (cr_unsigned (at_request a)) deadline (at_now a) l k d H Hd).
  by destruct (ledger_consume _ _ _ _ _).
Qed.

Lemma attempts_keep capacity attempts t t' l k d :
  chronological t attempts t' -> l !! k = Some d -> t' < d ->
  fold_left (try_attempt capacity) attempts l !! k = Some d.
Proof.
  revert t l; induction attempts as [|a attempts IH]; intros t l Hc Hl Hd; cbn [fold_left]; [done|].
  destruct Hc as [Ht Hc]. apply (IH (at_now a)); [done| |done].
  apply try_attempt_keeps; [done|]. apply chronological_le in Hc. lia.
Qed.

Lemma check_request_deadline key now g r deadline :
  check_request key now g r = Ok deadline ->
  datetime_ms (cr_deadlineAt (cr_unsigned r)) = Some deadline /\ now < deadline.
Proof. unfold check_request. intros H. inv_ok. subst. reflect_bools. done. Qed.

Lemma verifyRequest_Ok capacity key now g r l l' :
  verifyRequest capacity key now g r l = (Ok r, l') ->
  exists deadline, check_request key now g r = Ok deadline /\ l' !! ledger_key (cr_unsigned r) = Some deadline.
Proof.
  unfold verifyRequest, ledger_consume.
  destruct (check_request _ _ _ _) as [deadline|e]; [|discriminate].
  destruct (ledger_prune now l !! _); [discriminate|]. destruct (_ <=? _)%nat; [discriminate|].
  cbn. intros [= <-]. exists deadline. by rewrite lookup_insert_eq.
Qed.

Lemma verifyRequest_seen capacity key now g r l d :
  l !! ledger_key (cr_unsigned r) = Some d -> now < d ->
  exists e, fst (verifyRequest capacity key now g r l) = Throw e.
Proof.
  intros Hl Hd. unfold verifyRequest, ledger_consume.
  destruct (check_request _ _ _ _) as [deadline|e]; [|by eexists].
  rewrite (ledger_prune_lookup now l _ d Hl Hd). by eexists.
Qed.

Lemma verifyRequest_expired capacity key now g r l d :
  datetime_ms (cr_deadlineAt (cr_unsigned r)) = Some d -> d <= now ->
  exists e, fst (verifyRequest capacity key now g r l) = Throw e.
Proof.
  intros Hd Hn. unfold verifyRequest. destruct (check_request _ _ _ _) as [deadline|e] eqn:E; [|by eexists].
  apply check_request_deadline in E as [E1 E2]. rewrite E1 in Hd. injection Hd as ->. lia.
Qed.

Lemma unsigned_wf u :
  match cr_payload u with Some p => wf_json p = true | None => True end -> wf_json (unsigned_json u) = true.
Proof.
  intros H. unfold unsigned_json. cbn [wf_json]. apply andb_true_iff. split.
  - apply bool_decide_eq_true. destruct (cr_payload u); cbn [app map fst];
      apply (bool_decide_unpack _); vm_compute; exact I.
  - destruct (cr_payload u); cbn; [by rewrite H|done].
Qed.

Lemma check_request_mac key now g r deadline :
  check_request key now g r = Ok deadline ->
  hex_decode (cr_mac r) = hmac key (authenticatedBytes (cr_unsigned r)).
Proof. unfold check_request. intros H. inv_ok. subst. reflect_bools. done. Qed.

Lemma mac_round_trip key u : hex_decode (mac_of key u) = hmac key (authenticatedBytes u).
Proof. apply hex_decode_hex, hmac_bytes. Qed.

Lemma signRequest_Ok rid eid c op p dl key gen now nonce r :
  signRequest rid eid c op p dl key gen now nonce = Ok r ->
  exists u, r = {| cr_unsigned := u; cr_mac := mac_of key u |} /\ valid_capability_request r = true /\
            cr_capabilityBinding u = binding_of u /\ cr_channelGeneration u = gen /\ cr_issuedAt u = iso_string now /\
            cr_deadlineAt u = dl.
Proof.
  unfold signRequest. intros H. inv_ok. subst r. eexists. split; [done|]. split; [|done].
  by match goal with H : negb _ = false |- _ => apply negb_false_iff in H end.
Qed.

Lemma check_request_signed key now' u t d :
  valid_capability_request {| cr_unsigned := u; cr_mac := mac_of key u |} = true ->
  cr_capabilityBinding u = binding_of u ->
  datetime_ms (cr_issuedAt u) = Some t -> datetime_ms (cr_deadlineAt u) = Some d ->
  t <= now' + 5000 -> now' <= t + 120000 -> now' < d ->
  check_request key now' (Some (cr_channelGeneration u)) {| cr_unsigned := u; cr_mac := mac_of key u |} = Ok d.
Proof.
  intros Hv Hb Ht Hd H1 H2 H3. unfold check_request. rewrite Hv. cbn [cr_unsigned cr_mac].
  rewrite mac_round_trip, Nat.eqb_refl, bool_decide_true, Hb, !String.eqb_refl, Ht, Hd by done.
  cbn [negb orb or_throw throw_if mbind result_bind]. rewrite andb_false_r. cbn [throw_if mbind result_bind].
  replace (_ || _) with false by (symmetry; apply orb_false_iff; rewrite Z.gtb_ltb, !Z.ltb_ge; lia).
  cbn [throw_if mbind result_bind]. by replace (d <=? now') with false by (symmetry; apply Z.leb_gt; lia).
Qed.
End BrokerTheory.

(** ** Properties *)

Section Properties.
Context `{L : Locale} `{F : Formats} `{M : Hmac}.

(** C2. No replay: once a request has been accepted, then for as long as the clock does
    not go back it is never accepted again, whatever other requests (forged,
    expired, of other channels) are presented in between and under whatever key it returns. *)
Theorem verifyRequest_no_replay capacity key now1 g r l l1 attempts now2 key2 g2 :
  verifyRequest capacity key now1 g r l = (Ok r, l1) ->
  chronological now1 attempts now2 ->
  exists e, fst (verifyRequest capacity key2 now2 g2 r (fold_left (try_attempt capacity) attempts l1)) = Throw e.
Proof.
  intros (d & Hd & Hl)%verifyRequest_Ok Hc. apply check_request_deadline in Hd as [Hd _].
  destruct (Z.lt_ge_cases now2 d) as [Hlt|Hge].
  - eapply verifyRequest_seen; [|exact Hlt]. by eapply attempts_keep.
  - by eapply verifyRequest_expired.
Qed.

(** A signed request is accepted: what [signRequest] produces passes
    [verifyRequest] under the same key and generation within two minutes and before its deadline, if
    its nonce is new and the ledger is not full. *)
Theorem signRequest_verifies capacity rid eid c op p dl key gen now nonce now' d l r :
  signRequest rid eid c op p dl key gen now nonce = Ok r ->
  datetime_ms (iso_string now) = Some now -> datetime_ms dl = Some d ->
  now <= now' + 5000 -> now' <= now + 120000 -> now' < d ->
  ledger_prune now' l !! ledger_key (cr_unsigned r) = None ->
  (size (ledger_prune now' l) < capacity)%nat ->
  verifyRequest capacity key now' (Some gen) r l =
    (Ok r, <[ledger_key (cr_unsigned r) := d]> (ledger_prune now' l)).
Proof.
  intros (u & -> & Hv & Hb & Hg & Hi & Hdl)%signRequest_Ok Hiso Hd H1 H2 H3 Hl Hcap. unfold verifyRequest.
  rewrite <- Hg, (check_request_signed key now' u now d) by (try done; congruence).
  unfold ledger_consume. rewrite Hl.
  replace (capacity <=? _)%nat with false by (symmetry; apply Nat.leb_gt; lia). done.
Qed.

(** Integrity: two accepted requests with the same authenticator carry the
    same content up to key order, in every field and at every depth of the
    payload, or exhibit an HMAC collision under the channel key. *)
Theorem verifyRequest_authentic key now1 g1 r1 d1 now2 g2 r2 d2 :
  check_request key now1 g1 r1 = Ok d1 -> check_request key now2 g2 r2 = Ok d2 ->
  cr_mac r1 = cr_mac r2 ->
  wf_json (unsigned_json (cr_unsigned r1)) = true -> wf_json (unsigned_json (cr_unsigned r2)) = true ->
  json_equiv (unsigned_json (cr_unsigned r1)) (unsigned_json (cr_unsigned r2)) \/ hmac_collision key.
Proof.
  intros H1%check_request_mac H2%check_request_mac Hm W1 W2. rewrite <- Hm, H1 in H2.
  destruct (decide (authenticatedBytes (cr_unsigned r1) = authenticatedBytes (cr_unsigned r2))) as [E|N].
  - left. apply utf8_inj in E. by apply canonicalJson_inj.
  - right. eexists _, _. split; [exact N|exact H2].
Qed.

(** A complete broker frame whose body is not JSON is not turned into a
    closed socket: the parse error escapes from the ['data'] listener. *)
Theorem malformed_broker_frame_uncaught body rest bytes :
  encodeFrame body = Ok bytes -> parse_bytes body = None ->
  consumeFrames (BOpen []) (bytes ++ rest) = (BUncaught (JsError "SyntaxError"), []).
Proof.
  unfold encodeFrame. destruct (Z.gtb_spec (lengthZ body) MAX_FRAME) as [|Hlen]; [discriminate|].
  intros E Hp. assert (bytes = be_bytes 4 (lengthZ body) ++ body) as -> by congruence. clear E.
  unfold consumeFrames. set (hd := be_bytes 4 (lengthZ body)).
  rewrite app_nil_l, <- app_assoc. cbn [broker_loop].
  assert (Hh : length hd = 4%nat) by apply length_be_bytes.
  assert (Hlb : 0 <= lengthZ body < 256 ^ Z.of_nat 4) by (unfold lengthZ, MAX_FRAME in *; lia).
  destruct (Nat.ltb_spec (length (hd ++ body ++ rest)) 4) as [H|_]; [rewrite length_app in H; lia|].
  assert (R : read_uint 0 4 (hd ++ body ++ rest) = lengthZ body) by (apply (read_uint_at 4 0 []); done).
  rewrite R. destruct (Z.gtb_spec (lengthZ body) MAX_FRAME); [lia|].
  destruct (Z.ltb_spec (lengthZ (hd ++ body ++ rest)) (lengthZ body + 4)) as [H'|_].
  { unfold lengthZ in H'. rewrite !length_app in H'. lia. }
  unfold lengthZ. rewrite Nat2Z.id. rewrite (slice_at (length body) 4 hd body rest) by done.
  by rewrite Hp.
Qed.
End Properties.

(** ** Witnesses *)

Definition toy_hmac : Hmac :=
  {| hmac := fun k m => hash (Hash := toy_hash) (k ++ m);
     hmac_length := fun k m => hash_length (Hash := toy_hash) (k ++ m);
     hmac_bytes := fun k m => hash_bytes (Hash := toy_hash) (k ++ m) |}.

(** Dates in decimal milliseconds, and the ISO form of the epoch. *)
Definition toy_dates : Formats :=
  {| uuid_ok := fun s => (String.length s =? 36)%nat;
     datetime_ms := fun s => if String.eqb s (iso_string 0) then Some 0 else parse_dec s |}.
Definition toy_key : list Z := [7; 8; 9].
Definition signed_request : option CapabilityRequest :=
  match @signRequest code_unit_locale toy_dates toy_hmac uuid_a uuid_b STATE_READ "read" (Some (JNum 3)) "1000"
          toy_key uuid_a 0 (repeat 171 16) with Ok r => Some r | Throw _ => None end.
Definition the_request : CapabilityRequest :=
  default {| cr_unsigned := {| cr_requestId := ""; cr_executionId := ""; cr_capability := STATE_READ;
               cr_operation := ""; cr_channelGeneration := ""; cr_capabilityBinding := ""; cr_issuedAt := "";
               cr_payload := None; cr_deadlineAt := ""; cr_nonce := "" |}; cr_mac := "" |} signed_request.

Lemma verifyRequest_no_replay_witness :
  exists e, fst (@verifyRequest code_unit_locale toy_dates toy_hmac 8 toy_key 20 None the_request
    (fold_left (@try_attempt code_unit_locale toy_dates toy_hmac 8)
       [{| at_now := 15; at_key := [1]; at_generation := None; at_request := the_request |}]
       (snd (@verifyRequest code_unit_locale toy_dates toy_hmac 8 toy_key 10 (Some uuid_a) the_request ∅)))) = Throw e.
Proof.
  apply (@verifyRequest_no_replay code_unit_locale toy_dates toy_hmac 8 toy_key 10 (Some uuid_a) the_request ∅).
  - rewrite surjective_pairing at 1. apply (f_equal (fun x => (x, _))). vm_compute. reflexivity.
  - cbn. lia.
Defined.

Lemma signRequest_verifies_witness :
  @verifyRequest code_unit_locale toy_dates toy_hmac 8 toy_key 10 (Some uuid_a) the_request ∅ =
    (Ok the_request, <[ledger_key (cr_unsigned the_request) := 1000]> (ledger_prune 10 ∅)).
Proof.
  apply (@signRequest_verifies code_unit_locale toy_dates toy_hmac 8 uuid_a uuid_b STATE_READ "read" (Some (JNum 3))
    "1000" toy_key uuid_a 0 (repeat 171 16) 10 1000); try lia; try (vm_compute; reflexivity).
  vm_compute. lia.
Defined.

Lemma verifyRequest_authentic_witness :
  json_equiv (unsigned_json (cr_unsigned the_request)) (unsigned_json (cr_unsigned the_request))
  \/ @hmac_collision toy_hmac toy_key.
Proof.
  apply (@verifyRequest_authentic code_unit_locale toy_dates toy_hmac toy_key 10 (Some uuid_a) the_request 1000
    20 None the_request 1000); vm_compute; reflexivity.
Defined.

Lemma malformed_broker_frame_uncaught_witness :
  consumeFrames (BOpen []) ([0; 0; 0; 1; 123] ++ [5]) = (BUncaught (JsError "SyntaxError"), []).
Proof. apply (malformed_broker_frame_uncaught [123]); vm_compute; reflexivity. Defined.
