(* ===== verification/ErrorRegistry.v ===== *)
(** * The error and retry registry

    [packages/schemas/src/error-retry-registry.ts] (records, validation,
    lookup, the directive of an observed effect),
    [packages/domain/src/errors.ts] (projection of thrown values onto the
    registry) and [packages/domain/src/retry-planner.ts].  The registry file
    is an input ([parsed_registry]); the lazily filled module variable is
    explicit state. *)
From Stdlib Require Import Ascii String.
From S2P Require Import Prelude Bytes Json Digest.

(** ** Records *)

Inductive RetryDirective :=
| DO_NOT_RETRY | RETRY_SAME_OPERATION | REFRESH_AND_RETRY_NEW_COMMAND | RECONCILE_THEN_RETRY | MANUAL_REVIEW.
#[export] Instance RetryDirective_eq_dec : EqDecision RetryDirective.
Proof. solve_decision. Defined.
Definition directive_name (d : RetryDirective) : string :=
  match d with
  | DO_NOT_RETRY => "DO_NOT_RETRY" | RETRY_SAME_OPERATION => "RETRY_SAME_OPERATION"
  | REFRESH_AND_RETRY_NEW_COMMAND => "REFRESH_AND_RETRY_NEW_COMMAND"
  | RECONCILE_THEN_RETRY => "RECONCILE_THEN_RETRY" | MANUAL_REVIEW => "MANUAL_REVIEW"
  end.
(** [stableRetryDirectives] *)
Definition stableRetryDirectives : list string :=
  map directive_name [DO_NOT_RETRY; RETRY_SAME_OPERATION; REFRESH_AND_RETRY_NEW_COMMAND; RECONCILE_THEN_RETRY; MANUAL_REVIEW].

Inductive effect_outcome := CONFIRMED_NOT_APPLIED | CONFIRMED_APPLIED | POSSIBLE_EFFECT | UNKNOWN.
Definition effect_name (e : effect_outcome) : string :=
  match e with
  | CONFIRMED_NOT_APPLIED => "CONFIRMED_NOT_APPLIED" | CONFIRMED_APPLIED => "CONFIRMED_APPLIED"
  | POSSIBLE_EFFECT => "POSSIBLE_EFFECT" | UNKNOWN => "UNKNOWN"
  end.

(** The file is cast to these types without a check of its shape, so what
    the code compares as text stays text. *)
Record RecoveryDecisionRule := {
  ruleId : string; predicate : string; outcome : string; directive : string;
}.
Record RecoveryDecisionTable := {
  tableId : string;
  ordering : string;
  rules : list RecoveryDecisionRule;
  defaultRule : RecoveryDecisionRule;
  total : bool;
  mutuallyExclusive : bool;
}.

Inductive rule_kind := FIXED | EVIDENCE_DECISION_TABLE.
Inductive record_lifecycle := ACTIVE | SUPERSEDED | RETIRED.
#[export] Instance record_lifecycle_eq_dec : EqDecision record_lifecycle.
Proof. solve_decision. Defined.

(** [er_identity] are the members of the parsed object that are read by
    nothing but the digest, [er_retryable] whether it has a [retryable]. *)
Record StableErrorRecord := {
  er_code : string;
  errorCodeId : string;
  lifecycle : record_lifecycle;
  schemaVersion : string;
  classification : string;
  canonicalMeaning : string;
  sideEffectPoint : string;
  recoveryRuleKind : rule_kind;
  fixedRetryDirective : option string;
  recoveryDecisionTableId : option string;
  recoveryDecisionTable : option RecoveryDecisionTable;
  sameLogicalOperationRequired : bool;
  refreshRequired : bool;
  reconciliationRequired : bool;
  manualReviewRequired : bool;
  authoritySourceRefs : list string;
  requirementIds : list string;
  testCaseIds : list string;
  canonicalOwnerActions : list string;
  httpMappings : list Z;
  mcpMappings : list json;
  er_retryable : option json;
  er_identity : list (string * json);
  recordDigest : string;
}.

Definition jstrs (l : list string) : json := JArr (map JStr l).
Definition jstr_opt (o : option string) : json := match o with Some s => JStr s | None => JNull end.
Definition rule_json (r : RecoveryDecisionRule) : json :=
  JObj [("ruleId", JStr (ruleId r)); ("predicate", JStr (predicate r)); ("outcome", JStr (outcome r));
        ("directive", JStr (directive r))].
Definition table_json (t : RecoveryDecisionTable) : json :=
  JObj [("tableId", JStr (tableId t)); ("ordering", JStr (ordering t)); ("rules", JArr (map rule_json (rules t)));
        ("defaultRule", JObj [("predicate", JStr (predicate (defaultRule t))); ("outcome", JStr (outcome (defaultRule t)));
                              ("directive", JStr (directive (defaultRule t)))]);
        ("total", JBool (total t)); ("mutuallyExclusive", JBool (mutuallyExclusive t))].
Definition kind_name (k : rule_kind) : string :=
  match k with FIXED => "FIXED" | EVIDENCE_DECISION_TABLE => "EVIDENCE_DECISION_TABLE" end.
Definition lifecycle_name (l : record_lifecycle) : string :=
  match l with ACTIVE => "ACTIVE" | SUPERSEDED => "SUPERSEDED" | RETIRED => "RETIRED" end.

(** [{canonicalDigest: _ignored, ...identity}] *)
Definition identity_json (r : StableErrorRecord) : json :=
  JObj ([("code", JStr (er_code r)); ("errorCodeId", JStr (errorCodeId r)); ("recordKind", JStr "ERROR_RETRY_REGISTRY");
         ("lifecycle", JStr (lifecycle_name (lifecycle r))); ("schemaVersion", JStr (schemaVersion r));
         ("classification", JStr (classification r)); ("canonicalMeaning", JStr (canonicalMeaning r));
         ("sideEffectPoint", JStr (sideEffectPoint r)); ("recoveryRuleKind", JStr (kind_name (recoveryRuleKind r)));
         ("fixedRetryDirective", jstr_opt (fixedRetryDirective r));
         ("recoveryDecisionTableId", jstr_opt (recoveryDecisionTableId r));
         ("extensions", JObj [("recoveryDecisionTable", match recoveryDecisionTable r with
                                                        | Some t => table_json t | None => JNull end)]);
         ("sameLogicalOperationRequired", JBool (sameLogicalOperationRequired r));
         ("refreshRequired", JBool (refreshRequired r)); ("reconciliationRequired", JBool (reconciliationRequired r));
         ("manualReviewRequired", JBool (manualReviewRequired r)); ("authoritySourceRefs", jstrs (authoritySourceRefs r));
         ("requirementIds", jstrs (requirementIds r)); ("testCaseIds", jstrs (testCaseIds r));
         ("canonicalOwnerActions", jstrs (canonicalOwnerActions r)); ("httpMappings", JArr (map JNum (httpMappings r)));
         ("mcpMappings", JArr (mcpMappings r))]
        ++ match er_retryable r with Some j => [("retryable", j)] | None => [] end
        ++ er_identity r).

Section Registry.
Context `{H : Hash}.

(** [canonical] sorts by code unit, unlike [canonicalJson]. *)
Definition canonical (j : json) : string := canonicalJson (L := code_unit_locale) j.
Definition digestRecord (r : StableErrorRecord) : string := sha256 (canonical (identity_json r)).

(** ** Validation *)

Definition incomplete (what : string) : exn := ContractError ("ERROR_RECOVERY_CONTRACT_INCOMPLETE:" +:+ what).

Definition is_code_char (c : ascii) : bool := is_upper c || is_digit c.
(** The syntax of a code: an upper-case letter and letters or digits, then
    one or more groups of an underscore and letters or digits. *)
Definition code_syntax (s : string) : bool :=
  match split_on "_"%char s with
  | head :: next :: rest =>
      match chars head with c :: cs => is_upper c && forallb is_code_char cs | [] => false end
      && forallb (fun t => truthy t && str_forallb is_code_char t) (next :: rest)
  | _ => false
  end.

Definition requiredPredicates : list string :=
  ["effectOutcome=CONFIRMED_NOT_APPLIED"; "effectOutcome=CONFIRMED_APPLIED";
   "effectOutcome=POSSIBLE_EFFECT"; "effectOutcome=UNKNOWN"].

Definition falsy_opt (o : option string) : bool := match o with Some s => negb (truthy s) | None => true end.
Definition includes (s : string) (l : list string) : bool := existsb (String.eqb s) l.

Definition table_ok (r : StableErrorRecord) (t : RecoveryDecisionTable) : bool :=
  let predicates := map predicate (rules t) in
  negb (falsy_opt (recoveryDecisionTableId r)) && bool_decide (fixedRetryDirective r = None)
  && bool_decide (Some (tableId t) = recoveryDecisionTableId r) && total t && mutuallyExclusive t
  && String.eqb (predicate (defaultRule t)) "otherwise"
  && (length (rules t) =? length requiredPredicates)%nat && bool_decide (NoDup predicates)
  && forallb (fun p => includes p predicates) requiredPredicates.

Definition check_rules (r : StableErrorRecord) : result unit :=
  match recoveryRuleKind r with
  | FIXED =>
      _ ← throw_if (match fixedRetryDirective r with
                    | Some d => negb (truthy d) || negb (includes d stableRetryDirectives) | None => true end)
            (incomplete ("fixed_directive:" +:+ er_code r));
      throw_if (match recoveryDecisionTableId r, recoveryDecisionTable r with None, None => false | _, _ => true end)
        (incomplete ("fixed_table:" +:+ er_code r))
  | EVIDENCE_DECISION_TABLE =>
      match recoveryDecisionTable r with
      | Some t =>
          _ ← throw_if (negb (table_ok r t)) (incomplete ("decision_table:" +:+ er_code r));
          for_each (fun rule => throw_if (negb (includes (directive rule) stableRetryDirectives))
                                  (incomplete ("decision_directive:" +:+ er_code r)))
            (rules t ++ [defaultRule t])
      | None => Throw (incomplete ("decision_table:" +:+ er_code r))
      end
  end.

Definition mapping_is (r : StableErrorRecord) (name : string) (n : Z) : bool :=
  String.eqb (er_code r) name
  && negb (bool_decide (print_chars (JArr (mcpMappings r)) = print_chars (JArr [JNum n]))).

Abbreviation registry := (gmap string StableErrorRecord).

(** One iteration of the loop of [validateErrorRetryRegistry]. *)
Definition validate_record (active : registry) (r : StableErrorRecord) : result registry :=
  if negb (bool_decide (lifecycle r = ACTIVE)) then Ok active
  else
    _ ← throw_if (match er_retryable r with Some _ => true | None => false end)
          (incomplete ("non_authoritative_retryable:" +:+ er_code r));
    _ ← throw_if (negb (truthy (er_code r)) || match active !! er_code r with Some _ => true | None => false end)
          (incomplete ("duplicate:" +:+ er_code r));
    _ ← throw_if (negb (code_syntax (er_code r)) || negb (String.eqb (errorCodeId r) ("ERR-" +:+ er_code r))
                  || forallb (fun ref => negb (starts_with "ssot://32." ref)) (authoritySourceRefs r))
          (incomplete ("identity:" +:+ er_code r));
    _ ← throw_if ((length (requirementIds r) =? 0)%nat || (length (testCaseIds r) =? 0)%nat
                  || (length (canonicalOwnerActions r) =? 0)%nat) (incomplete ("evidence:" +:+ er_code r));
    _ ← throw_if (negb (String.eqb (recordDigest r) (digestRecord r))) (incomplete ("digest:" +:+ er_code r));
    _ ← check_rules r;
    _ ← throw_if (mapping_is r "MCP_HEADER_MISMATCH" (-32020)) (incomplete "mcp_header_mapping");
    _ ← throw_if (mapping_is r "MCP_CLIENT_CAPABILITY_MISSING" (-32021)) (incomplete "mcp_capability_mapping");
    _ ← throw_if (mapping_is r "MCP_PROTOCOL_VERSION_UNSUPPORTED" (-32022)) (incomplete "mcp_version_mapping");
    Ok (<[er_code r := r]> active).

Definition validateErrorRetryRegistry (records : list StableErrorRecord) : result unit :=
  active ← fold_result validate_record ∅ records;
  throw_if (bool_decide (size active = 0%nat)) (incomplete "no_active_records").

(** ** Loading *)

Inductive parsed_registry :=
| Unreadable (message : string)
| BadShape
| Parsed (records : list StableErrorRecord).

(** [new Map(entries)]: a later entry replaces an earlier one. *)
Definition active_map (records : list StableErrorRecord) : registry :=
  fold_left (fun m r => <[er_code r := r]> m) (List.filter (fun r => bool_decide (lifecycle r = ACTIVE)) records) ∅.

Definition loadRegistry (p : parsed_registry) : result registry :=
  match p with
  | Unreadable m => Throw (incomplete ("registry_unreadable:" +:+ m))
  | BadShape => Throw (incomplete "registry_shape")
  | Parsed records => _ ← validateErrorRetryRegistry records; Ok (active_map records)
  end.

(** [registry ??= loadRegistry()]: a failed load leaves the variable unset. *)
Definition getErrorRetryRegistry (p : parsed_registry) (cache : option registry) : result registry * option registry :=
  match cache with
  | Some reg => (Ok reg, cache)
  | None => match loadRegistry p with Ok reg => (Ok reg, Some reg) | Throw e => (Throw e, None) end
  end.

(** ** Lookup *)

Definition getStableErrorRecord (reg : registry) (c : string) : result StableErrorRecord :=
  or_throw (reg !! c) (incomplete ("unknown_code:" +:+ c)).

(** [undefined] for a fixed rule without directive is [None]. *)
Definition resolveRetryDirective (r : StableErrorRecord) (observed : effect_outcome) : option string :=
  match recoveryRuleKind r with
  | FIXED => fixedRetryDirective r
  | EVIDENCE_DECISION_TABLE =>
      match recoveryDecisionTable r with
      | Some t =>
          match List.find (fun rule => String.eqb (predicate rule) ("effectOutcome=" +:+ effect_name observed)) (rules t) with
          | Some rule => Some (directive rule)
          | None => Some (directive (defaultRule t))
          end
      | None => Some "MANUAL_REVIEW"
      end
  end.

Record CanonicalErrorView := {
  ev_code : string;
  ev_retryDirective : option string;
  ev_record : StableErrorRecord;
}.

(** The remaining fields of the view are those of its record. *)
Definition canonicalErrorView (reg : registry) (c : string) (observed : effect_outcome) : result CanonicalErrorView :=
  r ← getStableErrorRecord reg c;
  Ok {| ev_code := er_code r; ev_retryDirective := resolveRetryDirective r observed; ev_record := r |}.

Definition assertCanonicalRetryDirective (reg : registry) (c d : string) (observed : effect_outcome) : result unit :=
  v ← canonicalErrorView reg c observed;
  throw_if (negb (bool_decide (Some d = ev_retryDirective v)))
    (incomplete ("directive_mismatch:" +:+ c +:+ ":" +:+ d +:+ ":" +:+ default "undefined" (ev_retryDirective v))).

(** ** Thrown values *)

(** What [catch] receives: a [DomainError], another object (with its [code]
    property as text, if it has one), or a primitive. *)
Inductive thrown :=
| ThrownDomain (code message : string) (details : json)
| ThrownObject (code : option string)
| ThrownPrimitive.

(** [new DomainError(...)] looks its code up and may fail to; the status and
    directive arguments are not used. *)
Record DomainError := {
  de_code : string;
  de_message : string;
  de_details : json;
  de_retryDirective : option string;
  de_httpStatus : Z;
}.
Definition http_status (r : StableErrorRecord) : Z := default 500 (head (httpMappings r)).
Definition new_DomainError (reg : registry) (code message : string) (legacyHttpStatus : Z)
    (legacyRetryDirective : RetryDirective) (details : json) : result DomainError :=
  v ← canonicalErrorView reg code UNKNOWN;
  Ok {| de_code := code; de_message := message; de_details := details;
        de_retryDirective := ev_retryDirective v; de_httpStatus := http_status (ev_record v) |}.

Definition postgres_code (e : thrown) : option string :=
  match e with ThrownDomain c _ _ => Some c | ThrownObject c => c | ThrownPrimitive => None end.
Definition projected_postgres_code (c : option string) : option string :=
  match c with
  | Some c =>
      if String.eqb c "23505" then Some "IDEMPOTENCY_CONFLICT"
      else if String.eqb c "23514" then Some "STATE_MACHINE_CONTRACT_INCOMPLETE"
      else if String.eqb c "40001" then Some "STATE_VERSION_CONFLICT"
      else if String.eqb c "40P01" then Some "PLATFORM_RECOVERY_IN_PROGRESS"
      else if String.eqb c "55000" then Some "TERMINAL_STATE_IMMUTABLE"
      else None
  | None => None
  end.
Definition INCOMPLETE_CODE : string := "ERROR_RECOVERY_CONTRACT_INCOMPLETE".
Definition thrown_code (e : thrown) : string :=
  match e with
  | ThrownDomain c _ _ => c
  | _ => default INCOMPLETE_CODE (projected_postgres_code (postgres_code e))
  end.
Definition canonicalizeDomainError (reg : registry) (e : thrown) : result CanonicalErrorView :=
  match canonicalErrorView reg (thrown_code e) UNKNOWN with
  | Ok v => Ok v
  | Throw _ => canonicalErrorView reg INCOMPLETE_CODE UNKNOWN
  end.

Definition canonicalRetryDirective (reg : registry) (e : thrown) : result (option string) :=
  v ← canonicalizeDomainError reg e; Ok (ev_retryDirective v).
Definition isPostgresConflict (e : thrown) : bool :=
  match postgres_code e with Some c => includes c ["23505"; "40001"; "40P01"] | None => false end.

Record Cause := { cause_kind : string; originalCode : option string; cause_digest : string }.

Definition cause_char (c : ascii) : bool :=
  is_upper c || is_lower c || is_digit c || existsb (Ascii.eqb c) ["_"; "."; ":"; "-"]%char.
(** One to eighty characters that may be shown. *)
Definition printable_code (s : string) : bool :=
  (1 <=? String.length s)%nat && (String.length s <=? 80)%nat && str_forallb cause_char s.

Section Failure.
Context `{L : Locale}.
Definition redactedCause (e : thrown) (effectiveCode : string) : option Cause :=
  let mk kind :=
    let oc := match postgres_code e with Some c => if printable_code c then Some c else None | None => None end in
    Some {| cause_kind := kind; originalCode := oc;
            cause_digest := canonicalDigest (JObj [("kind", JStr kind); ("originalCode", jstr_opt oc);
                                                   ("effectiveCode", JStr effectiveCode)]) |} in
  match e with
  | ThrownDomain c _ _ => if String.eqb c effectiveCode then None else mk "UNREGISTERED_DOMAIN_ERROR"
  | _ => mk "NON_DOMAIN_ERROR"
  end.

Record CanonicalFailure := {
  cf_code : string;
  cf_effectiveCode : string;
  cf_message : string;
  cf_classification : string;
  cf_sideEffectPoint : string;
  cf_retryDirective : option string;
  cf_recordDigest : string;
  cf_registryVersion : string;
  cf_httpStatus : Z;
  cf_details : json;
  cf_cause : option Cause;
}.
Definition canonicalFailure (reg : registry) (e : thrown) : result CanonicalFailure :=
  v ← canonicalizeDomainError reg e;
  let r := ev_record v in
  Ok {| cf_code := ev_code v; cf_effectiveCode := ev_code v; cf_message := canonicalMeaning r;
        cf_classification := classification r; cf_sideEffectPoint := sideEffectPoint r;
        cf_retryDirective := ev_retryDirective v; cf_recordDigest := recordDigest r;
        cf_registryVersion := schemaVersion r; cf_httpStatus := http_status r;
        cf_details := match e with
                      | ThrownDomain c _ d => if String.eqb c (ev_code v) then d else JNull
                      | _ => JNull end;
        cf_cause := redactedCause e (ev_code v) |}.
End Failure.

(** ** The retry plan *)

Inductive RetryPlanAction :=
| CLOSE_FAILED_COMMAND | RETRY_SAME_COMMAND | REFRESH_AND_CREATE_SUCCESSOR
| ENQUEUE_RECONCILIATION | CREATE_MANUAL_REVIEW.
#[export] Instance RetryPlanAction_eq_dec : EqDecision RetryPlanAction.
Proof. solve_decision. Defined.

Record RetryPlanDecision := {
  pd_directive : option string;
  action : RetryPlanAction;
  automaticDispatchAllowed : bool;
  preservesLogicalOperation : bool;
  requiresAuthoritativeRefresh : bool;
  requiresCompletedReconciliation : bool;
  requiresOwnerDecision : bool;
  directiveSourceRegistryVersion : string;
  errorRecordDigest : string;
  pd_attempt : Z;
  pd_maximumAttempts : Z;
  backoffSeconds : option Z;
}.

Definition boundedBackoffSeconds (attempt : Z) : Z := Z.min 300 (2 ^ Z.min 30 (Z.max 0 attempt)).

Definition plan_action (d : option string) (exhausted : bool) : RetryPlanAction :=
  if bool_decide (d = Some "RETRY_SAME_OPERATION") then if exhausted then CLOSE_FAILED_COMMAND else RETRY_SAME_COMMAND
  else if bool_decide (d = Some "REFRESH_AND_RETRY_NEW_COMMAND") then REFRESH_AND_CREATE_SUCCESSOR
  else if bool_decide (d = Some "RECONCILE_THEN_RETRY") then ENQUEUE_RECONCILIATION
  else if bool_decide (d = Some "MANUAL_REVIEW") then CREATE_MANUAL_REVIEW
  else CLOSE_FAILED_COMMAND.

(** [attempt] and [maximumAttempts] are integers here. *)
Definition planCanonicalRetry (f : CanonicalFailure) (attempt maximumAttempts : Z) : result RetryPlanDecision :=
  _ ← throw_if (attempt <? 1) (RangeError "attempt must be a positive integer");
  _ ← throw_if (maximumAttempts <? 1) (RangeError "maximumAttempts must be a positive integer");
  let a := plan_action (cf_retryDirective f) (attempt >=? maximumAttempts) in
  let chosen x := bool_decide (a = x) in
  Ok {| pd_directive := cf_retryDirective f; action := a;
        automaticDispatchAllowed := chosen RETRY_SAME_COMMAND;
        preservesLogicalOperation := chosen RETRY_SAME_COMMAND;
        requiresAuthoritativeRefresh := chosen REFRESH_AND_CREATE_SUCCESSOR;
        requiresCompletedReconciliation := chosen ENQUEUE_RECONCILIATION;
        requiresOwnerDecision := chosen CREATE_MANUAL_REVIEW;
        directiveSourceRegistryVersion := cf_registryVersion f; errorRecordDigest := cf_recordDigest f;
        pd_attempt := attempt; pd_maximumAttempts := maximumAttempts;
        backoffSeconds := if chosen RETRY_SAME_COMMAND then Some (boundedBackoffSeconds attempt) else None |}.
End Registry.

(** ** Theory *)

Section RegistryTheory.
Context `{H : Hash}.

Lemma includes_In s l : includes s l = true <-> In s l.
Proof.
  unfold includes. rewrite existsb_exists. split.
  - intros (x & Hx & ->%String.eqb_eq). done.
  - intros Hs. exists s. split; [done|apply String.eqb_refl].
Qed.

(** The decision of a valid record, as a relation. *)
Definition decides (r : StableErrorRecord) (e : effect_outcome) (d : string) : Prop :=
  match recoveryRuleKind r with
  | FIXED => fixedRetryDirective r = Some d /\ recoveryDecisionTable r = None
  | EVIDENCE_DECISION_TABLE =>
      exists t rule, recoveryDecisionTable r = Some t /\ In rule (rules t) /\
        predicate rule = "effectOutcome=" +:+ effect_name e /\ directive rule = d /\
        forall rule', In rule' (rules t) -> predicate rule' = predicate rule -> rule' = rule
  end.

Lemma effect_predicate_required e : In ("effectOutcome=" +:+ effect_name e) requiredPredicates.
Proof. destruct e; cbn; auto. Qed.

Lemma find_rule t e :
  NoDup (map predicate (rules t)) -> In ("effectOutcome=" +:+ effect_name e) (map predicate (rules t)) ->
  exists rule, List.find (fun rule => String.eqb (predicate rule) ("effectOutcome=" +:+ effect_name e)) (rules t) = Some rule
    /\ In rule (rules t) /\ predicate rule = "effectOutcome=" +:+ effect_name e
    /\ forall rule', In rule' (rules t) -> predicate rule' = predicate rule -> rule' = rule.
Proof.
  intros Hn (rule & Hp & Hr)%in_map_iff.
  destruct (List.find _ (rules t)) as [rule'|] eqn:E.
  - apply find_some in E as [Hr' Hp'%String.eqb_eq]. exists rule'. repeat split; try done.
    intros rule'' Hr'' Hp''. by apply (NoDup_map_unique predicate (rules t)).
  - pose proof (find_none _ _ E rule Hr) as N. cbn in N. by rewrite Hp, String.eqb_refl in N.
Qed.

Lemma check_rules_decides r e :
  check_rules r = Ok tt ->
  exists d, resolveRetryDirective r e = Some d /\ In d stableRetryDirectives /\ decides r e d.
Proof.
  unfold check_rules, resolveRetryDirective, decides. destruct (recoveryRuleKind r); intros Hc.
  - inv_ok. destruct (fixedRetryDirective r) as [d|]; [|discriminate].
    destruct (recoveryDecisionTable r); [by destruct (recoveryDecisionTableId r)|].
    reflect_bools. exists d. by rewrite includes_In in *.
  - destruct (recoveryDecisionTable r) as [t|]; [|discriminate]. inv_ok.
    apply negb_false_iff in Hok. unfold table_ok in Hok. reflect_bools.
    assert (Hin : In ("effectOutcome=" +:+ effect_name e) (map predicate (rules t))).
    { apply includes_In. match goal with X : forallb _ requiredPredicates = true |- _ =>
        exact (proj1 (forallb_forall _ _) X _ (effect_predicate_required e)) end. }
    destruct (find_rule t e) as (rule & Hf & Hr & Hp & Hu); [done|done|].
    rewrite Hf. exists (directive rule). split; [done|]. split; [|by exists t, rule].
    apply for_each_Ok in Hc. rewrite Forall_forall in Hc.
    specialize (Hc rule). cbn in Hc. rewrite throw_if_Ok in Hc. apply includes_In.
    apply negb_false_iff, Hc, list_elem_of_In, in_or_app. by left.
Qed.

(** What the validation checked about an active record. *)
Definition checked (r : StableErrorRecord) : Prop :=
  recordDigest r = digestRecord r /\ er_retryable r = None /\ check_rules r = Ok tt.

Lemma validate_record_Ok active r active' :
  validate_record active r = Ok active' ->
  (lifecycle r <> ACTIVE /\ active' = active) \/
  (lifecycle r = ACTIVE /\ active !! er_code r = None /\ active' = <[er_code r := r]> active /\ checked r).
Proof.
  unfold validate_record. destruct (decide (lifecycle r = ACTIVE)) as [Hl|Hl].
  - rewrite bool_decide_true by done. cbn [negb]. intros Hv. inv_ok. reflect_bools. right.
    destruct (active !! er_code r); [discriminate|]. destruct (er_retryable r) eqn:?; [discriminate|].
    unfold checked. auto 6.
  - rewrite bool_decide_false by done. cbn. intros [= <-]. by left.
Qed.

Lemma validate_records_Ok records active active' :
  fold_result validate_record active records = Ok active' ->
  active' = fold_left (fun m r => <[er_code r := r]> m)
              (List.filter (fun r => bool_decide (lifecycle r = ACTIVE)) records) active
  /\ (forall c r, active !! c = Some r -> active' !! c = Some r)
  /\ forall r, In r records -> lifecycle r = ACTIVE -> active' !! er_code r = Some r /\ checked r.
Proof.
  revert active; induction records as [|x records IH]; cbn; intros active Hv.
  - by injection Hv as ->.
  - apply bind_Ok_inv in Hv as (a & [[Hl ->]|(Hl & Hn & -> & Hc)]%validate_record_Ok & (Ha & Hk & Hr)%IH).
    + rewrite bool_decide_false by done. cbn. split_and!; [done|done|]. intros r [->|Hi] Hact; [done|by apply Hr].
    + rewrite bool_decide_true by done. cbn. split_and!; [done| |].
      * intros c r Hcr. apply Hk. rewrite lookup_insert_ne; [done|]. congruence.
      * intros r [->|Hi] Hact; [|by apply Hr]. split; [|done]. apply Hk. by rewrite lookup_insert_eq.
Qed.

Lemma loadRegistry_Ok records reg :
  loadRegistry (Parsed records) = Ok reg ->
  forall r, In r records -> lifecycle r = ACTIVE -> reg !! er_code r = Some r /\ checked r.
Proof.
  unfold loadRegistry, validateErrorRetryRegistry. intros Hl. inv_ok. subst.
  match goal with X : fold_result _ _ _ = Ok _ |- _ => apply validate_records_Ok in X as (E & _ & Hr) end.
  intros r Hi Hact. unfold active_map. rewrite <- E. by apply Hr.
Qed.

Lemma canonicalErrorView_Ok reg c e v :
  canonicalErrorView reg c e = Ok v ->
  exists r, reg !! c = Some r /\ v = {| ev_code := er_code r; ev_retryDirective := resolveRetryDirective r e; ev_record := r |}.
Proof. unfold canonicalErrorView, getStableErrorRecord. intros Hv. inv_ok. subst. eauto. Qed.

Lemma plan_action_auto d x : plan_action d x = RETRY_SAME_COMMAND <-> d = Some "RETRY_SAME_OPERATION" /\ x = false.
Proof. unfold plan_action. repeat case_bool_decide; destruct x; split; try intros [??]; naive_solver. Qed.

Lemma boundedBackoff_bounds n : 1 <= n -> 2 <= boundedBackoffSeconds n <= 300.
Proof.
  intros Hn. unfold boundedBackoffSeconds. replace (Z.max 0 n) with n by lia.
  assert (2 ^ 1 <= 2 ^ Z.min 30 n) by (apply Z.pow_le_mono_r; lia). lia.
Qed.

Lemma boundedBackoff_mono m n : m <= n -> boundedBackoffSeconds m <= boundedBackoffSeconds n.
Proof.
  intros Hn. unfold boundedBackoffSeconds.
  assert (2 ^ Z.min 30 (Z.max 0 m) <= 2 ^ Z.min 30 (Z.max 0 n)) by (apply Z.pow_le_mono_r; lia). lia.
Qed.
End RegistryTheory.

(** ** Properties *)

Section Properties.
Context `{H : Hash} `{L : Locale}.

(** A registry that loads is total and unambiguous: every active record is
    found under its own code and carries the digest of its own content, and for every observed
    effect its view has exactly one of the five stable directives, the one its fixed rule or the single
    matching row of its decision table gives (never the default row or the fallback). *)
Theorem loaded_registry_total records reg r e :
  loadRegistry (Parsed records) = Ok reg -> In r records -> lifecycle r = ACTIVE ->
  recordDigest r = digestRecord r /\
  exists d, canonicalErrorView reg (er_code r) e =
              Ok {| ev_code := er_code r; ev_retryDirective := Some d; ev_record := r |}
            /\ In d stableRetryDirectives /\ decides r e d.
Proof.
  intros Hl Hi Hact. destruct (loadRegistry_Ok records reg Hl r Hi Hact) as [Hr (Hd & _ & Hc)]. split; [done|].
  destruct (check_rules_decides r e Hc) as (d & Hres & Hin & Hdec). exists d.
  unfold canonicalErrorView, getStableErrorRecord. rewrite Hr. cbn. by rewrite Hres.
Qed.

(** Retry authority: whatever was thrown, an automatic redispatch is planned exactly
    when the registry's record of the effective code resolves to RETRY_SAME_OPERATION and attempts are
    left; it then keeps the logical operation and backs off between 2 and 300 seconds, and every other
    plan has no backoff.  The status and directive a DomainError was built with have no influence. *)
Theorem retry_plan_authoritative reg e f n maxN p :
  canonicalFailure reg e = Ok f -> planCanonicalRetry f n maxN = Ok p ->
  exists r, reg !! (match reg !! thrown_code e with Some _ => thrown_code e | None => INCOMPLETE_CODE end) = Some r /\
    pd_directive p = resolveRetryDirective r UNKNOWN /\ errorRecordDigest p = recordDigest r /\
    (automaticDispatchAllowed p = true <->
       resolveRetryDirective r UNKNOWN = Some "RETRY_SAME_OPERATION" /\ n < maxN) /\
    preservesLogicalOperation p = automaticDispatchAllowed p /\
    match backoffSeconds p with
    | Some b => automaticDispatchAllowed p = true /\ b = Z.min 300 (2 ^ Z.min 30 n) /\ 2 <= b <= 300
    | None => automaticDispatchAllowed p = false
    end.
Proof.
  unfold canonicalFailure, canonicalizeDomainError. intros Hf Hp.
  apply bind_Ok_inv in Hf as (v & Hv & Hf). injection Hf as <-.
  assert (exists r, reg !! (match reg !! thrown_code e with Some _ => thrown_code e | None => INCOMPLETE_CODE end) = Some r
            /\ v = {| ev_code := er_code r; ev_retryDirective := resolveRetryDirective r UNKNOWN; ev_record := r |})
    as (r & Hr & ->).
  { destruct (canonicalErrorView reg (thrown_code e) UNKNOWN) as [w|x] eqn:E.
    - injection Hv as <-. apply canonicalErrorView_Ok in E as (r & Hr & ->). exists r. by rewrite Hr.
    - apply canonicalErrorView_Ok in Hv as (r & Hr & ->). exists r.
      unfold canonicalErrorView, getStableErrorRecord in E. by destruct (reg !! thrown_code e). }
  exists r. split; [done|]. unfold planCanonicalRetry in Hp. inv_ok. reflect_bools. subst p. cbn.
  split_and!; [done|done| |done|].
  - rewrite bool_decide_eq_true, plan_action_auto. unfold Z.geb.
    destruct (Z.compare_spec n maxN); split; intros [??]; try done; split; (done || lia).
  - case_bool_decide as Ha; [|done]. split_and!; [done| |apply boundedBackoff_bounds; lia|apply boundedBackoff_bounds; lia].
    unfold boundedBackoffSeconds. by replace (Z.max 0 n) with n by lia.
Qed.
End Properties.

(** ** Witnesses *)

Definition sample_rule (e : effect_outcome) (d : RetryDirective) : RecoveryDecisionRule :=
  {| ruleId := "R"; predicate := "effectOutcome=" +:+ effect_name e; outcome := "O"; directive := directive_name d |}.
Definition sample_table : RecoveryDecisionTable :=
  {| tableId := "T-1"; ordering := "FIRST_MATCH";
     rules := [sample_rule CONFIRMED_NOT_APPLIED RETRY_SAME_OPERATION; sample_rule CONFIRMED_APPLIED DO_NOT_RETRY;
               sample_rule POSSIBLE_EFFECT RECONCILE_THEN_RETRY; sample_rule UNKNOWN MANUAL_REVIEW];
     defaultRule := {| ruleId := ""; predicate := "otherwise"; outcome := "O"; directive := "MANUAL_REVIEW" |};
     total := true; mutuallyExclusive := true |}.
Definition sample_record (c : string) (fixed : option RetryDirective) (digest : string) : StableErrorRecord :=
  {| er_code := c; errorCodeId := "ERR-" +:+ c; lifecycle := ACTIVE; schemaVersion := "1.0";
     classification := "TIMEOUT"; canonicalMeaning := "meaning"; sideEffectPoint := "PRE_DISPATCH";
     recoveryRuleKind := match fixed with Some _ => FIXED | None => EVIDENCE_DECISION_TABLE end;
     fixedRetryDirective := directive_name <$> fixed;
     recoveryDecisionTableId := match fixed with Some _ => None | None => Some "T-1" end;
     recoveryDecisionTable := match fixed with Some _ => None | None => Some sample_table end;
     sameLogicalOperationRequired := true; refreshRequired := false; reconciliationRequired := false;
     manualReviewRequired := false; authoritySourceRefs := ["ssot://32.1"]; requirementIds := ["REQ-1"];
     testCaseIds := ["TC-1"]; canonicalOwnerActions := ["RETRY"]; httpMappings := [503]; mcpMappings := [];
     er_retryable := None; er_identity := [("namespace", JStr "N")]; recordDigest := digest |}.
Definition sealed (c : string) (fixed : option RetryDirective) : StableErrorRecord :=
  sample_record c fixed (digestRecord (H := toy_hash) (sample_record c fixed "")).
Definition sample_records : list StableErrorRecord :=
  [sealed INCOMPLETE_CODE (Some MANUAL_REVIEW); sealed "PROVIDER_TIMEOUT" (Some RETRY_SAME_OPERATION);
   sealed "EFFECT_UNKNOWN" None].
Definition sample_registry : gmap string StableErrorRecord := active_map sample_records.

Lemma sample_registry_loads : loadRegistry (H := toy_hash) (Parsed sample_records) = Ok sample_registry.
Proof.
  assert (E : validateErrorRetryRegistry (H := toy_hash) sample_records = Ok tt) by (vm_compute; reflexivity).
  unfold loadRegistry. by rewrite E.
Qed.

Lemma loaded_registry_total_witness :
  exists d, canonicalErrorView sample_registry "EFFECT_UNKNOWN" POSSIBLE_EFFECT =
    Ok {| ev_code := "EFFECT_UNKNOWN"; ev_retryDirective := Some d; ev_record := sealed "EFFECT_UNKNOWN" None |}
  /\ In d stableRetryDirectives /\ decides (sealed "EFFECT_UNKNOWN" None) POSSIBLE_EFFECT d.
Proof.
  apply (@loaded_registry_total toy_hash sample_records sample_registry (sealed "EFFECT_UNKNOWN" None) POSSIBLE_EFFECT).
  - exact sample_registry_loads.
  - right. right. left. reflexivity.
  - reflexivity.
Defined.

Definition sample_failure : result CanonicalFailure :=
  canonicalFailure (H := toy_hash) (L := code_unit_locale) sample_registry (ThrownDomain "PROVIDER_TIMEOUT" "m" JNull).
Definition the_failure : CanonicalFailure :=
  match sample_failure with Ok f => f | Throw _ => {| cf_code := ""; cf_effectiveCode := ""; cf_message := ""; cf_classification := ""; cf_sideEffectPoint := "";
    cf_retryDirective := None; cf_recordDigest := ""; cf_registryVersion := ""; cf_httpStatus := 0;
    cf_details := JNull; cf_cause := None |} end.
Definition the_plan : RetryPlanDecision :=
  match planCanonicalRetry the_failure 2 4 with Ok p => p | Throw _ =>
    {| pd_directive := None; action := CLOSE_FAILED_COMMAND; automaticDispatchAllowed := false;
       preservesLogicalOperation := false; requiresAuthoritativeRefresh := false;
       requiresCompletedReconciliation := false; requiresOwnerDecision := false;
       directiveSourceRegistryVersion := ""; errorRecordDigest := ""; pd_attempt := 0; pd_maximumAttempts := 0;
       backoffSeconds := None |} end.

Lemma retry_plan_authoritative_witness : automaticDispatchAllowed the_plan = true /\ backoffSeconds the_plan = Some 4.
Proof.
  destruct (@retry_plan_authoritative toy_hash code_unit_locale sample_registry
    (ThrownDomain "PROVIDER_TIMEOUT" "m" JNull) the_failure 2 4 the_plan) as (r & _ & _ & _ & _ & _ & _).
  - vm_compute. reflexivity.
  - vm_compute. reflexivity.
  - split; vm_compute; reflexivity.
Defined.
