(* ===== verification/AuditChain.v ===== *)
(** * The audit chain

    [packages/domain/src/audit-integrity.ts] ([verifyAuditChainClient],
    [verifyAuditChainSnapshot]) over the tables [kcml.audit_event] and
    [kcml.audit_head], and the routine that appends to them
    ([kcml.append_audit_event] of the database baseline).

    An [audit_row] is a whole row of the table; an [audit_event] is what the
    verification selects from it.  The components that append to the log
    carry the log as the verification sees it ([audit_db]);
    [append_selected] shows that appending rows does the same. *)
From Stdlib Require Import Ascii String.
From S2P Require Import Prelude Bytes Json Digest.

(** The columns the verification selects, which the chain covers. *)
Record audit_event := {
  chain_sequence : Z;
  event_type : string;
  payload_canonical_bytes : list Z;
  payload_digest : list Z;
  previous_hash : list Z;
  event_hash : list Z;
}.
(** The other columns: the row's identity, who did it, to what, on whose behalf, and the readable
    payload. *)
Record audit_attribution := {
  aa_id : string;
  aa_actor_kind : string;
  aa_actor_id : string;
  aa_aggregate_type : option string;
  aa_aggregate_id : option string;
  aa_correlation_id : string;
  aa_causation_id : option string;
  aa_payload : json;
  aa_created_at : Z;
}.
(** A row of [kcml.audit_event]. *)
Record audit_row := { row_attribution : audit_attribution; row_event : audit_event }.
Record audit_head := { last_sequence : Z; last_hash : list Z }.
(** [db_head] is [None] when the singleton row is missing. *)
Record audit_db := { db_head : option audit_head; db_events : list audit_event }.
(** One database snapshot of both tables, and what the verification selects from it. *)
Record audit_snapshot := { snapshot_head : option audit_head; snapshot_rows : list audit_row }.
Definition selected (t : audit_snapshot) : audit_db :=
  {| db_head := snapshot_head t; db_events := map row_event (snapshot_rows t) |}.

Record AuditIntegrityResult := { eventCount : Z; lastSequence : string; lastHash : string }.

Definition max_bigint : Z := 2 ^ 63 - 1.
Definition zero_hash : list Z := repeat 0 32.

Section Audit.
Context `{H : Hash}.

(** ** Appending: [kcml.append_audit_event] *)

Definition event_digest (previous : list Z) (sequence : Z) (type : string) (payloadDigest : list Z) : list Z :=
  hash (previous ++ be_bytes 8 sequence ++ utf8 type ++ payloadDigest).

Definition append_audit_event (db : audit_db) (event : string * list Z) : result audit_db :=
  let '(type, payload) := event in
  hd ← or_throw (db_head db) (PgError "P0002");
  let sequence := last_sequence hd + 1 in
  _ ← throw_if (sequence >? max_bigint) (PgError "22003");
  let digest := hash payload in
  let h := event_digest (last_hash hd) sequence type digest in
  Ok {| db_head := Some {| last_sequence := sequence; last_hash := h |};
        db_events := db_events db ++
          [{| chain_sequence := sequence; event_type := type; payload_canonical_bytes := payload;
              payload_digest := digest; previous_hash := last_hash hd; event_hash := h |}] |}.

(** The same call on the whole table, with the arguments the digest leaves out. *)
Definition append_audit_row (t : audit_snapshot) (call : audit_attribution * (string * list Z)) : result audit_snapshot :=
  let '(attribution, (type, payload)) := call in
  hd ← or_throw (snapshot_head t) (PgError "P0002");
  let sequence := last_sequence hd + 1 in
  _ ← throw_if (sequence >? max_bigint) (PgError "22003");
  let digest := hash payload in
  let h := event_digest (last_hash hd) sequence type digest in
  Ok {| snapshot_head := Some {| last_sequence := sequence; last_hash := h |};
        snapshot_rows := snapshot_rows t ++
          [{| row_attribution := attribution;
              row_event := {| chain_sequence := sequence; event_type := type; payload_canonical_bytes := payload;
                payload_digest := digest; previous_hash := last_hash hd; event_hash := h |} |}] |}.

(** The baseline's head row. *)
Definition initial_db : audit_db :=
  {| db_head := Some {| last_sequence := 0; last_hash := zero_hash |}; db_events := [] |}.

(** ** Verification *)

Definition seq_leb (a b : audit_event) : bool := chain_sequence a <=? chain_sequence b.

(** [... WHERE chain_sequence >= $1 ORDER BY chain_sequence] *)
Definition from_sequence (db : audit_db) (e : Z) : list audit_event :=
  List.filter (fun ev => e <=? chain_sequence ev) (stable_sort seq_leb (db_events db)).
(** [... LIMIT $2] *)
Definition query_page (db : audit_db) (e : Z) (pageSize : nat) : list audit_event :=
  firstn pageSize (from_sequence db e).

Record verify_state := { previous : list Z; expectedSequence : Z; counted : Z }.
Definition start : verify_state := {| previous := zero_hash; expectedSequence := 1; counted := 0 |}.

Definition buffers_equal (a b : list Z) : bool := bool_decide (a = b).

(** The body of the inner loop. *)
Definition check_event (s : verify_state) (ev : audit_event) : result verify_state :=
  let n := chain_sequence ev in
  _ ← throw_if (negb (n =? expectedSequence s))
        (DomainErr "SEQUENCE_GAP" ("Expected audit sequence " +:+ dec (expectedSequence s) +:+ " but found " +:+ dec n));
  _ ← throw_if (negb (buffers_equal (previous_hash ev) (previous s)))
        (DomainErr "CHECKPOINT_DIGEST_INVALID" ("Audit chain predecessor mismatch at " +:+ dec n));
  let payloadDigest := hash (payload_canonical_bytes ev) in
  _ ← throw_if (negb (buffers_equal payloadDigest (payload_digest ev)))
        (DomainErr "CHECKPOINT_DIGEST_INVALID" ("Audit payload digest mismatch at " +:+ dec n));
  _ ← throw_if (n >? max_bigint) (RangeError "ERR_OUT_OF_RANGE");
  let calculated := event_digest (previous s) n (event_type ev) payloadDigest in
  _ ← throw_if (negb (buffers_equal calculated (event_hash ev)))
        (DomainErr "CHECKPOINT_DIGEST_INVALID" ("Audit event hash mismatch at " +:+ dec n));
  Ok {| previous := calculated; expectedSequence := expectedSequence s + 1; counted := counted s + 1 |}.

(** The page loop; [n] bounds the number of pages. *)
Fixpoint verify_pages (n : nat) (db : audit_db) (pageSize : nat) (s : verify_state) : result verify_state :=
  match n with
  | O => Ok s
  | S n =>
      let page := query_page db (expectedSequence s) pageSize in
      if (length page =? 0)%nat then Ok s
      else
        s' ← fold_result check_event s page;
        if (length page <? pageSize)%nat then Ok s' else verify_pages n db pageSize s'
  end.

Definition check_head (hd : audit_head) (s : verify_state) : result AuditIntegrityResult :=
  let lastSeq := expectedSequence s - 1 in
  _ ← throw_if (negb (last_sequence hd =? lastSeq) || negb (buffers_equal (last_hash hd) (previous s)))
        (DomainErr "CLOSURE_PREDICATE_INCOMPLETE" "Audit head does not match the terminal chain event in the same snapshot");
  Ok {| eventCount := counted s; lastSequence := dec lastSeq; lastHash := hex (previous s) |}.

Definition verifyAuditChainClient (db : audit_db) (pageSize : Z) : result AuditIntegrityResult :=
  _ ← throw_if (negb (safe_int pageSize) || (pageSize <? 1) || (pageSize >? 10000)) (JsError "AUDIT_PAGE_SIZE_INVALID");
  hd ← or_throw (db_head db) (DomainErr "CLOSURE_PREDICATE_INCOMPLETE" "Audit head is missing");
  s ← verify_pages (S (length (db_events db))) db (Z.to_nat pageSize) start;
  check_head hd s.


(** ** Specification: one pass over the whole chain *)

Definition chain (db : audit_db) : list audit_event := from_sequence db 1.
Definition verify_chain (db : audit_db) : result AuditIntegrityResult :=
  hd ← or_throw (db_head db) (DomainErr "CLOSURE_PREDICATE_INCOMPLETE" "Audit head is missing");
  s ← fold_result check_event start (chain db);
  check_head hd s.

(** What an event says, without its authenticators. *)
Definition content (ev : audit_event) : Z * string * list Z :=
  (chain_sequence ev, event_type ev, payload_canonical_bytes ev).

End Audit.

(** ** Theory *)

Section AuditTheory.
Context `{H : Hash}.

Lemma check_event_Ok s ev s' :
  check_event s ev = Ok s' ->
  chain_sequence ev = expectedSequence s /\ previous_hash ev = previous s /\ chain_sequence ev <= max_bigint /\
  s' = {| previous := event_digest (previous s) (chain_sequence ev) (event_type ev) (hash (payload_canonical_bytes ev));
          expectedSequence := expectedSequence s + 1; counted := counted s + 1 |}.
Proof.
  unfold check_event, buffers_equal. intros Hc. inv_ok. reflect_bools.
  split_and!; try done. rewrite Z.gtb_ltb in *. reflect_bools. lia.
Qed.


Lemma append_selected t call t' :
  append_audit_row t call = Ok t' -> append_audit_event (selected t) (snd call) = Ok (selected t').
Proof.
  destruct call as [a [type payload]]. unfold append_audit_row, append_audit_event, selected. cbn.
  intros Ha. inv_ok. subst t'. cbn. rewrite map_app.
  repeat match goal with E : ?x = _ |- context [?x] => rewrite E; cbn end. done.
Qed.


Lemma check_events_Ok l s s' :
  fold_result check_event s l = Ok s' ->
  map chain_sequence l = seqZ (expectedSequence s) (Z.of_nat (length l)) /\
  expectedSequence s' = expectedSequence s + Z.of_nat (length l) /\
  counted s' = counted s + Z.of_nat (length l).
Proof.
  revert s; induction l as [|ev l IH]; intros s; cbn [fold_result].
  - intros [= ->]. split_and!; cbn; (done || lia).
  - intros (s1 & (Hn & _ & _ & ->)%check_event_Ok & Hl)%bind_Ok_inv. apply IH in Hl as (Hm & He & Hc).
    cbn [expectedSequence counted] in *. cbn [map length]. rewrite Hm, He, Hc, Hn. split_and!; [|lia|lia].
    rewrite (seqZ_cons (expectedSequence s)) by lia. f_equal. f_equal; lia.
Qed.

Lemma filter_filter_le {A} (f : A -> Z) a b l :
  a <= b -> List.filter (fun x => b <=? f x) (List.filter (fun x => a <=? f x) l) = List.filter (fun x => b <=? f x) l.
Proof.
  intros Hab. induction l as [|x l IH]; cbn; [done|]. destruct (Z.leb_spec a (f x)); cbn; rewrite IH; [done|].
  destruct (Z.leb_spec b (f x)); [lia|done].
Qed.

Lemma filter_all {A} (p : A -> bool) l : Forall (fun x => p x = true) l -> List.filter p l = l.
Proof. induction 1 as [|x l Hx _ IH]; cbn; [done|]. by rewrite Hx, IH. Qed.
Lemma filter_none {A} (p : A -> bool) l : Forall (fun x => p x = false) l -> List.filter p l = [].
Proof. induction 1 as [|x l Hx _ IH]; cbn; [done|]. by rewrite Hx, IH. Qed.
Lemma length_filter_le {A} (p : A -> bool) l : (length (List.filter p l) <= length l)%nat.
Proof. induction l as [|x l IH]; cbn; [done|]. destruct (p x); cbn; lia. Qed.

(** Distinct sequence numbers make the ordered table strictly increasing. *)
Definition increasing (l : list audit_event) : Prop :=
  StronglySorted (fun a b => chain_sequence a < chain_sequence b) l.

Lemma seq_leb_total a b : seq_leb a b = true \/ seq_leb b a = true.
Proof. unfold seq_leb. rewrite !Z.leb_le. lia. Qed.
Lemma seq_leb_trans a b c : seq_leb a b = true -> seq_leb b c = true -> seq_leb a c = true.
Proof. unfold seq_leb. rewrite !Z.leb_le. lia. Qed.

Lemma sorted_increasing l : NoDup (map chain_sequence l) -> increasing (stable_sort seq_leb l).
Proof.
  intros Hn. assert (Hn' : NoDup (map chain_sequence (stable_sort seq_leb l))) by (by rewrite stable_sort_perm).
  pose proof (stable_sort_sorted seq_leb seq_leb_total seq_leb_trans l) as Hs.
  induction Hs as [|x k Hk IH Hx]; [constructor|]. cbn in Hn'. apply NoDup_cons in Hn' as [Hx' Hk'].
  constructor; [by apply IH|]. rewrite Forall_forall in Hx |- *. intros y Hy.
  specialize (Hx y Hy). unfold seq_leb in Hx. apply Z.leb_le in Hx.
  assert (chain_sequence x <> chain_sequence y); [|lia].
  intros E. apply Hx'. rewrite E. by apply list_elem_of_fmap_2.
Qed.

Lemma increasing_filter p l : increasing l -> increasing (List.filter p l).
Proof.
  induction 1 as [|x l Hl IH Hx]; cbn; [constructor|]. destruct (p x); [|done].
  constructor; [done|]. rewrite Forall_forall in Hx |- *. intros y Hy. apply Hx.
  apply list_elem_of_In, filter_In in Hy as [Hy _]. by apply list_elem_of_In.
Qed.

Lemma increasing_app l k :
  increasing (l ++ k) -> increasing k /\ Forall (fun a => Forall (fun b => chain_sequence a < chain_sequence b) k) l.
Proof.
  induction l as [|x l IH]; cbn; [done|]. intros Hs. inversion_clear Hs as [|? ? Hl Hx].
  apply IH in Hl as [Hk Hl]. split; [done|]. constructor; [|done]. by apply Forall_app in Hx as [_ Hx].
Qed.

Lemma consecutive_below l e :
  map chain_sequence l = seqZ e (Z.of_nat (length l)) ->
  Forall (fun ev => chain_sequence ev < e + Z.of_nat (length l)) l.
Proof.
  intros Hm. apply Forall_forall. intros ev Hev.
  assert (Hin : chain_sequence ev ∈ map chain_sequence l) by (by apply list_elem_of_fmap_2).
  rewrite Hm in Hin. apply elem_of_seqZ in Hin. lia.
Qed.

(** After a full page has been checked, the next query starts where it ended. *)
Lemma next_page db s s' k page rest :
  increasing (from_sequence db (expectedSequence s)) -> from_sequence db (expectedSequence s) = page ++ rest ->
  k = length page -> (0 < k)%nat -> fold_result check_event s page = Ok s' ->
  from_sequence db (expectedSequence s') = rest.
Proof.
  intros Hi Hsplit -> Hk (Hm & He & _)%check_events_Ok.
  unfold from_sequence in *. rewrite He. rewrite <- (filter_filter_le _ (expectedSequence s)) by lia.
  rewrite Hsplit in *. apply increasing_app in Hi as [_ Hlt].
  pose proof (consecutive_below _ _ Hm) as Hp.
  rewrite List.filter_app, filter_none; [rewrite filter_all; [done|]|].
  - assert (Hl : exists ev, ev ∈ page /\ chain_sequence ev = expectedSequence s + Z.of_nat (length page) - 1).
    { assert (Hin : expectedSequence s + Z.of_nat (length page) - 1 ∈ map chain_sequence page)
        by (rewrite Hm; apply elem_of_seqZ; lia).
      apply list_elem_of_In, in_map_iff in Hin as (ev & E & Hev). exists ev. split; [by apply list_elem_of_In|done]. }
    destruct Hl as (ev & Hev & E). rewrite Forall_forall in Hlt. specialize (Hlt ev Hev).
    eapply Forall_impl; [exact Hlt|]. cbn. intros x Hx. apply Z.leb_le. lia.
  - eapply Forall_impl; [exact Hp|]. cbn. intros x Hx. apply Z.leb_gt. lia.
Qed.

Lemma verify_pages_spec n db pageSize s :
  NoDup (map chain_sequence (db_events db)) -> (1 <= pageSize)%nat ->
  (length (from_sequence db (expectedSequence s)) < n)%nat ->
  verify_pages n db pageSize s = fold_result check_event s (from_sequence db (expectedSequence s)).
Proof.
  intros Hn Hp. revert s; induction n as [|n IH]; intros s Hlen; [lia|].
  cbn [verify_pages]. unfold query_page. set (rest := from_sequence db (expectedSequence s)) in *.
  transitivity (fold_result check_event s (firstn pageSize rest ++ skipn pageSize rest)); [|by rewrite firstn_skipn].
  rewrite fold_result_app.
  destruct (Nat.eqb_spec (length (firstn pageSize rest)) 0) as [E|E].
  { rewrite length_firstn in E. assert (rest = []) as -> by (apply length_zero_iff_nil; lia).
    by rewrite firstn_nil, skipn_nil. }
  destruct (fold_result check_event s (firstn pageSize rest)) as [s'|e] eqn:Ef; cbn [mbind result_bind]; [|done].
  destruct (Nat.ltb_spec (length (firstn pageSize rest)) pageSize) as [Hlt|Hge].
  - rewrite length_firstn in Hlt. by rewrite skipn_all2 by lia.
  - assert (Hnext : from_sequence db (expectedSequence s') = skipn pageSize rest).
    { eapply (next_page db s s' _ (firstn pageSize rest)); [|by rewrite firstn_skipn|done|lia|done].
      apply increasing_filter, sorted_increasing, Hn. }
    rewrite IH, Hnext; [done|]. rewrite Hnext, length_skipn. rewrite length_firstn in E. lia.
Qed.





(** ** Appended chains *)

(** The table and head that [append_audit_event] maintains. *)
Definition consistent (db : audit_db) : Prop :=
  exists s, increasing (db_events db) /\ Forall (fun ev => 1 <= chain_sequence ev) (db_events db) /\
    fold_result check_event start (db_events db) = Ok s /\
    db_head db = Some {| last_sequence := expectedSequence s - 1; last_hash := previous s |}.

Lemma append_consistent db ev db' : consistent db -> append_audit_event db ev = Ok db' -> consistent db'.
Proof.
  destruct ev as [type payload]. intros (s & Hi & Hpos & Hf & Hh). unfold append_audit_event. rewrite Hh.
  cbn [or_throw mbind result_bind last_sequence last_hash]. intros Ha. inv_ok. subst db'.
  pose proof (check_events_Ok _ _ _ Hf) as (Hm & He & _). cbn [expectedSequence start] in He, Hm.
  eexists {| previous := _; expectedSequence := _; counted := _ |}. cbn [db_events db_head].
  split_and!.
  - assert (Hlt : Forall (fun ev => chain_sequence ev < expectedSequence s) (db_events db)).
    { rewrite He. by apply consecutive_below. }
    clear - Hi Hlt. unfold increasing in *. induction Hi as [|x l Hl IH Hx]; cbn.
    + repeat constructor.
    + inversion_clear Hlt as [|? ? Hxl Hl']. constructor; [by apply IH|].
      apply Forall_app. split; [done|]. repeat constructor. cbn. lia.
  - apply Forall_app. split; [done|]. repeat constructor. cbn. lia.
  - rewrite fold_result_app, Hf. cbn [mbind result_bind fold_result]. unfold check_event, buffers_equal. cbn.
    replace (expectedSequence s - 1 + 1) with (expectedSequence s) in * by lia.
    rewrite Z.eqb_refl, !bool_decide_true by done. cbn.
    replace (expectedSequence s >? max_bigint) with false by congruence. cbn. reflexivity.
  - cbn. f_equal. f_equal; [lia|]. by replace (expectedSequence s - 1 + 1) with (expectedSequence s) by lia.
Qed.

Lemma appends_consistent evs db db' : consistent db -> fold_result append_audit_event db evs = Ok db' -> consistent db'.
Proof. intros Hc. apply (fold_result_inv consistent); [|done]. intros. by eapply append_consistent. Qed.

Lemma initial_consistent : consistent initial_db.
Proof. exists start. split_and!; try constructor. Qed.

Lemma append_count evs db db' :
  fold_result append_audit_event db evs = Ok db' -> length (db_events db') = (length (db_events db) + length evs)%nat.
Proof.
  revert db; induction evs as [|[t p] evs IH]; intros db; cbn [fold_result].
  - intros [= ->]. cbn. lia.
  - intros (db1 & H1 & H2)%bind_Ok_inv. apply IH in H2 as ->. unfold append_audit_event in H1. inv_ok. subst db1.
    cbn. rewrite length_app. cbn. lia.
Qed.

Lemma increasing_NoDup l : increasing l -> NoDup (map chain_sequence l).
Proof.
  induction 1 as [|x l _ IH Hx]; cbn; constructor; [|done].
  intros Hin%list_elem_of_In%in_map_iff. destruct Hin as (y & E & Hy%list_elem_of_In).
  rewrite Forall_forall in Hx. specialize (Hx y Hy). cbn in Hx. lia.
Qed.

Lemma consistent_chain db : consistent db -> chain db = db_events db.
Proof.
  intros (s & Hi & Hpos & _). unfold chain, from_sequence. rewrite stable_sort_id.
  - apply filter_all. eapply Forall_impl; [exact Hpos|]. intros x Hx. by apply Z.leb_le.
  - clear - Hi. induction Hi as [|x l _ IH Hx]; constructor; [done|].
    eapply Forall_impl; [exact Hx|]. intros y Hy. apply Z.leb_le. cbn in Hy. lia.
Qed.
End AuditTheory.

Section PagedTheory.
Context `{H : Hash}.
Lemma verify_paged db pageSize :
  NoDup (map chain_sequence (db_events db)) -> 1 <= pageSize <= 10000 ->
  verifyAuditChainClient db pageSize = verify_chain db.
Proof.
  intros Hn Hp. unfold verifyAuditChainClient, verify_chain, chain.
  replace (negb (safe_int pageSize) || _ || _) with false.
  - cbn [throw_if mbind result_bind]. destruct (db_head db) as [hd|]; cbn [or_throw mbind result_bind]; [|done].
    rewrite verify_pages_spec; [done|done|lia|]. unfold from_sequence. apply Nat.lt_succ_r.
    etransitivity; [apply length_filter_le|]. by rewrite stable_sort_perm.
  - symmetry. unfold safe_int, max_safe. rewrite !orb_false_iff, negb_false_iff, andb_true_iff, !Z.leb_le, Z.ltb_ge, Z.gtb_ltb, Z.ltb_ge. lia.
Qed.



(** The contents of appended events, numbered from [k]. *)
Fixpoint numbered (k : Z) (evs : list (string * list Z)) : list (Z * string * list Z) :=
  match evs with
  | [] => []
  | (t, p) :: evs => (k, t, p) :: numbered (k + 1) evs
  end.

Lemma append_contents evs db db' hd :
  db_head db = Some hd -> fold_result append_audit_event db evs = Ok db' ->
  map content (db_events db') = map content (db_events db) ++ numbered (last_sequence hd + 1) evs.
Proof.
  revert db hd; induction evs as [|[t p] evs IH]; intros db hd Hh; cbn [fold_result numbered].
  - intros [= <-]. by rewrite app_nil_r.
  - intros (db1 & H1 & H2)%bind_Ok_inv. unfold append_audit_event in H1. rewrite Hh in H1. cbn in H1. inv_ok. subst db1.
    eapply IH in H2; [|reflexivity]. rewrite H2. cbn. by rewrite map_app, <- app_assoc.
Qed.

Lemma consistent_verifies db :
  consistent db -> verify_chain db = Ok {| eventCount := Z.of_nat (length (db_events db));
    lastSequence := dec (Z.of_nat (length (db_events db)));
    lastHash := hex (default [] (last_hash <$> db_head db)) |}.
Proof.
  intros Hc. pose proof (consistent_chain db Hc) as Hch. destruct Hc as (s & _ & _ & Hf & Hh).
  unfold verify_chain. rewrite Hch, Hh, Hf. cbn [or_throw mbind result_bind]. unfold check_head, buffers_equal.
  cbn [last_sequence last_hash]. rewrite Z.eqb_refl, bool_decide_true by done. cbn.
  apply check_events_Ok in Hf as (_ & He & Hn). cbn in He, Hn. rewrite Hn, He. f_equal. f_equal. f_equal. lia.
Qed.
End PagedTheory.

(** ** Properties *)

Section Properties.
Context `{H : Hash}.

(** Reading the audit table page by page, with every page size the code accepts, gives the
    verdict (result or error) of one pass over the whole ordered chain; the only assumption is the
    UNIQUE constraint on chain_sequence. *)
Theorem paging_irrelevant db pageSize :
  NoDup (map chain_sequence (db_events db)) -> 1 <= pageSize <= 10000 ->
  verifyAuditChainClient db pageSize = verify_chain db.
Proof. apply verify_paged. Qed.


(** Completeness: whatever is appended with append_audit_event, from the baseline's empty chain,
    verifies with every accepted page size and counts exactly the appended events. *)
Theorem appended_chain_verifies evs db pageSize :
  fold_result append_audit_event initial_db evs = Ok db -> 1 <= pageSize <= 10000 ->
  exists r, verifyAuditChainClient db pageSize = Ok r /\ eventCount r = Z.of_nat (length evs) /\
            lastSequence r = dec (Z.of_nat (length evs)) /\ map content (chain db) = numbered 1 evs.
Proof.
  intros Ha Hp. pose proof (appends_consistent _ _ _ initial_consistent Ha) as Hc.
  pose proof (append_count _ _ _ Ha) as Hn. cbn in Hn.
  rewrite verify_paged, consistent_verifies, (consistent_chain db Hc) by (try done; destruct Hc as (s & Hi & _); by apply increasing_NoDup).
  eexists. split; [done|]. rewrite Hn. split_and!; [done|done|]. exact (append_contents evs initial_db db _ eq_refl Ha).
Qed.
End Properties.

(** ** Witnesses *)

Definition sample_events : list (string * list Z) := [("LOGIN", [1; 2]); ("COMMAND", [3]); ("LOGOUT", [])].
Definition sample_db : audit_db :=
  match fold_result (append_audit_event (H := toy_hash)) initial_db sample_events with Ok db => db | Throw _ => initial_db end.
Lemma sample_db_unique : NoDup (map chain_sequence (db_events sample_db)).
Proof. apply (bool_decide_unpack _). vm_compute. exact I. Qed.

Lemma paging_irrelevant_witness :
  verifyAuditChainClient (H := toy_hash) sample_db 1 = verify_chain (H := toy_hash) sample_db.
Proof. apply (@paging_irrelevant toy_hash sample_db 1); [exact sample_db_unique|lia]. Defined.

(** The same three events, done by two different actors. *)
Definition sample_attribution (actor : string) : audit_attribution :=
  {| aa_id := "0a0c7f0e-0000-4000-8000-000000000001"; aa_actor_kind := "OWNER"; aa_actor_id := actor;
     aa_aggregate_type := None; aa_aggregate_id := None; aa_correlation_id := "0a0c7f0e-0000-4000-8000-000000000002";
     aa_causation_id := None; aa_payload := JObj []; aa_created_at := 0 |}.
Definition sample_snapshot (actor : string) : audit_snapshot :=
  match fold_result (append_audit_row (H := toy_hash)) {| snapshot_head := db_head initial_db; snapshot_rows := [] |}
          (map (pair (sample_attribution actor)) sample_events) with
  | Ok t => t | Throw _ => {| snapshot_head := None; snapshot_rows := [] |} end.

Example sample_snapshots_differ :
  snapshot_rows (sample_snapshot "owner") <> snapshot_rows (sample_snapshot "intruder") /\
  selected (sample_snapshot "owner") = selected (sample_snapshot "intruder") /\
  selected (sample_snapshot "owner") = sample_db.
Proof. vm_compute. split_and!; [discriminate|reflexivity|reflexivity]. Qed.


Lemma appended_chain_verifies_witness :
  exists r, verifyAuditChainClient (H := toy_hash) sample_db 2 = Ok r /\ eventCount r = 3.
Proof.
  destruct (@appended_chain_verifies toy_hash sample_events sample_db 2) as (r & Hr & Hn & _).
  - vm_compute. reflexivity.
  - lia.
  - exists r. split; [exact Hr|exact Hn].
Defined.
