(* ===== verification/SideEffect.v ===== *)
(** * The side-effect ledger

    [packages/domain/src/side-effect-ledger.ts]: the intent and read-back
    evidence of an external effect, over the four tables it writes
    ([side_effect_operation], [side_effect_attempt],
    [side_effect_attempt_state], [side_effect_attempt_evidence]).  A throw
    aborts the surrounding transaction, so only the new tables of an [Ok] are
    ever committed.  Requests and payloads are the canonical trees. *)
From Stdlib Require Import Ascii String.
From S2P Require Import Prelude Bytes Json Digest AuditChain.

(** ** Tables *)

Inductive effect_status :=
| INTENT_RECORDED | DISPATCHING | OUTCOME_RECORDED | RECONCILING
| CONFIRMED_APPLIED | CONFIRMED_NOT_APPLIED | FAILED_FINAL | UNKNOWN.
#[export] Instance effect_status_eq_dec : EqDecision effect_status.
Proof. solve_decision. Defined.

(** The dispositions of a read-back. *)
Inductive disposition := D_CONFIRMED_APPLIED | D_CONFIRMED_NOT_APPLIED | D_UNKNOWN | D_FAILED_FINAL.
Definition disposition_status (d : disposition) : effect_status :=
  match d with
  | D_CONFIRMED_APPLIED => CONFIRMED_APPLIED | D_CONFIRMED_NOT_APPLIED => CONFIRMED_NOT_APPLIED
  | D_UNKNOWN => UNKNOWN | D_FAILED_FINAL => FAILED_FINAL
  end.

Record operation_row := {
  op_id : string;
  op_command : string;
  op_step : string;
  op_target : string;
  op_request : json;
  op_digest : list Z;
  op_idempotency : string;
  op_effect_class : string;
  op_retry_class : string;
  op_reconciliation : json;
  op_incarnation : string;
  op_deployment_epoch : Z;
  op_recovery_epoch : Z;
  op_attempt : Z;
  op_status : effect_status;
  op_version : Z;
}.
Record attempt_row := { at_request : json; at_digest : list Z }.
Record state_row := { st_status : effect_status; st_last_evidence : Z; st_version : Z }.
Record evidence_row := { ev_type : string; ev_payload : json; ev_digest : list Z }.

(** An attempt is keyed by operation and attempt number. *)
Abbreviation attempt_key := (string * Z)%type.
Record se_db := {
  operations : list operation_row;
  attempts : gmap attempt_key attempt_row;
  states : gmap attempt_key state_row;
  evidence : gmap (attempt_key * Z) evidence_row;
}.
Definition empty_db : se_db := {| operations := []; attempts := ∅; states := ∅; evidence := ∅ |}.

Record SideEffectAuthorityContext := {
  commandId : string;
  logicalOperationId : string;
  operationName : string;
  sideEffectClass : string;
  retryClass : string;
  platformIncarnationId : string;
  applicationDeploymentEpoch : Z;
  recoveryEpoch : Z;
}.
Record SideEffectIntentRecord := { in_id : string; in_attempt : Z; in_status : effect_status }.

Section Ledger.
Context `{L : Locale} `{H : Hash}.

Definition digest (j : json) : list Z := hash (utf8 (canonicalJson j)).

(** ** Recording an intent *)

Definition same_step (command step : string) (row : operation_row) : bool :=
  String.eqb (op_command row) command && String.eqb (op_step row) step.

Definition new_operation (id : string) (c : SideEffectAuthorityContext) (stepKey target : string)
    (request contract : json) : operation_row :=
  {| op_id := id; op_command := commandId c; op_step := stepKey; op_target := target; op_request := request;
     op_digest := digest request; op_idempotency := logicalOperationId c +:+ ":" +:+ stepKey;
     op_effect_class := sideEffectClass c; op_retry_class := retryClass c; op_reconciliation := contract;
     op_incarnation := platformIncarnationId c; op_deployment_epoch := applicationDeploymentEpoch c;
     op_recovery_epoch := recoveryEpoch c; op_attempt := 1; op_status := INTENT_RECORDED; op_version := 1 |}.

(** [INSERT ... ON CONFLICT(command_id,step_key) DO NOTHING]; [id] is the
    generated key and [CHECK (recovery_epoch > 0)] a constraint of the table. *)
Definition insert_operation (row : operation_row) (ops : list operation_row) : result (list operation_row) :=
  _ ← throw_if (op_recovery_epoch row <=? 0) (PgError "23514");
  if existsb (same_step (op_command row) (op_step row)) ops then Ok ops
  else
    _ ← throw_if (existsb (fun r => String.eqb (op_id r) (op_id row)) ops) (PgError "23505");
    Ok (ops ++ [row]).

(** [INSERT ... ON CONFLICT DO NOTHING] on a keyed table *)
Definition insert_if_absent `{Countable K} {V} (k : K) (v : V) (m : gmap K V) : gmap K V :=
  match m !! k with Some _ => m | None => <[k := v]> m end.

Definition recordSideEffectIntent (id : string) (c : SideEffectAuthorityContext) (stepKey target : string)
    (request contract : json) (db : se_db) : result (SideEffectIntentRecord * se_db) :=
  ops ← insert_operation (new_operation id c stepKey target request contract) (operations db);
  row ← or_throw (List.find (same_step (commandId c) stepKey) ops) (JsError "SIDE_EFFECT_INTENT_MISSING");
  _ ← throw_if (negb (bool_decide (op_digest row = digest request))) (JsError "SIDE_EFFECT_INTENT_DIGEST_MISMATCH");
  let k := (op_id row, op_attempt row) in
  let atts := insert_if_absent k {| at_request := request; at_digest := digest request |} (attempts db) in
  let sts := insert_if_absent k {| st_status := INTENT_RECORDED; st_last_evidence := 0; st_version := 1 |} (states db) in
  Ok ({| in_id := op_id row; in_attempt := op_attempt row; in_status := op_status row |},
      {| operations := ops; attempts := atts; states := sts; evidence := evidence db |}).

(** ** Recording a read-back *)

Definition set_status (id : string) (s : effect_status) (row : operation_row) : operation_row :=
  if String.eqb (op_id row) id
  then {| op_id := op_id row; op_command := op_command row; op_step := op_step row; op_target := op_target row;
          op_request := op_request row; op_digest := op_digest row; op_idempotency := op_idempotency row;
          op_effect_class := op_effect_class row; op_retry_class := op_retry_class row;
          op_reconciliation := op_reconciliation row; op_incarnation := op_incarnation row;
          op_deployment_epoch := op_deployment_epoch row; op_recovery_epoch := op_recovery_epoch row;
          op_attempt := op_attempt row; op_status := s; op_version := op_version row + 1 |}
  else row.

Definition recordSideEffectReadbackEvidence (operationId : string) (payload : json) (d : disposition) (db : se_db)
    : result se_db :=
  op ← or_throw (List.find (fun r => String.eqb (op_id r) operationId) (operations db))
         (JsError "SIDE_EFFECT_OPERATION_NOT_FOUND");
  let k := (operationId, op_attempt op) in
  st ← or_throw (states db !! k) (JsError "SIDE_EFFECT_ATTEMPT_STATE_NOT_FOUND");
  let n := st_last_evidence st + 1 in
  _ ← throw_if (n >? max_bigint) (PgError "22003");
  _ ← throw_if (match evidence db !! (k, n) with Some _ => true | None => false end) (PgError "23505");
  _ ← throw_if (match attempts db !! k with Some _ => false | None => true end) (PgError "23503");
  Ok {| operations := map (set_status operationId (disposition_status d)) (operations db);
        attempts := attempts db;
        states := <[k := {| st_status := disposition_status d; st_last_evidence := n; st_version := st_version st + 1 |}]> (states db);
        evidence := <[(k, n) := {| ev_type := "INDEPENDENT_READBACK"; ev_payload := payload; ev_digest := digest payload |}]>
                      (evidence db) |}.

(** ** Committed histories *)

Inductive ledger_step : se_db -> se_db -> Prop :=
| step_intent id c stepKey target request contract db r db' :
    recordSideEffectIntent id c stepKey target request contract db = Ok (r, db') -> ledger_step db db'
| step_readback id payload d db db' :
    recordSideEffectReadbackEvidence id payload d db = Ok db' -> ledger_step db db'.

(** Intents and evidence fit together: one row per step and per id, an
    attempt behind every state, and the evidence of an attempt numbered
    [1..last] without a gap, each row with the digest of its payload. *)
Record ledger_wf (db : se_db) : Prop := {
  wf_ids : NoDup (map op_id (operations db));
  wf_steps : NoDup (map (fun r => (op_command r, op_step r)) (operations db));
  wf_attempts : forall k, is_Some (states db !! k) -> is_Some (attempts db !! k);
  wf_current : forall r, In r (operations db) -> is_Some (states db !! (op_id r, op_attempt r));
  wf_requests : forall r, In r (operations db) -> op_digest r = digest (op_request r);
  wf_dense : forall k n, is_Some (evidence db !! (k, n)) <->
               exists st, states db !! k = Some st /\ 1 <= n <= st_last_evidence st;
  wf_last : forall k st, states db !! k = Some st -> 0 <= st_last_evidence st;
  wf_digests : forall k row, evidence db !! k = Some row -> ev_digest row = digest (ev_payload row);
}.
End Ledger.

(** ** Theory *)

Section LedgerTheory.
Context `{L : Locale} `{H : Hash}.

Lemma insert_if_absent_mono `{Countable K} {V} (k k' : K) (v : V) (m : gmap K V) x :
  m !! k' = Some x -> insert_if_absent k v m !! k' = Some x.
Proof.
  intros Hm. unfold insert_if_absent. destruct (m !! k) eqn:E; [done|].
  rewrite lookup_insert_ne; [done|]. congruence.
Qed.
Lemma insert_if_absent_present `{Countable K} {V} (k : K) (v : V) (m : gmap K V) :
  is_Some (insert_if_absent k v m !! k).
Proof. unfold insert_if_absent. destruct (m !! k) eqn:E; [by rewrite E|]. by rewrite lookup_insert_eq. Qed.
Lemma insert_if_absent_id `{Countable K} {V} (k : K) (v : V) (m : gmap K V) :
  is_Some (m !! k) -> insert_if_absent k v m = m.
Proof. unfold insert_if_absent. by intros [? ->]. Qed.
Lemma insert_if_absent_inv `{Countable K} {V} (k k' : K) (v x : V) (m : gmap K V) :
  insert_if_absent k v m !! k' = Some x -> m !! k' = Some x \/ (k' = k /\ x = v /\ m !! k = None).
Proof.
  unfold insert_if_absent. destruct (m !! k) eqn:E; [by left|].
  intros [[<- <-]|[? ?]]%lookup_insert_Some; [right|left]; done.
Qed.

Lemma same_step_iff c s r : same_step c s r = true <-> op_command r = c /\ op_step r = s.
Proof. unfold same_step. by rewrite andb_true_iff, !String.eqb_eq. Qed.

Lemma insert_operation_Ok row ops ops' :
  insert_operation row ops = Ok ops' ->
  (exists r, In r ops /\ same_step (op_command row) (op_step row) r = true /\ ops' = ops) \/
  (existsb (same_step (op_command row) (op_step row)) ops = false /\
   (forall r, In r ops -> op_id r <> op_id row) /\ ops' = ops ++ [row]).
Proof.
  unfold insert_operation. intros Hi. apply bind_Ok_inv in Hi as ([] & _ & Hi).
  destruct (existsb (same_step _ _) ops) eqn:E.
  - apply existsb_exists in E as (r & Hr & Hs). injection Hi as <-. left. eauto.
  - inv_ok. right. split_and!; [done| |done]. intros r Hr Heq.
    assert (existsb (fun r => String.eqb (op_id r) (op_id row)) ops = true); [|congruence].
    apply existsb_exists. exists r. by rewrite Heq, String.eqb_refl.
Qed.

Lemma find_app_some {A} (p : A -> bool) l k x : List.find p l = Some x -> List.find p (l ++ k) = Some x.
Proof. induction l as [|a l IH]; cbn; [done|]. by destruct (p a). Qed.

Lemma find_map {A} (p : A -> bool) (f : A -> A) l :
  (forall x, p (f x) = p x) -> List.find p (map f l) = f <$> List.find p l.
Proof. intros Hp. induction l as [|a l IH]; cbn; [done|]. rewrite Hp. by destruct (p a). Qed.

Lemma set_status_same_step c s id st r : same_step c s (set_status id st r) = same_step c s r.
Proof. unfold set_status. by destruct (String.eqb (op_id r) id). Qed.
Lemma set_status_fields id st r :
  op_id (set_status id st r) = op_id r /\ op_attempt (set_status id st r) = op_attempt r /\
  op_digest (set_status id st r) = op_digest r /\ op_request (set_status id st r) = op_request r /\
  op_command (set_status id st r) = op_command r /\ op_step (set_status id st r) = op_step r.
Proof. unfold set_status. by destruct (String.eqb (op_id r) id). Qed.

(** The step [(command, step)] is on record under [id] with [request]. *)
Definition recorded (command step : string) (request : json) (id : string) (n : Z) (db : se_db) : Prop :=
  exists row, List.find (same_step command step) (operations db) = Some row /\
    op_id row = id /\ op_attempt row = n /\ op_digest row = digest request /\
    is_Some (attempts db !! (id, n)) /\ is_Some (states db !! (id, n)).

Lemma intent_recorded id c step target req contract db r db' :
  recordSideEffectIntent id c step target req contract db = Ok (r, db') ->
  recorded (commandId c) step req (in_id r) (in_attempt r) db'.
Proof.
  unfold recordSideEffectIntent. intros Hr. inv_ok. reflect_bools. inversion Hr; subst. cbn.
  eexists. cbn. split_and!; try done; apply insert_if_absent_present.
Qed.

Lemma readback_Ok id payload d db db' :
  recordSideEffectReadbackEvidence id payload d db = Ok db' ->
  exists op st, List.find (fun r => String.eqb (op_id r) id) (operations db) = Some op /\
    let k := (id, op_attempt op) in let n := st_last_evidence st + 1 in
    states db !! k = Some st /\ evidence db !! (k, n) = None /\ is_Some (attempts db !! k) /\
    db' = {| operations := map (set_status id (disposition_status d)) (operations db); attempts := attempts db;
             states := <[k := {| st_status := disposition_status d; st_last_evidence := n; st_version := st_version st + 1 |}]> (states db);
             evidence := <[(k, n) := {| ev_type := "INDEPENDENT_READBACK"; ev_payload := payload; ev_digest := digest payload |}]> (evidence db) |}.
Proof.
  unfold recordSideEffectReadbackEvidence. intros Hr. inv_ok. eexists _, _. split; [eassumption|]. cbn.
  split; [eassumption|]. destruct (evidence db !! _) eqn:?; [discriminate|].
  destruct (attempts db !! _) eqn:?; [|discriminate]. by subst.
Qed.

Lemma recorded_step command step req id n db db' :
  ledger_step db db' -> recorded command step req id n db -> recorded command step req id n db'.
Proof.
  intros Hs (row & Hf & Hid & Hn & Hd & [a Ha] & [s Hst]). destruct Hs as [id' c stepKey target request contract db r db' Hi|id' payload d db db' Hi].
  - unfold recordSideEffectIntent in Hi. inv_ok. inversion Hi; subst. cbn. exists row. cbn.
    split_and!; try done; [|eexists; by apply insert_if_absent_mono..].
    match goal with X : insert_operation _ _ = Ok _ |- _ => apply insert_operation_Ok in X as [(x & _ & _ & ->)|(_ & _ & ->)] end;
      [done|by apply find_app_some].
  - apply readback_Ok in Hi as (op & st & _ & Hk & _ & _ & ->). cbn in *.
    exists (set_status id' (disposition_status d) row). cbn.
    rewrite find_map by (intros; apply set_status_same_step). rewrite Hf.
    destruct (set_status_fields id' (disposition_status d) row) as (E1 & E2 & E3 & _).
    rewrite E1, E2, E3. split_and!; try done.
    destruct (decide ((id', op_attempt op) = (id, n))) as [->|Hne]; [by rewrite lookup_insert_eq|by rewrite lookup_insert_ne].
Qed.

Lemma recorded_star command step req id n db db' :
  star ledger_step db db' -> recorded command step req id n db -> recorded command step req id n db'.
Proof. intros Hs Hr. eapply star_invariant; [|exact Hr|exact Hs]. intros x y Hx Hxy. by eapply recorded_step. Qed.

Lemma recorded_insert command step req id n db row :
  recorded command step req id n db -> op_command row = command -> op_step row = step -> 0 < op_recovery_epoch row ->
  insert_operation row (operations db) = Ok (operations db).
Proof.
  intros (x & Hf & _) <- <- He. unfold insert_operation.
  replace (op_recovery_epoch row <=? 0) with false by (symmetry; apply Z.leb_gt; lia). cbn.
  apply find_some in Hf as [Hin Hs].
  by replace (existsb _ _) with true by (symmetry; apply existsb_exists; eauto).
Qed.

(** *** Preservation of [ledger_wf] *)

Lemma wf_empty : ledger_wf empty_db.
Proof.
  split; cbn; try (by intros; exfalso); try constructor.
  - by intros k [??].
  - by intros [??].
  - by intros (? & ? & _).
Qed.

Lemma NoDup_snoc {A} (l : list A) x : NoDup l -> x ∉ l -> NoDup (l ++ [x]).
Proof.
  intros Hl Hx. apply NoDup_app. split_and!; [done| |apply NoDup_singleton].
  intros y Hy ->%list_elem_of_singleton. done.
Qed.

Lemma wf_intent id c step target req contract db r db' :
  ledger_wf db -> recordSideEffectIntent id c step target req contract db = Ok (r, db') -> ledger_wf db'.
Proof.
  intros W Hr. unfold recordSideEffectIntent in Hr. inv_ok. inversion Hr; subst db' r.
  match goal with X : insert_operation _ _ = Ok ?o, Y : List.find _ _ = Some ?rw |- _ =>
    rename X into Hins; rename Y into Hf; rename o into ops; rename rw into row end.
  set (k := (op_id row, op_attempt row)).
  assert (Hcur : forall r, In r ops -> In r (operations db) \/ r = row).
  { intros r Hr. apply insert_operation_Ok in Hins as [(x & _ & _ & ->)|(Hno & Hid & ->)]; [by left|].
    apply in_app_or in Hr as [Hr|[<-|[]]]; [by left|right].
    apply find_some in Hf as [Hf Hs]. apply in_app_or in Hf as [Hf|[<-|[]]]; [|done].
    assert (existsb (same_step (commandId c) step) (operations db) = true); [|cbn in *; congruence].
    apply existsb_exists. eauto. }
  assert (Hold : ops = operations db \/ (exists nw, ops = operations db ++ [nw] /\ op_digest nw = digest (op_request nw))).
  { apply insert_operation_Ok in Hins as [(x & _ & _ & ->)|(Hno & Hid & ->)]; [by left|right]. by eexists. }
  split; cbn.
  - apply insert_operation_Ok in Hins as [(x & _ & _ & ->)|(Hno & Hid & ->)]; [apply W|].
    rewrite map_app. apply NoDup_snoc; [apply W|]. intros (x & Hx & Hin)%list_elem_of_In%in_map_iff. by apply (Hid x).
  - apply insert_operation_Ok in Hins as [(x & _ & _ & ->)|(Hno & Hid & ->)]; [apply W|].
    rewrite map_app. apply NoDup_snoc; [apply W|]. cbn.
    intros (x & [= E1 E2] & Hin)%list_elem_of_In%in_map_iff.
    assert (existsb (same_step (commandId c) step) (operations db) = true); [|cbn in *; congruence].
    apply existsb_exists. exists x. by rewrite same_step_iff.
  - intros k' [x Hx]. apply insert_if_absent_inv in Hx as [Hx|(-> & _ & _)]; [|apply insert_if_absent_present].
    destruct (wf_attempts _ W k') as [a Ha]; [by eexists|]. eexists. by apply insert_if_absent_mono.
  - intros r [Hr | ->]%Hcur; [|apply insert_if_absent_present].
    destruct (wf_current _ W r Hr) as [a Ha]. eexists. by apply insert_if_absent_mono.
  - intros r Hr. destruct Hold as [->|(nw & -> & Hnw)]; [by apply W|].
    apply in_app_or in Hr as [Hr|[<-|[]]]; [by apply W|done].
  - intros k' n. rewrite (wf_dense _ W). split.
    + intros (st & Hst & Hn). exists st. split; [by apply insert_if_absent_mono|done].
    + intros (st & [Hst|(-> & -> & _)]%insert_if_absent_inv & Hn); [by exists st|cbn in Hn; lia].
  - intros k' st [Hst|(-> & -> & _)]%insert_if_absent_inv; [by apply (wf_last _ W k')|done].
  - apply W.
Qed.

Lemma wf_readback id payload d db db' :
  ledger_wf db -> recordSideEffectReadbackEvidence id payload d db = Ok db' -> ledger_wf db'.
Proof.
  intros W (op & st & Hop & Hst & Hev & Hat & ->)%readback_Ok. cbn in *.
  set (k := (id, op_attempt op)) in *. pose proof (wf_last _ W _ _ Hst) as Hlast.
  set (f := set_status id (disposition_status d)).
  split; cbn.
  - rewrite map_map. rewrite (map_ext _ op_id); [apply W|]. intros r. apply set_status_fields.
  - rewrite map_map. rewrite (map_ext _ (fun r => (op_command r, op_step r))); [apply W|].
    intros r. destruct (set_status_fields id (disposition_status d) r) as (_ & _ & _ & _ & E1 & E2). unfold f. by rewrite E1, E2.
  - intros k' [x [[<- _]|[_ Hx]]%lookup_insert_Some]; [done|]. apply (wf_attempts _ W). by eexists.
  - intros r (r0 & <- & Hr)%in_map_iff.
    destruct (set_status_fields id (disposition_status d) r0) as (E1 & E2 & _). unfold f. rewrite E1, E2.
    apply lookup_insert_is_Some'. right. by apply W.
  - intros r (r0 & <- & Hr)%in_map_iff.
    destruct (set_status_fields id (disposition_status d) r0) as (_ & _ & E3 & E4 & _). unfold f. rewrite E3, E4. by apply W.
  - intros k' n. rewrite lookup_insert_is_Some', (wf_dense _ W). split.
    + intros [[= <- <-]|(s & Hs & Hn)].
      * eexists. split; [by rewrite lookup_insert_eq|]. cbn. lia.
      * destruct (decide (k = k')) as [<-|Hne].
        { eexists. split; [by rewrite lookup_insert_eq|]. cbn. rewrite Hst in Hs. injection Hs as <-. lia. }
        exists s. by rewrite lookup_insert_ne.
    + intros (s & Hs & Hn). destruct (decide (k = k')) as [<-|Hne].
      * rewrite lookup_insert_eq in Hs. injection Hs as <-. cbn in Hn.
        destruct (decide (n = st_last_evidence st + 1)) as [->|]; [by left|]. right. exists st. split; [done|lia].
      * rewrite lookup_insert_ne in Hs by done. right. by exists s.
  - intros k' s [[<- <-]|[_ Hs]]%lookup_insert_Some; [cbn; lia|]. by apply (wf_last _ W k').
  - intros k' row [[<- <-]|[_ Hs]]%lookup_insert_Some; [done|]. by apply (wf_digests _ W k').
Qed.

Lemma wf_reachable db : star ledger_step empty_db db -> ledger_wf db.
Proof.
  apply star_invariant; [|apply wf_empty]. intros x y W Hs.
  inversion Hs; subst; eauto using wf_intent, wf_readback.
Qed.
End LedgerTheory.

(** ** Properties *)

Section Properties.
Context `{L : Locale} `{H : Hash}.

(** Intents are idempotent and binding: once a step's intent is on record, then after any further
    committed history, recording the same step of the same command again with the same canonical request
    returns the same operation and attempt and changes nothing, and with another request is refused (or
    exhibits a hash collision). *)
Theorem intent_idempotent id c step target req contract db r db1 db2 id' c' target' req' contract' :
  recordSideEffectIntent id c step target req contract db = Ok (r, db1) -> star ledger_step db1 db2 ->
  commandId c' = commandId c -> 0 < recoveryEpoch c' ->
  let again := recordSideEffectIntent id' c' step target' req' contract' db2 in
  if String.eqb (canonicalJson req') (canonicalJson req)
  then exists status, again = Ok ({| in_id := in_id r; in_attempt := in_attempt r; in_status := status |}, db2)
  else again = Throw (JsError "SIDE_EFFECT_INTENT_DIGEST_MISMATCH") \/ collision.
Proof.
  intros Hr%intent_recorded Hs Hc He again. apply (recorded_star _ _ _ _ _ _ _ Hs) in Hr.
  assert (Hins : insert_operation (new_operation id' c' step target' req' contract') (operations db2) = Ok (operations db2))
    by (by eapply recorded_insert).
  unfold again, recordSideEffectIntent. rewrite Hins, Hc. cbn [mbind result_bind].
  destruct Hr as (row & Hf & Hid & Hn & Hd & Ha & Hst). rewrite Hf. cbn [or_throw mbind result_bind]. rewrite Hd.
  destruct (String.eqb_spec (canonicalJson req') (canonicalJson req)) as [E|N].
  - unfold digest. rewrite E, bool_decide_true by done. cbn. rewrite Hid, Hn.
    rewrite !insert_if_absent_id by done. exists (op_status row). by destruct db2.
  - case_bool_decide as E; [right|by left]. unfold digest in E.
    apply hash_inj_or_collision in E as [E|]; [|done]. by apply utf8_inj in E.
Qed.

(** C36. In every history of committed intents and read-backs the ledger stays well formed: one operation
    per step, an attempt behind every state, and the evidence of each attempt numbered 1..last without gaps
    and carrying the digest of its payload; and a read-back of a recorded operation never fails (short of
    the bigint bound) and files its payload under the next number. *)
Theorem evidence_contiguous db row st payload d :
  star ledger_step empty_db db -> In row (operations db) ->
  states db !! (op_id row, op_attempt row) = Some st -> st_last_evidence st < max_bigint ->
  ledger_wf db /\
  exists db', recordSideEffectReadbackEvidence (op_id row) payload d db = Ok db' /\ ledger_wf db' /\
    evidence db' !! ((op_id row, op_attempt row), st_last_evidence st + 1) =
      Some {| ev_type := "INDEPENDENT_READBACK"; ev_payload := payload; ev_digest := digest payload |}.
Proof.
  intros W%wf_reachable Hin Hst Hmax. split; [done|].
  assert (Hf : List.find (fun r => String.eqb (op_id r) (op_id row)) (operations db) = Some row).
  { destruct (List.find _ _) as [x|] eqn:E.
    - apply find_some in E as [Hx Hid%String.eqb_eq]. f_equal.
      by apply (NoDup_map_unique op_id (operations db)); [apply W|..].
    - pose proof (find_none _ _ E row Hin) as N. cbn in N. by rewrite String.eqb_refl in N. }
  assert (Hev : evidence db !! ((op_id row, op_attempt row), st_last_evidence st + 1) = None).
  { apply eq_None_not_Some. intros (s & Hs & Hn)%(wf_dense _ W). rewrite Hst in Hs. injection Hs as <-. lia. }
  destruct (wf_attempts _ W (op_id row, op_attempt row)) as [a Ha]; [by eexists|].
  assert (Hok : exists db', recordSideEffectReadbackEvidence (op_id row) payload d db = Ok db').
  { unfold recordSideEffectReadbackEvidence. rewrite Hf. cbn [or_throw mbind result_bind]. rewrite Hst. cbn [or_throw mbind result_bind].
    rewrite Hev, Ha. rewrite Z.gtb_ltb. replace (max_bigint <? _) with false by (symmetry; apply Z.ltb_ge; lia). by eexists. }
  destruct Hok as [db' Hok]. exists db'. split_and!; [done|by eapply wf_readback|].
  apply readback_Ok in Hok as (op & s & Hop & Hs & _ & _ & ->). rewrite Hf in Hop. injection Hop as <-.
  cbn in *. rewrite Hst in Hs. injection Hs as <-. by rewrite lookup_insert_eq.
Qed.
End Properties.

(** ** Witnesses *)

Definition sample_context : SideEffectAuthorityContext :=
  {| commandId := "cmd"; logicalOperationId := "lop"; operationName := "op"; sideEffectClass := "EXTERNAL";
     retryClass := "SAFE"; platformIncarnationId := "inc"; applicationDeploymentEpoch := 1; recoveryEpoch := 1 |}.
Definition sample_intent : SideEffectIntentRecord * se_db :=
  match recordSideEffectIntent (L := code_unit_locale) (H := toy_hash) "id-1" sample_context "step" "t"
          (JObj [("a", JNum 1)]) JNull empty_db with
  | Ok x => x | Throw _ => ({| in_id := ""; in_attempt := 0; in_status := UNKNOWN |}, empty_db) end.

Lemma intent_idempotent_witness :
  exists status, recordSideEffectIntent (L := code_unit_locale) (H := toy_hash) "id-2" sample_context "step" "other"
    (JObj [("a", JNum 1)]) JNull (snd sample_intent) =
    Ok ({| in_id := "id-1"; in_attempt := 1; in_status := status |}, snd sample_intent).
Proof.
  apply (@intent_idempotent code_unit_locale toy_hash "id-1" sample_context "step" "t" (JObj [("a", JNum 1)]) JNull
    empty_db (fst sample_intent) (snd sample_intent) (snd sample_intent) "id-2" sample_context "other"
    (JObj [("a", JNum 1)]) JNull); [vm_compute; reflexivity|apply star_refl|reflexivity|reflexivity].
Defined.

Definition sample_row : operation_row :=
  new_operation (L := code_unit_locale) (H := toy_hash) "id-1" sample_context "step" "t" (JObj [("a", JNum 1)]) JNull.
Lemma evidence_contiguous_witness :
  exists db', recordSideEffectReadbackEvidence (L := code_unit_locale) (H := toy_hash) "id-1" (JNum 7) D_UNKNOWN
    (snd sample_intent) = Ok db' /\ ledger_wf (L := code_unit_locale) (H := toy_hash) db' /\
    evidence db' !! (("id-1", 1), 1) = Some {| ev_type := "INDEPENDENT_READBACK"; ev_payload := JNum 7;
      ev_digest := digest (L := code_unit_locale) (H := toy_hash) (JNum 7) |}.
Proof.
  apply (@evidence_contiguous code_unit_locale toy_hash (snd sample_intent) sample_row
    {| st_status := INTENT_RECORDED; st_last_evidence := 0; st_version := 1 |} (JNum 7) D_UNKNOWN).
  - apply star_one. apply (@step_intent code_unit_locale toy_hash "id-1" sample_context "step" "t"
      (JObj [("a", JNum 1)]) JNull empty_db (fst sample_intent)). vm_compute. reflexivity.
  - vm_compute. left. reflexivity.
  - vm_compute. reflexivity.
  - reflexivity.
Defined.
