(* ===== verification/Database.v ===== *)
(** * Transactions, sequences, advisory keys and lock order

    [packages/database/src/index.ts] and the recovery barrier of
    [packages/domain/src/recovery-authority.ts].  A client is the log of what
    it was asked, and a server that answers each statement given that log, so
    every statement of the code may fail. *)
From Stdlib Require Import Ascii String.
From S2P Require Import Prelude Bytes Json Digest IpcFrame AuditChain.

(** ** Transaction profiles *)

Inductive TransactionProfileId :=
| ONLINE_MUTATION | WORKER_COMMIT | ACTIVATION_SWITCH | CONSISTENT_READ | CLOSURE_SNAPSHOT | SERIALIZABLE_PREDICATE.
Inductive isolation_level := READ_COMMITTED | REPEATABLE_READ | SERIALIZABLE.
Definition isolation_name (i : isolation_level) : string :=
  match i with
  | READ_COMMITTED => "READ COMMITTED" | REPEATABLE_READ => "REPEATABLE READ" | SERIALIZABLE => "SERIALIZABLE"
  end.
Record TransactionProfile := {
  isolation : isolation_level;
  readOnly : bool;
  deferrable : bool;
  lockTimeout : string;
  statementTimeout : string;
  idleTimeout : string;
}.
(** [TRANSACTION_PROFILES] *)
Definition TRANSACTION_PROFILES (id : TransactionProfileId) : TransactionProfile :=
  match id with
  | ONLINE_MUTATION => {| isolation := READ_COMMITTED; readOnly := false; deferrable := false;
      lockTimeout := "1500ms"; statementTimeout := "10s"; idleTimeout := "10s" |}
  | WORKER_COMMIT => {| isolation := READ_COMMITTED; readOnly := false; deferrable := false;
      lockTimeout := "3000ms"; statementTimeout := "15s"; idleTimeout := "15s" |}
  | ACTIVATION_SWITCH => {| isolation := READ_COMMITTED; readOnly := false; deferrable := false;
      lockTimeout := "5000ms"; statementTimeout := "30s"; idleTimeout := "30s" |}
  | CONSISTENT_READ => {| isolation := REPEATABLE_READ; readOnly := true; deferrable := false;
      lockTimeout := "3000ms"; statementTimeout := "60s"; idleTimeout := "60s" |}
  | CLOSURE_SNAPSHOT => {| isolation := SERIALIZABLE; readOnly := true; deferrable := true;
      lockTimeout := "5000ms"; statementTimeout := "120s"; idleTimeout := "120s" |}
  | SERIALIZABLE_PREDICATE => {| isolation := SERIALIZABLE; readOnly := false; deferrable := false;
      lockTimeout := "3000ms"; statementTimeout := "15s"; idleTimeout := "15s" |}
  end.

(** ** Clients *)

Inductive event := Query (sql : string) | Release.
Abbreviation history := (list event).

Section Transactions.
(** The server: whether a statement succeeds, given what came before. *)
Context (server : history -> string -> result unit).

Definition query (sql : string) (h : history) : result unit * history := (server h sql, h ++ [Query sql]).
(** Statements in order, up to the first that fails. *)
Fixpoint queries (l : list string) (h : history) : result unit * history :=
  match l with
  | [] => (Ok tt, h)
  | sql :: l => match query sql h with (Ok _, h') => queries l h' | (Throw e, h') => (Throw e, h') end
  end.

Definition setup_statements (p : TransactionProfile) : list string :=
  ["BEGIN"; "SET TRANSACTION ISOLATION LEVEL " +:+ isolation_name (isolation p)]
  ++ (if readOnly p then ["SET TRANSACTION READ ONLY"] else [])
  ++ (if deferrable p then ["SET TRANSACTION DEFERRABLE"] else [])
  ++ ["SET LOCAL lock_timeout = '" +:+ lockTimeout p +:+ "'";
      "SET LOCAL statement_timeout = '" +:+ statementTimeout p +:+ "'";
      "SET LOCAL idle_in_transaction_session_timeout = '" +:+ idleTimeout p +:+ "'";
      "SET LOCAL application_name = 'kcml-transaction'"].

(** The body of a transaction issues statements of its own. *)
Abbreviation body_of A := (history -> result A * history).

(** [try { setup; body; COMMIT } catch { ROLLBACK; rethrow } finally { release }] *)
Definition run_transaction {A} (setup : list string) (body : body_of A) (h : history) : result A * history :=
  let '(r, h1) :=
    match queries setup h with
    | (Throw e, h1) => (Throw e, h1)
    | (Ok _, h1) =>
        match body h1 with
        | (Throw e, h2) => (Throw e, h2)
        | (Ok v, h2) => match query "COMMIT" h2 with (Throw e, h3) => (Throw e, h3) | (Ok _, h3) => (Ok v, h3) end
        end
    end in
  match r with
  | Ok v => (Ok v, h1 ++ [Release])
  | Throw e => let '(_, h2) := query "ROLLBACK" h1 in (Throw e, h2 ++ [Release])
  end.

(** [connect]: the outcome of [pool.connect()]; every transaction has a
    client of its own. *)
Definition inTransactionProfile {A} (connect : result unit) (id : TransactionProfileId) (body : body_of A)
    : result A * history :=
  match connect with
  | Throw e => (Throw e, [])
  | Ok _ => run_transaction (setup_statements (TRANSACTION_PROFILES id)) body []
  end.

Definition profile_of_isolation (i : isolation_level) : TransactionProfileId :=
  match i with
  | READ_COMMITTED => ONLINE_MUTATION | REPEATABLE_READ => CONSISTENT_READ | SERIALIZABLE => SERIALIZABLE_PREDICATE
  end.
Definition inTransaction {A} (connect : result unit) (i : isolation_level) (body : body_of A) : result A * history :=
  inTransactionProfile connect (profile_of_isolation i) body.

Definition inSerializableReadOnlyDeferrable {A} (connect : result unit) (body : body_of A) : result A * history :=
  match connect with
  | Throw e => (Throw e, [])
  | Ok _ => run_transaction ["BEGIN"; "SET TRANSACTION ISOLATION LEVEL SERIALIZABLE, READ ONLY, DEFERRABLE";
                             "SET LOCAL lock_timeout = '5s'"; "SET LOCAL idle_in_transaction_session_timeout = '15s'"] body []
  end.
End Transactions.

(** ** Serializable retry *)

(** [String(error.code)] of a thrown value, or the empty string *)
Definition error_code (e : exn) : string :=
  match e with PgError c => c | KcipErr c _ => c | DomainErr c _ => c | _ => "" end.
Definition retryable (e : exn) : bool := existsb (String.eqb (error_code e)) ["40001"; "40P01"].

(** The loop of [withSerializableRetry] from [attempt] on, with [n] attempts
    left; [run i] is the transaction of attempt [i].  Also returns the waits
    in milliseconds. *)
Fixpoint retry_from {A} (run : Z -> result A) (attempt : Z) (n : nat) (lastError : exn) : result A * list Z :=
  match n with
  | O => (Throw lastError, [])
  | S n =>
      match run attempt with
      | Ok v => (Ok v, [])
      | Throw e =>
          if negb (retryable e) || (n =? 0)%nat then (Throw e, [])
          else let '(r, waits) := retry_from run (attempt + 1) n e in (r, 15 * attempt * attempt :: waits)
      end
  end.
Definition withSerializableRetry {A} (run : Z -> result A) (maxAttempts : Z) : result A * list Z :=
  retry_from run 1 (Z.to_nat maxAttempts) (JsError "undefined").

(** ** Contiguous sequences ([kcml.sequence_allocator]) *)

Abbreviation sequence_key := (string * string * string)%type.
Abbreviation allocator := (gmap sequence_key Z).

Definition allocateContiguousSequence (k : sequence_key) (t : allocator) : result (Z * allocator) :=
  let t := match t !! k with Some _ => t | None => <[k := 0]> t end in
  last ← or_throw (t !! k) (JsError "SEQUENCE_ALLOCATOR_FAILED");
  _ ← throw_if (last + 1 >? max_bigint) (PgError "22003");
  Ok (last + 1, <[k := last + 1]> t).

(** ** Advisory keys *)

Definition ADVISORY_NAMESPACE_IDS : list (string * Z) :=
  [("BOOTSTRAP_SINGLETON", 1001); ("COMPONENT_CODE", 1010); ("SECRET_STABLE_NAME", 1020); ("IDEMPOTENCY_SCOPE", 1030);
   ("CONCURRENCY_CLAIM", 1040); ("ACTIVATION_DOMAIN", 1050); ("BROWSER_CONTROL", 1060); ("CLEANUP_REMEDIATION", 1070);
   ("SCHEDULE_OCCURRENCE", 1080); ("INBOUND_EVENT", 1090); ("SCHEMA_MIGRATION", 1100); ("PLATFORM_RECOVERY_BARRIER", 1110)].

Section Advisory.
Context `{H : Hash}.
(** [buffer.readInt32BE(0)] *)
Definition read_int32 (b : list Z) : Z :=
  let u := read_uint 0 4 b in if u >=? 2 ^ 31 then u - 2 ^ 32 else u.

Definition advisoryKey (namespace identity : string) : result (Z * Z) :=
  id ← or_throw (get_prop namespace ADVISORY_NAMESPACE_IDS) (JsError ("ADVISORY_NAMESPACE_INVALID:" +:+ namespace));
  let digest := hash (utf8 (namespace +:+ String (char_of 0) EmptyString +:+ identity)) in
  Ok (id, read_int32 digest).

(** ** The global lock order *)

Inductive LockClass :=
| ADVISORY | PLATFORM | DEPLOYMENT | OWNER_CREDENTIAL | ACTIVATION_HEAD | IDEMPOTENCY | ACTIVATION_DOMAIN
| AGGREGATE | CONCURRENCY | SEQUENCE | CHILD | QUEUE | OUTBOX | INBOX | AUDIT.
Definition LOCK_CLASS_ORDER (c : LockClass) : Z :=
  match c with
  | ADVISORY => 10 | PLATFORM => 20 | DEPLOYMENT => 21 | OWNER_CREDENTIAL => 22 | ACTIVATION_HEAD => 23
  | IDEMPOTENCY => 30 | ACTIVATION_DOMAIN => 40 | AGGREGATE => 50 | CONCURRENCY => 60 | SEQUENCE => 70
  | CHILD => 80 | QUEUE => 90 | OUTBOX => 91 | INBOX => 92 | AUDIT => 100
  end.
Definition lock_class_name (c : LockClass) : string :=
  match c with
  | ADVISORY => "ADVISORY" | PLATFORM => "PLATFORM" | DEPLOYMENT => "DEPLOYMENT" | OWNER_CREDENTIAL => "OWNER_CREDENTIAL"
  | ACTIVATION_HEAD => "ACTIVATION_HEAD" | IDEMPOTENCY => "IDEMPOTENCY" | ACTIVATION_DOMAIN => "ACTIVATION_DOMAIN"
  | AGGREGATE => "AGGREGATE" | CONCURRENCY => "CONCURRENCY" | SEQUENCE => "SEQUENCE" | CHILD => "CHILD"
  | QUEUE => "QUEUE" | OUTBOX => "OUTBOX" | INBOX => "INBOX" | AUDIT => "AUDIT"
  end.

Record LockOrderGuard := {
  lastOrder : Z;
  lastKey : string;
  acquired : list (LockClass * string);
}.
Definition new_guard : LockOrderGuard := {| lastOrder := -1; lastKey := ""; acquired := [] |}.

Definition acquire (g : LockOrderGuard) (lock : LockClass * string) : result LockOrderGuard :=
  let '(c, key) := lock in
  let order := LOCK_CLASS_ORDER c in
  _ ← throw_if ((order <? lastOrder g) || ((order =? lastOrder g) && str_ltb key (lastKey g)))
        (JsError ("LOCK_ORDER_VIOLATION:" +:+ lock_class_name c +:+ ":" +:+ key +:+ ":after:" +:+ lastKey g));
  Ok {| lastOrder := order; lastKey := key; acquired := acquired g ++ [(c, key)] |}.

(** The guard is asked before the statement is sent, and keeps the lock even when the statement fails. *)
Definition send_guarded (server : history -> string -> result unit) (guarded : result LockOrderGuard)
    (g : LockOrderGuard) (sql : string) (h : history) : result unit * LockOrderGuard * history :=
  match guarded with
  | Throw e => (Throw e, g, h)
  | Ok g' => let '(r, h') := query server sql h in (r, g', h')
  end.
Definition lockAdvisoryOrdered server (g : LockOrderGuard) (namespace identity : string) (h : history)
    : result unit * LockOrderGuard * history :=
  send_guarded server
    (k ← advisoryKey namespace identity; acquire g (ADVISORY, dec (fst k) +:+ ":" +:+ dec (snd k)))
    g "SELECT pg_advisory_xact_lock($1, $2)" h.
(** [sql] locks the rows the key names, in the mode its FOR clause says. *)
Definition lockRowsOrdered server (g : LockOrderGuard) (lockClass : LockClass) (key sql : string) (h : history)
    : result unit * LockOrderGuard * history :=
  send_guarded server (acquire g (lockClass, key)) g sql h.
End Advisory.

(** ** The recovery barrier *)

(** The joined row of the recovery, incarnation and deployment heads. *)
Record recovery_row := {
  database_start_identity : list Z;
  current_database_start_identity : list Z;
  rec_incarnation : string;
  current_incarnation : string;
  application_deployment_epoch : Z;
  current_epoch : Z;
  recovery_epoch : Z;
  recovery_fencing_token : Z;
  rec_state : string;
}.
Record RecoveryAuthorityHead := {
  ah_incarnation : string; ah_current_epoch : Z; ah_recovery_epoch : Z; ah_fencing_token : Z;
}.
Definition lockAndVerifyPlatformRecovery (row : option recovery_row) : result RecoveryAuthorityHead :=
  r ← or_throw row (DomainErr "PLATFORM_RECOVERY_IN_PROGRESS" "Platform recovery authority head is missing");
  let identityCurrent := bool_decide (database_start_identity r = current_database_start_identity r) in
  let lineageCurrent := String.eqb (rec_incarnation r) (current_incarnation r)
                        && (application_deployment_epoch r =? current_epoch r) in
  _ ← throw_if (negb (String.eqb (rec_state r) "READY") || negb identityCurrent || negb lineageCurrent)
        (DomainErr "PLATFORM_RECOVERY_IN_PROGRESS"
          "Authoritative write is fail-closed until current database recovery and inventory reconciliation reach READY");
  Ok {| ah_incarnation := rec_incarnation r; ah_current_epoch := current_epoch r;
        ah_recovery_epoch := recovery_epoch r; ah_fencing_token := recovery_fencing_token r |}.

(** ** The compiled schema contract *)

Record contract_column := { col_name : string; col_notNull : option bool }.
Record CompiledSchemaContract := { tableName : string; columns : list contract_column }.
Record actual_column := { table_name : string; column_name : string; nullable : bool }.
Record integrity_counts := { n_constraints : Z; n_indexes : Z; n_triggers : Z; n_routines : Z }.
Record singleton_counts := {
  owner_count : Z; credential_count : Z; incarnation_count : Z; deployment_count : Z; audit_count : Z; extensions_ok : bool;
}.

(** [actualColumns]: per table, per column, whether it is nullable *)
Abbreviation column_map := (gmap string (gmap string bool)).
Definition add_column (m : column_map) (row : actual_column) : column_map :=
  <[table_name row := <[column_name row := nullable row]> (default ∅ (m !! table_name row))]> m.
Definition actual_columns (rows : list actual_column) : column_map := fold_left add_column rows ∅.

Record contract_defects := { missingTables : list string; missingColumns : list string; nullabilityMismatches : list string }.
Definition check_column (t : string) (cols : gmap string bool) (d : contract_defects) (c : contract_column) : contract_defects :=
  let name := t +:+ "." +:+ col_name c in
  match cols !! col_name c with
  | None => {| missingTables := missingTables d; missingColumns := missingColumns d ++ [name];
               nullabilityMismatches := nullabilityMismatches d |}
  | Some null =>
      if bool_decide (col_notNull c = Some true) && null
      then {| missingTables := missingTables d; missingColumns := missingColumns d;
              nullabilityMismatches := nullabilityMismatches d ++ [name] |}
      else d
  end.
Definition check_table (m : column_map) (d : contract_defects) (r : CompiledSchemaContract) : contract_defects :=
  match m !! tableName r with
  | None => {| missingTables := missingTables d ++ [tableName r]; missingColumns := missingColumns d;
               nullabilityMismatches := nullabilityMismatches d |}
  | Some cols => fold_left (check_column (tableName r) cols) (columns r) d
  end.
Definition find_defects (records : list CompiledSchemaContract) (rows : list actual_column) : contract_defects :=
  fold_left (check_table (actual_columns rows)) records
    {| missingTables := []; missingColumns := []; nullabilityMismatches := [] |}.

(** [fingerprint]: the outcome of [databaseSchemaFingerprint] *)
Definition verifyDatabaseContract (records : option (list CompiledSchemaContract)) (rows : list actual_column)
    (i : integrity_counts) (s : option singleton_counts) (fingerprint : result (list Z)) : result unit :=
  records ← or_throw (match records with Some (_ :: _) => records | _ => None end)
              (JsError "DATABASE_COMPILED_SCHEMA_CONTRACT_MISSING");
  let d := find_defects records rows in
  let is_one f := match s with Some s => f s =? 1 | None => false end in
  let checks := [is_one owner_count; is_one credential_count; is_one incarnation_count; is_one deployment_count;
                 is_one audit_count; match s with Some s => extensions_ok s | None => false end;
                 (length (missingTables d) =? 0)%nat; (length (missingColumns d) =? 0)%nat;
                 (length (nullabilityMismatches d) =? 0)%nat;
                 n_constraints i >? 0; n_indexes i >? 0; n_triggers i >? 0; n_routines i >? 0] in
  _ ← throw_if (existsb negb checks) (JsError "Database contract failed");
  _ ← fingerprint;
  Ok tt.

(** ** Theory *)

(** What a transaction body may do with its client: issue statements other
    than the transaction's own. *)
Definition plain_event (e : event) : bool :=
  match e with Query sql => negb (String.eqb sql "COMMIT") && negb (String.eqb sql "ROLLBACK") | Release => false end.
Definition plain_body {A} (body : history -> result A * history) : Prop :=
  forall h, exists w, snd (body h) = h ++ w /\ forallb plain_event w = true.

Definition is_release (e : event) : bool := match e with Release => true | Query _ => false end.
Definition releases (h : history) : nat := length (List.filter is_release h).

Section TransactionTheory.
Context (server : history -> string -> result unit).

(** A COMMIT in [h] that the server acknowledged. *)
Definition committed (h : history) : Prop :=
  exists h1 h2, h = h1 ++ Query "COMMIT" :: h2 /\ server h1 "COMMIT" = Ok tt.

Lemma queries_log l h : exists w, snd (queries server l h) = h ++ map Query w /\ w `prefix_of` l.
Proof.
  revert h; induction l as [|sql l IH]; intros h; cbn.
  - exists []. by rewrite app_nil_r.
  - destruct (server h sql) as [u|e]; cbn.
    + destruct (IH (h ++ [Query sql])) as (w & -> & Hw). exists (sql :: w). split; [by rewrite <- app_assoc|].
      by apply prefix_cons.
    + exists [sql]. split; [done|]. apply prefix_cons, prefix_nil.
Qed.

(** Statements of the transaction itself come after the plain ones. *)
Lemma plain_skip w t h1 x h2 :
  forallb plain_event w = true -> plain_event x = false -> w ++ t = h1 ++ x :: h2 ->
  exists t1, t = t1 ++ x :: h2 /\ h1 = w ++ t1.
Proof.
  revert h1; induction w as [|a w IH]; intros [|b h1] Hw Hx E; cbn in *.
  - by exists [].
  - by exists (b :: h1).
  - injection E as -> E. by rewrite Hx in Hw.
  - apply andb_true_iff in Hw as [Ha Hw]. injection E as <- E.
    destruct (IH h1 Hw Hx E) as (t1 & -> & ->). by exists t1.
Qed.

Lemma releases_app h k : releases (h ++ k) = (releases h + releases k)%nat.
Proof. unfold releases. by rewrite List.filter_app, length_app. Qed.
Lemma plain_releases w : forallb plain_event w = true -> releases w = 0%nat.
Proof. induction w as [|[sql|] w IH]; cbn; [done| |done]. by intros [_ ?%IH]%andb_true_iff. Qed.

Definition plain_setup (setup : list string) : Prop := forallb plain_event (map Query setup) = true.
Lemma plain_prefix w setup : plain_setup setup -> w `prefix_of` setup -> forallb plain_event (map Query w) = true.
Proof. unfold plain_setup. intros Hs [z ->]. rewrite map_app, forallb_app in Hs. by apply andb_true_iff in Hs as [? _]. Qed.

(** The log of a transaction: plain statements, then COMMIT if the body
    returned, then ROLLBACK if anything was thrown, then the release. *)
Lemma run_transaction_log {A} setup (body : history -> result A * history) r h :
  plain_setup setup -> plain_body body -> run_transaction server setup body [] = (r, h) ->
  exists w, forallb plain_event w = true /\
    ((exists v, r = Ok v /\ server w "COMMIT" = Ok tt /\ h = w ++ [Query "COMMIT"; Release]) \/
     (exists e, r = Throw e /\ h = w ++ [Query "ROLLBACK"; Release]) \/
     (exists e, r = Throw e /\ server w "COMMIT" = Throw e /\ h = w ++ [Query "COMMIT"; Query "ROLLBACK"; Release])).
Proof.
  intros Hs Hb. unfold run_transaction. pose proof (queries_log setup []) as (w & Ew & Hw).
  apply (plain_prefix w setup Hs) in Hw. cbn in Ew.
  destruct (queries server setup []) as [[u|e] h1]; cbn in Ew; subst h1.
  - destruct (Hb (map Query w)) as (w' & Ew' & Hw'). destruct (body (map Query w)) as [[v|e] h2]; cbn in Ew'; subst h2.
    + assert (Hp : forallb plain_event (map Query w ++ w') = true) by (by rewrite forallb_app, Hw, Hw').
      unfold query. destruct (server (map Query w ++ w') "COMMIT") as [[]|e] eqn:Ec; intros [= <- <-];
        exists (map Query w ++ w'); (split; [done|]).
      * left. exists v. by rewrite <- app_assoc.
      * right. right. exists e. by rewrite <- !app_assoc.
    + intros [= <- <-]. exists (map Query w ++ w'). rewrite forallb_app, Hw, Hw'. split; [done|].
      right. left. exists e. by rewrite <- !app_assoc.
  - intros [= <- <-]. exists (map Query w). split; [done|]. right. left. exists e. by rewrite <- app_assoc.
Qed.

Lemma committed_tail w t :
  forallb plain_event w = true -> committed (w ++ t) ->
  exists t1 t2, t = t1 ++ Query "COMMIT" :: t2 /\ server (w ++ t1) "COMMIT" = Ok tt.
Proof.
  intros Hw (h1 & h2 & E & Hc). apply plain_skip in E as (t1 & -> & ->); [|done|done]. by exists t1, h2.
Qed.
End TransactionTheory.

Lemma setup_plain id : plain_setup (setup_statements (TRANSACTION_PROFILES id)).
Proof. by destruct id. Qed.

(** *** Retry *)

Lemma retry_from_spec {A} (run : Z -> result A) n : forall a last r waits,
  (0 < n)%nat -> retry_from run a n last = (r, waits) ->
  exists k, (k < n)%nat /\ r = run (a + Z.of_nat k) /\
    waits = map (fun i => 15 * (a + Z.of_nat i) * (a + Z.of_nat i)) (seq 0 k) /\
    (forall i, (i < k)%nat -> exists e, run (a + Z.of_nat i) = Throw e /\ retryable e = true) /\
    (forall e, r = Throw e -> retryable e = false \/ S k = n).
Proof.
  induction n as [|n IH]; intros a last r waits Hn; [lia|]. cbn [retry_from].
  destruct (run a) as [v|e] eqn:Er.
  - intros [= <- <-]. exists 0%nat. rewrite Z.add_0_r, Er. split_and!; first [done|lia|intros; lia].
  - destruct (retryable e) eqn:Ee; cbn [negb orb].
    + destruct (Nat.eqb_spec n 0) as [->|Hn0].
      * intros [= <- <-]. exists 0%nat. rewrite Z.add_0_r, Er. split_and!; first [done|lia|by right|intros; lia].
      * destruct (retry_from run (a + 1) n e) as [r' w'] eqn:Er'. intros [= <- <-].
        apply IH in Er' as (k & Hk & -> & -> & Hbefore & Hlast); [|lia]. exists (S k).
        replace (a + Z.of_nat (S k)) with (a + 1 + Z.of_nat k) by lia. split_and!; [lia|done| | |].
        -- cbn [seq map]. f_equal; [by rewrite Z.add_0_r|]. rewrite <- seq_shift, map_map. apply map_ext.
           intros i. replace (a + Z.of_nat (S i)) with (a + 1 + Z.of_nat i) by lia. done.
        -- intros [|i] Hi; [exists e; by rewrite Z.add_0_r|].
           replace (a + Z.of_nat (S i)) with (a + 1 + Z.of_nat i) by lia. apply Hbefore. lia.
        -- intros e' He'. destruct (Hlast e' He'); [by left|right; lia].
    + intros [= <- <-]. exists 0%nat. rewrite Z.add_0_r, Er. split_and!; first [done|lia|intros ? [= <-]; by left|intros; lia].
Qed.

(** *** Sequences *)

Lemma allocate_Ok k t n t' :
  allocateContiguousSequence k t = Ok (n, t') ->
  n = default 0 (t !! k) + 1 /\ t' !! k = Some n /\ forall k', k' <> k -> t' !! k' = t !! k'.
Proof.
  unfold allocateContiguousSequence. intros Ha. destruct (t !! k) as [x|] eqn:E.
  - inv_ok. rewrite E in *. injection Hok as <-. inversion Ha; subst. split_and!; [done|by rewrite lookup_insert_eq|].
    intros k' Hk. by rewrite lookup_insert_ne.
  - inv_ok. rewrite lookup_insert_eq in Hok. injection Hok as <-. inversion Ha; subst.
    split_and!; [done|by rewrite lookup_insert_eq|]. intros k' Hk. by rewrite !lookup_insert_ne.
Qed.

(** Repeated allocation from one sequence. *)
Fixpoint allocate_many (k : sequence_key) (n : nat) (t : allocator) : result (list Z * allocator) :=
  match n with
  | O => Ok ([], t)
  | S n => '(x, t1) ← allocateContiguousSequence k t; '(xs, t2) ← allocate_many k n t1; Ok (x :: xs, t2)
  end.
Lemma allocate_many_contiguous k n t xs t' :
  allocate_many k n t = Ok (xs, t') -> xs = seqZ (default 0 (t !! k) + 1) (Z.of_nat n).
Proof.
  revert t xs t'; induction n as [|n IH]; intros t xs t'; cbn [allocate_many].
  - by intros [= <- <-].
  - intros ([x t1] & H1 & H2)%bind_Ok_inv. apply bind_Ok_inv in H2 as ([ys t2] & H2 & H3). injection H3 as <- <-.
    apply allocate_Ok in H1 as (-> & Hk & _). apply IH in H2 as ->. rewrite Hk. cbn [default].
    rewrite (seqZ_cons (default 0 (t !! k) + 1)) by lia. f_equal. f_equal; lia.
Qed.

(** *** Lock order *)

Definition lock_le (a b : LockClass * string) : Prop :=
  LOCK_CLASS_ORDER (fst a) < LOCK_CLASS_ORDER (fst b) \/
  (LOCK_CLASS_ORDER (fst a) = LOCK_CLASS_ORDER (fst b) /\ str_leb (snd a) (snd b) = true).

#[export] Instance lock_le_refl : Reflexive lock_le.
Proof. intros a. right. split; [done|apply str_leb_refl]. Qed.
#[export] Instance lock_le_trans : Transitive lock_le.
Proof.
  intros a b c [H1|[H1 K1]] [H2|[H2 K2]]; [left; lia|left; lia|left; lia|right]. split; [lia|]. by eapply str_leb_trans.
Qed.
Lemma LOCK_CLASS_ORDER_inj c d : LOCK_CLASS_ORDER c = LOCK_CLASS_ORDER d -> c = d.
Proof. by destruct c, d. Qed.
#[export] Instance lock_le_antisym : AntiSymm eq lock_le.
Proof.
  intros [c k] [d l] [H1|[H1 K1]] [H2|[H2 K2]]; cbn in *; try lia.
  f_equal; [by apply LOCK_CLASS_ORDER_inj|by apply str_leb_antisym].
Qed.

(** The guard remembers the greatest lock it has accepted. *)
Definition guard_inv (g : LockOrderGuard) : Prop :=
  (acquired g = [] /\ g = new_guard) \/
  exists c, lastOrder g = LOCK_CLASS_ORDER c /\ Forall (fun l => lock_le l (c, lastKey g)) (acquired g).

Lemma acquire_Ok g l g' :
  guard_inv g -> acquire g l = Ok g' -> guard_inv g' /\ Forall (fun h => lock_le h l) (acquired g).
Proof.
  destruct l as [c k]. intros Hg Ha. unfold acquire in Ha. inv_ok. reflect_bools. subst g'.
  assert (Hall : Forall (fun h => lock_le h (c, k)) (acquired g)).
  { destruct Hg as [[-> _]|(d & Hd & Hf)]; [constructor|]. eapply Forall_impl; [exact Hf|]. intros h Hh.
    transitivity (d, lastKey g); [done|]. unfold lock_le. cbn. rewrite <- Hd.
    destruct (Z.eqb_spec (LOCK_CLASS_ORDER c) (lastOrder g)) as [E|E]; [|left; lia].
    right. split; [done|]. match goal with X : _ && _ = false |- _ => cbn in X; unfold str_ltb in X; by apply negb_false_iff in X end. }
  split; [|done]. right. exists c. split; [done|]. cbn. apply Forall_app. split; [done|]. by apply Forall_singleton.
Qed.

Lemma guard_reachable locks g : fold_result acquire new_guard locks = Ok g -> guard_inv g.
Proof.
  apply (fold_result_inv guard_inv); [|by left]. intros s x s' Hs Ha. by apply acquire_Ok in Ha as [? _].
Qed.

(** The row lock modes of the database, by growing strength. *)
Inductive lock_mode := FOR_KEY_SHARE | FOR_SHARE | FOR_NO_KEY_UPDATE | FOR_UPDATE.
Definition strength (m : lock_mode) : Z :=
  match m with FOR_KEY_SHARE => 1 | FOR_SHARE => 2 | FOR_NO_KEY_UPDATE => 3 | FOR_UPDATE => 4 end.
Definition weaker (a b : lock_mode) : Prop := strength a < strength b.

(** What the code relies on of the database's lock table: a stronger mode conflicts with whatever a
    weaker one does, and the strongest excludes itself. *)
Class LockTable := {
  conflicts : lock_mode -> lock_mode -> bool;
  conflicts_stronger : forall a b c, conflicts a c = true -> ~ weaker b a -> conflicts b c = true;
  conflicts_update : conflicts FOR_UPDATE FOR_UPDATE = true;
}.

(** A call of [lockAdvisoryOrdered] with its computed key, or of [lockRowsOrdered] with the mode of its statement;
    [lockRowsOrdered] takes every class but [ADVISORY]. *)
Inductive lock_request :=
| AdvisoryLock (key : Z * Z)
| RowLock (c : LockClass) (not_advisory : c <> ADVISORY) (key : string) (mode : lock_mode).
Definition lock_of (r : lock_request) : LockClass * string :=
  match r with
  | AdvisoryLock k => (ADVISORY, dec (fst k) +:+ ":" +:+ dec (snd k)) | RowLock c _ key _ => (c, key)
  end.
(** [pg_advisory_xact_lock] is exclusive. *)
Definition mode_of (r : lock_request) : lock_mode := match r with AdvisoryLock _ => FOR_UPDATE | RowLock _ _ _ m => m end.

(** A transaction waiting for the lock it asked for last, holding those it asked for before. *)
Record txn := { txn_id : Z; granted : list lock_request; wanted : lock_request }.
(** All of them passed its guard, in this order. *)
Definition legal (t : txn) : Prop := is_Ok (fold_result acquire new_guard (map lock_of (granted t ++ [wanted t]))) = true.
Definition holds (t : txn) (l : LockClass * string) (m : lock_mode) : Prop :=
  exists r, r ∈ granted t /\ lock_of r = l /\ mode_of r = m.

Section Deadlock.
Context `{T : LockTable}.
Definition waits_for (t u : txn) : Prop :=
  txn_id t <> txn_id u /\ exists m, holds u (lock_of (wanted t)) m /\ conflicts (mode_of (wanted t)) m = true.
(** The database grants two transactions no conflicting locks. *)
Definition compatible (t u : txn) : Prop :=
  txn_id t <> txn_id u -> forall l m n, holds t l m -> holds u l n -> conflicts m n = false.

Lemma acquire_all_acquired locks g g' :
  fold_result acquire g locks = Ok g' -> acquired g' = acquired g ++ locks.
Proof.
  revert g; induction locks as [|[c k] locks IH]; intros g; cbn [fold_result].
  - intros [= ->]. by rewrite app_nil_r.
  - intros (g1 & H1 & ->%IH)%bind_Ok_inv. unfold acquire in H1. inv_ok. subst g1. cbn. by rewrite <- app_assoc.
Qed.

Lemma waits_for_le t u : legal u -> waits_for t u -> lock_le (lock_of (wanted t)) (lock_of (wanted u)).
Proof.
  unfold legal. rewrite map_app, fold_result_app. intros Hl (_ & m & (r & Hr & E & _) & _).
  destruct (fold_result acquire new_guard (map lock_of (granted u))) as [g|e] eqn:Hg; cbn [mbind result_bind] in Hl; [|done].
  cbn [map fold_result] in Hl. destruct (acquire g (lock_of (wanted u))) as [g'|e] eqn:Ha; [|done].
  apply acquire_Ok in Ha as [_ Ha]; [|by eapply guard_reachable].
  rewrite (acquire_all_acquired _ _ _ Hg) in Ha. cbn [acquired new_guard app] in Ha.
  rewrite Forall_forall in Ha. rewrite <- E. apply Ha. by apply list_elem_of_fmap_2.
Qed.

Lemma holds_advisory t k m : holds t (ADVISORY, k) m -> m = FOR_UPDATE.
Proof. intros ([key|c Hc key n] & _ & E & <-); [done|]. cbn in E. congruence. Qed.
End Deadlock.

(** What a guarded call that got its lock did to the guard. *)
Lemma lockRowsOrdered_acquires server g c key sql h g' h' :
  lockRowsOrdered server g c key sql h = (Ok tt, g', h') -> acquire g (c, key) = Ok g' /\ h' = h ++ [Query sql].
Proof. unfold lockRowsOrdered, send_guarded. destruct (acquire g (c, key)); [|done]. by intros [= _ -> <-]. Qed.

(** What [run_transaction] throws: the error of the setup, of the body, or of COMMIT; [h1] is the log before
    the ROLLBACK. *)
Definition thrown_by {A} server setup (body : history -> result A * history) (e : exn) (h1 : history) : Prop :=
  queries server setup [] = (Throw e, h1) \/
  (exists hs, queries server setup [] = (Ok tt, hs) /\ body hs = (Throw e, h1)) \/
  (exists hs v hb, queries server setup [] = (Ok tt, hs) /\ body hs = (Ok v, hb) /\
     server hb "COMMIT" = Throw e /\ h1 = hb ++ [Query "COMMIT"]).
Definition returned_by {A} server setup (body : history -> result A * history) (v : A) (h1 : history) : Prop :=
  exists hs hb, queries server setup [] = (Ok tt, hs) /\ body hs = (Ok v, hb) /\
    server hb "COMMIT" = Ok tt /\ h1 = hb ++ [Query "COMMIT"].

Lemma run_transaction_outcome server {A} setup (body : history -> result A * history) r h :
  run_transaction server setup body [] = (r, h) ->
  match r with
  | Ok v => exists h1, h = h1 ++ [Release] /\ returned_by server setup body v h1
  | Throw e => exists h1, h = h1 ++ [Query "ROLLBACK"; Release] /\ thrown_by server setup body e h1
  end.
Proof.
  unfold run_transaction, thrown_by, returned_by.
  destruct (queries server setup []) as [[[]|e] hs] eqn:Es.
  - destruct (body hs) as [[v|e] hb] eqn:Eb; unfold query.
    + destruct (server hb "COMMIT") as [[]|e] eqn:Ec; intros [= <- <-]; exists (hb ++ [Query "COMMIT"]).
      * split; [done|]. by exists hs, hb.
      * split; [by rewrite <- app_assoc|]. right. right. by exists hs, v, hb.
    + intros [= <- <-]. exists hb. split; [by rewrite <- app_assoc|]. right. left. by exists hs.
  - unfold query. intros [= <- <-]. exists hs. split; [by rewrite <- app_assoc|]. by left.
Qed.

(** ** Properties *)

(** C4. Transactions: for every server behaviour and every body that sends only statements of its own, a
    transaction that got its client hands it back exactly once, as its last act, and it returns normally exactly
    when the server acknowledged its COMMIT, with the value of the body.  Otherwise it sends ROLLBACK and throws
    the first error of the setup, the body or the COMMIT, whatever the server answers to the ROLLBACK. *)
Theorem transaction_protocol server {A} id (body : history -> result A * history) r h :
  plain_body body -> inTransactionProfile server (Ok tt) id body = (r, h) ->
  releases h = 1%nat /\ last h = Some Release /\ (is_Ok r = true <-> committed server h) /\
  match r with
  | Ok v => exists h1, h = h1 ++ [Release] /\ returned_by server (setup_statements (TRANSACTION_PROFILES id)) body v h1
  | Throw e => exists h1, h = h1 ++ [Query "ROLLBACK"; Release] /\
                 thrown_by server (setup_statements (TRANSACTION_PROFILES id)) body e h1
  end.
Proof.
  intros Hb Hr. pose proof (run_transaction_outcome _ _ _ _ _ Hr) as Ho. apply run_transaction_log in Hr as (w & Hw & [(v & -> & Hc & ->)|[(e & -> & ->)|(e & -> & Hc & ->)]]);
    [..|apply setup_plain|done]; rewrite releases_app, (plain_releases w Hw), last_app; (split; [done|]); (split; [done|]).
  - split; [|exact Ho]. split; [|done]. intros _. by exists w, [Release].
  - split; [|exact Ho]. split; [done|].
    intros (t1 & t2 & E & _)%committed_tail; [|done]. by destruct t1 as [|? [|? [|? ?]]].
  - split; [|exact Ho]. split; [done|].
    intros (t1 & t2 & E & Hc')%committed_tail; [|done].
    destruct t1 as [|? [|? [|? [|? ?]]]]; try done. rewrite app_nil_r in Hc'. congruence.
Qed.

(** C37. Serializable retry stops after at most maxAttempts runs with the outcome of its last run; every
    earlier run failed with a serialization failure or deadlock, the waits between runs grow as 15 n^2
    milliseconds, and a failure is only given up on when it is of another kind or the attempts are used up. *)
Theorem serializable_retry_spec {A} (run : Z -> result A) maxAttempts r waits :
  1 <= maxAttempts -> withSerializableRetry run maxAttempts = (r, waits) ->
  exists k, 1 <= k <= maxAttempts /\ r = run k /\
    waits = map (fun i => 15 * i * i) (seqZ 1 (k - 1)) /\
    (forall i, 1 <= i < k -> exists e, run i = Throw e /\ retryable e = true) /\
    (forall e, r = Throw e -> retryable e = false \/ k = maxAttempts).
Proof.
  intros Hm Hr. unfold withSerializableRetry in Hr.
  apply retry_from_spec in Hr as (k & Hk & -> & -> & Hb & Hl); [|lia].
  exists (1 + Z.of_nat k). split_and!; [lia|lia|done| | |].
  - unfold seqZ. rewrite <- list_fmap_compose. replace (Z.to_nat (1 + Z.of_nat k - 1)) with k by lia.
    apply map_ext. intros i. cbn. by rewrite !(Z.add_comm 1).
  - intros i Hi. replace i with (1 + Z.of_nat (Z.to_nat (i - 1))) by lia. apply Hb. lia.
  - intros e He. destruct (Hl e He); [by left|right; lia].
Qed.

(** C38. The lock order leaves one kind of deadlock: in every cycle of transactions whose locks all went through
    their guards, each waiting for a lock the next one holds in a conflicting mode, all of them want one and the
    same row lock, which each already holds in a weaker mode than it asks for.  So transactions that never ask for
    a stronger mode of a lock they hold do not deadlock, and advisory locks never take part in one. *)
Theorem lock_order_no_deadlock `{T : LockTable} (cyc : nat -> txn) n :
  (0 < n)%nat -> (forall i, cyc (i + n)%nat = cyc i) -> (forall i, legal (cyc i)) ->
  (forall i j, compatible (cyc i) (cyc j)) -> (forall i, waits_for (cyc i) (cyc (S i))) ->
  exists c key, c <> ADVISORY /\
    forall i, lock_of (wanted (cyc i)) = (c, key) /\
      exists held, holds (cyc i) (c, key) held /\ weaker held (mode_of (wanted (cyc i))).
Proof.
  intros Hn Hper Hleg Hcomp Hw.
  assert (Hle : forall k i, lock_le (lock_of (wanted (cyc i))) (lock_of (wanted (cyc (i + k)%nat)))).
  { induction k as [|k IH]; intros i; [by rewrite Nat.add_0_r|].
    transitivity (lock_of (wanted (cyc (i + k)%nat))); [apply IH|]. rewrite <- plus_n_Sm. by apply waits_for_le. }
  assert (Hall : forall i, lock_of (wanted (cyc i)) = lock_of (wanted (cyc 0%nat))).
  { induction i as [|i IH]; [done|]. rewrite <- IH. apply (anti_symm lock_le).
    - pose proof (Hle (n - 1)%nat (S i)) as Hl. replace (S i + (n - 1))%nat with (i + n)%nat in Hl by lia. by rewrite Hper in Hl.
    - pose proof (Hle 1%nat i) as Hl. by rewrite Nat.add_1_r in Hl. }
  assert (Hheld : forall i, exists held, holds (cyc i) (lock_of (wanted (cyc 0%nat))) held).
  { intros i. destruct (Hw (i + n - 1)%nat) as (_ & m & Hm & _). rewrite Hall in Hm.
    replace (S (i + n - 1)) with (i + n)%nat in Hm by lia. rewrite Hper in Hm. by exists m. }
  destruct (lock_of (wanted (cyc 0%nat))) as [c key]. exists c, key. split.
  - intros ->. destruct (Hheld 0%nat) as [m Hm]. destruct (Hw 0%nat) as (Hne & m' & Hm' & _). rewrite Hall in Hm'.
    pose proof (Hcomp _ _ Hne _ _ _ Hm Hm') as Hc. apply holds_advisory in Hm as ->. apply holds_advisory in Hm' as ->.
    by rewrite conflicts_update in Hc.
  - intros i. split; [apply Hall|]. destruct (Hheld i) as [held Hh]. exists held. split; [done|].
    destruct (Hw i) as (Hne & m & Hm & Hc). rewrite Hall in Hm. pose proof (Hcomp _ _ Hne _ _ _ Hh Hm) as Hno.
    destruct (decide (strength held < strength (mode_of (wanted (cyc i))))) as [Hlt|Hge]; [exact Hlt|].
    by rewrite (conflicts_stronger _ held _ Hc Hge) in Hno.
Qed.

(** ** Witnesses *)

Definition sample_body (h : history) : result Z * history := (Ok 5, h ++ [Query "SELECT 1"]).
Definition refusing_server (h : history) (sql : string) : result unit :=
  if String.eqb sql "COMMIT" then Throw (PgError "40001") else Ok tt.
Lemma transaction_protocol_witness :
  releases (snd (inTransactionProfile refusing_server (Ok tt) WORKER_COMMIT sample_body)) = 1%nat.
Proof.
  eapply (transaction_protocol refusing_server WORKER_COMMIT sample_body).
  - intros h. exists [Query "SELECT 1"]. split; reflexivity.
  - apply surjective_pairing.
Defined.

Definition flaky (i : Z) : result Z := if i <? 3 then Throw (PgError "40001") else Ok i.
Lemma serializable_retry_spec_witness : exists k, 1 <= k <= 4 /\ Ok 3 = flaky k /\ [15; 60] = map (fun i => 15 * i * i) (seqZ 1 (k - 1)).
Proof.
  destruct (serializable_retry_spec flaky 4 (Ok 3) [15; 60]) as (k & Hk & Hr & Hw & _).
  - lia.
  - vm_compute. reflexivity.
  - exists k. split; [exact Hk|]. split; [exact Hr|exact Hw].
Defined.

(** The conflict table of PostgreSQL's row locks. *)
Definition row_lock_conflicts (a b : lock_mode) : bool := 5 <=? strength a + strength b.
Definition postgres_locks : LockTable.
Proof.
  refine {| conflicts := row_lock_conflicts |}.
  - intros a b c. unfold row_lock_conflicts, weaker. rewrite !Z.leb_le. lia.
  - reflexivity.
Defined.

(** Two transactions that read one aggregate FOR SHARE and then ask for it FOR UPDATE. *)
Lemma aggregate_not_advisory : AGGREGATE <> ADVISORY.
Proof. discriminate. Qed.
Definition aggregate_lock (m : lock_mode) : lock_request := RowLock AGGREGATE aggregate_not_advisory "30:component" m.
Definition upgrading (id : Z) : txn := {| txn_id := id; granted := [aggregate_lock FOR_SHARE]; wanted := aggregate_lock FOR_UPDATE |}.
Definition upgrade_cycle (i : nat) : txn := upgrading (if Nat.even i then 0 else 1).

Lemma upgrading_compatible i j : @compatible postgres_locks (upgrading i) (upgrading j).
Proof.
  intros _ l m n (r & Hr & _ & <-) (r' & Hr' & _ & <-). cbn [granted upgrading] in *.
  apply list_elem_of_singleton in Hr as ->. apply list_elem_of_singleton in Hr' as ->. reflexivity.
Qed.

Lemma lock_order_no_deadlock_witness :
  @waits_for postgres_locks (upgrading 0) (upgrading 1) /\
  exists c key, c <> ADVISORY /\ forall i, lock_of (wanted (upgrade_cycle i)) = (c, key) /\
    exists held, holds (upgrade_cycle i) (c, key) held /\ weaker held (mode_of (wanted (upgrade_cycle i))).
Proof.
  assert (Hw : forall i j, i <> j -> @waits_for postgres_locks (upgrading i) (upgrading j)).
  { intros i j Hij. split; [exact Hij|]. exists FOR_SHARE. split; [|reflexivity].
    exists (aggregate_lock FOR_SHARE). split; [left|split; reflexivity]. }
  split; [apply Hw; discriminate|]. apply (@lock_order_no_deadlock postgres_locks upgrade_cycle 2).
  - lia.
  - intros i. unfold upgrade_cycle. rewrite Nat.add_comm. reflexivity.
  - intros i. reflexivity.
  - intros i j. apply upgrading_compatible.
  - intros i. unfold upgrade_cycle. rewrite Nat.even_succ, <- Nat.negb_even. apply Hw. destruct (Nat.even i); discriminate.
Defined.
