(* ===== verification/Binding.v ===== *)
(** * Exact bindings

    [packages/domain/src/binding-registry.ts]: validation of exact binding
    records, the pinning of a runtime dispatch to one record and the
    registry that holds one record of every kind. *)
From Stdlib Require Import Ascii String.
From S2P Require Import Prelude Bytes Json Digest IpcFrame IpcChannel IpcBroker.

Inductive BindingKind :=
| CONTRACT_BINDING | SECRET_BINDING | EXTERNAL_TARGET_BINDING | EXTERNAL_AUTH_BINDING | AGENT_TOOL_BINDING
| BROWSER_ACCOUNT_BINDING | BROWSER_PROFILE_ASSIGNMENT | ACTIVATION_SET_MEMBERSHIP | ROUTE_BINDING.
#[export] Instance BindingKind_eq_dec : EqDecision BindingKind.
Proof. solve_decision. Defined.
(** [bindingKinds] *)
Definition bindingKinds : list BindingKind :=
  [CONTRACT_BINDING; SECRET_BINDING; EXTERNAL_TARGET_BINDING; EXTERNAL_AUTH_BINDING; AGENT_TOOL_BINDING;
   BROWSER_ACCOUNT_BINDING; BROWSER_PROFILE_ASSIGNMENT; ACTIVATION_SET_MEMBERSHIP; ROUTE_BINDING].
Definition binding_kind_name (k : BindingKind) : string :=
  match k with
  | CONTRACT_BINDING => "CONTRACT_BINDING" | SECRET_BINDING => "SECRET_BINDING"
  | EXTERNAL_TARGET_BINDING => "EXTERNAL_TARGET_BINDING" | EXTERNAL_AUTH_BINDING => "EXTERNAL_AUTH_BINDING"
  | AGENT_TOOL_BINDING => "AGENT_TOOL_BINDING" | BROWSER_ACCOUNT_BINDING => "BROWSER_ACCOUNT_BINDING"
  | BROWSER_PROFILE_ASSIGNMENT => "BROWSER_PROFILE_ASSIGNMENT"
  | ACTIVATION_SET_MEMBERSHIP => "ACTIVATION_SET_MEMBERSHIP" | ROUTE_BINDING => "ROUTE_BINDING"
  end.
Inductive binding_lifecycle := B_ACTIVE | B_SUPERSEDED | B_RETIRED.
#[export] Instance binding_lifecycle_eq_dec : EqDecision binding_lifecycle.
Proof. solve_decision. Defined.

(** The parsed record; [null] is [None], a JSON object its members. *)
Record ExactBindingRecord := {
  recordId : string;
  sourceRelations : list json;
  canonicalName : string;
  supersedes : list string;
  supersededBy : list string;
  extensions : list (string * json);
  bindingId : string;
  bindingKind : BindingKind;
  bindingRevision : Z;
  bindingDigest : string;
  sourceObjectId : string;
  sourceRevisionId : string;
  targetObjectId : string;
  targetRevisionId : option string;
  targetOperationOrRoute : string;
  contractSchemaDigest : string;
  secretVersionSelector : option (list (string * json));
  externalTargetOrOrigin : option string;
  accountOrTenantConstraint : option (list (string * json));
  purpose : string;
  b_lifecycle : binding_lifecycle;
  bindingSetRevision : string;
  activationSetId : string;
  activationEpoch : Z;
  validFrom : option string;
  validUntil : option string;
  canonicalWriterId : string;
  targetOperationId : option string;
  routeOperationId : option string;
  contractDigest : string;
  b_requirementIds : list string;
  b_authoritySourceRefs : list string;
  b_canonicalDigest : string;
}.

(** A number of a request: a bigint, a number without fraction (a double), or a text.  Any other number
    behaves as the text [String] makes of it. *)
Inductive wire_number := WBig (z : Z) | WNum (z : Z) | WText (s : string).

(** Optional members of the request are [None] for both [undefined] and [null]. *)
Record RuntimeBindingRequest := {
  r_bindingId : string;
  r_bindingRevision : wire_number;
  r_bindingDigest : string;
  r_sourceObjectId : string;
  r_sourceRevisionId : string;
  r_targetObjectId : string;
  r_targetRevisionId : option string;
  r_targetOperationOrRoute : string;
  r_contractSchemaDigest : string;
  r_secretVersionSelector : option (list (string * json));
  r_externalTargetOrOrigin : option string;
  r_accountOrTenantConstraint : option (list (string * json));
  r_purpose : string;
  r_bindingSetRevision : string;
  r_activationSetId : string;
  r_activationEpoch : wire_number;
}.

Record RuntimeBindingPin := {
  p_bindingId : string;
  p_bindingKind : BindingKind;
  p_bindingRevision : Z;
  p_bindingDigest : string;
  p_sourceObjectId : string;
  p_sourceRevisionId : string;
  p_targetObjectId : string;
  p_targetRevisionId : option string;
  p_targetOperationOrRoute : string;
  p_contractSchemaDigest : string;
  p_secretVersionSelector : option (list (string * json));
  p_externalTargetOrOrigin : option string;
  p_accountOrTenantConstraint : option (list (string * json));
  p_purpose : string;
  p_bindingSetRevision : string;
  p_activationSetId : string;
  p_activationEpoch : Z;
}.

(** [String(value)] of the values compared *)
Definition string_of_nullable (o : option string) : string := match o with Some s => s | None => "null" end.

(** The double nearest to a natural number, ties to even. *)
Definition double_of (z : Z) : Z :=
  let e := Z.log2 z - 52 in
  if e <=? 0 then z
  else let q := z / 2 ^ e in let r := z mod 2 ^ e in
       (if (2 ^ (e - 1) <? r) || ((r =? 2 ^ (e - 1)) && Z.odd q) then q + 1 else q) * 2 ^ e.
(** The number with the fewest significant digits, from [k] on, that reads back as the double [x] of [n] digits. *)
Fixpoint shortest (fuel : nat) (k n x : Z) : Z :=
  match fuel with
  | O => x
  | S fuel =>
      let unit := 10 ^ (n - k) in
      let lo := x / unit * unit in
      let hi := lo + unit in
      if double_of lo =? x then (if (double_of hi =? x) && (hi - x <? x - lo) then hi else lo)
      else if double_of hi =? x then hi else shortest fuel (k + 1) n x
  end.
Fixpoint strip_zeros (digits : list ascii) : list ascii :=
  match digits with
  | [] => []
  | c :: l => match strip_zeros l with [] => if Ascii.eqb c "0"%char then [] else [c] | l' => c :: l' end
  end.
(** [String] of a natural number: plain digits below 1e21, else the exponent form. *)
Definition natural_text (x : Z) : string :=
  if safe_int x then dec x
  else
    let n := Z.of_nat (String.length (dec x)) in
    let v := shortest (Z.to_nat n) 1 n x in
    if v <? 10 ^ 21 then dec v
    else match strip_zeros (list_ascii_of_string (dec v)) with
         | [] => ""
         | c :: l => String c EmptyString +:+ (match l with [] => "" | _ => "." +:+ string_of_list_ascii l end)
                     +:+ "e+" +:+ dec (Z.of_nat (String.length (dec v)) - 1)
         end.
Definition number_text (x : Z) : string := if x <? 0 then "-" +:+ natural_text (- x) else natural_text x.
Definition string_of_wire (n : wire_number) : string :=
  match n with WBig z => dec z | WNum z => number_text z | WText s => s end.

Section Binding.
Context `{L : Locale} `{F : Formats}.

Definition non_empty_opt (o : option string) : bool := match o with Some s => truthy s | None => true end.
Definition datetime_opt (o : option string) : bool := match o with Some s => is_some (datetime_ms s) | None => true end.

(** [exactBindingRecordSchema] beyond the shape the record type has *)
Definition record_schema_ok (r : ExactBindingRecord) : bool :=
  truthy (recordId r) && negb (length (sourceRelations r) =? 0)%nat && truthy (canonicalName r)
  && truthy (bindingId r) && (0 <? bindingRevision r) && digest_ok (bindingDigest r)
  && truthy (sourceObjectId r) && truthy (sourceRevisionId r) && truthy (targetObjectId r)
  && non_empty_opt (targetRevisionId r) && truthy (targetOperationOrRoute r) && digest_ok (contractSchemaDigest r)
  && non_empty_opt (externalTargetOrOrigin r) && truthy (purpose r) && truthy (bindingSetRevision r)
  && truthy (activationSetId r) && (0 <=? activationEpoch r) && datetime_opt (validFrom r) && datetime_opt (validUntil r)
  && truthy (canonicalWriterId r) && non_empty_opt (targetOperationId r) && non_empty_opt (routeOperationId r)
  && digest_ok (contractDigest r)
  && negb (length (b_requirementIds r) =? 0)%nat && forallb truthy (b_requirementIds r)
  && negb (length (b_authoritySourceRefs r) =? 0)%nat && forallb truthy (b_authoritySourceRefs r)
  && digest_ok (b_canonicalDigest r).

Definition reject (code message : string) : exn := DomainErr "BINDING_REVISION_STALE" (code +:+ ": " +:+ message).

Definition has_star (s : string) : bool := includes_char "*"%char s.

(** [validateExactBindingRecord] *)
Definition validateExactBindingRecord (r : ExactBindingRecord) : result ExactBindingRecord :=
  _ ← throw_if (negb (record_schema_ok r)) ZodError;
  _ ← throw_if (has_star (bindingId r) || has_star (sourceObjectId r) || has_star (targetObjectId r))
        (reject "BINDING_WILDCARD_FORBIDDEN" "Wildcard source or target is not representable as an exact binding");
  _ ← throw_if (has_star (targetOperationOrRoute r))
        (reject "BINDING_TARGET_WILDCARD_FORBIDDEN" "Wildcard operation or route is not an exact binding");
  _ ← throw_if (bool_decide (bindingKind r = SECRET_BINDING) && negb (is_some (secretVersionSelector r)))
        (reject "BINDING_SECRET_VERSION_REQUIRED" "A secret binding must pin a version selector");
  _ ← throw_if (bool_decide (bindingKind r = BROWSER_ACCOUNT_BINDING) && negb (is_some (accountOrTenantConstraint r)))
        (reject "BINDING_ACCOUNT_CONSTRAINT_REQUIRED" "A browser account binding must pin account or tenant identity");
  _ ← throw_if (negb (truthy (activationSetId r)) || negb (truthy (bindingSetRevision r)))
        (reject "BINDING_ACTIVATION_RELATION_REQUIRED" "Every binding must be related to an activation set and binding-set revision");
  Ok r.

(** [requireEqual] on the texts of both sides *)
Definition mismatch (field : string) : exn :=
  reject ("BINDING_" +:+ to_upper field +:+ "_MISMATCH") ("Exact binding " +:+ field +:+ " does not match the server snapshot").
Definition requireEqual (field actual expected : string) : result unit :=
  throw_if (negb (String.eqb actual expected)) (mismatch field).

Definition json_of_nullable (o : option (list (string * json))) : json :=
  match o with Some m => JObj m | None => JNull end.
Definition sameJson (a b : option (list (string * json))) : bool :=
  String.eqb (canonicalJson (json_of_nullable a)) (canonicalJson (json_of_nullable b)).
Definition requireJsonEqual (field : string) (a b : option (list (string * json))) : result unit :=
  throw_if (negb (sameJson a b)) (mismatch field).

Definition pin_of (r : ExactBindingRecord) : RuntimeBindingPin :=
  {| p_bindingId := bindingId r; p_bindingKind := bindingKind r; p_bindingRevision := bindingRevision r;
     p_bindingDigest := bindingDigest r; p_sourceObjectId := sourceObjectId r; p_sourceRevisionId := sourceRevisionId r;
     p_targetObjectId := targetObjectId r; p_targetRevisionId := targetRevisionId r;
     p_targetOperationOrRoute := targetOperationOrRoute r; p_contractSchemaDigest := contractSchemaDigest r;
     p_secretVersionSelector := secretVersionSelector r; p_externalTargetOrOrigin := externalTargetOrOrigin r;
     p_accountOrTenantConstraint := accountOrTenantConstraint r; p_purpose := purpose r;
     p_bindingSetRevision := bindingSetRevision r; p_activationSetId := activationSetId r;
     p_activationEpoch := activationEpoch r |}.

(** [pinRuntimeBinding] *)
Definition pinRuntimeBinding (record : ExactBindingRecord) (q : RuntimeBindingRequest) (now : Z) : result RuntimeBindingPin :=
  r ← validateExactBindingRecord record;
  _ ← throw_if (negb (bool_decide (b_lifecycle r = B_ACTIVE)))
        (reject "BINDING_NOT_ACTIVE" "Only an active exact binding may be dispatched");
  _ ← requireEqual "id" (bindingId r) (r_bindingId q);
  _ ← requireEqual "revision" (dec (bindingRevision r)) (string_of_wire (r_bindingRevision q));
  _ ← requireEqual "digest" (bindingDigest r) (r_bindingDigest q);
  _ ← requireEqual "source_object_id" (sourceObjectId r) (r_sourceObjectId q);
  _ ← requireEqual "source_revision" (sourceRevisionId r) (r_sourceRevisionId q);
  _ ← requireEqual "target_object_id" (targetObjectId r) (r_targetObjectId q);
  _ ← requireEqual "target_revision" (string_of_nullable (targetRevisionId r)) (string_of_nullable (r_targetRevisionId q));
  _ ← requireEqual "operation_or_route" (targetOperationOrRoute r) (r_targetOperationOrRoute q);
  _ ← requireEqual "contract_schema_digest" (contractSchemaDigest r) (r_contractSchemaDigest q);
  _ ← requireEqual "purpose" (purpose r) (r_purpose q);
  _ ← requireEqual "binding_set_revision" (bindingSetRevision r) (r_bindingSetRevision q);
  _ ← requireEqual "activation_set_id" (activationSetId r) (r_activationSetId q);
  _ ← requireEqual "activation_epoch" (dec (activationEpoch r)) (string_of_wire (r_activationEpoch q));
  _ ← requireJsonEqual "secret_version" (secretVersionSelector r) (r_secretVersionSelector q);
  _ ← requireEqual "external_target" (string_of_nullable (externalTargetOrOrigin r)) (string_of_nullable (r_externalTargetOrOrigin q));
  _ ← requireJsonEqual "account_constraint" (accountOrTenantConstraint r) (r_accountOrTenantConstraint q);
  _ ← throw_if (match validFrom r with
                | Some s => truthy s && match datetime_ms s with Some t => now <? t | None => false end
                | None => false end)
        (reject "BINDING_NOT_YET_VALID" "Binding validity has not started");
  _ ← throw_if (match validUntil r with
                | Some s => truthy s && match datetime_ms s with Some t => now >=? t | None => false end
                | None => false end)
        (reject "BINDING_EXPIRED" "Binding validity has expired");
  Ok (pin_of r).

(** ** [BindingRegistry] *)

Abbreviation binding_map := (gmap string ExactBindingRecord).

Definition add_binding (m : binding_map) (r : ExactBindingRecord) : result binding_map :=
  _ ← throw_if (is_some (m !! bindingId r)) (JsError ("BINDING_ID_DUPLICATE:" +:+ bindingId r));
  Ok (<[bindingId r := r]> m).

Definition new_BindingRegistry (records : list ExactBindingRecord) : result binding_map :=
  _ ← for_each (fun r => _ ← validateExactBindingRecord r; Ok tt) records;
  m ← fold_result add_binding ∅ records;
  _ ← for_each (fun k => throw_if (negb (existsb (fun r => bool_decide (bindingKind r = k)) records))
                           (JsError ("BINDING_KIND_MISSING:" +:+ binding_kind_name k))) bindingKinds;
  Ok m.

Definition registry_get (m : binding_map) (id : string) : result ExactBindingRecord :=
  or_throw (m !! id) (DomainErr "KCIP_BINDING_NOT_ACTIVE" "Exact binding is not present in the active registry").
Definition registry_pin (m : binding_map) (q : RuntimeBindingRequest) (now : Z) : result RuntimeBindingPin :=
  r ← registry_get m (r_bindingId q); pinRuntimeBinding r q now.

(** ** Specification *)

(** [q] names [r] in every salient identity: texts are equal, the revision and the epoch have the decimal text of
    the record's, the two JSON selectors have one canonical text, and the two nullable identities are
    related by [same]. *)
Record names (same : option string -> option string -> Prop) (q : RuntimeBindingRequest) (r : ExactBindingRecord) : Prop := {
  n_id : bindingId r = r_bindingId q;
  n_revision : dec (bindingRevision r) = string_of_wire (r_bindingRevision q);
  n_digest : bindingDigest r = r_bindingDigest q;
  n_source : sourceObjectId r = r_sourceObjectId q;
  n_source_revision : sourceRevisionId r = r_sourceRevisionId q;
  n_target : targetObjectId r = r_targetObjectId q;
  n_target_revision : same (targetRevisionId r) (r_targetRevisionId q);
  n_route : targetOperationOrRoute r = r_targetOperationOrRoute q;
  n_contract : contractSchemaDigest r = r_contractSchemaDigest q;
  n_purpose : purpose r = r_purpose q;
  n_set_revision : bindingSetRevision r = r_bindingSetRevision q;
  n_activation_set : activationSetId r = r_activationSetId q;
  n_epoch : dec (activationEpoch r) = string_of_wire (r_activationEpoch q);
  n_secret : canonicalJson (json_of_nullable (secretVersionSelector r)) = canonicalJson (json_of_nullable (r_secretVersionSelector q));
  n_external : same (externalTargetOrOrigin r) (r_externalTargetOrOrigin q);
  n_account : canonicalJson (json_of_nullable (accountOrTenantConstraint r)) = canonicalJson (json_of_nullable (r_accountOrTenantConstraint q));
}.
(** Equal, or one [null] and the other the text "null". *)
Definition equal_or_null_text (a b : option string) : Prop :=
  a = b \/ (a = None /\ b = Some "null") \/ (a = Some "null" /\ b = None).
(** An exact record: no wildcard, and the selector its kind requires. *)
Record exact (r : ExactBindingRecord) : Prop := {
  x_schema : record_schema_ok r = true;
  x_no_star : Forall (fun s => has_star s = false) [bindingId r; sourceObjectId r; targetObjectId r; targetOperationOrRoute r];
  x_secret : bindingKind r = SECRET_BINDING -> is_Some (secretVersionSelector r);
  x_account : bindingKind r = BROWSER_ACCOUNT_BINDING -> is_Some (accountOrTenantConstraint r);
}.
(** [now] is in the half-open validity window. *)
Definition in_window (r : ExactBindingRecord) (now : Z) : Prop :=
  (forall s t, validFrom r = Some s -> truthy s = true -> datetime_ms s = Some t -> t <= now) /\
  (forall s t, validUntil r = Some s -> truthy s = true -> datetime_ms s = Some t -> now < t).
(** [p] is the pin of a registered record that may be dispatched now and that the request names. *)
Definition conforming same (records : list ExactBindingRecord) (q : RuntimeBindingRequest) (now : Z) (p : RuntimeBindingPin) : Prop :=
  exists r, In r records /\ exact r /\ b_lifecycle r = B_ACTIVE /\ names same q r /\ in_window r now /\ p = pin_of r.
(** No nullable identity is the text "null". *)
Definition no_null_text (records : list ExactBindingRecord) (q : RuntimeBindingRequest) : Prop :=
  Forall (fun o => o <> Some "null") (r_targetRevisionId q :: r_externalTargetOrOrigin q ::
    map targetRevisionId records ++ map externalTargetOrOrigin records).
End Binding.

(** ** Theory *)

Section BindingTheory.
Context `{L : Locale} `{F : Formats}.

Lemma is_some_iff {A} (o : option A) : is_some o = true <-> is_Some o.
Proof. unfold is_Some. destruct o; cbn; naive_solver. Qed.

Lemma seq_Ok {A} (m : result unit) (k : result A) a :
  (_ ← m; k) = Ok a <-> m = Ok tt /\ k = Ok a.
Proof. destruct m as [[]|e]; cbn; naive_solver. Qed.

Lemma requireEqual_Ok f a b : requireEqual f a b = Ok tt <-> a = b.
Proof. unfold requireEqual. by rewrite throw_if_Ok, negb_false_iff, String.eqb_eq. Qed.
Lemma requireJsonEqual_Ok f a b :
  requireJsonEqual f a b = Ok tt <-> canonicalJson (json_of_nullable a) = canonicalJson (json_of_nullable b).
Proof. unfold requireJsonEqual, sameJson. by rewrite throw_if_Ok, negb_false_iff, String.eqb_eq. Qed.
Lemma string_of_nullable_eq a b : string_of_nullable a = string_of_nullable b <-> equal_or_null_text a b.
Proof.
  unfold equal_or_null_text. destruct a as [a|], b as [b|]; cbn; split; try naive_solver.
Qed.

Lemma kind_requires {A} (k k' : BindingKind) (o : option A) :
  bool_decide (k = k') && negb (is_some o) = false <-> (k = k' -> is_Some o).
Proof.
  rewrite andb_false_iff, negb_false_iff, is_some_iff, bool_decide_eq_false.
  destruct (decide (k = k')); naive_solver.
Qed.

Lemma validate_iff r r' : validateExactBindingRecord r = Ok r' <-> exact r /\ r' = r.
Proof.
  unfold validateExactBindingRecord. rewrite !seq_Ok, !throw_if_Ok, negb_false_iff, !kind_requires, !orb_false_iff, !negb_false_iff.
  split.
  - intros (Hs & ((H1 & H2) & H3) & H4 & H5 & H6 & _ & [= <-]). split; [|done]. split; try done. repeat constructor; done.
  - intros [[Hs Hn H5 H6] ->]. repeat (apply Forall_cons in Hn as [? Hn]).
    unfold record_schema_ok in Hs. split_and!; try done; by reflect_bools.
Qed.

(** One bound of the window, as the code tests it. *)
Lemma bound_iff (o : option string) (test : Z -> bool) :
  match o with
  | Some s => truthy s && match datetime_ms s with Some t => test t | None => false end | None => false
  end = false <-> forall s t, o = Some s -> truthy s = true -> datetime_ms s = Some t -> test t = false.
Proof.
  destruct o as [s|]; [|done]. split.
  - intros Hb s' t [= <-] Ht Hd. by rewrite Ht, Hd in Hb.
  - intros Hb. destruct (truthy s) eqn:Et; [|done]. destruct (datetime_ms s) as [t|] eqn:Ed; [|done]. by apply (Hb s t).
Qed.

Lemma pin_iff r q now p :
  pinRuntimeBinding r q now = Ok p <->
  exact r /\ b_lifecycle r = B_ACTIVE /\ names equal_or_null_text q r /\ in_window r now /\ p = pin_of r.
Proof.
  unfold pinRuntimeBinding, in_window. rewrite bind_Ok_inv. split.
  - intros (r' & [Hx ->]%validate_iff & Hk). revert Hk.
    rewrite !seq_Ok, !requireEqual_Ok, !requireJsonEqual_Ok, !string_of_nullable_eq, !throw_if_Ok, negb_false_iff, bool_decide_eq_true, !bound_iff.
    setoid_rewrite Z.ltb_ge. setoid_rewrite Z.geb_leb. setoid_rewrite Z.leb_gt.
    intros (Ha & H1 & H2 & H3 & H4 & H5 & H6 & H7 & H8 & H9 & H10 & H11 & H12 & H13 & H14 & H15 & H16 & H17 & H18 & [= <-]).
    by split_and!.
  - intros (Hx & Ha & [] & [Hf Hu] & ->). exists r.
    rewrite validate_iff, !seq_Ok, !requireEqual_Ok, !requireJsonEqual_Ok, !string_of_nullable_eq, !throw_if_Ok, negb_false_iff, bool_decide_eq_true, !bound_iff.
    setoid_rewrite Z.ltb_ge. setoid_rewrite Z.geb_leb. setoid_rewrite Z.leb_gt. by split_and!.
Qed.
End BindingTheory.

Section RegistryTheory.
Context `{L : Locale} `{F : Formats}.

Lemma add_bindings_lookup records m m' :
  fold_result add_binding m records = Ok m' ->
  forall id r, m' !! id = Some r <-> m !! id = Some r \/ (In r records /\ bindingId r = id).
Proof.
  revert m; induction records as [|x records IH]; intros m; cbn [fold_result].
  - intros [= <-] id r. split; [by left|by intros [?|[[] _]]].
  - intros (m1 & H1 & H2)%bind_Ok_inv id r. unfold add_binding in H1. inv_ok. subst m1. rewrite (IH _ H2).
    rewrite lookup_insert_Some. destruct (m !! bindingId x) eqn:E; [discriminate|]. cbn. split.
    + intros [[[<- <-]|[? ?]]|[? ?]]; auto.
    + intros [Hm|[[->|Hr] <-]]; auto. destruct (decide (bindingId x = id)) as [<-|]; [congruence|auto].
Qed.

Lemma registry_lookup records m :
  new_BindingRegistry records = Ok m -> forall id r, m !! id = Some r <-> In r records /\ bindingId r = id.
Proof.
  unfold new_BindingRegistry. intros Hn. inv_ok. subst. intros id r.
  match goal with X : fold_result add_binding _ _ = Ok _ |- _ => rewrite (add_bindings_lookup _ _ _ X) end.
  rewrite lookup_empty. split; [by intros [?|?]|by right].
Qed.

Lemma conforming_plain records q now p :
  no_null_text records q -> conforming equal_or_null_text records q now p <-> conforming (=) records q now p.
Proof.
  unfold no_null_text. intros (Hq1 & (Hq2 & [Ht He]%Forall_app)%Forall_cons)%Forall_cons.
  rewrite Forall_map in Ht, He. rewrite Forall_forall in Ht, He.
  assert (Heq : forall a b, a <> Some "null" -> b <> Some "null" -> equal_or_null_text a b <-> a = b)
    by (unfold equal_or_null_text; naive_solver).
  unfold conforming. split; intros (r & Hr & Hx & Ha & [] & Hrest); exists r;
    (split; [done|split; [done|split; [done|split; [|done]]]]); apply list_elem_of_In in Hr;
    split; try done; apply Heq; auto.
Qed.
End RegistryTheory.

(** ** Properties *)

Section Properties.
Context `{L : Locale} `{F : Formats}.

(** C32. Exact pinning: a registry that was built pins a runtime request exactly when it holds an active, exact record
    (schema-valid, without wildcards, with the selector its kind requires) inside its validity window that agrees with
    the request in all sixteen identities, where the two nullable ones (target revision, external target) also
    count as agreeing when one side is null and the other the text "null"; the pin then carries that record's own
    values.  Where no nullable identity is the text "null", that is plain agreement.  Both directions are shown, so
    nothing else is ever accepted and nothing conforming is refused. *)
Theorem registry_pin_exact records m q now p :
  new_BindingRegistry records = Ok m ->
  (registry_pin m q now = Ok p <-> conforming equal_or_null_text records q now p) /\
  (no_null_text records q -> registry_pin m q now = Ok p <-> conforming (=) records q now p).
Proof.
  intros Hm. pose proof (registry_lookup records m Hm) as Hl.
  assert (Hall : registry_pin m q now = Ok p <-> conforming equal_or_null_text records q now p).
  { unfold registry_pin, registry_get, conforming.
    rewrite bind_Ok_inv. setoid_rewrite or_throw_Ok. setoid_rewrite Hl. setoid_rewrite pin_iff. split.
    - intros (r & [Hr _] & H). by exists r.
    - intros (r & Hr & Hx & Ha & Hn & H). exists r. split_and!; try done; [apply Hn|apply H..]. }
  split; [exact Hall|]. intros Hn. rewrite Hall. by apply conforming_plain.
Qed.
End Properties.

(** ** Witnesses *)

Definition sample_digest : string := "sha256:" +:+ hex (repeat 17 32).
Definition sample_binding (k : BindingKind) : ExactBindingRecord :=
  {| recordId := "rec"; sourceRelations := [JNull]; canonicalName := "name"; supersedes := []; supersededBy := [];
     extensions := []; bindingId := binding_kind_name k; bindingKind := k; bindingRevision := 3;
     bindingDigest := sample_digest; sourceObjectId := "src"; sourceRevisionId := "s1"; targetObjectId := "dst";
     targetRevisionId := None; targetOperationOrRoute := "op"; contractSchemaDigest := sample_digest;
     secretVersionSelector := Some [("version", JNum 1)]; externalTargetOrOrigin := None;
     accountOrTenantConstraint := Some []; purpose := "p"; b_lifecycle := B_ACTIVE; bindingSetRevision := "bs";
     activationSetId := "as"; activationEpoch := 0; validFrom := Some "10"; validUntil := None;
     canonicalWriterId := "w"; targetOperationId := None; routeOperationId := None; contractDigest := sample_digest;
     b_requirementIds := ["R"]; b_authoritySourceRefs := ["A"]; b_canonicalDigest := sample_digest |}.
Definition sample_bindings : list ExactBindingRecord := map sample_binding bindingKinds.
Definition sample_request (targetRevision : option string) : RuntimeBindingRequest :=
  {| r_bindingId := "SECRET_BINDING"; r_bindingRevision := WText "3"; r_bindingDigest := sample_digest;
     r_sourceObjectId := "src"; r_sourceRevisionId := "s1"; r_targetObjectId := "dst"; r_targetRevisionId := targetRevision;
     r_targetOperationOrRoute := "op"; r_contractSchemaDigest := sample_digest;
     r_secretVersionSelector := Some [("version", JNum 1)]; r_externalTargetOrOrigin := None;
     r_accountOrTenantConstraint := Some []; r_purpose := "p"; r_bindingSetRevision := "bs";
     r_activationSetId := "as"; r_activationEpoch := WNum 0 |}.
Definition sample_binding_request : RuntimeBindingRequest := sample_request None.
Definition sample_binding_map : gmap string ExactBindingRecord :=
  get_Ok ∅ (@new_BindingRegistry toy_formats sample_bindings).

(** The text "null" is taken for the record's null. *)
Example null_text_accepted :
  @registry_pin code_unit_locale toy_formats sample_binding_map (sample_request (Some "null")) 20 =
    Ok (pin_of (sample_binding SECRET_BINDING)).
Proof. vm_compute. reflexivity. Qed.
Example number_texts :
  map number_text [0; -3; max_safe; 2 ^ 60; 10 ^ 21 - 2 ^ 20; 10 ^ 21; 2 ^ 70] =
    ["0"; "-3"; "9007199254740991"; "1152921504606847000"; "999999999999999000000"; "1e+21"; "1.1805916207174113e+21"].
Proof. vm_compute. reflexivity. Qed.

Lemma registry_pin_exact_witness :
  @registry_pin code_unit_locale toy_formats sample_binding_map sample_binding_request 20 = Ok (pin_of (sample_binding SECRET_BINDING)) /\
  @conforming code_unit_locale toy_formats (=) sample_bindings sample_binding_request 20 (pin_of (sample_binding SECRET_BINDING)).
Proof.
  assert (Hp : @registry_pin code_unit_locale toy_formats sample_binding_map sample_binding_request 20 = Ok (pin_of (sample_binding SECRET_BINDING)))
    by (vm_compute; reflexivity).
  split; [exact Hp|].
  apply (@registry_pin_exact code_unit_locale toy_formats sample_bindings sample_binding_map sample_binding_request 20
    (pin_of (sample_binding SECRET_BINDING))).
  - apply get_Ok_spec. vm_compute. reflexivity.
  - apply (bool_decide_unpack _). vm_compute. exact I.
  - exact Hp.
Defined.
