(* ===== verification/Oracle.v ===== *)
(** * The recovery oracle

    [packages/domain/src/recovery-oracle.ts]: the executable predicates over
    persisted evidence, the evaluation of an oracle record, the registry and
    the executor of decisions. *)
From Stdlib Require Import Ascii String.
From S2P Require Import Prelude Bytes Json Digest ErrorRegistry.

Inductive RecoveryAction :=
| REPLAY_TERMINAL | RESUME_FROM_CHECKPOINT | RETRY_SAME_OPERATION_ACTION | RECONCILE | CANCEL_BEFORE_DISPATCH
| RUN_COMPENSATION | RUN_CLEANUP | MANUAL_REVIEW_ACTION.
#[export] Instance RecoveryAction_eq_dec : EqDecision RecoveryAction.
Proof. solve_decision. Defined.
Definition action_name (a : RecoveryAction) : string :=
  match a with
  | REPLAY_TERMINAL => "REPLAY_TERMINAL" | RESUME_FROM_CHECKPOINT => "RESUME_FROM_CHECKPOINT"
  | RETRY_SAME_OPERATION_ACTION => "RETRY_SAME_OPERATION" | RECONCILE => "RECONCILE"
  | CANCEL_BEFORE_DISPATCH => "CANCEL_BEFORE_DISPATCH" | RUN_COMPENSATION => "RUN_COMPENSATION"
  | RUN_CLEANUP => "RUN_CLEANUP" | MANUAL_REVIEW_ACTION => "MANUAL_REVIEW"
  end.

Inductive RecoveryCanonicalOutcome :=
| TERMINAL_REPLAY | RESUMED | O_CONFIRMED_APPLIED | O_CONFIRMED_NOT_APPLIED | CANCELLED_BEFORE_DISPATCH
| O_COMPENSATION_REQUIRED | CLEANUP_REQUIRED | O_UNKNOWN.
#[export] Instance RecoveryCanonicalOutcome_eq_dec : EqDecision RecoveryCanonicalOutcome.
Proof. solve_decision. Defined.
Definition outcome_name (o : RecoveryCanonicalOutcome) : string :=
  match o with
  | TERMINAL_REPLAY => "TERMINAL_REPLAY" | RESUMED => "RESUMED" | O_CONFIRMED_APPLIED => "CONFIRMED_APPLIED"
  | O_CONFIRMED_NOT_APPLIED => "CONFIRMED_NOT_APPLIED" | CANCELLED_BEFORE_DISPATCH => "CANCELLED_BEFORE_DISPATCH"
  | O_COMPENSATION_REQUIRED => "COMPENSATION_REQUIRED" | CLEANUP_REQUIRED => "CLEANUP_REQUIRED" | O_UNKNOWN => "UNKNOWN"
  end.

Record RecoveryRule := {
  priority : Z;
  rule_id : string;
  rule_predicate : string;
  allowedAction : RecoveryAction;
  canonicalOutcome : RecoveryCanonicalOutcome;
  retryDirective : RetryDirective;
  stateTransitionId : string;
  requiredFencingGuards : list string;
  evidenceToPersist : list string;
  rule_operation : option string;
}.
(** [defaultOutcome] is text: the file is cast to the type unchecked. *)
Record RecoveryOracleRecord := {
  recoveryOracleId : string;
  subjectId : string;
  oracle_rules : list RecoveryRule;
  defaultOutcome : string;
  conflictingOperationBlockKeys : list string;
}.

(** ** Evidence *)

(** An optional member that may also be [null]. *)
Inductive member A := Absent | Null | Given (a : A).
Arguments Absent {A}.
Arguments Null {A}.
Arguments Given {A} a.

(** [bigint | number | string] *)
Inductive counter := BigInt (z : Z) | Number (z : Z) | Text (s : string).

Inductive SendPhase :=
| NOT_STARTED | PREPARED | DNS_RESOLVED | CONNECTED | TLS_ESTABLISHED | REQUEST_HEADERS_STARTED
| REQUEST_BODY_STARTED | REQUEST_BODY_COMPLETED | REQUEST_BYTES_SENT | RESPONSE_HEADERS_RECEIVED
| RESPONSE_BODY_COMPLETED | RESPONSE_RECEIVED | READBACK_COMPLETED.
#[export] Instance SendPhase_eq_dec : EqDecision SendPhase.
Proof. solve_decision. Defined.
Definition phase_name (p : SendPhase) : string :=
  match p with
  | NOT_STARTED => "NOT_STARTED" | PREPARED => "PREPARED" | DNS_RESOLVED => "DNS_RESOLVED" | CONNECTED => "CONNECTED"
  | TLS_ESTABLISHED => "TLS_ESTABLISHED" | REQUEST_HEADERS_STARTED => "REQUEST_HEADERS_STARTED"
  | REQUEST_BODY_STARTED => "REQUEST_BODY_STARTED" | REQUEST_BODY_COMPLETED => "REQUEST_BODY_COMPLETED"
  | REQUEST_BYTES_SENT => "REQUEST_BYTES_SENT" | RESPONSE_HEADERS_RECEIVED => "RESPONSE_HEADERS_RECEIVED"
  | RESPONSE_BODY_COMPLETED => "RESPONSE_BODY_COMPLETED" | RESPONSE_RECEIVED => "RESPONSE_RECEIVED"
  | READBACK_COMPLETED => "READBACK_COMPLETED"
  end.
Inductive ReadBack := RB_APPLIED | RB_NOT_APPLIED | RB_UNKNOWN | RB_NOT_AVAILABLE.
#[export] Instance ReadBack_eq_dec : EqDecision ReadBack.
Proof. solve_decision. Defined.
Definition readback_name (r : ReadBack) : string :=
  match r with
  | RB_APPLIED => "APPLIED" | RB_NOT_APPLIED => "NOT_APPLIED" | RB_UNKNOWN => "UNKNOWN" | RB_NOT_AVAILABLE => "NOT_AVAILABLE"
  end.
Inductive Postcondition := PC_APPLIED | PC_NOT_APPLIED | PC_UNKNOWN.
#[export] Instance Postcondition_eq_dec : EqDecision Postcondition.
Proof. solve_decision. Defined.
Definition postcondition_name (p : Postcondition) : string :=
  match p with PC_APPLIED => "APPLIED" | PC_NOT_APPLIED => "NOT_APPLIED" | PC_UNKNOWN => "UNKNOWN" end.

(** The sections of the evidence; all are present, as its type demands. *)
Record RecoveryEvidence := {
  root_state : string;
  root_version : counter;
  terminalOutcome : member RecoveryCanonicalOutcome;
  keyDigest : string;
  requestDigest : string;
  terminalOutcomeDigest : member string;
  platformIncarnationId : string;
  applicationDeploymentEpoch : counter;
  recoveryEpoch : counter;
  fencingToken : counter;
  fenceCurrent : bool;
  checkpoint_present : bool;
  checkpoint_lineageCurrent : bool;
  checkpoint_state : member string;
  intentRecorded : bool;
  outboxCommitted : bool;
  claimCurrent : bool;
  sendPhase : option SendPhase;
  targetIdempotencyKey : member string;
  readBack : ReadBack;
  providerResponseId : member string;
  browserPostcondition : member Postcondition;
  cleanup_required : bool;
  cleanup_complete : bool;
  inventoryDigest : member string;
  pointerInventoryDigest : string;
  runtimeInventoryDigest : string;
  untrusted : option (list (string * option json));
}.

(** Truth of an optional text, and of an optional outcome (never empty). *)
Definition truthy_member (m : member string) : bool := match m with Given s => truthy s | _ => false end.
Definition no_terminal (e : RecoveryEvidence) : bool := match terminalOutcome e with Given _ => false | _ => true end.

Definition terminal_outcomes : list RecoveryCanonicalOutcome :=
  [TERMINAL_REPLAY; O_CONFIRMED_APPLIED; O_CONFIRMED_NOT_APPLIED; CANCELLED_BEFORE_DISPATCH].
Definition noEffectSendPhases : list SendPhase := [NOT_STARTED; PREPARED; DNS_RESOLVED; CONNECTED; TLS_ESTABLISHED].
Definition possibleEffectSendPhases : list SendPhase :=
  [REQUEST_HEADERS_STARTED; REQUEST_BODY_STARTED; REQUEST_BODY_COMPLETED; REQUEST_BYTES_SENT; RESPONSE_HEADERS_RECEIVED;
   RESPONSE_BODY_COMPLETED; RESPONSE_RECEIVED; READBACK_COMPLETED].
Definition phase_in (o : option SendPhase) (l : list SendPhase) : bool :=
  match o with Some p => bool_decide (p ∈ l) | None => false end.
Definition postcondition_is (e : RecoveryEvidence) (p : Postcondition) : bool :=
  match browserPostcondition e with Given q => bool_decide (q = p) | _ => false end.
Definition state_is (e : RecoveryEvidence) (s : string) : bool := String.eqb (root_state e) s.
Definition readback_is (e : RecoveryEvidence) (r : ReadBack) : bool := bool_decide (readBack e = r).

(** [ruleMatches] *)
Definition predicate_holds (predicate : string) (e : RecoveryEvidence) : bool :=
  if String.eqb predicate "TERMINAL_OUTCOME_KNOWN" then
    match terminalOutcome e with Given o => bool_decide (o ∈ terminal_outcomes) | _ => false end
    && truthy_member (terminalOutcomeDigest e) && cleanup_complete e
  else if String.eqb predicate "CHECKPOINT_RESUMABLE_BEFORE_DISPATCH" then
    no_terminal e && checkpoint_present e && checkpoint_lineageCurrent e && negb (state_is e "CANCEL_REQUESTED")
    && negb (intentRecorded e) && bool_decide (sendPhase e = Some NOT_STARTED) && claimCurrent e && fenceCurrent e
  else if String.eqb predicate "CANCELABLE_BEFORE_DISPATCH" then
    no_terminal e && negb (intentRecorded e) && bool_decide (sendPhase e = Some NOT_STARTED) && claimCurrent e
    && state_is e "CANCEL_REQUESTED"
  else if String.eqb predicate "CONFIRMED_NOT_APPLIED" then
    no_terminal e && intentRecorded e && outboxCommitted e && claimCurrent e && phase_in (sendPhase e) noEffectSendPhases
    && readback_is e RB_NOT_APPLIED && truthy_member (targetIdempotencyKey e)
  else if String.eqb predicate "CONFIRMED_APPLIED" then
    no_terminal e && intentRecorded e && outboxCommitted e && claimCurrent e && negb (state_is e "ROLLING_BACK")
    && (readback_is e RB_APPLIED || postcondition_is e PC_APPLIED)
  else if String.eqb predicate "CLEANUP_PENDING" then
    no_terminal e && cleanup_required e && negb (cleanup_complete e) && claimCurrent e
    && negb (readback_is e RB_UNKNOWN) && negb (readback_is e RB_APPLIED || readback_is e RB_NOT_APPLIED)
  else if String.eqb predicate "COMPENSATION_REQUIRED" then
    no_terminal e && readback_is e RB_APPLIED && claimCurrent e && state_is e "ROLLING_BACK"
  else if String.eqb predicate "RECONCILIATION_REQUIRED" then
    no_terminal e && intentRecorded e && claimCurrent e && (negb (cleanup_required e) || cleanup_complete e)
    && negb (readback_is e RB_APPLIED) && negb (readback_is e RB_NOT_APPLIED)
    && (phase_in (sendPhase e) possibleEffectSendPhases || readback_is e RB_UNKNOWN || postcondition_is e PC_UNKNOWN)
  else false.
Definition ruleMatches (r : RecoveryRule) (e : RecoveryEvidence) : bool := predicate_holds (rule_predicate r) e.

(** [RECOVERY_ORACLE_PREDICATES] *)
Definition RECOVERY_ORACLE_PREDICATES : list string :=
  ["TERMINAL_OUTCOME_KNOWN"; "CHECKPOINT_RESUMABLE_BEFORE_DISPATCH"; "CANCELABLE_BEFORE_DISPATCH"; "CONFIRMED_NOT_APPLIED";
   "CONFIRMED_APPLIED"; "CLEANUP_PENDING"; "COMPENSATION_REQUIRED"; "RECONCILIATION_REQUIRED"].

(** ** The digest of the evidence *)

Definition counter_json (c : counter) : json := match c with BigInt z => JStr (dec z) | Number z => JNum z | Text s => JStr s end.
(** [JSON.stringify] drops absent members. *)
Definition member_json {A} (f : A -> json) (k : string) (m : member A) : list (string * json) :=
  match m with Absent => [] | Null => [(k, JNull)] | Given a => [(k, f a)] end.
Definition option_json (kv : string * option json) : list (string * json) :=
  match snd kv with Some j => [(fst kv, j)] | None => [] end.
(** [jsonSafe] *)
Definition evidence_json (e : RecoveryEvidence) : json :=
  JObj ([("root", JObj ([("state", JStr (root_state e)); ("version", counter_json (root_version e))]
                         ++ member_json (fun o => JStr (outcome_name o)) "terminalOutcome" (terminalOutcome e)));
         ("idempotency", JObj ([("keyDigest", JStr (keyDigest e)); ("requestDigest", JStr (requestDigest e))]
                                ++ member_json JStr "terminalOutcomeDigest" (terminalOutcomeDigest e)));
         ("lineage", JObj [("platformIncarnationId", JStr (platformIncarnationId e));
                           ("applicationDeploymentEpoch", counter_json (applicationDeploymentEpoch e));
                           ("recoveryEpoch", counter_json (recoveryEpoch e)); ("fencingToken", counter_json (fencingToken e));
                           ("fenceCurrent", JBool (fenceCurrent e))]);
         ("checkpoint", JObj ([("present", JBool (checkpoint_present e)); ("lineageCurrent", JBool (checkpoint_lineageCurrent e))]
                               ++ member_json JStr "state" (checkpoint_state e)));
         ("dispatch", JObj ([("intentRecorded", JBool (intentRecorded e)); ("outboxCommitted", JBool (outboxCommitted e));
                             ("claimCurrent", JBool (claimCurrent e));
                             ("sendPhase", match sendPhase e with Some p => JStr (phase_name p) | None => JNull end)]
                             ++ member_json JStr "targetIdempotencyKey" (targetIdempotencyKey e)));
         ("external", JObj ([("readBack", JStr (readback_name (readBack e)))]
                             ++ member_json JStr "providerResponseId" (providerResponseId e)
                             ++ member_json (fun p => JStr (postcondition_name p)) "browserPostcondition" (browserPostcondition e)));
         ("cleanup", JObj ([("required", JBool (cleanup_required e)); ("complete", JBool (cleanup_complete e))]
                            ++ member_json JStr "inventoryDigest" (inventoryDigest e)));
         ("pointerRuntime", JObj [("pointerInventoryDigest", JStr (pointerInventoryDigest e));
                                  ("runtimeInventoryDigest", JStr (runtimeInventoryDigest e))])]
        ++ match untrusted e with Some u => [("untrusted", JObj (u ≫= option_json))] | None => [] end).

(** ** Validation of a record *)

Definition automatic (a : RecoveryAction) : bool := negb (bool_decide (a = MANUAL_REVIEW_ACTION)).

Definition validate_rule (priorities : gset Z) (r : RecoveryRule) : result (gset Z) :=
  _ ← throw_if (bool_decide (priority r ∈ priorities))
        (DomainErr "RECOVERY_ORACLE_CONFLICT" ("Duplicate oracle priority " +:+ dec (priority r)));
  _ ← throw_if (negb (includes (rule_predicate r) RECOVERY_ORACLE_PREDICATES))
        (DomainErr "CLOSURE_PREDICATE_INCOMPLETE" ("Unknown recovery predicate " +:+ rule_predicate r));
  _ ← throw_if (negb (automatic (allowedAction r)) && negb (bool_decide (canonicalOutcome r = O_UNKNOWN)))
        (DomainErr "CLOSURE_PREDICATE_INCOMPLETE" "Manual-review rule must have UNKNOWN outcome");
  Ok ({[priority r]} ∪ priorities).

Definition validateRules (o : RecoveryOracleRecord) : result unit :=
  _ ← throw_if (negb (String.eqb (defaultOutcome o) "MANUAL_REVIEW"))
        (DomainErr "CLOSURE_PREDICATE_INCOMPLETE" "Oracle default must fail closed to MANUAL_REVIEW");
  _ ← fold_result validate_rule ∅ (oracle_rules o);
  Ok tt.

(** [assertEvidenceShape]; the presence of the sections is in the type. *)
Definition assertEvidenceShape (e : RecoveryEvidence) : result unit :=
  _ ← throw_if (match untrusted e with
                | Some u => existsb (fun kv => match snd kv with Some _ => true | None => false end) u | None => false end)
        (DomainErr "RECOVERY_ORACLE_CONFLICT" "Process memory, logs, transport failures and exception text are not authoritative recovery evidence");
  throw_if (negb (fenceCurrent e)) (DomainErr "FENCING_TOKEN_STALE" "Recovery evidence is stale and cannot authorize a mutation").

Definition missing_predicates (o : RecoveryOracleRecord) : list string :=
  List.filter (fun p => negb (includes p (map rule_predicate (oracle_rules o)))) RECOVERY_ORACLE_PREDICATES.

Definition validateRecoveryOracleCoverage (o : RecoveryOracleRecord) : result unit :=
  _ ← validateRules o;
  _ ← throw_if (0 <? length (missing_predicates o))%nat
        (DomainErr "CLOSURE_PREDICATE_INCOMPLETE" "Recovery oracle is missing predicates");
  throw_if (negb (String.eqb (defaultOutcome o) "MANUAL_REVIEW"))
    (DomainErr "CLOSURE_PREDICATE_INCOMPLETE" "An uncovered observed state must enter UNKNOWN/MANUAL_REVIEW").

(** ** Evaluation *)

Record RecoveryDecision := {
  d_oracle : string;
  d_rule : string;
  d_action : RecoveryAction;
  d_outcome : RecoveryCanonicalOutcome;
  d_directive : RetryDirective;
  d_transition : string;
  d_evidenceDigest : string;
  d_evidenceToPersist : list string;
  d_blockingKeys : list string;
  d_operation : option string;
}.

Section Oracle.
Context `{L : Locale} `{H : Hash}.

Definition priority_leb (a b : RecoveryRule) : bool := priority a <=? priority b.
Definition matching (o : RecoveryOracleRecord) (e : RecoveryEvidence) : list RecoveryRule :=
  stable_sort priority_leb (List.filter (fun r => ruleMatches r e) (oracle_rules o)).
Definition decision_text (r : RecoveryRule) : string :=
  action_name (allowedAction r) +:+ ":" +:+ outcome_name (canonicalOutcome r).

Definition conflict : exn :=
  DomainErr "RECOVERY_ORACLE_CONFLICT" "More than one automatic recovery action matches the observed state".
Definition default_decision (o : RecoveryOracleRecord) (e : RecoveryEvidence) : RecoveryDecision :=
  {| d_oracle := recoveryOracleId o; d_rule := "DEFAULT_MANUAL_REVIEW"; d_action := MANUAL_REVIEW_ACTION;
     d_outcome := O_UNKNOWN; d_directive := MANUAL_REVIEW; d_transition := "TO_MANUAL_REVIEW";
     d_evidenceDigest := canonicalDigest (evidence_json e);
     d_evidenceToPersist := ["ROOT_SNAPSHOT"; "LINEAGE_SNAPSHOT"; "DISPATCH_SNAPSHOT"; "EXTERNAL_READ_BACK"; "CLEANUP_INVENTORY"];
     d_blockingKeys := conflictingOperationBlockKeys o; d_operation := None |}.
Definition rule_decision (o : RecoveryOracleRecord) (e : RecoveryEvidence) (r : RecoveryRule) : RecoveryDecision :=
  {| d_oracle := recoveryOracleId o; d_rule := rule_id r; d_action := allowedAction r; d_outcome := canonicalOutcome r;
     d_directive := retryDirective r; d_transition := stateTransitionId r;
     d_evidenceDigest := canonicalDigest (evidence_json e); d_evidenceToPersist := evidenceToPersist r;
     d_blockingKeys := if automatic (allowedAction r) then [] else conflictingOperationBlockKeys o;
     d_operation := match rule_operation r with Some s => if truthy s then Some s else None | None => None end |}.

Definition evaluateRecoveryOracle (o : RecoveryOracleRecord) (e : RecoveryEvidence) : result RecoveryDecision :=
  _ ← validateRules o;
  _ ← assertEvidenceShape e;
  let matches := matching o e in
  _ ← throw_if ((1 <? length matches)%nat && (1 <? length (remove_dups (map decision_text matches)))%nat) conflict;
  Ok (match matches with [] => default_decision o e | r :: _ => rule_decision o e r end).

(** [RecoveryOracleRegistry] *)
Abbreviation oracle_map := (gmap string RecoveryOracleRecord).
Definition new_OracleRegistry (records : list RecoveryOracleRecord) : result oracle_map :=
  _ ← for_each validateRecoveryOracleCoverage records;
  Ok (fold_left (fun m o => <[recoveryOracleId o := o]> m) records ∅).
Definition oracle_get (m : oracle_map) (id : string) : result RecoveryOracleRecord :=
  or_throw (m !! id) (DomainErr "CLOSURE_PREDICATE_INCOMPLETE" ("Unknown recovery oracle " +:+ id)).
Definition oracle_evaluate (m : oracle_map) (id : string) (e : RecoveryEvidence) : result RecoveryDecision :=
  o ← oracle_get m id; evaluateRecoveryOracle o e.
End Oracle.

(** ** The executor *)

Record RecoveryFence := { f_recoveryEpoch : Z; f_fencingToken : Z }.
(** What the operation service is asked to run. *)
Record recovery_dispatch := {
  rd_operation : string;
  rd_targetId : option string;
  rd_arguments : list (string * json);
  rd_fence : RecoveryFence;
}.
Inductive executed (R : Type) := ReturnedDecision (d : RecoveryDecision) | Dispatched (r : recovery_dispatch) (res : R).
Arguments ReturnedDecision {R} d.
Arguments Dispatched {R} r res.

(** [{...arguments_, recoveryOracleId: ..., ...}] *)
Definition recovery_arguments (d : RecoveryDecision) (f : RecoveryFence) (args : list (string * json)) : list (string * json) :=
  fold_left (fun l kv => define_prop (fst kv) (snd kv) l)
    [("recoveryOracleId", JStr (d_oracle d)); ("recoveryRuleId", JStr (d_rule d));
     ("observedEvidenceDigest", JStr (d_evidenceDigest d)); ("recoveryAction", JStr (action_name (d_action d)));
     ("freshRecoveryEpoch", JStr (dec (f_recoveryEpoch f))); ("freshFencingToken", JStr (dec (f_fencingToken f)))] args.

(** [RecoveryActionExecutor.execute]: the service and the fence source are
    the constructor's arguments. *)
Definition execute_recovery {R} (service : recovery_dispatch -> result R) (freshFence : result RecoveryFence)
    (d : RecoveryDecision) (operationName : string) (targetId : option string) (args : list (string * json))
    : result (executed R) :=
  if bool_decide (d_action d = MANUAL_REVIEW_ACTION) then Ok (ReturnedDecision d)
  else
    _ ← throw_if (match d_operation d with Some s => truthy s && negb (String.eqb operationName s) | None => false end)
          (DomainErr "RECOVERY_ORACLE_CONFLICT" "Recovery action must execute through the operation named by its oracle rule");
    fence ← freshFence;
    let call := {| rd_operation := operationName; rd_targetId := targetId; rd_arguments := recovery_arguments d fence args;
                   rd_fence := fence |} in
    res ← service call;
    Ok (Dispatched call res).

(** ** The rules of the shipped registry

    Every record of [contracts/registries/recovery-oracles] has these
    predicates, actions and outcomes. *)
Definition shipped_rules : list (string * RecoveryAction * RecoveryCanonicalOutcome) :=
  [("TERMINAL_OUTCOME_KNOWN", REPLAY_TERMINAL, TERMINAL_REPLAY);
   ("CHECKPOINT_RESUMABLE_BEFORE_DISPATCH", RESUME_FROM_CHECKPOINT, RESUMED);
   ("CANCELABLE_BEFORE_DISPATCH", CANCEL_BEFORE_DISPATCH, CANCELLED_BEFORE_DISPATCH);
   ("CONFIRMED_NOT_APPLIED", RETRY_SAME_OPERATION_ACTION, O_CONFIRMED_NOT_APPLIED);
   ("COMPENSATION_REQUIRED", RUN_COMPENSATION, O_COMPENSATION_REQUIRED);
   ("CONFIRMED_APPLIED", RECONCILE, O_CONFIRMED_APPLIED);
   ("CLEANUP_PENDING", RUN_CLEANUP, CLEANUP_REQUIRED);
   ("RECONCILIATION_REQUIRED", RECONCILE, O_UNKNOWN)].
Definition shipped (o : RecoveryOracleRecord) : Prop :=
  map (fun r => (rule_predicate r, allowedAction r, canonicalOutcome r)) (oracle_rules o) = shipped_rules.

(** ** Theory *)

Definition rule_ok (r : RecoveryRule) : Prop :=
  includes (rule_predicate r) RECOVERY_ORACLE_PREDICATES = true /\
  (automatic (allowedAction r) = true \/ canonicalOutcome r = O_UNKNOWN).

Lemma validate_rule_iff ps r ps' :
  validate_rule ps r = Ok ps' <-> (priority r ∉ ps) /\ rule_ok r /\ ps' = {[priority r]} ∪ ps.
Proof.
  unfold validate_rule, rule_ok. split.
  - intros Hv. inv_ok. reflect_bools. split_and!; try done.
    match goal with X : _ && _ = false |- _ => apply andb_false_iff in X as [X|X]; reflect_bools; auto end.
  - intros (Hp & [Hi Ha] & ->). rewrite (bool_decide_false (priority r ∈ ps)) by done. rewrite Hi. cbn.
    replace (negb _ && _) with false; [done|]. symmetry. apply andb_false_iff.
    destruct Ha as [->| ->]; [by left|right]. by rewrite bool_decide_true.
Qed.

Lemma validate_rules_iff rs ps :
  (exists ps', fold_result validate_rule ps rs = Ok ps') <->
  NoDup (map priority rs) /\ Forall (fun r => (priority r ∉ ps) /\ rule_ok r) rs.
Proof.
  revert ps; induction rs as [|r rs IH]; intros ps; cbn [fold_result map].
  - split; [intros _; split; constructor|by eexists].
  - rewrite NoDup_cons, Forall_cons. setoid_rewrite bind_Ok_inv. setoid_rewrite validate_rule_iff. split.
    + intros (ps' & ps1 & (Hp & Hr & ->) & Hf).
      destruct (proj1 (IH ({[priority r]} ∪ ps))) as [Hn Hall]; [by eexists|]. rewrite Forall_forall in Hall. split_and!; try done.
      * intros (x & Hx & Hin)%list_elem_of_In%in_map_iff. apply list_elem_of_In in Hin.
        destruct (Hall x Hin) as [Hnot _]. apply Hnot. rewrite Hx. set_solver.
      * apply Forall_forall. intros x Hx. destruct (Hall x Hx). split; [set_solver|done].
    + intros ([Hnot Hn] & [[Hp Hr] Hall]). destruct (proj2 (IH ({[priority r]} ∪ ps))) as [ps' Hf]; [|by eauto 10].
      split; [done|]. rewrite Forall_forall in Hall |- *. intros x Hx. destruct (Hall x Hx) as [Hnp Hok]. split; [|done].
      rewrite not_elem_of_union, not_elem_of_singleton. split; [|done]. intros E. apply Hnot. rewrite <- E.
      by apply list_elem_of_fmap_2.
Qed.

Definition valid_oracle (o : RecoveryOracleRecord) : Prop :=
  defaultOutcome o = "MANUAL_REVIEW" /\ NoDup (map priority (oracle_rules o)) /\ Forall rule_ok (oracle_rules o).

Lemma validateRules_iff o : validateRules o = Ok tt <-> valid_oracle o.
Proof.
  unfold validateRules, valid_oracle. split.
  - intros Hv. inv_ok. reflect_bools. split; [done|].
    destruct (proj1 (validate_rules_iff (oracle_rules o) ∅)) as [Hn Ha]; [by eauto|]. split; [done|].
    eapply Forall_impl; [exact Ha|]. by intros r [_ ?].
  - intros (Hd & Hn & Ha). rewrite Hd. cbn.
    destruct (proj2 (validate_rules_iff (oracle_rules o) ∅)) as [ps ->]; [|done].
    split; [done|]. eapply Forall_impl; [exact Ha|]. intros r Hr. split; [set_solver|done].
Qed.

Lemma valid_oracle_perm o o' :
  defaultOutcome o = defaultOutcome o' -> oracle_rules o ≡ₚ oracle_rules o' -> valid_oracle o -> valid_oracle o'.
Proof.
  intros Hd Hp (H1 & H2 & H3). split_and!; [congruence| |].
  - by rewrite <- Hp.
  - by rewrite <- Hp.
Qed.

Lemma matching_perm o o' e :
  valid_oracle o -> oracle_rules o ≡ₚ oracle_rules o' -> matching o e = matching o' e.
Proof.
  intros (_ & Hn & _) Hp. unfold matching. apply stable_sort_unique.
  - intros x y. unfold priority_leb. rewrite !Z.leb_le. lia.
  - intros x y z. unfold priority_leb. rewrite !Z.leb_le. lia.
  - intros x y [Hx _]%list_elem_of_In%filter_In [Hy _]%list_elem_of_In%filter_In H1 H2.
    unfold priority_leb in *. apply (NoDup_map_unique priority (oracle_rules o)); try done.
    apply Z.leb_le in H1, H2. lia.
  - by apply filter_perm.
Qed.

Lemma elem_of_matching o e r : r ∈ matching o e <-> In r (oracle_rules o) /\ ruleMatches r e = true.
Proof. unfold matching. rewrite elem_of_stable_sort, list_elem_of_In, filter_In. done. Qed.

(** *** Texts of decisions *)

Definition all_actions : list RecoveryAction :=
  [REPLAY_TERMINAL; RESUME_FROM_CHECKPOINT; RETRY_SAME_OPERATION_ACTION; RECONCILE; CANCEL_BEFORE_DISPATCH;
   RUN_COMPENSATION; RUN_CLEANUP; MANUAL_REVIEW_ACTION].
Definition all_outcomes : list RecoveryCanonicalOutcome :=
  [TERMINAL_REPLAY; RESUMED; O_CONFIRMED_APPLIED; O_CONFIRMED_NOT_APPLIED; CANCELLED_BEFORE_DISPATCH;
   O_COMPENSATION_REQUIRED; CLEANUP_REQUIRED; O_UNKNOWN].
Definition pair_text (x : RecoveryAction * RecoveryCanonicalOutcome) : string :=
  action_name (fst x) +:+ ":" +:+ outcome_name (snd x).
Definition all_pairs : list (RecoveryAction * RecoveryCanonicalOutcome) := list_prod all_actions all_outcomes.

Lemma pair_text_inj x y : pair_text x = pair_text y -> x = y.
Proof.
  assert (Hall : forall x, In x all_pairs).
  { intros [a o]. apply in_prod; [by destruct a; cbn; auto 10|by destruct o; cbn; auto 10]. }
  apply NoDup_map_unique with all_pairs; [|apply Hall..].
  apply (bool_decide_unpack _). vm_compute. exact I.
Qed.

Lemma single_text (l : list string) x y : (length (remove_dups l) <= 1)%nat -> x ∈ l -> y ∈ l -> x = y.
Proof.
  rewrite <- !(elem_of_remove_dups l). destruct (remove_dups l) as [|a [|b k]]; cbn; [set_solver|set_solver|lia].
Qed.

(** *** Evaluation *)

Section OracleTheory.
Context `{L : Locale} `{H : Hash}.

Lemma evaluate_Ok o e d :
  evaluateRecoveryOracle o e = Ok d ->
  valid_oracle o /\ fenceCurrent e = true /\
  ((matching o e = [] /\ d = default_decision o e) \/
   exists r, r ∈ matching o e /\ d = rule_decision o e r /\
     forall r', r' ∈ matching o e -> allowedAction r' = allowedAction r /\ canonicalOutcome r' = canonicalOutcome r).
Proof.
  unfold evaluateRecoveryOracle, assertEvidenceShape. intros Hv. inv_ok.
  match goal with X : validateRules o = _ |- _ => apply validateRules_iff in X end. reflect_bools. subst d.
  split_and!; try done. destruct (matching o e) as [|r ms] eqn:Em; [by left|right].
  exists r. split; [by left|]. split; [done|]. intros r' Hr'.
  destruct ms as [|r2 ms].
  { apply list_elem_of_singleton in Hr' as ->. done. }
  match goal with X : _ && _ = false |- _ => apply andb_false_iff in X as [X|X]; [discriminate X|] end.
  assert (E : decision_text r' = decision_text r).
  { eapply (single_text (map decision_text (r :: r2 :: ms))).
    - by apply Nat.ltb_ge.
    - by apply list_elem_of_fmap_2.
    - by left. }
  by injection (pair_text_inj (allowedAction r', canonicalOutcome r') (allowedAction r, canonicalOutcome r) E).
Qed.
End OracleTheory.

(** *** Overlap of the predicates *)

Lemma state_is_eq e s : state_is e s = true -> root_state e = s.
Proof. apply String.eqb_eq. Qed.
Lemma readback_is_eq e r : readback_is e r = true -> readBack e = r.
Proof. apply bool_decide_eq_true. Qed.

(** Evidence that may support two actions: a browser that saw the effect,
    pending cleanup, or an effect that was read back without an intent. *)
Definition contested (e : RecoveryEvidence) : bool :=
  postcondition_is e PC_APPLIED || (cleanup_required e && negb (cleanup_complete e))
  || (readback_is e RB_APPLIED && negb (intentRecorded e)).

(** What the facts of a matching rule say, one hypothesis per conjunct. *)
Ltac split_conjuncts :=
  repeat match goal with
  | X : _ && _ = true |- _ => apply andb_true_iff in X as [? ?]
  | X : negb _ = true |- _ => apply negb_true_iff in X
  | X : state_is _ _ = true |- _ => apply state_is_eq in X
  | X : readback_is _ _ = true |- _ => apply readback_is_eq in X
  end.

Lemma predicates_overlap e p q :
  In p RECOVERY_ORACLE_PREDICATES -> In q RECOVERY_ORACLE_PREDICATES -> p <> q ->
  predicate_holds p e = true -> predicate_holds q e = true -> contested e = true.
Proof.
  intros Hp Hq Hne H1 H2. apply not_false_iff_true. intros Hc. unfold contested in Hc.
  apply orb_false_iff in Hc as [[Hpc Hcl]%orb_false_iff Hri].
  assert (Hterm : no_terminal e = true -> match terminalOutcome e with
            | Given o => bool_decide (o ∈ terminal_outcomes) | _ => false end = false).
  { unfold no_terminal. by destruct (terminalOutcome e). }
  cbn in Hp, Hq.
  destruct_or! Hp; try done; destruct_or! Hq; try done; subst p q; try (by destruct Hne);
    unfold predicate_holds in H1, H2; cbn in H1, H2; split_conjuncts;
    unfold state_is, readback_is in *;
    repeat match goal with X : readBack e = _ |- _ => rewrite X in *; clear X end;
    repeat match goal with X : root_state e = _ |- _ => rewrite X in *; clear X end;
    repeat match goal with X : intentRecorded e = _ |- _ => rewrite X in *; clear X end;
    repeat match goal with X : cleanup_required e = _ |- _ => rewrite X in *; clear X end;
    repeat match goal with X : cleanup_complete e = _ |- _ => rewrite X in *; clear X end;
    try discriminate; try (rewrite Hterm in * by done; discriminate);
    rewrite Hpc, orb_false_r in *; first [congruence|discriminate].
Qed.

Lemma shipped_rule o r :
  shipped o -> In r (oracle_rules o) -> In (rule_predicate r, allowedAction r, canonicalOutcome r) shipped_rules.
Proof. intros <- Hr. by apply (in_map (fun r => (rule_predicate r, allowedAction r, canonicalOutcome r))). Qed.

Lemma shipped_predicates o : shipped o -> NoDup (map rule_predicate (oracle_rules o)).
Proof.
  intros Hs. assert (E : map rule_predicate (oracle_rules o) = map (fun x => fst (fst x)) shipped_rules).
  { rewrite <- Hs, map_map. done. }
  rewrite E. apply (bool_decide_unpack _). vm_compute. exact I.
Qed.

Lemma uncontested_single o e :
  shipped o -> valid_oracle o -> contested e = false -> (length (matching o e) <= 1)%nat.
Proof.
  intros Hs (_ & Hn & Hok) Hc. assert (Hnd : NoDup (matching o e)).
  { unfold matching. rewrite stable_sort_perm. apply NoDup_ListNoDup, List.NoDup_filter, NoDup_ListNoDup.
    by apply (NoDup_fmap_1 priority). }
  destruct (matching o e) as [|r1 [|r2 ms]] eqn:Em; [cbn; lia|cbn; lia|]. exfalso.
  assert (H1 : r1 ∈ matching o e) by (rewrite Em; by left).
  assert (H2 : r2 ∈ matching o e) by (rewrite Em; right; by left).
  apply elem_of_matching in H1 as [I1 M1]. apply elem_of_matching in H2 as [I2 M2].
  rewrite Forall_forall in Hok.
  destruct (Hok r1) as [P1 _]; [by apply list_elem_of_In|]. destruct (Hok r2) as [P2 _]; [by apply list_elem_of_In|].
  rewrite includes_In in P1, P2. destruct (decide (rule_predicate r1 = rule_predicate r2)) as [E|N].
  - apply (NoDup_map_unique rule_predicate (oracle_rules o)) in E; [|by apply shipped_predicates|done|done]. subst r2.
    apply NoDup_cons in Hnd as [Hnot _]. apply Hnot. by left.
  - by rewrite (predicates_overlap e _ _ P1 P2 N M1 M2) in Hc.
Qed.

(** What the evidence must show for each action of a shipped oracle. *)
Definition justified (e : RecoveryEvidence) (a : RecoveryAction) : Prop :=
  match a with
  | RETRY_SAME_OPERATION_ACTION =>
      phase_in (sendPhase e) noEffectSendPhases = true /\ readBack e = RB_NOT_APPLIED /\ claimCurrent e = true /\
      truthy_member (targetIdempotencyKey e) = true /\ no_terminal e = true
  | RESUME_FROM_CHECKPOINT =>
      sendPhase e = Some NOT_STARTED /\ intentRecorded e = false /\ claimCurrent e = true /\
      checkpoint_present e = true /\ checkpoint_lineageCurrent e = true
  | CANCEL_BEFORE_DISPATCH =>
      sendPhase e = Some NOT_STARTED /\ intentRecorded e = false /\ root_state e = "CANCEL_REQUESTED"
  | RUN_COMPENSATION => readBack e = RB_APPLIED /\ root_state e = "ROLLING_BACK"
  | REPLAY_TERMINAL => no_terminal e = false /\ cleanup_complete e = true
  | RUN_CLEANUP => cleanup_required e = true /\ cleanup_complete e = false
  | RECONCILE => intentRecorded e = true /\ claimCurrent e = true
  | MANUAL_REVIEW_ACTION => True
  end.

Lemma matching_justified o e r : shipped o -> r ∈ matching o e -> justified e (allowedAction r).
Proof.
  intros Hs [Hin Hm]%elem_of_matching. apply (shipped_rule o r Hs) in Hin. unfold ruleMatches in Hm.
  cbn in Hin. destruct_or! Hin; try done; injection Hin as Ep Ea _; rewrite <- Ep in Hm; rewrite <- Ea; unfold predicate_holds in Hm; cbn in Hm;
    split_conjuncts; cbn; try done; split_and!; try done;
    try (match goal with X : bool_decide _ = true |- _ => by apply bool_decide_eq_true in X end).
  unfold no_terminal. by destruct (terminalOutcome e).
Qed.

(** ** Properties *)

Section Properties.
Context `{L : Locale} `{H : Hash}.

(** The order in which an oracle lists its rules has no influence: for a record that passes validation,
    permuting the rules changes neither the decision nor the error, for any evidence. *)
Theorem oracle_order_irrelevant o rules' e :
  validateRules o = Ok tt -> oracle_rules o ≡ₚ rules' ->
  evaluateRecoveryOracle {| recoveryOracleId := recoveryOracleId o; subjectId := subjectId o; oracle_rules := rules';
    defaultOutcome := defaultOutcome o; conflictingOperationBlockKeys := conflictingOperationBlockKeys o |} e
  = evaluateRecoveryOracle o e.
Proof.
  intros Hv%validateRules_iff Hp. unfold evaluateRecoveryOracle. set (o' := {| oracle_rules := rules' |}).
  rewrite <- (matching_perm o o' e Hv Hp).
  rewrite (proj2 (validateRules_iff o) Hv), (proj2 (validateRules_iff o')); [done|].
  by apply (valid_oracle_perm o o').
Qed.

(** C30. No blind recovery: with the rules of the shipped registry, every decision rests on a current fence, and the
    action it authorizes on evidence for it: a retry only when no request byte can have left and the read-back
    says NOT_APPLIED, a resume or cancellation only when nothing was dispatched, a compensation only when the effect was
    read back; and if several rules match, they agree on action and outcome. *)
Theorem oracle_no_blind_retry o e d :
  shipped o -> evaluateRecoveryOracle o e = Ok d ->
  fenceCurrent e = true /\ justified e (d_action d) /\
  (forall r, r ∈ matching o e -> allowedAction r = d_action d /\ canonicalOutcome r = d_outcome d) /\
  (matching o e = [] -> d_action d = MANUAL_REVIEW_ACTION /\ d_blockingKeys d = conflictingOperationBlockKeys o).
Proof.
  intros Hs (_ & Hf & [[Em ->]|(r & Hr & -> & Hall)])%evaluate_Ok.
  - split_and!; try done. intros r. rewrite Em. by intros ?%elem_of_nil.
  - split_and!; [done|by apply (matching_justified o)|done|]. intros Em. rewrite Em in Hr. by apply elem_of_nil in Hr.
Qed.

(** The shipped oracle decides: on current, trusted evidence that is not contested (no effect seen only by the browser,
    no pending cleanup, no read-back effect without an intent) at most one of the eight predicates holds
    and the evaluation returns a decision instead of a conflict. *)
Theorem oracle_decides o e :
  shipped o -> validateRules o = Ok tt -> assertEvidenceShape e = Ok tt -> contested e = false ->
  (length (matching o e) <= 1)%nat /\ exists d, evaluateRecoveryOracle o e = Ok d.
Proof.
  intros Hs Hv He Hc. assert (Hl : (length (matching o e) <= 1)%nat).
  { apply uncontested_single; [done|by apply validateRules_iff|done]. }
  split; [done|]. unfold evaluateRecoveryOracle. rewrite Hv, He. cbn [mbind result_bind].
  replace (1 <? length (matching o e))%nat with false by (symmetry; apply Nat.ltb_ge; lia). cbn. by eexists.
Qed.
End Properties.

(** ** Witnesses *)

Definition sample_oracle_rule (n : Z) (x : string * RecoveryAction * RecoveryCanonicalOutcome) : RecoveryRule :=
  let '(p, a, o) := x in
  {| priority := n; rule_id := p; rule_predicate := p; allowedAction := a; canonicalOutcome := o;
     retryDirective := MANUAL_REVIEW; stateTransitionId := p; requiredFencingGuards := []; evidenceToPersist := [];
     rule_operation := None |}.
Definition sample_oracle : RecoveryOracleRecord :=
  {| recoveryOracleId := "ORACLE"; subjectId := "S";
     oracle_rules := zip_with sample_oracle_rule [10; 20; 30; 40; 50; 60; 70; 80] shipped_rules;
     defaultOutcome := "MANUAL_REVIEW"; conflictingOperationBlockKeys := ["ACCOUNT"] |}.
Definition sample_evidence : RecoveryEvidence :=
  {| root_state := "RUNNING"; root_version := BigInt 4; terminalOutcome := Absent; keyDigest := "k"; requestDigest := "r";
     terminalOutcomeDigest := Null; platformIncarnationId := "p"; applicationDeploymentEpoch := BigInt 1;
     recoveryEpoch := Number 1; fencingToken := Text "7"; fenceCurrent := true; checkpoint_present := false;
     checkpoint_lineageCurrent := false; checkpoint_state := Null; intentRecorded := true; outboxCommitted := true;
     claimCurrent := true; sendPhase := Some CONNECTED; targetIdempotencyKey := Given "key"; readBack := RB_NOT_APPLIED;
     providerResponseId := Absent; browserPostcondition := Absent; cleanup_required := false; cleanup_complete := true;
     inventoryDigest := Absent; pointerInventoryDigest := "a"; runtimeInventoryDigest := "b"; untrusted := None |}.
Definition sample_decision : RecoveryDecision :=
  get_Ok (default_decision (L := code_unit_locale) (H := toy_hash) sample_oracle sample_evidence)
    (evaluateRecoveryOracle (L := code_unit_locale) (H := toy_hash) sample_oracle sample_evidence).

Lemma oracle_order_irrelevant_witness :
  evaluateRecoveryOracle (L := code_unit_locale) (H := toy_hash)
    {| recoveryOracleId := "ORACLE"; subjectId := "S"; oracle_rules := rev (oracle_rules sample_oracle);
       defaultOutcome := "MANUAL_REVIEW"; conflictingOperationBlockKeys := ["ACCOUNT"] |} sample_evidence
  = evaluateRecoveryOracle (L := code_unit_locale) (H := toy_hash) sample_oracle sample_evidence.
Proof.
  apply (@oracle_order_irrelevant code_unit_locale toy_hash sample_oracle (rev (oracle_rules sample_oracle)) sample_evidence).
  - vm_compute. reflexivity.
  - apply Permutation_rev.
Defined.

Lemma oracle_no_blind_retry_witness : justified sample_evidence RETRY_SAME_OPERATION_ACTION.
Proof.
  apply (@oracle_no_blind_retry code_unit_locale toy_hash sample_oracle sample_evidence sample_decision).
  - reflexivity.
  - apply get_Ok_spec. vm_compute. reflexivity.
Defined.

Lemma oracle_decides_witness :
  (length (matching sample_oracle sample_evidence) <= 1)%nat /\
  exists d, evaluateRecoveryOracle (L := code_unit_locale) (H := toy_hash) sample_oracle sample_evidence = Ok d.
Proof.
  apply (@oracle_decides code_unit_locale toy_hash sample_oracle sample_evidence); vm_compute; reflexivity.
Defined.
