(* ===== verification/Crypto.v ===== *)
(** * Base32, one-time passwords and envelopes

    [packages/domain/src/crypto.ts].  The bit operators of the language work
    on 32-bit integers, and the accumulators of [base32Encode] and
    [base32Decode] do overflow; HMAC-SHA1 and AES-GCM are parameters. *)
From Stdlib Require Import Ascii String.
From S2P Require Import Prelude Bytes Json Digest IpcFrame CanonicalValue.

(** ** The 32-bit operators *)

Definition to_int32 (z : Z) : Z := let u := z mod 2 ^ 32 in if u >=? 2 ^ 31 then u - 2 ^ 32 else u.
(** [a << n] *)
Definition js_shl (a n : Z) : Z := to_int32 (Z.shiftl a n).
(** [a >>> n] *)
Definition js_ushr (a n : Z) : Z := Z.shiftr (a mod 2 ^ 32) n.
(** [a | b] and [a & b] on 32-bit integers *)
Definition js_or (a b : Z) : Z := Z.lor a b.
Definition js_and (a b : Z) : Z := Z.land a b.

(** ** Base32 *)

Definition base32Alphabet : list ascii := chars "ABCDEFGHIJKLMNOPQRSTUVWXYZ234567".
Definition b32_letter (n : Z) : ascii := nth (Z.to_nat n) base32Alphabet "="%char.

(** [while (bits >= 5) ...]; [n] bounds the iterations. *)
Fixpoint b32_drain (n : nat) (bits acc : Z) (out : list ascii) : Z * list ascii :=
  match n with
  | O => (bits, out)
  | S n => if bits >=? 5 then b32_drain n (bits - 5) acc (out ++ [b32_letter (js_and (js_ushr acc (bits - 5)) 31)])
           else (bits, out)
  end.
Definition b32_byte (s : Z * Z * list ascii) (byte : Z) : Z * Z * list ascii :=
  let '(bits, acc, out) := s in
  let acc := js_or (js_shl acc 8) byte in
  let '(bits, out) := b32_drain 3 (bits + 8) acc out in
  (bits, acc, out).
Definition base32Encode (value : list Z) : string :=
  let '(bits, acc, out) := fold_left b32_byte value (0, 0, []) in
  of_chars (if bits >? 0 then out ++ [b32_letter (js_and (js_shl acc (5 - bits)) 31)] else out).

Fixpoint index_of (c : ascii) (l : list ascii) (i : Z) : Z :=
  match l with
  | [] => -1
  | d :: l => if Ascii.eqb c d then i else index_of c l (i + 1)
  end.
(** [.replace(/=+$/u, '')] *)
Fixpoint strip_padding (l : list ascii) : list ascii :=
  match l with
  | [] => []
  | c :: l => match strip_padding l with
              | [] => if Ascii.eqb c "=" then [] else [c]
              | k => c :: k
              end
  end.
Definition b32_char (s : Z * Z * list Z) (c : ascii) : result (Z * Z * list Z) :=
  let '(bits, acc, out) := s in
  let index := index_of c base32Alphabet 0 in
  _ ← throw_if (index <? 0) (JsError "Invalid Base32");
  let acc := js_or (js_shl acc 5) index in
  let bits := bits + 5 in
  Ok (if bits >=? 8 then (bits - 8, acc, out ++ [js_and (js_ushr acc (bits - 8)) 255]) else (bits, acc, out)).
Definition base32Decode (value : string) : result (list Z) :=
  s ← fold_result b32_char (0, 0, []) (strip_padding (chars (to_upper value)));
  Ok (snd s).

(** ** One-time passwords *)

(** [createHmac('sha1', key).update(message).digest()] *)
Class HmacSha1 := {
  hmac_sha1 : list Z -> list Z -> list Z;
  hmac_sha1_length : forall k m, length (hmac_sha1 k m) = 20%nat;
  hmac_sha1_bytes : forall k m, Forall is_byte (hmac_sha1 k m);
}.

(** [digest[i] ?? 0] *)
Definition byte_at (l : list Z) (i : Z) : Z := nth (Z.to_nat i) l 0.

Section Totp.
Context `{S1 : HmacSha1}.

Definition truncate (digest : list Z) : Z :=
  let offset := js_and (byte_at digest (Z.of_nat (length digest) - 1)) 15 in
  js_or (js_or (js_or (js_shl (js_and (byte_at digest offset) 127) 24) (js_shl (byte_at digest (offset + 1)) 16))
               (js_shl (byte_at digest (offset + 2)) 8))
        (byte_at digest (offset + 3)).

(** [timestamp] in milliseconds. *)
Definition totp (secretBase32 : string) (timestamp stepSeconds : Z) : result string :=
  let counter := timestamp / (1000 * stepSeconds) in
  _ ← throw_if ((counter <? 0) || (counter >=? 2 ^ 64)) (RangeError "ERR_OUT_OF_RANGE");
  key ← base32Decode secretBase32;
  Ok (pad_start 6 (truncate (hmac_sha1 key (be_bytes 8 counter)) mod 1000000)).

Fixpoint verify_windows (secretBase32 code : string) (timestamps : list Z) : result bool :=
  match timestamps with
  | [] => Ok false
  | t :: ts =>
      expected ← totp secretBase32 t 30;
      if bool_decide (utf8 code = utf8 expected) then Ok true else verify_windows secretBase32 code ts
  end.
Definition verifyTotp (secretBase32 code : string) (timestamp : Z) : result bool :=
  verify_windows secretBase32 code [timestamp - 30000; timestamp; timestamp + 30000].
End Totp.

(** ** Tokens and envelopes *)

(** AES-256-GCM: key, nonce, associated data, plaintext to ciphertext and
    tag; opening fails on a wrong tag. *)
Class Aead := {
  seal : list Z -> list Z -> list Z -> list Z -> list Z * list Z;
  open_sealed : list Z -> list Z -> list Z -> list Z * list Z -> option (list Z);
  open_seal : forall k n a p, open_sealed k n a (seal k n a p) = Some p;
}.

Record CipherEnvelope := {
  ciphertext : list Z; env_nonce : list Z; authTag : list Z; keyId : string; env_fingerprint : string; valueDigest : list Z;
}.

Section Envelope.
Context `{H : Hash} `{A : Aead}.
Definition tokenDigest (token : string) : list Z := hash (utf8 token).
Definition fingerprint (token : string) : string := of_chars (firstn 16 (chars (hex (tokenDigest token)))).
Definition randomToken (bytes : list Z) : string := base64url bytes.

Definition new_EnvelopeCipher (key : list Z) (id : string) : result (list Z * string) :=
  _ ← throw_if (negb (length key =? 32)%nat) (JsError "Master key must be exactly 32 bytes");
  Ok (key, id).
(** [nonce] are the 12 random bytes. *)
Definition encrypt (cipher : list Z * string) (nonce : list Z) (value associatedData : string) : CipherEnvelope :=
  let '(c, t) := seal (fst cipher) nonce (utf8 associatedData) (utf8 value) in
  let digest := hash (utf8 value) in
  {| ciphertext := c; env_nonce := nonce; authTag := t; keyId := snd cipher;
     env_fingerprint := of_chars (firstn 16 (chars (hex digest))); valueDigest := digest |}.
(** Plaintexts that are not UTF-8 are outside the model. *)
Definition decrypt (cipher : list Z * string) (e : CipherEnvelope) (associatedData : string) : result string :=
  plain ← or_throw (open_sealed (fst cipher) (env_nonce e) (utf8 associatedData) (ciphertext e, authTag e))
            (JsError "Unsupported state or unable to authenticate data");
  or_throw (utf8_decode plain) (JsError "invalid UTF-8").

Lemma decrypt_encrypt cipher nonce value ad : decrypt cipher (encrypt cipher nonce value ad) ad = Ok value.
Proof.
  unfold encrypt, decrypt. destruct (seal _ _ _ _) as [c t] eqn:E. cbn. rewrite <- E, open_seal. cbn.
  by rewrite utf8_decode_utf8.
Qed.
End Envelope.

(** ** Theory *)

Lemma to_int32_mod z k : 0 <= k <= 32 -> to_int32 z mod 2 ^ k = z mod 2 ^ k.
Proof.
  intros Hk. unfold to_int32.
  assert (Hd : 2 ^ 32 = 2 ^ (32 - k) * 2 ^ k) by (rewrite <- Z.pow_add_r by lia; f_equal; lia).
  assert (Hp : 0 < 2 ^ k) by (apply Z.pow_pos_nonneg; lia).
  assert (E : (z mod 2 ^ 32) mod 2 ^ k = z mod 2 ^ k).
  { rewrite Hd. rewrite Z.mul_comm. rewrite Z.rem_mul_r by lia.
    rewrite Z.mul_comm, Z.mod_add by lia. apply Z.mod_mod. lia. }
  destruct (z mod 2 ^ 32 >=? 2 ^ 31); [|done].
  replace (z mod 2 ^ 32 - 2 ^ 32) with (z mod 2 ^ 32 + - 2 ^ (32 - k) * 2 ^ k) by lia. by rewrite Z.mod_add by lia.
Qed.

(** The low bits of the accumulator after a shift and an or. *)
Lemma shl_or_mod acc n b k :
  0 <= n -> n <= k <= 32 -> 0 <= b < 2 ^ n -> js_or (js_shl acc n) b mod 2 ^ k = (acc * 2 ^ n + b) mod 2 ^ k.
Proof.
  intros Hn Hk Hb. unfold js_or, js_shl.
  assert (Hland : Z.land (to_int32 (Z.shiftl acc n)) b = 0).
  { apply Z.bits_inj'. intros i Hi. rewrite Z.land_spec, Z.bits_0. destruct (Z.lt_ge_cases i n) as [Hlt|Hge].
    - assert (E : Z.testbit (to_int32 (Z.shiftl acc n)) i = false).
      { rewrite <- (Z.mod_pow2_bits_low _ n) by lia. rewrite to_int32_mod by lia.
        rewrite Z.shiftl_mul_pow2, Z.mod_mul by lia. apply Z.bits_0. }
      by rewrite E.
    - destruct (Z.eq_dec b 0) as [->|]; [by rewrite Z.bits_0, andb_false_r|].
      rewrite (Z.bits_above_log2 b i); [apply andb_false_r|lia|].
      apply Z.lt_le_trans with n; [apply Z.log2_lt_pow2; lia|done]. }
  pose proof (Z.add_lor_land (to_int32 (Z.shiftl acc n)) b) as E. rewrite Hland, Z.add_0_r in E. rewrite E.
  rewrite Z.add_mod, to_int32_mod, <- Z.add_mod, Z.shiftl_mul_pow2 by lia. done.
Qed.

Lemma ushr_and acc k n : 0 <= k -> 0 <= n -> k + n <= 32 -> js_and (js_ushr acc k) (Z.ones n) = (acc / 2 ^ k) mod 2 ^ n.
Proof.
  intros Hk Hn Hkn. unfold js_and, js_ushr. rewrite Z.land_ones, <- Z.shiftr_div_pow2 by lia.
  apply Z.bits_inj'. intros i Hi. destruct (Z.lt_ge_cases i n).
  - rewrite !Z.mod_pow2_bits_low, !Z.shiftr_spec, Z.mod_pow2_bits_low by lia. done.
  - by rewrite !Z.mod_pow2_bits_high by lia.
Qed.

(** The pending bits of an accumulator. *)
Definition pending (bits acc : Z) : Z := acc mod 2 ^ bits.

Lemma take_bits bits acc n : 0 <= n <= bits -> bits <= 32 ->
  (acc / 2 ^ (bits - n)) mod 2 ^ n = pending bits acc / 2 ^ (bits - n) /\
  pending (bits - n) acc = pending bits acc mod 2 ^ (bits - n).
Proof.
  intros Hn Hb. unfold pending. set (k := bits - n).
  assert (E : 2 ^ bits = 2 ^ k * 2 ^ n) by (rewrite <- Z.pow_add_r by lia; f_equal; lia).
  assert (0 < 2 ^ k) by (apply Z.pow_pos_nonneg; lia). assert (0 < 2 ^ n) by (apply Z.pow_pos_nonneg; lia).
  rewrite E, Z.rem_mul_r by lia. split.
  - rewrite Z.add_comm, Z.mul_comm, Z.div_add_l by lia. rewrite (Z.div_small (acc mod 2 ^ k)) by (apply Z.mod_pos_bound; lia). lia.
  - rewrite Z.mul_comm, Z.mod_add, Z.mod_mod by lia. done.
Qed.

(** *** The letters *)

Lemma letter_index n : 0 <= n < 32 ->
  index_of (b32_letter n) base32Alphabet 0 = n /\ to_upper_char (b32_letter n) = b32_letter n /\ b32_letter n <> "="%char.
Proof.
  intros Hn. assert (H : all_below 32 (fun n => (index_of (b32_letter n) base32Alphabet 0 =? n)
    && Ascii.eqb (to_upper_char (b32_letter n)) (b32_letter n) && negb (Ascii.eqb (b32_letter n) "=")) = true) by reflexivity.
  apply (all_below_spec 32 _ n) in H; [|done]. cbn in H. reflect_bools.
  split; [done|]. split; [by apply Ascii.eqb_eq|]. by apply Ascii.eqb_neq.
Qed.

Lemma pending_push bits acc k n :
  0 <= bits -> 0 <= k -> bits + k <= 32 -> 0 <= n < 2 ^ k ->
  pending (bits + k) (js_or (js_shl acc k) n) = pending bits acc * 2 ^ k + n.
Proof.
  intros Hb Hk Hbk Hn. unfold pending. rewrite shl_or_mod by (try lia; done).
  rewrite Z.add_comm, (Z.add_comm bits), Z.pow_add_r, Z.rem_mul_r by (try lia; apply Z.pow_nonzero; lia).
  rewrite Z.mod_add, Z.mod_small, Z.div_add, Z.div_small by lia. rewrite Z.add_0_l. ring.
Qed.

Lemma pending_bound bits acc : 0 <= bits -> 0 <= pending bits acc < 2 ^ bits.
Proof. intros Hb. apply Z.mod_pos_bound, Z.pow_pos_nonneg; lia. Qed.

Lemma letter_value bits acc : 5 <= bits <= 32 ->
  js_and (js_ushr acc (bits - 5)) 31 = pending bits acc / 2 ^ (bits - 5).
Proof.
  intros Hb. change 31 with (Z.ones 5). rewrite ushr_and by lia. by apply (take_bits bits acc 5); lia.
Qed.
Lemma byte_value bits acc : 8 <= bits <= 32 ->
  js_and (js_ushr acc (bits - 8)) 255 = pending bits acc / 2 ^ (bits - 8).
Proof.
  intros Hb. change 255 with (Z.ones 8). rewrite ushr_and by lia. by apply (take_bits bits acc 8); lia.
Qed.
Lemma pending_rest bits acc n : 0 <= n <= bits -> bits <= 32 -> pending (bits - n) acc = pending bits acc mod 2 ^ (bits - n).
Proof. intros Hn Hb. by apply take_bits. Qed.

(** *** One step of the encoder and of the decoder *)

Lemma encoder_step eb ea out b :
  0 <= eb < 5 -> 0 <= b < 256 ->
  let w := pending eb ea * 256 + b in
  let eb' := if eb <? 2 then eb + 3 else eb - 2 in
  let ls := if eb <? 2 then [w / 2 ^ (eb + 3)] else [w / 2 ^ (eb + 3); w mod 2 ^ (eb + 3) / 2 ^ (eb - 2)] in
  exists ea', b32_byte (eb, ea, out) b = (eb', ea', out ++ map b32_letter ls) /\ pending eb' ea' = w mod 2 ^ eb'.
Proof.
  intros He Hb w. exists (js_or (js_shl ea 8) b). set (ea' := js_or (js_shl ea 8) b).
  assert (Hw : pending (eb + 8) ea' = w) by (apply pending_push; lia).
  assert (R1 : pending (eb + 3) ea' = w mod 2 ^ (eb + 3)).
  { replace (eb + 3) with (eb + 8 - 5) by lia. rewrite pending_rest, Hw by lia. done. }
  unfold b32_byte. fold ea'. cbn [b32_drain].
  destruct (Z.geb_spec (eb + 8) 5); [|lia]. rewrite letter_value, Hw by lia.
  replace (eb + 8 - 5) with (eb + 3) by lia.
  destruct (Z.ltb_spec eb 2) as [Hlt|Hge].
  - destruct (Z.geb_spec (eb + 3) 5); [lia|]. by split.
  - destruct (Z.geb_spec (eb + 3) 5); [|lia]. rewrite letter_value, R1 by lia.
    replace (eb + 3 - 5) with (eb - 2) by lia.
    destruct (Z.geb_spec (eb - 2) 5); [lia|]. split; [by rewrite <- app_assoc|].
    replace (eb - 2) with (eb + 8 - 10) by lia. rewrite pending_rest, Hw by lia. done.
Qed.

Lemma decoder_step db da out n :
  0 <= db < 8 -> 0 <= n < 32 ->
  let u := pending db da * 32 + n in
  let db' := if db <? 3 then db + 5 else db - 3 in
  exists da', b32_char (db, da, out) (b32_letter n) = Ok (db', da', if db <? 3 then out else out ++ [u / 2 ^ (db - 3)])
    /\ pending db' da' = u mod 2 ^ db'.
Proof.
  intros Hd Hn u. exists (js_or (js_shl da 5) n). set (da' := js_or (js_shl da 5) n).
  assert (Hu : pending (db + 5) da' = u) by (apply pending_push; lia).
  pose proof (pending_bound (db + 5) da') as Hub. rewrite Hu in Hub.
  unfold b32_char. destruct (letter_index n Hn) as (-> & _ & _).
  replace (n <? 0) with false by (symmetry; apply Z.ltb_ge; lia). cbn [throw_if mbind result_bind]. fold da'.
  destruct (Z.ltb_spec db 3) as [Hlt|Hge].
  - destruct (Z.geb_spec (db + 5) 8); [lia|]. split; [done|]. rewrite Hu, Z.mod_small; [done|]. apply Hub. lia.
  - destruct (Z.geb_spec (db + 5) 8); [|lia]. rewrite byte_value, Hu by lia.
    replace (db + 5 - 8) with (db - 3) by lia. split; [done|].
    replace (db - 3) with (db + 5 - 8) by lia. rewrite pending_rest, Hu by lia. done.
Qed.

(** *** The two in lock step

    The encoder has read [bytes] and holds [eb] bits; the decoder that has
    read its letters has written [dout] and lacks these bits. *)
Definition in_step (eb ea db da : Z) (bytes dout : list Z) : Prop :=
  0 <= eb < 5 /\
  ((eb = 0 /\ db = 0 /\ dout = bytes) \/
   (0 < eb /\ db = 8 - eb /\ bytes = dout ++ [pending db da * 2 ^ eb + pending eb ea])).

(** Evaluates the closed sums, differences, powers and tests. *)
Ltac is_constant t := match t with Z0 => idtac | Zpos _ => idtac | Zneg _ => idtac end.
Ltac fold_constant f a b := is_constant a; is_constant b; let r := eval vm_compute in (f a b) in change (f a b) with r in *.
Ltac fold_constants :=
  repeat match goal with
  | _ : context [Z.add ?a ?b] |- _ => fold_constant Z.add a b
  | _ : context [Z.sub ?a ?b] |- _ => fold_constant Z.sub a b
  | _ : context [Z.pow ?a ?b] |- _ => fold_constant Z.pow a b
  | _ : context [Z.ltb ?a ?b] |- _ => fold_constant Z.ltb a b
  | |- context [Z.add ?a ?b] => fold_constant Z.add a b
  | |- context [Z.sub ?a ?b] => fold_constant Z.sub a b
  | |- context [Z.pow ?a ?b] => fold_constant Z.pow a b
  end.
#[local] Ltac Zify.zify_post_hook ::= Z.to_euclidean_division_equations.

Lemma snoc_snoc {A} (l : list A) x y x' y' : x = x' -> y = y' -> (l ++ [x]) ++ [y] = (l ++ [x']) ++ [y'].
Proof. by intros -> ->. Qed.

(** Runs the decoder over one letter. *)
Ltac decode_letter db da out n da' D P :=
  destruct (decoder_step db da out n) as (da' & D & P); [lia|lia|]; fold_constants; cbv beta iota zeta in D, P.
Ltac conclude_step Henc :=
  eexists _, _, _, _, _, _; split; [exact Henc|]; split; [repeat constructor; lia|].

Lemma lock_step eb ea db da bytes dout out b :
  in_step eb ea db da bytes dout -> 0 <= b < 256 ->
  exists eb' ea' db' da' dout' ls,
    b32_byte (eb, ea, out) b = (eb', ea', out ++ map b32_letter ls) /\ Forall (fun n => 0 <= n < 32) ls /\
    fold_result b32_char (db, da, dout) (map b32_letter ls) = Ok (db', da', dout') /\
    in_step eb' ea' db' da' (bytes ++ [b]) dout'.
Proof.
  intros [He Hs] Hb. destruct (encoder_step eb ea out b He Hb) as (ea' & Henc & Hea).
  pose proof (pending_bound eb ea ltac:(lia)) as Hv. set (v := pending eb ea) in *.
  assert (Hcases : eb = 0 \/ eb = 1 \/ eb = 2 \/ eb = 3 \/ eb = 4) by lia.
  destruct Hs as [(-> & -> & ->)|(Hpos & -> & ->)].
  - fold_constants. cbv beta iota zeta in Henc, Hea. assert (v = 0) as -> by lia.
    pose proof (pending_bound 0 da ltac:(lia)) as Hd. fold_constants.
    decode_letter 0 da bytes ((0 * 256 + b) / 8) da1 D1 P1.
    conclude_step Henc. split; [cbn [map fold_result]; rewrite D1; reflexivity|].
    split; [lia|]. right. split; [lia|]. split; [lia|]. fold_constants. rewrite P1, Hea.
    f_equal. f_equal. lia.
  - pose proof (pending_bound (8 - eb) da ltac:(lia)) as Hd.
    destruct Hcases as [->|[->|[->|[->| ->]]]]; [lia|..]; fold_constants; cbv beta iota zeta in Henc, Hea;
      match type of Hd with 0 <= pending ?k da < _ => set (d := pending k da) in * end.
    + decode_letter 7 da dout ((v * 256 + b) / 16) da1 D1 P1. fold d in D1, P1.
      conclude_step Henc. split; [cbn [map fold_result]; rewrite D1; reflexivity|].
      split; [lia|]. right. split; [lia|]. split; [lia|]. fold_constants. rewrite P1, Hea.
      apply snoc_snoc; lia.
    + decode_letter 6 da dout ((v * 256 + b) / 32) da1 D1 P1. fold d in D1, P1.
      decode_letter 3 da1 (dout ++ [(d * 32 + (v * 256 + b) / 32) / 8]) ((v * 256 + b) mod 32 / 1) da2 D2 P2.
      conclude_step Henc. split; [cbn [map fold_result]; rewrite D1; cbn [mbind result_bind]; rewrite D2; reflexivity|].
      split; [lia|]. left. split; [lia|]. split; [lia|]. rewrite P1. apply snoc_snoc; lia.
    + decode_letter 5 da dout ((v * 256 + b) / 64) da1 D1 P1. fold d in D1, P1.
      decode_letter 2 da1 (dout ++ [(d * 32 + (v * 256 + b) / 64) / 4]) ((v * 256 + b) mod 64 / 2) da2 D2 P2.
      conclude_step Henc. split; [cbn [map fold_result]; rewrite D1; cbn [mbind result_bind]; rewrite D2; reflexivity|].
      split; [lia|]. right. split; [lia|]. split; [lia|]. fold_constants. rewrite P2, P1, Hea. apply snoc_snoc; lia.
    + decode_letter 4 da dout ((v * 256 + b) / 128) da1 D1 P1. fold d in D1, P1.
      decode_letter 1 da1 (dout ++ [(d * 32 + (v * 256 + b) / 128) / 2]) ((v * 256 + b) mod 128 / 4) da2 D2 P2.
      conclude_step Henc. split; [cbn [map fold_result]; rewrite D1; cbn [mbind result_bind]; rewrite D2; reflexivity|].
      split; [lia|]. right. split; [lia|]. split; [lia|]. fold_constants. rewrite P2, P1, Hea. apply snoc_snoc; lia.
Qed.

Lemma encode_run value :
  Forall is_byte value ->
  exists eb ea db da dout ls,
    fold_left b32_byte value (0, 0, []) = (eb, ea, map b32_letter ls) /\ Forall (fun n => 0 <= n < 32) ls /\
    fold_result b32_char (0, 0, []) (map b32_letter ls) = Ok (db, da, dout) /\ in_step eb ea db da value dout.
Proof.
  induction value as [|b value IH] using rev_ind; intros Hv.
  - exists 0, 0, 0, 0, [], []. split_and!; try done. split; [lia|]. by left.
  - apply Forall_app in Hv as [Hv Hb]. apply (proj1 (Forall_singleton _ _)) in Hb.
    destruct (IH Hv) as (eb & ea & db & da & dout & ls & E & Hl & D & S).
    destruct (lock_step eb ea db da value dout (map b32_letter ls) b S Hb)
      as (eb' & ea' & db' & da' & dout' & ls' & E' & Hl' & D' & S').
    exists eb', ea', db', da', dout', (ls ++ ls'). rewrite fold_left_app. cbn [fold_left]. rewrite E, E', map_app.
    split_and!; [done|by apply Forall_app| |done]. rewrite fold_result_app, D. exact D'.
Qed.

Lemma last_letter eb ea : 0 < eb < 5 -> js_and (js_shl ea (5 - eb)) 31 = pending eb ea * 2 ^ (5 - eb).
Proof.
  intros He. change 31 with (Z.ones 5). unfold js_and, js_shl. rewrite Z.land_ones, to_int32_mod by lia.
  rewrite Z.shiftl_mul_pow2 by lia. unfold pending.
  replace (2 ^ 5) with (2 ^ eb * 2 ^ (5 - eb)) by (rewrite <- Z.pow_add_r by lia; f_equal; lia).
  rewrite Z.mul_mod_distr_r; [done| |]; apply Z.pow_nonzero; lia.
Qed.

Lemma final_letter eb ea db da value dout :
  in_step eb ea db da value dout -> 0 < eb ->
  exists n s, js_and (js_shl ea (5 - eb)) 31 = n /\ 0 <= n < 32 /\ b32_char (db, da, dout) (b32_letter n) = Ok s /\ snd s = value.
Proof.
  intros [He [(-> & _)|(_ & -> & ->)]] Hpos; [lia|].
  pose proof (last_letter eb ea ltac:(lia)) as El. pose proof (pending_bound eb ea ltac:(lia)) as Hv.
  pose proof (pending_bound (8 - eb) da ltac:(lia)) as Hd.
  set (v := pending eb ea) in *. set (d := pending (8 - eb) da) in *.
  assert (Hcases : eb = 1 \/ eb = 2 \/ eb = 3 \/ eb = 4) by lia.
  exists (v * 2 ^ (5 - eb)).
  destruct (decoder_step (8 - eb) da dout (v * 2 ^ (5 - eb))) as (da' & D & _).
  - lia.
  - destruct Hcases as [->|[->|[->| ->]]]; fold_constants; lia.
  - eexists. split; [done|]. split; [destruct Hcases as [->|[->|[->| ->]]]; fold_constants; lia|].
    split; [exact D|]. cbn [snd]. fold d.
    destruct Hcases as [->|[->|[->| ->]]]; fold_constants; cbv beta iota; f_equal; f_equal; lia.
Qed.

Lemma strip_padding_id l : Forall (fun c => c <> "="%char) l -> strip_padding l = l.
Proof.
  induction 1 as [|c l Hc _ IH]; cbn; [done|]. rewrite IH. destruct l; [|done].
  by destruct (Ascii.eqb_spec c "=").
Qed.

Lemma letters_prepared ls :
  Forall (fun n => 0 <= n < 32) ls ->
  strip_padding (chars (to_upper (of_chars (map b32_letter ls)))) = map b32_letter ls.
Proof.
  intros Hl. unfold to_upper. rewrite !chars_of_chars, map_map.
  rewrite (map_ext_in _ b32_letter ls).
  - apply strip_padding_id. apply Forall_forall. intros c (n & <- & Hn)%list_elem_of_In%in_map_iff.
    rewrite Forall_forall in Hl. by apply letter_index, Hl, list_elem_of_In.
  - intros n Hn. rewrite Forall_forall in Hl. by apply letter_index, Hl, list_elem_of_In.
Qed.

Definition code_is (r : result string) (code : string) : bool :=
  match r with Ok c => String.eqb c code | Throw _ => false end.

Lemma verify_windows_Ok secret code ts `{S1 : HmacSha1} :
  (forall t, In t ts -> is_Ok (totp secret t 30) = true) ->
  verify_windows secret code ts = Ok (existsb (fun t => code_is (totp secret t 30) code) ts).
Proof.
  induction ts as [|t ts IH]; intros Hok; cbn; [done|].
  pose proof (Hok t (or_introl eq_refl)) as Ht. destruct (totp secret t 30) as [expected|] eqn:E; [|done].
  cbn [mbind result_bind]. destruct (decide (code = expected)) as [->|N].
  - rewrite bool_decide_true by done. cbn. by rewrite String.eqb_refl.
  - rewrite (bool_decide_false (utf8 code = utf8 expected)) by (by intros ?%utf8_inj). cbn.
    rewrite (proj2 (String.eqb_neq expected code)) by congruence. cbn. apply IH. intros t' Ht'. apply Hok. by right.
Qed.

(** ** Properties *)

(** Base32 round trip on the 32-bit accumulators: decoding the text of any byte string gives it
    back, whatever its length, although both accumulators overflow their 32 bits on the way. *)
Theorem base32_round_trip value : Forall is_byte value -> base32Decode (base32Encode value) = Ok value.
Proof.
  intros Hv. destruct (encode_run value Hv) as (eb & ea & db & da & dout & ls & E & Hl & D & S).
  unfold base32Encode. rewrite E. destruct (Z.gtb_spec eb 0) as [Hpos|Hle].
  - destruct (final_letter _ _ _ _ _ _ S Hpos) as (n & s & -> & Hn & Dn & Hs).
    change [b32_letter n] with (map b32_letter [n]). rewrite <- map_app. unfold base32Decode.
    rewrite letters_prepared by (apply Forall_app; split; [done|by apply Forall_singleton]).
    rewrite map_app, fold_result_app, D. cbn [mbind result_bind map fold_result]. rewrite Dn. cbn. by rewrite Hs.
  - unfold base32Decode. rewrite letters_prepared, D by done. cbn.
    destruct S as [He [(_ & _ & ->)|(? & _)]]; [done|lia].
Qed.

Lemma base32_round_trip_witness : base32Decode (base32Encode [0; 255; 16; 7; 200; 3; 99]) = Ok [0; 255; 16; 7; 200; 3; 99].
Proof. apply (base32_round_trip [0; 255; 16; 7; 200; 3; 99]). apply (bool_decide_unpack _). vm_compute. exact I. Defined.

(** One-time codes: when the three neighbouring steps have codes, verification accepts exactly the code of the
    previous, the current or the next 30-second step. *)
Theorem verifyTotp_window `{S1 : HmacSha1} secret code t :
  (forall d, In d [-30000; 0; 30000] -> is_Ok (totp secret (t + d) 30) = true) ->
  exists b, verifyTotp secret code t = Ok b /\
    (b = true <-> exists d, In d [-30000; 0; 30000] /\ totp secret (t + d) 30 = Ok code).
Proof.
  intros Hok. assert (E : [t - 30000; t; t + 30000] = map (fun d => t + d) [-30000; 0; 30000])
    by (cbn; repeat f_equal; lia).
  unfold verifyTotp. rewrite E. rewrite verify_windows_Ok.
  - eexists. split; [done|]. rewrite existsb_exists. split.
    + intros (x & (d & <- & Hd)%in_map_iff & Hx). exists d. split; [done|]. unfold code_is in Hx.
      destruct (totp secret (t + d) 30); [|done]. by apply String.eqb_eq in Hx as ->.
    + intros (d & Hd & Hx). exists (t + d). split; [by apply (in_map (fun d => t + d))|]. rewrite Hx. apply String.eqb_refl.
  - intros x (d & <- & Hd)%in_map_iff. by apply Hok.
Qed.

Definition toy_sha1 : HmacSha1.
Proof.
  refine {| hmac_sha1 := fun k m => firstn 20 (map (fun x => x mod 256) (rev m ++ k) ++ repeat 0 20) |}.
  - intros k m. rewrite length_firstn, length_app, repeat_length. lia.
  - intros k m. apply Forall_take, Forall_app. split.
    + apply List.Forall_map, List.Forall_forall. intros x _. unfold is_byte. apply Z.mod_pos_bound. lia.
    + apply (bool_decide_unpack _). exact I.
Defined.
(** A cipher that only authenticates: the tag is a digest of everything but the key. *)
Definition toy_aead : Aead.
Proof.
  refine {| seal := fun k n a p => (p, firstn 16 (hash (Hash := toy_hash) (n ++ a ++ p)));
            open_sealed := fun k n a c => if bool_decide (c.2 = firstn 16 (hash (Hash := toy_hash) (n ++ a ++ c.1))) then Some c.1 else None |}.
  intros k n a p. by rewrite bool_decide_eq_true_2.
Defined.
Lemma verifyTotp_window_witness :
  exists b, @verifyTotp toy_sha1 "JBSWY3DPEHPK3PXP" "000000" 1700000000000 = Ok b /\
    (b = true <-> exists d, In d [-30000; 0; 30000] /\ @totp toy_sha1 "JBSWY3DPEHPK3PXP" (1700000000000 + d) 30 = Ok "000000").
Proof.
  apply (@verifyTotp_window toy_sha1 "JBSWY3DPEHPK3PXP" "000000" 1700000000000).
  intros d [<-|[<-|[<-|[]]]]; vm_compute; reflexivity.
Defined.
