(* ===== verification/Egress.v ===== *)
(** * Egress policy

    [packages/worker-runtime/src/egress-policy.ts]: the forbidden address
    ranges, the check of DNS answers, the authorization of a URL and the
    pinned request.  Parsing of addresses and URLs is the platform's
    ([isIP], [URL]): a parameter of the model. *)
From Stdlib Require Import Ascii String.
From S2P Require Import Prelude Bytes Json IpcFrame.

(** ** Addresses *)

(** A parsed address as a number of 32 or 128 bits. *)
Inductive ip := V4 (n : Z) | V6 (n : Z).
(** [isIP] and the address parser of [BlockList]; [None] is family 0. *)
Class Net := { ip_parse : string -> option ip }.

Definition v4 (a b c d : Z) : Z := ((a * 256 + b) * 256 + c) * 256 + d.
(** An IPv6 address given by its leading groups, the rest zero. *)
Fixpoint v6_groups (groups : list Z) (n : nat) : Z :=
  match n with
  | O => 0
  | S n => hd 0 groups * 65536 ^ Z.of_nat n + v6_groups (tl groups) n
  end.
Definition v6 (groups : list Z) : Z := v6_groups groups 8.

(** [forbiddenAddresses] *)
Definition forbidden_v4 : list (Z * Z) :=
  [(v4 0 0 0 0, 8); (v4 10 0 0 0, 8); (v4 100 64 0 0, 10); (v4 127 0 0 0, 8); (v4 169 254 0 0, 16); (v4 172 16 0 0, 12);
   (v4 192 0 0 0, 24); (v4 192 0 2 0, 24); (v4 192 168 0 0, 16); (v4 198 18 0 0, 15); (v4 198 51 100 0, 24);
   (v4 203 0 113 0, 24); (v4 224 0 0 0, 4); (v4 240 0 0 0, 4)].
(** [::], [::1], [fc00::], [fe80::], [ff00::], [2001:db8::] *)
Definition forbidden_v6 : list (Z * Z) :=
  [(0, 128); (1, 128); (v6 [64512], 7); (v6 [65152], 10); (v6 [65280], 8); (v6 [8193; 3512], 32)].

(** The prefix of [prefix] bits of a [width]-bit number *)
Definition in_subnet (width n : Z) (net : Z * Z) : bool :=
  Z.shiftr n (width - snd net) =? Z.shiftr (fst net) (width - snd net).
(** An IPv4-mapped IPv6 address is also checked against the IPv4 subnets. *)
Definition mapped_v4 (n : Z) : option Z := if Z.shiftr n 32 =? 65535 then Some (n mod 2 ^ 32) else None.
(** [forbiddenAddresses.check] *)
Definition blocklist_check (a : ip) : bool :=
  match a with
  | V4 n => existsb (in_subnet 32 n) forbidden_v4
  | V6 n => existsb (in_subnet 128 n) forbidden_v6
            || match mapped_v4 n with Some m => existsb (in_subnet 32 m) forbidden_v4 | None => false end
  end.

(** [/^::ffff:(...)$/iu]: the dotted quad of a mapped address *)
Definition short_number (s : string) : bool :=
  (1 <=? String.length s)%nat && (String.length s <=? 3)%nat && str_forallb is_digit s.
Definition mapped_quad (address : string) : option string :=
  let prefix := String.substring 0 7 address in
  let rest := String.substring 7 (String.length address - 7) address in
  if String.eqb (to_upper prefix) "::FFFF:" && (length (split_on "."%char rest) =? 4)%nat
     && forallb short_number (split_on "."%char rest)
  then Some rest else None.

Section Egress.
Context `{N : Net}.

(** The recursion of the source is one level deep: a dotted quad is not a
    mapped address. *)
Definition isForbiddenEgressAddress (address : string) : bool :=
  let address := match mapped_quad address with Some quad => quad | None => address end in
  match ip_parse address with
  | None => true
  | Some a => blocklist_check a
  end.

(** ** DNS answers *)

Record LookupAddress := { address : string; family : Z }.
#[export] Instance LookupAddress_eq_dec : EqDecision LookupAddress.
Proof. solve_decision. Defined.
Definition answer_key (a : LookupAddress) : string := dec (family a) +:+ ":" +:+ address a.

(** [new Map(...)] keeps the place of the first and the value of the last
    entry of a key. *)
Definition unique_answers (l : list LookupAddress) : list LookupAddress :=
  map snd (fold_left (fun m a => define_prop (answer_key a) a m) l []).

Definition assertPublicDnsAnswers (answers : list LookupAddress) : result (list LookupAddress) :=
  _ ← throw_if (length answers =? 0)%nat (JsError "EGRESS_DNS_EMPTY");
  _ ← throw_if (existsb (fun a => isForbiddenEgressAddress (address a)) answers) (JsError "EGRESS_DNS_ADDRESS_DENIED");
  Ok (unique_answers answers).
Definition resolvePublicAddresses (resolver : string -> result (list LookupAddress)) (hostname : string)
    : result (list LookupAddress) :=
  answers ← resolver hostname; assertPublicDnsAnswers answers.

(** ** URLs *)

Record Url := {
  protocol : string; username : string; password : string; hostname : string; origin : string;
  pathname : string; search : string; url_hash : string; href : string;
}.
(** [new URL(text)] and [new URL(text, base)] *)
Class UrlParser := { url_parse : string -> option Url; url_resolve : string -> Url -> option Url }.

Record EgressPolicy := {
  baseUrl : string;
  allowedPaths : list string;
  allowedMethods : list string;
  timeoutMs : Z;
  maxRequestBytes : Z;
  maxResponseBytes : Z;
  allowPlainHttp : bool;
}.

Definition is_letter (c : ascii) : bool := is_upper c || is_lower c.
Definition scheme_char (c : ascii) : bool :=
  is_letter c || is_digit c || existsb (Ascii.eqb c) ["+"; "."; "-"]%char.
(** [/^[a-z][a-z0-9+.-]*:/iu.test(path)] *)
Definition has_scheme (path : string) : bool :=
  match split_chars ":" (chars path) with
  | (c :: cs) :: _ :: _ => is_letter c && forallb scheme_char cs
  | _ => false
  end.
Definition backslash : ascii := char_of 92.

Definition path_allowed (path prefix : string) : bool :=
  String.eqb path prefix
  || starts_with (if ends_with_char "/"%char prefix then prefix else prefix +:+ "/") path.

Context `{U : UrlParser}.

Definition authorizeEgressUrl (policy : EgressPolicy) (relativePath method : string) : result Url :=
  base ← or_throw (url_parse (baseUrl policy)) (JsError "ERR_INVALID_URL");
  _ ← throw_if (truthy (username base) || truthy (password base) || truthy (url_hash base)) (JsError "EGRESS_TARGET_URL_INVALID");
  _ ← throw_if (negb (String.eqb (protocol base) "https:")
                && negb (allowPlainHttp policy && String.eqb (protocol base) "http:")) (JsError "EGRESS_TLS_REQUIRED");
  _ ← throw_if (has_scheme relativePath || starts_with "//" relativePath || includes_char backslash relativePath)
        (JsError "EGRESS_ABSOLUTE_URL_DENIED");
  url ← or_throw (url_resolve relativePath base) (JsError "ERR_INVALID_URL");
  _ ← throw_if (negb (String.eqb (origin url) (origin base)) || truthy (username url) || truthy (password url) || truthy (url_hash url))
        (JsError "EGRESS_ORIGIN_MISMATCH");
  _ ← throw_if (negb (existsb (String.eqb (to_upper method)) (map to_upper (allowedMethods policy)))) (JsError "EGRESS_METHOD_DENIED");
  _ ← throw_if (negb (existsb (path_allowed (pathname url)) (allowedPaths policy))) (JsError "EGRESS_PATH_DENIED");
  Ok url.

(** ** The pinned request *)

(** What the transport reports, in any order the network produces it. *)
Inductive net_event :=
| Data (chunk : list Z) | ResponseError (e : exn) | End (status : Z) (headers : list (string * json)) | RequestError (e : exn) | Deadline.

Record pinned_response := { rs_status : Z; rs_headers : list (string * json); rs_body : list Z; remoteAddress : string }.
Record request_state := {
  settled : option (result pinned_response);
  settlements : nat;
  chunks : list (list Z);
  received : Z;
  destroyed : option exn;
}.
Definition new_request : request_state :=
  {| settled := None; settlements := 0; chunks := []; received := 0; destroyed := None |}.

Definition settle (r : result pinned_response) (s : request_state) : request_state :=
  match settled s with
  | Some _ => s
  | None => {| settled := Some r; settlements := S (settlements s); chunks := chunks s; received := received s;
               destroyed := destroyed s |}
  end.
(** [request.destroy(error)]: the error is reported later as an event. *)
Definition destroy_request (e : exn) (s : request_state) : request_state :=
  {| settled := settled s; settlements := settlements s; chunks := chunks s; received := received s;
     destroyed := match destroyed s with Some e' => Some e' | None => Some e end |}.

Definition on_net_event (selected : LookupAddress) (maxBytes : Z) (s : request_state) (ev : net_event) : request_state :=
  match ev with
  | Data chunk =>
      let n := received s + lengthZ chunk in
      let s' := {| settled := settled s; settlements := settlements s; chunks := chunks s; received := n; destroyed := destroyed s |} in
      if n >? maxBytes then destroy_request (JsError "EGRESS_RESPONSE_TOO_LARGE") s'
      else {| settled := settled s; settlements := settlements s; chunks := chunks s ++ [chunk]; received := n; destroyed := destroyed s |}
  | ResponseError e | RequestError e => settle (Throw e) s
  | End status headers =>
      settle (Ok {| rs_status := status; rs_headers := headers; rs_body := concat (chunks s); remoteAddress := address selected |}) s
  | Deadline => destroy_request (JsError "EGRESS_DEADLINE_EXCEEDED") s
  end.

(** [performPinnedRequest]: [events] are what the transport reported; the
    connection goes to the selected answer whatever the name resolves to
    later. *)
Definition performPinnedRequest (resolver : string -> result (list LookupAddress)) (url : Url) (maxBytes : Z)
    (events : list net_event) : result (LookupAddress * request_state) :=
  answers ← resolvePublicAddresses resolver (hostname url);
  selected ← or_throw (head answers) (JsError "EGRESS_DNS_EMPTY");
  Ok (selected, fold_left (on_net_event selected maxBytes) events new_request).
End Egress.

(** ** Theory *)

Section EgressTheory.
Context `{N : Net}.

Lemma define_prop_values {A} k (v : A) m x : In x (map snd (define_prop k v m)) -> x = v \/ In x (map snd m).
Proof.
  induction m as [|[k' v'] m IH]; cbn; [by intros [->|[]]; left|].
  destruct (String.eqb k k'); cbn; [by intros [->|Hx]; auto|].
  intros [->|Hx]; [by auto|]. destruct (IH Hx) as [->|]; auto.
Qed.

Lemma unique_answers_sub l x : In x (unique_answers l) -> In x l.
Proof.
  unfold unique_answers. intros Hx.
  assert (G : forall l m, In x (map snd (fold_left (fun m a => define_prop (answer_key a) a m) l m)) -> In x l \/ In x (map snd m)).
  { clear. induction l as [|a l IH]; intros m; cbn; [by right|].
    intros [Hx|Hx]%IH; [by auto|]. apply define_prop_values in Hx as [->|Hx]; auto. }
  by destruct (G l [] Hx) as [|[]].
Qed.

Lemma assertPublic_Ok answers out :
  assertPublicDnsAnswers answers = Ok out ->
  forall a, In a out -> In a answers /\ Forall (fun a => isForbiddenEgressAddress (address a) = false) answers.
Proof.
  unfold assertPublicDnsAnswers. intros Ha a Hin. inv_ok. subst out. split; [by apply unique_answers_sub|].
  apply Forall_forall. intros b Hb%list_elem_of_In. destruct (isForbiddenEgressAddress (address b)) eqn:E; [|done].
  match goal with X : existsb _ _ = false |- _ => rewrite <- X end. symmetry. apply existsb_exists. eauto.
Qed.

(** What a permitted address is: parsed, and outside every listed range. *)
Lemma permitted_address s :
  isForbiddenEgressAddress s = false ->
  exists a, ip_parse (default s (mapped_quad s)) = Some a /\ blocklist_check a = false.
Proof.
  unfold isForbiddenEgressAddress. destruct (mapped_quad s); cbn; destruct (ip_parse _) as [a|]; try done; eauto.
Qed.

Definition body_bounded (maxBytes : Z) (selected : LookupAddress) (s : request_state) : Prop :=
  (settlements s = match settled s with Some _ => 1 | None => 0 end)%nat /\
  lengthZ (concat (chunks s)) <= Z.min maxBytes (received s) /\
  forall r, settled s = Some (Ok r) -> lengthZ (rs_body r) <= maxBytes /\ remoteAddress r = address selected.

Lemma settle_bounded maxBytes selected r s :
  body_bounded maxBytes selected s ->
  (forall x, r = Ok x -> lengthZ (rs_body x) <= maxBytes /\ remoteAddress x = address selected) ->
  body_bounded maxBytes selected (settle r s).
Proof.
  intros (Hn & Hc & Hr) Hx. unfold settle, body_bounded. destruct (settled s) eqn:E; cbn; rewrite ?E; [by split_and!|].
  rewrite Hn. split_and!; [done|done|]. intros x [= ->]. by apply Hx.
Qed.

Lemma on_net_event_bounded maxBytes selected s ev :
  0 <= maxBytes -> body_bounded maxBytes selected s -> body_bounded maxBytes selected (on_net_event selected maxBytes s ev).
Proof.
  intros Hm Hb. pose proof Hb as (Hn & Hc & Hr). destruct ev as [chunk|e|status headers|e|]; cbn.
  - pose proof (Zle_0_nat (length chunk)) as Hl. destruct (Z.gtb_spec (received s + lengthZ chunk) maxBytes).
    + split_and!; cbn; [done|unfold lengthZ in *; lia|done].
    + split_and!; cbn; [done| |done]. rewrite concat_app. cbn. rewrite app_nil_r. unfold lengthZ in *.
      rewrite length_app. lia.
  - by apply settle_bounded.
  - apply settle_bounded; [done|]. intros x [= <-]. cbn. split; [lia|done].
  - by apply settle_bounded.
  - by split_and!.
Qed.

Lemma authorizeEgressUrl_Ok `{U : UrlParser} policy path method url :
  authorizeEgressUrl policy path method = Ok url ->
  exists base, url_parse (baseUrl policy) = Some base /\ origin url = origin base /\
    (protocol base = "https:" \/ allowPlainHttp policy = true /\ protocol base = "http:") /\
    existsb (path_allowed (pathname url)) (allowedPaths policy) = true.
Proof.
  unfold authorizeEgressUrl. intros Ha. inv_ok. reflect_bools. subst url. eexists. split_and!; try done.
  match goal with X : _ && _ = false |- _ => apply andb_false_iff in X as [X|X]; reflect_bools end; [by left|right].
  by match goal with X : _ && _ = true |- _ => apply andb_true_iff in X as [??]; reflect_bools | |- _ => idtac end.
Qed.
End EgressTheory.

(** ** Properties *)

Section Properties.
Context `{N : Net}.

(** Pinned egress: whatever the resolver answers and whatever the network then reports, the connection goes to one of the
    answers, none of which is a forbidden address (unparsable, loopback, private, link-local, reserved or
    mapped); the promise is settled at most once; and a returned body never exceeds the response limit and
    names the address that was checked. *)
Theorem pinned_request_public resolver url maxBytes events selected s :
  0 <= maxBytes -> performPinnedRequest resolver url maxBytes events = Ok (selected, s) ->
  (exists answers, resolver (hostname url) = Ok answers /\ In selected answers /\
     Forall (fun a => exists i, ip_parse (default (address a) (mapped_quad (address a))) = Some i /\ blocklist_check i = false) answers) /\
  (settlements s <= 1)%nat /\
  (forall r, settled s = Some (Ok r) -> lengthZ (rs_body r) <= maxBytes /\ remoteAddress r = address selected).
Proof.
  intros Hm. unfold performPinnedRequest, resolvePublicAddresses. intros Hp. inv_ok. inversion Hp; subst.
  match goal with X : assertPublicDnsAnswers _ = Ok ?o, Y : head ?o = Some _ |- _ =>
    rename X into Ha; rename Y into Hh; destruct o as [|z o]; [discriminate|]; injection Hh as -> end.
  destruct (assertPublic_Ok _ _ Ha selected) as [Hin Hall]; [by left|]. split.
  { eexists. split_and!; [eassumption|done|]. eapply Forall_impl; [exact Hall|]. intros x. apply permitted_address. }
  assert (B : body_bounded maxBytes selected (fold_left (on_net_event selected maxBytes) events new_request)).
  { assert (G : forall l s, body_bounded maxBytes selected s -> body_bounded maxBytes selected (fold_left (on_net_event selected maxBytes) l s)).
    { induction l as [|ev l IH]; intros s0 Hs0; cbn [fold_left]; [done|]. by apply IH, on_net_event_bounded. }
    apply G. split_and!; cbn; [done|unfold lengthZ; cbn; lia|done]. }
  destruct B as (Hn & _ & Hr). split; [|done]. rewrite Hn. destruct (settled _); lia.
Qed.
End Properties.

(** ** Witnesses *)

(** Dotted quads only. *)
Definition toy_net : Net :=
  {| ip_parse := fun s => match map parse_dec (split_on "."%char s) with
                          | [Some a; Some b; Some c; Some d] => Some (V4 (v4 a b c d)) | _ => None end |}.
Definition sample_url : Url :=
  {| protocol := "https:"; username := ""; password := ""; hostname := "example.org"; origin := "https://example.org";
     pathname := "/v1/x"; search := ""; url_hash := ""; href := "https://example.org/v1/x" |}.
Definition sample_answer : LookupAddress := {| address := "::FFFF:93.184.216.34"; family := 6 |}.
Definition sample_resolver (h : string) : result (list LookupAddress) := Ok [sample_answer].
Definition sample_events : list net_event := [Data [1; 2]; Data [3; 4; 5]; End 200 []; Deadline].
Definition sample_final : request_state := fold_left (on_net_event sample_answer 8) sample_events new_request.

Lemma pinned_request_public_witness :
  (settlements sample_final <= 1)%nat /\
  (forall r, settled sample_final = Some (Ok r) -> lengthZ (rs_body r) <= 8 /\ remoteAddress r = "::FFFF:93.184.216.34").
Proof.
  apply (@pinned_request_public toy_net sample_resolver sample_url 8 sample_events sample_answer sample_final).
  - lia.
  - vm_compute. reflexivity.
Defined.
