(* ===== verification/Authority.v ===== *)
(** * Authority lineage, provenance, execution lineage and preview tickets

    [packages/agentic-authority], [packages/content-provenance],
    [packages/worker-runtime/src/broker-authority.ts] and
    [packages/browser-preview-protocol]. *)
From Stdlib Require Import Ascii String.
From S2P Require Import Prelude Bytes Json Digest CanonicalValue IpcFrame IpcChannel IpcBroker.

Definition jnull_str (o : option string) : json := match o with Some s => JStr s | None => JNull end.
Definition opt_ok (p : string -> bool) (o : option string) : bool := match o with Some s => p s | None => true end.

(** ** Authority lineage *)

Inductive authority_kind := OWNER_FULL | DELEGATED_OPERATION | SYSTEM_RECONCILIATION.
Definition authority_kind_name (k : authority_kind) : string :=
  match k with
  | OWNER_FULL => "OWNER_FULL" | DELEGATED_OPERATION => "DELEGATED_OPERATION"
  | SYSTEM_RECONCILIATION => "SYSTEM_RECONCILIATION"
  end.
Inductive argument_origin := OWNER_LITERAL | OWNER_DOCUMENT | TRUSTED_STATE | TOOL_RESULT | MODEL_DERIVED.
Definition argument_origin_name (o : argument_origin) : string :=
  match o with
  | OWNER_LITERAL => "OWNER_LITERAL" | OWNER_DOCUMENT => "OWNER_DOCUMENT" | TRUSTED_STATE => "TRUSTED_STATE"
  | TOOL_RESULT => "TOOL_RESULT" | MODEL_DERIVED => "MODEL_DERIVED"
  end.
Record argument_source := { as_origin : argument_origin; as_sourceRef : string; as_valueDigest : string }.
Record secret_use := {
  su_secretId : string; su_targetIdentity : string; su_operation : string; su_purpose : string; su_expiresAt : string;
}.

(** The lineage without its digest. *)
Record UnsignedLineage := {
  lineageId : string;
  authorityKind : authority_kind;
  sourceOwnerMessageId : option string;
  sourceSpecificationRevisionId : option string;
  operationContextDigest : string;
  exactBindingDigest : option string;
  targetOperation : string;
  targetId : option string;
  argumentOrigins : list (string * argument_source);
  secretUseContexts : list secret_use;
  createdAt : string;
}.
Record AuthorityLineage := { unsigned : UnsignedLineage; lineage_digest : string }.

Record argument_input := { ai_value : json; ai_origin : argument_origin; ai_sourceRef : string }.
Record CompileAuthorityInput := {
  ci_lineageId : string;
  ci_authorityKind : authority_kind;
  ci_sourceOwnerMessageId : option string;
  ci_sourceSpecificationRevisionId : option string;
  ci_operationContextDigest : string;
  ci_exactBindingDigest : option string;
  ci_targetOperation : string;
  ci_targetId : option string;
  ci_arguments : list (string * argument_input);
  ci_secretUseContexts : option (list secret_use);
  ci_createdAt : string;
}.

Section Authority.
Context `{L : Locale} `{H : Hash} `{F : Formats}.

Definition source_json (s : argument_source) : json :=
  JObj [("origin", JStr (argument_origin_name (as_origin s))); ("sourceRef", JStr (as_sourceRef s));
        ("valueDigest", JStr (as_valueDigest s))].
Definition secret_use_json (s : secret_use) : json :=
  JObj [("secretId", JStr (su_secretId s)); ("targetIdentity", JStr (su_targetIdentity s)); ("operation", JStr (su_operation s));
        ("purpose", JStr (su_purpose s)); ("expiresAt", JStr (su_expiresAt s))].
Definition lineage_json (u : UnsignedLineage) : json :=
  JObj [("lineageId", JStr (lineageId u)); ("authorityKind", JStr (authority_kind_name (authorityKind u)));
        ("sourceOwnerMessageId", jnull_str (sourceOwnerMessageId u));
        ("sourceSpecificationRevisionId", jnull_str (sourceSpecificationRevisionId u));
        ("operationContextDigest", JStr (operationContextDigest u)); ("exactBindingDigest", jnull_str (exactBindingDigest u));
        ("targetOperation", JStr (targetOperation u)); ("targetId", jnull_str (targetId u));
        ("argumentOrigins", JObj (map (fun kv => (fst kv, source_json (snd kv))) (argumentOrigins u)));
        ("secretUseContexts", JArr (map secret_use_json (secretUseContexts u))); ("createdAt", JStr (createdAt u))].

(** [authorityLineageSchema] beyond the shape of the record *)
Definition lineage_schema_ok (l : AuthorityLineage) : bool :=
  let u := unsigned l in
  uuid_ok (lineageId u) && opt_ok uuid_ok (sourceOwnerMessageId u) && opt_ok uuid_ok (sourceSpecificationRevisionId u)
  && digest_ok (operationContextDigest u) && opt_ok digest_ok (exactBindingDigest u) && truthy (targetOperation u)
  && opt_ok uuid_ok (targetId u)
  && forallb (fun kv => truthy (as_sourceRef (snd kv)) && digest_ok (as_valueDigest (snd kv))) (argumentOrigins u)
  && forallb (fun s => uuid_ok (su_secretId s) && is_some (datetime_ms (su_expiresAt s))) (secretUseContexts u)
  && is_some (datetime_ms (createdAt u)) && digest_ok (lineage_digest l).

Definition compile_argument (kv : string * argument_input) : string * argument_source :=
  (fst kv, {| as_origin := ai_origin (snd kv); as_sourceRef := ai_sourceRef (snd kv);
              as_valueDigest := canonicalDigest (ai_value (snd kv)) |}).
Definition compileAuthorityLineage (i : CompileAuthorityInput) : result AuthorityLineage :=
  let u := {| lineageId := ci_lineageId i; authorityKind := ci_authorityKind i;
              sourceOwnerMessageId := ci_sourceOwnerMessageId i;
              sourceSpecificationRevisionId := ci_sourceSpecificationRevisionId i;
              operationContextDigest := ci_operationContextDigest i; exactBindingDigest := ci_exactBindingDigest i;
              targetOperation := ci_targetOperation i; targetId := ci_targetId i;
              argumentOrigins := map compile_argument (object_entries (ci_arguments i));
              secretUseContexts := default [] (ci_secretUseContexts i); createdAt := ci_createdAt i |} in
  let l := {| unsigned := u; lineage_digest := canonicalDigest (lineage_json u) |} in
  _ ← throw_if (negb (lineage_schema_ok l)) ZodError;
  Ok l.

(** The text is parsed again before it is digested. *)
Definition verifyAuthorityLineage (l : AuthorityLineage) : result bool :=
  _ ← throw_if (negb (lineage_schema_ok l)) ZodError;
  j ← or_throw (JSON_parse (canonicalJson (lineage_json (unsigned l)))) (JsError "SyntaxError");
  Ok (String.eqb (lineage_digest l) (canonicalDigest j)).

Definition assertSecretUse (l : AuthorityLineage) (secretId targetIdentity operation : string) (now : Z) : result unit :=
  let context := List.find (fun s => String.eqb (su_secretId s) secretId && String.eqb (su_targetIdentity s) targetIdentity
                                     && String.eqb (su_operation s) operation) (secretUseContexts (unsigned l)) in
  throw_if (match context with
            | None => true
            | Some s => match datetime_ms (su_expiresAt s) with Some t => t <=? now | None => false end
            end) (JsError "SECRET_USE_CONTEXT_REQUIRED").

(** ** Provenance *)

Inductive trust_class := OWNER_AUTHORITY | TRUSTED_PLATFORM | UNTRUSTED_CONTENT.
#[export] Instance trust_class_eq_dec : EqDecision trust_class.
Proof. solve_decision. Defined.
Definition trust_class_name (t : trust_class) : string :=
  match t with
  | OWNER_AUTHORITY => "OWNER_AUTHORITY" | TRUSTED_PLATFORM => "TRUSTED_PLATFORM" | UNTRUSTED_CONTENT => "UNTRUSTED_CONTENT"
  end.
Record provenance_source := {
  ps_sourceRef : string; ps_sourceKind : string; ps_trustClass : trust_class; ps_contentDigest : string; ps_observedAt : string;
}.
Record value_derivation := {
  vd_fieldPath : string; vd_valueDigest : string; vd_derivationKind : string; vd_sourceRefs : list string;
  vd_expression : option string;
}.
Record provenance_input := {
  pi_sources : list provenance_source; pi_derivations : list value_derivation; pi_ignored : list string;
}.
Record ProvenanceEnvelope := { pe_input : provenance_input; pe_digest : string }.

Definition source_kinds : list string :=
  ["OWNER_MESSAGE"; "OWNER_DOCUMENT"; "SSOT"; "TOOL_RESULT"; "BROWSER_OBSERVATION"; "SYSTEM_STATE"].
Definition derivation_kinds : list string := ["COPIED"; "NORMALIZED"; "CALCULATED"; "MODEL_PROPOSED"; "OWNER_CONFIRMED"].
Definition one_of (l : list string) (s : string) : bool := existsb (String.eqb s) l.
Definition provenance_source_ok (s : provenance_source) : bool :=
  truthy (ps_sourceRef s) && one_of source_kinds (ps_sourceKind s) && digest_ok (ps_contentDigest s)
  && is_some (datetime_ms (ps_observedAt s)).
Definition derivation_ok (d : value_derivation) : bool :=
  truthy (vd_fieldPath d) && digest_ok (vd_valueDigest d) && one_of derivation_kinds (vd_derivationKind d)
  && negb (length (vd_sourceRefs d) =? 0)%nat && forallb truthy (vd_sourceRefs d).
Definition provenance_json (i : provenance_input) : json :=
  JObj [("sources", JArr (map (fun s => JObj [("sourceRef", JStr (ps_sourceRef s)); ("sourceKind", JStr (ps_sourceKind s));
          ("trustClass", JStr (trust_class_name (ps_trustClass s))); ("contentDigest", JStr (ps_contentDigest s));
          ("observedAt", JStr (ps_observedAt s))]) (pi_sources i)));
        ("derivations", JArr (map (fun d => JObj [("fieldPath", JStr (vd_fieldPath d)); ("valueDigest", JStr (vd_valueDigest d));
          ("derivationKind", JStr (vd_derivationKind d)); ("sourceRefs", JArr (map JStr (vd_sourceRefs d)));
          ("expression", jnull_str (vd_expression d))]) (pi_derivations i)));
        ("untrustedInstructionsIgnored", JArr (map JStr (pi_ignored i)))].
Definition compileProvenance (i : provenance_input) : result ProvenanceEnvelope :=
  let e := {| pe_input := i; pe_digest := canonicalDigest (provenance_json i) |} in
  _ ← throw_if (negb (forallb provenance_source_ok (pi_sources i) && forallb derivation_ok (pi_derivations i) && digest_ok (pe_digest e)))
        ZodError;
  Ok e.
Definition untrusted_refs (e : ProvenanceEnvelope) : list string :=
  map ps_sourceRef (List.filter (fun s => bool_decide (ps_trustClass s = UNTRUSTED_CONTENT)) (pi_sources (pe_input e))).
(** A violation that is the empty string is not reported. *)
Definition assertNoUntrustedAuthority (e : ProvenanceEnvelope) (authoritySourceRefs : list string) : result unit :=
  match List.find (fun r => one_of (untrusted_refs e) r) authoritySourceRefs with
  | Some violation => throw_if (truthy violation) (JsError ("UNTRUSTED_CONTENT_CANNOT_GRANT_AUTHORITY:" +:+ violation))
  | None => Ok tt
  end.

(** ** Execution lineage *)

(** The tables of the query, with the columns it reads. *)
Record context_row := {
  e_id : string; e_execution_kind : string; e_source_object_kind : string; e_source_object_id : string;
  e_source_revision_id : string; e_binding_set_revision_id : string; e_activation_epoch : Z; e_platform_incarnation_id : string;
  e_application_deployment_epoch : Z; e_declared : option string; e_lifecycle : string; e_state : string;
  e_completed : bool; e_deleted : bool;
}.
Record binding_revision_row := { b_id : string; b_binding_set_id : string; b_revision_number : Z }.
Record binding_set_row := { sb_id : string; sb_current_revision_id : option string }.
Record incarnation_row := { p_singleton_key : Z; p_platform_incarnation_id : string }.
Record deployment_row := { d_singleton_key : Z; d_current_epoch : Z }.
Record activation_row := { a_singleton_key : Z; a_current_epoch : Z; a_current_activation_set_id : option string }.
Record instance_row := {
  r_id : string; r_component_id : string; r_source_revision_id : string; r_binding_set_revision_id : string;
  r_activation_epoch : Z; r_platform_incarnation_id : string; r_application_deployment_epoch : Z;
  r_desired_state : string; r_effective_state : string; r_runtime_generation : Z;
}.
Record component_row := {
  c_id : string; c_lifecycle : string; c_activation_state : string; c_enabled : bool; c_active_revision_id : option string;
  c_active_binding_set_revision_id : option string; c_current_activation_epoch : option Z;
}.
Record authority_tables := {
  t_contexts : list context_row; t_revisions : list binding_revision_row; t_sets : list binding_set_row;
  t_incarnations : list incarnation_row; t_deployments : list deployment_row; t_activations : list activation_row;
  t_instances : list instance_row; t_components : list component_row;
}.
Record execution_row := {
  x_e : context_row; x_b : binding_revision_row; x_sb : binding_set_row; x_p : incarnation_row; x_d : deployment_row;
  x_a : activation_row; x_r : option instance_row; x_c : option component_row;
}.
Record RawLineage := {
  executionId : string; executionKind : string; sourceObjectKind : string; sourceObjectId : string; sourceRevisionId : string;
  bindingSetRevisionId : string; bindingSetRevisionNumber : string; activationEpoch : string; activationSetId : option string;
  runtimeInstanceId : option string; runtimeGeneration : string; platformIncarnationId : string; applicationDeploymentEpoch : string;
}.
Record RuntimeExecutionLineage := { raw : RawLineage; lineageDigest : string }.

Definition raw_json (r : RawLineage) : json :=
  JObj [("executionId", JStr (executionId r)); ("executionKind", JStr (executionKind r));
        ("sourceObjectKind", JStr (sourceObjectKind r)); ("sourceObjectId", JStr (sourceObjectId r));
        ("sourceRevisionId", JStr (sourceRevisionId r)); ("bindingSetRevisionId", JStr (bindingSetRevisionId r));
        ("bindingSetRevisionNumber", JStr (bindingSetRevisionNumber r)); ("activationEpoch", JStr (activationEpoch r));
        ("activationSetId", jnull_str (activationSetId r)); ("runtimeInstanceId", jnull_str (runtimeInstanceId r));
        ("runtimeGeneration", JStr (runtimeGeneration r)); ("platformIncarnationId", JStr (platformIncarnationId r));
        ("applicationDeploymentEpoch", JStr (applicationDeploymentEpoch r))].
Definition runtimeLineageDigest (j : json) : string := sha256 (canonicalJson j).
Definition non_empty_column (o : option string) : option string :=
  match o with Some s => if truthy s then Some s else None | None => None end.

(** [LEFT JOIN]: a row without a partner stays, with nulls. *)
Definition left_join {A} (p : A -> bool) (l : list A) : list (option A) :=
  match List.filter p l with [] => [None] | k => map Some k end.
(** [column = value] on a nullable column; null is not true. *)
Definition sql_eq {A} `{EqDecision A} (o : option A) (v : A) : bool := bool_decide (o = Some v).
Definition is_component (e : context_row) : bool := String.eqb (e_execution_kind e) "COMPONENT".
Definition instance_of (e : context_row) (r : instance_row) : bool :=
  is_component e && String.eqb (r_component_id r) (e_source_object_id e)
  && String.eqb (r_source_revision_id r) (e_source_revision_id e)
  && String.eqb (r_binding_set_revision_id r) (e_binding_set_revision_id e)
  && (r_activation_epoch r =? e_activation_epoch e)
  && String.eqb (r_platform_incarnation_id r) (e_platform_incarnation_id e)
  && (r_application_deployment_epoch r =? e_application_deployment_epoch e)
  && String.eqb (r_desired_state r) "READY" && String.eqb (r_effective_state r) "READY".
Definition component_active (e : context_row) (o : option component_row) : bool :=
  match o with
  | Some c => String.eqb (c_lifecycle c) "ACTIVE" && String.eqb (c_activation_state c) "ACTIVE" && c_enabled c
              && sql_eq (c_active_revision_id c) (e_source_revision_id e)
              && sql_eq (c_active_binding_set_revision_id c) (e_binding_set_revision_id e)
              && sql_eq (c_current_activation_epoch c) (e_activation_epoch e)
  | None => false
  end.
Definition where_active (id : string) (e : context_row) (c : option component_row) : bool :=
  String.eqb (e_id e) id && String.eqb (e_lifecycle e) "ACTIVE" && String.eqb (e_state e) "ACTIVE"
  && negb (e_completed e) && negb (e_deleted e) && (negb (is_component e) || component_active e c).
(** The [SELECT] of [loadRuntimeExecutionLineage] *)
Definition execution_query (t : authority_tables) (id : string) : list execution_row :=
  e ← t_contexts t;
  b ← List.filter (fun b => String.eqb (b_id b) (e_binding_set_revision_id e)) (t_revisions t);
  sb ← List.filter (fun s => String.eqb (sb_id s) (b_binding_set_id b) && sql_eq (sb_current_revision_id s) (b_id b)) (t_sets t);
  p ← List.filter (fun p => (p_singleton_key p =? 1) && String.eqb (p_platform_incarnation_id p) (e_platform_incarnation_id e))
        (t_incarnations t);
  d ← List.filter (fun d => (d_singleton_key d =? 1) && (d_current_epoch d =? e_application_deployment_epoch e)) (t_deployments t);
  a ← List.filter (fun a => (a_singleton_key a =? 1) && (a_current_epoch a =? e_activation_epoch e)) (t_activations t);
  r ← left_join (instance_of e) (t_instances t);
  c ← left_join (fun c => is_component e && String.eqb (c_id c) (e_source_object_id e)) (t_components t);
  if where_active id e c then [{| x_e := e; x_b := b; x_sb := sb; x_p := p; x_d := d; x_a := a; x_r := r; x_c := c |}] else [].

(** [BigInt(text)] *)
Definition digits_value (base : Z) (l : list ascii) : option Z :=
  match l with
  | [] => None
  | _ => fold_left (fun acc c => v ← acc; d ← hex_value c; if d <? base then Some (v * base + d) else None) l (Some 0)
  end.
Definition js_BigInt (s : string) : option Z :=
  match trim_chars (chars s) with
  | [] => Some 0
  | "0"%char :: ("x" | "X")%char :: l => digits_value 16 l
  | "0"%char :: ("o" | "O")%char :: l => digits_value 8 l
  | "0"%char :: ("b" | "B")%char :: l => digits_value 2 l
  | "-"%char :: l => Z.opp <$> digits_value 10 l
  | "+"%char :: l => digits_value 10 l
  | l => digits_value 10 l
  end.

Definition runtime_generation (x : execution_row) : option string :=
  match x_r x with Some r => Some (dec (r_runtime_generation r)) | None => non_empty_column (e_declared (x_e x)) end.
Definition raw_of (x : execution_row) (generation : string) : RawLineage :=
  let e := x_e x in
  {| executionId := e_id e; executionKind := e_execution_kind e; sourceObjectKind := e_source_object_kind e;
     sourceObjectId := e_source_object_id e; sourceRevisionId := e_source_revision_id e;
     bindingSetRevisionId := e_binding_set_revision_id e; bindingSetRevisionNumber := dec (b_revision_number (x_b x));
     activationEpoch := dec (e_activation_epoch e); activationSetId := non_empty_column (a_current_activation_set_id (x_a x));
     runtimeInstanceId := non_empty_column (r_id <$> x_r x); runtimeGeneration := generation;
     platformIncarnationId := e_platform_incarnation_id e;
     applicationDeploymentEpoch := dec (e_application_deployment_epoch e) |}.
Definition loadRuntimeExecutionLineage (t : authority_tables) (id : string) : result RuntimeExecutionLineage :=
  row ← or_throw (match execution_query t id with [r] => Some r | _ => None end) (JsError "RUNTIME_EXECUTION_AUTHORITY_STALE");
  generation ← or_throw (runtime_generation row) (JsError "RUNTIME_GENERATION_AUTHORITY_MISSING");
  n ← or_throw (js_BigInt generation) (JsError "SyntaxError");
  _ ← throw_if (n <? 1) (JsError "RUNTIME_GENERATION_AUTHORITY_MISSING");
  let r := raw_of row generation in
  Ok {| raw := r; lineageDigest := runtimeLineageDigest (raw_json r) |}.

(** [lineage.lineageDigest.slice('sha256:'.length)] *)
Definition runtimeStateNamespace (l : RuntimeExecutionLineage) : string :=
  "runtime-state:" +:+ of_chars (skipn 7 (chars (lineageDigest l))).

Definition is_alnum (c : ascii) : bool := is_upper c || is_lower c || is_digit c.
Definition state_key_char (c : ascii) : bool := is_alnum c || existsb (Ascii.eqb c) ["."; "_"; ":"; "/"; "-"]%char.
(** A letter or digit, then up to 127 characters of a key *)
Definition assertRuntimeLocalStateKey (key : string) : result string :=
  _ ← throw_if (negb (match chars key with
                      | c :: cs => is_alnum c && (length cs <=? 127)%nat && forallb state_key_char cs | [] => false end))
        (JsError "RUNTIME_STATE_KEY_INVALID");
  Ok key.
(** [Buffer.byteLength(canonicalJson(toCanonicalJsonValue(value)))]: properties named [__proto__] are not counted. *)
Definition json_bytes (j : json) : Z := lengthZ (canonical_bytes j).
Definition assertStateDocumentWithinLimits (values : list (string * json)) : result unit :=
  _ ← throw_if (256 <? length values)%nat (JsError "RUNTIME_STATE_NAMESPACE_QUOTA_EXCEEDED");
  throw_if (json_bytes (JObj values) >? 1024 * 1024) (JsError "RUNTIME_STATE_NAMESPACE_QUOTA_EXCEEDED").
Definition assertStateValueWithinLimits (value : json) : result unit :=
  throw_if (json_bytes value >? 64 * 1024) (JsError "RUNTIME_STATE_VALUE_TOO_LARGE").

(** ** Preview tickets *)

Context `{M : Hmac}.

Record ticket_body := { tb_sessionId : string; tb_ownerSessionId : string; tb_expiresAt : string; tb_nonce : string }.
Definition ticket_json (b : ticket_body) : json :=
  JObj [("sessionId", JStr (tb_sessionId b)); ("ownerSessionId", JStr (tb_ownerSessionId b));
        ("expiresAt", JStr (tb_expiresAt b)); ("nonce", JStr (tb_nonce b))].
(** [nonce] are 16 random bytes. *)
Definition issuePreviewTicket (sessionId ownerSessionId : string) (key : list Z) (ttlSeconds now : Z) (nonce : list Z)
    : string * Z :=
  let expiresAt := now + ttlSeconds * 1000 in
  let b := {| tb_sessionId := sessionId; tb_ownerSessionId := ownerSessionId; tb_expiresAt := iso_string expiresAt;
              tb_nonce := base64url nonce |} in
  let body := base64url (utf8 (of_chars (print_chars (ticket_json b)))) in
  let signature := base64url (hmac key (utf8 body)) in
  (body +:+ "." +:+ signature, expiresAt).

Definition parse_ticket (j : json) : result ticket_body :=
  match j with
  | JObj l =>
      _ ← throw_if (negb (strict_keys ["sessionId"; "ownerSessionId"; "expiresAt"; "nonce"] l)) ZodError;
      match get_prop "sessionId" l, get_prop "ownerSessionId" l, get_prop "expiresAt" l, get_prop "nonce" l with
      | Some (JStr s), Some (JStr o), Some (JStr e), Some (JStr n) =>
          _ ← throw_if (negb (uuid_ok s && uuid_ok o && is_some (datetime_ms e))) ZodError;
          Ok {| tb_sessionId := s; tb_ownerSessionId := o; tb_expiresAt := e; tb_nonce := n |}
      | _, _, _, _ => Throw ZodError
      end
  | _ => Throw ZodError
  end.

Definition consumePreviewTicket (token : string) (key : list Z) (now : Z) : result ticket_body :=
  '(body, signature) ← or_throw (match split_on "."%char token with
        | body :: signature :: rest =>
            if truthy body && truthy signature && match rest with extra :: _ => negb (truthy extra) | [] => true end
            then Some (body, signature) else None
        | _ => None end) (JsError "PREVIEW_TICKET_INVALID");
  let expected := hmac key (utf8 body) in
  let actual := base64_decode signature in
  _ ← throw_if (negb (length actual =? length expected)%nat || negb (bool_decide (actual = expected))) (JsError "PREVIEW_TICKET_INVALID");
  j ← or_throw (parse_bytes (base64_decode body)) (JsError "SyntaxError");
  value ← parse_ticket j;
  _ ← throw_if (match datetime_ms (tb_expiresAt value) with Some t => t <=? now | None => false end) (JsError "PREVIEW_TICKET_EXPIRED");
  Ok value.

(** [PreviewSequence.accept]: [None] is a frame without a sequence. *)
Definition preview_accept (expected : Z) (sequence : option Z) : result Z :=
  match sequence with
  | None => Ok expected
  | Some n => _ ← throw_if (negb (n =? expected)) (JsError "PREVIEW_SEQUENCE_GAP"); Ok (expected + 1)
  end.
End Authority.

(** ** Theory *)

(** Equivalent objects agree on every property. *)
Lemma json_equiv_get_prop l k key :
  NoDup (map fst l) -> json_equiv (JObj l) (JObj k) ->
  option_Forall2 json_equiv (get_prop key l) (get_prop key k).
Proof.
  intros Hnd E. inversion E as [? Hs| |? l' ? Hp HF]; subst; [discriminate Hs|].
  assert (Hg : get_prop key l = get_prop key l').
  { clear E HF. revert Hnd. induction Hp as [| [a x] l l' Hp IH|[a x] [b y] l|l1 l2 l3 H1 IH1 H2 IH2]; cbn; intros Hnd.
    - done.
    - apply NoDup_cons in Hnd as [_ Hnd]. by rewrite IH.
    - repeat case_match; try done. reflect_bools. subst.
      apply NoDup_cons in Hnd as [Hn _]. set_solver.
    - rewrite IH1 by done. apply IH2. by rewrite <- H1. }
  rewrite Hg. clear -HF. induction HF as [|[a x] [b y] l k [Hab Hxy] _ IH]; cbn in *; [constructor|].
  subst b. case_match; [by constructor|done].
Qed.

Lemma json_equiv_str s t : json_equiv (JStr s) (JStr t) -> s = t.
Proof. by inversion 1. Qed.
Lemma json_equiv_jnull_str o o' : json_equiv (jnull_str o) (jnull_str o') -> o = o'.
Proof. destruct o, o'; cbn; inversion 1; congruence. Qed.

Section Theory.
Context `{L : Locale} `{H : Hash} `{F : Formats} `{M : Hmac}.

Lemma raw_json_wf r : wf_json (raw_json r) = true.
Proof.
  unfold raw_json. cbn [wf_json]. apply andb_true_iff. split.
  - apply bool_decide_eq_true. apply (bool_decide_unpack _). vm_compute. exact I.
  - cbn. by destruct (activationSetId r), (runtimeInstanceId r).
Qed.

Ltac compare_prop E key :=
  let H := fresh in let H' := fresh in
  pose proof (fun N => json_equiv_get_prop _ _ key N E) as H;
  specialize (H ltac:(apply (bool_decide_unpack _); vm_compute; exact I));
  cbn in H; inversion H as [? ? H'|]; clear H;
  first [apply json_equiv_str in H' | apply json_equiv_jnull_str in H'].

Lemma raw_json_inj r1 r2 : json_equiv (raw_json r1) (raw_json r2) -> r1 = r2.
Proof.
  intros E. destruct r1, r2. unfold raw_json in E. cbn in E.
  compare_prop E "executionId". compare_prop E "executionKind". compare_prop E "sourceObjectKind".
  compare_prop E "sourceObjectId". compare_prop E "sourceRevisionId". compare_prop E "bindingSetRevisionId".
  compare_prop E "bindingSetRevisionNumber". compare_prop E "activationEpoch". compare_prop E "activationSetId".
  compare_prop E "runtimeInstanceId". compare_prop E "runtimeGeneration". compare_prop E "platformIncarnationId".
  compare_prop E "applicationDeploymentEpoch". by subst.
Qed.

Lemma loaded_digest t id l :
  loadRuntimeExecutionLineage t id = Ok l -> lineageDigest l = canonicalDigest (raw_json (raw l)).
Proof. unfold loadRuntimeExecutionLineage. intros E. inv_ok. by subst. Qed.

Lemma namespace_digest s t :
  "runtime-state:" +:+ of_chars (skipn 7 (chars (canonicalDigest s)))
    = "runtime-state:" +:+ of_chars (skipn 7 (chars (canonicalDigest t))) ->
  canonicalDigest s = canonicalDigest t.
Proof.
  unfold canonicalDigest, sha256, sha256_text. set (a := hex _). set (b := hex _). clearbody a b.
  intros E. f_equal. apply (inj (String.append "runtime-state:")) in E. apply (f_equal chars) in E.
  rewrite !chars_of_chars, !chars_app in E. cbn [chars skipn app] in E. by apply chars_inj.
Qed.

(** Local state is isolated by lineage: two executions loaded from any two
    database states share a state namespace only when their lineages are equal in every
    field (execution, revision, bindings, epochs, instance, generation, incarnation,
    deployment), or SHA-256 has a collision. *)
Theorem state_namespace_isolates t1 id1 l1 t2 id2 l2 :
  loadRuntimeExecutionLineage t1 id1 = Ok l1 -> loadRuntimeExecutionLineage t2 id2 = Ok l2 ->
  runtimeStateNamespace l1 = runtimeStateNamespace l2 -> raw l1 = raw l2 \/ collision.
Proof.
  intros H1%loaded_digest H2%loaded_digest E. unfold runtimeStateNamespace in E. rewrite H1, H2 in E.
  apply namespace_digest, canonicalDigest_inj in E as [E|C]; auto using raw_json_wf.
  left. by apply raw_json_inj.
Qed.

Lemma elem_of_left_join {A} (p : A -> bool) l x : Some x ∈ left_join p l -> x ∈ l /\ p x = true.
Proof.
  unfold left_join. destruct (List.filter p l) as [|y k] eqn:E.
  - by intros ?%list_elem_of_singleton.
  - rewrite <- E. intros (z & [= <-] & Hz)%list_elem_of_fmap. by apply list_elem_of_In, filter_In in Hz as [?%list_elem_of_In ?].
Qed.

Lemma elem_of_filter_b {A} (p : A -> bool) l x : x ∈ List.filter p l <-> x ∈ l /\ p x = true.
Proof. rewrite !list_elem_of_In. apply filter_In. Qed.

(** What a row of the query is. *)
Lemma execution_query_row t id x :
  x ∈ execution_query t id ->
  let e := x_e x in
  e ∈ t_contexts t /\ where_active id e (x_c x) = true /\
  x_b x ∈ t_revisions t /\ b_id (x_b x) = e_binding_set_revision_id e /\
  x_sb x ∈ t_sets t /\ sb_id (x_sb x) = b_binding_set_id (x_b x) /\ sb_current_revision_id (x_sb x) = Some (b_id (x_b x)) /\
  x_p x ∈ t_incarnations t /\ p_singleton_key (x_p x) = 1 /\ p_platform_incarnation_id (x_p x) = e_platform_incarnation_id e /\
  x_d x ∈ t_deployments t /\ d_singleton_key (x_d x) = 1 /\ d_current_epoch (x_d x) = e_application_deployment_epoch e /\
  x_a x ∈ t_activations t /\ a_singleton_key (x_a x) = 1 /\ a_current_epoch (x_a x) = e_activation_epoch e /\
  (forall r, x_r x = Some r -> r ∈ t_instances t /\ instance_of e r = true) /\
  (forall c, x_c x = Some c -> c ∈ t_components t /\ is_component e = true /\ c_id c = e_source_object_id e).
Proof.
  unfold execution_query.
  intros (e & Hx & He)%list_elem_of_bind. apply list_elem_of_bind in Hx as (b & Hx & [Hb Eb]%elem_of_filter_b).
  apply list_elem_of_bind in Hx as (sb & Hx & [Hsb Esb]%elem_of_filter_b).
  apply list_elem_of_bind in Hx as (p & Hx & [Hp Ep]%elem_of_filter_b).
  apply list_elem_of_bind in Hx as (d & Hx & [Hd Ed]%elem_of_filter_b).
  apply list_elem_of_bind in Hx as (a & Hx & [Ha Ea]%elem_of_filter_b).
  apply list_elem_of_bind in Hx as (r & Hx & Hr). apply list_elem_of_bind in Hx as (c & Hx & Hc).
  destruct (where_active id e c) eqn:W; [|by apply elem_of_nil in Hx].
  apply list_elem_of_singleton in Hx as ->. cbn. unfold sql_eq in *. reflect_bools.
  split_and!; try done.
  - intros ? ->. by apply elem_of_left_join in Hr.
  - intros ? ->. apply elem_of_left_join in Hc as [? ?]. by reflect_bools.
Qed.

(** A lineage is resolved from current records only: the execution is the
    requested one, active and neither completed nor deleted; its binding revision is the
    current one of its binding set; its incarnation, deployment epoch and activation epoch
    are those of the singleton heads; a component execution has an enabled active
    component at exactly that revision, binding and epoch; and the generation is positive,
    taken from a READY instance of the same lineage when there is one. *)
Theorem lineage_current t id l :
  loadRuntimeExecutionLineage t id = Ok l ->
  exists x, execution_query t id = [x] /\ raw l = raw_of x (runtimeGeneration (raw l)) /\
    let e := x_e x in
    e ∈ t_contexts t /\ executionId (raw l) = id /\ where_active id e (x_c x) = true /\
    (exists sb, sb ∈ t_sets t /\ sb_current_revision_id sb = Some (bindingSetRevisionId (raw l))) /\
    (exists p, p ∈ t_incarnations t /\ p_singleton_key p = 1 /\ p_platform_incarnation_id p = platformIncarnationId (raw l)) /\
    (exists d, d ∈ t_deployments t /\ d_singleton_key d = 1 /\ dec (d_current_epoch d) = applicationDeploymentEpoch (raw l)) /\
    (exists a, a ∈ t_activations t /\ a_singleton_key a = 1 /\ dec (a_current_epoch a) = activationEpoch (raw l)) /\
    (executionKind (raw l) = "COMPONENT" ->
       exists c, c ∈ t_components t /\ c_id c = sourceObjectId (raw l) /\ c_enabled c = true /\
         c_lifecycle c = "ACTIVE" /\ c_activation_state c = "ACTIVE" /\
         c_active_revision_id c = Some (sourceRevisionId (raw l)) /\
         c_active_binding_set_revision_id c = Some (bindingSetRevisionId (raw l))) /\
    (exists n, js_BigInt (runtimeGeneration (raw l)) = Some n /\ 1 <= n) /\
    (forall r, x_r x = Some r -> r ∈ t_instances t /\ instance_of e r = true /\
       runtimeGeneration (raw l) = dec (r_runtime_generation r)).
Proof.
  unfold loadRuntimeExecutionLineage. intros E. inv_ok. subst l. cbn [raw].
  destruct (execution_query t id) as [|x [|]] eqn:Q; try discriminate. injection Hok as ->.
  rename a into x. pose proof (execution_query_row t id x) as Hx. rewrite Q in Hx.
  specialize (Hx ltac:(by constructor)). cbn in Hx.
  destruct Hx as (He & W & _ & Eb & Hsb & _ & Ecur & Hp & Ep1 & Ep & Hd & Ed1 & Ed & Ha & Ea1 & Ea & Hr & Hc).
  exists x. unfold raw_of; cbn. pose proof W as W'. unfold where_active in W'. reflect_bools.
  split_and!; try done.
  - exists (x_sb x). by rewrite Ecur, Eb.
  - by exists (x_p x).
  - exists (x_d x). by rewrite Ed.
  - exists (x_a x). by rewrite Ea.
  - intros EK. match goal with O : negb (is_component _) || _ = true |- _ => rename O into HO end.
    unfold is_component in HO. rewrite EK in HO. cbn in HO. destruct (x_c x) as [c|]; [|done].
    destruct (Hc c eq_refl) as (? & _ & ?). exists c. cbn in HO. unfold sql_eq in HO. reflect_bools. done.
  - eexists. split; [eassumption|]. reflect_bools. lia.
  - intros r Er. destruct (Hr r Er) as [? ?]. unfold runtime_generation in Hok0. rewrite Er in Hok0. split_and!; congruence.
Qed.

(** *** Preview tickets *)

Lemma letter_not_dot n : letter b64url_alphabet n <> "."%char.
Proof.
  unfold letter. destruct (nth_in_or_default (Z.to_nat n) b64url_alphabet "="%char) as [Hin|E].
  - intros E. rewrite E in Hin. revert Hin. apply (bool_decide_unpack (~ In _ _)). vm_compute. exact I.
  - rewrite E. discriminate.
Qed.

Lemma base64url_no_dot l : existsb (Ascii.eqb ".") (chars (base64url l)) = false.
Proof.
  unfold base64url. rewrite chars_of_chars.
  induction l as [|x|x y|x y z l IH] using list_ind3; cbn [b64_chars app existsb];
    repeat (apply orb_false_iff; split); auto; try (apply Ascii.eqb_neq; intros E; symmetry in E; revert E; apply letter_not_dot).
Qed.

Lemma base64url_nonempty l : l <> [] -> truthy (base64url l) = true.
Proof.
  intros Hl. unfold truthy. apply negb_true_iff, String.eqb_neq. intros E. apply (f_equal chars) in E.
  unfold base64url in E. rewrite chars_of_chars in E. by destruct l as [|? [|? [|? ?]]].
Qed.

(** A preview ticket opens exactly its session until it expires: the token
    [issuePreviewTicket] produces is accepted by [consumePreviewTicket] under the same
    key before its expiry, with exactly the session, owner session, expiry and nonce it
    was issued for, and refused as expired from that instant on. *)
Theorem preview_ticket_round_trip sessionId ownerSessionId key ttl now nonce now' :
  uuid_ok sessionId = true -> uuid_ok ownerSessionId = true ->
  datetime_ms (iso_string (now + ttl * 1000)) = Some (now + ttl * 1000) ->
  consumePreviewTicket (fst (issuePreviewTicket sessionId ownerSessionId key ttl now nonce)) key now' =
    if now + ttl * 1000 <=? now' then Throw (JsError "PREVIEW_TICKET_EXPIRED")
    else Ok {| tb_sessionId := sessionId; tb_ownerSessionId := ownerSessionId;
               tb_expiresAt := iso_string (now + ttl * 1000); tb_nonce := base64url nonce |}.
Proof.
  intros Hs Ho Hd. unfold consumePreviewTicket, issuePreviewTicket. cbn [fst].
  set (j := ticket_json _). set (body := base64url (utf8 _)). set (sig := base64url _).
  assert (Hj : wf_json j = true) by reflexivity.
  assert (Hsplit : split_on "."%char (body +:+ "." +:+ sig) = [body; sig]).
  { unfold split_on. rewrite !chars_app. change (chars "." ++ chars sig) with ("."%char :: chars sig).
    rewrite split_chars_app by apply base64url_no_dot.
    rewrite split_chars_none by apply base64url_no_dot. cbn. by rewrite !of_chars_chars. }
  rewrite Hsplit. replace (truthy body) with true.
  replace (truthy sig) with true.
  2:{ symmetry. apply base64url_nonempty. intros E. pose proof (hmac_length key (utf8 body)) as Hl. by rewrite E in Hl. }
  cbn [andb or_throw mbind result_bind]. subst sig.
  rewrite base64_decode_base64url by apply hmac_bytes.
  rewrite Nat.eqb_refl, bool_decide_eq_true_2 by done. cbn [negb orb throw_if mbind result_bind].
  subst body. rewrite base64_decode_base64url by apply utf8_is_byte.
  unfold parse_bytes. rewrite utf8_decode_utf8. cbn [mbind option_bind]. unfold JSON_parse.
  rewrite chars_of_chars, JSON_parse_print by done. cbn [or_throw mbind result_bind].
  subst j. cbn -[iso_string Z.leb base64url]. rewrite Hs, Ho, Hd. cbn -[iso_string Z.leb base64url]. rewrite Hd.
  destruct (_ <=? now'); reflexivity.
Qed.

(** A ticket that is accepted carries the key's code of its own body. *)
Lemma accepted_ticket_authentic token key now v :
  consumePreviewTicket token key now = Ok v ->
  exists body signature, split_on "."%char token = body :: signature :: tail (tail (split_on "."%char token)) /\
    base64_decode signature = hmac key (utf8 body).
Proof.
  unfold consumePreviewTicket. intros E. inv_ok. destruct a as [body signature]. inv_ok.
  exists body, signature. destruct (split_on "."%char token) as [|b [|s rest]]; try discriminate.
  destruct (_ && _); [|discriminate]. injection Hok as -> ->. cbn. split; [done|]. reflect_bools. done.
Qed.

(** *** Lineages and provenance *)

Lemma lineage_json_wf u : NoDup (map fst (argumentOrigins u)) -> wf_json (lineage_json u) = true.
Proof.
  intros Hnd. unfold lineage_json. cbn [wf_json]. apply andb_true_iff. split.
  { apply bool_decide_eq_true. apply (bool_decide_unpack _). vm_compute. exact I. }
  assert (Hobj : wf_json (JObj (map (fun kv => (fst kv, source_json (snd kv))) (argumentOrigins u))) = true).
  { cbn. apply andb_true_iff. split; [apply bool_decide_eq_true; by rewrite map_map|].
    apply forallb_forall. intros ? (kv & <- & _)%in_map_iff. done. }
  assert (Harr : wf_json (JArr (map secret_use_json (secretUseContexts u))) = true).
  { cbn. apply forallb_forall. intros ? (kv & <- & _)%in_map_iff. done. }
  cbn [forallb snd]. rewrite Hobj, Harr.
  by destruct (sourceOwnerMessageId u), (sourceSpecificationRevisionId u), (exactBindingDigest u), (targetId u).
Qed.

(** A compiled lineage verifies: its digest survives the printing and parsing. *)
Lemma compiled_lineage_verifies `{!LocaleAntisym} i l :
  NoDup (map fst (ci_arguments i)) -> compileAuthorityLineage i = Ok l -> verifyAuthorityLineage l = Ok true.
Proof.
  unfold compileAuthorityLineage, verifyAuthorityLineage. intros Hnd E. inv_ok. subst l. rewrite Hok.
  cbn [throw_if mbind result_bind unsigned lineage_digest]. set (u := Build_UnsignedLineage _ _ _ _ _ _ _ _ _ _ _).
  assert (Hwf : wf_json (lineage_json u) = true).
  { apply lineage_json_wf. cbn. rewrite map_map. cbn. by rewrite object_entries_perm. }
  rewrite JSON_parse_canonicalJson by done. cbn [or_throw mbind result_bind]. do 2 f_equal.
  apply String.eqb_eq. unfold canonicalDigest, canonicalJson. do 2 f_equal.
  apply canonical_chars_equiv; [done|]. apply json_equiv_sort_keys.
Qed.

(** An authority reference that names untrusted content is refused, the empty
    reference apart. *)
Lemma assertNoUntrustedAuthority_spec e refs :
  assertNoUntrustedAuthority e refs = Ok tt <->
  (forall r, List.find (fun r => one_of (untrusted_refs e) r) refs = Some r -> r = "").
Proof.
  unfold assertNoUntrustedAuthority. destruct (List.find _ refs) as [r|].
  - rewrite throw_if_Ok. unfold truthy. rewrite negb_false_iff, String.eqb_eq. split; [|auto].
    intros -> ? [= <-]. done.
  - split; [done|auto].
Qed.
End Theory.

(** ** Witnesses *)

Definition sample_context : context_row :=
  {| e_id := "exec"; e_execution_kind := "COMPONENT"; e_source_object_kind := "Component"; e_source_object_id := "comp";
     e_source_revision_id := "rev"; e_binding_set_revision_id := "bind"; e_activation_epoch := 3; e_platform_incarnation_id := "inc";
     e_application_deployment_epoch := 4; e_declared := Some "2"; e_lifecycle := "ACTIVE"; e_state := "ACTIVE";
     e_completed := false; e_deleted := false |}.
Definition sample_tables : authority_tables :=
  {| t_contexts := [sample_context]; t_revisions := [{| b_id := "bind"; b_binding_set_id := "set"; b_revision_number := 5 |}];
     t_sets := [{| sb_id := "set"; sb_current_revision_id := Some "bind" |}];
     t_incarnations := [{| p_singleton_key := 1; p_platform_incarnation_id := "inc" |}];
     t_deployments := [{| d_singleton_key := 1; d_current_epoch := 4 |}];
     t_activations := [{| a_singleton_key := 1; a_current_epoch := 3; a_current_activation_set_id := None |}];
     t_instances := [{| r_id := "inst"; r_component_id := "comp"; r_source_revision_id := "rev"; r_binding_set_revision_id := "bind";
        r_activation_epoch := 3; r_platform_incarnation_id := "inc"; r_application_deployment_epoch := 4;
        r_desired_state := "READY"; r_effective_state := "READY"; r_runtime_generation := 7 |}];
     t_components := [{| c_id := "comp"; c_lifecycle := "ACTIVE"; c_activation_state := "ACTIVE"; c_enabled := true;
        c_active_revision_id := Some "rev"; c_active_binding_set_revision_id := Some "bind"; c_current_activation_epoch := Some 3 |}] |}.
Definition sample_lineage : RuntimeExecutionLineage :=
  Eval vm_compute in get_Ok {| raw := raw_of {| x_e := sample_context; x_b := {| b_id := ""; b_binding_set_id := ""; b_revision_number := 0 |};
      x_sb := {| sb_id := ""; sb_current_revision_id := None |}; x_p := {| p_singleton_key := 1; p_platform_incarnation_id := "" |};
      x_d := {| d_singleton_key := 1; d_current_epoch := 1 |}; x_a := {| a_singleton_key := 1; a_current_epoch := 1;
      a_current_activation_set_id := None |}; x_r := None; x_c := None |} ""; lineageDigest := "" |}
    (@loadRuntimeExecutionLineage code_unit_locale toy_hash sample_tables "exec").

Lemma state_namespace_isolates_witness : raw sample_lineage = raw sample_lineage \/ @collision toy_hash.
Proof.
  apply (@state_namespace_isolates code_unit_locale toy_hash sample_tables "exec" sample_lineage sample_tables "exec" sample_lineage);
    vm_compute; reflexivity.
Defined.

Lemma lineage_current_witness :
  exists x, execution_query sample_tables "exec" = [x] /\ raw sample_lineage = raw_of x "7".
Proof.
  destruct (@lineage_current code_unit_locale toy_hash sample_tables "exec" sample_lineage) as (x & Hq & Hr & _).
  - vm_compute. reflexivity.
  - exists x. split; [exact Hq|exact Hr].
Defined.

Lemma preview_ticket_round_trip_witness :
  @consumePreviewTicket toy_dates toy_hmac
    (fst (@issuePreviewTicket toy_hmac uuid_a uuid_b toy_key 30 (-30000) (repeat 171 16))) toy_key (-1) =
  Ok {| tb_sessionId := uuid_a; tb_ownerSessionId := uuid_b; tb_expiresAt := iso_string 0; tb_nonce := base64url (repeat 171 16) |}.
Proof.
  apply (@preview_ticket_round_trip toy_dates toy_hmac uuid_a uuid_b toy_key 30 (-30000) (repeat 171 16) (-1));
    vm_compute; reflexivity.
Defined.
