(* ===== verification/Closure.v ===== *)
(** * Closure predicates

    [packages/domain/src/closure-predicates.ts]: the interpreter that decides whether an
    object in a terminal state has really been shut down.  The pass expression of a registry
    record is parsed into a small syntax tree, the evidence read from the database and
    the host is turned into twelve predicates and an inventory of orphans, and the report
    passes when the expression holds and no orphan is left. *)
From Stdlib Require Import Ascii String.
From S2P Require Import Prelude Bytes Json Digest CanonicalValue IpcFrame.

(** ** Pass expressions *)

Inductive ClosurePredicateName :=
| terminal_state | children_closed | lease_and_fence | side_effects_known | pointer_and_epoch | bindings_exact
| queue_outbox_inbox_closed | runtime_process_closed | artifacts_filesystem_closed | cleanup_complete
| audit_evidence_valid | manual_review_empty.
#[export] Instance predicate_name_eq_dec : EqDecision ClosurePredicateName.
Proof. solve_decision. Defined.
Definition predicate_text (p : ClosurePredicateName) : string :=
  match p with
  | terminal_state => "terminal_state" | children_closed => "children_closed" | lease_and_fence => "lease_and_fence"
  | side_effects_known => "side_effects_known" | pointer_and_epoch => "pointer_and_epoch" | bindings_exact => "bindings_exact"
  | queue_outbox_inbox_closed => "queue_outbox_inbox_closed" | runtime_process_closed => "runtime_process_closed"
  | artifacts_filesystem_closed => "artifacts_filesystem_closed" | cleanup_complete => "cleanup_complete"
  | audit_evidence_valid => "audit_evidence_valid" | manual_review_empty => "manual_review_empty"
  end.
Definition KNOWN_PREDICATES : list ClosurePredicateName :=
  [terminal_state; children_closed; lease_and_fence; side_effects_known; pointer_and_epoch; bindings_exact;
   queue_outbox_inbox_closed; runtime_process_closed; artifacts_filesystem_closed; cleanup_complete; audit_evidence_valid;
   manual_review_empty].
Definition known_predicate (s : string) : option ClosurePredicateName :=
  List.find (fun p => String.eqb (predicate_text p) s) KNOWN_PREDICATES.

Inductive ClosureAst :=
| AstAnd (args : list ClosureAst)
| AstOr (args : list ClosureAst)
| AstNot (arg : ClosureAst)
| AstPredicate (p : ClosurePredicateName)
| AstLiteral (b : bool).

(** [args.map(f)] when [f] may throw: the first error is thrown. *)
Fixpoint collect {A} (l : list (result A)) : result (list A) :=
  match l with
  | [] => Ok []
  | r :: l' => a ← r; k ← collect l'; Ok (a :: k)
  end.

Definition node_op (l : list (string * json)) (op : string) : bool :=
  match get_prop "op" l with Some (JStr s) => String.eqb s op | _ => false end.

(** The tests of a node in the order of the source, given what [validate] answers on
    its [args] and on its [arg]. *)
Definition validate_node (l : list (string * json)) (args : option (list (result ClosureAst))) (arg : option (result ClosureAst))
    : result ClosureAst :=
  let single := (length l =? 1)%nat in
  let predicate := match get_prop "predicate" l with Some (JStr s) => if single then known_predicate s else None | _ => None end in
  let literal := match get_prop "literal" l with Some (JBool b) => if single then Some b else None | _ => None end in
  let negation := match arg with
                  | Some r => if node_op l "NOT" && (length l =? 2)%nat then a ← r; Ok (AstNot a)
                              else Throw (JsError "CLOSURE_PASS_EXPRESSION_UNKNOWN_NODE")
                  | None => Throw (JsError "CLOSURE_PASS_EXPRESSION_UNKNOWN_NODE")
                  end in
  match predicate, literal, args with
  | Some p, _, _ => Ok (AstPredicate p)
  | None, Some b, _ => Ok (AstLiteral b)
  | None, None, Some ((_ :: _) as rs) =>
      if node_op l "AND" then k ← collect rs; Ok (AstAnd k)
      else if node_op l "OR" then k ← collect rs; Ok (AstOr k)
      else negation
  | None, None, _ => negation
  end.
Fixpoint validate (candidate : json) : result ClosureAst :=
  match candidate with
  | JObj l =>
      let items := map (fun kv => (fst kv, match snd kv with JArr k => Some (map validate k) | _ => None end)) l in
      let values := map (fun kv => (fst kv, validate (snd kv))) l in
      validate_node l (match get_prop "args" items with Some a => a | None => None end) (get_prop "arg" values)
  | _ => Throw (JsError "CLOSURE_PASS_EXPRESSION_INVALID_NODE")
  end.
Definition parseClosureAst (serialized : string) : result ClosureAst :=
  value ← or_throw (JSON_parse serialized) (JsError "CLOSURE_PASS_EXPRESSION_INVALID_JSON");
  validate value.

Fixpoint evaluateClosureAst (ast : ClosureAst) (values : ClosurePredicateName -> bool) : bool :=
  match ast with
  | AstLiteral b => b
  | AstPredicate p => values p
  | AstNot arg => negb (evaluateClosureAst arg values)
  | AstAnd args => forallb (fun a => evaluateClosureAst a values) args
  | AstOr args => existsb (fun a => evaluateClosureAst a values) args
  end.

Definition closure_ast_json (names : list ClosurePredicateName) : json :=
  JObj [("op", JStr "AND"); ("args", JArr (map (fun p => JObj [("predicate", JStr (predicate_text p))]) names))].
Definition closureAstForPredicates (names : list ClosurePredicateName) : string :=
  of_chars (print_chars (closure_ast_json names)).

(** ** Evidence *)

Record ClosureRegistryRecord := {
  closurePredicateId : string; rootKind : string; terminalStates : list string; directQueryIds : list string;
  passExpression : string; failureCode : string;
}.
Record effect_evidence := { ef_id : string; ef_status : string; ef_possibleEffect : bool; ef_manualReview : bool }.
Record process_evidence := {
  pr_id : string; pr_pid : Z; pr_active : bool; pr_cgroupPath : option string; pr_rootKind : option string; pr_rootId : option (option string);
}.
Record socket_evidence := {
  so_id : string; so_path : option string; so_active : bool; so_rootKind : option string; so_rootId : option (option string);
}.
Record cgroup_evidence := {
  cg_path : string; cg_populated : bool; cg_rootKind : option string; cg_rootId : option (option string);
}.
Record artifact_evidence := {
  ar_id : string; ar_state : string; ar_tempPath : string; ar_finalPath : option string; ar_expectedDigest : string;
}.
Record ClosureDatabaseEvidence := {
  root_id : option string; root_state : option string; root_exists : bool; root_stateVersion : option string;
  pendingCommands : Z; provisionalChildren : Z; pendingApprovals : Z; pendingTasks : Z;
  leases_active : Z; leases_stale : Z; leases_unfenced : Z;
  effects : list effect_evidence;
  mixedEpoch : Z; activePointer : Z; pendingSwitches : Z;
  bindings_active : Z; bindings_stale : Z; bindings_unresolved : Z;
  pendingQueue : Z; pendingOutbox : Z; inboxGaps : Z;
  processes : list process_evidence; sockets : list socket_evidence; contexts : Z;
  artifacts : list artifact_evidence;
  cleanup_incomplete : Z; cleanup_liveResources : Z;
  invalidStreams : Z; missingTerminalEvent : Z;
  review_objects : Z; review_conflicts : Z;
}.
Definition emptyDatabaseEvidence : ClosureDatabaseEvidence :=
  {| root_id := None; root_state := None; root_exists := false; root_stateVersion := None;
     pendingCommands := 0; provisionalChildren := 0; pendingApprovals := 0; pendingTasks := 0;
     leases_active := 0; leases_stale := 0; leases_unfenced := 0; effects := [];
     mixedEpoch := 0; activePointer := 0; pendingSwitches := 0;
     bindings_active := 0; bindings_stale := 0; bindings_unresolved := 0;
     pendingQueue := 0; pendingOutbox := 0; inboxGaps := 0;
     processes := []; sockets := []; contexts := 0; artifacts := [];
     cleanup_incomplete := 0; cleanup_liveResources := 0; invalidStreams := 0; missingTerminalEvent := 0;
     review_objects := 0; review_conflicts := 0 |}.

Record RuntimeInventory := {
  inv_processes : list process_evidence; inv_sockets : list socket_evidence; inv_cgroups : list cgroup_evidence;
}.
Record file_evidence := { fi_id : string; fi_path : string; fi_present : bool; fi_size : option Z; fi_digest : option string }.
Record ExternalReadBack := {
  xb_effectId : string; xb_available : bool; xb_consistent : bool; xb_digest : option string; xb_evidence : option json;
}.
Record ClosureProbeOptions := {
  runtimeInventory : option (ClosureDatabaseEvidence -> string -> option string -> result RuntimeInventory);
  filesystemInventory : option (ClosureDatabaseEvidence -> string -> option string -> result (list file_evidence));
  externalReadBack : option (effect_evidence -> string -> option string -> result ExternalReadBack);
}.

(** The tables of the root kinds, with their state columns and terminal states *)
Record root_state_config := { rs_kind : string; rs_table : string; rs_column : string; rs_terminal : list string }.
Definition rootState : list root_state_config :=
  [{| rs_kind := "ACTIVATION_SET"; rs_table := "generation_activation_set"; rs_column := "state"; rs_terminal := ["ROLLED_BACK"; "FAILED"] |};
   {| rs_kind := "AGENT_RUN"; rs_table := "agent_run"; rs_column := "status"; rs_terminal := ["SUCCEEDED"; "FAILED"; "CANCELLED"] |};
   {| rs_kind := "AI_MODEL_CALL"; rs_table := "ai_model_call"; rs_column := "submit_state"; rs_terminal := ["COMPLETED"; "FAILED_FINAL"; "CANCELLED"] |};
   {| rs_kind := "AUDIT_HEAD"; rs_table := "audit_head"; rs_column := "singleton_key"; rs_terminal := ["1"] |};
   {| rs_kind := "BROWSER_ACTION"; rs_table := "browser_action_run"; rs_column := "dispatch_phase"; rs_terminal := ["CONFIRMED_APPLIED"; "CONFIRMED_NOT_APPLIED"; "FAILED_FINAL"] |};
   {| rs_kind := "BROWSER_SESSION"; rs_table := "browser_session"; rs_column := "lifecycle"; rs_terminal := ["CLOSED"; "FAILED_FINAL"; "EXPIRED"] |};
   {| rs_kind := "CLEANUP_OPERATION"; rs_table := "cleanup_operation"; rs_column := "status"; rs_terminal := ["CLOSED"; "FAILED"] |};
   {| rs_kind := "COMPONENT"; rs_table := "component"; rs_column := "lifecycle"; rs_terminal := ["DEREGISTERED"] |};
   {| rs_kind := "DEPLOYMENT_RUN"; rs_table := "deployment_run"; rs_column := "status"; rs_terminal := ["ACTIVE"; "ROLLED_BACK"; "FAILED"] |};
   {| rs_kind := "GENERATION_JOB"; rs_table := "generation_job"; rs_column := "lifecycle"; rs_terminal := ["COMPLETED"; "SUCCEEDED"; "FAILED"; "FAILED_FINAL"; "CANCELLED"; "CANCELLED_FINAL"] |};
   {| rs_kind := "MCP_CALL_RUN"; rs_table := "mcp_call_run"; rs_column := "state"; rs_terminal := ["SUCCEEDED"; "FAILED"; "CANCELLED"] |};
   {| rs_kind := "MCP_TASK"; rs_table := "mcp_task"; rs_column := "state"; rs_terminal := ["COMPLETED"; "FAILED"; "CANCELLED"] |};
   {| rs_kind := "OPERATIONAL_ALERT"; rs_table := "operational_alert"; rs_column := "status"; rs_terminal := ["CLOSED"] |};
   {| rs_kind := "OWNER_IDENTITY"; rs_table := "owner_identity"; rs_column := "singleton_key"; rs_terminal := ["1"] |};
   {| rs_kind := "PLATFORM_RECOVERY"; rs_table := "platform_recovery_head"; rs_column := "state"; rs_terminal := [] |};
   {| rs_kind := "RUNTIME_INSTANCE"; rs_table := "runtime_instance"; rs_column := "effective_state"; rs_terminal := ["STOPPED"; "FAILED"; "ABSENT"] |};
   {| rs_kind := "SECRET_RECORD"; rs_table := "secret_record"; rs_column := "lifecycle"; rs_terminal := ["CLOSED"] |};
   {| rs_kind := "SELF_TEST_RUN"; rs_table := "self_test_run"; rs_column := "status"; rs_terminal := ["PASS"; "FAIL"; "CANCELLED"; "NOT_EXECUTED_ENVIRONMENTAL"] |};
   {| rs_kind := "SIDE_EFFECT"; rs_table := "side_effect_operation"; rs_column := "status"; rs_terminal := ["CONFIRMED_APPLIED"; "CONFIRMED_NOT_APPLIED"; "FAILED_FINAL"] |};
   {| rs_kind := "SYSTEM_CHAT_CONVERSATION"; rs_table := "system_chat_conversation"; rs_column := "status"; rs_terminal := ["CLOSED"; "FAILED"] |}].
Definition closureDirectQueryIds : list (string * list string) :=
  map (fun c => (rs_kind c, map (fun part => "QUERY-CLOSURE-" +:+ rs_kind c +:+ "-" +:+ part +:+ "-V1")
                              ["DB"; "RUNTIME"; "FILESYSTEM"; "EXTERNAL"])) rootState.

(** *** The host *)

(** What the probes ask of the operating system: [None] of [kill] is success,
    otherwise the error code; the others fail with [None]. *)
Class Host := {
  kill : Z -> option string;
  lstat_size : string -> option Z;
  read_text : string -> option string;
  read_stream : string -> option (list Z);
}.

Definition js_is_newline (c : ascii) : bool := (code c =? 10) || (code c =? 13).
Fixpoint strip_prefix (p l : list ascii) : option (list ascii) :=
  match p, l with
  | [], _ => Some l
  | c :: p', d :: l' => if Ascii.eqb c d then strip_prefix p' l' else None
  | _ :: _, [] => None
  end.
(** [populated\s+1$] at this position *)
Definition populated_here (l : list ascii) : bool :=
  match strip_prefix (chars "populated") l with
  | Some (c :: l') =>
      js_space c && match drop_spaces l' with
                    | d :: l'' => Ascii.eqb d "1" && match l'' with [] => true | e :: _ => js_is_newline e end
                    | [] => false
                    end
  | _ => false
  end.
(** [/^populated\s+1$/m.test] *)
Fixpoint populated_line (line_start : bool) (l : list ascii) : bool :=
  line_start && populated_here l
  || match l with c :: l' => populated_line (js_is_newline c) l' | [] => false end.

Definition starts_with (prefix s : string) : bool := String.prefix prefix s.

Section Probes.
Context `{L : Locale} `{H : Hash} `{HO : Host}.

Definition processIsAlive (pid : Z) : bool :=
  if negb (safe_int pid) || (pid <=? 0) then true
  else match kill pid with None => true | Some c => negb (String.eqb c "ESRCH") end.
Definition cgroupPopulated (cgroupPath : string) : bool :=
  if negb (truthy cgroupPath) then true
  else
    let path := if starts_with "/sys/fs/cgroup/" cgroupPath then cgroupPath
                else "/sys/fs/cgroup" +:+ (if starts_with "/" cgroupPath then "" else "/") +:+ cgroupPath in
    match read_text (path +:+ "/cgroup.events") with
    | None => true
    | Some events =>
        match read_text (path +:+ "/cgroup.procs") with
        | None => true
        | Some procs => populated_line true (chars events) || negb (length (trim_chars (chars procs)) =? 0)%nat
        end
    end.

Definition probe_process (p : process_evidence) : process_evidence :=
  {| pr_id := pr_id p; pr_pid := pr_pid p; pr_active := if pr_active p then processIsAlive (pr_pid p) else false;
     pr_cgroupPath := pr_cgroupPath p; pr_rootKind := pr_rootKind p; pr_rootId := pr_rootId p |}.
Definition probe_socket (s : socket_evidence) : socket_evidence :=
  match so_path s with
  | Some path => if truthy path then
      {| so_id := so_id s; so_path := so_path s; so_active := match lstat_size path with Some _ => true | None => false end;
         so_rootKind := so_rootKind s; so_rootId := so_rootId s |} else s
  | None => s
  end.
(** [new Set(paths)]: first occurrences, in order *)
Definition dedupe (l : list string) : list string :=
  fold_left (fun acc s => if existsb (String.eqb s) acc then acc else acc ++ [s]) l [].
Definition defaultRuntimeInventory (e : ClosureDatabaseEvidence) : RuntimeInventory :=
  let paths := dedupe (List.filter truthy (omap pr_cgroupPath (processes e))) in
  {| inv_processes := map probe_process (processes e); inv_sockets := map probe_socket (sockets e);
     inv_cgroups := map (fun p => {| cg_path := p; cg_populated := cgroupPopulated p; cg_rootKind := None; cg_rootId := None |}) paths |}.

Definition fileDigest (path : string) : option string := sha256_text <$> read_stream path.
Definition published (a : artifact_evidence) : bool := String.eqb (ar_state a) "PUBLISHED".
Definition probe_file (a : artifact_evidence) (path : string) : file_evidence :=
  let missing := {| fi_id := ar_id a; fi_path := path; fi_present := false; fi_size := None; fi_digest := None |} in
  match lstat_size path with
  | None => missing
  | Some size =>
      if published a then
        match fileDigest path with
        | Some d => {| fi_id := ar_id a; fi_path := path; fi_present := true; fi_size := Some size; fi_digest := Some d |}
        | None => missing
        end
      else {| fi_id := ar_id a; fi_path := path; fi_present := true; fi_size := Some size; fi_digest := None |}
  end.
Definition artifact_paths (a : artifact_evidence) : list string :=
  if published a then match ar_finalPath a with Some p => if truthy p then [p] else [] | None => [] end else [ar_tempPath a].
Definition defaultFilesystemInventory (e : ClosureDatabaseEvidence) : list file_evidence :=
  a ← artifacts e; map (probe_file a) (artifact_paths a).
End Probes.

(** ** The report *)

Record ClosurePredicateResult := { pv_name : ClosurePredicateName; pv_passed : bool; evidenceDigest : string; details : json }.
Record ClosureReport := {
  rep_rootKind : string; rep_rootId : option string; rep_closurePredicateId : string; closureVersion : Z;
  passed : bool; rep_failureCode : option string;
  predicates : list ClosurePredicateResult; failingPredicates : list ClosurePredicateName;
  queryEvidence : list (string * string);
  orphanCount : Z; orphanInventory : list json;
  rep_runtime : RuntimeInventory; rep_filesystem : list file_evidence; rep_external : list ExternalReadBack;
  rep_database : ClosureDatabaseEvidence; reportDigest : string;
}.

(** [JSON.stringify] leaves out what is undefined. *)
Definition opt_member (k : string) (o : option json) : list (string * json) :=
  match o with Some j => [(k, j)] | None => [] end.
Definition null_str (o : option string) : json := match o with Some s => JStr s | None => JNull end.
Definition process_json (p : process_evidence) : json :=
  JObj ([("id", JStr (pr_id p)); ("pid", JNum (pr_pid p)); ("active", JBool (pr_active p))]
        ++ opt_member "cgroupPath" (JStr <$> pr_cgroupPath p) ++ opt_member "rootKind" (JStr <$> pr_rootKind p)
        ++ opt_member "rootId" (null_str <$> pr_rootId p)).
Definition socket_json (s : socket_evidence) : json :=
  JObj ([("id", JStr (so_id s)); ("path", null_str (so_path s)); ("active", JBool (so_active s))]
        ++ opt_member "rootKind" (JStr <$> so_rootKind s) ++ opt_member "rootId" (null_str <$> so_rootId s)).
Definition cgroup_json (c : cgroup_evidence) : json :=
  JObj ([("path", JStr (cg_path c)); ("populated", JBool (cg_populated c))]
        ++ opt_member "rootKind" (JStr <$> cg_rootKind c) ++ opt_member "rootId" (null_str <$> cg_rootId c)).
Definition runtime_json (r : RuntimeInventory) : json :=
  JObj [("processes", JArr (map process_json (inv_processes r))); ("sockets", JArr (map socket_json (inv_sockets r)));
        ("cgroups", JArr (map cgroup_json (inv_cgroups r)))].
Definition filesystem_json (l : list file_evidence) : json :=
  JObj [("artifacts", JArr (map (fun f => JObj ([("id", JStr (fi_id f)); ("path", JStr (fi_path f)); ("present", JBool (fi_present f))]
    ++ opt_member "size" (JNum <$> fi_size f) ++ opt_member "digest" (JStr <$> fi_digest f))) l))].
Definition external_json (l : list ExternalReadBack) : json :=
  JArr (map (fun x => JObj ([("effectId", JStr (xb_effectId x)); ("available", JBool (xb_available x));
    ("consistent", JBool (xb_consistent x))] ++ opt_member "digest" (JStr <$> xb_digest x) ++ opt_member "evidence" (xb_evidence x))) l).
Definition effect_json (x : effect_evidence) : json :=
  JObj [("id", JStr (ef_id x)); ("status", JStr (ef_status x)); ("possibleEffect", JBool (ef_possibleEffect x));
        ("manualReview", JBool (ef_manualReview x))].
Definition artifact_json (a : artifact_evidence) : json :=
  JObj [("id", JStr (ar_id a)); ("state", JStr (ar_state a)); ("tempPath", JStr (ar_tempPath a));
        ("finalPath", null_str (ar_finalPath a)); ("expectedDigest", JStr (ar_expectedDigest a))].
Definition database_json (e : ClosureDatabaseEvidence) : json :=
  JObj [("root", JObj [("id", null_str (root_id e)); ("state", null_str (root_state e)); ("exists", JBool (root_exists e));
                       ("stateVersion", null_str (root_stateVersion e))]);
        ("children", JObj [("pendingCommands", JNum (pendingCommands e)); ("provisionalChildren", JNum (provisionalChildren e));
                           ("pendingApprovals", JNum (pendingApprovals e)); ("pendingTasks", JNum (pendingTasks e))]);
        ("leases", JObj [("active", JNum (leases_active e)); ("stale", JNum (leases_stale e)); ("unfenced", JNum (leases_unfenced e))]);
        ("effects", JArr (map effect_json (effects e)));
        ("pointers", JObj [("mixedEpoch", JNum (mixedEpoch e)); ("activePointer", JNum (activePointer e));
                           ("pendingSwitches", JNum (pendingSwitches e))]);
        ("bindings", JObj [("active", JNum (bindings_active e)); ("stale", JNum (bindings_stale e));
                           ("unresolved", JNum (bindings_unresolved e))]);
        ("delivery", JObj [("pendingQueue", JNum (pendingQueue e)); ("pendingOutbox", JNum (pendingOutbox e));
                           ("inboxGaps", JNum (inboxGaps e))]);
        ("runtime", JObj [("processes", JArr (map process_json (processes e))); ("sockets", JArr (map socket_json (sockets e)));
                          ("contexts", JNum (contexts e))]);
        ("artifacts", JArr (map artifact_json (artifacts e)));
        ("cleanup", JObj [("incomplete", JNum (cleanup_incomplete e)); ("liveResources", JNum (cleanup_liveResources e))]);
        ("audit", JObj [("invalidStreams", JNum (invalidStreams e)); ("missingTerminalEvent", JNum (missingTerminalEvent e))]);
        ("manualReview", JObj [("objects", JNum (review_objects e)); ("conflicts", JNum (review_conflicts e))])].

Definition settled_statuses : list string := ["CONFIRMED_APPLIED"; "CONFIRMED_NOT_APPLIED"; "FAILED_FINAL"].
Definition list_includes (l : list string) (s : string) : bool := existsb (String.eqb s) l.
Definition pointer_kinds : list string := ["COMPONENT"; "BROWSER_SESSION"; "RUNTIME_INSTANCE"; "SECRET_RECORD"].

Section Report.
Context `{L : Locale} `{H : Hash} `{HO : Host}.

Definition activePointerForbidden (r : ClosureRegistryRecord) (d : ClosureDatabaseEvidence) : bool :=
  list_includes pointer_kinds (rootKind r) && (activePointer d >? 0).
Definition artifact_closed (files : list file_evidence) (a : artifact_evidence) : bool :=
  let observed := List.find (fun f => String.eqb (fi_id f) (ar_id a)) files in
  let present := match observed with Some f => fi_present f | None => false end in
  if published a then
    present && truthy (ar_expectedDigest a)
    && match observed with Some f => bool_decide (fi_digest f = Some (ar_expectedDigest a)) | None => false end
  else if String.eqb (ar_state a) "CLEANED" || String.eqb (ar_state a) "FAILED" then negb present
  else false.

(** The object [values] of [evaluateClosureRecord] *)
Definition closure_values (r : ClosureRegistryRecord) (d : ClosureDatabaseEvidence) (runtime : RuntimeInventory)
    (files : list file_evidence) (external : list ExternalReadBack) (p : ClosurePredicateName) : bool :=
  match p with
  | terminal_state => root_exists d && list_includes (terminalStates r) (default "null" (root_state d))
  | children_closed => (pendingCommands d =? 0) && (provisionalChildren d =? 0) && (pendingApprovals d =? 0) && (pendingTasks d =? 0)
  | lease_and_fence => (leases_active d =? 0) && (leases_stale d =? 0) && (leases_unfenced d =? 0)
  | side_effects_known =>
      forallb (fun e => list_includes settled_statuses (ef_status e)) (effects d)
      && forallb (fun x => xb_available x && xb_consistent x) external
  | pointer_and_epoch => (mixedEpoch d =? 0) && (pendingSwitches d =? 0) && negb (activePointerForbidden r d)
  | bindings_exact => (bindings_active d =? 0) && (bindings_stale d =? 0) && (bindings_unresolved d =? 0)
  | queue_outbox_inbox_closed => (pendingQueue d =? 0) && (pendingOutbox d =? 0) && (inboxGaps d =? 0)
  | runtime_process_closed =>
      forallb (fun x => negb (pr_active x)) (inv_processes runtime) && forallb (fun x => negb (so_active x)) (inv_sockets runtime)
      && forallb (fun x => negb (cg_populated x)) (inv_cgroups runtime) && (contexts d =? 0)
  | artifacts_filesystem_closed => forallb (artifact_closed files) (artifacts d)
  | cleanup_complete => (cleanup_incomplete d =? 0) && (cleanup_liveResources d =? 0)
  | audit_evidence_valid => (invalidStreams d =? 0) && (missingTerminalEvent d =? 0)
  | manual_review_empty => (review_objects d =? 0) && (review_conflicts d =? 0)
  end.

Definition counted (kind : string) (n : Z) : list json :=
  if n >? 0 then [JObj [("kind", JStr kind); ("count", JNum n)]] else [].
Definition unsettled (d : ClosureDatabaseEvidence) : list effect_evidence :=
  List.filter (fun e => negb (list_includes settled_statuses (ef_status e))) (effects d).
Definition orphan_files (d : ClosureDatabaseEvidence) (files : list file_evidence) : list file_evidence :=
  List.filter (fun f => fi_present f && negb (existsb (fun a => String.eqb (ar_id a) (fi_id f) && published a) (artifacts d))) files.
Definition orphans (r : ClosureRegistryRecord) (d : ClosureDatabaseEvidence) (runtime : RuntimeInventory)
    (files : list file_evidence) : list json :=
  counted "PENDING_COMMAND" (pendingCommands d) ++ counted "PROVISIONAL_CHILD" (provisionalChildren d)
  ++ counted "PENDING_APPROVAL" (pendingApprovals d) ++ counted "PENDING_TASK" (pendingTasks d)
  ++ counted "ACTIVE_LEASE" (leases_active d) ++ counted "STALE_LEASE" (leases_stale d)
  ++ counted "UNFENCED_LEASE" (leases_unfenced d)
  ++ (if existsb (fun e => negb (list_includes settled_statuses (ef_status e))) (effects d)
      then [JObj [("kind", JStr "UNRESOLVED_SIDE_EFFECT"); ("ids", JArr (map (fun e => JStr (ef_id e)) (unsettled d)))]] else [])
  ++ counted "MIXED_POINTER_EPOCH" (mixedEpoch d) ++ counted "PENDING_POINTER_SWITCH" (pendingSwitches d)
  ++ counted "ACTIVE_BINDING" (bindings_active d) ++ counted "STALE_BINDING" (bindings_stale d)
  ++ counted "UNRESOLVED_BINDING" (bindings_unresolved d)
  ++ counted "PENDING_QUEUE" (pendingQueue d) ++ counted "PENDING_OUTBOX" (pendingOutbox d)
  ++ counted "INBOX_SEQUENCE_GAP" (inboxGaps d)
  ++ counted "INCOMPLETE_CLEANUP" (cleanup_incomplete d) ++ counted "LIVE_CLEANUP_RESOURCE" (cleanup_liveResources d)
  ++ (if activePointerForbidden r d then [JObj [("kind", JStr "ACTIVE_POINTER"); ("count", JNum (activePointer d))]] else [])
  ++ map (fun p => JObj [("kind", JStr "PROCESS"); ("id", JStr (pr_id p)); ("pid", JNum (pr_pid p))])
       (List.filter pr_active (inv_processes runtime))
  ++ map (fun s => JObj [("kind", JStr "SOCKET"); ("id", JStr (so_id s)); ("path", null_str (so_path s))])
       (List.filter so_active (inv_sockets runtime))
  ++ map (fun c => JObj [("kind", JStr "CGROUP"); ("path", JStr (cg_path c))]) (List.filter cg_populated (inv_cgroups runtime))
  ++ counted "EXECUTION_CONTEXT" (contexts d)
  ++ map (fun f => JObj [("kind", JStr "ARTIFACT"); ("id", JStr (fi_id f)); ("path", JStr (fi_path f))]) (orphan_files d files)
  ++ counted "INVALID_AUDIT_STREAM" (invalidStreams d) ++ counted "MISSING_TERMINAL_AUDIT_EVENT" (missingTerminalEvent d)
  ++ counted "MANUAL_REVIEW_CONFLICT" (review_conflicts d) ++ counted "MANUAL_REVIEW_OBJECT" (review_objects d)
  ++ map (fun e => JObj [("kind", JStr "MANUAL_REVIEW_EFFECT"); ("id", JStr (ef_id e))]) (List.filter ef_manualReview (effects d)).

Definition external_probe (options : ClosureProbeOptions) (r : ClosureRegistryRecord) (rootId : option string) (e : effect_evidence)
    : result ExternalReadBack :=
  match externalReadBack options with
  | Some f => f e (rootKind r) rootId
  | None => Ok {| xb_effectId := ef_id e; xb_available := false; xb_consistent := false; xb_digest := None; xb_evidence := None |}
  end.

(** The evidence every digest of the report binds *)
Definition evidence_members (d : ClosureDatabaseEvidence) (runtime : RuntimeInventory) (files : list file_evidence)
    (external : list ExternalReadBack) : list (string * json) :=
  [("database", database_json d); ("runtime", runtime_json runtime); ("filesystem", filesystem_json files);
   ("external", external_json external)].
Definition predicate_result (evidence : list (string * json)) (values : ClosurePredicateName -> bool) (name : ClosurePredicateName)
    : ClosurePredicateResult :=
  {| pv_name := name; pv_passed := values name;
     evidenceDigest := canonicalDigest (JObj (("name", JStr (predicate_text name)) :: ("value", JBool (values name)) :: evidence));
     details := JObj [("value", JBool (values name))] |}.
Definition query_digest (evidence : list (string * json)) (q : string) : string * string :=
  (q, canonicalDigest (JObj (("queryId", JStr q) :: evidence))).
(** The report without its own digest *)
Definition report_json (rep : ClosureReport) : json :=
  JObj [("rootKind", JStr (rep_rootKind rep)); ("rootId", null_str (rep_rootId rep));
        ("closurePredicateId", JStr (rep_closurePredicateId rep)); ("closureVersion", JNum (closureVersion rep));
        ("passed", JBool (passed rep)); ("failureCode", null_str (rep_failureCode rep));
        ("predicates", JArr (map (fun x => JObj [("name", JStr (predicate_text (pv_name x))); ("passed", JBool (pv_passed x));
            ("evidenceDigest", JStr (evidenceDigest x)); ("details", details x)]) (predicates rep)));
        ("failingPredicates", JArr (map (fun p => JStr (predicate_text p)) (failingPredicates rep)));
        ("queryEvidence", JArr (map (fun q => JObj [("queryId", JStr (fst q)); ("digest", JStr (snd q))]) (queryEvidence rep)));
        ("inventory", JObj [("orphanCount", JNum (orphanCount rep)); ("orphanInventory", JArr (orphanInventory rep));
            ("runtime", runtime_json (rep_runtime rep)); ("filesystem", filesystem_json (rep_filesystem rep));
            ("external", external_json (rep_external rep))]);
        ("database", database_json (rep_database rep))].
Definition closure_report (r : ClosureRegistryRecord) (d : ClosureDatabaseEvidence) (rootId : option string)
    (runtime : RuntimeInventory) (files : list file_evidence) (external : list ExternalReadBack) (ast : ClosureAst)
    (digest : string) : ClosureReport :=
  let values := closure_values r d runtime files external in
  let evidence := evidence_members d runtime files external in
  let results := map (predicate_result evidence values) KNOWN_PREDICATES in
  let inventory := orphans r d runtime files in
  let ok := evaluateClosureAst ast values && String.eqb (failureCode r) "TERMINAL_CLOSURE_INCOMPLETE" && (length inventory =? 0)%nat in
  {| rep_rootKind := rootKind r; rep_rootId := rootId; rep_closurePredicateId := closurePredicateId r; closureVersion := 1;
     passed := ok; rep_failureCode := if ok then None else Some (failureCode r); predicates := results;
     failingPredicates := map pv_name (List.filter (fun x => negb (pv_passed x)) results);
     queryEvidence := map (query_digest evidence) (directQueryIds r);
     orphanCount := lengthZ inventory; orphanInventory := inventory; rep_runtime := runtime; rep_filesystem := files;
     rep_external := external; rep_database := d; reportDigest := digest |}.
Definition evaluateClosureRecord (r : ClosureRegistryRecord) (d : ClosureDatabaseEvidence) (rootId : option string)
    (options : ClosureProbeOptions) : result ClosureReport :=
  runtime ← match runtimeInventory options with Some f => f d (rootKind r) rootId | None => Ok (defaultRuntimeInventory d) end;
  files ← match filesystemInventory options with Some f => f d (rootKind r) rootId | None => Ok (defaultFilesystemInventory d) end;
  external ← collect (map (external_probe options r rootId) (List.filter ef_possibleEffect (effects d)));
  ast ← parseClosureAst (passExpression r);
  let digest := canonicalDigest (report_json (closure_report r d rootId runtime files external ast "")) in
  Ok (closure_report r d rootId runtime files external ast digest).
End Report.

(** [closureReportForRoot] looks for the active record of the kind. *)
Definition closure_record_for (records : list (ClosureRegistryRecord * string)) (kind : string) : result ClosureRegistryRecord :=
  or_throw (fst <$> List.find (fun rl => String.eqb (rootKind (fst rl)) kind && String.eqb (snd rl) "ACTIVE") records)
    (JsError ("CLOSURE_RECORD_NOT_FOUND:" +:+ kind)).

(** ** Theory *)

Lemma known_predicate_text p : known_predicate (predicate_text p) = Some p.
Proof. by destruct p. Qed.
Lemma known_complete p : In p KNOWN_PREDICATES.
Proof. destruct p; cbn; tauto. Qed.

Lemma collect_map_Ok {A B} (f : A -> result B) (g : A -> B) l :
  (forall a, f a = Ok (g a)) -> collect (map f l) = Ok (map g l).
Proof. intros Hf. induction l as [|a l IH]; cbn; [done|]. by rewrite Hf, IH. Qed.

Lemma wf_closure_ast names : wf_json (closure_ast_json names) = true.
Proof.
  unfold closure_ast_json. cbn [wf_json map fst forallb snd]. apply andb_true_iff. split; [done|].
  rewrite andb_true_r. cbn [andb]. apply forallb_forall. intros ? (p & <- & _)%in_map_iff. done.
Qed.

Lemma validate_predicate p : validate (JObj [("predicate", JStr (predicate_text p))]) = Ok (AstPredicate p).
Proof. by destruct p. Qed.

(** What [closureAstForPredicates] prints is read back as the conjunction of its
    predicates. *)
Lemma parse_closureAst names : names <> [] ->
  parseClosureAst (closureAstForPredicates names) = Ok (AstAnd (map AstPredicate names)).
Proof.
  intros Hn. unfold parseClosureAst, closureAstForPredicates, JSON_parse. rewrite chars_of_chars.
  rewrite JSON_parse_print by apply wf_closure_ast. cbn [or_throw mbind result_bind].
  transitivity (k ← collect (map validate (map (fun p => JObj [("predicate", JStr (predicate_text p))]) names)); Ok (AstAnd k)).
  { by destruct names. }
  rewrite map_map, (collect_map_Ok _ AstPredicate); [done|]. apply validate_predicate.
Qed.

Lemma evaluate_conjunction names values :
  evaluateClosureAst (AstAnd (map AstPredicate names)) values = forallb values names.
Proof. cbn. induction names as [|p names IH]; cbn; [done|]. by rewrite IH. Qed.

Lemma counted_nil kind n : counted kind n = [] <-> n <= 0.
Proof. unfold counted. destruct (n >? 0) eqn:E; rewrite Z.gtb_ltb in E; reflect_bools; split; try done; lia. Qed.
Lemma filter_nil {A} (p : A -> bool) l : List.filter p l = [] <-> forallb (fun x => negb (p x)) l = true.
Proof.
  induction l as [|x l IH]; cbn; [done|]. destruct (p x); cbn; [|by rewrite IH].
  split; discriminate.
Qed.
Lemma if_nil {A} (b : bool) (x : A) : (if b then [x] else []) = [] <-> b = false.
Proof. by destruct b. Qed.

Lemma app_nil_both {A} (l k : list A) : l ++ k = [] <-> l = [] /\ k = [].
Proof. destruct l; cbn; [tauto|]. by split; [|intros [? ?]]. Qed.
Lemma map_nil_iff {A B} (f : A -> B) l : map f l = [] <-> l = [].
Proof. by destruct l. Qed.
Lemma existsb_negb {A} (p : A -> bool) l : existsb (fun x => negb (p x)) l = false <-> forallb p l = true.
Proof.
  induction l as [|x l IH]; cbn; [done|]. rewrite orb_false_iff, andb_true_iff, IH, negb_false_iff. done.
Qed.

Section Theory.
Context `{L : Locale} `{H : Hash} `{HO : Host}.

(** The counts of the evidence are counts. *)
Definition counts_ok (d : ClosureDatabaseEvidence) : bool :=
  forallb (Z.leb 0) [pendingCommands d; provisionalChildren d; pendingApprovals d; pendingTasks d; leases_active d; leases_stale d;
    leases_unfenced d; mixedEpoch d; activePointer d; pendingSwitches d; bindings_active d; bindings_stale d; bindings_unresolved d;
    pendingQueue d; pendingOutbox d; inboxGaps d; contexts d; cleanup_incomplete d; cleanup_liveResources d; invalidStreams d;
    missingTerminalEvent d; review_objects d; review_conflicts d].

(** The predicates an empty inventory decides. *)
Definition inventory_predicates : list ClosurePredicateName :=
  [children_closed; lease_and_fence; pointer_and_epoch; bindings_exact; queue_outbox_inbox_closed; runtime_process_closed;
   cleanup_complete; audit_evidence_valid; manual_review_empty].

Lemma orphans_nil r d runtime files external :
  counts_ok d = true ->
  orphans r d runtime files = [] <->
  forallb (closure_values r d runtime files external) inventory_predicates = true
  /\ forallb (fun e => list_includes settled_statuses (ef_status e)) (effects d) = true
  /\ orphan_files d files = [] /\ List.filter ef_manualReview (effects d) = [].
Proof.
  unfold counts_ok. cbn [forallb]. intros C. reflect_bools.
  unfold orphans. rewrite !app_nil_both, !counted_nil, !if_nil. unfold inventory_predicates. cbn [forallb closure_values].
  rewrite !andb_true_iff, !Z.eqb_eq, negb_true_iff, existsb_negb.
  rewrite !map_nil_iff, !filter_nil. split.
  - intros Ho. decompose [and] Ho. split_and!; try done; lia.
  - intros Ho. decompose [and] Ho. split_and!; try done; lia.
Qed.

Lemma failing_names (f : ClosurePredicateName -> ClosurePredicateResult) values l :
  (forall p, pv_name (f p) = p) -> (forall p, pv_passed (f p) = values p) ->
  map pv_name (List.filter (fun x => negb (pv_passed x)) (map f l)) = List.filter (fun p => negb (values p)) l.
Proof.
  intros Hn Hp. induction l as [|p l IH]; cbn; [done|]. rewrite Hp. destruct (values p); cbn; [done|]. by rewrite Hn, IH.
Qed.

Lemma evaluate_inv r d rootId options rep :
  evaluateClosureRecord r d rootId options = Ok rep ->
  exists ast, parseClosureAst (passExpression r) = Ok ast /\
    let values := closure_values r d (rep_runtime rep) (rep_filesystem rep) (rep_external rep) in
    passed rep = evaluateClosureAst ast values && String.eqb (failureCode r) "TERMINAL_CLOSURE_INCOMPLETE"
                 && (length (orphans r d (rep_runtime rep) (rep_filesystem rep)) =? 0)%nat /\
    orphanInventory rep = orphans r d (rep_runtime rep) (rep_filesystem rep) /\
    failingPredicates rep = List.filter (fun p => negb (values p)) KNOWN_PREDICATES /\
    match filesystemInventory options with Some _ => True | None => rep_filesystem rep = defaultFilesystemInventory d end.
Proof.
  unfold evaluateClosureRecord. intros E. inv_ok. subst rep.
  match goal with Hp : parseClosureAst _ = Ok ?a |- _ => exists a; split; [exact Hp|] end.
  cbv zeta. split_and!.
  - reflexivity.
  - reflexivity.
  - apply failing_names; reflexivity.
  - destruct (filesystemInventory options); [done|]. by injection Hok0 as <-.
Qed.

(** C31. A report that passes leaves nothing behind, whatever pass expression the
    registry holds: children, leases, pointers, bindings, queues, processes, sockets,
    control groups, cleanup, audit and manual review predicates all hold, every side effect
    has a settled status, and no file is present outside a published artifact. *)
Theorem closure_passed_no_orphan r d rootId options rep :
  counts_ok d = true -> evaluateClosureRecord r d rootId options = Ok rep -> passed rep = true ->
  Forall (fun p => closure_values r d (rep_runtime rep) (rep_filesystem rep) (rep_external rep) p = true) inventory_predicates /\
  Forall (fun e => In (ef_status e) settled_statuses) (effects d) /\
  (forall f, In f (rep_filesystem rep) -> fi_present f = true ->
     exists a, In a (artifacts d) /\ ar_id a = fi_id f /\ ar_state a = "PUBLISHED").
Proof.
  intros C E P. apply evaluate_inv in E as (ast & _ & Ep & _ & _ & _). rewrite Ep in P. cbn zeta in P. reflect_bools.
  match goal with Hn : (_ =? 0)%nat = true |- _ => apply Nat.eqb_eq, length_zero_iff_nil in Hn;
    apply (orphans_nil _ _ _ _ (rep_external rep) C) in Hn as (Hv & Hs & Hf & _) end.
  split_and!.
  - apply List.Forall_forall. by apply forallb_forall.
  - apply List.Forall_forall. rewrite forallb_forall in Hs. intros e He. specialize (Hs e He).
    unfold list_includes in Hs. apply existsb_exists in Hs as (s & Hin & ->%String.eqb_eq). done.
  - intros f Hin Hpres. unfold orphan_files in Hf. apply filter_nil in Hf. rewrite forallb_forall in Hf.
    specialize (Hf f Hin). rewrite Hpres in Hf; cbn [andb] in Hf; rewrite negb_involutive in Hf. apply existsb_exists in Hf as (a & Ha & Hb).
    unfold published in Hb. reflect_bools. eauto.
Qed.

Lemma probe_file_id a path : fi_id (probe_file a path) = ar_id a.
Proof. unfold probe_file. by repeat case_match. Qed.

Lemma default_files_id d f :
  In f (defaultFilesystemInventory d) -> exists a path, In a (artifacts d) /\ In path (artifact_paths a) /\ f = probe_file a path.
Proof.
  unfold defaultFilesystemInventory. intros Hin. apply list_elem_of_In, list_elem_of_bind in Hin as (a & Hf & Ha).
  apply list_elem_of_In, in_map_iff in Hf as (p & <- & Hp). apply list_elem_of_In in Ha. eauto.
Qed.

(** With the default probe the first file of an artifact's identifier is its own. *)
Lemma default_files_find d a f :
  NoDup (map ar_id (artifacts d)) -> In a (artifacts d) -> In f (defaultFilesystemInventory d) -> fi_id f = ar_id a ->
  List.find (fun f => String.eqb (fi_id f) (ar_id a)) (defaultFilesystemInventory d) = Some f.
Proof.
  intros Hnd Ha Hf Hid.
  destruct (List.find _ (defaultFilesystemInventory d)) as [g|] eqn:E.
  2:{ eapply find_none in E; [|exact Hf]. rewrite Hid, String.eqb_refl in E. discriminate. }
  apply find_some in E as [Hg Eg%String.eqb_eq]. f_equal.
  apply default_files_id in Hg as (b & q & Hb & Hq & ->). apply default_files_id in Hf as (b' & q' & Hb' & Hq' & ->).
  rewrite probe_file_id in Eg, Hid.
  assert (b = a) as -> by (eapply NoDup_map_unique; eauto).
  assert (b' = a) as -> by (eapply NoDup_map_unique; eauto).
  f_equal. unfold artifact_paths in *. repeat case_match; cbn in *; intuition congruence.
Qed.

Lemma closed_artifacts_no_orphan d :
  NoDup (map ar_id (artifacts d)) ->
  forallb (artifact_closed (defaultFilesystemInventory d)) (artifacts d) = true ->
  orphan_files d (defaultFilesystemInventory d) = [].
Proof.
  intros Hnd Hc. rewrite forallb_forall in Hc. apply filter_nil, forallb_forall. intros f Hf.
  destruct (fi_present f) eqn:Hp; cbn; [|done]. rewrite negb_involutive.
  pose proof (default_files_id d f Hf) as (a & path & Ha & _ & E).
  assert (Hid : fi_id f = ar_id a) by (rewrite E; apply probe_file_id).
  apply existsb_exists. exists a. split; [done|]. rewrite Hid, String.eqb_refl. cbn.
  specialize (Hc a Ha). unfold artifact_closed in Hc. rewrite (default_files_find d a f Hnd Ha Hf Hid), Hp in Hc.
  destruct (published a); [done|]. by destruct (_ || _).
Qed.

Lemma known_Forall (values : ClosurePredicateName -> bool) :
  forallb values KNOWN_PREDICATES = true <-> (forall p, values p = true).
Proof. rewrite forallb_forall. split; intros Hv p; [apply Hv, known_complete|intros _; apply Hv]. Qed.

(** The predicates and the orphan inventory agree: under the conjunction of all
    twelve predicates and the file probe of the host, a report passes exactly when every predicate
    holds, and exactly when it names no failing predicate. *)
Theorem closure_passed_iff r d rootId options rep :
  passExpression r = closureAstForPredicates KNOWN_PREDICATES -> failureCode r = "TERMINAL_CLOSURE_INCOMPLETE" ->
  filesystemInventory options = None -> counts_ok d = true -> NoDup (map ar_id (artifacts d)) ->
  (forall e, In e (effects d) -> ef_manualReview e = true -> review_objects d <> 0) ->
  evaluateClosureRecord r d rootId options = Ok rep ->
  (passed rep = true <->
     forall p, closure_values r d (rep_runtime rep) (rep_filesystem rep) (rep_external rep) p = true) /\
  (passed rep = true <-> failingPredicates rep = []).
Proof.
  intros Hx Hc Hfs C Hnd Hman E. apply evaluate_inv in E as (ast & Ha & Ep & _ & Ef & Hfiles). rewrite Hfs in Hfiles.
  rewrite Hx, parse_closureAst in Ha by done.
  assert (ast = AstAnd (map AstPredicate KNOWN_PREDICATES)) as -> by congruence. cbv zeta in Ep, Ef.
  rewrite evaluate_conjunction, Hc, String.eqb_refl, andb_true_r in Ep.
  set (values := closure_values r d _ _ _) in *.
  assert (Hiff : passed rep = true <-> forall p, values p = true).
  { rewrite Ep, andb_true_iff, Nat.eqb_eq, length_zero_iff_nil, (orphans_nil _ _ _ _ (rep_external rep) C), known_Forall.
    split; [by intros [? _]|]. intros Hv. pose proof (Hv side_effects_known) as Hs. cbn in Hs. reflect_bools.
    pose proof (Hv artifacts_filesystem_closed) as Hart. cbn in Hart. rewrite Hfiles in Hart.
    pose proof (Hv manual_review_empty) as Hm. cbn in Hm. reflect_bools.
    split_and!; try done.
    - apply forallb_forall. auto.
    - rewrite Hfiles. by apply closed_artifacts_no_orphan.
    - apply filter_nil, forallb_forall. intros e He. destruct (ef_manualReview e) eqn:Em; [|done].
      by destruct (Hman e He Em). }
  split; [exact Hiff|]. rewrite Hiff, Ef, filter_nil.
  rewrite <- known_Forall, !forallb_forall. split; intros Hv p Hp; specialize (Hv p Hp); by destruct (values p).
Qed.
End Theory.

(** ** Witnesses *)

Definition quiet_host : Host :=
  {| kill := fun _ => Some "ESRCH"; lstat_size := fun p => if String.eqb p "/store/a" then Some 3 else None;
     read_text := fun p => if String.eqb p "/sys/fs/cgroup/kcml/x/cgroup.events" then Some "populated 0" else Some "";
     read_stream := fun _ => Some [1; 2; 3] |}.
Definition sample_record : ClosureRegistryRecord :=
  {| closurePredicateId := "CP-1"; rootKind := "AGENT_RUN"; terminalStates := ["SUCCEEDED"; "FAILED"]; directQueryIds := ["Q"];
     passExpression := closureAstForPredicates KNOWN_PREDICATES; failureCode := "TERMINAL_CLOSURE_INCOMPLETE" |}.
Definition sample_evidence : ClosureDatabaseEvidence :=
  {| root_id := Some "r"; root_state := Some "FAILED"; root_exists := true; root_stateVersion := Some "2";
     pendingCommands := 0; provisionalChildren := 0; pendingApprovals := 0; pendingTasks := 0;
     leases_active := 0; leases_stale := 0; leases_unfenced := 0;
     effects := [{| ef_id := "e"; ef_status := "CONFIRMED_NOT_APPLIED"; ef_possibleEffect := false; ef_manualReview := false |}];
     mixedEpoch := 0; activePointer := 0; pendingSwitches := 0; bindings_active := 0; bindings_stale := 0; bindings_unresolved := 0;
     pendingQueue := 0; pendingOutbox := 0; inboxGaps := 0;
     processes := [{| pr_id := "p"; pr_pid := 7; pr_active := true; pr_cgroupPath := Some "/kcml/x"; pr_rootKind := None; pr_rootId := None |}];
     sockets := []; contexts := 0;
     artifacts := [{| ar_id := "a"; ar_state := "PUBLISHED"; ar_tempPath := "/tmp/a"; ar_finalPath := Some "/store/a";
                      ar_expectedDigest := @sha256_text toy_hash [1; 2; 3] |}];
     cleanup_incomplete := 0; cleanup_liveResources := 0; invalidStreams := 0; missingTerminalEvent := 0;
     review_objects := 0; review_conflicts := 0 |}.
Definition no_probes : ClosureProbeOptions := {| runtimeInventory := None; filesystemInventory := None; externalReadBack := None |}.
Definition sample_report : result ClosureReport :=
  @evaluateClosureRecord code_unit_locale toy_hash quiet_host sample_record sample_evidence (Some "r") no_probes.
Definition report_passed (x : result ClosureReport) : bool := match x with Ok rep => passed rep | Throw _ => false end.

Lemma closure_passed_no_orphan_witness :
  exists rep, sample_report = Ok rep /\ Forall (fun e => In (ef_status e) settled_statuses) (effects sample_evidence).
Proof.
  destruct sample_report as [rep|] eqn:E.
  - exists rep. split; [reflexivity|].
    apply (@closure_passed_no_orphan code_unit_locale toy_hash quiet_host sample_record sample_evidence (Some "r") no_probes rep).
    + vm_compute. reflexivity.
    + exact E.
    + change (report_passed (Ok rep) = true). rewrite <- E. vm_compute. reflexivity.
  - assert (is_Ok sample_report = true) as Ht by (vm_compute; reflexivity). rewrite E in Ht. discriminate Ht.
Defined.

Lemma closure_passed_iff_witness :
  exists rep, sample_report = Ok rep /\ (passed rep = true <-> failingPredicates rep = []).
Proof.
  destruct sample_report as [rep|] eqn:E.
  - exists rep. split; [reflexivity|].
    apply (@closure_passed_iff code_unit_locale toy_hash quiet_host sample_record sample_evidence (Some "r") no_probes rep);
      try (vm_compute; reflexivity).
    + apply (bool_decide_unpack _). vm_compute. exact I.
    + intros e [<-|[]]. discriminate.
    + exact E.
  - assert (is_Ok sample_report = true) as Ht by (vm_compute; reflexivity). rewrite E in Ht. discriminate Ht.
Defined.
