(* ===== verification/Generation.v ===== *)
(** * Generation lifecycle

    [packages/domain/src/generation-lifecycle.ts]: jobs that move through the generation phases
    under fenced phase runs, their checkpoints, events and workspace revisions, validation and
    the activation of a candidate; [generationTransitions] and [transition] of
    [packages/generation-orchestrator]; and the triggers of the database baseline that guard the
    rows.  Every operation is a transaction: it returns the new database, or throws and the
    database stays as it was.  The columns that only repeat the lineage or correlation of the job,
    the row timestamps and the identifiers of event rows are left out; identifiers
    from [randomUUID] and the clock are arguments. *)
From Stdlib Require Import Ascii String.
From S2P Require Import Prelude Bytes Json Digest CanonicalValue IpcFrame IpcChannel IpcBroker Crypto AuditChain Database.

(** ** Phases and states *)

Inductive GenerationPhase := DISCUSSING | ANALYZING | IMPLEMENTING | INTEGRATING | VALIDATING | CML_CONFORMANCE | ACTIVATING.
#[export] Instance generation_phase_eq_dec : EqDecision GenerationPhase.
Proof. solve_decision. Defined.
Definition GENERATION_PHASES : list GenerationPhase :=
  [DISCUSSING; ANALYZING; IMPLEMENTING; INTEGRATING; VALIDATING; CML_CONFORMANCE; ACTIVATING].
Definition phase_name (p : GenerationPhase) : string :=
  match p with
  | DISCUSSING => "DISCUSSING" | ANALYZING => "ANALYZING" | IMPLEMENTING => "IMPLEMENTING" | INTEGRATING => "INTEGRATING"
  | VALIDATING => "VALIDATING" | CML_CONFORMANCE => "CML_CONFORMANCE" | ACTIVATING => "ACTIVATING"
  end.
Inductive GenerationJobState := InPhase (p : GenerationPhase) | COMPLETED | BLOCKED | FAILED | CANCELLED.
#[export] Instance job_state_eq_dec : EqDecision GenerationJobState.
Proof. solve_decision. Defined.
Definition job_state_name (s : GenerationJobState) : string :=
  match s with
  | InPhase p => phase_name p | COMPLETED => "COMPLETED" | BLOCKED => "BLOCKED" | FAILED => "FAILED" | CANCELLED => "CANCELLED"
  end.
Inductive PhaseRunState :=
| QUEUED | RUNNING | WAITING_FOR_DEPENDENCY | WAITING_FOR_OWNER | REPAIRING | RUN_SUCCEEDED | RUN_FAILED | CANCEL_REQUESTED
| RUN_CANCELLED.
#[export] Instance run_state_eq_dec : EqDecision PhaseRunState.
Proof. solve_decision. Defined.
Inductive phase_outcome := OUT_SUCCEEDED | OUT_FAILED | OUT_CANCELLED.
Definition outcome_state (o : phase_outcome) : PhaseRunState :=
  match o with OUT_SUCCEEDED => RUN_SUCCEEDED | OUT_FAILED => RUN_FAILED | OUT_CANCELLED => RUN_CANCELLED end.
Definition outcome_text (o : phase_outcome) : string :=
  match o with OUT_SUCCEEDED => "SUCCEEDED" | OUT_FAILED => "FAILED" | OUT_CANCELLED => "CANCELLED" end.
Inductive set_state :=
| SET_DRAFT | SET_READY | SET_SWITCHING | SET_VERIFYING | SET_ACTIVE | SET_ROLLING_BACK | SET_ROLLBACK_VERIFYING | SET_ROLLED_BACK
| SET_FAILED | SET_MANUAL_REVIEW.
#[export] Instance set_state_eq_dec : EqDecision set_state.
Proof. solve_decision. Defined.
Inductive recovery_state := REC_READY | REC_REQUIRED | REC_RECONCILING | REC_MANUAL_REVIEW.
#[export] Instance recovery_state_eq_dec : EqDecision recovery_state.
Proof. solve_decision. Defined.

(** [phaseIndex] *)
Definition phase_index (p : GenerationPhase) : Z :=
  match p with
  | DISCUSSING => 0 | ANALYZING => 1 | IMPLEMENTING => 2 | INTEGRATING => 3 | VALIDATING => 4 | CML_CONFORMANCE => 5 | ACTIVATING => 6
  end.
Definition phase_of_state (s : GenerationJobState) : option GenerationPhase :=
  match s with InPhase p => Some p | _ => None end.
Definition transitionable (s : GenerationJobState) : bool :=
  match s with InPhase _ | BLOCKED => true | COMPLETED | FAILED | CANCELLED => false end.
Definition generationWorkerPool (p : GenerationPhase) : string :=
  match p with
  | DISCUSSING => "kcml-generation-coordinator" | ANALYZING => "kcml-generation-openai" | IMPLEMENTING => "kcml-generation-workspace"
  | INTEGRATING => "kcml-generation-integration" | ACTIVATING => "kcml-generation-activation" | _ => "kcml-generation-validation"
  end.
Definition nextPhase (p : GenerationPhase) : option GenerationPhase :=
  nth_error GENERATION_PHASES (Z.to_nat (phase_index p + 1)).

(** [path.replaceAll('\\', '/')] *)
Definition normalize_path (path : string) : string :=
  of_chars (map (fun c => if code c =? 92 then "/"%char else c) (chars path)).
Definition pathIsSafe (path : string) : bool :=
  let normalized := normalize_path path in
  negb (String.eqb normalized "") && negb (String.prefix "/" normalized)
  && negb (existsb (fun part => String.eqb part "" || String.eqb part "." || String.eqb part "..") (split_on "/"%char normalized)).

(** ** Tables *)

Record generation_job := {
  j_mode : string; j_objective : string; j_targets : list string; j_sources : list string; j_model : option string;
  lifecycle : GenerationJobState; current_phase : GenerationJobState; progress : Z;
  j_worker : option string; j_fence : option Z; j_lease : option Z; j_version : Z; j_epoch : Z;
  j_incarnation : string; j_deployment : Z; active_run : option string; latest_checkpoint : option string;
  workspace_revision : option string; j_set : option string; previous_snapshot : option json; recovery : recovery_state;
  provisional_identity : option json; result_digest : option (list Z); terminal_evidence : option json;
  j_cleanup : option string;
}.
(** The column [phase] of a run is a free text; the code writes phases there, or the state that a resumed job goes to. *)
Record phase_run := {
  r_job : string; r_phase : GenerationJobState; r_attempt : Z; r_state : PhaseRunState; r_pool : string; r_owner : option string;
  r_fence : option Z; r_lease : option Z; r_range : json; r_input : option string; r_output : option string;
  r_summary : option json; r_result_digest : option (list Z); r_completed : option Z; r_digest : list Z; r_epoch : Z; r_version : Z;
}.
Record checkpoint_row := {
  cp_job : string; cp_sequence : Z; cp_phase : string; cp_workspace : string; cp_payload : json; cp_digest : list Z;
  cp_run : option string; cp_kind : string; cp_terminal : option json; cp_successor : option string;
}.
Record event_row := { ev_job : string; ev_sequence : Z; ev_type : string; ev_payload : json; ev_digest : list Z; ev_run : option string }.
Record outbox_row := {
  ob_stream : string; ob_sequence : Z; ob_event : string; ob_aggregate : string; ob_payload : json; ob_digest : list Z; ob_recovery : Z;
}.
Record revision_row := { rv_job : string; rv_number : Z; rv_parent : option string; rv_tree : list Z }.
Record workspace_file := {
  wf_path : string; wf_digest : list Z; wf_content : string; wf_size : Z; wf_mime : string; wf_executable : bool; wf_source : string;
}.
Inductive apply_state := APPLYING | APPLIED | PENDING.
#[export] Instance apply_state_eq_dec : EqDecision apply_state.
Proof. solve_decision. Defined.
Record patch_row := {
  pt_job : string; pt_run : string; pt_base : string; pt_base_digest : list Z; pt_operations : json; pt_operations_digest : list Z;
  pt_state : apply_state; pt_result : option string; pt_digest : list Z;
}.
Record validation_row := {
  vl_job : string; vl_candidate : option string; vl_state : string; vl_summary : option json; vl_evidence : option (list Z); vl_version : Z;
}.
Record result_row := { rs_run : string; rs_gate : string; rs_status : string; rs_inputs : json; rs_actual : json; rs_diagnostics : list string; rs_digest : list Z }.
Record candidate_row := {
  cd_job : string; cd_kind : string; cd_revision_digest : list Z; cd_validation : string; cd_verification : string;
  cd_integration : string; cd_version : Z;
}.
Record set_row := {
  st_state : set_state; st_previous : json; st_candidate : json; st_membership : json; st_rollback : json; st_epoch : option Z; st_version : Z;
}.
Record member_row := {
  mb_set : string; mb_kind : string; mb_object : string; mb_order : string; mb_evidence : json; mb_digest : list Z; mb_epoch : option Z;
}.
Record head_row := { current_epoch : Z; current_set : option string; h_version : Z }.
Inductive cleanup_status := CLEANUP_RUNNING | CLEANUP_CLOSED | CLEANUP_FAILED.
Record cleanup_row := { cu_parent : string; cu_status : cleanup_status; cu_evidence : option json; cu_incarnation : string; cu_deployment : Z }.
Record resource_row := { rc_cleanup : string; rc_kind : string; rc_key : string; rc_desired : json; rc_absent : bool; rc_count : Z }.

(** The database: the activation and recovery heads are singleton rows; [platform] is the join of
    the incarnation and deployment heads. *)
Record gen_db := {
  jobs : gmap string generation_job;
  runs : gmap string phase_run;
  checkpoints : gmap string checkpoint_row;
  events : list event_row;
  outbox : list outbox_row;
  allocators : allocator;
  revisions : gmap string revision_row;
  files : gmap string (list workspace_file);
  patches : gmap string patch_row;
  validations : gmap string validation_row;
  validation_results : list result_row;
  candidates : gmap string candidate_row;
  sets : gmap string set_row;
  members : list member_row;
  head : option head_row;
  cleanups : gmap string cleanup_row;
  cleanup_resources : list resource_row;
  platform : option (string * Z);
  recovery_epoch : Z;
}.
Definition set_jobs (v : gmap string generation_job) (d : gen_db) : gen_db :=
  {| jobs := v; runs := runs d; checkpoints := checkpoints d; events := events d; outbox := outbox d;
     allocators := allocators d; revisions := revisions d; files := files d; patches := patches d;
     validations := validations d; validation_results := validation_results d; candidates := candidates d;
     sets := sets d; members := members d; head := head d; cleanups := cleanups d;
     cleanup_resources := cleanup_resources d; platform := platform d; recovery_epoch := recovery_epoch d |}.
Definition set_runs (v : gmap string phase_run) (d : gen_db) : gen_db :=
  {| jobs := jobs d; runs := v; checkpoints := checkpoints d; events := events d; outbox := outbox d;
     allocators := allocators d; revisions := revisions d; files := files d; patches := patches d;
     validations := validations d; validation_results := validation_results d; candidates := candidates d;
     sets := sets d; members := members d; head := head d; cleanups := cleanups d;
     cleanup_resources := cleanup_resources d; platform := platform d; recovery_epoch := recovery_epoch d |}.
Definition set_checkpoints (v : gmap string checkpoint_row) (d : gen_db) : gen_db :=
  {| jobs := jobs d; runs := runs d; checkpoints := v; events := events d; outbox := outbox d;
     allocators := allocators d; revisions := revisions d; files := files d; patches := patches d;
     validations := validations d; validation_results := validation_results d; candidates := candidates d;
     sets := sets d; members := members d; head := head d; cleanups := cleanups d;
     cleanup_resources := cleanup_resources d; platform := platform d; recovery_epoch := recovery_epoch d |}.
Definition set_events (v : list event_row) (d : gen_db) : gen_db :=
  {| jobs := jobs d; runs := runs d; checkpoints := checkpoints d; events := v; outbox := outbox d;
     allocators := allocators d; revisions := revisions d; files := files d; patches := patches d;
     validations := validations d; validation_results := validation_results d; candidates := candidates d;
     sets := sets d; members := members d; head := head d; cleanups := cleanups d;
     cleanup_resources := cleanup_resources d; platform := platform d; recovery_epoch := recovery_epoch d |}.
Definition set_outbox (v : list outbox_row) (d : gen_db) : gen_db :=
  {| jobs := jobs d; runs := runs d; checkpoints := checkpoints d; events := events d; outbox := v;
     allocators := allocators d; revisions := revisions d; files := files d; patches := patches d;
     validations := validations d; validation_results := validation_results d; candidates := candidates d;
     sets := sets d; members := members d; head := head d; cleanups := cleanups d;
     cleanup_resources := cleanup_resources d; platform := platform d; recovery_epoch := recovery_epoch d |}.
Definition set_allocators (v : allocator) (d : gen_db) : gen_db :=
  {| jobs := jobs d; runs := runs d; checkpoints := checkpoints d; events := events d; outbox := outbox d;
     allocators := v; revisions := revisions d; files := files d; patches := patches d; validations := validations d;
     validation_results := validation_results d; candidates := candidates d; sets := sets d; members := members d;
     head := head d; cleanups := cleanups d; cleanup_resources := cleanup_resources d; platform := platform d;
     recovery_epoch := recovery_epoch d |}.
Definition set_revisions (v : gmap string revision_row) (d : gen_db) : gen_db :=
  {| jobs := jobs d; runs := runs d; checkpoints := checkpoints d; events := events d; outbox := outbox d;
     allocators := allocators d; revisions := v; files := files d; patches := patches d; validations := validations d;
     validation_results := validation_results d; candidates := candidates d; sets := sets d; members := members d;
     head := head d; cleanups := cleanups d; cleanup_resources := cleanup_resources d; platform := platform d;
     recovery_epoch := recovery_epoch d |}.
Definition set_files (v : gmap string (list workspace_file)) (d : gen_db) : gen_db :=
  {| jobs := jobs d; runs := runs d; checkpoints := checkpoints d; events := events d; outbox := outbox d;
     allocators := allocators d; revisions := revisions d; files := v; patches := patches d;
     validations := validations d; validation_results := validation_results d; candidates := candidates d;
     sets := sets d; members := members d; head := head d; cleanups := cleanups d;
     cleanup_resources := cleanup_resources d; platform := platform d; recovery_epoch := recovery_epoch d |}.
Definition set_patches (v : gmap string patch_row) (d : gen_db) : gen_db :=
  {| jobs := jobs d; runs := runs d; checkpoints := checkpoints d; events := events d; outbox := outbox d;
     allocators := allocators d; revisions := revisions d; files := files d; patches := v;
     validations := validations d; validation_results := validation_results d; candidates := candidates d;
     sets := sets d; members := members d; head := head d; cleanups := cleanups d;
     cleanup_resources := cleanup_resources d; platform := platform d; recovery_epoch := recovery_epoch d |}.
Definition set_validations (v : gmap string validation_row) (d : gen_db) : gen_db :=
  {| jobs := jobs d; runs := runs d; checkpoints := checkpoints d; events := events d; outbox := outbox d;
     allocators := allocators d; revisions := revisions d; files := files d; patches := patches d; validations := v;
     validation_results := validation_results d; candidates := candidates d; sets := sets d; members := members d;
     head := head d; cleanups := cleanups d; cleanup_resources := cleanup_resources d; platform := platform d;
     recovery_epoch := recovery_epoch d |}.
Definition set_validation_results (v : list result_row) (d : gen_db) : gen_db :=
  {| jobs := jobs d; runs := runs d; checkpoints := checkpoints d; events := events d; outbox := outbox d;
     allocators := allocators d; revisions := revisions d; files := files d; patches := patches d;
     validations := validations d; validation_results := v; candidates := candidates d; sets := sets d;
     members := members d; head := head d; cleanups := cleanups d; cleanup_resources := cleanup_resources d;
     platform := platform d; recovery_epoch := recovery_epoch d |}.
Definition set_candidates (v : gmap string candidate_row) (d : gen_db) : gen_db :=
  {| jobs := jobs d; runs := runs d; checkpoints := checkpoints d; events := events d; outbox := outbox d;
     allocators := allocators d; revisions := revisions d; files := files d; patches := patches d;
     validations := validations d; validation_results := validation_results d; candidates := v; sets := sets d;
     members := members d; head := head d; cleanups := cleanups d; cleanup_resources := cleanup_resources d;
     platform := platform d; recovery_epoch := recovery_epoch d |}.
Definition set_sets (v : gmap string set_row) (d : gen_db) : gen_db :=
  {| jobs := jobs d; runs := runs d; checkpoints := checkpoints d; events := events d; outbox := outbox d;
     allocators := allocators d; revisions := revisions d; files := files d; patches := patches d;
     validations := validations d; validation_results := validation_results d; candidates := candidates d; sets := v;
     members := members d; head := head d; cleanups := cleanups d; cleanup_resources := cleanup_resources d;
     platform := platform d; recovery_epoch := recovery_epoch d |}.
Definition set_members (v : list member_row) (d : gen_db) : gen_db :=
  {| jobs := jobs d; runs := runs d; checkpoints := checkpoints d; events := events d; outbox := outbox d;
     allocators := allocators d; revisions := revisions d; files := files d; patches := patches d;
     validations := validations d; validation_results := validation_results d; candidates := candidates d;
     sets := sets d; members := v; head := head d; cleanups := cleanups d; cleanup_resources := cleanup_resources d;
     platform := platform d; recovery_epoch := recovery_epoch d |}.
Definition set_head (v : option head_row) (d : gen_db) : gen_db :=
  {| jobs := jobs d; runs := runs d; checkpoints := checkpoints d; events := events d; outbox := outbox d;
     allocators := allocators d; revisions := revisions d; files := files d; patches := patches d;
     validations := validations d; validation_results := validation_results d; candidates := candidates d;
     sets := sets d; members := members d; head := v; cleanups := cleanups d; cleanup_resources := cleanup_resources d;
     platform := platform d; recovery_epoch := recovery_epoch d |}.
Definition set_cleanups (v : gmap string cleanup_row) (d : gen_db) : gen_db :=
  {| jobs := jobs d; runs := runs d; checkpoints := checkpoints d; events := events d; outbox := outbox d;
     allocators := allocators d; revisions := revisions d; files := files d; patches := patches d;
     validations := validations d; validation_results := validation_results d; candidates := candidates d;
     sets := sets d; members := members d; head := head d; cleanups := v; cleanup_resources := cleanup_resources d;
     platform := platform d; recovery_epoch := recovery_epoch d |}.
Definition set_cleanup_resources (v : list resource_row) (d : gen_db) : gen_db :=
  {| jobs := jobs d; runs := runs d; checkpoints := checkpoints d; events := events d; outbox := outbox d;
     allocators := allocators d; revisions := revisions d; files := files d; patches := patches d;
     validations := validations d; validation_results := validation_results d; candidates := candidates d;
     sets := sets d; members := members d; head := head d; cleanups := cleanups d; cleanup_resources := v;
     platform := platform d; recovery_epoch := recovery_epoch d |}.

(** *** Triggers *)

(** [guard_generation_job_lifecycle] *)
Definition job_terminal (s : GenerationJobState) : bool :=
  match s with COMPLETED | FAILED | CANCELLED => true | _ => false end.
Definition stop_states : list GenerationJobState := [BLOCKED; FAILED; CANCELLED].
Definition job_successors (s : GenerationJobState) : list GenerationJobState :=
  match s with
  | InPhase DISCUSSING => InPhase ANALYZING :: stop_states
  | InPhase ANALYZING => InPhase IMPLEMENTING :: stop_states
  | InPhase IMPLEMENTING => InPhase INTEGRATING :: stop_states
  | InPhase INTEGRATING => InPhase VALIDATING :: stop_states
  | InPhase VALIDATING => InPhase CML_CONFORMANCE :: InPhase IMPLEMENTING :: stop_states
  | InPhase CML_CONFORMANCE => InPhase ACTIVATING :: InPhase IMPLEMENTING :: stop_states
  | InPhase ACTIVATING => COMPLETED :: stop_states
  | BLOCKED => map InPhase GENERATION_PHASES ++ [FAILED; CANCELLED]
  | COMPLETED | FAILED | CANCELLED => []
  end.
Definition guard_job (old new : generation_job) : result unit :=
  _ ← throw_if (j_version new <=? j_version old) (PgError "40001");
  _ ← throw_if (job_terminal (lifecycle old)) (PgError "55000");
  throw_if (negb (bool_decide (lifecycle old = lifecycle new) || bool_decide (lifecycle new ∈ job_successors (lifecycle old)))) (PgError "23514").

(** [guard_generation_phase_run] *)
Definition run_terminal (s : PhaseRunState) : bool :=
  match s with RUN_SUCCEEDED | RUN_FAILED | RUN_CANCELLED => true | _ => false end.
Definition run_successors (s : PhaseRunState) : list PhaseRunState :=
  match s with
  | QUEUED => [RUNNING; CANCEL_REQUESTED; RUN_CANCELLED]
  | RUNNING => [WAITING_FOR_DEPENDENCY; WAITING_FOR_OWNER; REPAIRING; RUN_SUCCEEDED; RUN_FAILED; CANCEL_REQUESTED; RUN_CANCELLED]
  | WAITING_FOR_DEPENDENCY | WAITING_FOR_OWNER => [RUNNING; REPAIRING; RUN_FAILED; CANCEL_REQUESTED; RUN_CANCELLED]
  | REPAIRING => [RUNNING; RUN_SUCCEEDED; RUN_FAILED; CANCEL_REQUESTED; RUN_CANCELLED]
  | CANCEL_REQUESTED => [RUN_FAILED; RUN_CANCELLED]
  | RUN_SUCCEEDED | RUN_FAILED | RUN_CANCELLED => []
  end.
Definition guard_run (old new : phase_run) : result unit :=
  _ ← throw_if (r_version new <=? r_version old) (PgError "40001");
  _ ← throw_if (run_terminal (r_state old)) (PgError "55000");
  throw_if (negb (bool_decide (r_state old = r_state new) || bool_decide (r_state new ∈ run_successors (r_state old)))) (PgError "23514").

(** [guard_generation_activation_set] *)
Definition set_terminal (s : set_state) : bool :=
  match s with SET_ROLLED_BACK | SET_FAILED | SET_MANUAL_REVIEW => true | _ => false end.
Definition set_successors (s : set_state) : list set_state :=
  match s with
  | SET_DRAFT => [SET_READY; SET_FAILED; SET_MANUAL_REVIEW]
  | SET_READY => [SET_SWITCHING; SET_ROLLING_BACK; SET_FAILED; SET_MANUAL_REVIEW]
  | SET_SWITCHING => [SET_VERIFYING; SET_ROLLING_BACK; SET_FAILED; SET_MANUAL_REVIEW]
  | SET_VERIFYING => [SET_ACTIVE; SET_ROLLING_BACK; SET_FAILED; SET_MANUAL_REVIEW]
  | SET_ACTIVE => [SET_ROLLING_BACK]
  | SET_ROLLING_BACK => [SET_ROLLBACK_VERIFYING; SET_ROLLED_BACK; SET_FAILED; SET_MANUAL_REVIEW]
  | SET_ROLLBACK_VERIFYING => [SET_ROLLED_BACK; SET_FAILED; SET_MANUAL_REVIEW]
  | SET_ROLLED_BACK | SET_FAILED | SET_MANUAL_REVIEW => []
  end.
Definition guard_set (old new : set_row) : result unit :=
  _ ← throw_if (st_version new <=? st_version old) (PgError "40001");
  _ ← throw_if (set_terminal (st_state old)) (PgError "55000");
  throw_if (negb (bool_decide (st_state old = st_state new) || bool_decide (st_state new ∈ set_successors (st_state old)))) (PgError "23514").

(** *** Statements *)

(** [UPDATE ... WHERE id=$1 AND p RETURNING *] under a trigger *)
Definition update_row {A} (guard : A -> A -> result unit) (id : string) (p : A -> bool) (f : A -> A) (t : gmap string A)
    : result (option A * gmap string A) :=
  match t !! id with
  | Some old => if p old then _ ← guard old (f old); Ok (Some (f old), <[id := f old]> t) else Ok (None, t)
  | None => Ok (None, t)
  end.
Definition no_guard {A} (_ _ : A) : result unit := Ok tt.
(** [INSERT] under a primary key *)
Definition insert_row {A} (id : string) (row : A) (t : gmap string A) : result (gmap string A) :=
  match t !! id with Some _ => Throw (PgError "23505") | None => Ok (<[id := row]> t) end.
Definition update_job (id : string) (p : generation_job -> bool) (f : generation_job -> generation_job) (d : gen_db)
    : result (option generation_job * gen_db) :=
  '(r, t) ← update_row guard_job id p f (jobs d); Ok (r, set_jobs t d).
Definition update_run (id : string) (p : phase_run -> bool) (f : phase_run -> phase_run) (d : gen_db)
    : result (option phase_run * gen_db) :=
  '(r, t) ← update_row guard_run id p f (runs d); Ok (r, set_runs t d).
Definition update_set (id : string) (p : set_row -> bool) (f : set_row -> set_row) (d : gen_db)
    : result (option set_row * gen_db) :=
  '(r, t) ← update_row guard_set id p f (sets d); Ok (r, set_sets t d).
Definition insert_run (id : string) (r : phase_run) (d : gen_db) : result gen_db :=
  t ← insert_row id r (runs d); Ok (set_runs t d).

Definition domain {A} (code message : string) : result A := Throw (DomainErr code message).
(** [if (!x) throw new DomainError(...)] *)
Definition require {A} (o : option A) (code message : string) : result A := or_throw o (DomainErr code message).

(** The columns one statement writes *)
Definition job_started (p : GenerationPhase) (run worker : string) (fence lease : Z) (j : generation_job) : generation_job :=
  {| j_mode := j_mode j; j_objective := j_objective j; j_targets := j_targets j; j_sources := j_sources j;
     j_model := j_model j; lifecycle := InPhase p; current_phase := InPhase p; progress := progress j;
     j_worker := Some worker; j_fence := Some fence; j_lease := Some lease; j_version := j_version j + 1;
     j_epoch := j_epoch j; j_incarnation := j_incarnation j; j_deployment := j_deployment j; active_run := Some run;
     latest_checkpoint := latest_checkpoint j; workspace_revision := workspace_revision j; j_set := j_set j;
     previous_snapshot := previous_snapshot j; recovery := recovery j; provisional_identity := provisional_identity j;
     result_digest := result_digest j; terminal_evidence := terminal_evidence j; j_cleanup := j_cleanup j |}.
Definition job_closed (s : GenerationJobState) (evidence : json) (j : generation_job) : generation_job :=
  {| j_mode := j_mode j; j_objective := j_objective j; j_targets := j_targets j; j_sources := j_sources j;
     j_model := j_model j; lifecycle := s; current_phase := s; progress := progress j; j_worker := j_worker j;
     j_fence := j_fence j; j_lease := j_lease j; j_version := j_version j + 1; j_epoch := j_epoch j;
     j_incarnation := j_incarnation j; j_deployment := j_deployment j; active_run := None;
     latest_checkpoint := latest_checkpoint j; workspace_revision := workspace_revision j; j_set := j_set j;
     previous_snapshot := previous_snapshot j; recovery := recovery j; provisional_identity := provisional_identity j;
     result_digest := result_digest j; terminal_evidence := Some evidence; j_cleanup := j_cleanup j |}.
Definition job_advanced (s : GenerationJobState) (successor : option string) (checkpoint : string) (evidence : json) (j : generation_job) : generation_job :=
  {| j_mode := j_mode j; j_objective := j_objective j; j_targets := j_targets j; j_sources := j_sources j;
     j_model := j_model j; lifecycle := s; current_phase := s; progress := progress j; j_worker := j_worker j;
     j_fence := j_fence j; j_lease := j_lease j; j_version := j_version j + 1; j_epoch := j_epoch j;
     j_incarnation := j_incarnation j; j_deployment := j_deployment j; active_run := successor;
     latest_checkpoint := Some checkpoint; workspace_revision := workspace_revision j; j_set := j_set j;
     previous_snapshot := previous_snapshot j; recovery := recovery j; provisional_identity := provisional_identity j;
     result_digest := result_digest j;
     terminal_evidence := if bool_decide (s = COMPLETED) then Some evidence else terminal_evidence j;
     j_cleanup := j_cleanup j |}.
Definition job_workspace (revision : string) (checkpoint : option string) (j : generation_job) : generation_job :=
  {| j_mode := j_mode j; j_objective := j_objective j; j_targets := j_targets j; j_sources := j_sources j;
     j_model := j_model j; lifecycle := lifecycle j; current_phase := current_phase j; progress := progress j;
     j_worker := j_worker j; j_fence := j_fence j; j_lease := j_lease j; j_version := j_version j + 1;
     j_epoch := j_epoch j; j_incarnation := j_incarnation j; j_deployment := j_deployment j; active_run := active_run j;
     latest_checkpoint := checkpoint; workspace_revision := Some revision; j_set := j_set j;
     previous_snapshot := previous_snapshot j; recovery := recovery j; provisional_identity := provisional_identity j;
     result_digest := result_digest j; terminal_evidence := terminal_evidence j; j_cleanup := j_cleanup j |}.
Definition job_checkpoint (checkpoint : string) (j : generation_job) : generation_job :=
  {| j_mode := j_mode j; j_objective := j_objective j; j_targets := j_targets j; j_sources := j_sources j;
     j_model := j_model j; lifecycle := lifecycle j; current_phase := current_phase j; progress := progress j;
     j_worker := j_worker j; j_fence := j_fence j; j_lease := j_lease j; j_version := j_version j + 1;
     j_epoch := j_epoch j; j_incarnation := j_incarnation j; j_deployment := j_deployment j; active_run := active_run j;
     latest_checkpoint := Some checkpoint; workspace_revision := workspace_revision j; j_set := j_set j;
     previous_snapshot := previous_snapshot j; recovery := recovery j; provisional_identity := provisional_identity j;
     result_digest := result_digest j; terminal_evidence := terminal_evidence j; j_cleanup := j_cleanup j |}.
Definition job_owned (run : string) (fence : Z) (j : generation_job) : generation_job :=
  {| j_mode := j_mode j; j_objective := j_objective j; j_targets := j_targets j; j_sources := j_sources j;
     j_model := j_model j; lifecycle := lifecycle j; current_phase := current_phase j; progress := progress j;
     j_worker := j_worker j; j_fence := Some fence; j_lease := j_lease j; j_version := j_version j + 1;
     j_epoch := j_epoch j; j_incarnation := j_incarnation j; j_deployment := j_deployment j; active_run := Some run;
     latest_checkpoint := latest_checkpoint j; workspace_revision := workspace_revision j; j_set := j_set j;
     previous_snapshot := previous_snapshot j; recovery := recovery j; provisional_identity := provisional_identity j;
     result_digest := result_digest j; terminal_evidence := terminal_evidence j; j_cleanup := j_cleanup j |}.
Definition job_activating (set : string) (previous : json) (epoch : Z) (j : generation_job) : generation_job :=
  {| j_mode := j_mode j; j_objective := j_objective j; j_targets := j_targets j; j_sources := j_sources j;
     j_model := j_model j; lifecycle := InPhase ACTIVATING; current_phase := InPhase ACTIVATING; progress := progress j;
     j_worker := j_worker j; j_fence := j_fence j; j_lease := j_lease j; j_version := j_version j + 1; j_epoch := epoch;
     j_incarnation := j_incarnation j; j_deployment := j_deployment j; active_run := active_run j;
     latest_checkpoint := latest_checkpoint j; workspace_revision := workspace_revision j; j_set := Some set;
     previous_snapshot := Some previous; recovery := recovery j; provisional_identity := provisional_identity j;
     result_digest := result_digest j; terminal_evidence := terminal_evidence j; j_cleanup := j_cleanup j |}.
Definition job_switched (epoch : Z) (checkpoint : string) (digest : list Z) (evidence : json) (j : generation_job) : generation_job :=
  {| j_mode := j_mode j; j_objective := j_objective j; j_targets := j_targets j; j_sources := j_sources j;
     j_model := j_model j; lifecycle := COMPLETED; current_phase := COMPLETED; progress := progress j;
     j_worker := j_worker j; j_fence := j_fence j; j_lease := j_lease j; j_version := j_version j + 1; j_epoch := epoch;
     j_incarnation := j_incarnation j; j_deployment := j_deployment j; active_run := None;
     latest_checkpoint := Some checkpoint; workspace_revision := workspace_revision j; j_set := j_set j;
     previous_snapshot := previous_snapshot j; recovery := recovery j; provisional_identity := provisional_identity j;
     result_digest := Some digest; terminal_evidence := Some evidence; j_cleanup := j_cleanup j |}.
Definition job_rolled_back (epoch : Z) (evidence : json) (j : generation_job) : generation_job :=
  {| j_mode := j_mode j; j_objective := j_objective j; j_targets := j_targets j; j_sources := j_sources j;
     j_model := j_model j; lifecycle := BLOCKED; current_phase := BLOCKED; progress := progress j;
     j_worker := j_worker j; j_fence := j_fence j; j_lease := j_lease j; j_version := j_version j + 1; j_epoch := epoch;
     j_incarnation := j_incarnation j; j_deployment := j_deployment j; active_run := active_run j;
     latest_checkpoint := latest_checkpoint j; workspace_revision := workspace_revision j; j_set := j_set j;
     previous_snapshot := previous_snapshot j; recovery := recovery j; provisional_identity := provisional_identity j;
     result_digest := result_digest j; terminal_evidence := Some evidence; j_cleanup := j_cleanup j |}.
Definition job_cleaned (cleanup : string) (s : recovery_state) (j : generation_job) : generation_job :=
  {| j_mode := j_mode j; j_objective := j_objective j; j_targets := j_targets j; j_sources := j_sources j;
     j_model := j_model j; lifecycle := lifecycle j; current_phase := current_phase j; progress := progress j;
     j_worker := j_worker j; j_fence := j_fence j; j_lease := j_lease j; j_version := j_version j + 1;
     j_epoch := j_epoch j; j_incarnation := j_incarnation j; j_deployment := j_deployment j; active_run := active_run j;
     latest_checkpoint := latest_checkpoint j; workspace_revision := workspace_revision j; j_set := j_set j;
     previous_snapshot := previous_snapshot j; recovery := s; provisional_identity := provisional_identity j;
     result_digest := result_digest j; terminal_evidence := terminal_evidence j; j_cleanup := Some cleanup |}.
Definition job_transitioned (s : GenerationJobState) (evidence : json) (j : generation_job) : generation_job :=
  {| j_mode := j_mode j; j_objective := j_objective j; j_targets := j_targets j; j_sources := j_sources j;
     j_model := j_model j; lifecycle := s; current_phase := s;
     progress := if bool_decide (s = COMPLETED) then 100 else progress j; j_worker := j_worker j; j_fence := j_fence j;
     j_lease := j_lease j; j_version := j_version j + 1; j_epoch := j_epoch j; j_incarnation := j_incarnation j;
     j_deployment := j_deployment j; active_run := active_run j; latest_checkpoint := latest_checkpoint j;
     workspace_revision := workspace_revision j; j_set := j_set j; previous_snapshot := previous_snapshot j;
     recovery := recovery j; provisional_identity := provisional_identity j; result_digest := result_digest j;
     terminal_evidence := if job_terminal s then Some evidence else terminal_evidence j; j_cleanup := j_cleanup j |}.
Definition job_pointer (revision : string) (j : generation_job) : generation_job :=
  {| j_mode := j_mode j; j_objective := j_objective j; j_targets := j_targets j; j_sources := j_sources j;
     j_model := j_model j; lifecycle := lifecycle j; current_phase := current_phase j; progress := progress j;
     j_worker := j_worker j; j_fence := j_fence j; j_lease := j_lease j; j_version := j_version j + 1;
     j_epoch := j_epoch j; j_incarnation := j_incarnation j; j_deployment := j_deployment j; active_run := active_run j;
     latest_checkpoint := latest_checkpoint j; workspace_revision := Some revision; j_set := j_set j;
     previous_snapshot := previous_snapshot j; recovery := recovery j; provisional_identity := provisional_identity j;
     result_digest := result_digest j; terminal_evidence := terminal_evidence j; j_cleanup := j_cleanup j |}.

Definition run_completed (state : PhaseRunState) (now : Z) (summary : json) (digest : list Z) (output : string) (r : phase_run) : phase_run :=
  {| r_job := r_job r; r_phase := r_phase r; r_attempt := r_attempt r; r_state := state; r_pool := r_pool r; r_owner := None;
     r_fence := r_fence r; r_lease := None; r_range := r_range r; r_input := r_input r; r_output := Some output;
     r_summary := Some summary; r_result_digest := Some digest; r_completed := Some now; r_digest := r_digest r; r_epoch := r_epoch r;
     r_version := r_version r + 1 |}.
Definition set_moved (s : set_state) (r : set_row) : set_row :=
  {| st_state := s; st_previous := st_previous r; st_candidate := st_candidate r; st_membership := st_membership r;
     st_rollback := st_rollback r; st_epoch := st_epoch r; st_version := st_version r + 1 |}.
Definition set_moved_epoch (s : set_state) (epoch : Z) (r : set_row) : set_row :=
  {| st_state := s; st_previous := st_previous r; st_candidate := st_candidate r; st_membership := st_membership r;
     st_rollback := st_rollback r; st_epoch := Some epoch; st_version := st_version r + 1 |}.

(** ** Operations *)

Section Generation.
Context `{L : Locale} `{H : Hash}.
(** [ORDER BY] on text, in the collation of the database *)
Variable path_leb : string -> string -> bool.

Definition jopt (o : option string) : json := match o with Some s => JStr s | None => JNull end.
(** [digest(value)]: the bytes of the canonical digest *)
Definition digest (j : json) : list Z := hash (utf8 (canonicalJson (canonicalize j))).
Definition bytesDigest (b : list Z) : list Z := hash b.
Definition digest_text (b : list Z) : string := "sha256:" +:+ hex b.

Definition lockJob (d : gen_db) (jobId : string) (expected : option Z) : result generation_job :=
  row ← require (jobs d !! jobId) "GENERATION_BLOCKED" "Generation job does not exist";
  _ ← throw_if (match expected with Some v => negb (j_version row =? v) | None => false end)
        (DomainErr "STATE_VERSION_CONFLICT" "Generation job state changed");
  _ ← throw_if (bool_decide (recovery row = REC_MANUAL_REVIEW)) (DomainErr "PLATFORM_RECOVERY_BLOCKED" "Generation recovery requires manual review");
  Ok row.
Definition assertLineage (j : generation_job) (incarnation : option string) (deployment : option Z) : result unit :=
  _ ← throw_if (match incarnation with Some i => truthy i && negb (String.eqb (j_incarnation j) i) | None => false end)
        (DomainErr "PLATFORM_INCARNATION_STALE" "Generation job belongs to a previous platform incarnation");
  throw_if (match deployment with Some e => negb (j_deployment j =? e) | None => false end)
    (DomainErr "ACTIVATION_EPOCH_STALE" "Generation job belongs to a previous deployment epoch").

(** [job.workspace_revision_number] is no column of the table, so the revision is always ['0']. *)
Definition checkpoint (id jobId phase kind : string) (payload : json) (run successor : option string) (d : gen_db) : result gen_db :=
  '(n, al) ← allocateContiguousSequence ("GENERATION_CHECKPOINT", jobId, "SEQUENCE") (allocators d);
  let p := canonicalize payload in
  t ← insert_row id {| cp_job := jobId; cp_sequence := n; cp_phase := phase; cp_workspace := "0"; cp_payload := p; cp_digest := digest p;
        cp_run := run; cp_kind := kind; cp_terminal := if String.eqb kind "PHASE_TERMINAL" then Some p else None;
        cp_successor := successor |} (checkpoints d);
  Ok (set_checkpoints t (set_allocators al d)).
Definition event (jobId eventType : string) (payload : json) (run : option string) (d : gen_db) : result gen_db :=
  '(n, al) ← allocateContiguousSequence ("GENERATION_EVENT", jobId, "SEQUENCE") (allocators d);
  let v := canonicalize payload in
  Ok (set_events (events d ++ [{| ev_job := jobId; ev_sequence := n; ev_type := eventType; ev_payload := v; ev_digest := digest v;
                                  ev_run := run |}]) (set_allocators al d)).

Definition canonical_modes : list string := ["CREATE"; "UPDATE"; "FOLLOW_UP"; "RETRY"; "REPAIR"].
Record create_input := {
  ci_mode : option string; ci_objective : option string; ci_targets : option (list string); ci_sources : option (list string);
  ci_model : option string; ci_incarnation : string; ci_deployment : Z;
}.
Definition provisional_json (id : string) (now : Z) : json :=
  JObj [("kind", JStr "PROVISIONAL_GENERATION_TARGET"); ("id", JStr id); ("allocatedAt", JStr (iso_string now))].
Definition createGenerationJob (i : create_input) (jobId provisionalId revisionId : string) (now : Z) (d : gen_db)
    : result (generation_job * gen_db) :=
  let mode := default "CREATE" (ci_mode i) in
  _ ← throw_if (negb (existsb (String.eqb mode) canonical_modes)) (DomainErr "GENERATION_PLAN_INVALID" "Generation mode is not canonical");
  t ← insert_row jobId {| j_mode := mode; j_objective := default "OWNER generation request" (ci_objective i);
        j_targets := default [] (ci_targets i); j_sources := default [] (ci_sources i); j_model := ci_model i;
        lifecycle := InPhase DISCUSSING; current_phase := InPhase DISCUSSING; progress := 0; j_worker := None; j_fence := None;
        j_lease := None; j_version := 1; j_epoch := 0; j_incarnation := ci_incarnation i; j_deployment := ci_deployment i;
        active_run := None; latest_checkpoint := None; workspace_revision := None; j_set := None; previous_snapshot := None;
        recovery := REC_READY; provisional_identity := Some (provisional_json provisionalId now); result_digest := None;
        terminal_evidence := None; j_cleanup := None |} (jobs d);
  rs ← insert_row revisionId {| rv_job := jobId; rv_number := 0; rv_parent := None; rv_tree := bytesDigest [] |} (revisions d);
  '(changed, d) ← update_job jobId (fun _ => true) (job_pointer revisionId) (set_revisions rs (set_jobs t d));
  j ← or_throw changed (JsError "undefined");
  Ok (j, d).

(** *** Phases *)

Definition active_state (s : PhaseRunState) : bool :=
  match s with
  | QUEUED | RUNNING | WAITING_FOR_DEPENDENCY | WAITING_FOR_OWNER | REPAIRING | CANCEL_REQUESTED => true
  | RUN_SUCCEEDED | RUN_FAILED | RUN_CANCELLED => false
  end.
Definition active_of (jobId : string) (kr : string * phase_run) : bool := String.eqb (r_job (snd kr)) jobId && active_state (r_state (snd kr)).
Definition active_runs (jobId : string) (d : gen_db) : list (string * phase_run) := List.filter (active_of jobId) (map_to_list (runs d)).

Record start_input := {
  si_job : string; si_phase : GenerationPhase; si_expected : option Z; si_worker : string; si_incarnation : option string;
  si_deployment : option Z;
}.
Definition LEASE : Z := 5 * 60 * 1000.
Definition plan_range (p : GenerationPhase) (j : generation_job) : json :=
  JObj [("phase", JStr (phase_name p)); ("sourceCheckpointId", jopt (latest_checkpoint j));
        ("workspaceRevisionId", jopt (workspace_revision j)); ("authorityId", JNull)].
(** The answer is the identifier of the run. *)
Definition startGenerationPhase (i : start_input) (runId checkpointId : string) (now : Z) (d : gen_db) : result (string * gen_db) :=
  j ← lockJob d (si_job i) (si_expected i);
  _ ← assertLineage j (si_incarnation i) (si_deployment i);
  _ ← throw_if (negb (transitionable (lifecycle j))) (DomainErr "TERMINAL_STATE_IMMUTABLE" "A terminal generation job cannot start a phase");
  let p := si_phase i in
  _ ← throw_if (negb (bool_decide (lifecycle j = InPhase p))
                && match phase_of_state (lifecycle j) with Some c => negb (phase_index p =? phase_index c + 1) | None => true end)
        (DomainErr "SIDE_EFFECT_RECONCILIATION_FAILED" ("Cannot start " +:+ phase_name p +:+ " after " +:+ job_state_name (lifecycle j)));
  match active_runs (si_job i) d with
  | (id, _) :: _ => Ok (id, d)
  | [] =>
      '(attempt, al) ← allocateContiguousSequence ("GENERATION_PHASE_ATTEMPT", si_job i, phase_name p) (allocators d);
      '(fence, al) ← allocateContiguousSequence ("GENERATION_PHASE_FENCE", si_job i, phase_name p) al;
      let range := plan_range p j in
      d ← insert_run runId {| r_job := si_job i; r_phase := InPhase p; r_attempt := attempt; r_state := RUNNING; r_pool := generationWorkerPool p;
            r_owner := Some (si_worker i); r_fence := Some fence; r_lease := Some (now + LEASE); r_range := range;
            r_input := latest_checkpoint j; r_output := None; r_summary := None; r_result_digest := None; r_completed := None;
            r_digest := digest (JObj [("phaseRunId", JStr runId); ("phase", JStr (phase_name p)); ("attempt", JStr (dec attempt));
                                      ("fence", JStr (dec fence)); ("planRange", range)]);
            r_epoch := j_epoch j; r_version := 1 |} (set_allocators al d);
      '(changed, d) ← update_job (si_job i) (fun x => j_version x =? j_version j) (job_started p runId (si_worker i) fence (now + LEASE)) d;
      _ ← require changed "STATE_VERSION_CONFLICT" "Generation job changed while starting phase";
      d ← checkpoint checkpointId (si_job i) (phase_name p) (if bool_decide (p = ANALYZING) then "SOURCE_INTAKE" else "PHASE_PROGRESS")
            (JObj [("state", JStr "RUNNING"); ("phaseRunId", JStr runId); ("fence", JStr (dec fence))]) (Some runId) None d;
      d ← event (si_job i) "generation.phase.started"
            (JObj [("phase", JStr (phase_name p)); ("phaseRunId", JStr runId); ("attempt", JStr (dec attempt)); ("fence", JStr (dec fence))])
            (Some runId) d;
      Ok (runId, d)
  end.

Record complete_input := {
  co_run : string; co_worker : string; co_token : Z; co_outcome : phase_outcome; co_evidence : list (string * json);
  co_next : option GenerationPhase; co_incarnation : option string; co_deployment : option Z;
}.
(** [{ ...evidence, phase, phaseRunId, fencingToken, terminal }] *)
Definition terminal_json (i : complete_input) (r : phase_run) : json :=
  JObj (define_prop "terminal" (JStr (outcome_text (co_outcome i)))
       (define_prop "fencingToken" (JStr (dec (co_token i)))
       (define_prop "phaseRunId" (JStr (co_run i)) (define_prop "phase" (JStr (job_state_name (r_phase r))) (co_evidence i))))).
Definition stale_worker (i : complete_input) (r : phase_run) : result bool :=
  if negb (bool_decide (r_state r = RUNNING)) || negb (String.eqb (default "null" (r_owner r)) (co_worker i)) then Ok true
  else f ← or_throw (r_fence r) (JsError "TypeError"); Ok (negb (f =? co_token i)).
Definition enqueue_json (successorRun : option string) (successor : option GenerationPhase) (checkpointId : string) : json :=
  JObj [("phaseRunId", jopt successorRun); ("phase", jopt (phase_name <$> successor)); ("checkpointId", JStr checkpointId)].
Definition queued_run (i : complete_input) (j : generation_job) (successor : GenerationPhase) (successorId jobId checkpointId : string) : phase_run :=
  {| r_job := jobId; r_phase := InPhase successor; r_attempt := 1; r_state := QUEUED; r_pool := generationWorkerPool successor; r_owner := None;
     r_fence := None; r_lease := None;
     r_range := JObj [("phase", JStr (phase_name successor)); ("predecessorPhaseRunId", JStr (co_run i))];
     r_input := Some checkpointId; r_output := None; r_summary := None; r_result_digest := None; r_completed := None;
     r_digest := digest (JObj [("successorId", JStr successorId); ("successor", JStr (phase_name successor));
                               ("predecessorPhaseRunId", JStr (co_run i))]);
     r_epoch := j_epoch j; r_version := 1 |}.

Definition completeGenerationPhase (i : complete_input) (checkpointId successorId : string) (now : Z) (d : gen_db)
    : result (option string * gen_db) :=
  r ← require (runs d !! co_run i) "CHECKPOINT_STALE" "Generation phase run does not exist";
  let jobId := r_job r in
  j ← lockJob d jobId None;
  _ ← assertLineage j (co_incarnation i) (co_deployment i);
  stale ← stale_worker i r;
  _ ← throw_if stale (DomainErr "FENCING_TOKEN_STALE" "Phase completion was submitted by a stale worker");
  let successor := match co_outcome i with
                   | OUT_SUCCEEDED => match co_next i with Some p => Some p | None => p ← phase_of_state (r_phase r); nextPhase p end
                   | _ => None end in
  let evidence := terminal_json i r in
  d ← checkpoint checkpointId jobId (job_state_name (r_phase r)) "PHASE_TERMINAL" evidence (Some (co_run i)) (phase_name <$> successor) d;
  '(updated, d) ← update_run (co_run i)
      (fun x => bool_decide (r_state x = RUNNING) && bool_decide (r_owner x = Some (co_worker i)) && bool_decide (r_fence x = Some (co_token i)))
      (run_completed (outcome_state (co_outcome i)) now (canonicalize (JObj (co_evidence i))) (digest evidence) checkpointId) d;
  _ ← require updated "FENCING_TOKEN_STALE" "Phase completion lost its fencing CAS";
  match co_outcome i with
  | OUT_SUCCEEDED =>
      d ← match successor with
          | Some p => insert_run successorId (queued_run i j p successorId jobId checkpointId) d
          | None => Ok d
          end;
      let finalState := match successor with Some p => InPhase p | None => COMPLETED end in
      let successorRun := match successor with Some _ => Some successorId | None => None end in
      '(changed, d) ← update_job jobId (fun x => j_version x =? j_version j)
                        (job_advanced finalState successorRun checkpointId (canonicalize evidence)) d;
      _ ← require changed "STATE_VERSION_CONFLICT" "Generation job changed while enqueuing successor phase";
      '(n, al) ← allocateContiguousSequence ("GENERATION_OUTBOX", jobId, "SEQUENCE") (allocators d);
      let payload := enqueue_json successorRun successor checkpointId in
      let d := set_outbox (outbox d ++ [{| ob_stream := "generation:" +:+ jobId; ob_sequence := n; ob_event := "generation.phase.enqueue";
                 ob_aggregate := jobId; ob_payload := payload; ob_digest := digest payload; ob_recovery := recovery_epoch d |}])
                 (set_allocators al d) in
      d ← event jobId (match successor with Some _ => "generation.phase.completed" | None => "generation.job.completed" end) evidence
            (Some (co_run i)) d;
      Ok (successorRun, d)
  | o =>
      let terminalState := match o with OUT_CANCELLED => CANCELLED | _ => FAILED end in
      '(changed, d) ← update_job jobId (fun x => j_version x =? j_version j) (job_closed terminalState (canonicalize evidence)) d;
      _ ← require changed "STATE_VERSION_CONFLICT" "Generation job changed while closing phase";
      d ← event jobId (match o with OUT_FAILED => "generation.job.failed" | _ => "generation.job.cancelled" end) evidence (Some (co_run i)) d;
      Ok (None, d)
  end.

(** *** Workspace revisions *)

Record WorkspaceOperation := {
  wo_op : string; wo_path : string; wo_expected : option string; wo_content : option string; wo_mime : option string;
  wo_executable : option bool;
}.
Definition check_operation (o : WorkspaceOperation) : result unit :=
  _ ← throw_if (negb (pathIsSafe (wo_path o))) (DomainErr "WORKSPACE_PATH_INVALID" "Workspace paths must be relative and contained");
  _ ← throw_if (negb (existsb (String.eqb (wo_op o)) ["ADD"; "UPDATE"; "DELETE"]))
        (DomainErr "GENERATION_PLAN_INVALID" "Workspace operation is not canonical");
  throw_if (negb (String.eqb (wo_op o) "DELETE") && match wo_content o with None => true | Some _ => false end)
    (DomainErr "GENERATION_PLAN_INVALID" "ADD and UPDATE require exact text content").
Definition operation_json (o : WorkspaceOperation) : json :=
  JObj ([("op", JStr (wo_op o)); ("path", JStr (wo_path o)); ("expectedDigest", jopt (wo_expected o))]
        ++ match wo_content o with Some c => [("content", JStr c)] | None => [] end
        ++ match wo_mime o with Some m => [("mimeType", JStr m)] | None => [] end
        ++ match wo_executable o with Some b => [("executable", JBool b)] | None => [] end).

(** The [Map] of files: setting a present path keeps its place. *)
Abbreviation file_map := (list (string * workspace_file)).
Definition new_file (o : WorkspaceOperation) (content : string) : workspace_file :=
  {| wf_path := wo_path o; wf_digest := bytesDigest (utf8 content); wf_content := content; wf_size := lengthZ (utf8 content);
     wf_mime := default "text/plain" (wo_mime o); wf_executable := default false (wo_executable o); wf_source := "MODEL_GENERATED" |}.
Definition apply_operation (fs : file_map) (o : WorkspaceOperation) : result file_map :=
  let actual := (fun f => digest_text (wf_digest f)) <$> get_prop (wo_path o) fs in
  _ ← throw_if (negb (bool_decide (actual = wo_expected o)))
        (DomainErr "WORKSPACE_BASE_STALE" ("Workspace digest mismatch for " +:+ wo_path o));
  if String.eqb (wo_op o) "DELETE" then Ok (List.filter (fun kf => negb (String.eqb (fst kf) (wo_path o))) fs)
  else content ← or_throw (wo_content o) (JsError "TypeError"); Ok (define_prop (wo_path o) (new_file o content) fs).
(** The paths that the operations write *)
Definition written_paths (os : list WorkspaceOperation) : list string :=
  map wo_path (List.filter (fun o => negb (String.eqb (wo_op o) "DELETE")) os).
(** [file.size_bytes]: a file that the operations wrote has its byte length, a number; a file carried over from the base has
    the bigint column as the driver returns it, a text. *)
Definition size_json (written : list string) (f : workspace_file) : json :=
  if existsb (String.eqb (wf_path f)) written then JNum (wf_size f) else JStr (dec (wf_size f)).
Definition tree_digest (written : list string) (fs : file_map) : list Z :=
  digest (JArr (map (fun kf => JObj [("path", JStr (wf_path (snd kf))); ("digest", JStr (hex (wf_digest (snd kf))));
                                     ("size", size_json written (snd kf))]) fs)).
(** [new Map(rows.map(file => [file.relative_path, file]))] of the ordered rows *)
Definition base_files (rows : list workspace_file) : file_map :=
  fold_left (fun fs f => define_prop (wf_path f) f fs) (stable_sort (fun a b => path_leb (wf_path a) (wf_path b)) rows) [].

Record patch_input := {
  pi_job : string; pi_run : option string; pi_operations : list WorkspaceOperation; pi_expected_revision : option string;
  pi_expected_number : option Z; pi_logical : option string;
}.
Definition truthy_id (o : option string) : option string := match o with Some s => if truthy s then Some s else None | None => None end.
Definition or_else {A} (o k : option A) : option A := match o with Some _ => o | None => k end.

(** The base revision; an absent pointer is initialised for callers that expect revision zero. *)
Definition resolve_base (i : patch_input) (j : generation_job) (initialId : string) (d : gen_db)
    : result (string * generation_job * gen_db) :=
  match truthy_id (or_else (pi_expected_revision i) (workspace_revision j)) with
  | Some b => Ok (b, j, d)
  | None =>
      if bool_decide (pi_expected_number i = Some 0) then
        rs ← insert_row initialId {| rv_job := pi_job i; rv_number := 0; rv_parent := None; rv_tree := bytesDigest [] |} (revisions d);
        '(initialized, d) ← update_job (pi_job i) (fun x => bool_decide (workspace_revision x = None)) (job_pointer initialId)
                              (set_revisions rs d);
        let j := default j initialized in
        Ok (default initialId (workspace_revision j), j, d)
      else domain "WORKSPACE_BASE_STALE" "Workspace has no current revision pointer"
  end.
(** The owning phase run; a job without one gets an [IMPLEMENTING] run. *)
Definition resolve_run (i : patch_input) (j : generation_job) (runId ownerId : string) (now : Z) (d : gen_db) : result (string * gen_db) :=
  match truthy_id (or_else (pi_run i) (active_run j)) with
  | Some r => Ok (r, d)
  | None =>
      '(fence, al) ← allocateContiguousSequence ("GENERATION_PHASE_FENCE", pi_job i, "IMPLEMENTING") (allocators d);
      d ← insert_run runId {| r_job := pi_job i; r_phase := InPhase IMPLEMENTING; r_attempt := 1; r_state := RUNNING;
            r_pool := generationWorkerPool IMPLEMENTING; r_owner := Some (default ownerId (pi_logical i)); r_fence := Some fence;
            r_lease := Some (now + LEASE); r_range := JObj [("phase", JStr "IMPLEMENTING"); ("compatibility", JBool true)];
            r_input := None; r_output := None; r_summary := None; r_result_digest := None; r_completed := None;
            r_digest := digest (JObj [("phaseRunId", JStr runId); ("fence", JStr (dec fence))]); r_epoch := j_epoch j; r_version := 1 |}
            (set_allocators al d);
      '(_, d) ← update_job (pi_job i) (fun _ => true) (job_owned runId fence) d;
      Ok (runId, d)
  end.

Record patch_ids := { id_initial : string; id_run : string; id_owner : string; id_patch : string; id_revision : string; id_checkpoint : string }.
Record patch_result := { pr_revision : string; pr_number : Z; pr_tree : list Z; pr_files : nat }.
Definition applyWorkspacePatchSet (i : patch_input) (u : patch_ids) (now : Z) (d : gen_db) : result (patch_result * gen_db) :=
  _ ← throw_if (length (pi_operations i) =? 0)%nat
        (DomainErr "GENERATION_PLAN_INVALID" "WorkspacePatchSet must contain at least one ordered operation");
  _ ← for_each check_operation (pi_operations i);
  j ← lockJob d (pi_job i) None;
  '(baseId, j, d) ← resolve_base i j (id_initial u) d;
  base ← require (match revisions d !! baseId with Some b => if String.eqb (rv_job b) (pi_job i) then Some b else None | None => None end)
           "WORKSPACE_BASE_STALE" "Workspace base revision does not exist";
  _ ← throw_if (match pi_expected_number i with Some n => negb (rv_number base =? n) | None => false end)
        (DomainErr "REVISION_STALE" "Workspace base revision is stale");
  '(runId, d) ← resolve_run i j (id_run u) (id_owner u) now d;
  _ ← throw_if (match runs d !! runId with
                | Some r => negb (String.eqb (r_job r) (pi_job i) && bool_decide (r_state r ∈ [RUNNING; REPAIRING]))
                | None => true end)
        (DomainErr "SIDE_EFFECT_RECONCILIATION_FAILED" "Workspace patch requires an active phase run");
  fs ← fold_result apply_operation (base_files (default [] (files d !! baseId))) (pi_operations i);
  let operations := canonicalize (JArr (map operation_json (pi_operations i))) in
  let operationsDigest := digest (JArr (map operation_json (pi_operations i))) in
  pt ← insert_row (id_patch u) {| pt_job := pi_job i; pt_run := runId; pt_base := baseId; pt_base_digest := rv_tree base;
         pt_operations := operations; pt_operations_digest := operationsDigest; pt_state := APPLYING; pt_result := None;
         pt_digest := digest (JObj [("patchId", JStr (id_patch u)); ("baseId", JStr baseId);
                                    ("operationsDigest", JStr (hex operationsDigest))]) |} (patches d);
  let number := rv_number base + 1 in
  let tree := tree_digest (written_paths (pi_operations i)) fs in
  rs ← insert_row (id_revision u) {| rv_job := pi_job i; rv_number := number; rv_parent := Some baseId; rv_tree := tree |} (revisions d);
  let stored := <[id_revision u := default [] (files d !! id_revision u) ++ map snd fs]> (files d) in
  '(_, pt) ← update_row no_guard (id_patch u) (fun _ => true)
      (fun p => {| pt_job := pt_job p; pt_run := pt_run p; pt_base := pt_base p; pt_base_digest := pt_base_digest p;
                   pt_operations := pt_operations p; pt_operations_digest := pt_operations_digest p; pt_state := APPLIED;
                   pt_result := Some (id_revision u); pt_digest := pt_digest p |}) pt;
  let d := set_files stored (set_revisions rs (set_patches pt d)) in
  '(changed, d) ← update_job (pi_job i) (fun x => bool_decide (workspace_revision x = Some baseId)) (job_workspace (id_revision u) None) d;
  c ← require changed "WORKSPACE_BASE_STALE" "Workspace pointer changed while applying patch";
  d ← checkpoint (id_checkpoint u) (pi_job i) (job_state_name (lifecycle c)) "WORKSPACE_REVISION"
        (JObj [("patchId", JStr (id_patch u)); ("baseRevisionId", JStr baseId); ("resultRevisionId", JStr (id_revision u));
               ("revisionNumber", JStr (dec number)); ("operationsDigest", JStr (digest_text operationsDigest))]) (Some runId) None d;
  '(_, d) ← update_job (pi_job i) (fun _ => true) (job_checkpoint (id_checkpoint u)) d;
  d ← event (pi_job i) "generation.workspace.revision.created"
        (JObj [("patchId", JStr (id_patch u)); ("revisionId", JStr (id_revision u)); ("revisionNumber", JStr (dec number))]) (Some runId) d;
  Ok ({| pr_revision := id_revision u; pr_number := number; pr_tree := tree; pr_files := length fs |}, d).

(** *** Validation *)

Record gate := { gate_key : string; gate_pass : bool; gate_actual : json }.
Definition validation_gates (candidate : option (string * candidate_row)) (workspace : option (string * revision_row)) : list gate :=
  [{| gate_key := "WORKSPACE_REVISION_PRESENT"; gate_pass := is_some workspace; gate_actual := JObj [("revisionId", jopt (fst <$> workspace))] |};
   {| gate_key := "WORKSPACE_DIGEST_COMPLETE";
      gate_pass := match workspace with Some w => (length (rv_tree (snd w)) =? 32)%nat | None => false end;
      gate_actual := JObj [("digest", jopt ((fun w => hex (rv_tree (snd w))) <$> workspace))] |};
   {| gate_key := "CANDIDATE_INTEGRATED";
      gate_pass := match candidate with Some c => String.eqb (cd_integration (snd c)) "INTEGRATED" | None => false end;
      gate_actual := JObj [("integrationState", jopt ((fun c => cd_integration (snd c)) <$> candidate))] |};
   {| gate_key := "CANDIDATE_REVISION_DIGEST";
      gate_pass := match candidate with Some c => (length (cd_revision_digest (snd c)) =? 32)%nat | None => false end;
      gate_actual := JObj [("digest", jopt ((fun c => hex (cd_revision_digest (snd c))) <$> candidate))] |}].
Definition candidate_moved (verdict : string) (c : candidate_row) : candidate_row :=
  {| cd_job := cd_job c; cd_kind := cd_kind c; cd_revision_digest := cd_revision_digest c; cd_validation := verdict;
     cd_verification := verdict; cd_integration := cd_integration c; cd_version := cd_version c + 1 |}.
Definition gate_row (runId jobId : string) (candidate workspace : option string) (g : gate) : result_row :=
  {| rs_run := runId; rs_gate := gate_key g; rs_status := if gate_pass g then "PASS" else "FAIL";
     rs_inputs := JObj [("jobId", JStr jobId); ("workspaceRevisionId", jopt workspace); ("candidateId", jopt candidate)];
     rs_actual := gate_actual g; rs_diagnostics := if gate_pass g then [] else [gate_key g +:+ " failed"];
     rs_digest := digest (JObj [("validationRunId", JStr runId); ("gateKey", JStr (gate_key g)); ("pass", JBool (gate_pass g));
                                ("actual", gate_actual g)]) |}.
Definition of_job {A} (job_of : A -> string) (jobId : string) (t : gmap string A) (id : option string) : option (string * A) :=
  i ← truthy_id id; r ← t !! i; if String.eqb (job_of r) jobId then Some (i, r) else None.
Definition runGenerationValidation (runId : string) (incarnation : option string) (deployment : option Z) (d : gen_db)
    : result (bool * gen_db) :=
  v ← require (validations d !! runId) "ACCEPTANCE_GATE_CONTRACT_INCOMPLETE" "Generation validation run does not exist";
  j ← lockJob d (vl_job v) None;
  _ ← assertLineage j incarnation deployment;
  let candidate := of_job cd_job (vl_job v) (candidates d) (vl_candidate v) in
  let workspace := of_job rv_job (vl_job v) (revisions d) (workspace_revision j) in
  let gates := validation_gates candidate workspace in
  let rows := map (gate_row runId (vl_job v) (fst <$> candidate) (fst <$> workspace)) gates in
  let passed := forallb gate_pass gates in
  let verdict := if passed then "PASS" else "FAIL" in
  let summary := JObj [("gateCatalogVersion", JStr "generation-v1"); ("passed", JBool passed);
        ("gates", JArr (map (fun g => JObj [("gateKey", JStr (gate_key g)); ("pass", JBool (gate_pass g)); ("actual", gate_actual g)]) gates))] in
  '(updated, vs) ← update_row no_guard runId (fun x => existsb (String.eqb (vl_state x)) ["RUNNING"; "QUEUED"])
      (fun x => {| vl_job := vl_job x; vl_candidate := vl_candidate x; vl_state := verdict; vl_summary := Some summary;
                   vl_evidence := Some (digest summary); vl_version := vl_version x + 1 |}) (validations d);
  _ ← require updated "TERMINAL_STATE_IMMUTABLE" "Validation run has already been completed";
  '(_, cs) ← match candidate with
             | Some (cid, _) => update_row no_guard cid (fun c => String.eqb (cd_job c) (vl_job v)) (candidate_moved verdict) (candidates d)
             | None => Ok (None, candidates d)
             end;
  Ok (passed, set_candidates cs (set_validations vs (set_validation_results (validation_results d ++ rows) d))).

(** *** Activation *)

Record member_input := { mi_kind : option string; mi_object : option string; mi_order : option string; mi_json : json }.
Record prepare_input := {
  pp_job : string; pp_candidate : string; pp_snapshot : list (string * json); pp_membership : option (list member_input);
  pp_previous : option json; pp_incarnation : option string; pp_deployment : option Z;
}.
Definition previous_json (h : head_row) : json :=
  JObj [("state", JStr (match truthy_id (current_set h) with Some _ => "ACTIVE" | None => "ABSENT" end));
        ("activationSetId", jopt (current_set h)); ("activationEpoch", JStr (dec (current_epoch h)))].
Definition candidate_json (i : prepare_input) (j : generation_job) : json :=
  JObj (define_prop "provisionalIdentity" (default JNull (provisional_identity j))
       (define_prop "candidateId" (JStr (pp_candidate i)) (define_prop "jobId" (JStr (pp_job i)) (pp_snapshot i)))).
Definition default_member (i : prepare_input) (c : candidate_row) (order : bool) : json :=
  JObj ([("objectKind", JStr (cd_kind c)); ("objectId", JStr (pp_candidate i))]
        ++ if order then [("activationOrderKey", JStr "0001")] else []).
Definition member_rows (i : prepare_input) (c : candidate_row) (setId : string) (epoch : Z) : list member_row :=
  let ms := default [{| mi_kind := Some (cd_kind c); mi_object := Some (pp_candidate i); mi_order := None;
                        mi_json := default_member i c false |}] (pp_membership i) in
  imap (fun n m => {| mb_set := setId; mb_kind := default (cd_kind c) (mi_kind m); mb_object := default (pp_candidate i) (mi_object m);
                      mb_order := default (pad_start 4 (Z.of_nat n + 1)) (mi_order m); mb_evidence := canonicalize (mi_json m);
                      mb_digest := digest (mi_json m); mb_epoch := Some epoch |}) ms.
Definition prepareGenerationActivation (i : prepare_input) (setId : string) (d : gen_db) : result gen_db :=
  j ← lockJob d (pp_job i) None;
  _ ← assertLineage j (pp_incarnation i) (pp_deployment i);
  c ← require (match candidates d !! pp_candidate i with Some c => if String.eqb (cd_job c) (pp_job i) then Some c else None | None => None end)
        "GENERATION_BLOCKED" "Generation candidate does not exist";
  _ ← throw_if (negb (String.eqb (cd_validation c) "PASS" && String.eqb (cd_verification c) "PASS" && String.eqb (cd_integration c) "INTEGRATED"))
        (DomainErr "GENERATION_BLOCKED" "Activation requires passed validation, verification and integration");
  h ← require (head d) "CLOSURE_PREDICATE_INCOMPLETE" "Activation authority head is missing";
  let previous := canonicalize (default (previous_json h) (pp_previous i)) in
  let snapshot := canonicalize (candidate_json i j) in
  let epoch := current_epoch h + 1 in
  t ← insert_row setId {| st_state := SET_READY; st_previous := previous; st_candidate := snapshot;
        st_membership := canonicalize (match pp_membership i with Some ms => JArr (map mi_json ms) | None => JArr [default_member i c true] end);
        st_rollback := JObj [("previousSnapshot", previous); ("failureState", JStr "ABSENT")]; st_epoch := Some epoch; st_version := 1 |}
        (sets d);
  let d := set_members (members d ++ member_rows i c setId epoch) (set_sets t d) in
  '(changed, d) ← update_job (pp_job i) (fun x => bool_decide (lifecycle x = InPhase CML_CONFORMANCE)) (job_activating setId previous epoch) d;
  _ ← require changed "SIDE_EFFECT_RECONCILIATION_FAILED" "Generation job is not ready for activation";
  event (pp_job i) "generation.activation.started"
    (JObj [("activationSetId", JStr setId); ("previousSnapshot", default (previous_json h) (pp_previous i));
           ("candidateSnapshot", candidate_json i j)]) None d.

(** [UPDATE kcml.activation_head ... WHERE singleton_key=1 AND current_epoch=$3] *)
Definition move_head (epoch : Z) (set : option string) (expected : Z) (d : gen_db) : gen_db :=
  match head d with
  | Some h => if current_epoch h =? expected
              then set_head (Some {| current_epoch := epoch; current_set := set; h_version := h_version h + 1 |}) d else d
  | None => d
  end.

Record switch_input := {
  sw_job : string; sw_set : string; sw_expected : option Z; sw_incarnation : option string; sw_deployment : option Z;
}.
Definition completed_json (setId : string) (epoch : Z) (state : string) : json :=
  JObj [("activationSetId", JStr setId); ("activationEpoch", JStr (dec epoch)); ("state", JStr state)].
Definition switchGenerationActivation (i : switch_input) (preId postId : string) (d : gen_db) : result (Z * gen_db) :=
  j ← lockJob d (sw_job i) (sw_expected i);
  _ ← assertLineage j (sw_incarnation i) (sw_deployment i);
  s ← require (match sets d !! sw_set i with Some s => if bool_decide (st_state s = SET_READY) then Some s else None | None => None end)
        "ACTIVATION_SET_NOT_READY" "Only a frozen READY activation set can switch";
  h ← or_throw (head d) (JsError "TypeError");
  let epoch := current_epoch h + 1 in
  d ← checkpoint preId (sw_job i) "ACTIVATING" "ACTIVATION_PRE"
        (JObj [("activationSetId", JStr (sw_set i)); ("previousSnapshot", st_previous s); ("candidateSnapshot", st_candidate s);
               ("nextEpoch", JStr (dec epoch))]) None None d;
  '(_, d) ← update_set (sw_set i) (fun _ => true) (set_moved_epoch SET_SWITCHING epoch) d;
  let d := move_head epoch (Some (sw_set i)) (current_epoch h) d in
  '(verifying, d) ← update_set (sw_set i) (fun x => bool_decide (st_state x = SET_SWITCHING)) (set_moved SET_VERIFYING) d;
  _ ← require verifying "SIDE_EFFECT_RECONCILIATION_FAILED" "Activation set did not enter postflight verification";
  '(verified, d) ← update_set (sw_set i) (fun x => bool_decide (st_state x = SET_VERIFYING)) (set_moved SET_ACTIVE) d;
  _ ← require verified "SIDE_EFFECT_RECONCILIATION_FAILED" "Activation set postflight verification failed";
  d ← checkpoint postId (sw_job i) "ACTIVATING" "ACTIVATION_POST" (completed_json (sw_set i) epoch "ACTIVE") None None d;
  let evidence := completed_json (sw_set i) epoch "COMPLETED" in
  '(changed, d) ← update_job (sw_job i) (fun x => bool_decide (lifecycle x = InPhase ACTIVATING))
                    (job_switched epoch postId (digest evidence) evidence) d;
  _ ← require changed "SIDE_EFFECT_RECONCILIATION_FAILED" "Generation job was not activating";
  d ← event (sw_job i) "generation.activation.completed"
        (JObj [("activationSetId", JStr (sw_set i)); ("activationEpoch", JStr (dec epoch))]) None d;
  Ok (epoch, d).

Record rollback_input := { rb_job : string; rb_set : string; rb_reason : string; rb_incarnation : option string; rb_deployment : option Z }.
(** [typeof previous.activationSetId === 'string'] *)
Definition previous_set (j : json) : option string :=
  match j with JObj l => match get_prop "activationSetId" l with Some (JStr s) => Some s | _ => None end | _ => None end.
Definition rollback_json (i : rollback_input) (restored : option string) (epoch : Z) : json :=
  JObj [("rollback", JBool true); ("activationSetId", JStr (rb_set i)); ("restoredActivationSetId", jopt restored);
        ("activationEpoch", JStr (dec epoch)); ("reason", JStr (rb_reason i))].
Definition rollback_evidence (i : rollback_input) (restored : option string) : json :=
  JObj [("rollback", JBool true); ("activationSetId", JStr (rb_set i)); ("restoredActivationSetId", jopt restored);
        ("reason", JStr (rb_reason i));
        ("state", JStr (match truthy_id restored with Some _ => "PREVIOUS_RESTORED" | None => "ABSENT" end))].
Definition rollbackGenerationActivation (i : rollback_input) (checkpointId : string) (d : gen_db) : result (option string * gen_db) :=
  j ← lockJob d (rb_job i) None;
  _ ← assertLineage j (rb_incarnation i) (rb_deployment i);
  s ← require (sets d !! rb_set i) "ACTIVATION_SET_NOT_READY" "Activation set does not exist";
  h ← or_throw (head d) (JsError "TypeError");
  _ ← throw_if (negb (bool_decide (st_state s ∈ [SET_ACTIVE; SET_VERIFYING])) || negb (String.eqb (default "null" (current_set h)) (rb_set i)))
        (DomainErr "ROLLBACK_INCOMPLETE" "Rollback requires the current candidate activation set");
  let epoch := current_epoch h + 1 in
  let restored := previous_set (st_previous s) in
  '(_, d) ← update_set (rb_set i) (fun _ => true) (set_moved_epoch SET_ROLLING_BACK epoch) d;
  let d := move_head epoch restored (current_epoch h) d in
  '(_, d) ← update_set (rb_set i) (fun x => bool_decide (st_state x = SET_ROLLING_BACK)) (set_moved SET_ROLLBACK_VERIFYING) d;
  '(_, d) ← update_set (rb_set i) (fun x => bool_decide (st_state x = SET_ROLLBACK_VERIFYING)) (set_moved SET_ROLLED_BACK) d;
  '(changed, d) ← update_job (rb_job i) (fun x => negb (job_terminal (lifecycle x))) (job_rolled_back epoch (rollback_evidence i restored)) d;
  _ ← require changed "GENERATION_PLAN_INVALID" "Generation job cannot be rolled back from its terminal state";
  d ← checkpoint checkpointId (rb_job i) "BLOCKED" "ACTIVATION_POST" (rollback_json i restored epoch) None None d;
  d ← event (rb_job i) "generation.activation.rollback.completed"
        (JObj [("activationSetId", JStr (rb_set i)); ("restoredActivationSetId", jopt restored);
               ("activationEpoch", JStr (dec epoch)); ("reason", JStr (rb_reason i))]) None d;
  Ok (restored, d).

(** *** Cleanup *)

Definition provisional_set (s : set_state) : bool :=
  match s with
  | SET_DRAFT | SET_READY | SET_SWITCHING | SET_VERIFYING | SET_ROLLING_BACK | SET_ROLLBACK_VERIFYING => true | _ => false
  end.
(** [candidate_snapshot->>'jobId' = $1] *)
Definition snapshot_job (j : json) (jobId : string) : bool :=
  match j with JObj l => match get_prop "jobId" l with Some (JStr s) => String.eqb s jobId | _ => false end | _ => false end.
Definition live_counts (jobId : string) (d : gen_db) : Z * Z * Z :=
  (lengthZ (active_runs jobId d),
   lengthZ (List.filter (fun kp => String.eqb (pt_job (snd kp)) jobId && bool_decide (pt_state (snd kp) ∈ [APPLYING; PENDING])) (map_to_list (patches d))),
   lengthZ (List.filter (fun ks => snapshot_job (st_candidate (snd ks)) jobId && provisional_set (st_state (snd ks))) (map_to_list (sets d)))).
Definition cleanup_inventory (counts : Z * Z * Z) : list (string * Z * json) :=
  let '(phaseRuns, pendingPatches, activeActivation) := counts in
  [("PHASE_RUN", phaseRuns, JObj [("terminal", JStr "no live phase run")]);
   ("WORKSPACE_PATCH", pendingPatches, JObj [("terminal", JStr "no pending workspace patch")]);
   ("ACTIVATION_SET", activeActivation, JObj [("terminal", JStr "no provisional activation set")])].
Definition cleanup_json (jobId : string) (counts : Z * Z * Z) (complete : bool) (now : Z) : json :=
  let '(phaseRuns, pendingPatches, activeActivation) := counts in
  JObj [("jobId", JStr jobId); ("phaseRuns", JNum phaseRuns); ("pendingPatches", JNum pendingPatches);
        ("activeActivation", JNum activeActivation);
        ("inventory", JArr (map (fun x => JArr [JStr (fst (fst x)); JNum (snd (fst x)); snd x]) (cleanup_inventory counts)));
        ("terminalClosure", JBool complete); ("generatedAt", JStr (iso_string now))].
Definition cleanupGenerationJob (jobId cleanupId : string) (now : Z) (d : gen_db) : result (bool * gen_db) :=
  _ ← lockJob d jobId None;
  heads ← require (platform d) "CLOSURE_PREDICATE_INCOMPLETE" "Platform authority heads are missing";
  let counts := live_counts jobId d in
  let '(phaseRuns, pendingPatches, activeActivation) := counts in
  let resources := map (fun x => {| rc_cleanup := cleanupId; rc_kind := fst (fst x); rc_key := jobId +:+ ":" +:+ fst (fst x);
        rc_desired := snd x; rc_absent := snd (fst x) =? 0; rc_count := snd (fst x) |}) (cleanup_inventory counts) in
  let complete := (phaseRuns =? 0) && (pendingPatches =? 0) && (activeActivation =? 0) in
  t ← insert_row cleanupId {| cu_parent := jobId; cu_status := CLEANUP_RUNNING; cu_evidence := None; cu_incarnation := fst heads;
        cu_deployment := snd heads |} (cleanups d);
  '(_, t) ← update_row no_guard cleanupId (fun _ => true)
      (fun c => {| cu_parent := cu_parent c; cu_status := if complete then CLEANUP_CLOSED else CLEANUP_FAILED;
                   cu_evidence := Some (cleanup_json jobId counts complete now); cu_incarnation := cu_incarnation c;
                   cu_deployment := cu_deployment c |}) t;
  '(_, d) ← update_job jobId (fun _ => true) (job_cleaned cleanupId (if complete then REC_READY else REC_REQUIRED))
              (set_cleanups t (set_cleanup_resources (cleanup_resources d ++ resources) d));
  Ok (complete, d).

(** *** [GenerationOrchestrator.transition] *)

Definition generationTransitions (s : GenerationJobState) : list GenerationJobState :=
  match s with
  | InPhase DISCUSSING => [InPhase ANALYZING; BLOCKED; FAILED; CANCELLED]
  | InPhase ANALYZING => [InPhase IMPLEMENTING; BLOCKED; FAILED; CANCELLED]
  | InPhase IMPLEMENTING => [InPhase INTEGRATING; BLOCKED; FAILED; CANCELLED]
  | InPhase INTEGRATING => [InPhase VALIDATING; BLOCKED; FAILED; CANCELLED]
  | InPhase VALIDATING => [InPhase CML_CONFORMANCE; InPhase IMPLEMENTING; BLOCKED; FAILED; CANCELLED]
  | InPhase CML_CONFORMANCE => [InPhase ACTIVATING; InPhase IMPLEMENTING; BLOCKED; FAILED; CANCELLED]
  | InPhase ACTIVATING => [COMPLETED; BLOCKED; FAILED; CANCELLED]
  | COMPLETED | FAILED | CANCELLED => []
  | BLOCKED => [InPhase DISCUSSING; InPhase ANALYZING; InPhase IMPLEMENTING; InPhase INTEGRATING; InPhase VALIDATING;
                InPhase CML_CONFORMANCE; InPhase ACTIVATING; FAILED; CANCELLED]
  end.
Definition transition (jobId : string) (expected : Z) (next : GenerationJobState) (evidence : json) (checkpointId : string) (d : gen_db)
    : result (generation_job * gen_db) :=
  j ← require (jobs d !! jobId) "GENERATION_BLOCKED" "Generation job does not exist";
  _ ← throw_if (negb (j_version j =? expected)) (DomainErr "STATE_VERSION_CONFLICT" "Generation job changed");
  _ ← throw_if (negb (bool_decide (next ∈ generationTransitions (lifecycle j))))
        (DomainErr "GENERATION_PLAN_INVALID" (job_state_name (lifecycle j) +:+ " cannot transition to " +:+ job_state_name next));
  '(updated, d) ← update_job jobId (fun x => j_version x =? j_version j) (job_transitioned next evidence) d;
  let payload := JObj [("transition", JObj [("from", JStr (job_state_name (lifecycle j))); ("to", JStr (job_state_name next))]);
                       ("evidence", evidence)] in
  '(n, al) ← allocateContiguousSequence ("GENERATION_CHECKPOINT", jobId, "SEQUENCE") (allocators d);
  t ← insert_row checkpointId {| cp_job := jobId; cp_sequence := n; cp_phase := job_state_name next; cp_workspace := "0"; cp_payload := payload;
        cp_digest := hash (utf8 (of_chars (print_chars payload))); cp_run := None;
        cp_kind := if job_terminal next then "PHASE_TERMINAL" else "RECOVERY";
        cp_terminal := if job_terminal next then Some evidence else None; cp_successor := None |} (checkpoints d);
  u ← or_throw updated (JsError "undefined");
  Ok (u, set_checkpoints t (set_allocators al d)).

(** ** Histories *)

(** Committed transactions of this service in any order.  The identifiers of new phase runs are uuids, so not
    empty, and no caller names the empty run.  The operation handlers that write the same tables are other
    programs: the job and blocker commands are in [GenerationCommands]. *)

Inductive gen_step (d : gen_db) : gen_db -> Prop :=
| StepCreate i a b c now j d' : createGenerationJob i a b c now d = Ok (j, d') -> gen_step d d'
| StepStart i a b now r d' : truthy a = true -> startGenerationPhase i a b now d = Ok (r, d') -> gen_step d d'
| StepComplete i a b now r d' : truthy b = true -> completeGenerationPhase i a b now d = Ok (r, d') -> gen_step d d'
| StepPatch i u now r d' : truthy (id_run u) = true -> pi_run i <> Some "" -> applyWorkspacePatchSet i u now d = Ok (r, d') -> gen_step d d'
| StepValidate v inc dep r d' : runGenerationValidation v inc dep d = Ok (r, d') -> gen_step d d'
| StepPrepare i a d' : prepareGenerationActivation i a d = Ok d' -> gen_step d d'
| StepSwitch i a b e d' : switchGenerationActivation i a b d = Ok (e, d') -> gen_step d d'
| StepRollback i a r d' : rollbackGenerationActivation i a d = Ok (r, d') -> gen_step d d'
| StepCleanup j a now r d' : cleanupGenerationJob j a now d = Ok (r, d') -> gen_step d d'
| StepTransition j e n ev a r d' : transition j e n ev a d = Ok (r, d') -> gen_step d d'.
End Generation.

(** ** Theory *)

Section Theory.
Context `{L : Locale} `{H : Hash}.
Context (path_leb : string -> string -> bool).

(** *** Statements *)

Lemma set_jobs_id d : set_jobs (jobs d) d = d.
Proof. by destruct d. Qed.
Lemma set_runs_id d : set_runs (runs d) d = d.
Proof. by destruct d. Qed.
Lemma set_sets_id d : set_sets (sets d) d = d.
Proof. by destruct d. Qed.

(** What a guarded [UPDATE] did *)
Lemma update_row_Ok {A} (guard : A -> A -> result unit) id p f t o t' :
  update_row guard id p f t = Ok (o, t') ->
  (exists old, t !! id = Some old /\ p old = true /\ guard old (f old) = Ok tt /\ o = Some (f old) /\ t' = <[id := f old]> t)
  \/ ((forall old, t !! id = Some old -> p old = false) /\ o = None /\ t' = t).
Proof.
  unfold update_row. intros E. destruct (t !! id) as [old|]; [|injection E as <- <-; by right].
  destruct (p old) eqn:Hp; [|injection E as <- <-; right; split; [by intros ? [= <-]|done]].
  apply bind_Ok_inv in E as ([] & Hg & E). injection E as <- <-. left. eauto 10.
Qed.

Lemma update_job_Ok id p f d o d' :
  update_job id p f d = Ok (o, d') ->
  (exists j, jobs d !! id = Some j /\ p j = true /\ guard_job j (f j) = Ok tt /\ o = Some (f j) /\ d' = set_jobs (<[id := f j]> (jobs d)) d)
  \/ ((forall j, jobs d !! id = Some j -> p j = false) /\ o = None /\ d' = d).
Proof.
  unfold update_job. intros E. apply bind_Ok_inv in E as ([r t] & E & E2). injection E2 as <- <-.
  apply update_row_Ok in E as [(j & ? & ? & ? & -> & ->)|(? & -> & ->)]; [left; eauto 10|right]. by rewrite set_jobs_id.
Qed.
Lemma update_run_Ok id p f d o d' :
  update_run id p f d = Ok (o, d') ->
  (exists r, runs d !! id = Some r /\ p r = true /\ guard_run r (f r) = Ok tt /\ o = Some (f r) /\ d' = set_runs (<[id := f r]> (runs d)) d)
  \/ ((forall r, runs d !! id = Some r -> p r = false) /\ o = None /\ d' = d).
Proof.
  unfold update_run. intros E. apply bind_Ok_inv in E as ([r t] & E & E2). injection E2 as <- <-.
  apply update_row_Ok in E as [(j & ? & ? & ? & -> & ->)|(? & -> & ->)]; [left; eauto 10|right]. by rewrite set_runs_id.
Qed.
Lemma insert_row_Ok {A} id (row : A) t t' : insert_row id row t = Ok t' -> t !! id = None /\ t' = <[id := row]> t.
Proof. unfold insert_row. destruct (t !! id); [discriminate|]. by intros [= <-]. Qed.
Lemma insert_run_Ok id r d d' : insert_run id r d = Ok d' -> runs d !! id = None /\ d' = set_runs (<[id := r]> (runs d)) d.
Proof. unfold insert_run. intros E. inv_ok. apply insert_row_Ok in Hok as [? ->]. done. Qed.

(** The tables of the phase machine *)
Definition same_phases (d d' : gen_db) : Prop := jobs d' = jobs d /\ runs d' = runs d.
Lemma same_phases_trans d1 d2 d3 : same_phases d1 d2 -> same_phases d2 d3 -> same_phases d1 d3.
Proof. intros [? ?] [? ?]. split; congruence. Qed.
Lemma checkpoint_same id jobId phase kind payload run succ d d' :
  checkpoint id jobId phase kind payload run succ d = Ok d' -> same_phases d d'.
Proof. unfold checkpoint. intros E. apply bind_Ok_inv in E as ([n al] & _ & E). inv_ok. by subst. Qed.
Lemma event_same jobId t payload run d d' : event jobId t payload run d = Ok d' -> same_phases d d'.
Proof. unfold event. intros E. apply bind_Ok_inv in E as ([n al] & _ & E). inv_ok. by subst. Qed.
Lemma update_set_same id p f d o d' : update_set id p f d = Ok (o, d') -> same_phases d d'.
Proof. unfold update_set. intros E. apply bind_Ok_inv in E as ([r t] & _ & E). injection E as <- <-. done. Qed.
Lemma move_head_same e s x d : same_phases d (move_head e s x d).
Proof. unfold move_head. by destruct (head d) as [h|]; [destruct (_ =? _)|]. Qed.

(** *** How one transaction changes jobs and runs *)

(** The elementary changes of the two tables *)
Inductive phase_change (d d' : gen_db) : Prop :=
| ChSame : same_phases d d' -> phase_change d d'
| ChNewJob id j : jobs d !! id = None -> jobs d' = <[id := j]> (jobs d) -> runs d' = runs d -> phase_change d d'
| ChJob id j j' : jobs d !! id = Some j -> guard_job j j' = Ok tt ->
    (active_run j' = active_run j \/ job_terminal (lifecycle j') = true) ->
    jobs d' = <[id := j']> (jobs d) -> runs d' = runs d -> phase_change d d'
| ChStart id k j j' r : jobs d !! id = Some j -> guard_job j j' = Ok tt -> runs d !! k = None -> r_job r = id ->
    active_state (r_state r) = true -> active_run j' = Some k -> truthy k = true ->
    (active_runs id d = [] \/ truthy_id (active_run j) = None) ->
    jobs d' = <[id := j']> (jobs d) -> runs d' = <[k := r]> (runs d) -> phase_change d d'
| ChHandOver id k k' j j' r r' r2 : jobs d !! id = Some j -> guard_job j j' = Ok tt ->
    runs d !! k = Some r -> r_job r = id -> r_state r = RUNNING -> r_job r' = id -> run_terminal (r_state r') = true ->
    <[k := r']> (runs d) !! k' = None -> r_job r2 = id -> active_state (r_state r2) = true -> active_run j' = Some k' -> truthy k' = true ->
    jobs d' = <[id := j']> (jobs d) -> runs d' = <[k' := r2]> (<[k := r']> (runs d)) -> phase_change d d'
| ChClose id k j j' r r' : jobs d !! id = Some j -> guard_job j j' = Ok tt -> runs d !! k = Some r -> r_job r = id ->
    r_state r = RUNNING -> r_job r' = id -> run_terminal (r_state r') = true -> job_terminal (lifecycle j') = true ->
    jobs d' = <[id := j']> (jobs d) -> runs d' = <[k := r']> (runs d) -> phase_change d d'.
Definition phase_changes : gen_db -> gen_db -> Prop := star phase_change.

Lemma phase_changes_same d d' : same_phases d d' -> phase_changes d d'.
Proof. intros E. by apply star_one, ChSame. Qed.
Lemma phase_changes_trans d1 d2 d3 : phase_changes d1 d2 -> phase_changes d2 d3 -> phase_changes d1 d3.
Proof. apply star_trans. Qed.

Lemma update_job_changes id p f d o d' :
  (forall j, active_run (f j) = active_run j \/ job_terminal (lifecycle (f j)) = true) ->
  update_job id p f d = Ok (o, d') -> phase_changes d d'.
Proof.
  intros Hf E. apply update_job_Ok in E as [(j & Hj & _ & Hg & _ & ->)|(_ & _ & ->)]; [|apply star_refl].
  apply star_one. by eapply ChJob.
Qed.
Lemma checkpoint_changes id jobId phase kind payload run succ d d' :
  checkpoint id jobId phase kind payload run succ d = Ok d' -> phase_changes d d'.
Proof. intros E. by eapply phase_changes_same, checkpoint_same. Qed.
Lemma event_changes jobId t payload run d d' : event jobId t payload run d = Ok d' -> phase_changes d d'.
Proof. intros E. by eapply phase_changes_same, event_same. Qed.
Lemma update_set_changes id p f d o d' : update_set id p f d = Ok (o, d') -> phase_changes d d'.
Proof. intros E. by eapply phase_changes_same, update_set_same. Qed.
Lemma move_head_changes e s x d : phase_changes d (move_head e s x d).
Proof. apply phase_changes_same, move_head_same. Qed.

(** [steps] turns the run of an operation into the facts about its statements. *)
Ltac steps :=
  repeat match goal with
  | H : Ok (_, _) = Ok (_, _) |- _ => injection H as <- <-
  | H : (_ ≫= _) = Ok _ |- _ =>
      let a := fresh "a" in let Ha := fresh "Hok" in apply bind_Ok_inv in H as (a & Ha & H)
  | H : (let '(_, _) := ?x in _) = Ok _ |- _ => let o := fresh "o" in let e := fresh "db" in destruct x as [o e]
  | H : throw_if _ _ = Ok _ |- _ => apply throw_if_Ok in H
  | H : or_throw _ _ = Ok _ |- _ => apply or_throw_Ok in H
  | H : require _ _ _ = Ok _ |- _ => apply or_throw_Ok in H
  | H : Throw _ = Ok _ |- _ => discriminate H
  | H : domain _ _ = Ok _ |- _ => discriminate H
  | u : unit |- _ => destruct u
  end.
(** [back]: the last statement of the transaction does not touch jobs and runs. *)
Ltac back :=
  eapply phase_changes_trans;
  [|first [ eapply event_changes; eassumption | eapply checkpoint_changes; eassumption | eapply update_set_changes; eassumption
          | apply move_head_changes ]].

Lemma lockJob_Ok d id v j : lockJob d id v = Ok j -> jobs d !! id = Some j /\ recovery j <> REC_MANUAL_REVIEW.
Proof. unfold lockJob, require. intros E. inv_ok. subst. by reflect_bools. Qed.

Lemma create_changes i a b c now d j d' : createGenerationJob i a b c now d = Ok (j, d') -> phase_changes d d'.
Proof.
  unfold createGenerationJob. intros E. steps.
  match goal with Hi : insert_row a _ (jobs d) = Ok _ |- _ => apply insert_row_Ok in Hi as [Hn ->] end.
  eapply phase_changes_trans; [|eapply update_job_changes; [|eassumption]; intros ?; by left].
  apply star_one. by eapply ChNewJob.
Qed.

Lemma start_changes i a b now d r d' : truthy a = true -> startGenerationPhase i a b now d = Ok (r, d') -> phase_changes d d'.
Proof.
  unfold startGenerationPhase. intros Ha E. apply bind_Ok_inv in E as (j & Hl & E). apply lockJob_Ok in Hl as [Hj _].
  steps. destruct (active_runs (si_job i) d) as [|[k r0] l] eqn:Hact; [|injection E as <- <-; apply star_refl].
  steps. match goal with Hi : insert_run _ _ _ = Ok _ |- _ => apply insert_run_Ok in Hi as [Hfresh ->] end.
  match goal with Hu : update_job _ _ _ _ = Ok _ |- _ => apply update_job_Ok in Hu as [(j' & Hj' & _ & Hg & _ & ->)|(_ & -> & _)]; [|discriminate] end.
  cbn in Hj'. rewrite Hj in Hj'. injection Hj' as <-.
  back. back.
  apply star_one. eapply (ChStart _ _ (si_job i) a); [exact Hj|exact Hg|exact Hfresh|..]; try reflexivity; try exact Ha.
  all: first [reflexivity | by left].
Qed.

Lemma close_guard o : run_terminal (outcome_state o) = true.
Proof. by destruct o. Qed.

Lemma complete_changes i a b now d r d' : truthy b = true -> completeGenerationPhase i a b now d = Ok (r, d') -> phase_changes d d'.
Proof.
  unfold completeGenerationPhase. intros Hb E. apply bind_Ok_inv in E as (r0 & Hr & E). apply or_throw_Ok in Hr.
  apply bind_Ok_inv in E as (j & Hl & E). apply lockJob_Ok in Hl as [Hj _]. steps.
  match goal with Hu : update_run _ _ _ _ = Ok _ |- _ => apply update_run_Ok in Hu as [(r1 & Hr1 & Hp & _ & _ & ->)|(_ & -> & _)]; [|discriminate] end.
  match goal with Hc : checkpoint _ _ _ _ _ _ _ d = Ok _ |- _ => pose proof (checkpoint_same _ _ _ _ _ _ _ _ _ Hc) as [Hcj Hcr] end.
  rewrite Hcr, Hr in Hr1. injection Hr1 as <-. reflect_bools.
  destruct (co_outcome i) eqn:Ho.
  2,3: steps; match goal with Hu : update_job _ _ _ _ = Ok _ |- _ => apply update_job_Ok in Hu as [(j' & Hj' & _ & Hg & _ & ->)|(_ & -> & _)]; [|discriminate] end;
    cbn in Hj'; rewrite Hcj, Hj in Hj'; injection Hj' as <-;
    back; apply star_one;
    eapply (ChClose _ _ (r_job r0) (co_run i) j _ r0 (run_completed _ _ _ _ _ r0)); [exact Hj|exact Hg|exact Hr|..]; try (cbn; by rewrite ?Hcj, ?Hcr); try done.
  apply bind_Ok_inv in E as (d2 & Hins & E). steps.
  match goal with Hu : update_job _ _ _ _ = Ok _ |- _ => apply update_job_Ok in Hu as [(j' & Hj' & _ & Hg & _ & ->)|(_ & -> & _)]; [|discriminate] end.
  back. apply star_one.
  destruct (match co_next i with Some p => _ | None => _ end) as [p|].
  - apply insert_run_Ok in Hins as [Hfresh ->]. cbn in Hj', Hfresh. rewrite Hcj, Hj in Hj'. injection Hj' as <-. rewrite Hcr in Hfresh.
    eapply (ChHandOver _ _ (r_job r0) (co_run i) b j _ r0 (run_completed _ _ _ _ _ r0) (queued_run i j p b (r_job r0) a)); [exact Hj|exact Hg|exact Hr|..]; try exact Hfresh; try (cbn; by rewrite ?Hcj, ?Hcr); try done.
  - injection Hins as <-. cbn in Hj'. rewrite Hcj, Hj in Hj'. injection Hj' as <-.
    eapply (ChClose _ _ (r_job r0) (co_run i) j _ r0 (run_completed _ _ _ _ _ r0)); [exact Hj|exact Hg|exact Hr|..]; try (cbn; by rewrite ?Hcj, ?Hcr); try done.
Qed.

(** An update that keeps the pointer to the active run, or ends the job *)
Definition keeps_run (f : generation_job -> generation_job) : Prop :=
  forall j, active_run (f j) = active_run j \/ job_terminal (lifecycle (f j)) = true.
Ltac back_job :=
  eapply phase_changes_trans; [|eapply update_job_changes; [|eassumption]; intros ?; first [by left | by right]].

Lemma resolve_base_changes i j u d b j' d' : resolve_base i j u d = Ok (b, j', d') -> phase_changes d d'.
Proof.
  unfold resolve_base. destruct (truthy_id _) as [x|]; [intros [= _ _ <-]; apply star_refl|].
  destruct (bool_decide _); [|discriminate]. intros E. apply bind_Ok_inv in E as (rs & _ & E).
  apply bind_Ok_inv in E as ([o d1] & Hu & E). injection E as _ _ <-. back_job. by apply phase_changes_same.
Qed.

Lemma resolve_base_job i j u d b j' d' :
  jobs d !! pi_job i = Some j -> resolve_base i j u d = Ok (b, j', d') ->
  jobs d' !! pi_job i = Some j' /\ active_run j' = active_run j.
Proof.
  unfold resolve_base. intros Hj. destruct (truthy_id _) as [x|]; [by intros [= _ <- <-]|].
  destruct (bool_decide _); [|discriminate]. intros E. apply bind_Ok_inv in E as (rs & _ & E).
  apply bind_Ok_inv in E as ([o d1] & Hu & E). injection E as _ <- <-.
  apply update_job_Ok in Hu as [(j1 & Hj1 & _ & _ & -> & ->)|(_ & -> & ->)]; cbn; [|done].
  cbn in Hj1. rewrite Hj in Hj1. injection Hj1 as <-. by rewrite lookup_insert_eq.
Qed.

Lemma resolve_run_changes i j u w now d r d' :
  jobs d !! pi_job i = Some j -> pi_run i <> Some "" -> truthy u = true ->
  resolve_run i j u w now d = Ok (r, d') -> phase_changes d d'.
Proof.
  intros Hj Hne Hu. unfold resolve_run. destruct (truthy_id _) as [x|] eqn:Ht; [intros [= _ <-]; apply star_refl|].
  assert (Hrun : truthy_id (active_run j) = None).
  { destruct (pi_run i) as [s|]; cbn in Ht; [|done]. destruct (truthy s) eqn:Hs; [done|].
    unfold truthy in Hs. apply negb_false_iff, String.eqb_eq in Hs. congruence. }
  intros E. steps. match goal with Hi : insert_run _ _ _ = Ok _ |- _ => apply insert_run_Ok in Hi as [Hfresh ->] end.
  match goal with Hx : update_job _ _ _ _ = Ok _ |- _ => apply update_job_Ok in Hx as [(j' & Hj' & _ & Hg & _ & ->)|(Hnone & _ & _)] end.
  - cbn in Hj'. rewrite Hj in Hj'. injection Hj' as <-. apply star_one.
    eapply (ChStart _ _ (pi_job i) u j); [exact Hj|exact Hg|exact Hfresh|..]; cycle 6; try reflexivity; try done. by right.
  - discriminate (Hnone j Hj).
Qed.

Lemma patch_changes i u now d r d' :
  truthy (id_run u) = true -> pi_run i <> Some "" -> applyWorkspacePatchSet path_leb i u now d = Ok (r, d') -> phase_changes d d'.
Proof.
  unfold applyWorkspacePatchSet. intros Hu Hne E. apply bind_Ok_inv in E as ([] & _ & E). apply bind_Ok_inv in E as ([] & _ & E).
  apply bind_Ok_inv in E as (j & Hl & E). apply lockJob_Ok in Hl as [Hj _].
  apply bind_Ok_inv in E as ([[baseId j1] d1] & Hb & E).
  pose proof (resolve_base_job _ _ _ _ _ _ _ Hj Hb) as [Hj1 _]. apply resolve_base_changes in Hb.
  apply bind_Ok_inv in E as (base & _ & E). apply bind_Ok_inv in E as ([] & _ & E).
  apply bind_Ok_inv in E as ([runId d2] & Hr & E). eapply resolve_run_changes in Hr; try eassumption. cbn zeta in E. steps.
  back. back_job. back. back_job. eapply phase_changes_trans; [eassumption|].
  eapply phase_changes_trans; [eassumption|]. by apply phase_changes_same.
Qed.

Lemma validate_changes v inc dep d r d' : runGenerationValidation v inc dep d = Ok (r, d') -> phase_changes d d'.
Proof. unfold runGenerationValidation. intros E. cbn zeta in E. steps. by apply phase_changes_same. Qed.

Lemma prepare_changes i a d d' : prepareGenerationActivation i a d = Ok d' -> phase_changes d d'.
Proof.
  unfold prepareGenerationActivation. intros E. cbn zeta in E. steps. back.
  match goal with Hx : update_job _ _ _ _ = Ok _ |- _ => apply update_job_Ok in Hx as [(j' & Hj' & _ & Hg & _ & ->)|(Hnone & -> & _)]; [|discriminate] end.
  apply star_one. by eapply ChJob; [exact Hj'|exact Hg|left| |].
Qed.

Lemma switch_changes i a b d r d' : switchGenerationActivation i a b d = Ok (r, d') -> phase_changes d d'.
Proof.
  unfold switchGenerationActivation. intros E. cbn zeta in E. steps.
  back. back_job. back. back. back. back. back. back. apply star_refl.
Qed.

Lemma rollback_changes i a d r d' : rollbackGenerationActivation i a d = Ok (r, d') -> phase_changes d d'.
Proof.
  unfold rollbackGenerationActivation. intros E. cbn zeta in E. steps.
  back. back. back_job. back. back. back. back. apply star_refl.
Qed.

Lemma cleanup_changes id a now d r d' : cleanupGenerationJob id a now d = Ok (r, d') -> phase_changes d d'.
Proof. unfold cleanupGenerationJob. intros E. cbn zeta in E. steps. back_job. by apply phase_changes_same. Qed.

Lemma transition_changes id v n ev a d r d' : transition id v n ev a d = Ok (r, d') -> phase_changes d d'.
Proof.
  unfold transition. intros E. cbn zeta in E. steps. eapply phase_changes_trans; [back_job; apply star_refl|]. by apply phase_changes_same.
Qed.

Lemma gen_step_changes d d' : gen_step path_leb d d' -> phase_changes d d'.
Proof.
  destruct 1; eauto using create_changes, start_changes, complete_changes, patch_changes, validate_changes, prepare_changes,
    switch_changes, rollback_changes, cleanup_changes, transition_changes.
Qed.
Lemma history_changes d d' : star (gen_step path_leb) d d' -> phase_changes d d'.
Proof. induction 1; [apply star_refl|]. eapply phase_changes_trans; [by apply gen_step_changes|done]. Qed.

(** *** Invariants of the phase machine *)

Lemma guard_job_Ok a b :
  guard_job a b = Ok tt ->
  j_version a < j_version b /\ job_terminal (lifecycle a) = false
  /\ (lifecycle a = lifecycle b \/ lifecycle b ∈ job_successors (lifecycle a)).
Proof.
  unfold guard_job. intros E. inv_ok. reflect_bools. repeat split; [done..|].
  match goal with E : _ || _ = true |- _ => apply orb_true_iff in E as [?|?] end; reflect_bools; auto.
Qed.

(** What the changes of one history keep of a job *)
Definition job_evolves (j j' : generation_job) : Prop :=
  j_version j <= j_version j' /\ star (fun s s' => s' ∈ job_successors s) (lifecycle j) (lifecycle j')
  /\ (job_terminal (lifecycle j) = true -> j' = j).
Lemma job_evolves_refl j : job_evolves j j.
Proof. repeat split; [lia|apply star_refl]. Qed.
Lemma job_evolves_trans a b c : job_evolves a b -> job_evolves b c -> job_evolves a c.
Proof.
  intros (V1 & S1 & T1) (V2 & S2 & T2). repeat split; [lia|by eapply star_trans|].
  intros Ht. rewrite (T1 Ht) in *. by apply T2.
Qed.
Lemma guard_job_evolves a b : guard_job a b = Ok tt -> job_evolves a b.
Proof.
  intros (V & Hf & S)%guard_job_Ok. repeat split; [lia| |congruence].
  destruct S as [->|S]; [apply star_refl|by apply star_one].
Qed.
Lemma insert_evolves id j j' (t : gmap string generation_job) k x :
  t !! id = Some j -> job_evolves j j' -> t !! k = Some x -> exists y, <[id := j']> t !! k = Some y /\ job_evolves x y.
Proof.
  intros Hid He Hk. destruct (decide (id = k)) as [<-|Hne].
  - exists j'. rewrite lookup_insert_eq. split; [done|]. congruence.
  - exists x. rewrite lookup_insert_ne by done. split; [done|apply job_evolves_refl].
Qed.
Lemma phase_change_job d d' id j :
  phase_change d d' -> jobs d !! id = Some j -> exists j', jobs d' !! id = Some j' /\ job_evolves j j'.
Proof.
  intros C Hj. destruct C as [[-> _]|id' j' Hf -> _|id' j1 j2 H1 Hg _ -> _|id' k j1 j2 r H1 Hg _ _ _ _ _ _ -> _
    |id' k k' j1 j2 r r' r2 H1 Hg _ _ _ _ _ _ _ _ _ _ -> _|id' k j1 j2 r r' H1 Hg _ _ _ _ _ _ -> _].
  1: by eauto using job_evolves_refl.
  1: exists j; rewrite lookup_insert_ne by congruence; by eauto using job_evolves_refl.
  all: eauto using insert_evolves, guard_job_evolves.
Qed.
Lemma history_job d d' id j :
  phase_changes d d' -> jobs d !! id = Some j -> exists j', jobs d' !! id = Some j' /\ job_evolves j j'.
Proof.
  intros C; revert j; induction C as [d|d1 d2 d3 C _ IH]; intros j Hj; [eauto using job_evolves_refl|].
  destruct (phase_change_job _ _ _ _ C Hj) as (j2 & H2 & E2). destruct (IH _ H2) as (j3 & H3 & E3).
  eauto using job_evolves_trans.
Qed.

(** What the changes of one history keep of a phase run *)
Definition run_evolves (r r' : phase_run) : Prop :=
  r' = r \/ (r_state r = RUNNING /\ run_terminal (r_state r') = true /\ r_job r' = r_job r).
Lemma run_evolves_trans a b c : run_evolves a b -> run_evolves b c -> run_evolves a c.
Proof.
  intros [->|(Ha & Hb & Hj)] [->|(Hb' & Hc & Hj')]; [by left|by right|by right|].
  rewrite Hb' in Hb. discriminate.
Qed.
Lemma phase_change_run d d' k r :
  phase_change d d' -> runs d !! k = Some r -> exists r', runs d' !! k = Some r' /\ run_evolves r r'.
Proof.
  intros C Hr. destruct C as [[_ ->]|id' j' _ _ ->|id' j1 j2 _ _ _ _ ->|id' k1 j1 j2 r1 _ _ Hf _ _ _ _ _ _ ->
    |id' k1 k2 j1 j2 r1 r1' r2 _ _ H1 Hid Hs Hid' Ht Hf _ _ _ _ _ ->|id' k1 j1 j2 r1 r1' _ _ H1 Hid Hs Hid' Ht _ _ ->].
  1,2,3: by exists r; split; [|left].
  - exists r. rewrite lookup_insert_ne by congruence. by split; [|left].
  - destruct (decide (k1 = k)) as [->|Hne].
    + exists r1'. rewrite lookup_insert_ne.
      2: { intros ->. by rewrite lookup_insert_eq in Hf. }
      rewrite lookup_insert_eq. split; [done|]. right. rewrite H1 in Hr. injection Hr as <-. repeat split; congruence.
    + exists r. rewrite lookup_insert_ne.
      2: { intros ->. rewrite lookup_insert_ne in Hf by done. congruence. }
      rewrite lookup_insert_ne by done. by split; [|left].
  - destruct (decide (k1 = k)) as [->|Hne].
    + exists r1'. rewrite lookup_insert_eq. split; [done|]. right. rewrite H1 in Hr. injection Hr as <-. repeat split; congruence.
    + rewrite lookup_insert_ne by done. by exists r; split; [|left].
Qed.
Lemma history_run d d' k r :
  phase_changes d d' -> runs d !! k = Some r -> exists r', runs d' !! k = Some r' /\ run_evolves r r'.
Proof.
  intros C; revert r; induction C as [d|d1 d2 d3 C _ IH]; intros r Hr; [exists r; split; [done|by left]|].
  destruct (phase_change_run _ _ _ _ C Hr) as (r2 & H2 & E2). destruct (IH _ H2) as (r3 & H3 & E3).
  eauto using run_evolves_trans.
Qed.

(** The phase machine: an active run belongs to a job that points to it or has ended, and no job
    has two active runs. *)
Definition run_supported (js : gmap string generation_job) (k : string) (r : phase_run) : Prop :=
  truthy k = true
  /\ (active_state (r_state r) = true ->
      exists j, js !! r_job r = Some j /\ (job_terminal (lifecycle j) = true \/ active_run j = Some k)).
Definition one_active (rs : gmap string phase_run) : Prop :=
  forall k1 k2 r1 r2, rs !! k1 = Some r1 -> rs !! k2 = Some r2 -> r_job r1 = r_job r2 ->
    active_state (r_state r1) = true -> active_state (r_state r2) = true -> k1 = k2.
Record phase_inv (d : gen_db) : Prop := {
  inv_supported : map_Forall (run_supported (jobs d)) (runs d);
  inv_one : one_active (runs d);
}.

Lemma active_terminal s : active_state s = negb (run_terminal s).
Proof. by destruct s. Qed.
(** A job that has not ended points to its only active run. *)
Lemma active_pointer d k r j :
  phase_inv d -> runs d !! k = Some r -> active_state (r_state r) = true -> jobs d !! r_job r = Some j ->
  job_terminal (lifecycle j) = false -> active_run j = Some k /\ truthy k = true.
Proof.
  intros [I _] Hr Ha Hj Ht. destruct (I _ _ Hr) as [Hk S]. destruct (S Ha) as (j' & Hj' & [C|C]); split; congruence.
Qed.
Lemma no_active_lookup id d k r : active_runs id d = [] -> runs d !! k = Some r -> r_job r = id -> active_state (r_state r) = false.
Proof.
  intros Hn Hr Hid. destruct (active_state (r_state r)) eqn:Ha; [|done].
  assert (Hin : In (k, r) (active_runs id d)); [|by rewrite Hn in Hin].
  apply filter_In. split; [by apply list_elem_of_In, elem_of_map_to_list|].
  unfold active_of; cbn. by rewrite Hid, String.eqb_refl, Ha.
Qed.
(** Runs supported by the old jobs stay supported when one job changes. *)
Lemma supported_insert js id j' k r :
  run_supported js k r ->
  (r_job r = id -> active_state (r_state r) = true -> job_terminal (lifecycle j') = true \/ active_run j' = Some k) ->
  run_supported (<[id := j']> js) k r.
Proof.
  intros [Hk S] Hid. split; [done|]. intros Ha. destruct (decide (id = r_job r)) as [E|Hne].
  - exists j'. rewrite E, lookup_insert_eq. auto.
  - rewrite lookup_insert_ne by done. auto.
Qed.
Lemma supported_new js id j' k r :
  truthy k = true -> r_job r = id -> active_run j' = Some k -> run_supported (<[id := j']> js) k r.
Proof. intros Hk <- E. split; [done|]. intros _. exists j'. rewrite lookup_insert_eq. auto. Qed.
Lemma one_active_new rs k r :
  one_active rs -> (forall k0 r0, rs !! k0 = Some r0 -> r_job r0 = r_job r -> active_state (r_state r0) = true -> k0 = k) ->
  one_active (<[k := r]> rs).
Proof.
  intros I Hn k1 k2 r1 r2 H1 H2 E A1 A2.
  apply lookup_insert_Some in H1 as [[<- <-]|[N1 H1]]; apply lookup_insert_Some in H2 as [[<- <-]|[N2 H2]]; [done|..].
  - symmetry. by eapply Hn.
  - by eapply Hn.
  - by eapply I.
Qed.
Lemma one_active_stop rs k r r' : one_active rs -> rs !! k = Some r -> active_state (r_state r') = false -> one_active (<[k := r']> rs).
Proof.
  intros I _ Hs k1 k2 r1 r2 H1 H2 E A1 A2.
  apply lookup_insert_Some in H1 as [[<- <-]|[N1 H1]]; [congruence|].
  apply lookup_insert_Some in H2 as [[<- <-]|[N2 H2]]; [congruence|]. by eapply I.
Qed.

Lemma phase_change_inv d d' : phase_inv d -> phase_change d d' -> phase_inv d'.
Proof.
  intros I C. pose proof I as [IS IO].
  destruct C as [[Ej Er]|id' j' Hf Ej Er|id' j1 j2 H1 Hg Ha Ej Er|id' k1 j1 j2 r1 H1 Hg Hf Hid Hs Hp Hk Hno Ej Er
    |id' k1 k2 j1 j2 r1 r1' r2 H1 Hg Hr1 Hid Hs Hid' Ht Hf Hid2 Hs2 Hp Hk Ej Er|id' k1 j1 j2 r1 r1' H1 Hg Hr1 Hid Hs Hid' Ht Htj Ej Er].
  - split; by rewrite ?Ej, ?Er.
  - split; rewrite ?Ej, ?Er; [|done]. intros k r Hr. destruct (IS _ _ Hr) as [Hk S]. split; [done|].
    intros Hact. destruct (S Hact) as (j & Hj & ?). exists j. rewrite lookup_insert_ne by congruence. done.
  - split; rewrite ?Ej, ?Er; [|done]. intros k r Hr. apply supported_insert; [by apply IS|]. intros Hj Hact.
    apply guard_job_Ok in Hg as (_ & Hnt & _). rewrite <- Hj in H1.
    destruct (active_pointer _ _ _ _ I Hr Hact H1 Hnt) as [Hp _]. destruct Ha as [->|?]; auto.
  - pose proof Hg as (_ & Hnt & _)%guard_job_Ok.
    assert (Hnone : forall k r, runs d !! k = Some r -> r_job r = id' -> active_state (r_state r) = true -> False).
    { intros k r Hr Hrj Hact. rewrite <- Hrj in H1. destruct (active_pointer _ _ _ _ I Hr Hact H1 Hnt) as [Hp' Hk'].
      destruct Hno as [Hno|Hno]; [|rewrite Hp' in Hno; cbn in Hno; by rewrite Hk' in Hno].
      pose proof (no_active_lookup _ _ _ _ Hno Hr Hrj). congruence. }
    split; rewrite ?Ej, ?Er.
    + apply map_Forall_insert_2; [by apply supported_new|]. intros k r Hr. apply supported_insert; [by apply IS|].
      intros Hrj Hact. destruct (Hnone _ _ Hr Hrj Hact).
    + apply one_active_new; [done|]. intros k0 r0 Hr0 E0 A0. rewrite Hid in E0. destruct (Hnone _ _ Hr0 E0 A0).
  - pose proof Hg as (_ & Hnt & _)%guard_job_Ok.
    assert (Hstop : active_state (r_state r1') = false) by (by rewrite active_terminal, Ht).
    assert (Hnone : forall k r, <[k1 := r1']> (runs d) !! k = Some r -> r_job r = id' -> active_state (r_state r) = true -> False).
    { intros k r Hr Hrj Hact. apply lookup_insert_Some in Hr as [[<- <-]|[Hne Hr]]; [congruence|].
      apply Hne. eapply (IO k1 k); eauto; [congruence|by rewrite Hs]. }
    split; rewrite ?Ej, ?Er.
    + apply map_Forall_insert_2; [by apply supported_new|]. intros k r Hr. apply supported_insert.
      * apply lookup_insert_Some in Hr as [[<- <-]|[Hne Hr]]; [|by apply IS].
        split; [exact (proj1 (IS _ _ Hr1))|congruence].
      * intros Hrj Hact. destruct (Hnone _ _ Hr Hrj Hact).
    + apply one_active_new; [by eapply one_active_stop|]. intros k0 r0 Hr0 E0 A0. rewrite Hid2 in E0. destruct (Hnone _ _ Hr0 E0 A0).
  - assert (Hstop : active_state (r_state r1') = false) by (by rewrite active_terminal, Ht).
    split; rewrite ?Ej, ?Er; [|by eapply one_active_stop].
    apply map_Forall_insert_2; [split; [exact (proj1 (IS _ _ Hr1))|congruence]|].
    intros k r Hr. apply supported_insert; [by apply IS|]. auto.
Qed.
Lemma history_inv d d' : phase_inv d -> star (gen_step path_leb) d d' -> phase_inv d'.
Proof. intros I S. eapply star_invariant; [|exact I|by apply history_changes]. intros; by eapply phase_change_inv. Qed.
Lemma empty_inv d : runs d = ∅ -> phase_inv d.
Proof. intros E. split; rewrite E; [apply map_Forall_empty|]. intros ?????. by rewrite lookup_empty in *. Qed.

(** *** Claims about phases *)

(** Single active phase, of this service alone: in every state its own transactions reach from a database without
    phase runs, a generation job has at most one phase run that is queued, running, waiting, repairing or
    being cancelled, and a job that has not ended points to that run.  The commands of [GenerationCommands] do not
    keep this. *)
Theorem single_active_phase d0 d k1 k2 r1 r2 :
  runs d0 = ∅ -> star (gen_step path_leb) d0 d ->
  runs d !! k1 = Some r1 -> runs d !! k2 = Some r2 -> r_job r1 = r_job r2 ->
  active_state (r_state r1) = true -> active_state (r_state r2) = true ->
  k1 = k2 /\ exists j, jobs d !! r_job r1 = Some j /\ (job_terminal (lifecycle j) = false -> active_run j = Some k1).
Proof.
  intros H0 S Hr1 Hr2 Hj A1 A2. pose proof (history_inv _ _ (empty_inv _ H0) S) as [IS IO].
  split; [by eapply IO|]. destruct (IS _ _ Hr1) as [_ Sup]. destruct (Sup A1) as (j & Hjob & C).
  exists j. split; [done|]. intros Ht. destruct C; congruence.
Qed.

(** Job lifecycles are guarded.  Whatever transactions run in whatever order, with whatever
    arguments, a generation job is never deleted, its version never decreases, its lifecycle moves only
    along the edges of the state machine, and a job that has completed, failed or was cancelled keeps
    every column for ever. *)
Theorem lifecycle_guarded d d' id j :
  star (gen_step path_leb) d d' -> jobs d !! id = Some j ->
  exists j', jobs d' !! id = Some j'
    /\ j_version j <= j_version j'
    /\ star (fun s s' => s' ∈ job_successors s) (lifecycle j) (lifecycle j')
    /\ (job_terminal (lifecycle j) = true -> j' = j).
Proof. intros S Hj. destruct (history_job _ _ _ _ (history_changes _ _ S) Hj) as (j' & ? & E). by exists j'. Qed.

Lemma switch_completes i a b d e d' :
  switchGenerationActivation i a b d = Ok (e, d') -> exists j, jobs d' !! sw_job i = Some j /\ lifecycle j = COMPLETED.
Proof.
  unfold switchGenerationActivation. intros E. cbn zeta in E. steps.
  match goal with Hx : event _ _ _ _ _ = Ok _ |- _ => apply event_same in Hx as [Ej _]; rewrite Ej end.
  match goal with Hx : update_job _ _ _ _ = Ok _ |- _ => apply update_job_Ok in Hx as [(j & Hj & _ & _ & _ & ->)|(_ & -> & _)]; [|discriminate] end.
  eexists. cbn. by rewrite lookup_insert_eq.
Qed.
(** [{ rollback }] of a job that has ended *)
Lemma rollback_terminal i a d j :
  jobs d !! rb_job i = Some j -> job_terminal (lifecycle j) = true -> is_Ok (rollbackGenerationActivation i a d) = false.
Proof.
  intros Hj Ht. destruct (rollbackGenerationActivation i a d) as [[r d']|] eqn:E; [|done]. exfalso.
  unfold rollbackGenerationActivation in E. cbn zeta in E. steps.
  repeat match goal with Hx : update_set _ _ _ _ = Ok _ |- _ => apply update_set_same in Hx as [?Ej _] end.
  match goal with Hx : update_job _ _ _ _ = Ok _ |- _ => apply update_job_Ok in Hx as [(j' & Hj' & Hp & _)|(_ & -> & _)]; [|discriminate] end.
  assert (j' = j) as ->; [|by rewrite Ht in Hp].
  enough (Some j' = Some j) by congruence. rewrite <- Hj', <- Hj.
  etrans; [apply (f_equal (lookup (rb_job i))); eassumption|].
  etrans; [apply (f_equal (lookup (rb_job i))); eassumption|].
  match goal with |- context [move_head ?e ?s ?x ?d1] => destruct (move_head_same e s x d1) as [-> _] end. congruence.
Qed.

(** A switched activation cannot be rolled back.  The switch completes its job, and the job row is
    immutable from then on; so the rollback of that job is refused in every state that follows, for every
    activation set, reason and lineage, although the code accepts an activation set that is ACTIVE and the
    current one. *)
Theorem rollback_after_switch_refused i a b d e d1 d2 i' a' :
  switchGenerationActivation i a b d = Ok (e, d1) -> star (gen_step path_leb) d1 d2 -> rb_job i' = sw_job i ->
  is_Ok (rollbackGenerationActivation i' a' d2) = false.
Proof.
  intros (j & Hj & Hc)%switch_completes S E.
  destruct (history_job _ _ _ _ (history_changes _ _ S) Hj) as (j' & Hj' & _ & _ & Ht).
  rewrite Ht in Hj' by (by rewrite Hc). apply (rollback_terminal _ _ _ j); [by rewrite E|by rewrite Hc].
Qed.

(** A completion is accepted from the one worker that holds the running run. *)
Lemma complete_Ok i a b now d o d' :
  completeGenerationPhase i a b now d = Ok (o, d') ->
  exists r, runs d !! co_run i = Some r /\ r_state r = RUNNING /\ r_owner r = Some (co_worker i) /\ r_fence r = Some (co_token i)
    /\ (forall k, o = Some k -> k = b /\ exists q, runs d' !! k = Some q /\ r_state q = QUEUED /\ r_job q = r_job r)
    /\ exists r', runs d' !! co_run i = Some r' /\ run_terminal (r_state r') = true.
Proof.
  unfold completeGenerationPhase. intros E. apply bind_Ok_inv in E as (r & Hr & E). apply or_throw_Ok in Hr. steps.
  match goal with Hu : update_run _ _ _ _ = Ok _ |- _ => apply update_run_Ok in Hu as [(r1 & Hr1 & Hp & _ & _ & ->)|(_ & -> & _)]; [|discriminate] end.
  match goal with Hc : checkpoint _ _ _ _ _ _ _ d = Ok _ |- _ => pose proof (checkpoint_same _ _ _ _ _ _ _ _ _ Hc) as [_ Hcr] end.
  rewrite Hcr, Hr in Hr1. injection Hr1 as <-. reflect_bools.
  exists r. repeat (split; [done|]). pose proof (close_guard (co_outcome i)) as Hclose.
  destruct (co_outcome i) eqn:Ho.
  2,3: steps; match goal with Hu : update_job _ _ _ _ = Ok _ |- _ => apply update_job_Ok in Hu as [(j' & _ & _ & _ & _ & ->)|(_ & -> & _)]; [|discriminate] end;
    match goal with Hx : event _ _ _ _ _ = Ok _ |- _ => apply event_same in Hx as [_ Er]; rewrite Er end;
    split; [done|]; eexists; cbn; rewrite lookup_insert_eq; by split.
  apply bind_Ok_inv in E as (d2 & Hins & E). steps.
  match goal with Hu : update_job _ _ _ _ = Ok _ |- _ => apply update_job_Ok in Hu as [(j' & _ & _ & _ & _ & ->)|(_ & -> & _)]; [|discriminate] end.
  match goal with Hx : event _ _ _ _ _ = Ok _ |- _ => apply event_same in Hx as [_ Er]; rewrite Er end. cbn.
  destruct (match co_next i with Some p => _ | None => _ end) as [p|].
  - apply insert_run_Ok in Hins as [Hfresh ->]. cbn in Hfresh. cbn. split.
    + intros k [= <-]. split; [done|]. rewrite lookup_insert_eq. by eexists.
    + rewrite lookup_insert_ne by (intros ->; by rewrite lookup_insert_eq in Hfresh). rewrite lookup_insert_eq. by eexists.
  - injection Hins as <-. cbn. split; [done|]. rewrite lookup_insert_eq. by eexists.
Qed.
Lemma complete_refused i a b now d r :
  runs d !! co_run i = Some r -> r_state r <> RUNNING -> is_Ok (completeGenerationPhase i a b now d) = false.
Proof.
  intros Hr Hs. destruct (completeGenerationPhase i a b now d) as [[o d']|] eqn:E; [|done].
  apply complete_Ok in E as (r' & Hr' & Hs' & _). congruence.
Qed.

(** Completions are fenced.  A completion is accepted only from the worker that owns the run, while
    the run is RUNNING and with exactly the fencing token of the run; and it is accepted at most once: in
    every later state a completion of the same run, by any worker with any token, is refused. *)
Theorem completion_fenced i a b now d o d1 d2 i' a' b' now' :
  completeGenerationPhase i a b now d = Ok (o, d1) ->
  (exists r, runs d !! co_run i = Some r /\ r_state r = RUNNING /\ r_owner r = Some (co_worker i) /\ r_fence r = Some (co_token i))
  /\ (star (gen_step path_leb) d1 d2 -> co_run i' = co_run i -> is_Ok (completeGenerationPhase i' a' b' now' d2) = false).
Proof.
  intros (r & Hr & Hs & Ho & Hf & _ & r1 & Hr1 & Ht)%complete_Ok. split; [eauto|]. intros S E.
  destruct (history_run _ _ _ _ (history_changes _ _ S) Hr1) as (r2 & Hr2 & Ev). rewrite <- E in Hr2.
  eapply complete_refused; [exact Hr2|]. intros Hrun.
  destruct Ev as [->|(Hs1 & Ht2 & _)]; [rewrite Hrun in Ht|rewrite Hs1 in Ht]; discriminate.
Qed.

(** The only active run of a job *)
Lemma active_runs_unique d k r : phase_inv d -> runs d !! k = Some r -> active_state (r_state r) = true -> active_runs (r_job r) d = [(k, r)].
Proof.
  intros [_ IO] Hr Ha.
  assert (Hin : (k, r) ∈ active_runs (r_job r) d).
  { apply list_elem_of_In, filter_In. split; [by apply list_elem_of_In, elem_of_map_to_list|].
    unfold active_of; cbn. by rewrite String.eqb_refl, Ha. }
  assert (Hall : forall x, x ∈ active_runs (r_job r) d -> x = (k, r)).
  { intros [k' r'] Hx. apply list_elem_of_In, filter_In in Hx as [Hx Hp]. apply list_elem_of_In, elem_of_map_to_list in Hx.
    unfold active_of in Hp; cbn in Hp. reflect_bools. assert (k' = k) as -> by (by eapply IO). congruence. }
  assert (Hnd : NoDup (active_runs (r_job r) d)) by (apply NoDup_ListNoDup, List.NoDup_filter, NoDup_ListNoDup, NoDup_map_to_list).
  destruct (active_runs (r_job r) d) as [|x l]; [by apply elem_of_nil in Hin|].
  rewrite (Hall x) in * by constructor. f_equal. destruct l as [|y l]; [done|].
  rewrite (Hall y) in Hnd by (right; constructor). apply NoDup_cons in Hnd as [Hnd _]. destruct Hnd. constructor.
Qed.

(** A queued successor never runs.  The phase run a successful completion enqueues is not moved to
    RUNNING by any of the transactions: in every later state it is QUEUED with its columns unchanged, nobody can
    complete it, and a start of a phase of its job hands out this queued run and changes nothing. *)
Theorem queued_successor_stuck d0 d i a b now k d1 d2 :
  runs d0 = ∅ -> star (gen_step path_leb) d0 d -> truthy b = true ->
  completeGenerationPhase i a b now d = Ok (Some k, d1) -> star (gen_step path_leb) d1 d2 ->
  exists q, r_state q = QUEUED /\ runs d1 !! k = Some q /\ runs d2 !! k = Some q
    /\ (forall i' a' b' now', co_run i' = k -> is_Ok (completeGenerationPhase i' a' b' now' d2) = false)
    /\ (forall s c u t r d3, si_job s = r_job q -> startGenerationPhase s c u t d2 = Ok (r, d3) -> r = k /\ d3 = d2).
Proof.
  intros H0 S0 Hb E S. pose proof (StepComplete path_leb _ i a b now _ _ Hb E) as Hstep.
  apply complete_Ok in E as (r & _ & _ & _ & _ & Hq & _). destruct (Hq k eq_refl) as (-> & q & Hq1 & Hs & Hj).
  assert (Hq2 : runs d2 !! b = Some q).
  { destruct (history_run _ _ _ _ (history_changes _ _ S) Hq1) as (q' & Hq2 & [->|(Hr & _)]); [done|congruence]. }
  assert (I : phase_inv d2) by (eapply history_inv; [by apply (empty_inv d0)|]; eauto using star_trans, star_one).
  exists q. repeat (split; [done|]). split.
  - intros i' a' b' now' Ei. eapply complete_refused; [by rewrite Ei|congruence].
  - intros s c u t r' d3 Es. unfold startGenerationPhase. intros E. steps.
    rewrite Es, (active_runs_unique _ _ _ I Hq2) in E by (by rewrite Hs). by injection E.
Qed.

(** *** Workspace revisions *)

(** The tree of a revision, by path *)
Definition file_tree (rows : list workspace_file) : gmap string workspace_file := list_to_map (map (fun f => (wf_path f, f)) rows).
(** An operation on a tree: it applies where the present content has the expected digest. *)
Definition spec_operation (m : gmap string workspace_file) (o : WorkspaceOperation) : option (gmap string workspace_file) :=
  if bool_decide ((fun f => digest_text (wf_digest f)) <$> m !! wo_path o = wo_expected o) then
    if String.eqb (wo_op o) "DELETE" then Some (delete (wo_path o) m)
    else c ← wo_content o; Some (<[wo_path o := new_file o c]> m)
  else None.
Fixpoint spec_patch (m : gmap string workspace_file) (os : list WorkspaceOperation) : option (gmap string workspace_file) :=
  match os with [] => Some m | o :: os => m ← spec_operation m o; spec_patch m os end.

(** A [Map] of files that represents a tree *)
Record represents (fs : list (string * workspace_file)) (m : gmap string workspace_file) : Prop := {
  rep_keys : Forall (fun kf => fst kf = wf_path (snd kf)) fs;
  rep_unique : NoDup (map fst fs);
  rep_get k : get_prop k fs = m !! k;
}.
Lemma define_NoDup {A} k (v : A) l : NoDup (map fst l) -> NoDup (map fst (define_prop k v l)).
Proof.
  induction l as [|[k1 v1] l IH]; cbn; intros Hn; [by apply NoDup_singleton|].
  apply NoDup_cons in Hn as [Hk Hn]. destruct (String.eqb_spec k k1) as [->|?]; cbn; [by constructor|].
  constructor; [|by apply IH]. rewrite define_keys. by intros [?|?].
Qed.
Lemma define_Forall {A} (P : string * A -> Prop) k v l : Forall P l -> P (k, v) -> (forall k' w, P (k', w) -> k = k' -> P (k', v)) -> Forall P (define_prop k v l).
Proof.
  induction l as [|[k1 v1] l IH]; cbn; intros Hl Hv Hr; [by repeat constructor|].
  apply Forall_cons in Hl as [? ?]. destruct (String.eqb_spec k k1) as [->|?]; constructor; eauto.
Qed.
Lemma represents_define fs m f : represents fs m -> represents (define_prop (wf_path f) f fs) (<[wf_path f := f]> m).
Proof.
  intros [K U G]. split.
  - apply define_Forall; [done..|]. cbn. congruence.
  - by apply define_NoDup.
  - intros k. rewrite get_define, G. destruct (String.eqb_spec k (wf_path f)) as [->|?]; [by rewrite lookup_insert_eq|by rewrite lookup_insert_ne].
Qed.
Lemma get_prop_not_in {A} k (l : list (string * A)) : k ∉ map fst l -> get_prop k l = None.
Proof.
  induction l as [|[k1 v1] l IH]; cbn; [done|]. rewrite not_elem_of_cons. intros [? ?].
  destruct (String.eqb_spec k k1); [done|auto].
Qed.
Lemma get_prop_filter {A} k k' (l : list (string * A)) :
  get_prop k (List.filter (fun kf => negb (String.eqb (fst kf) k')) l) = if String.eqb k k' then None else get_prop k l.
Proof.
  induction l as [|[k1 v1] l IH]; cbn; [by destruct (String.eqb k k')|].
  destruct (String.eqb_spec k1 k') as [->|?]; cbn; rewrite IH.
  - by destruct (String.eqb k k') eqn:?.
  - destruct (String.eqb_spec k k1) as [->|?]; [|done]. by destruct (String.eqb_spec k1 k').
Qed.
Lemma map_fst_filter {A} (p : string -> bool) (l : list (string * A)) :
  map fst (List.filter (fun kf => p (fst kf)) l) = List.filter p (map fst l).
Proof. symmetry. by apply filter_map_swap. Qed.
Lemma represents_delete fs m k :
  represents fs m -> represents (List.filter (fun kf => negb (String.eqb (fst kf) k)) fs) (delete k m).
Proof.
  intros [K U G]. split.
  - apply List.Forall_forall. intros x [Hx _]%filter_In. by eapply List.Forall_forall in K.
  - rewrite (map_fst_filter (fun x => negb (String.eqb x k))). by apply NoDup_ListNoDup, List.NoDup_filter, NoDup_ListNoDup.
  - intros k'. rewrite get_prop_filter, G. destruct (String.eqb_spec k' k) as [->|?]; [by rewrite lookup_delete_eq|by rewrite lookup_delete_ne].
Qed.
Lemma represents_operation fs m o fs' :
  represents fs m -> apply_operation fs o = Ok fs' -> exists m', spec_operation m o = Some m' /\ represents fs' m'.
Proof.
  unfold apply_operation, spec_operation. intros R E. apply bind_Ok_inv in E as ([] & Hd & E). apply throw_if_Ok in Hd.
  rewrite (rep_get _ _ R) in Hd. apply negb_false_iff in Hd. rewrite Hd. destruct (String.eqb (wo_op o) "DELETE").
  - injection E as <-. eexists; split; [done|]. by apply represents_delete.
  - apply bind_Ok_inv in E as (c & Hc & E). apply or_throw_Ok in Hc. injection E as <-. rewrite Hc. eexists; split; [done|].
    by apply (represents_define _ _ (new_file o c)).
Qed.
Lemma represents_patch os : forall fs m fs',
  represents fs m -> fold_result apply_operation fs os = Ok fs' -> exists m', spec_patch m os = Some m' /\ represents fs' m'.
Proof.
  induction os as [|o os IH]; cbn; intros fs m fs' R E; [injection E as <-; eauto|].
  apply bind_Ok_inv in E as (f1 & E1 & E). destruct (represents_operation _ _ _ _ R E1) as (m1 & -> & R1). cbn. eauto.
Qed.
Lemma represents_tree fs m : represents fs m -> file_tree (map snd fs) = m /\ NoDup (map wf_path (map snd fs)).
Proof.
  intros [K U G]. assert (Ek : map wf_path (map snd fs) = map fst fs).
  { clear U G. induction K as [|[k f] fs E K IH]; cbn in *; [done|]. by rewrite IH, E. }
  rewrite Ek. split; [|done]. apply map_eq. intros k. rewrite <- G. clear G m. unfold file_tree.
  induction K as [|[k1 f] fs E K IH]; cbn in *; [apply lookup_empty|]. subst k1.
  apply NoDup_cons in U as [_ U]. injection Ek as Ek. destruct (String.eqb_spec k (wf_path f)) as [->|?].
  - by rewrite lookup_insert_eq.
  - rewrite lookup_insert_ne by done. by apply IH.
Qed.
Lemma represents_nil : represents [] ∅.
Proof. split; cbn; [constructor..|]. intros k. by rewrite lookup_empty. Qed.
Lemma fold_represents rows : forall fs m,
  represents fs m -> represents (fold_left (fun fs f => define_prop (wf_path f) f fs) rows fs) (fold_left (fun m f => <[wf_path f := f]> m) rows m).
Proof. induction rows as [|f rows IH]; cbn; intros fs m R; [done|]. by apply IH, represents_define. Qed.
Lemma fold_insert_tree rows : forall m : gmap string workspace_file,
  NoDup (map wf_path rows) -> fold_left (fun m f => <[wf_path f := f]> m) rows m = file_tree rows ∪ m.
Proof.
  induction rows as [|f rows IH]; cbn; intros m Hn; [by rewrite (left_id ∅ union m)|].
  apply NoDup_cons in Hn as [Hf Hn]. rewrite IH by done. unfold file_tree; cbn.
  rewrite <- insert_union_r, <- insert_union_l; [done|]. apply not_elem_of_list_to_map.
  by rewrite <- list_fmap_compose.
Qed.
Lemma base_represents rows : NoDup (map wf_path rows) -> represents (base_files path_leb rows) (file_tree rows).
Proof.
  intros Hn. set (sorted := stable_sort (fun a b => path_leb (wf_path a) (wf_path b)) rows).
  assert (Hp : sorted ≡ₚ rows) by apply stable_sort_perm.
  assert (Hs : NoDup (map wf_path sorted)) by (by rewrite Hp).
  assert (file_tree rows = file_tree sorted ∪ ∅) as ->.
  { rewrite (right_id ∅ union). unfold file_tree. apply list_to_map_proper; [by rewrite <- list_fmap_compose|by rewrite Hp]. }
  rewrite <- fold_insert_tree by done. apply fold_represents, represents_nil.
Qed.

(** The tables of the workspace *)
Definition workspace (d : gen_db) : gmap string (list workspace_file) * gmap string revision_row := (files d, revisions d).
Lemma checkpoint_workspace id jobId phase kind payload run succ d d' :
  checkpoint id jobId phase kind payload run succ d = Ok d' -> workspace d' = workspace d.
Proof. unfold checkpoint. intros E. apply bind_Ok_inv in E as ([n al] & _ & E). inv_ok. by subst. Qed.
Lemma event_workspace jobId t payload run d d' : event jobId t payload run d = Ok d' -> workspace d' = workspace d.
Proof. unfold event. intros E. apply bind_Ok_inv in E as ([n al] & _ & E). inv_ok. by subst. Qed.
Lemma update_set_workspace id p f d o d' : update_set id p f d = Ok (o, d') -> workspace d' = workspace d.
Proof. unfold update_set. intros E. apply bind_Ok_inv in E as ([r t] & _ & E). by injection E as <- <-. Qed.
Lemma update_job_workspace id p f d o d' : update_job id p f d = Ok (o, d') -> workspace d' = workspace d.
Proof. unfold update_job. intros E. apply bind_Ok_inv in E as ([r t] & _ & E). by injection E as <- <-. Qed.
Lemma update_run_workspace id p f d o d' : update_run id p f d = Ok (o, d') -> workspace d' = workspace d.
Proof. unfold update_run. intros E. apply bind_Ok_inv in E as ([r t] & _ & E). by injection E as <- <-. Qed.
Lemma insert_run_workspace id r d d' : insert_run id r d = Ok d' -> workspace d' = workspace d.
Proof. unfold insert_run. intros E. inv_ok. by subst. Qed.
Lemma move_head_workspace e s x d : workspace (move_head e s x d) = workspace d.
Proof. unfold move_head. by destruct (head d) as [h|]; [destruct (_ =? _)|]. Qed.
(** [same_workspace]: the operation leaves the workspace as it was. *)
Ltac same_workspace :=
  intros E; cbn zeta in E; steps;
  repeat match goal with
  | H : checkpoint _ _ _ _ _ _ _ _ = Ok _ |- _ => apply checkpoint_workspace in H
  | H : event _ _ _ _ _ = Ok _ |- _ => apply event_workspace in H
  | H : update_set _ _ _ _ = Ok _ |- _ => apply update_set_workspace in H
  | H : update_job _ _ _ _ = Ok _ |- _ => apply update_job_workspace in H
  | H : update_run _ _ _ _ = Ok _ |- _ => apply update_run_workspace in H
  | H : insert_run _ _ _ = Ok _ |- _ => apply insert_run_workspace in H
  | H : context [workspace (move_head _ _ _ _)] |- _ => rewrite move_head_workspace in H
  end;
  repeat match goal with H : workspace _ = workspace _ |- _ => unfold workspace in H; cbn in H; injection H as ? ? end;
  unfold workspace; cbn; congruence.

Lemma start_workspace i a b now d r d' : startGenerationPhase i a b now d = Ok (r, d') -> workspace d' = workspace d.
Proof. unfold startGenerationPhase. intros E. steps. destruct (active_runs _ _) as [|[? ?] ?]; [revert E; same_workspace|by injection E as <- <-]. Qed.
Lemma complete_workspace i a b now d r d' : completeGenerationPhase i a b now d = Ok (r, d') -> workspace d' = workspace d.
Proof.
  unfold completeGenerationPhase. intros E. steps. destruct (co_outcome i); [|revert E; same_workspace..].
  apply bind_Ok_inv in E as (d2 & Hins & E).
  destruct (match co_next i with Some p => _ | None => _ end); [apply insert_run_workspace in Hins|injection Hins as <-]; revert E; same_workspace.
Qed.
Lemma validate_workspace v inc dep d r d' : runGenerationValidation v inc dep d = Ok (r, d') -> workspace d' = workspace d.
Proof. unfold runGenerationValidation. same_workspace. Qed.
Lemma prepare_workspace i a d d' : prepareGenerationActivation i a d = Ok d' -> workspace d' = workspace d.
Proof. unfold prepareGenerationActivation. same_workspace. Qed.
Lemma switch_workspace i a b d r d' : switchGenerationActivation i a b d = Ok (r, d') -> workspace d' = workspace d.
Proof. unfold switchGenerationActivation. same_workspace. Qed.
Lemma rollback_workspace i a d r d' : rollbackGenerationActivation i a d = Ok (r, d') -> workspace d' = workspace d.
Proof. unfold rollbackGenerationActivation. same_workspace. Qed.
Lemma cleanup_workspace id a now d r d' : cleanupGenerationJob id a now d = Ok (r, d') -> workspace d' = workspace d.
Proof. unfold cleanupGenerationJob. same_workspace. Qed.
Lemma transition_workspace id v n ev a d r d' : transition id v n ev a d = Ok (r, d') -> workspace d' = workspace d.
Proof. unfold transition. same_workspace. Qed.
Lemma create_workspace i a b c now d j d' :
  createGenerationJob i a b c now d = Ok (j, d') -> files d' = files d /\ exists r, revisions d !! c = None /\ revisions d' = <[c := r]> (revisions d).
Proof.
  unfold createGenerationJob. intros E. steps.
  match goal with Hi : insert_row c _ _ = Ok _ |- _ => apply insert_row_Ok in Hi as [Hn ->] end.
  match goal with Hu : update_job _ _ _ _ = Ok _ |- _ => apply update_job_workspace in Hu; injection Hu as -> -> end. cbn. eauto.
Qed.

(** Every stored tree belongs to a revision and holds a path once. *)
Definition workspace_inv (w : gmap string (list workspace_file) * gmap string revision_row) : Prop :=
  map_Forall (fun k rows => NoDup (map wf_path rows) /\ is_Some (w.2 !! k)) w.1.
Lemma workspace_inv_fresh f (rs : gmap string revision_row) k : workspace_inv (f, rs) -> rs !! k = None -> f !! k = None.
Proof. intros I Hk. destruct (f !! k) as [rows|] eqn:Hf; [|done]. destruct (I _ _ Hf) as [_ [x Hx]]. cbn in Hx. congruence. Qed.
Lemma workspace_inv_revision f rs k (r : revision_row) : workspace_inv (f, rs) -> workspace_inv (f, <[k := r]> rs).
Proof.
  intros I k' rows Hf. destruct (I _ _ Hf) as [? Hs]. split; [done|]. cbn in *.
  destruct (decide (k = k')) as [<-|?]; [rewrite lookup_insert_eq; eauto|by rewrite lookup_insert_ne].
Qed.
Lemma workspace_inv_store f rs k rows (r : revision_row) :
  workspace_inv (f, rs) -> NoDup (map wf_path rows) -> workspace_inv (<[k := rows]> f, <[k := r]> rs).
Proof.
  intros I Hn. apply map_Forall_insert_2; [split; [done|]; cbn; rewrite lookup_insert_eq; eauto|].
  intros k' rows' Hf. exact (workspace_inv_revision _ _ k r I _ _ Hf).
Qed.

(** The base of a patch: the pointer of the job is the base, or was absent. *)
Lemma resolve_base_spec i j u d b j' d' :
  resolve_base i j u d = Ok (b, j', d') ->
  files d' = files d
  /\ (workspace_inv (workspace d) -> workspace_inv (workspace d'))
  /\ (forall e, pi_expected_revision i = Some e -> truthy e = true -> b = e)
  /\ (forall x, jobs d' !! pi_job i = Some x ->
        exists y, jobs d !! pi_job i = Some y /\ (workspace_revision x = workspace_revision y \/ workspace_revision y = None)).
Proof.
  unfold resolve_base. destruct (truthy_id _) as [x|] eqn:Ht.
  { intros [= <- _ <-]. split; [done|]. split; [done|]. split; [|eauto]. intros e He Hte. rewrite He in Ht. cbn in Ht. rewrite Hte in Ht. congruence. }
  destruct (bool_decide _); [|discriminate]. intros E. apply bind_Ok_inv in E as (rs & Hrs & E).
  apply bind_Ok_inv in E as ([o d1] & Hu & E). injection E as <- <- <-.
  apply insert_row_Ok in Hrs as [_ ->]. pose proof (update_job_workspace _ _ _ _ _ _ Hu) as Hw. injection Hw as Hf Hr.
  split; [done|]. split; [|split].
  - unfold workspace. rewrite Hf, Hr. apply workspace_inv_revision.
  - intros e He Hte. rewrite He in Ht. cbn in Ht. by rewrite Hte in Ht.
  - apply update_job_Ok in Hu as [(y & Hy & Hp & _ & _ & ->)|(_ & _ & ->)]; cbn in *; [|eauto].
    intros x Hx. reflect_bools. eauto.
Qed.
Lemma resolve_run_spec i j a b now d r d' :
  resolve_run i j a b now d = Ok (r, d') ->
  workspace d' = workspace d /\ (forall id x, jobs d' !! id = Some x -> exists y, jobs d !! id = Some y /\ workspace_revision x = workspace_revision y).
Proof.
  unfold resolve_run. destruct (truthy_id _); [intros [= _ <-]; eauto|]. intros E. steps.
  match goal with Hi : insert_run _ _ _ = Ok _ |- _ => apply insert_run_Ok in Hi as [_ ->] end.
  match goal with Hu : update_job _ _ _ _ = Ok _ |- _ => split; [by apply update_job_workspace in Hu|];
    apply update_job_Ok in Hu as [(y & Hy & _ & _ & _ & ->)|(_ & _ & ->)]; cbn in *; [|eauto] end.
  intros id x Hx. apply lookup_insert_Some in Hx as [[<- <-]|[? Hx]]; eauto.
Qed.

(** What a patch does to the workspace *)
Record patched (i : patch_input) (u : patch_ids) (r : patch_result) (d d' : gen_db) : Prop := {
  pd_base : exists baseId b m rows,
    revisions d' !! baseId = Some b /\ rv_job b = pi_job i /\ baseId <> id_revision u
    /\ (forall e, pi_expected_revision i = Some e -> truthy e = true -> baseId = e)
    /\ (forall n, pi_expected_number i = Some n -> rv_number b = n)
    /\ (exists j, jobs d !! pi_job i = Some j /\ (workspace_revision j = Some baseId \/ workspace_revision j = None))
    /\ spec_patch (file_tree (default [] (files d !! baseId))) (pi_operations i) = Some m
    /\ files d' = <[id_revision u := rows]> (files d) /\ files d !! id_revision u = None
    /\ file_tree rows = m /\ pr_files r = length rows
    /\ revisions d' !! id_revision u = Some {| rv_job := pi_job i; rv_number := rv_number b + 1; rv_parent := Some baseId; rv_tree := pr_tree r |};
  pd_pointer : exists j, jobs d' !! pi_job i = Some j /\ workspace_revision j = Some (id_revision u);
  pd_inv : workspace_inv (workspace d');
}.
Lemma patch_patched i u now d r d' :
  workspace_inv (workspace d) -> applyWorkspacePatchSet path_leb i u now d = Ok (r, d') -> patched i u r d d'.
Proof.
  intros I. unfold applyWorkspacePatchSet. intros E. apply bind_Ok_inv in E as ([] & _ & E). apply bind_Ok_inv in E as ([] & _ & E).
  apply bind_Ok_inv in E as (j & _ & E). apply bind_Ok_inv in E as ([[baseId j1] d1] & Hb & E).
  apply resolve_base_spec in Hb as (Hf1 & I1 & Hexp & Hj1).
  apply bind_Ok_inv in E as (base & Hbase & E). apply or_throw_Ok in Hbase.
  apply bind_Ok_inv in E as ([] & Hnum & E). apply throw_if_Ok in Hnum.
  apply bind_Ok_inv in E as ([runId d2] & Hr & E). apply resolve_run_spec in Hr as ([= Hf2 Hr2] & Hj2).
  apply bind_Ok_inv in E as ([] & _ & E). apply bind_Ok_inv in E as (fs & Hfs & E). cbn zeta in E.
  apply bind_Ok_inv in E as (pt & _ & E). apply bind_Ok_inv in E as (rs & Hrs & E). apply insert_row_Ok in Hrs as [Hfresh ->].
  apply bind_Ok_inv in E as ([o pt'] & _ & E). steps.
  pose proof (I1 I) as I2. rewrite Hr2 in Hfresh.
  assert (Hnone : files d !! id_revision u = None).
  { rewrite <- Hf1. by eapply workspace_inv_fresh. }
  assert (Hbase' : revisions d1 !! baseId = Some base /\ rv_job base = pi_job i).
  { destruct (revisions d1 !! baseId) as [x|]; [|done]. destruct (String.eqb_spec (rv_job x) (pi_job i)); [|done]. by injection Hbase as ->. }
  destruct Hbase' as [Hbr Hbj]. rewrite Hf2, Hf1 in *.
  assert (R : represents (base_files path_leb (default [] (files d !! baseId))) (file_tree (default [] (files d !! baseId)))).
  { apply base_represents. destruct (files d !! baseId) as [rows|] eqn:Hrows; [|constructor].
    exact (proj1 (I _ _ Hrows)). }
  destruct (represents_patch _ _ _ _ R Hfs) as (m & Hm & R'). destruct (represents_tree _ _ R') as [Ht Hn].
  repeat match goal with
  | H : checkpoint _ _ _ _ _ _ _ _ = Ok _ |- _ => pose proof (checkpoint_workspace _ _ _ _ _ _ _ _ _ H); apply checkpoint_same in H as [? _]
  | H : event _ _ _ _ _ = Ok _ |- _ => pose proof (event_workspace _ _ _ _ _ _ H); apply event_same in H as [? _]
  | H : update_job _ _ _ _ = Ok _ |- _ => pose proof (update_job_workspace _ _ _ _ _ _ H); apply update_job_Ok in H
  end.
  destruct Hok as [(j3 & Hj3 & Hp & _ & -> & Edb)|(_ & -> & _)]; [|discriminate]. cbn in Hj3. reflect_bools.
  assert (Hw : workspace a1 = (<[id_revision u := map snd fs]> (files d),
      <[id_revision u := {| rv_job := pi_job i; rv_number := rv_number base + 1; rv_parent := Some baseId; rv_tree := tree_digest (written_paths (pi_operations i)) fs |}]> (revisions d1))).
  { rewrite H2, H4, H0, H5. unfold workspace; cbn. by rewrite Hnone, Hr2. }
  assert (Hne : baseId <> id_revision u) by congruence.
  injection Hw as Hwf Hwr. split.
  - exists baseId, base, m, (map snd fs). rewrite Hwf, Hwr, lookup_insert_ne, lookup_insert_eq by done. repeat (split; [done|]).
    split. { intros n Hn'. rewrite Hn' in Hnum. by reflect_bools. }
    split. { destruct (Hj2 _ _ Hj3) as (y & Hy & Ey). destruct (Hj1 _ Hy) as (z & Hz & Ez). exists z. split; [done|].
             rewrite <- Ey, Hp in Ez. destruct Ez; auto. }
    repeat (split; [done|]). by rewrite length_map.
  - assert (Hdb : jobs a0 !! pi_job i = Some (job_workspace (id_revision u) None j3)) by (rewrite H1, Edb; cbn; by rewrite lookup_insert_eq).
    rewrite H3. destruct Hok2 as [(j4 & Hj4 & _ & _ & _ & ->)|(_ & _ & ->)]; [|by eexists].
    cbn. rewrite lookup_insert_eq. eexists; split; [done|]. rewrite Hdb in Hj4. by injection Hj4 as <-.
  - unfold workspace. rewrite Hwf, Hwr. apply workspace_inv_store; [|done]. by rewrite <- Hf1.
Qed.

Lemma gen_step_workspace d d' : gen_step path_leb d d' -> workspace_inv (workspace d) -> workspace_inv (workspace d').
Proof.
  destruct 1 as [i a b c now j d' E|i a b now r d' _ E|i a b now r d' _ E|i u now r d' _ _ E|v inc dep r d' E|i a d' E|i a b e d' E|i a r d' E
    |id a now r d' E|id v n ev a r d' E]; intros I.
  1: { destruct (create_workspace _ _ _ _ _ _ _ _ E) as (Hf & r & _ & Hr). unfold workspace. rewrite Hf, Hr. by apply workspace_inv_revision. }
  3: by destruct (patch_patched _ _ _ _ _ _ I E).
  all: eapply eq_ind_r; [exact I|].
  1: by eapply start_workspace.
  1: by eapply complete_workspace.
  1: by eapply validate_workspace.
  1: by eapply prepare_workspace.
  1: by eapply switch_workspace.
  1: by eapply rollback_workspace.
  1: by eapply cleanup_workspace.
  by eapply transition_workspace.
Qed.

(** C34. A patch is the fold of its operations over the base tree.  In every state reached from a database
    without workspace files, a patch set that is accepted stores under a new revision exactly the tree that
    the operations produce, one by one, from the tree of the base revision, each where the content it expects is
    present; the new revision is numbered one above its base and has it as parent; an expected revision or
    number was the base; the pointer of the job was the base (or absent) and becomes the new revision; and
    the files of every other revision are unchanged. *)
Theorem workspace_patch_spec d0 d i u now r d' :
  files d0 = ∅ -> star (gen_step path_leb) d0 d -> applyWorkspacePatchSet path_leb i u now d = Ok (r, d') ->
  patched i u r d d'.
Proof.
  intros H0 S E. eapply patch_patched; [|exact E]. eapply (star_invariant _ (fun d => workspace_inv (workspace d))); [| |exact S].
  - intros x y I Hs. by eapply gen_step_workspace.
  - unfold workspace, workspace_inv. cbn. rewrite H0. apply map_Forall_empty.
Qed.
End Theory.

(** ** Sample runs *)

Definition empty_gen_db : gen_db :=
  {| jobs := ∅; runs := ∅; checkpoints := ∅; events := []; outbox := []; allocators := ∅; revisions := ∅; files := ∅; patches := ∅;
     validations := ∅; validation_results := []; candidates := ∅; sets := ∅; members := [];
     head := Some {| current_epoch := 4; current_set := None; h_version := 1 |}; cleanups := ∅; cleanup_resources := [];
     platform := Some ("incarnation", 2); recovery_epoch := 0 |}.
Section Samples.
#[local] Existing Instances code_unit_locale toy_hash.
Definition sample_create : create_input :=
  {| ci_mode := None; ci_objective := Some "a browser"; ci_targets := None; ci_sources := None; ci_model := None;
     ci_incarnation := "incarnation"; ci_deployment := 2 |}.
Definition sample_start : start_input :=
  {| si_job := "job"; si_phase := DISCUSSING; si_expected := None; si_worker := "worker"; si_incarnation := Some "incarnation";
     si_deployment := Some 2 |}.
Definition sample_complete (token : Z) : complete_input :=
  {| co_run := "run-1"; co_worker := "worker"; co_token := token; co_outcome := OUT_SUCCEEDED; co_evidence := [("ok", JBool true)];
     co_next := None; co_incarnation := None; co_deployment := None |}.
Definition after {A} (d : gen_db) (a : A) (r : result (A * gen_db)) : gen_db := snd (get_Ok (a, d) r).
Lemma after_spec {A} d (a : A) r : is_Ok r = true -> r = Ok (fst (get_Ok (a, d) r), after d a r).
Proof. intros E. unfold after. rewrite <- surjective_pairing. by apply get_Ok_spec. Qed.
Definition sample_job (s : GenerationJobState) : generation_job :=
  {| j_mode := "CREATE"; j_objective := "a browser"; j_targets := []; j_sources := []; j_model := None; lifecycle := s; current_phase := s;
     progress := 0; j_worker := None; j_fence := None; j_lease := None; j_version := 1; j_epoch := 0; j_incarnation := "incarnation";
     j_deployment := 2; active_run := None; latest_checkpoint := None; workspace_revision := None; j_set := None; previous_snapshot := None;
     recovery := REC_READY; provisional_identity := None; result_digest := None; terminal_evidence := None; j_cleanup := None |}.
Definition created : gen_db := after empty_gen_db (sample_job BLOCKED) (createGenerationJob sample_create "job" "p" "rev-0" 0 empty_gen_db).
Definition started : gen_db := after created "" (startGenerationPhase sample_start "run-1" "cp-1" 0 created).
Definition advanced : gen_db := after started None (completeGenerationPhase (sample_complete 1) "cp-2" "run-2" 5 started).
Definition sample_patch : patch_input :=
  {| pi_job := "job"; pi_run := None;
     pi_operations := [{| wo_op := "ADD"; wo_path := "src/a.ts"; wo_expected := None; wo_content := Some "a"; wo_mime := None; wo_executable := None |};
                       {| wo_op := "ADD"; wo_path := "src/b.ts"; wo_expected := None; wo_content := Some "b"; wo_mime := None; wo_executable := None |}];
     pi_expected_revision := Some "rev-0"; pi_expected_number := Some 0; pi_logical := None |}.
Definition sample_patch_ids : patch_ids :=
  {| id_initial := "i"; id_run := "run-9"; id_owner := "o"; id_patch := "patch-1"; id_revision := "rev-1"; id_checkpoint := "cp-9" |}.
Definition no_patch : patch_result := {| pr_revision := ""; pr_number := 0; pr_tree := []; pr_files := 0 |}.
Definition patched_db : gen_db :=
  after started no_patch (applyWorkspacePatchSet str_leb sample_patch sample_patch_ids 7 started).
(** A job whose activation set is frozen *)
Definition ready_db : gen_db :=
  set_jobs {["job" := sample_job (InPhase ACTIVATING)]}
    (set_sets {["set" := {| st_state := SET_READY; st_previous := JObj [("activationSetId", JStr "old")]; st_candidate := JObj [];
                            st_membership := JArr []; st_rollback := JObj []; st_epoch := Some 5; st_version := 1 |}]} empty_gen_db).
Definition sample_switch : switch_input :=
  {| sw_job := "job"; sw_set := "set"; sw_expected := Some 1; sw_incarnation := None; sw_deployment := None |}.
Definition sample_rollback : rollback_input :=
  {| rb_job := "job"; rb_set := "set"; rb_reason := "bad"; rb_incarnation := None; rb_deployment := None |}.
Definition switched : gen_db := after ready_db 0 (switchGenerationActivation sample_switch "cp-1" "cp-2" ready_db).

Lemma started_history : star (gen_step str_leb) empty_gen_db started.
Proof.
  eapply star_step; [eapply (StepCreate _ _ sample_create "job" "p" "rev-0" 0); apply (after_spec empty_gen_db (sample_job BLOCKED)); vm_compute; reflexivity|].
  apply star_one. eapply (StepStart _ _ sample_start "run-1" "cp-1" 0); [done|]. apply (after_spec created ""). vm_compute. reflexivity.
Qed.
Lemma started_completes : completeGenerationPhase (sample_complete 1) "cp-2" "run-2" 5 started = Ok (Some "run-2", advanced).
Proof. unfold advanced. etrans; [apply (after_spec started None); vm_compute; reflexivity|]. f_equal. Qed.
Lemma advanced_history : star (gen_step str_leb) empty_gen_db advanced.
Proof.
  eapply star_trans; [apply started_history|]. apply star_one.
  eapply (StepComplete _ _ (sample_complete 1) "cp-2" "run-2" 5); [done|]. apply started_completes.
Qed.
(** The completion with another token, and the rollback while the job is still activating *)
Example stale_token : completeGenerationPhase (sample_complete 2) "cp-2" "run-2" 5 started =
  Throw (DomainErr "FENCING_TOKEN_STALE" "Phase completion was submitted by a stale worker").
Proof. vm_compute. reflexivity. Qed.
Example run_states : (fun r => r_state (snd r)) <$> map_to_list (runs advanced) = [RUN_SUCCEEDED; QUEUED].
Proof. vm_compute. reflexivity. Qed.

Lemma single_active_phase_witness : exists j, jobs advanced !! "job" = Some j /\ (job_terminal (lifecycle j) = false -> active_run j = Some "run-2").
Proof.
  destruct (runs advanced !! "run-2") as [r|] eqn:Hr; [|vm_compute in Hr; discriminate].
  destruct (@single_active_phase _ _ str_leb empty_gen_db advanced "run-2" "run-2" r r) as (_ & j & Hj & Hp);
    [reflexivity|exact advanced_history|exact Hr|exact Hr|reflexivity| | |].
  1,2: vm_compute in Hr; injection Hr as <-; reflexivity.
  exists j. split; [|exact Hp]. rewrite <- Hj. f_equal. vm_compute in Hr. injection Hr as <-. reflexivity.
Defined.
Lemma lifecycle_guarded_witness : exists j', jobs advanced !! "job" = Some j' /\ 3 <= j_version j'.
Proof.
  destruct (jobs started !! "job") as [j|] eqn:Hj; [|vm_compute in Hj; discriminate].
  destruct (@lifecycle_guarded _ _ str_leb started advanced "job" j) as (j' & Hj' & V & _); [|exact Hj|].
  - apply star_one. eapply (StepComplete _ _ (sample_complete 1) "cp-2" "run-2" 5); [reflexivity|]. apply started_completes.
  - exists j'. split; [exact Hj'|]. vm_compute in Hj. injection Hj as <-. exact V.
Defined.
Lemma rollback_after_switch_refused_witness :
  (st_state <$> sets switched !! "set") = Some SET_ACTIVE /\ is_Ok (rollbackGenerationActivation sample_rollback "cp-3" switched) = false.
Proof.
  split; [vm_compute; reflexivity|]. apply (@rollback_after_switch_refused _ _ str_leb sample_switch "cp-1" "cp-2" ready_db (fst (get_Ok (0, ready_db) (switchGenerationActivation sample_switch "cp-1" "cp-2" ready_db))) switched).
  - apply (after_spec ready_db 0). vm_compute. reflexivity.
  - apply star_refl.
  - reflexivity.
Defined.
Lemma completion_fenced_witness :
  (exists r, runs started !! "run-1" = Some r /\ r_fence r = Some 1) /\ is_Ok (completeGenerationPhase (sample_complete 1) "c" "r" 9 advanced) = false.
Proof.
  destruct (@completion_fenced _ _ str_leb (sample_complete 1) "cp-2" "run-2" 5 started _ advanced advanced (sample_complete 1) "c" "r" 9
              started_completes) as [(r & Hr & _ & _ & Hf) Hc].
  split; [exists r; split; [exact Hr|exact Hf]|apply Hc; [apply star_refl|reflexivity]].
Defined.
Lemma queued_successor_stuck_witness : exists q, runs advanced !! "run-2" = Some q /\ r_state q = QUEUED.
Proof.
  destruct (@queued_successor_stuck _ _ str_leb empty_gen_db started (sample_complete 1) "cp-2" "run-2" 5 "run-2" advanced advanced)
    as (q & Hs & Hq & _); [reflexivity|exact started_history|reflexivity|exact started_completes|apply star_refl|].
  exists q. split; [exact Hq|exact Hs].
Defined.
Lemma workspace_patch_spec_witness :
  exists r, patched sample_patch sample_patch_ids r started patched_db.
Proof.
  exists (fst (get_Ok (no_patch, started) (applyWorkspacePatchSet str_leb sample_patch sample_patch_ids 7 started))).
  apply (@workspace_patch_spec _ _ str_leb empty_gen_db started sample_patch sample_patch_ids 7 _ patched_db);
    [reflexivity|exact started_history|].
  apply (after_spec started no_patch). vm_compute. reflexivity.
Defined.
End Samples.
