(* ===== verification/Contracts.v ===== *)
(** * The contract pack

    [packages/contract-pack/src/index.ts]: the records of the registries, the admission checks of the
    exposure-parity and authority-ownership registries, the transitions of the declared state
    machines, and the loader of registry documents.  The file system is an argument of the loader: a
    function from paths to texts. *)
From Stdlib Require Import Ascii String.
From S2P Require Import Prelude Bytes Json.

(** ** Records *)

Inductive RegistryKind :=
| REQUIREMENT_REGISTRY | OPERATION_CATALOG | STATE_MACHINE_REGISTRY | POSTGRES_CONTRACT_MATRIX | RUNTIME_BOUNDARY_MATRIX
| BINDING_REGISTRY | AUTHORITY_OWNERSHIP_REGISTRY | ERROR_RETRY_REGISTRY | FAULT_CATALOG | RECOVERY_ORACLE_REGISTRY
| CLOSURE_PREDICATE_REGISTRY | ACCEPTANCE_GATE_REGISTRY | EXPOSURE_PARITY_REGISTRY | ARTIFACT_TRACE_REGISTRY.
#[export] Instance registry_kind_eq_dec : EqDecision RegistryKind.
Proof. solve_decision. Defined.
Definition kind_name (k : RegistryKind) : string :=
  match k with
  | REQUIREMENT_REGISTRY => "REQUIREMENT_REGISTRY" | OPERATION_CATALOG => "OPERATION_CATALOG"
  | STATE_MACHINE_REGISTRY => "STATE_MACHINE_REGISTRY" | POSTGRES_CONTRACT_MATRIX => "POSTGRES_CONTRACT_MATRIX"
  | RUNTIME_BOUNDARY_MATRIX => "RUNTIME_BOUNDARY_MATRIX" | BINDING_REGISTRY => "BINDING_REGISTRY"
  | AUTHORITY_OWNERSHIP_REGISTRY => "AUTHORITY_OWNERSHIP_REGISTRY" | ERROR_RETRY_REGISTRY => "ERROR_RETRY_REGISTRY"
  | FAULT_CATALOG => "FAULT_CATALOG" | RECOVERY_ORACLE_REGISTRY => "RECOVERY_ORACLE_REGISTRY"
  | CLOSURE_PREDICATE_REGISTRY => "CLOSURE_PREDICATE_REGISTRY" | ACCEPTANCE_GATE_REGISTRY => "ACCEPTANCE_GATE_REGISTRY"
  | EXPOSURE_PARITY_REGISTRY => "EXPOSURE_PARITY_REGISTRY" | ARTIFACT_TRACE_REGISTRY => "ARTIFACT_TRACE_REGISTRY"
  end.

Inductive SourceRelationKind := AUTHORITY | SPECIALIZATION | REFERENCE.
Record SourceEvidence := {
  sourceRef : string; relationKind : SourceRelationKind; canonicalRecordId : string; canonicalRequirementIds : list string;
  relationDigest : string;
}.
Record TraceAnchor := { requirementId : string; locator : string; symbol : string; snippetDigest : string }.
Inductive record_lifecycle := ACTIVE | SUPERSEDED | RETIRED.
#[export] Instance record_lifecycle_eq_dec : EqDecision record_lifecycle.
Proof. solve_decision. Defined.

(** The part every registry record has *)
Record RegistryRecord := {
  recordId : string; recordKind : RegistryKind; authoritySourceRefs : list string; sourceRelations : list SourceEvidence;
  requirementIds : list string; canonicalName : string; canonicalDigest : string; lifecycle : record_lifecycle;
  supersedes : list string; supersededBy : list string; extensions : list (string * json);
}.
(** [op_other] is the index signature: the members without a declared type. *)
Record OperationContract := {
  op_base : RegistryRecord; operationId : string; operationName : string; operationRevision : Z; operationFamily : string;
  aggregateRoot : string; exposureClass : string; sideEffectClass : string; retryClass : string;
  expectedStateVersionPolicy : string; idempotencyKeySource : string; op_other : list (string * json);
}.
Record surface_binding := {
  bindingId : string; sb_status : string; sourcePath : option string; sourceSymbol : option string; sourceMarker : option string;
  sb_target : option string; reasonCode : option string; supportingRequirementSourceRef : option string;
}.
Record ExposureParityContract := {
  ep_base : RegistryRecord; ep_operationId : string; ep_exposureClass : string; apiOperationIds : list string;
  uiSurfaceIds : list string; uiActionIds : list string; chatCapabilityIds : list string; auditEventTypes : list string;
  selfTestCaseIds : list string; acceptanceGateIds : list string; parentOperationId : option string;
  notApplicableReasons : list (string * string * string); surfaceBindings : option (list surface_binding);
}.
Record AuthorityOwnershipRecord := {
  au_base : RegistryRecord; authorityObjectKind : string; canonicalWriterId : string; ownerModule : string;
  ownerServiceOrWorker : string; au_stateMachineId : string; allowedOperationIds : list string;
  authoritativePersistence : list string; acceptedEvidenceProducers : list string; prohibitedDirectWriters : list string;
  projectionConsumers : list string; closurePredicateId : string;
}.
Record state_transition := { transitionId : string; fromState : string; toState : string; operationIds : list string }.
Record StateMachineContract := {
  sm_base : RegistryRecord; stateMachineId : string; states : list string; terminalStates : list string;
  transitions : list state_transition;
}.

(** ** Exposure parity *)

Definition contains (l : list string) (s : string) : bool := existsb (String.eqb s) l.
Definition filled (o : option string) : bool := match o with Some s => truthy s | None => false end.
Definition nonempty {A} (l : list A) : bool := match l with [] => false | _ => true end.

Definition exposureClasses : list string :=
  ["OWNER_COMMAND"; "OWNER_QUERY"; "PUBLIC_PROTOCOL"; "INTERNAL_PROTOCOL"; "AUTOMATED_MAINTENANCE"; "EVIDENCE_ONLY"].
(** [/^(?:API|UI-ACTION|CHAT|SELFTEST)-/u] *)
Definition syntheticExposureIds (s : string) : bool :=
  existsb (fun p => starts_with p s) ["API-"; "UI-ACTION-"; "CHAT-"; "SELFTEST-"].
Definition NOT_APPLICABLE_REQUIREMENT : string := "ssot://55.18/55-18-ui-api-chat-audit-a-self-test-parity/atom-1".

(** The bindings of a record; the set of their identifiers is kept in insertion order. *)
Definition check_binding (op : string) (seen : list string) (b : surface_binding) : result (list string) :=
  _ ← throw_if (negb (truthy (bindingId b)) || contains seen (bindingId b)) (JsError ("EXPOSURE_PARITY_BINDING_CARDINALITY:" +:+ op));
  _ ← throw_if (syntheticExposureIds (bindingId b)) (JsError ("EXPOSURE_PARITY_SYNTHETIC_BINDING:" +:+ op +:+ ":" +:+ bindingId b));
  _ ← throw_if (String.eqb (sb_status b) "APPLICABLE"
                && (negb (filled (sourcePath b)) || negb (filled (sourceSymbol b)) || negb (filled (sourceMarker b)) || negb (filled (sb_target b))))
        (JsError ("EXPOSURE_PARITY_BINDING_UNRESOLVED:" +:+ op +:+ ":" +:+ bindingId b));
  _ ← throw_if (String.eqb (sb_status b) "NOT_APPLICABLE"
                && (negb (filled (reasonCode b)) || negb (bool_decide (supportingRequirementSourceRef b = Some NOT_APPLICABLE_REQUIREMENT))))
        (JsError ("EXPOSURE_PARITY_NOT_APPLICABLE_UNSUPPORTED:" +:+ op +:+ ":" +:+ bindingId b));
  Ok (seen ++ [bindingId b]).
Definition applicableIds (ids : list string) (prefix : string) : list string := List.filter (starts_with (prefix +:+ ":")) ids.
Definition exactIds (ids declared : list string) (prefix : string) : bool :=
  let expected := applicableIds ids prefix in
  (length declared =? length expected)%nat && forallb (contains expected) declared.

(** [operationById.get(id)]: a later operation with the same identifier replaces an earlier one. *)
Definition operation_by_id (ops : list OperationContract) (id : string) : option OperationContract :=
  List.find (fun o => String.eqb (operationId o) id) (rev ops).
Definition known_operation (ops : list OperationContract) (id : string) : bool := existsb (fun o => String.eqb (operationId o) id) ops.
Definition check_surfaces (r : ExposureParityContract) : result unit :=
  let op := ep_operationId r in
  let class := ep_exposureClass r in
  let bindings := default [] (surfaceBindings r) in
  _ ← throw_if (negb (nonempty bindings)) (JsError ("EXPOSURE_PARITY_INCOMPLETE:" +:+ op +:+ ":surfaceBindings"));
  ids ← fold_result (check_binding op) [] bindings;
  _ ← throw_if (negb (exactIds ids (apiOperationIds r) "REST_ROUTE") || negb (exactIds ids (uiSurfaceIds r) "UI_VIEW")
                || negb (exactIds ids (uiActionIds r) "UI_ACTION") || negb (exactIds ids (chatCapabilityIds r) "CHAT_CAPABILITY")
                || negb (exactIds ids (selfTestCaseIds r) "TEST_CASE"))
        (JsError ("EXPOSURE_PARITY_ID_BINDING_MISMATCH:" +:+ op));
  _ ← throw_if (negb (nonempty (uiSurfaceIds r)) || negb (nonempty (chatCapabilityIds r)) || negb (nonempty (auditEventTypes r))
                || negb (nonempty (selfTestCaseIds r)) || negb (nonempty (acceptanceGateIds r)))
        (JsError ("EXPOSURE_PARITY_INCOMPLETE:" +:+ op +:+ ":required-common-surface"));
  _ ← throw_if (String.eqb class "OWNER_COMMAND" && (negb (nonempty (apiOperationIds r)) || negb (nonempty (uiActionIds r))))
        (JsError ("EXPOSURE_PARITY_INCOMPLETE:" +:+ op +:+ ":owner-command"));
  _ ← throw_if (negb (String.eqb class "OWNER_COMMAND") && nonempty (uiActionIds r)) (JsError ("EXPOSURE_PARITY_UNAUTHORIZED_UI_ACTION:" +:+ op));
  throw_if (String.eqb class "INTERNAL_PROTOCOL" && (nonempty (apiOperationIds r) || negb (filled (parentOperationId r))))
    (JsError ("EXPOSURE_PARITY_INCOMPLETE:" +:+ op +:+ ":internal-protocol")).
(** The body of the loop; the state holds the identifiers that have a record. *)
Definition check_record (ops : list OperationContract) (seen : list string) (r : ExposureParityContract) : result (list string) :=
  let op := ep_operationId r in
  _ ← throw_if (negb (contains exposureClasses (ep_exposureClass r))) (JsError ("EXPOSURE_PARITY_CLASS_INVALID:" +:+ op));
  _ ← throw_if (negb (known_operation ops op) || contains seen op) (JsError ("EXPOSURE_PARITY_OPERATION_CARDINALITY:" +:+ op));
  _ ← throw_if (negb (bool_decide (exposureClass <$> operation_by_id ops op = Some (ep_exposureClass r))))
        (JsError ("EXPOSURE_PARITY_CLASS_MISMATCH:" +:+ op));
  _ ← check_surfaces r;
  Ok (op :: seen).
Definition validateExposureParity (ops : list OperationContract) (parity : list ExposureParityContract) : result unit :=
  seen ← fold_result (check_record ops) [] parity;
  _ ← for_each (fun o => throw_if (negb (contains seen (operationId o))) (JsError ("EXPOSURE_PARITY_INCOMPLETE:" +:+ operationName o +:+ ":record"))) ops;
  for_each (fun r => throw_if (match parentOperationId r with Some p => truthy p && negb (known_operation ops p) | None => false end)
                       (JsError ("EXPOSURE_PARITY_PARENT_MISSING:" +:+ ep_operationId r +:+ ":" +:+ default "" (parentOperationId r)))) parity.

(** ** Authority ownership *)

Record ownership := { byOperation : gmap string (list AuthorityOwnershipRecord); kinds : list string }.
Definition add_owner (a : AuthorityOwnershipRecord) (m : gmap string (list AuthorityOwnershipRecord)) (id : string) :=
  <[id := default [] (m !! id) ++ [a]]> m.
Definition check_authority (machines : list StateMachineContract) (s : ownership) (a : AuthorityOwnershipRecord) : result ownership :=
  let kind := authorityObjectKind a in
  if negb (bool_decide (lifecycle (au_base a) = ACTIVE)) then Ok s else
  _ ← throw_if (contains (kinds s) kind) (JsError ("AUTHORITY_OBJECT_KIND_DUPLICATE:" +:+ kind));
  _ ← throw_if (negb (nonempty (requirementIds (au_base a)))) (JsError ("AUTHORITY_REQUIREMENTS_EMPTY:" +:+ kind));
  _ ← throw_if (negb (forallb truthy (allowedOperationIds a))) (JsError ("AUTHORITY_OPERATION_ID_INVALID:" +:+ kind));
  _ ← throw_if (negb (nonempty (acceptedEvidenceProducers a)) || negb (nonempty (prohibitedDirectWriters a)))
        (JsError ("AUTHORITY_EVIDENCE_OR_DENYLIST_EMPTY:" +:+ kind));
  _ ← throw_if (negb (truthy (closurePredicateId a)) || negb (truthy (au_stateMachineId a))) (JsError ("AUTHORITY_STATE_CONTRACT_INCOMPLETE:" +:+ kind));
  _ ← throw_if (nonempty machines && negb (existsb (fun m => String.eqb (stateMachineId m) (au_stateMachineId a)) machines))
        (JsError ("AUTHORITY_STATE_MACHINE_MISSING:" +:+ kind +:+ ":" +:+ au_stateMachineId a));
  Ok {| byOperation := fold_left (add_owner a) (allowedOperationIds a) (byOperation s); kinds := kind :: kinds s |}.
(** [owner.x === operation[x]] *)
Definition member_is (o : OperationContract) (k v : string) : bool :=
  match get_prop k (op_other o) with Some (JStr s) => String.eqb s v | _ => false end.
Definition check_operation (s : ownership) (o : OperationContract) : result unit :=
  let owners := default [] (byOperation s !! operationId o) in
  match owners with
  | [owner] =>
      throw_if (negb (member_is o "canonicalWriterId" (canonicalWriterId owner)) || negb (member_is o "stateMachineId" (au_stateMachineId owner)))
        (JsError ("AUTHORITY_OPERATION_CONTRACT_MISMATCH:" +:+ operationName o))
  | _ => Throw (JsError ("AUTHORITY_OPERATION_CARDINALITY:" +:+ operationName o +:+ ":" +:+ dec (Z.of_nat (length owners))))
  end.
Definition validateAuthorityOwnership (ops : list OperationContract) (authorities : list AuthorityOwnershipRecord)
    (machines : list StateMachineContract) : result unit :=
  s ← fold_result (check_authority machines) {| byOperation := ∅; kinds := [] |} authorities;
  for_each (check_operation s) ops.
Definition owns (id : string) (a : AuthorityOwnershipRecord) : bool :=
  bool_decide (lifecycle (au_base a) = ACTIVE) && contains (allowedOperationIds a) id.
Definition authorityForOperation (id : string) (authorities : list AuthorityOwnershipRecord) : result AuthorityOwnershipRecord :=
  let owners := List.filter (owns id) authorities in
  match owners with
  | [owner] => Ok owner
  | _ => Throw (JsError ("AUTHORITY_OPERATION_CARDINALITY:" +:+ id +:+ ":" +:+ dec (Z.of_nat (length owners))))
  end.

(** ** State machines *)

Definition assertStateTransition (m : StateMachineContract) (currentState nextState op : string) : result unit :=
  _ ← throw_if (negb (contains (states m) currentState) || negb (contains (states m) nextState)) (JsError ("STATE_NOT_DECLARED:" +:+ stateMachineId m));
  _ ← throw_if (contains (terminalStates m) currentState) (JsError ("TERMINAL_STATE_IMMUTABLE:" +:+ stateMachineId m +:+ ":" +:+ currentState));
  let transition := List.find (fun t => String.eqb (fromState t) currentState && String.eqb (toState t) nextState) (transitions m) in
  throw_if (match transition with Some t => negb (contains (operationIds t) op) | None => true end)
    (JsError ("STATE_TRANSITION_FORBIDDEN:" +:+ stateMachineId m +:+ ":" +:+ currentState +:+ "->" +:+ nextState +:+ ":" +:+ op)).

(** ** Documents *)

Definition registryRecordId (r : list (string * json)) : option json := get_prop "recordId" r.
Definition is_string (o : option json) : bool := match o with Some (JStr _) => true | _ => false end.
Definition isSourceEvidence (value : json) : bool :=
  match value with
  | JObj c =>
      is_string (get_prop "sourceRef" c)
      && match get_prop "relationKind" c with Some (JStr k) => contains ["AUTHORITY"; "SPECIALIZATION"; "REFERENCE"] k | _ => false end
      && is_string (get_prop "canonicalRecordId" c)
      && match get_prop "canonicalRequirementIds" c with Some (JArr l) => forallb (fun j => is_string (Some j)) l | _ => false end
      && is_string (get_prop "relationDigest" c)
  | _ => false
  end.
Definition registry_path (k : RegistryKind) : string :=
  match k with
  | REQUIREMENT_REGISTRY => "contracts/registries/requirements/requirements.json"
  | OPERATION_CATALOG => "contracts/registries/operations/operations.json"
  | STATE_MACHINE_REGISTRY => "contracts/registries/state-machines/state-machines.json"
  | POSTGRES_CONTRACT_MATRIX => "contracts/registries/postgres/postgres-contracts.json"
  | RUNTIME_BOUNDARY_MATRIX => "contracts/registries/runtime-boundaries/runtime-boundaries.json"
  | BINDING_REGISTRY => "contracts/registries/bindings/bindings.json"
  | AUTHORITY_OWNERSHIP_REGISTRY => "contracts/registries/authority/authority-ownership.json"
  | ERROR_RETRY_REGISTRY => "contracts/registries/errors/errors.json"
  | FAULT_CATALOG => "contracts/registries/faults/faults.json"
  | RECOVERY_ORACLE_REGISTRY => "contracts/registries/recovery-oracles/recovery-oracles.json"
  | CLOSURE_PREDICATE_REGISTRY => "contracts/registries/closure-predicates/closure-predicates.json"
  | ACCEPTANCE_GATE_REGISTRY => "contracts/registries/acceptance-gates/acceptance-gates.json"
  | EXPOSURE_PARITY_REGISTRY => "contracts/registries/exposure-parity/exposure-parity.json"
  | ARTIFACT_TRACE_REGISTRY => "contracts/registries/artifact-trace/artifact-trace.json"
  end.
(** [value.key]: of [null] a TypeError, of another value without members [undefined] *)
Definition member (value : json) (key : string) : result (option json) :=
  match value with JNull => Throw (JsError "TypeError") | JObj l => Ok (get_prop key l) | _ => Ok None end.
(** The records stay JSON: the cast to their type checks nothing. *)
Definition loadRegistry (readFile : string -> option string) (k : RegistryKind) : result (list json) :=
  text ← or_throw (readFile (registry_path k)) (JsError "ENOENT");
  parsed ← or_throw (JSON_parse text) (JsError "SyntaxError");
  kind ← member parsed "kind";
  records ← member parsed "records";
  match kind, records with
  | Some (JStr n), Some (JArr l) => _ ← throw_if (negb (String.eqb n (kind_name k))) (JsError ("Invalid " +:+ kind_name k)); Ok l
  | _, _ => Throw (JsError ("Invalid " +:+ kind_name k))
  end.
Definition loadOperationCatalog (readFile : string -> option string) : result (list json) := loadRegistry readFile OPERATION_CATALOG.
Definition loadAuthorityOwnershipRegistry (readFile : string -> option string) : result (list json) :=
  loadRegistry readFile AUTHORITY_OWNERSHIP_REGISTRY.
Fixpoint find_operation (name : string) (l : list json) : result json :=
  match l with
  | [] => Throw (JsError ("Unknown operation: " +:+ name))
  | j :: l => n ← member j "operationName";
               if match n with Some (JStr s) => String.eqb s name | _ => false end then Ok j else find_operation name l
  end.
Definition operationByName (readFile : string -> option string) (name : string) : result json :=
  l ← loadOperationCatalog readFile; find_operation name l.

(** ** Theory *)

Lemma contains_In l s : contains l s = true <-> In s l.
Proof.
  unfold contains. rewrite existsb_exists. split; [intros (x & Hx & E); reflect_bools; by subst|intros Hs; exists s; by rewrite String.eqb_refl].
Qed.
Lemma contains_not_In l s : contains l s = false <-> ~ In s l.
Proof. rewrite <- contains_In. by destruct (contains l s). Qed.
Lemma nonempty_true {A} (l : list A) : nonempty l = true <-> l <> [].
Proof. by destruct l. Qed.
Lemma nonempty_false {A} (l : list A) : nonempty l = false <-> l = [].
Proof. by destruct l. Qed.

(** *** Bindings of a record *)

Definition resolved (b : surface_binding) : Prop :=
  sb_status b = "APPLICABLE" -> filled (sourcePath b) = true /\ filled (sourceSymbol b) = true /\ filled (sourceMarker b) = true /\ filled (sb_target b) = true.
Lemma check_binding_Ok op seen b seen' :
  check_binding op seen b = Ok seen' -> seen' = seen ++ [bindingId b] /\ ~ In (bindingId b) seen /\ resolved b.
Proof.
  unfold check_binding. intros E. inv_ok. reflect_bools. repeat split; [done|by apply contains_not_In|..].
  all: match goal with Hs : sb_status ?x = _, Hr : String.eqb (sb_status ?x) "APPLICABLE" && _ = false |- _ =>
    rewrite Hs in Hr; cbn in Hr end; reflect_bools; done.
Qed.
Lemma check_bindings_Ok op bs : forall seen ids,
  fold_result (check_binding op) seen bs = Ok ids -> NoDup seen -> ids = seen ++ map bindingId bs /\ NoDup ids /\ Forall resolved bs.
Proof.
  induction bs as [|b bs IH]; cbn; intros seen ids E Hn.
  - injection E as <-. by rewrite app_nil_r.
  - apply bind_Ok_inv in E as (s1 & E1 & E). apply check_binding_Ok in E1 as (-> & Hb & Hr).
    destruct (IH _ _ E) as (-> & Hn' & Hf).
    + apply NoDup_app. repeat split; [done| |apply NoDup_singleton]. intros x Hx Hx'%list_elem_of_singleton. subst.
      by apply Hb, list_elem_of_In.
    + rewrite <- app_assoc in *. split; [done|]. split; [done|by constructor].
Qed.
(** Declared identifiers name bindings of their surface. *)
Definition declared (bs : list surface_binding) (prefix : string) (ids : list string) : Prop :=
  forall id, In id ids -> exists b, In b bs /\ bindingId b = id /\ starts_with (prefix +:+ ":") id = true.
Lemma exactIds_declared bs ids prefix : exactIds (map bindingId bs) ids prefix = true -> declared bs prefix ids.
Proof.
  unfold exactIds. intros E id Hid. reflect_bools.
  match goal with Hf : forallb _ _ = true |- _ => rewrite forallb_forall in Hf; pose proof (Hf _ Hid) as Hc end.
  apply contains_In, filter_In in Hc as [Hc ?].
  apply in_map_iff in Hc as (b & <- & Hb). eauto.
Qed.

(** What a validated record exposes *)
Record exposed (r : ExposureParityContract) : Prop := {
  ex_bindings : NoDup (map bindingId (default [] (surfaceBindings r))) /\ Forall resolved (default [] (surfaceBindings r));
  ex_api : declared (default [] (surfaceBindings r)) "REST_ROUTE" (apiOperationIds r);
  ex_views : declared (default [] (surfaceBindings r)) "UI_VIEW" (uiSurfaceIds r) /\ uiSurfaceIds r <> [];
  ex_actions : declared (default [] (surfaceBindings r)) "UI_ACTION" (uiActionIds r);
  ex_chat : declared (default [] (surfaceBindings r)) "CHAT_CAPABILITY" (chatCapabilityIds r) /\ chatCapabilityIds r <> [];
  ex_tests : declared (default [] (surfaceBindings r)) "TEST_CASE" (selfTestCaseIds r) /\ selfTestCaseIds r <> [];
  ex_audit : auditEventTypes r <> [] /\ acceptanceGateIds r <> [];
  ex_command : ep_exposureClass r = "OWNER_COMMAND" <-> uiActionIds r <> [];
  ex_command_api : ep_exposureClass r = "OWNER_COMMAND" -> apiOperationIds r <> [];
  ex_internal : ep_exposureClass r = "INTERNAL_PROTOCOL" -> apiOperationIds r = [] /\ filled (parentOperationId r) = true;
}.
Lemma check_surfaces_exposed r : check_surfaces r = Ok tt -> exposed r.
Proof.
  unfold check_surfaces. intros E. apply bind_Ok_inv in E as ([] & _ & E). apply bind_Ok_inv in E as (ids & Hids & E).
  apply check_bindings_Ok in Hids as (-> & Hn & Hr); [|constructor]. cbn [app] in *. inv_ok.
  repeat match goal with H : _ || _ = false |- _ => apply orb_false_iff in H as [? ?] end.
  repeat match goal with
  | H : negb (exactIds _ _ _) = false |- _ => apply negb_false_iff, exactIds_declared in H
  | H : negb (nonempty _) = false |- _ => apply negb_false_iff, nonempty_true in H
  end.
  split; try done.
  - split; [intros Hc | intros Ha; destruct (String.eqb_spec (ep_exposureClass r) "OWNER_COMMAND") as [|Hc]; [done|]].
    + rewrite Hc in *. cbn in *. reflect_bools. by apply nonempty_true.
    + cbn in *. destruct Ha. by apply nonempty_false.
  - intros Hc. rewrite Hc in *. cbn in *. reflect_bools. by apply nonempty_true.
  - intros Hc. rewrite Hc in *. cbn in *. reflect_bools. split; [by apply nonempty_false|done].
Qed.

(** *** All records *)

Record checked (ops : list OperationContract) (r : ExposureParityContract) : Prop := {
  ck_known : known_operation ops (ep_operationId r) = true;
  ck_class : exposureClass <$> operation_by_id ops (ep_operationId r) = Some (ep_exposureClass r);
  ck_exposed : exposed r;
}.
Lemma check_record_Ok ops seen r seen' :
  check_record ops seen r = Ok seen' -> seen' = ep_operationId r :: seen /\ ~ In (ep_operationId r) seen /\ checked ops r.
Proof.
  unfold check_record. intros E. inv_ok. reflect_bools. split; [done|]. split; [by apply contains_not_In|].
  split; [done|done|by apply check_surfaces_exposed].
Qed.
Lemma check_records_Ok ops parity : forall seen seen',
  fold_result (check_record ops) seen parity = Ok seen' ->
  Forall (checked ops) parity /\ (forall x, In x seen' <-> In x seen \/ In x (map ep_operationId parity))
  /\ (NoDup seen -> NoDup (map ep_operationId parity)) /\ (forall x, In x seen -> ~ In x (map ep_operationId parity)).
Proof.
  induction parity as [|r parity IH]; cbn; intros seen seen' E.
  - injection E as <-. repeat split; [constructor|tauto|tauto|constructor|tauto].
  - apply bind_Ok_inv in E as (s1 & E1 & E). apply check_record_Ok in E1 as (-> & Hn & Hc).
    destruct (IH _ _ E) as (Hf & Hin & Hnd & Hdis). cbn in *. repeat split; [by constructor|..].
    + intros [[?|?]|?]%Hin; auto.
    + intros [?|[?|?]]; apply Hin; auto.
    + intros Hs. constructor; [|apply Hnd; constructor; [|done]].
      * rewrite list_elem_of_In. apply Hdis. by left.
      * by rewrite list_elem_of_In.
    + intros x Hx [<-|Hx']; [done|]. exact (Hdis x (or_intror Hx) Hx').
Qed.
Lemma operation_by_id_unique ops o : NoDup (map operationId ops) -> In o ops -> operation_by_id ops (operationId o) = Some o.
Proof.
  intros Hn Ho. unfold operation_by_id. destruct (List.find _ (rev ops)) as [o'|] eqn:E.
  - apply find_some in E as [Ho' E]. apply in_rev in Ho'. reflect_bools. f_equal. by eapply NoDup_map_unique.
  - eapply find_none in E; [|apply in_rev; by rewrite rev_involutive]. by rewrite String.eqb_refl in E.
Qed.

(** Exposure parity is total.  When the parity registry is admitted, every operation of the catalogue
    has exactly one parity record.  The record carries the exposure class of the operation (when the
    identifiers of the catalogue are distinct); its bindings have distinct identifiers and every applicable one is
    resolved; the identifiers it declares for routes, views, actions, chat capabilities and tests name bindings
    of that surface; views, chat, audit, tests and gates are never empty; UI actions exist exactly for owner
    commands, which also have a route; an internal protocol has no route and its parent is an operation
    of the catalogue. *)
Theorem exposure_parity_total ops parity o :
  validateExposureParity ops parity = Ok tt -> In o ops ->
  exists r, In r parity /\ ep_operationId r = operationId o
    /\ (forall r', In r' parity -> ep_operationId r' = operationId o -> r' = r)
    /\ (NoDup (map operationId ops) -> ep_exposureClass r = exposureClass o)
    /\ exposed r
    /\ (forall p, parentOperationId r = Some p -> truthy p = true -> exists q, In q ops /\ operationId q = p).
Proof.
  unfold validateExposureParity. intros E Ho. apply bind_Ok_inv in E as (seen & Hs & E). apply bind_Ok_inv in E as ([] & Hall & Hpar).
  apply for_each_Ok in Hall, Hpar. rewrite List.Forall_forall in Hall, Hpar.
  destruct (check_records_Ok _ _ _ _ Hs) as (Hf & Hin & Hnd & _). rewrite List.Forall_forall in Hf.
  pose proof (Hall _ Ho) as Hseen. apply throw_if_Ok in Hseen. reflect_bools. apply contains_In, Hin in Hseen as [[]|Hseen].
  apply in_map_iff in Hseen as (r & Er & Hr). destruct (Hf _ Hr) as [_ Hc He].
  exists r. split; [done|]. split; [done|]. split; [|split; [|split; [done|]]].
  - intros r' Hr' Er'. eapply (NoDup_map_unique ep_operationId); [apply Hnd; constructor|done..|congruence].
  - intros Hn. rewrite Er, (operation_by_id_unique _ _ Hn Ho) in Hc. by injection Hc.
  - intros p Hp Ht. pose proof (Hpar _ Hr) as Hk. apply throw_if_Ok in Hk. rewrite Hp, Ht in Hk. cbn in Hk. reflect_bools.
    apply existsb_exists in Hk as (q & Hq & Eq). reflect_bools. eauto.
Qed.

(** *** Ownership *)

(** The authorities that [byOperation] records for an operation: one per occurrence of its identifier *)
Definition recorded (id : string) (a : AuthorityOwnershipRecord) : list AuthorityOwnershipRecord :=
  if bool_decide (lifecycle (au_base a) = ACTIVE) then replicate (count_occ String.string_dec (allowedOperationIds a) id) a else [].
Lemma add_owners_lookup a ids : forall m id,
  default [] (fold_left (add_owner a) ids m !! id) = default [] (m !! id) ++ replicate (count_occ String.string_dec ids id) a.
Proof.
  induction ids as [|x ids IH]; intros m id; cbn [fold_left count_occ]; [by rewrite app_nil_r|].
  rewrite IH. unfold add_owner. destruct (String.string_dec x id) as [->|Hne].
  - rewrite lookup_insert_eq. cbn. by rewrite <- app_assoc.
  - by rewrite lookup_insert_ne.
Qed.
Definition has_machine (machines : list StateMachineContract) (a : AuthorityOwnershipRecord) : Prop :=
  lifecycle (au_base a) = ACTIVE -> machines <> [] -> exists m, In m machines /\ stateMachineId m = au_stateMachineId a.
Lemma check_authority_Ok machines s a s' :
  check_authority machines s a = Ok s' ->
  (forall id, default [] (byOperation s' !! id) = default [] (byOperation s !! id) ++ recorded id a) /\ has_machine machines a.
Proof.
  unfold check_authority, recorded, has_machine. case_bool_decide as Ha; cbn [negb].
  - intros E. inv_ok. subst s'. cbn. split; [intros id; apply add_owners_lookup|]. intros _ Hm. reflect_bools.
    match goal with H : nonempty machines && _ = false |- _ =>
      apply nonempty_true in Hm; rewrite Hm in H; cbn in H; apply negb_false_iff, existsb_exists in H as (m & Hin & E) end.
    reflect_bools. eauto.
  - intros [= <-]. split; [intros id; by rewrite app_nil_r|done].
Qed.
Lemma check_authorities_Ok machines l : forall s s',
  fold_result (check_authority machines) s l = Ok s' ->
  (forall id, default [] (byOperation s' !! id) = default [] (byOperation s !! id) ++ (l ≫= recorded id)) /\ Forall (has_machine machines) l.
Proof.
  induction l as [|a l IH]; cbn; intros s s' E.
  - injection E as <-. split; [intros id; by rewrite app_nil_r|constructor].
  - apply bind_Ok_inv in E as (s1 & E1 & E). apply check_authority_Ok in E1 as [E1 Hm]. destruct (IH _ _ E) as [E2 Hf].
    split; [|by constructor]. intros id. by rewrite E2, E1, <- app_assoc.
Qed.
Lemma recorded_nil id a : recorded id a = [] -> owns id a = false.
Proof.
  unfold recorded, owns. case_bool_decide; cbn [andb]; [|done]. intros E. apply contains_not_In. intros Hin.
  apply (count_occ_In String.string_dec) in Hin. destruct (count_occ _ _ _); cbn in E; [lia|done].
Qed.
Lemma recorded_cons id a x l : recorded id a = x :: l -> x = a /\ owns id a = true.
Proof.
  unfold recorded, owns. case_bool_decide; cbn [andb]; [|done]. destruct (count_occ _ _ _) eqn:E; cbn; [done|]. intros [= <- _].
  split; [done|]. apply contains_In, (count_occ_In String.string_dec). lia.
Qed.
Lemma recorded_owners id l : (l ≫= recorded id = [] -> List.filter (owns id) l = [])
  /\ (forall x, l ≫= recorded id = [x] -> List.filter (owns id) l = [x]).
Proof.
  induction l as [|a l [IH0 IH1]]; cbn; [by split|]. split.
  - intros [Ha Hl]%app_nil. rewrite (recorded_nil _ _ Ha). auto.
  - intros x E. destruct (recorded id a) as [|y k] eqn:Ha; cbn in E.
    + rewrite (recorded_nil _ _ Ha). auto.
    + apply recorded_cons in Ha as [-> Ho]. rewrite Ho. injection E as -> [_ E]%app_nil. by rewrite IH0.
Qed.

(** Every operation has one authority.  When the ownership registry is admitted for a catalogue, then
    each operation of the catalogue resolves at run time: [authorityForOperation] returns its authority, it is
    active, it is the only active authority that lists the operation, its writer and its state machine
    are those the operation names, and (when machines are given) that state machine is declared. *)
Theorem authority_unique ops authorities machines o :
  validateAuthorityOwnership ops authorities machines = Ok tt -> In o ops ->
  exists a, authorityForOperation (operationId o) authorities = Ok a
    /\ In a authorities /\ owns (operationId o) a = true
    /\ (forall a', In a' authorities -> owns (operationId o) a' = true -> a' = a)
    /\ member_is o "canonicalWriterId" (canonicalWriterId a) = true
    /\ member_is o "stateMachineId" (au_stateMachineId a) = true
    /\ (machines <> [] -> exists m, In m machines /\ stateMachineId m = au_stateMachineId a).
Proof.
  unfold validateAuthorityOwnership. intros E Ho. apply bind_Ok_inv in E as (s & Hs & E). apply for_each_Ok in E.
  rewrite List.Forall_forall in E. pose proof (E _ Ho) as Hop. unfold check_operation in Hop.
  apply check_authorities_Ok in Hs as [Hs Hf]. rewrite Hs in Hop. cbn [byOperation] in Hop. rewrite lookup_empty in Hop. cbn in Hop.
  destruct (authorities ≫= recorded (operationId o)) as [|a [|? ?]] eqn:Hr; try discriminate.
  apply throw_if_Ok in Hop. reflect_bools. apply (recorded_owners (operationId o) authorities) in Hr.
  assert (Ha : In a authorities /\ owns (operationId o) a = true) by (apply filter_In; rewrite Hr; by left). destruct Ha as [Hin Hown].
  exists a. unfold authorityForOperation. rewrite Hr. repeat (split; [done|]). split; [|repeat (split; [done|])].
  - intros a' Hin' Ho'. assert (Hx : In a' [a]) by (rewrite <- Hr; by apply filter_In). by destruct Hx as [|[]].
  - rewrite List.Forall_forall in Hf. apply (Hf _ Hin). unfold owns in Hown. by reflect_bools.
Qed.

(** *** Runs of a state machine *)

(** The states a machine goes through under accepted transitions *)
Definition machine_step (m : StateMachineContract) (x y : string) : Prop := exists op, assertStateTransition m x y op = Ok tt.
Lemma machine_step_declared m x y : machine_step m x y -> In x (states m) /\ In y (states m) /\ ~ In x (terminalStates m).
Proof.
  intros [op E]. unfold assertStateTransition in E. inv_ok. reflect_bools. by rewrite <- !contains_In, not_true_iff_false.
Qed.
(** A terminal state is never left, and the states of a run are declared. *)
Lemma machine_run m x y : star (machine_step m) x y -> In x (states m) -> In y (states m) /\ (In x (terminalStates m) -> y = x).
Proof.
  induction 1 as [x|x y z S _ IH]; [done|]. intros Hx. apply machine_step_declared in S as (_ & Hy & Ht).
  destruct (IH Hy) as [Hz _]. done.
Qed.

(** ** Samples *)

Definition sample_base (kind : RegistryKind) (id : string) : RegistryRecord :=
  {| recordId := id; recordKind := kind; authoritySourceRefs := []; sourceRelations := []; requirementIds := ["REQ-1"]; canonicalName := id;
     canonicalDigest := ""; lifecycle := ACTIVE; supersedes := []; supersededBy := []; extensions := [] |}.
Definition sample_operation : OperationContract :=
  {| op_base := sample_base OPERATION_CATALOG "OP-1"; operationId := "OP-1"; operationName := "component.create"; operationRevision := 1;
     operationFamily := "component"; aggregateRoot := "component"; exposureClass := "OWNER_COMMAND"; sideEffectClass := "";
     retryClass := ""; expectedStateVersionPolicy := ""; idempotencyKeySource := "";
     op_other := [("canonicalWriterId", JStr "writer"); ("stateMachineId", JStr "SM-1")] |}.
Definition sample_binding (id : string) : surface_binding :=
  {| bindingId := id; sb_status := "APPLICABLE"; sourcePath := Some "a.ts"; sourceSymbol := Some "f"; sourceMarker := Some "m";
     sb_target := Some "t"; reasonCode := None; supportingRequirementSourceRef := None |}.
Definition sample_parity (api actions : list string) : ExposureParityContract :=
  {| ep_base := sample_base EXPOSURE_PARITY_REGISTRY "EP-1"; ep_operationId := "OP-1"; ep_exposureClass := "OWNER_COMMAND";
     apiOperationIds := api; uiSurfaceIds := ["UI_VIEW:components"]; uiActionIds := actions;
     chatCapabilityIds := ["CHAT_CAPABILITY:create"]; auditEventTypes := ["created"]; selfTestCaseIds := ["TEST_CASE:create"];
     acceptanceGateIds := ["gate"]; parentOperationId := None; notApplicableReasons := [];
     surfaceBindings := Some (map sample_binding ["REST_ROUTE:a"; "REST_ROUTE:b"; "UI_VIEW:components"; "UI_ACTION:create";
                                                  "CHAT_CAPABILITY:create"; "TEST_CASE:create"]) |}.
Definition sample_authority : AuthorityOwnershipRecord :=
  {| au_base := sample_base AUTHORITY_OWNERSHIP_REGISTRY "AU-1"; authorityObjectKind := "component"; canonicalWriterId := "writer"; ownerModule := "m";
     ownerServiceOrWorker := "s"; au_stateMachineId := "SM-1"; allowedOperationIds := ["OP-1"; "OP-2"]; authoritativePersistence := [];
     acceptedEvidenceProducers := ["e"]; prohibitedDirectWriters := ["p"]; projectionConsumers := []; closurePredicateId := "CP" |}.

(** The set comparison of [exactIds] counts: a repeated identifier hides a missing one. *)
Example repeated_id_hides_route :
  validateExposureParity [sample_operation] [sample_parity ["REST_ROUTE:a"; "REST_ROUTE:a"] ["UI_ACTION:create"]] = Ok tt
  /\ validateExposureParity [sample_operation] [sample_parity ["REST_ROUTE:a"] ["UI_ACTION:create"]] =
       Throw (JsError "EXPOSURE_PARITY_ID_BINDING_MISMATCH:OP-1").
Proof. split; vm_compute; reflexivity. Qed.

Lemma exposure_parity_total_witness :
  exists r, In r [sample_parity ["REST_ROUTE:a"; "REST_ROUTE:b"] ["UI_ACTION:create"]] /\ exposed r.
Proof.
  destruct (exposure_parity_total [sample_operation] [sample_parity ["REST_ROUTE:a"; "REST_ROUTE:b"] ["UI_ACTION:create"]] sample_operation)
    as (r & Hr & _ & _ & _ & He & _); [vm_compute; reflexivity|left; reflexivity|].
  exists r. split; [exact Hr|exact He].
Defined.
Lemma authority_unique_witness : exists a, authorityForOperation "OP-1" [sample_authority] = Ok a.
Proof.
  destruct (authority_unique [sample_operation] [sample_authority] [] sample_operation) as (a & Ha & _); [vm_compute; reflexivity|left; reflexivity|].
  exists a. exact Ha.
Defined.
