(* ===== verification/Schemas.v ===== *)
(** * Wire schemas

    The zod schemas of [packages/schemas/src/index.ts] as parsers from JSON: contexts, commands, results,
    the KCIP envelope and the inputs of the owner interface, with the coercion of bigints and the
    registry of browser actions.  A parser answers [None] where zod reports an issue; UUID and
    date-time checks are those of [Formats], the URL check is a parameter.  [paginationSchema], which
    coerces query text to a number, is left out. *)
From Stdlib Require Import Ascii String DecimalString DecimalZ.
From S2P Require Import Prelude Bytes Json Text Digest CanonicalValue IpcFrame IpcChannel IpcBroker ErrorRegistry.

(** ** Coercion of bigints: [BigInt(value)] *)

(** [StringToBigInt]: white space around, decimal digits with a sign, or a prefixed literal without one; the empty
    text is zero. *)
Definition StringToBigInt (s : string) : option Z :=
  match trim_chars (chars s) with
  | [] => Some 0
  | c1 :: c2 :: l =>
      if Ascii.eqb c1 "0" && (Ascii.eqb c2 "x" || Ascii.eqb c2 "X") then digits 16 l
      else if Ascii.eqb c1 "0" && (Ascii.eqb c2 "o" || Ascii.eqb c2 "O") then digits 8 l
      else if Ascii.eqb c1 "0" && (Ascii.eqb c2 "b" || Ascii.eqb c2 "B") then digits 2 l
      else if Ascii.eqb c1 "-" then Z.opp <$> digits 10 (c2 :: l)
      else if Ascii.eqb c1 "+" then digits 10 (c2 :: l)
      else digits 10 (c1 :: c2 :: l)
  | l => digits 10 l
  end.
(** [Array.prototype.toString] and its elements *)
Fixpoint to_text (j : json) : string :=
  match j with
  | JNull => "null"
  | JBool b => if b then "true" else "false"
  | JNum n => dec n
  | JStr s => s
  | JArr l => of_chars (join_commas (map (fun x => chars (match x with JNull => "" | _ => to_text x end)) l))
  | JObj _ => "[object Object]"
  end.
Definition to_bigint (j : json) : option Z :=
  match j with
  | JNull => None
  | JBool b => Some (if b then 1 else 0)
  | JNum n => Some n
  | JStr s => StringToBigInt s
  | JArr _ | JObj _ => StringToBigInt (to_text j)
  end.
(** [nonNegativeBigIntSchema] *)
Definition nonNegativeBigIntSchema (j : json) : option Z := z ← to_bigint j; if 0 <=? z then Some z else None.

(** ** Fields *)

Definition z_string (check : string -> bool) (j : json) : option string :=
  match j with JStr s => if check s then Some s else None | _ => None end.
Definition z_sized (lo hi : nat) : json -> option string :=
  z_string (fun s => (lo <=? String.length s)%nat && (String.length s <=? hi)%nat).
Definition z_min1 : json -> option string := z_string truthy.
Definition z_bool (j : json) : option bool := match j with JBool b => Some b | _ => None end.
Definition z_positive (j : json) : option Z := match j with JNum n => if 0 <? n then Some n else None | _ => None end.
Definition z_unknown (j : json) : option json := Some j.
Definition z_record (j : json) : option (list (string * json)) := match j with JObj l => Some l | _ => None end.
(** [z.enum] over the values of a type *)
Definition z_enum {A} (name : A -> string) (all : list A) (j : json) : option A :=
  match j with JStr s => List.find (fun a => String.eqb (name a) s) all | _ => None end.
Definition z_nullable {A} (p : json -> option A) (j : json) : option (option A) :=
  match j with JNull => Some None | _ => Some <$> p j end.
Fixpoint z_all {A} (p : json -> option A) (l : list json) : option (list A) :=
  match l with [] => Some [] | j :: l => a ← p j; k ← z_all p l; Some (a :: k) end.
Definition z_array {A} (max : nat) (p : json -> option A) (j : json) : option (list A) :=
  match j with JArr l => if (length l <=? max)%nat then z_all p l else None | _ => None end.
(** A member, a member with a default, and an optional member *)
Definition z_field {A} (l : list (string * json)) (k : string) (p : json -> option A) : option A := j ← get_prop k l; p j.
Definition z_default {A} (l : list (string * json)) (k : string) (p : json -> option A) (d : A) : option A :=
  match get_prop k l with Some j => p j | None => Some d end.
Definition z_optional {A} (l : list (string * json)) (k : string) (p : json -> option A) : option (option A) :=
  match get_prop k l with Some j => Some <$> p j | None => Some None end.
(** [z.object({...}).strict()]: an object without other members *)
Definition z_strict (keys : list string) (j : json) : option (list (string * json)) :=
  match j with JObj l => if forallb (fun kv => includes (fst kv) keys) l then Some l else None | _ => None end.

(** ** Values *)

Inductive AccessBinding :=
| OWNER_FULL
| CONTRACT (bindingId : string) (bindingRevision : Z) (bindingDigest : string)
| EXTERNAL (bindingId : string) (bindingRevision : Z) (bindingDigest : string).
Record context_source := { cs_componentId : option string; cs_revisionId : option string; cs_releaseId : string }.
Record context_target := { ct_componentId : string; ct_revisionId : string; ct_operation : string }.
Record ExecutionContext := {
  x_executionId : string; x_logicalOperationId : string; x_source : context_source; x_target : context_target;
  x_binding : AccessBinding; x_platformIncarnationId : string; x_applicationDeploymentEpoch : Z; x_activationEpoch : Z;
  x_bindingSetRevision : Z; x_runtimeGeneration : Z; x_recoveryEpoch : Z; x_deadlineAt : string; x_cancellationVersion : Z;
  x_correlationId : string; x_causationId : option string; x_digest : string;
}.
Record OperationCommand := {
  oc_operation : string; oc_targetId : option string; oc_arguments : list (string * json); oc_expectedStateVersion : option Z;
  oc_expectedActivationEpoch : option Z; oc_deadlineAt : option string;
}.
Record OperationMetadata := {
  om_correlationId : string; om_logicalOperationId : string; om_commandId : string; om_stateVersion : Z; om_eventSequence : Z;
  om_activationEpoch : Z; om_resultDigest : string; om_idempotencyReplay : bool; om_serverTime : string;
}.
Inductive operation_status := ACCEPTED | SUCCEEDED | FAILED_FINAL | CANCELLED_FINAL | MANUAL_REVIEW_STATUS.
Definition status_name (s : operation_status) : string :=
  match s with
  | ACCEPTED => "ACCEPTED" | SUCCEEDED => "SUCCEEDED" | FAILED_FINAL => "FAILED_FINAL" | CANCELLED_FINAL => "CANCELLED_FINAL"
  | MANUAL_REVIEW_STATUS => "MANUAL_REVIEW"
  end.
Definition statuses : list operation_status := [ACCEPTED; SUCCEEDED; FAILED_FINAL; CANCELLED_FINAL; MANUAL_REVIEW_STATUS].
Definition retry_directives : list string :=
  ["DO_NOT_RETRY"; "RETRY_SAME_OPERATION"; "REFRESH_AND_RETRY_NEW_COMMAND"; "RECONCILE_THEN_RETRY"; "MANUAL_REVIEW"].
Record operation_error := {
  oe_code : string; oe_message : string; oe_classification : string; oe_sideEffectPoint : string; oe_retryDirective : string;
  oe_recordDigest : string; oe_details : option json;
}.
Record OperationResult := { or_status : operation_status; or_metadata : OperationMetadata; or_result : option json; or_error : option operation_error }.
Inductive message_type := MSG_REQUEST | MSG_RESPONSE | MSG_EVENT | MSG_ACK | MSG_ERROR | MSG_CANCEL.
Definition message_name (m : message_type) : string :=
  match m with
  | MSG_REQUEST => "REQUEST" | MSG_RESPONSE => "RESPONSE" | MSG_EVENT => "EVENT" | MSG_ACK => "ACK" | MSG_ERROR => "ERROR" | MSG_CANCEL => "CANCEL"
  end.
Definition message_types : list message_type := [MSG_REQUEST; MSG_RESPONSE; MSG_EVENT; MSG_ACK; MSG_ERROR; MSG_CANCEL].
Record KcipEnvelope := {
  ke_messageId : string; ke_messageType : message_type; ke_operation : string; ke_correlationId : string; ke_causationId : option string;
  ke_idempotencyKey : option string; ke_sentAt : string; ke_deadlineAt : option string; ke_payloadSchemaDigest : string;
  ke_payloadDigest : string; ke_payload : option json;
}.
Record OwnerLogin := { ol_username : string; ol_password : string; ol_mfaContinuation : option string }.
Record MfaChallenge := { mc_challengeId : string; mc_code : string; mc_trustDevice : bool }.
Record SecretInput := { se_stableName : string; se_displayName : string; se_kind : string; se_value : string; se_metadata : list (string * json) }.
Record GenerationJobInput := {
  gi_mode : string; gi_objective : string; gi_targetObjectIds : list string; gi_sourceArtifactIds : list string; gi_model : option string;
}.
Record BrowserSessionInput := {
  bs_purpose : string; bs_targetUrl : string; bs_executionTarget : string; bs_accountBindingId : option string; bs_operationScope : list (string * json);
}.

(** ** Browser actions *)

Inductive BrowserActionName :=
| NAVIGATE | CLICK | FILL | TYPE | KEYBOARD | POINTER | TOUCH | UPLOAD | DOWNLOAD | DIALOG | PERMISSION | CHALLENGE | OBSERVE.
#[export] Instance browser_action_eq_dec : EqDecision BrowserActionName.
Proof. solve_decision. Defined.
Definition action_name (a : BrowserActionName) : string :=
  match a with
  | NAVIGATE => "NAVIGATE" | CLICK => "CLICK" | FILL => "FILL" | TYPE => "TYPE" | KEYBOARD => "KEYBOARD" | POINTER => "POINTER"
  | TOUCH => "TOUCH" | UPLOAD => "UPLOAD" | DOWNLOAD => "DOWNLOAD" | DIALOG => "DIALOG" | PERMISSION => "PERMISSION"
  | CHALLENGE => "CHALLENGE" | OBSERVE => "OBSERVE"
  end.
Definition browserActionNames : list BrowserActionName :=
  [NAVIGATE; CLICK; FILL; TYPE; KEYBOARD; POINTER; TOUCH; UPLOAD; DOWNLOAD; DIALOG; PERMISSION; CHALLENGE; OBSERVE].
Inductive target_rule := TARGET_REQUIRED | TARGET_FORBIDDEN | TARGET_OPTIONAL.
#[export] Instance target_rule_eq_dec : EqDecision target_rule.
Proof. solve_decision. Defined.
Inductive action_effect := READ_ONLY | NAVIGATION | POSSIBLE_MUTATION | ARTIFACT_TRANSFER | OWNER_CHALLENGE.
Record BrowserActionDescriptor := {
  bd_action : BrowserActionName; bd_target : target_rule; bd_effect : action_effect; requiredPayload : list string;
  independentPostcondition : bool;
}.
Definition describe (a : BrowserActionName) (t : target_rule) (e : action_effect) (p : list string) (post : bool) : BrowserActionDescriptor :=
  {| bd_action := a; bd_target := t; bd_effect := e; requiredPayload := p; independentPostcondition := post |}.
Definition browserActionRegistry (a : BrowserActionName) : BrowserActionDescriptor :=
  match a with
  | NAVIGATE => describe NAVIGATE TARGET_FORBIDDEN NAVIGATION ["url"] true
  | CLICK => describe CLICK TARGET_REQUIRED POSSIBLE_MUTATION [] true
  | FILL => describe FILL TARGET_REQUIRED POSSIBLE_MUTATION ["value"] true
  | TYPE => describe TYPE TARGET_REQUIRED POSSIBLE_MUTATION ["value"] true
  | KEYBOARD => describe KEYBOARD TARGET_OPTIONAL POSSIBLE_MUTATION ["key"] true
  | POINTER => describe POINTER TARGET_FORBIDDEN POSSIBLE_MUTATION ["x"; "y"] true
  | TOUCH => describe TOUCH TARGET_FORBIDDEN POSSIBLE_MUTATION ["x"; "y"] true
  | UPLOAD => describe UPLOAD TARGET_REQUIRED ARTIFACT_TRANSFER ["uploadHandleId"] true
  | DOWNLOAD => describe DOWNLOAD TARGET_REQUIRED ARTIFACT_TRANSFER [] true
  | DIALOG => describe DIALOG TARGET_FORBIDDEN OWNER_CHALLENGE ["response"] true
  | PERMISSION => describe PERMISSION TARGET_FORBIDDEN OWNER_CHALLENGE ["permission"] true
  | CHALLENGE => describe CHALLENGE TARGET_FORBIDDEN OWNER_CHALLENGE ["kind"] true
  | OBSERVE => describe OBSERVE TARGET_FORBIDDEN READ_ONLY [] false
  end.
(** [payload[key] === undefined || payload[key] === null] *)
Definition absent (payload : list (string * json)) (key : string) : bool :=
  match get_prop key payload with None | Some JNull => true | Some _ => false end.
Definition validateBrowserActionDescriptor (a : BrowserActionName) (targetReferenceId : option string) (payload : list (string * json))
    : result BrowserActionDescriptor :=
  let descriptor := browserActionRegistry a in
  let target := match targetReferenceId with Some t => truthy t | None => false end in
  _ ← throw_if (bool_decide (bd_target descriptor = TARGET_REQUIRED) && negb target) (JsError "BROWSER_TARGET_REQUIRED");
  _ ← throw_if (bool_decide (bd_target descriptor = TARGET_FORBIDDEN) && target) (JsError "BROWSER_TARGET_FORBIDDEN");
  _ ← for_each (fun key => throw_if (absent payload key) (JsError ("BROWSER_ACTION_PAYLOAD_REQUIRED:" +:+ key))) (requiredPayload descriptor);
  Ok descriptor.
Record BrowserActionInput := {
  ba_sessionId : string; ba_action : BrowserActionName; ba_targetReferenceId : option string; ba_payload : list (string * json);
  ba_expectedControlEpoch : Z; ba_expectedDocumentEpoch : Z; ba_expectedObservationRevision : Z;
}.

(** ** Schemas *)

Section Schemas.
Context `{F : Formats}.
Variable url_ok : string -> bool.

Definition z_uuid : json -> option string := z_string uuid_ok.
Definition z_digest : json -> option string := z_string digest_ok.
Definition is_datetime (s : string) : bool := is_some (datetime_ms s).
Definition z_datetime : json -> option string := z_string is_datetime.

Definition accessBindingSchema (j : json) : option AccessBinding :=
  match j with
  | JObj m =>
      match get_prop "kind" m with
      | Some (JStr k) =>
          if String.eqb k "OWNER_FULL" then _ ← z_strict ["kind"] j; Some OWNER_FULL
          else if String.eqb k "CONTRACT" || String.eqb k "EXTERNAL" then
            l ← z_strict ["kind"; "bindingId"; "bindingRevision"; "bindingDigest"] j;
            i ← z_field l "bindingId" z_uuid;
            r ← z_field l "bindingRevision" z_positive;
            d ← z_field l "bindingDigest" z_digest;
            Some (if String.eqb k "CONTRACT" then CONTRACT i r d else EXTERNAL i r d)
          else None
      | _ => None
      end
  | _ => None
  end.
Definition source_schema (j : json) : option context_source :=
  l ← z_strict ["componentId"; "revisionId"; "releaseId"] j;
  c ← z_field l "componentId" (z_nullable z_uuid);
  r ← z_field l "revisionId" (z_nullable z_uuid);
  x ← z_field l "releaseId" z_min1;
  Some {| cs_componentId := c; cs_revisionId := r; cs_releaseId := x |}.
Definition target_schema (j : json) : option context_target :=
  l ← z_strict ["componentId"; "revisionId"; "operation"] j;
  c ← z_field l "componentId" z_uuid;
  r ← z_field l "revisionId" z_uuid;
  o ← z_field l "operation" z_min1;
  Some {| ct_componentId := c; ct_revisionId := r; ct_operation := o |}.
Definition context_keys : list string :=
  ["executionId"; "logicalOperationId"; "source"; "target"; "binding"; "platformIncarnationId"; "applicationDeploymentEpoch"; "activationEpoch";
   "bindingSetRevision"; "runtimeGeneration"; "recoveryEpoch"; "deadlineAt"; "cancellationVersion"; "correlationId"; "causationId"; "digest"].
Definition executionContextSchema (j : json) : option ExecutionContext :=
  l ← z_strict context_keys j;
  executionId ← z_field l "executionId" z_uuid;
  logicalOperationId ← z_field l "logicalOperationId" z_uuid;
  source ← z_field l "source" source_schema;
  target ← z_field l "target" target_schema;
  binding ← z_field l "binding" accessBindingSchema;
  platformIncarnationId ← z_field l "platformIncarnationId" z_uuid;
  applicationDeploymentEpoch ← z_field l "applicationDeploymentEpoch" nonNegativeBigIntSchema;
  activationEpoch ← z_field l "activationEpoch" nonNegativeBigIntSchema;
  bindingSetRevision ← z_field l "bindingSetRevision" nonNegativeBigIntSchema;
  runtimeGeneration ← z_field l "runtimeGeneration" nonNegativeBigIntSchema;
  recoveryEpoch ← z_field l "recoveryEpoch" nonNegativeBigIntSchema;
  deadlineAt ← z_field l "deadlineAt" z_datetime;
  cancellationVersion ← z_field l "cancellationVersion" nonNegativeBigIntSchema;
  correlationId ← z_field l "correlationId" z_uuid;
  causationId ← z_field l "causationId" (z_nullable z_uuid);
  digest ← z_field l "digest" z_digest;
  Some {| x_executionId := executionId; x_logicalOperationId := logicalOperationId; x_source := source; x_target := target;
          x_binding := binding; x_platformIncarnationId := platformIncarnationId;
          x_applicationDeploymentEpoch := applicationDeploymentEpoch; x_activationEpoch := activationEpoch;
          x_bindingSetRevision := bindingSetRevision; x_runtimeGeneration := runtimeGeneration; x_recoveryEpoch := recoveryEpoch;
          x_deadlineAt := deadlineAt; x_cancellationVersion := cancellationVersion; x_correlationId := correlationId;
          x_causationId := causationId; x_digest := digest |}.
Definition operationCommandSchema (j : json) : option OperationCommand :=
  l ← z_strict ["operation"; "targetId"; "arguments"; "expectedStateVersion"; "expectedActivationEpoch"; "deadlineAt"] j;
  operation ← z_field l "operation" z_min1;
  targetId ← z_default l "targetId" (z_nullable z_uuid) None;
  arguments ← z_default l "arguments" z_record [];
  expectedStateVersion ← z_default l "expectedStateVersion" (z_nullable nonNegativeBigIntSchema) None;
  expectedActivationEpoch ← z_default l "expectedActivationEpoch" (z_nullable nonNegativeBigIntSchema) None;
  deadlineAt ← z_default l "deadlineAt" (z_nullable z_datetime) None;
  Some {| oc_operation := operation; oc_targetId := targetId; oc_arguments := arguments; oc_expectedStateVersion := expectedStateVersion;
          oc_expectedActivationEpoch := expectedActivationEpoch; oc_deadlineAt := deadlineAt |}.
Definition operationMetadataSchema (j : json) : option OperationMetadata :=
  l ← z_strict ["correlationId"; "logicalOperationId"; "commandId"; "stateVersion"; "eventSequence"; "activationEpoch"; "resultDigest";
                "idempotencyReplay"; "serverTime"] j;
  correlationId ← z_field l "correlationId" z_uuid;
  logicalOperationId ← z_field l "logicalOperationId" z_uuid;
  commandId ← z_field l "commandId" z_uuid;
  stateVersion ← z_field l "stateVersion" nonNegativeBigIntSchema;
  eventSequence ← z_field l "eventSequence" nonNegativeBigIntSchema;
  activationEpoch ← z_field l "activationEpoch" nonNegativeBigIntSchema;
  resultDigest ← z_field l "resultDigest" z_digest;
  idempotencyReplay ← z_field l "idempotencyReplay" z_bool;
  serverTime ← z_field l "serverTime" z_datetime;
  Some {| om_correlationId := correlationId; om_logicalOperationId := logicalOperationId; om_commandId := commandId;
          om_stateVersion := stateVersion; om_eventSequence := eventSequence; om_activationEpoch := activationEpoch;
          om_resultDigest := resultDigest; om_idempotencyReplay := idempotencyReplay; om_serverTime := serverTime |}.
Definition error_schema (j : json) : option operation_error :=
  l ← z_strict ["code"; "message"; "classification"; "sideEffectPoint"; "retryDirective"; "recordDigest"; "details"] j;
  code ← z_field l "code" (z_string (fun _ => true));
  message ← z_field l "message" (z_string (fun _ => true));
  classification ← z_field l "classification" (z_string (fun _ => true));
  sideEffectPoint ← z_field l "sideEffectPoint" (z_string (fun _ => true));
  retryDirective ← z_field l "retryDirective" (z_enum id retry_directives);
  recordDigest ← z_field l "recordDigest" z_digest;
  Some {| oe_code := code; oe_message := message; oe_classification := classification; oe_sideEffectPoint := sideEffectPoint;
          oe_retryDirective := retryDirective; oe_recordDigest := recordDigest; oe_details := get_prop "details" l |}.
Definition operationResultSchema (j : json) : option OperationResult :=
  l ← z_strict ["status"; "metadata"; "result"; "error"] j;
  status ← z_field l "status" (z_enum status_name statuses);
  metadata ← z_field l "metadata" operationMetadataSchema;
  error ← z_field l "error" (z_nullable error_schema);
  Some {| or_status := status; or_metadata := metadata; or_result := get_prop "result" l; or_error := error |}.
Definition envelope_keys : list string :=
  ["kcip"; "messageId"; "messageType"; "operation"; "correlationId"; "causationId"; "idempotencyKey"; "sentAt"; "deadlineAt";
   "payloadSchemaDigest"; "payloadDigest"; "payload"].
Definition kcipEnvelopeSchema (j : json) : option KcipEnvelope :=
  l ← z_strict envelope_keys j;
  _ ← z_field l "kcip" (z_string (String.eqb "KCIP/1.0"));
  messageId ← z_field l "messageId" z_uuid;
  messageType ← z_field l "messageType" (z_enum message_name message_types);
  operation ← z_field l "operation" z_min1;
  correlationId ← z_field l "correlationId" z_uuid;
  causationId ← z_field l "causationId" (z_nullable z_uuid);
  idempotencyKey ← z_field l "idempotencyKey" (z_nullable (z_sized 1 256));
  sentAt ← z_field l "sentAt" z_datetime;
  deadlineAt ← z_field l "deadlineAt" (z_nullable z_datetime);
  payloadSchemaDigest ← z_field l "payloadSchemaDigest" z_digest;
  payloadDigest ← z_field l "payloadDigest" z_digest;
  Some {| ke_messageId := messageId; ke_messageType := messageType; ke_operation := operation; ke_correlationId := correlationId;
          ke_causationId := causationId; ke_idempotencyKey := idempotencyKey; ke_sentAt := sentAt; ke_deadlineAt := deadlineAt;
          ke_payloadSchemaDigest := payloadSchemaDigest; ke_payloadDigest := payloadDigest; ke_payload := get_prop "payload" l |}.
Definition ownerLoginSchema (j : json) : option OwnerLogin :=
  l ← z_strict ["username"; "password"; "mfaContinuation"] j;
  username ← z_field l "username" (z_sized 1 128);
  password ← z_field l "password" (z_sized 1 4096);
  mfaContinuation ← z_optional l "mfaContinuation" (z_sized 1 4096);
  Some {| ol_username := username; ol_password := password; ol_mfaContinuation := mfaContinuation |}.
(** [/^\d{6}$|^[A-Z0-9-]{8,64}$/u] *)
Definition mfa_code (s : string) : bool :=
  (String.length s =? 6)%nat && str_forallb is_digit s
  || ((8 <=? String.length s)%nat && (String.length s <=? 64)%nat
      && str_forallb (fun c => is_upper c || is_digit c || Ascii.eqb c "-") s).
Definition mfaChallengeSchema (j : json) : option MfaChallenge :=
  l ← z_strict ["challengeId"; "code"; "trustDevice"] j;
  challengeId ← z_field l "challengeId" z_uuid;
  c ← z_field l "code" (z_string mfa_code);
  trustDevice ← z_default l "trustDevice" z_bool false;
  Some {| mc_challengeId := challengeId; mc_code := c; mc_trustDevice := trustDevice |}.
(** [/^[A-Z][A-Z0-9_]{1,127}$/u] *)
Definition stable_name (s : string) : bool :=
  match chars s with
  | c :: l => is_upper c && (1 <=? length l)%nat && (length l <=? 127)%nat && forallb (fun c => is_upper c || is_digit c || Ascii.eqb c "_") l
  | [] => false
  end.
Definition secretInputSchema (j : json) : option SecretInput :=
  l ← z_strict ["stableName"; "displayName"; "kind"; "value"; "metadata"] j;
  stableName ← z_field l "stableName" (z_string stable_name);
  displayName ← z_field l "displayName" (z_sized 1 200);
  kind ← z_field l "kind" (z_enum id ["PASSWORD"; "API_KEY"; "TOKEN"; "TOTP"; "CERTIFICATE"; "PRIVATE_KEY"; "OPAQUE"]);
  value ← z_field l "value" (z_string (fun s => truthy s && (Z.of_nat (String.length s) <=? 1048576)));
  metadata ← z_default l "metadata" z_record [];
  Some {| se_stableName := stableName; se_displayName := displayName; se_kind := kind; se_value := value; se_metadata := metadata |}.
Definition generationJobInputSchema (j : json) : option GenerationJobInput :=
  l ← z_strict ["mode"; "objective"; "targetObjectIds"; "sourceArtifactIds"; "model"] j;
  mode ← z_field l "mode" (z_enum id ["CREATE"; "UPDATE"; "FOLLOW_UP"; "RETRY"; "REPAIR"]);
  objective ← z_field l "objective" (z_string (fun s => truthy s && (Z.of_nat (String.length s) <=? 200000)));
  targetObjectIds ← z_default l "targetObjectIds" (z_array 256 z_uuid) [];
  sourceArtifactIds ← z_default l "sourceArtifactIds" (z_array 256 z_uuid) [];
  model ← z_default l "model" (z_nullable (z_sized 1 128)) None;
  Some {| gi_mode := mode; gi_objective := objective; gi_targetObjectIds := targetObjectIds; gi_sourceArtifactIds := sourceArtifactIds;
          gi_model := model |}.
Definition browserSessionInputSchema (j : json) : option BrowserSessionInput :=
  l ← z_strict ["purpose"; "targetUrl"; "executionTarget"; "accountBindingId"; "operationScope"] j;
  purpose ← z_field l "purpose" (z_sized 1 500);
  targetUrl ← z_field l "targetUrl" (z_string url_ok);
  executionTarget ← z_field l "executionTarget" (z_enum id ["SERVER_MANAGED"; "OWNER_DEVICE_BRIDGE"]);
  accountBindingId ← z_default l "accountBindingId" (z_nullable z_uuid) None;
  operationScope ← z_default l "operationScope" z_record [];
  Some {| bs_purpose := purpose; bs_targetUrl := targetUrl; bs_executionTarget := executionTarget; bs_accountBindingId := accountBindingId;
          bs_operationScope := operationScope |}.
Definition browserActionInputSchema (j : json) : option BrowserActionInput :=
  l ← z_strict ["sessionId"; "action"; "targetReferenceId"; "payload"; "expectedControlEpoch"; "expectedDocumentEpoch"; "expectedObservationRevision"] j;
  sessionId ← z_field l "sessionId" z_uuid;
  action ← z_field l "action" (z_enum action_name browserActionNames);
  targetReferenceId ← z_default l "targetReferenceId" (z_nullable z_uuid) None;
  payload ← z_default l "payload" z_record [];
  expectedControlEpoch ← z_field l "expectedControlEpoch" nonNegativeBigIntSchema;
  expectedDocumentEpoch ← z_field l "expectedDocumentEpoch" nonNegativeBigIntSchema;
  expectedObservationRevision ← z_field l "expectedObservationRevision" nonNegativeBigIntSchema;
  Some {| ba_sessionId := sessionId; ba_action := action; ba_targetReferenceId := targetReferenceId; ba_payload := payload;
          ba_expectedControlEpoch := expectedControlEpoch; ba_expectedDocumentEpoch := expectedDocumentEpoch;
          ba_expectedObservationRevision := expectedObservationRevision |}.
End Schemas.

(** ** Theory *)

(** *** Decimal bigints *)

Lemma is_digit_not c d : is_digit c = true -> is_digit d = false -> Ascii.eqb c d = false.
Proof. intros Hc Hd. destruct (Ascii.eqb_spec c d); congruence. Qed.
Lemma drop_spaces_digits l : forallb is_digit l = true -> drop_spaces l = l.
Proof.
  destruct l as [|c l]; cbn [drop_spaces forallb]; [done|]. intros [Hc _]%andb_true_iff. destruct (js_space c) eqn:E; [|done]. exfalso.
  unfold js_space in E. apply existsb_exists in E as (x & Hx & E). unfold is_digit, in_range in Hc. reflect_bools.
  change (code "0") with 48 in *. change (code "9") with 57 in *. cbn in Hx. intuition lia.
Qed.
Lemma trim_digits l : forallb is_digit l = true -> trim_chars l = l.
Proof.
  intros Hl. unfold trim_chars. rewrite (drop_spaces_digits l Hl).
  rewrite drop_spaces_digits by (rewrite forallb_forall in *; intros x Hx; by apply Hl, in_rev). apply rev_involutive.
Qed.
Lemma StringToBigInt_digits s : str_forallb is_digit s = true -> StringToBigInt s = match chars s with [] => Some 0 | _ => digits 10 (chars s) end.
Proof.
  unfold str_forallb, StringToBigInt. intros Hs. rewrite (trim_digits _ Hs). destruct (chars s) as [|c1 [|c2 l]]; [done..|].
  cbn [forallb] in Hs. reflect_bools.
  rewrite (is_digit_not c1 "-"), (is_digit_not c1 "+"), !(is_digit_not c2) by done. cbn. by rewrite !andb_false_r.
Qed.
Lemma StringToBigInt_dec z : 0 <= z -> StringToBigInt (dec z) = Some z.
Proof.
  intros Hz. pose proof (DecimalZ.of_to z) as E. unfold dec. destruct (Z.to_int z) as [d|d] eqn:Ez.
  2: { destruct z; cbn in Ez; first [discriminate | lia]. }
  cbn [NilZero.string_of_int]. rewrite StringToBigInt_digits by apply zero_uint_chars.
  cbn in E. unfold Z.of_uint in E. destruct d; [by rewrite <- E|..]; rewrite <- E;
    match goal with |- context [NilZero.string_of_uint ?d] => exact (digits_value_uint0 d) end.
Qed.

(** *** Parsing is stable under re-encoding *)

(** What [p] accepts it accepts again, with the same value, in the encoding of the value. *)
Definition stable {A} (p : json -> option A) (enc : A -> json) : Prop := forall j a, p j = Some a -> p (enc a) = Some a.
Definition enc_option {A} (enc : A -> json) (o : option A) : json := match o with Some a => enc a | None => JNull end.
Definition enc_bigint (z : Z) : json := JStr (dec z).

Lemma stable_string check : stable (z_string check) JStr.
Proof. intros j s. destruct j; try discriminate. cbn. destruct (check s0) eqn:E; [|done]. intros [= ->]. by rewrite E. Qed.
Lemma stable_bool : stable z_bool JBool.
Proof. by intros j b. Qed.
Lemma stable_positive : stable z_positive JNum.
Proof. intros j n. destruct j; try discriminate. cbn. destruct (0 <? z) eqn:E; [|done]. intros [= ->]. by rewrite E. Qed.
Lemma stable_bigint : stable nonNegativeBigIntSchema enc_bigint.
Proof.
  intros j z. unfold nonNegativeBigIntSchema. intros (x & _ & E)%bind_Some. destruct (0 <=? x) eqn:Hx; [|done]. injection E as ->.
  cbn. rewrite StringToBigInt_dec by lia. cbn. by rewrite Hx.
Qed.
Lemma stable_enum {A} (name : A -> string) all :
  NoDup (map name all) -> stable (z_enum name all) (fun a => JStr (name a)).
Proof.
  intros Hn j a. destruct j; try discriminate. cbn. intros [Ha E]%find_some. reflect_bools. clear E.
  destruct (List.find _ all) as [b|] eqn:Hb.
  - apply find_some in Hb as [Hb E]. reflect_bools. f_equal. by eapply NoDup_map_unique.
  - eapply find_none in Hb; [|exact Ha]. by rewrite String.eqb_refl in Hb.
Qed.
Lemma stable_nullable {A} (p : json -> option A) enc :
  stable p enc -> (forall a, enc a <> JNull) -> stable (z_nullable p) (enc_option enc).
Proof.
  intros S N j o E. destruct o as [a|]; [|done]. cbn.
  assert (Ha : exists k, p k = Some a).
  { destruct j; cbn in E; try discriminate; apply fmap_Some in E as (x & E & [= ->]); eauto. }
  destruct Ha as [k Hk]. apply S in Hk. pose proof (N a). unfold z_nullable. destruct (enc a); [done|..]; by rewrite Hk.
Qed.

(** The encodings, in the order of the schemas *)
Definition binding_json (b : AccessBinding) : json :=
  match b with
  | OWNER_FULL => JObj [("kind", JStr "OWNER_FULL")]
  | CONTRACT i r d => JObj [("kind", JStr "CONTRACT"); ("bindingId", JStr i); ("bindingRevision", JNum r); ("bindingDigest", JStr d)]
  | EXTERNAL i r d => JObj [("kind", JStr "EXTERNAL"); ("bindingId", JStr i); ("bindingRevision", JNum r); ("bindingDigest", JStr d)]
  end.
Definition source_json (s : context_source) : json :=
  JObj [("componentId", enc_option JStr (cs_componentId s)); ("revisionId", enc_option JStr (cs_revisionId s)); ("releaseId", JStr (cs_releaseId s))].
Definition target_json (t : context_target) : json :=
  JObj [("componentId", JStr (ct_componentId t)); ("revisionId", JStr (ct_revisionId t)); ("operation", JStr (ct_operation t))].
Definition context_json (c : ExecutionContext) : json :=
  JObj [("executionId", JStr (x_executionId c)); ("logicalOperationId", JStr (x_logicalOperationId c)); ("source", source_json (x_source c));
        ("target", target_json (x_target c)); ("binding", binding_json (x_binding c));
        ("platformIncarnationId", JStr (x_platformIncarnationId c));
        ("applicationDeploymentEpoch", enc_bigint (x_applicationDeploymentEpoch c)); ("activationEpoch", enc_bigint (x_activationEpoch c));
        ("bindingSetRevision", enc_bigint (x_bindingSetRevision c)); ("runtimeGeneration", enc_bigint (x_runtimeGeneration c));
        ("recoveryEpoch", enc_bigint (x_recoveryEpoch c)); ("deadlineAt", JStr (x_deadlineAt c));
        ("cancellationVersion", enc_bigint (x_cancellationVersion c)); ("correlationId", JStr (x_correlationId c));
        ("causationId", enc_option JStr (x_causationId c)); ("digest", JStr (x_digest c))].
Definition envelope_json (e : KcipEnvelope) : json :=
  JObj ([("kcip", JStr "KCIP/1.0"); ("messageId", JStr (ke_messageId e)); ("messageType", JStr (message_name (ke_messageType e)));
         ("operation", JStr (ke_operation e)); ("correlationId", JStr (ke_correlationId e)); ("causationId", enc_option JStr (ke_causationId e));
         ("idempotencyKey", enc_option JStr (ke_idempotencyKey e)); ("sentAt", JStr (ke_sentAt e)); ("deadlineAt", enc_option JStr (ke_deadlineAt e));
         ("payloadSchemaDigest", JStr (ke_payloadSchemaDigest e)); ("payloadDigest", JStr (ke_payloadDigest e))]
        ++ match ke_payload e with Some p => [("payload", p)] | None => [] end).

(** [fields] inverts an accepted object into its accepted members. *)
Ltac fields :=
  repeat match goal with
  | E : (_ ≫= _) = Some _ |- _ => let v := fresh "v" in let Hv := fresh "Hv" in apply bind_Some in E as (v & Hv & E)
  end;
  repeat match goal with
  | E : z_field _ _ _ = Some _ |- _ => let v := fresh "v" in let Hv := fresh "Hv" in apply bind_Some in E as (v & Hv & E)
  end.

Section Stable.
Context `{F : Formats}.
Lemma str_not_null (s : string) : JStr s <> JNull.
Proof. done. Qed.

Lemma stable_binding : stable accessBindingSchema binding_json.
Proof.
  intros j b. unfold accessBindingSchema at 1. destruct j as [| | | | |m]; try done.
  destruct (get_prop "kind" m) as [[| | |k| |]|]; try done.
  destruct (String.eqb k "OWNER_FULL").
  { destruct (z_strict ["kind"] (JObj m)); [|done]. by intros [= <-]. }
  destruct (String.eqb k "CONTRACT" || String.eqb k "EXTERNAL"); [|done]. intros E. fields. injection E as <-.
  match goal with H : z_uuid _ = Some _ |- _ => apply (stable_string uuid_ok) in H; rename H into H1 end.
  match goal with H : z_positive _ = Some _ |- _ => apply stable_positive in H; rename H into H2 end.
  match goal with H : z_digest _ = Some _ |- _ => apply (stable_string digest_ok) in H; rename H into H3 end.
  destruct (String.eqb k "CONTRACT"); unfold binding_json, accessBindingSchema, z_field, z_uuid, z_digest;
    cbn -[z_string z_positive]; by rewrite H1; cbn -[z_string z_positive]; rewrite H2; cbn -[z_string]; rewrite H3.
Qed.
Lemma field_again {A} l k (p : json -> option A) v a : get_prop k l = Some v -> p v = Some a -> z_field l k p = Some a.
Proof. intros Hv Ha. unfold z_field. by rewrite Hv. Qed.
Lemma stable_source : stable source_schema source_json.
Proof.
  intros j s E. unfold source_schema in E. fields. injection E as <-. unfold source_json; cbn [cs_componentId cs_revisionId cs_releaseId].
  unfold source_schema. apply bind_Some; eexists; split; [reflexivity|].
  do 2 (apply bind_Some; eexists; split;
    [eapply field_again; [reflexivity|]; eapply (stable_nullable _ JStr (stable_string _) str_not_null); eassumption|]).
  apply bind_Some; eexists; split; [eapply field_again; [reflexivity|]; eapply stable_string; eassumption|]. reflexivity.
Qed.
Lemma stable_target : stable target_schema target_json.
Proof.
  intros j s E. unfold target_schema in E. fields. injection E as <-. unfold target_json; cbn [ct_componentId ct_revisionId ct_operation].
  unfold target_schema. apply bind_Some; eexists; split; [reflexivity|].
  do 3 (apply bind_Some; eexists; split; [eapply field_again; [reflexivity|]; eapply stable_string; eassumption|]). reflexivity.
Qed.
(** [read_again] reads the members of an encoding one by one. *)
Ltac read_member :=
  eapply field_again; [reflexivity|];
  first [ eapply stable_string; eassumption | eapply stable_bigint; eassumption | eapply stable_source; eassumption
        | eapply stable_target; eassumption | eapply stable_binding; eassumption
        | eapply (stable_nullable _ JStr (stable_string _) str_not_null); eassumption ].
Lemma stable_context : stable executionContextSchema context_json.
Proof.
  intros j c E. unfold executionContextSchema in E. fields. injection E as <-.
  unfold executionContextSchema. apply bind_Some; eexists; split; [reflexivity|].
  do 16 (apply bind_Some; eexists; split; [read_member|]). reflexivity.
Qed.
Lemma stable_envelope : stable kcipEnvelopeSchema envelope_json.
Proof.
  intros j e E. unfold kcipEnvelopeSchema in E. fields. injection E as <-.
  match goal with |- context [get_prop "payload" ?l] => generalize (get_prop "payload" l) as o end. intros o.
  unfold kcipEnvelopeSchema.
  apply bind_Some; eexists; split; [destruct o; reflexivity|].
  apply bind_Some; eexists; split; [reflexivity|].
  apply bind_Some; eexists; split; [read_member|].
  apply bind_Some; eexists; split.
  { eapply field_again; [reflexivity|]. eapply (stable_enum message_name message_types); [|eassumption].
    apply (bool_decide_unpack _). vm_compute. exact I. }
  do 8 (apply bind_Some; eexists; split; [read_member|]). by destruct o.
Qed.
End Stable.

(** *** Transport *)

Lemma get_prop_In {A} k (v : A) l : get_prop k l = Some v -> In (k, v) l.
Proof. induction l as [|[k' v'] l IH]; cbn; [done|]. destruct (String.eqb_spec k k') as [->|]; [intros [= ->]; by left|by right; auto]. Qed.
Lemma wf_member l k v : wf_json (JObj l) = true -> get_prop k l = Some v -> wf_json v = true.
Proof.
  cbn. intros Hw Hk. reflect_bools. match goal with H : forallb _ _ = true |- _ => rewrite forallb_forall in H; exact (H _ (get_prop_In _ _ _ Hk)) end.
Qed.
(** An accepted strict object is the value itself. *)
Lemma strict_object keys j l : z_strict keys j = Some l -> j = JObj l.
Proof. destruct j; try discriminate. cbn. destruct (forallb _ _); [|done]. by intros [= ->]. Qed.
Lemma field_wf keys j l k v : wf_json j = true -> z_strict keys j = Some l -> get_prop k l = Some v -> wf_json v = true.
Proof. intros Hw ->%strict_object Hv. by eapply wf_member. Qed.
Lemma wf_enc_option o : wf_json (enc_option JStr o) = true.
Proof. by destruct o. Qed.

Section Transport.
Context `{F : Formats}.

Lemma positive_safe j n : z_positive j = Some n -> wf_json j = true -> safe_int n = true.
Proof. destruct j as [| |z| | |]; try discriminate. cbn. destruct (0 <? z); [|done]. by intros [= ->]. Qed.
Lemma binding_wf j b : wf_json j = true -> accessBindingSchema j = Some b -> wf_json (binding_json b) = true.
Proof.
  intros Hw. unfold accessBindingSchema. destruct j as [| | | | |m]; try done. destruct (get_prop "kind" m) as [[| | |k| |]|]; try done.
  destruct (String.eqb k "OWNER_FULL"); [destruct (z_strict _ _); [|done]; by intros [= <-]|].
  destruct (String.eqb k "CONTRACT" || String.eqb k "EXTERNAL"); [|done]. intros E. fields. injection E as <-.
  match goal with H : z_positive _ = Some _ |- _ => apply positive_safe in H as Hs end.
  - destruct (String.eqb k "CONTRACT"); cbn; by rewrite Hs.
  - by eapply field_wf.
Qed.
Lemma context_wf j c : wf_json j = true -> executionContextSchema j = Some c -> wf_json (context_json c) = true.
Proof.
  intros Hw E. unfold executionContextSchema in E. fields. injection E as <-.
  assert (Hb : wf_json (binding_json v4) = true).
  { eapply binding_wf; [|eassumption]. by eapply field_wf. }
  cbn -[binding_json enc_option enc_bigint]. rewrite Hb, !wf_enc_option. cbn. reflexivity.
Qed.

(** Execution contexts survive transport.  Whatever JSON value is accepted as an execution context (its
    epochs given as numbers, decimal, hexadecimal or padded text), the context that was read can be written
    out with its epochs in decimal, printed, parsed and read again, and it is the same context: reading normalises
    once and for all. *)
Theorem execution_context_round_trip j c :
  wf_json j = true -> executionContextSchema j = Some c ->
  JSON_parse (of_chars (print_chars (context_json c))) ≫= executionContextSchema = Some c.
Proof.
  intros Hw E. unfold JSON_parse. rewrite chars_of_chars, JSON_parse_print by (by eapply context_wf). cbn. by eapply stable_context.
Qed.
End Transport.

(** ** Samples *)

Definition sample_digest : string := "sha256:" +:+ of_chars (repeat "a"%char 64).
Definition sample_context : json :=
  JObj [("executionId", JStr uuid_a); ("logicalOperationId", JStr uuid_b);
        ("source", JObj [("componentId", JNull); ("revisionId", JNull); ("releaseId", JStr "r1")]);
        ("target", JObj [("componentId", JStr uuid_a); ("revisionId", JStr uuid_b); ("operation", JStr "run")]);
        ("binding", JObj [("kind", JStr "CONTRACT"); ("bindingId", JStr uuid_a); ("bindingRevision", JNum 3); ("bindingDigest", JStr sample_digest)]);
        ("platformIncarnationId", JStr uuid_a); ("applicationDeploymentEpoch", JNum 7); ("activationEpoch", JStr "0x1F");
        ("bindingSetRevision", JStr " 12 "); ("runtimeGeneration", JStr ""); ("recoveryEpoch", JBool true); ("deadlineAt", JStr "1000");
        ("cancellationVersion", JArr [JStr "5"]); ("correlationId", JStr uuid_b); ("causationId", JNull); ("digest", JStr sample_digest)].
(** Epochs are coerced from numbers, text, booleans and even arrays. *)
Example sample_epochs :
  (fun c => (x_applicationDeploymentEpoch c, x_activationEpoch c, x_bindingSetRevision c, x_runtimeGeneration c, x_recoveryEpoch c,
             x_cancellationVersion c)) <$> @executionContextSchema toy_formats sample_context = Some (7, 31, 12, 0, 1, 5).
Proof. vm_compute. reflexivity. Qed.
Example bigint_texts :
  map StringToBigInt ["-3"; "+4"; "0b101"; "1e3"; "1.0"; "0x"; "-0x1"; "  "] = [Some (-3); Some 4; Some 5; None; None; None; None; Some 0].
Proof. vm_compute. reflexivity. Qed.

Lemma execution_context_round_trip_witness :
  exists c, @executionContextSchema toy_formats sample_context = Some c
    /\ JSON_parse (of_chars (print_chars (context_json c))) ≫= @executionContextSchema toy_formats = Some c.
Proof.
  destruct (@executionContextSchema toy_formats sample_context) as [c|] eqn:E; [|vm_compute in E; discriminate].
  exists c. split; [reflexivity|]. apply (@execution_context_round_trip toy_formats sample_context c); [vm_compute; reflexivity|exact E].
Defined.
