(* ===== verification/Kcip.v ===== *)
(** * KCIP envelopes

    [packages/kcip/src/index.ts]: canonical errors, the creation and verification of envelopes, and the
    sequence guard.  The loaded error registry is an argument; message identifiers and the clock
    are arguments. *)
From Stdlib Require Import Ascii String.
From S2P Require Import Prelude Bytes Json Digest CanonicalValue IpcFrame IpcChannel IpcBroker ErrorRegistry Schemas.

(** ** Errors *)

Abbreviation registry := (gmap string StableErrorRecord).

Record KcipError := { ke_code : string; ke_message : string; ke_details : json; ke_canonical : CanonicalErrorView }.
Definition new_KcipError (reg : registry) (code message : string) (details : json) : result KcipError :=
  v ← canonicalErrorView reg code UNKNOWN;
  Ok {| ke_code := code; ke_message := message; ke_details := details; ke_canonical := v |}.
(** [throw new KcipError(...)] *)
Definition kcip_throw {A} (reg : registry) (code message : string) : result A :=
  e ← new_KcipError reg code message JNull; Throw (KcipErr (ke_code e) (ke_message e)).

(** What [catch] receives: a [KcipError], another [Error] with its message, or a value with its text *)
Inductive caught := CaughtKcip (e : KcipError) | CaughtError (message : string) | CaughtValue (text : string).
Definition INTERNAL : string := "KCIP_INTERNAL_FAILURE".
Definition caught_text (c : caught) : string := match c with CaughtKcip e => ke_message e | CaughtError m => m | CaughtValue t => t end.
(** [message.startsWith('KCIP_') ? message.split(':', 1)[0] : INTERNAL] *)
Definition caught_code (c : caught) : string :=
  match c with
  | CaughtError m => if starts_with "KCIP_" m then default "" (List.head (split_on ":"%char m)) else INTERNAL
  | _ => INTERNAL
  end.
Definition toKcipError (reg : registry) (c : caught) : result KcipError :=
  match c with
  | CaughtKcip e => Ok e
  | _ =>
      match new_KcipError reg (caught_code c) (caught_text c) JNull with
      | Ok e => Ok e
      | Throw _ => new_KcipError reg INTERNAL (caught_text c) JNull
      end
  end.
Record error_payload := { ep_code : string; ep_classification : string; ep_retryDirective : option string; ep_recordDigest : string; ep_details : json }.
Definition kcipErrorPayload (reg : registry) (c : caught) : result error_payload :=
  e ← toKcipError reg c;
  let v := ke_canonical e in
  Ok {| ep_code := ev_code v; ep_classification := classification (ev_record v); ep_retryDirective := ev_retryDirective v;
        ep_recordDigest := recordDigest (ev_record v); ep_details := ke_details e |}.

(** ** Envelopes *)

(** The input of [createKcipEnvelope]: the members it does not fill in *)
Record envelope_input := {
  in_messageType : message_type; in_operation : string; in_correlationId : string; in_causationId : option string;
  in_idempotencyKey : option string; in_deadlineAt : option string; in_payloadSchemaDigest : string; in_payload : option json;
}.

Section Kcip.
Context `{L : Locale} `{H : Hash} `{F : Formats}.

(** [canonicalDigest(undefined)]: the hash refuses the argument. *)
Definition payload_digest (p : option json) : result string :=
  p ← or_throw p (JsError "ERR_INVALID_ARG_TYPE"); Ok (canonicalDigest p).
Definition createKcipEnvelope (i : envelope_input) (messageId : string) (now : Z) : result KcipEnvelope :=
  d ← payload_digest (in_payload i);
  or_throw (kcipEnvelopeSchema (envelope_json
    {| ke_messageId := messageId; ke_messageType := in_messageType i; ke_operation := in_operation i;
       ke_correlationId := in_correlationId i; ke_causationId := in_causationId i; ke_idempotencyKey := in_idempotencyKey i;
       ke_sentAt := iso_string now; ke_deadlineAt := in_deadlineAt i; ke_payloadSchemaDigest := in_payloadSchemaDigest i;
       ke_payloadDigest := d; ke_payload := in_payload i |})) ZodError.
(** [envelope.deadlineAt && new Date(envelope.deadlineAt) <= now] *)
Definition expired (deadline : option string) (now : Z) : bool :=
  match deadline with
  | Some s => truthy s && match datetime_ms s with Some t => t <=? now | None => false end
  | None => false
  end.
Definition verifyKcipEnvelope (reg : registry) (value : json) (now : Z) : result KcipEnvelope :=
  e ← or_throw (kcipEnvelopeSchema value) ZodError;
  d ← payload_digest (ke_payload e);
  if negb (String.eqb d (ke_payloadDigest e))
  then kcip_throw reg "KCIP_MALFORMED_ENVELOPE" "KCIP_PAYLOAD_DIGEST_MISMATCH: payload digest does not match the envelope"
  else if expired (ke_deadlineAt e) now
  then kcip_throw reg "KCIP_DEADLINE_EXCEEDED" "KCIP_DEADLINE_EXCEEDED: envelope deadline has elapsed"
  else Ok e.
End Kcip.

(** ** Sequence guard *)

(** [#next]: the number each stream expects *)
Abbreviation sequence_guard := (gmap string Z).
Inductive verdict := SEQ_ACCEPTED | SEQ_DUPLICATE.
Definition expected_sequence (g : sequence_guard) (stream : string) : Z := default 1 (g !! stream).
Definition accept (reg : registry) (g : sequence_guard) (stream : string) (sequence : Z) : result verdict * sequence_guard :=
  let expected := expected_sequence g stream in
  if sequence <? expected then (Ok SEQ_DUPLICATE, g)
  else if expected <? sequence then (kcip_throw reg "KCIP_SEQUENCE_GAP" "KCIP_SEQUENCE_GAP: sequence skipped an expected value", g)
  else (Ok SEQ_ACCEPTED, <[stream := expected + 1]> g).

(** Every message a peer presents, in any order: the answers, and the guard at the end *)
Fixpoint present (reg : registry) (g : sequence_guard) (l : list (string * Z)) : list (result verdict) * sequence_guard :=
  match l with
  | [] => ([], g)
  | (s, n) :: l =>
      let '(v, g) := accept reg g s n in
      let '(vs, g) := present reg g l in (v :: vs, g)
  end.

(** ** Theory *)

Lemma kcip_throw_not_Ok {A} reg c m (a : A) : kcip_throw reg c m <> Ok a.
Proof. unfold kcip_throw. by destruct (new_KcipError _ _ _ _). Qed.

(** *** Sequences *)

(** The numbers of a stream that were accepted, in the order they were accepted *)
Definition accepted (s : string) (l : list (string * Z)) (vs : list (result verdict)) : list Z :=
  map (fun x => snd (fst x))
    (List.filter (fun x => String.eqb (fst (fst x)) s && match snd x with Ok SEQ_ACCEPTED => true | _ => false end) (zip l vs)).
Lemma accepted_cons s x l v vs :
  accepted s (x :: l) (v :: vs) =
  (if String.eqb (fst x) s && match v with Ok SEQ_ACCEPTED => true | _ => false end then [snd x] else []) ++ accepted s l vs.
Proof. unfold accepted. cbn [zip zip_with List.filter fst snd map]. by destruct (_ && _). Qed.

(** One presentation *)
Lemma accept_cases reg g s n v g' :
  accept reg g s n = (v, g') ->
  (v = Ok SEQ_ACCEPTED /\ n = expected_sequence g s /\ g' = <[s := n + 1]> g)
  \/ (v <> Ok SEQ_ACCEPTED /\ n <> expected_sequence g s /\ g' = g /\ (v = Ok SEQ_DUPLICATE <-> n < expected_sequence g s)).
Proof.
  unfold accept. intros E. destruct (n <? expected_sequence g s) eqn:E1.
  { injection E as <- <-. right. split; [done|]. split; [lia|]. split; [done|]. split; [lia|done]. }
  destruct (expected_sequence g s <? n) eqn:E2; injection E as <- <-.
  - right. split; [apply kcip_throw_not_Ok|]. split; [lia|]. split; [done|].
    split; [intros C; by apply kcip_throw_not_Ok in C|lia].
  - left. assert (n = expected_sequence g s) as -> by lia. done.
Qed.
(** [count_from a k]: the numbers a, a+1, ..., a+k-1 *)
Definition count_from (a : Z) (k : nat) : list Z := map (fun i => a + Z.of_nat i) (seq 0 k).
Lemma count_from_S a k : count_from a (S k) = a :: count_from (a + 1) k.
Proof. unfold count_from. cbn. f_equal; [lia|]. rewrite <- seq_shift, map_map. apply map_ext. lia. Qed.
Lemma present_accepted reg l : forall g vs g' s,
  present reg g l = (vs, g') ->
  exists k, accepted s l vs = count_from (expected_sequence g s) k /\ expected_sequence g' s = expected_sequence g s + Z.of_nat k.
Proof.
  induction l as [|[s0 n] l IH]; intros g vs g' s; cbn [present].
  - intros [= <- <-]. exists 0%nat. split; [done|lia].
  - destruct (accept reg g s0 n) as [v g1] eqn:Ea. destruct (present reg g1 l) as [vs1 g2] eqn:Ep. intros [= <- <-].
    rewrite accepted_cons. cbn [fst snd]. destruct (IH _ _ _ s Ep) as (k & -> & Hk).
    apply accept_cases in Ea as [(-> & -> & ->)|(Hv & _ & -> & _)].
    + destruct (String.eqb_spec s0 s) as [->|Hne]; cbn [andb app].
      * exists (S k). rewrite count_from_S. unfold expected_sequence in *. rewrite lookup_insert_eq in *. cbn in *. split; [done|lia].
      * exists k. unfold expected_sequence in *. by rewrite lookup_insert_ne in *.
    + exists k. assert ((match v with Ok SEQ_ACCEPTED => true | _ => false end) = false) as -> by (by destruct v as [[]|]).
      by rewrite andb_false_r.
Qed.
Lemma present_app reg l1 : forall g l2 vs1 g1 vs2 g2,
  present reg g l1 = (vs1, g1) -> present reg g1 l2 = (vs2, g2) -> present reg g (l1 ++ l2) = (vs1 ++ vs2, g2).
Proof.
  induction l1 as [|[s n] l1 IH]; cbn; intros g l2 vs1 g1 vs2 g2 E1 E2; [by injection E1 as <- <-|].
  destruct (accept reg g s n) as [v g0]. destruct (present reg g0 l1) as [w h] eqn:Ep. injection E1 as <- <-.
  by rewrite (IH _ _ _ _ _ _ Ep E2).
Qed.

(** The sequence guard accepts every number once and in order.  Whatever messages of whatever streams are
    presented to a new guard in whatever order, the numbers accepted for a stream are 1, 2, 3, ... up to some
    k without omission or repetition; and the next message of the stream is accepted exactly when its
    number is k+1, and reported as a duplicate exactly when its number was accepted before (or is not positive). *)
Theorem sequence_guard_exact reg l vs g s :
  present reg ∅ l = (vs, g) ->
  exists k, accepted s l vs = count_from 1 k
    /\ forall n, (fst (accept reg g s n) = Ok SEQ_ACCEPTED <-> n = Z.of_nat k + 1)
              /\ (fst (accept reg g s n) = Ok SEQ_DUPLICATE <-> In n (accepted s l vs) \/ n < 1).
Proof.
  intros E. destruct (present_accepted _ _ _ _ _ s E) as (k & Ha & Hk). unfold expected_sequence at 1 in Ha.
  assert (He : expected_sequence (∅ : gmap string Z) s = 1) by (unfold expected_sequence; by rewrite lookup_empty).
  rewrite He in Hk. exists k. rewrite Ha. split; [by rewrite lookup_empty|]. intros n.
  assert (Hin : In n (count_from (default 1 ((∅ : gmap string Z) !! s)) k) <-> 1 <= n < 1 + Z.of_nat k).
  { rewrite lookup_empty. cbn. unfold count_from. rewrite in_map_iff. split.
    - intros (i & <- & Hi%in_seq). lia.
    - intros Hn. exists (Z.to_nat (n - 1)). rewrite in_seq. lia. }
  rewrite Hin. destruct (accept reg g s n) as [v g'] eqn:Ea. cbn. apply accept_cases in Ea as [(-> & -> & _)|(Hv & Hn & _ & Hd)].
  - split; [split; [lia|done]|]. split; [done|lia].
  - rewrite Hd, Hk. split; [|lia]. split; [done|lia].
Qed.

(** *** Errors *)

(** With the internal code in the registry every thrown value has a canonical error, and the code of a registered
    [KCIP_] message is kept. *)
Lemma toKcipError_total reg c r :
  reg !! INTERNAL = Some r ->
  exists e, toKcipError reg c = Ok e /\ (forall e', c = CaughtKcip e' -> e = e')
    /\ (forall m, c = CaughtError m -> ke_message e = m /\ (is_Some (reg !! caught_code c) -> ke_code e = caught_code c)).
Proof.
  intros Hr. assert (Hi : forall m d, new_KcipError reg INTERNAL m d = Ok {| ke_code := INTERNAL; ke_message := m; ke_details := d;
      ke_canonical := {| ev_code := er_code r; ev_retryDirective := resolveRetryDirective r UNKNOWN; ev_record := r |} |}).
  { intros m d. unfold new_KcipError, canonicalErrorView, getStableErrorRecord. by rewrite Hr. }
  destruct c as [e|m|t]; unfold toKcipError; [eexists; split; [done|]; split; [congruence|done]|..].
  - destruct (new_KcipError reg (caught_code (CaughtError m)) _ JNull) as [e|] eqn:E.
    + eexists; split; [done|]. split; [done|]. intros m' [= <-]. unfold new_KcipError in E. inv_ok. subst e. done.
    + rewrite Hi. eexists; split; [done|]. split; [done|]. intros m' [= <-]. split; [done|]. intros [x Hx].
      unfold new_KcipError, canonicalErrorView, getStableErrorRecord in E. by rewrite Hx in E.
  - cbn [caught_code]. rewrite Hi. by eexists.
Qed.

(** *** Envelopes *)

Section Envelopes.
Context `{L : Locale} `{H : Hash} `{F : Formats}.

(** Parsers that read back exactly what was encoded *)
Definition exact {A} (p : json -> option A) (enc : A -> json) : Prop := forall a b, p (enc a) = Some b -> b = a.
Lemma exact_string check : exact (z_string check) JStr.
Proof. intros a b. cbn. destruct (check a); [|done]. by intros [= <-]. Qed.
Lemma exact_nullable {A} (p : json -> option A) enc : exact p enc -> (forall a, enc a <> JNull) -> exact (z_nullable p) (enc_option enc).
Proof.
  intros X N [a|] b; cbn; [|by intros [= <-]]. intros E. specialize (N a). assert (Hb : exists c, p (enc a) = Some c /\ b = Some c).
  { destruct (enc a); [done|..]; cbn in E; apply fmap_Some in E as (x & ? & ?); eauto. }
  destruct Hb as (c & Hc & ->). f_equal. by apply X.
Qed.
Lemma exact_message : exact (z_enum message_name message_types) (fun m => JStr (message_name m)).
Proof. intros [] b; vm_compute; congruence. Qed.
Lemma schema_envelope x e : kcipEnvelopeSchema (envelope_json x) = Some e -> e = x.
Proof.
  unfold kcipEnvelopeSchema. intros E. apply bind_Some in E as (l & Hl & E). apply strict_object in Hl. injection Hl as <-.
  apply bind_Some in E as (k & _ & E).
  apply bind_Some in E as (a1 & E1%(exact_string uuid_ok) & E). apply bind_Some in E as (a2 & E2%exact_message & E).
  apply bind_Some in E as (a3 & E3%(exact_string truthy) & E). apply bind_Some in E as (a4 & E4%(exact_string uuid_ok) & E).
  apply bind_Some in E as (a5 & E5%(exact_nullable _ JStr (exact_string _) str_not_null) & E).
  apply bind_Some in E as (a6 & E6%(exact_nullable _ JStr (exact_string _) str_not_null) & E).
  apply bind_Some in E as (a7 & E7%(exact_string is_datetime) & E).
  apply bind_Some in E as (a8 & E8%(exact_nullable _ JStr (exact_string _) str_not_null) & E).
  apply bind_Some in E as (a9 & E9%(exact_string digest_ok) & E). apply bind_Some in E as (a10 & E10%(exact_string digest_ok) & E).
  injection E as <-. subst. by destruct x as [? ? ? ? ? ? ? ? ? ? []].
Qed.
Lemma create_Ok i id now e :
  createKcipEnvelope i id now = Ok e ->
  exists p, in_payload i = Some p /\ ke_payload e = Some p /\ ke_payloadDigest e = canonicalDigest p /\ ke_deadlineAt e = in_deadlineAt i
    /\ kcipEnvelopeSchema (envelope_json e) = Some e.
Proof.
  unfold createKcipEnvelope, payload_digest. intros E. inv_ok. subst.
  match goal with Hs : kcipEnvelopeSchema (envelope_json ?x) = Some e |- _ => pose proof (schema_envelope _ _ Hs) as He; rewrite <- He in Hs; subst e end.
  cbn. eauto 10.
Qed.
Lemma envelope_wf e p : ke_payload e = Some p -> wf_json p = true -> wf_json (envelope_json e) = true.
Proof.
  intros Hp Hw. unfold envelope_json. rewrite Hp. cbn -[enc_option]. rewrite !wf_enc_option, Hw. reflexivity.
Qed.
Lemma verify_Ok reg value now e :
  verifyKcipEnvelope reg value now = Ok e ->
  kcipEnvelopeSchema value = Some e /\ expired (ke_deadlineAt e) now = false
  /\ exists p, ke_payload e = Some p /\ ke_payloadDigest e = canonicalDigest p.
Proof.
  unfold verifyKcipEnvelope, payload_digest. intros E. inv_ok. subst.
  destruct (String.eqb_spec (canonicalDigest a1) (ke_payloadDigest a)) as [Hd|]; cbn in E; [|by apply kcip_throw_not_Ok in E].
  destruct (expired _ _) eqn:Hx; [by apply kcip_throw_not_Ok in E|]. injection E as <-. eauto.
Qed.

(** Envelopes round trip.  What [createKcipEnvelope] returns, printed, sent and parsed by the peer, is verified as
    the same envelope by every peer whose clock has not reached the deadline. *)
Theorem kcip_envelope_round_trip reg i id now now' e :
  createKcipEnvelope i id now = Ok e -> (forall p, in_payload i = Some p -> wf_json p = true) -> expired (in_deadlineAt i) now' = false ->
  (v ← or_throw (JSON_parse (of_chars (print_chars (envelope_json e)))) (JsError "SyntaxError"); verifyKcipEnvelope reg v now') = Ok e.
Proof.
  intros (p & Hi & Hp & Hd & Hdl & Hs)%create_Ok Hw Hx.
  unfold JSON_parse. rewrite chars_of_chars, JSON_parse_print by (by eapply envelope_wf; [|apply Hw]). cbn [or_throw mbind result_bind].
  unfold verifyKcipEnvelope, payload_digest. rewrite Hs. cbn. rewrite Hp. cbn. by rewrite Hd, String.eqb_refl, Hdl, Hx.
Qed.

(** The payload digest binds the payload.  Two envelopes that are verified with the same payload digest have payloads
    that are equal up to the order of object keys, or SHA-256 has a collision. *)
Lemma kcip_payload_bound reg1 reg2 v1 v2 n1 n2 e1 e2 p1 p2 :
  verifyKcipEnvelope reg1 v1 n1 = Ok e1 -> verifyKcipEnvelope reg2 v2 n2 = Ok e2 -> ke_payloadDigest e1 = ke_payloadDigest e2 ->
  ke_payload e1 = Some p1 -> ke_payload e2 = Some p2 -> wf_json p1 = true -> wf_json p2 = true ->
  json_equiv p1 p2 \/ collision.
Proof.
  intros (_ & _ & q1 & Hq1 & D1)%verify_Ok (_ & _ & q2 & Hq2 & D2)%verify_Ok E P1 P2 W1 W2.
  apply canonicalDigest_inj; [done..|congruence].
Qed.
End Envelopes.

(** ** Samples *)

Definition sample_input : envelope_input :=
  {| in_messageType := MSG_REQUEST; in_operation := "component.run"; in_correlationId := uuid_a; in_causationId := None;
     in_idempotencyKey := Some "key"; in_deadlineAt := Some "1000"; in_payloadSchemaDigest := sample_digest;
     in_payload := Some (JObj [("b", JNum 2); ("a", JArr [JNull])]) |}.
Definition sample_presented : list (string * Z) := [("a", 1); ("a", 2); ("b", 1); ("a", 1); ("a", 4); ("a", 3)].

Lemma sequence_guard_exact_witness :
  exists k, accepted "a" sample_presented (fst (present sample_registry ∅ sample_presented)) = count_from 1 k.
Proof.
  destruct (sequence_guard_exact sample_registry sample_presented (fst (present sample_registry ∅ sample_presented))
              (snd (present sample_registry ∅ sample_presented)) "a") as (k & Hk & _); [apply surjective_pairing|].
  exists k. exact Hk.
Defined.
Lemma kcip_envelope_round_trip_witness :
  exists e, @createKcipEnvelope code_unit_locale toy_hash toy_dates sample_input uuid_b 0 = Ok e
    /\ (v ← or_throw (JSON_parse (of_chars (print_chars (envelope_json e)))) (JsError "SyntaxError");
        @verifyKcipEnvelope code_unit_locale toy_hash toy_dates sample_registry v 999) = Ok e.
Proof.
  destruct (@createKcipEnvelope code_unit_locale toy_hash toy_dates sample_input uuid_b 0) as [e|x] eqn:E; [|vm_compute in E; discriminate].
  exists e. split; [reflexivity|].
  apply (@kcip_envelope_round_trip code_unit_locale toy_hash toy_dates sample_registry sample_input uuid_b 0 999 e E).
  - intros p Hp. injection Hp as <-. vm_compute. reflexivity.
  - vm_compute. reflexivity.
Defined.
