(* ===== verification/RuntimeSystemd.v ===== *)
(** * The systemd runtime controller

    [packages/worker-runtime/src/runtime-systemd.ts]: parsing of [systemctl show] and of [/proc], the
    authority checks on a runtime instance, and the three stages of a runtime action: the intent, the
    effect through [systemctl], and its reconciliation from the read-back.  [systemctl] and the proc file
    system are parameters over an arbitrary world; the committed tables are the side-effect ledger,
    the runtime instances and the cleanup operations. *)
From Stdlib Require Import Ascii String.
From S2P Require Import Prelude Bytes Json Text Digest CanonicalValue SideEffect.

(** ** Text *)

Definition hex_block (n : nat) (s : string) : bool := (String.length s =? n)%nat && str_forallb is_hex s.
Definition head_in (l : list ascii) (s : string) : bool := match chars s with c :: _ => existsb (Ascii.eqb c) l | [] => false end.
(** [/^[0-9a-f]{8}-[0-9a-f]{4}-[versions][0-9a-f]{3}-[89ab][0-9a-f]{3}-[0-9a-f]{12}$/u] *)
Definition uuid_pattern (versions : list ascii) (s : string) : bool :=
  match split_on "-"%char s with
  | [a; b; c; d; e] =>
      hex_block 8 a && hex_block 4 b && (hex_block 4 c && head_in versions c)
      && (hex_block 4 d && head_in ["8"; "9"; "a"; "b"]%char d) && hex_block 12 e
  | _ => false
  end.
Definition UUID : string -> bool := uuid_pattern ["1"; "2"; "3"; "4"; "5"]%char.
Definition require_pattern (pattern : string -> bool) (value : option string) (label : string) : result string :=
  let text := match value with Some s => to_lower s | None => "" end in
  _ ← throw_if (negb (pattern text)) (JsError (label +:+ "_INVALID")); Ok text.
Definition requireUuid : option string -> string -> result string := require_pattern UUID.
Definition runtimeHostUnit (runtimeInstanceId : string) : result string :=
  id ← requireUuid (Some runtimeInstanceId) "RUNTIME_INSTANCE_ID"; Ok ("kcml-runtime-host@" +:+ id +:+ ".service").

(** [stat.slice(close + 2)] starts after the parenthesis and one more character. *)
Definition startTicks (stat : string) : result Z :=
  rest ← or_throw (after_last ")" (chars stat)) (JsError "RUNTIME_PROCESS_STAT_INVALID");
  let fields := words (skipn 1 rest) in
  match nth_error fields 19 with
  | Some raw => _ ← throw_if (negb (digits_only raw)) (JsError "RUNTIME_PROCESS_START_TICKS_INVALID"); Ok (digits_Z raw)
  | None => Throw (JsError "RUNTIME_PROCESS_START_TICKS_INVALID")
  end.
(** [cgroup.split('\n').filter(Boolean).map((line) => line.slice(line.lastIndexOf(':') + 1))] *)
Definition newline : ascii := char_of 10.
Definition cgroup_paths (cgroup : string) : list string :=
  map (fun line => of_chars (default (chars line) (after_last ":" (chars line)))) (List.filter truthy (split_on newline cgroup)).

Definition find_path (p : string -> bool) (paths : list string) : string := default "" (List.find p paths).

(** ** [systemctl show] *)

Record SystemdUnitState := {
  su_unit : string; loadState : string; activeState : string; subState : string; mainPid : Z; invocationId : option string;
  controlGroup : string; su_result : string;
}.
Record ProcessReadback := { pr_pid : Z; pr_bootId : string; pr_startTicks : Z; pr_cgroupPath : string }.
(** A line without a key before its first [=] is skipped; a later line replaces an earlier one. *)
Definition show_line (m : gmap string string) (line : string) : gmap string string :=
  match at_first "=" (chars line) with
  | Some ((_ :: _) as k, v) => <[of_chars k := of_chars v]> m
  | _ => m
  end.
Definition slice (a b : nat) (s : string) : string := of_chars (firstn (b - a) (skipn a (chars s))).
Definition dashed (s : string) : string :=
  slice 0 8 s +:+ "-" +:+ slice 8 12 s +:+ "-" +:+ slice 12 16 s +:+ "-" +:+ slice 16 20 s +:+ "-" +:+ slice 20 (String.length s) s.
Definition parseSystemdShow (unit stdout : string) : result SystemdUnitState :=
  let values := fold_left show_line (split_on newline stdout) ∅ in
  pid ← or_throw (js_integer (default "0" (values !! "MainPID"))) (JsError "SYSTEMD_MAIN_PID_INVALID");
  _ ← throw_if (pid <? 0) (JsError "SYSTEMD_MAIN_PID_INVALID");
  let invocation := default "" (values !! "InvocationID") in
  _ ← throw_if (truthy invocation && negb (hex_block 32 invocation)) (JsError "SYSTEMD_INVOCATION_ID_INVALID");
  Ok {| su_unit := unit; loadState := default "not-found" (values !! "LoadState"); activeState := default "unknown" (values !! "ActiveState");
        subState := default "unknown" (values !! "SubState"); mainPid := pid;
        invocationId := if truthy invocation then Some (dashed invocation) else None;
        controlGroup := default "" (values !! "ControlGroup"); su_result := default "unknown" (values !! "Result") |}.

(** ** Tables *)

(** The columns of [runtime_instance] that the runtime code reads or writes *)
Record runtime_authority := {
  ra_component : string; ra_generation : Z; ra_unit : string; ra_service_class : string; ra_incarnation : string; ra_deployment : Z;
  ra_epoch : Z; ra_launch_manifest : list Z; ra_namespace : list Z; ra_runtime_digest : list Z; ra_artifact_digest : list Z;
  ra_uid : Z; ra_gid : Z; ra_revision : string; ra_release : string; ra_binding_set : string; ra_target : string;
}.
Record runtime_state := {
  desired_state : string; effective_state : string; rs_invocation : option string; rs_boot : option string; rs_pid : option Z;
  rs_ticks : option Z; rs_cgroup : string; gateway_connection : option string; heartbeat_sequence : Z; drain_operation : option string;
  stop_operation : option string; restart_operation : option string; stopped_at : option Z; rs_correlation : option string; state_version : Z;
}.
Record runtime_row := { authority : runtime_authority; state : runtime_state }.
Record cleanup_row := {
  cl_runtime : string; cl_checkpoint : list (string * json); cl_outcomes : list json; cl_completed : option Z; cl_version : Z;
}.
(** The columns of [component] that the runtime code and the trigger on its children read *)
Record component_row := {
  c_lifecycle : string; c_activation_state : string; c_enabled : bool; c_active_revision : option string; c_current_release : option string;
  c_binding_set : option string; c_activation_epoch : Z;
}.
Record rt_db := {
  ledger : se_db; instances : gmap string runtime_row; cleanup_operations : gmap string cleanup_row; components : gmap string component_row;
}.
Definition set_ledger (l : se_db) (d : rt_db) : rt_db :=
  {| ledger := l; instances := instances d; cleanup_operations := cleanup_operations d; components := components d |}.
Definition set_instances (t : gmap string runtime_row) (d : rt_db) : rt_db :=
  {| ledger := ledger d; instances := t; cleanup_operations := cleanup_operations d; components := components d |}.
Definition set_cleanups (t : gmap string cleanup_row) (d : rt_db) : rt_db :=
  {| ledger := ledger d; instances := instances d; cleanup_operations := t; components := components d |}.
(** [guard_component_terminal_child] on [runtime_instance] *)
Definition guard_instance (components : gmap string component_row) (r : runtime_row) : result unit :=
  throw_if (negb (existsb (String.eqb (effective_state (state r))) ["STOPPED"; "FAILED"])
            && match components !! ra_component (authority r) with Some c => String.eqb (c_lifecycle c) "DEREGISTERED" | None => false end) (PgError "55000").
(** [UPDATE kcml.runtime_instance SET ... WHERE id=$1 AND p]: the number of rows and the new tables *)
Definition update_instance (id : string) (p : runtime_row -> bool) (f : runtime_state -> runtime_state) (d : rt_db) : result (Z * rt_db) :=
  match instances d !! id with
  | Some r =>
      if p r then
        let r' := {| authority := authority r; state := f (state r) |} in
        _ ← guard_instance (components d) r'; Ok (1, set_instances (<[id := r']> (instances d)) d)
      else Ok (0, d)
  | None => Ok (0, d)
  end.

(** ** Runtime actions *)

Inductive RuntimeAction := START | RESTART | DRAIN | STOP | RECONCILE | CLEANUP | INVOKE.
#[export] Instance runtime_action_eq_dec : EqDecision RuntimeAction.
Proof. solve_decision. Defined.
Definition RUNTIME_MUTATIONS : list string :=
  ["runtime.prepare"; "runtime.instance.start"; "runtime.instance.restart"; "runtime.drain"; "runtime.stop"; "runtime.cancel";
   "runtime.instance.reconcile"; "runtime.cleanup.resume"; "runtime.invoke"].
Definition canHandle (operationName : string) : bool := existsb (String.eqb operationName) RUNTIME_MUTATIONS.
Definition action_table : list (string * RuntimeAction) :=
  [("runtime.prepare", START); ("runtime.instance.start", START); ("runtime.instance.restart", RESTART); ("runtime.drain", DRAIN);
   ("runtime.stop", STOP); ("runtime.cancel", STOP); ("runtime.instance.reconcile", RECONCILE); ("runtime.cleanup.resume", CLEANUP);
   ("runtime.invoke", INVOKE)].
Definition actionFor (operationName : string) : result RuntimeAction :=
  or_throw (get_prop operationName action_table) (JsError "RUNTIME_SPECIALIST_OPERATION_UNSUPPORTED").
Definition desiredStateFor (a : RuntimeAction) : string :=
  match a with
  | START => "STARTING" | RESTART => "RESTARTING" | DRAIN => "DRAINING" | STOP | CLEANUP => "STOPPED" | RECONCILE | INVOKE => "UNCHANGED"
  end.
Record execution_context := {
  ec_commandId : string; ec_logicalOperationId : string; ec_operationName : string; ec_sideEffectClass : string; ec_retryClass : string;
  ec_incarnation : string; ec_deployment : Z; ec_epoch : Z; ec_recoveryEpoch : Z; ec_correlationId : string; ec_targetId : option string;
  ec_expectedStateVersion : option Z;
}.
Record PreparedRuntimeAction := {
  pa_operationName : string; pa_action : RuntimeAction; pa_runtime : string; pa_generation : Z; pa_unit : string; pa_sideEffect : string;
  pa_beforeEffective : string; pa_desired : string; pa_cleanup : option string;
}.
Record RuntimeExecutionReadback := {
  er_action : RuntimeAction; er_before : SystemdUnitState; er_after : SystemdUnitState; er_process : option ProcessReadback;
}.
Definition version_conflict (expected : option Z) (actual : Z) : bool := match expected with Some v => negb (actual =? v) | None => false end.
Definition runtimeForContext (c : execution_context) (d : rt_db) : result (string * runtime_row * option string) :=
  if String.eqb (ec_operationName c) "runtime.cleanup.resume" then
    cleanupId ← requireUuid (ec_targetId c) "RUNTIME_CLEANUP_ID";
    cleanup ← or_throw (cleanup_operations d !! cleanupId) (JsError "RUNTIME_CLEANUP_NOT_FOUND");
    _ ← throw_if (version_conflict (ec_expectedStateVersion c) (cl_version cleanup)) (JsError "STATE_VERSION_CONFLICT");
    r ← or_throw (instances d !! cl_runtime cleanup) (JsError "RUNTIME_INSTANCE_NOT_FOUND");
    Ok (cl_runtime cleanup, r, Some cleanupId)
  else
    id ← requireUuid (ec_targetId c) "RUNTIME_INSTANCE_ID";
    r ← or_throw (instances d !! id) (JsError "RUNTIME_INSTANCE_NOT_FOUND");
    _ ← throw_if (version_conflict (ec_expectedStateVersion c) (state_version (state r))) (JsError "STATE_VERSION_CONFLICT");
    Ok (id, r, None).
Definition assertRuntimeAuthority (id : string) (r : runtime_row) (c : execution_context) : result unit :=
  let a := authority r in
  _ ← throw_if (negb (String.eqb (ra_incarnation a) (ec_incarnation c))) (JsError "PLATFORM_INCARNATION_STALE");
  _ ← throw_if (negb (ra_deployment a =? ec_deployment c)) (JsError "APPLICATION_DEPLOYMENT_EPOCH_STALE");
  _ ← throw_if (negb (ra_epoch a =? ec_epoch c)) (JsError "ACTIVATION_EPOCH_STALE");
  runtimeId ← requireUuid (Some id) "RUNTIME_INSTANCE_ID";
  unit ← runtimeHostUnit runtimeId;
  _ ← throw_if (negb (String.eqb (ra_unit a) unit)) (JsError "RUNTIME_SYSTEMD_UNIT_MISMATCH");
  throw_if (negb (String.eqb (ra_service_class a) "kcml-runtime-host")) (JsError "RUNTIME_SERVICE_CLASS_MISMATCH").
Definition effectiveStateFromReadback (a : RuntimeAction) (s : SystemdUnitState) : string :=
  if String.eqb (activeState s) "failed" then "FAILED"
  else if String.eqb (activeState s) "inactive" && (mainPid s =? 0) then "STOPPED"
  else if bool_decide (a = DRAIN) && String.eqb (activeState s) "active" then "DRAINING"
  else if String.eqb (activeState s) "active" then "STARTING"
  else "UNKNOWN".

(** [UPDATE ... SET desired_state=$2,correlation_id=$3, ...] *)
Definition instance_desired (desired : string) (c : execution_context) (s : runtime_state) : runtime_state :=
  let op (name : string) (old : option string) := if String.eqb desired name then Some (ec_logicalOperationId c) else old in
  {| desired_state := desired; effective_state := effective_state s; rs_invocation := rs_invocation s; rs_boot := rs_boot s;
     rs_pid := rs_pid s; rs_ticks := rs_ticks s; rs_cgroup := rs_cgroup s; gateway_connection := gateway_connection s;
     heartbeat_sequence := heartbeat_sequence s; drain_operation := op "DRAINING" (drain_operation s);
     stop_operation := op "STOPPED" (stop_operation s); restart_operation := op "RESTARTING" (restart_operation s);
     stopped_at := stopped_at s; rs_correlation := Some (ec_correlationId c); state_version := state_version s + 1 |}.
(** [UPDATE ... SET effective_state=$2, ...] from the read-back *)
Definition instance_readback (effective : string) (after : SystemdUnitState) (process : option ProcessReadback) (correlation : string) (now : Z)
    (s : runtime_state) : runtime_state :=
  let cgroup := match process with Some p => pr_cgroupPath p | None => "" end in
  {| desired_state := desired_state s; effective_state := effective; rs_invocation := invocationId after; rs_boot := pr_bootId <$> process;
     rs_pid := pr_pid <$> process; rs_ticks := pr_startTicks <$> process; rs_cgroup := if truthy cgroup then cgroup else rs_cgroup s;
     gateway_connection := gateway_connection s; heartbeat_sequence := heartbeat_sequence s; drain_operation := drain_operation s;
     stop_operation := stop_operation s; restart_operation := restart_operation s;
     stopped_at := if String.eqb effective "STOPPED" then Some now else stopped_at s; rs_correlation := Some correlation;
     state_version := state_version s + 1 |}.

(** ** The executor *)

Section Executor.
Context `{L : Locale} `{H : Hash}.
(** [systemctl args]: its output, or the error of a failed, timed out or oversized command; and [readFile] *)
Context {W : Type} (systemctl : list string -> io W string) (readFile : string -> io W string).

Definition show (runtimeInstanceId : string) : io W SystemdUnitState :=
  unit ← lift (runtimeHostUnit runtimeInstanceId);
  stdout ← systemctl ["show"; "--no-pager"; "--property=LoadState,ActiveState,SubState,MainPID,InvocationID,ControlGroup,Result"; unit];
  lift (parseSystemdShow unit stdout).
Definition unit_command (args : list string) (runtimeInstanceId : string) : io W unit :=
  u ← lift (runtimeHostUnit runtimeInstanceId);
  _ ← systemctl (args ++ [u]); mret tt.
Definition start : string -> io W unit := unit_command ["start"; "--no-ask-password"].
Definition restart : string -> io W unit := unit_command ["restart"; "--no-ask-password"].
Definition drain : string -> io W unit := unit_command ["kill"; "--no-ask-password"; "--kill-whom=main"; "--signal=SIGUSR1"].
Definition stop : string -> io W unit := unit_command ["stop"; "--no-ask-password"].

Definition trim (s : string) : string := of_chars (trim_chars (chars s)).
Definition processReadback (s : SystemdUnitState) : io W (option ProcessReadback) :=
  if mainPid s <=? 0 then mret None else
  let proc := "/proc/" +:+ dec (mainPid s) in
  bootIdRaw ← readFile "/proc/sys/kernel/random/boot_id";
  statBefore ← readFile (proc +:+ "/stat");
  cgroup ← readFile (proc +:+ "/cgroup");
  statAfter ← readFile (proc +:+ "/stat");
  beforeTicks ← lift (startTicks statBefore);
  afterTicks ← lift (startTicks statAfter);
  _ ← lift (throw_if (negb (beforeTicks =? afterTicks)) (JsError "RUNTIME_PROCESS_IDENTITY_CHANGED"));
  let cgroupPath := find_path truthy (cgroup_paths cgroup) in
  _ ← lift (throw_if (negb (truthy cgroupPath) || truthy (controlGroup s) && negb (String.eqb cgroupPath (controlGroup s))) (JsError "RUNTIME_CGROUP_MISMATCH"));
  let bootId := to_lower (trim bootIdRaw) in
  _ ← lift (requireUuid (Some bootId) "HOST_BOOT_ID");
  mret (Some {| pr_pid := mainPid s; pr_bootId := bootId; pr_startTicks := beforeTicks; pr_cgroupPath := cgroupPath |}).

Definition intent_context (c : execution_context) : SideEffectAuthorityContext :=
  {| commandId := ec_commandId c; logicalOperationId := ec_logicalOperationId c; operationName := ec_operationName c;
     sideEffectClass := ec_sideEffectClass c; retryClass := ec_retryClass c; platformIncarnationId := ec_incarnation c;
     applicationDeploymentEpoch := ec_deployment c; recoveryEpoch := ec_recoveryEpoch c |}.
(** [newId] is the generated key of the side-effect operation. *)
Definition prepare (newId : string) (c : execution_context) (d : rt_db) : result (PreparedRuntimeAction * rt_db) :=
  '(id, r, cleanup) ← runtimeForContext c d;
  _ ← assertRuntimeAuthority id r c;
  runtime ← requireUuid (Some id) "RUNTIME_INSTANCE_ID";
  action ← actionFor (ec_operationName c);
  let desired := desiredStateFor action in
  unit ← runtimeHostUnit runtime;
  '(intent, l) ← recordSideEffectIntent newId (intent_context c) ("runtime-systemd:" +:+ ec_operationName c) ("systemd:" +:+ unit)
      (canonicalize (JObj [("operationName", JStr (ec_operationName c)); ("runtimeInstanceId", JStr runtime);
                           ("logicalOperationId", JStr (ec_logicalOperationId c))]))
      (canonicalize (JObj [("oracle", JStr "SYSTEMD_KERNEL_READBACK"); ("runtimeInstanceId", JStr runtime); ("unit", JStr unit)])) (ledger d);
  let d := set_ledger l d in
  d ← (if String.eqb desired "UNCHANGED" then Ok d
       else '(_, d) ← update_instance runtime (fun _ => true) (instance_desired desired c) d; Ok d);
  Ok ({| pa_operationName := ec_operationName c; pa_action := action; pa_runtime := runtime; pa_generation := ra_generation (authority r);
         pa_unit := ra_unit (authority r); pa_sideEffect := in_id intent; pa_beforeEffective := effective_state (state r);
         pa_desired := desired; pa_cleanup := cleanup |}, d).

Definition unknown_unit (unit : string) : SystemdUnitState :=
  {| su_unit := unit; loadState := "not-found"; activeState := "inactive"; subState := "dead"; mainPid := 0; invocationId := None;
     controlGroup := ""; su_result := "unknown" |}.
Definition run_action (p : PreparedRuntimeAction) : io W unit :=
  match pa_action p with
  | START => start (pa_runtime p) | RESTART => restart (pa_runtime p) | DRAIN => drain (pa_runtime p)
  | STOP | CLEANUP => stop (pa_runtime p) | RECONCILE => mret tt | INVOKE => lift (Throw (JsError "RUNTIME_GATEWAY_CONNECTION_REQUIRED"))
  end.
Definition execute (p : PreparedRuntimeAction) : io W RuntimeExecutionReadback :=
  before ← io_catch (show (pa_runtime p)) (unknown_unit (pa_unit p));
  _ ← run_action p;
  after ← show (pa_runtime p);
  process ← (if 0 <? mainPid after then processReadback after else mret None);
  mret {| er_action := pa_action p; er_before := before; er_after := after; er_process := process |}.

Definition opt_str (o : option string) : json := match o with Some s => JStr s | None => JNull end.
Definition unit_json (s : SystemdUnitState) : json :=
  JObj [("unit", JStr (su_unit s)); ("loadState", JStr (loadState s)); ("activeState", JStr (activeState s)); ("subState", JStr (subState s));
        ("mainPid", JNum (mainPid s)); ("invocationId", opt_str (invocationId s));
        ("controlGroup", JStr (controlGroup s)); ("result", JStr (su_result s))].
Definition process_json (p : option ProcessReadback) : json :=
  match p with
  | Some p => JObj [("pid", JNum (pr_pid p)); ("bootId", JStr (pr_bootId p)); ("startTicks", JStr (dec (pr_startTicks p)));
                    ("cgroupPath", JStr (pr_cgroupPath p))]
  | None => JNull
  end.
(** The output of an applied action *)
Definition applied_output (p : PreparedRuntimeAction) (effective : string) (r : RuntimeExecutionReadback) : json :=
  JObj [("runtimeInstanceId", JStr (pa_runtime p)); ("runtimeGeneration", JStr (dec (pa_generation p))); ("desiredState", JStr (pa_desired p));
        ("effectiveState", JStr effective); ("systemdUnitName", JStr (su_unit (er_after r)));
        ("systemdInvocationId", opt_str (invocationId (er_after r))); ("mainPid", JNum (mainPid (er_after r)));
        ("processStartTicks", opt_str (dec ∘ pr_startTicks <$> er_process r)); ("hostBootId", opt_str (pr_bootId <$> er_process r));
        ("cgroupPath", opt_str (pr_cgroupPath <$> er_process r)); ("sideEffectOperationId", JStr (pa_sideEffect p))].
Inductive reconcile_result := FAILED (e : exn) | APPLIED (output : json).
Definition error_message (e : exn) : string :=
  match e with JsError m | RangeError m | ContractError m | KcipErr _ m | DomainErr _ m => m | _ => "RUNTIME_EFFECT_UNKNOWN" end.
Definition stopping (a : RuntimeAction) : bool := match a with STOP | CLEANUP => true | _ => false end.
Definition starting (a : RuntimeAction) : bool := match a with START | RESTART | DRAIN => true | _ => false end.
Definition effect_applied (p : PreparedRuntimeAction) (r : RuntimeExecutionReadback) : bool :=
  (if stopping (pa_action p) then String.eqb (effectiveStateFromReadback (pa_action p) (er_after r)) "STOPPED" else true)
  && (if starting (pa_action p) then String.eqb (activeState (er_after r)) "active" else true).
(** [UPDATE kcml.runtime_cleanup_operation ... WHERE id=$1 AND completed_at IS NULL] *)
Definition cleanup_stopped (c : cleanup_row) : cleanup_row :=
  {| cl_runtime := cl_runtime c; cl_checkpoint := define_prop "systemdStopped" (JBool true) (cl_checkpoint c);
     cl_outcomes := cl_outcomes c ++ [JObj [("systemdStop", JStr "CONFIRMED")]]; cl_completed := cl_completed c; cl_version := cl_version c + 1 |}.
Definition mark_cleanup (id : string) (d : rt_db) : rt_db :=
  match cleanup_operations d !! id with
  | Some c => match cl_completed c with None => set_cleanups (<[id := cleanup_stopped c]> (cleanup_operations d)) d | Some _ => d end
  | None => d
  end.
Definition reconcile (p : PreparedRuntimeAction) (execution : result RuntimeExecutionReadback) (correlation : string) (now : Z) (d : rt_db)
    : result (reconcile_result * rt_db) :=
  match execution with
  | Throw e =>
      l ← recordSideEffectReadbackEvidence (pa_sideEffect p)
            (canonicalize (JObj [("operationName", JStr (pa_operationName p)); ("runtimeInstanceId", JStr (pa_runtime p)); ("outcome", JStr "UNKNOWN");
                                 ("errorCode", JStr (error_message e))])) D_UNKNOWN (ledger d);
      Ok (FAILED e, set_ledger l d)
  | Ok r =>
      let effective := effectiveStateFromReadback (pa_action p) (er_after r) in
      let applied := effect_applied p r in
      l ← recordSideEffectReadbackEvidence (pa_sideEffect p)
            (canonicalize (JObj [("unit", unit_json (er_after r)); ("process", process_json (er_process r));
                                 ("operationName", JStr (pa_operationName p)); ("runtimeInstanceId", JStr (pa_runtime p))]))
            (if applied then D_CONFIRMED_APPLIED else D_CONFIRMED_NOT_APPLIED) (ledger d);
      let d := set_ledger l d in
      if negb applied then Ok (FAILED (JsError "RUNTIME_SYSTEMD_READBACK_NOT_APPLIED"), d) else
      '(_, d) ← update_instance (pa_runtime p) (fun _ => true) (instance_readback effective (er_after r) (er_process r) correlation now) d;
      let d := match pa_cleanup p with
               | Some c => if truthy c && String.eqb effective "STOPPED" then mark_cleanup c d else d
               | None => d end in
      Ok (APPLIED (applied_output p effective r), d)
  end.
End Executor.

(** ** Theory *)

(** *** [/proc/<pid>/stat] *)

Lemma after_last_none c l : existsb (Ascii.eqb c) l = false -> after_last c l = None.
Proof.
  induction l as [|x l IH]; cbn; [done|]. intros [Hx Hl]%orb_false_iff. rewrite (IH Hl). by rewrite Ascii.eqb_sym, Hx.
Qed.
Lemma after_last_app c p r : existsb (Ascii.eqb c) r = false -> after_last c (p ++ c :: r) = Some r.
Proof.
  intros Hr. induction p as [|x p IH]; cbn; [|by rewrite IH]. by rewrite (after_last_none _ _ Hr), Ascii.eqb_refl.
Qed.
Definition no_space (f : list ascii) : Prop := f <> [] /\ existsb js_space f = false.
Lemma words_from_app w f l : existsb js_space f = false -> words_from w (f ++ l) = words_from (rev f ++ w) l.
Proof.
  revert w; induction f as [|c f IH]; intros w; cbn [app rev existsb words_from]; [done|]. intros [Hc Hf]%orb_false_iff.
  rewrite Hc, IH by done. by rewrite <- app_assoc.
Qed.
(** Fields separated by single spaces and ended by a line feed *)
Definition stat_line (fields : list (list ascii)) : list ascii := concat (map (fun f => f ++ [" "%char]) fields) ++ [newline].
Lemma words_stat_line fields : Forall no_space fields -> words (stat_line fields) = fields.
Proof.
  unfold words, stat_line. induction 1 as [|f fields [Hne Hf] Hall IH]; [reflexivity|]. cbn [map concat].
  rewrite <- !app_assoc, words_from_app by done. rewrite app_nil_r. cbn [app words_from].
  change (js_space " ") with true. cbn iota. destruct (rev f) as [|c k] eqn:E.
  - apply (f_equal (@rev _)) in E. rewrite rev_involutive in E. by cbn in E.
  - rewrite <- E, rev_involutive. by f_equal.
Qed.

(** What the kernel prints: the pid, the command name in parentheses, then fields *)
Definition proc_stat (pid : string) (comm : list ascii) (fields : list (list ascii)) : string :=
  of_chars (chars pid ++ [" "; "("]%char ++ comm ++ ")"%char :: " "%char :: stat_line fields).

(** The start time cannot be forged by the command name.  For every command name a process can give itself,
    parentheses, spaces, digits and line feeds included, [startTicks] reads exactly the twenty-second field of
    its [/proc/<pid>/stat]: the twentieth after the name. *)
Theorem start_ticks_field pid comm fields raw :
  Forall no_space fields -> Forall (fun f => existsb (Ascii.eqb ")") f = false) fields ->
  nth_error fields 19 = Some raw -> digits_only raw = true ->
  startTicks (proc_stat pid comm fields) = Ok (digits_Z raw).
Proof.
  intros Hs Hp Hn Hd. unfold startTicks, proc_stat. rewrite chars_of_chars, !app_assoc, after_last_app.
  - cbn [or_throw mbind result_bind skipn].
    change (drop 0 (stat_line fields)) with (stat_line fields). by rewrite words_stat_line, Hn, Hd.
  - cbn [existsb]. change (Ascii.eqb ")" " ") with false. cbn [orb]. unfold stat_line. rewrite existsb_app. cbn.
    rewrite orb_false_r. clear Hs Hn. induction Hp as [|f fields Hf Hp IH]; cbn; [done|]. rewrite !existsb_app, Hf. by cbn.
Qed.

(** *** Reconciliation *)

Section Reconcile.
Context `{L : Locale} `{H : Hash}.

Lemma update_instance_Ok id f d n d' :
  update_instance id (fun _ => true) f d = Ok (n, d') ->
  ledger d' = ledger d /\ cleanup_operations d' = cleanup_operations d
  /\ ((exists r, instances d !! id = Some r /\ n = 1
        /\ instances d' = <[id := {| authority := authority r; state := f (state r) |}]> (instances d))
      \/ (instances d !! id = None /\ n = 0 /\ d' = d)).
Proof.
  unfold update_instance. destruct (instances d !! id) as [r|]; [|intros [= <- <-]; eauto 6].
  intros E. apply bind_Ok_inv in E as ([] & _ & E). injection E as <- <-. cbn. eauto 8.
Qed.
Lemma mark_cleanup_frame id d : ledger (mark_cleanup id d) = ledger d /\ instances (mark_cleanup id d) = instances d.
Proof. unfold mark_cleanup. destruct (_ !! id) as [c|]; [|done]. by destruct (cl_completed c). Qed.

(** What a read-back leaves in the ledger: the operation and its attempt have the status, and the last evidence of the attempt is the
    payload with its digest. *)
Definition last_readback (op : string) (s : effect_status) (payload : json) (l : se_db) : Prop :=
  exists row st, List.find (fun r => String.eqb (op_id r) op) (operations l) = Some row /\ op_status row = s
    /\ states l !! (op, op_attempt row) = Some st /\ st_status st = s
    /\ evidence l !! ((op, op_attempt row), st_last_evidence st)
       = Some {| ev_type := "INDEPENDENT_READBACK"; ev_payload := payload; ev_digest := hash (utf8 (canonicalJson payload)) |}.
Lemma readback_last op payload d l l' :
  recordSideEffectReadbackEvidence op payload d l = Ok l' -> last_readback op (disposition_status d) payload l'.
Proof.
  intros (row & st & Hf & Hst & _ & _ & ->)%readback_Ok. cbn in *.
  exists (set_status op (disposition_status d) row). cbn. destruct (set_status_fields op (disposition_status d) row) as (E1 & E2 & _).
  eexists. rewrite find_map by (intros x; by destruct (set_status_fields op (disposition_status d) x) as (-> & _)). rewrite Hf, E2.
  split; [done|]. split.
  - apply find_some in Hf as [_ Hid]. unfold set_status. by rewrite Hid.
  - rewrite lookup_insert_eq. split; [done|]. cbn. split; [done|]. by rewrite lookup_insert_eq.
Qed.

(** What the read-back must show for each action *)
Definition shows (a : RuntimeAction) (s : SystemdUnitState) : Prop :=
  match a with
  | START | RESTART | DRAIN => activeState s = "active"
  | STOP | CLEANUP => activeState s = "inactive" /\ mainPid s = 0
  | RECONCILE | INVOKE => True
  end.
Lemma effect_applied_shows p r : effect_applied p r = true <-> shows (pa_action p) (er_after r).
Proof.
  unfold effect_applied, shows, effectiveStateFromReadback. destruct (pa_action p); cbn [stopping starting andb];
    rewrite ?andb_true_r; try (by rewrite String.eqb_eq); try tauto.
  all: destruct (String.eqb_spec (activeState (er_after r)) "failed") as [E|]; [rewrite E; cbn; split; [done|by intros [? _]]|];
    destruct (String.eqb_spec (activeState (er_after r)) "inactive") as [E|]; cbn;
    [destruct (mainPid (er_after r) =? 0) eqn:Hm; [split; [split; [done|lia]|done]|]|];
    rewrite bool_decide_eq_false_2 by done; cbn;
    destruct (String.eqb (activeState (er_after r)) "active"); cbn; (split; [done|intros [? ?]; first [done|lia]]).
Qed.

(** *** The run of an action, world by world *)

Context {W : Type} (systemctl : list string -> io W string) (readFile : string -> io W string).

Definition show_command (unit : string) : list string :=
  ["show"; "--no-pager"; "--property=LoadState,ActiveState,SubState,MainPID,InvocationID,ControlGroup,Result"; unit].
Definition action_command (a : RuntimeAction) (unit : string) : option (list string) :=
  match a with
  | START => Some ["start"; "--no-ask-password"; unit] | RESTART => Some ["restart"; "--no-ask-password"; unit]
  | DRAIN => Some ["kill"; "--no-ask-password"; "--kill-whom=main"; "--signal=SIGUSR1"; unit]
  | STOP | CLEANUP => Some ["stop"; "--no-ask-password"; unit]
  | RECONCILE | INVOKE => None
  end.
(** The command of the action was run and succeeded; to reconcile there is none. *)
Definition acted (a : RuntimeAction) (unit : string) (w w' : W) : Prop :=
  match action_command a unit with Some args => exists out, systemctl args w = (Ok out, w') | None => a = RECONCILE /\ w' = w end.
(** First the command, from the world that the first [show] left; then [systemctl show] in the world that the command left, whose answer
    is the read-back; then the identity of the main process, if there is one. *)
Definition executed (p : PreparedRuntimeAction) (w : W) (r : RuntimeExecutionReadback) (w' : W) : Prop :=
  exists unit commanded shown stdout, runtimeHostUnit (pa_runtime p) = Ok unit
    /\ acted (pa_action p) unit (snd (show systemctl (pa_runtime p) w)) commanded
    /\ systemctl (show_command unit) commanded = (Ok stdout, shown) /\ parseSystemdShow unit stdout = Ok (er_after r)
    /\ if 0 <? mainPid (er_after r) then processReadback readFile (er_after r) shown = (Ok (er_process r), w') else er_process r = None /\ w' = shown.
Lemma catch_world {A} (m : io W A) a w b w' : io_catch m a w = (Ok b, w') -> w' = snd (m w).
Proof. unfold io_catch. destruct (m w) as [[x|e] w2]; intros E; simplify_eq; done. Qed.
Lemma unit_command_Ok args id unit w w' : runtimeHostUnit id = Ok unit -> unit_command systemctl args id w = (Ok tt, w') -> exists out, systemctl (args ++ [unit]) w = (Ok out, w').
Proof. unfold unit_command. intros Hu Hr. rewrite Hu in Hr. inv_io. simplify_eq. eauto. Qed.
Lemma run_action_Ok p w w' unit : runtimeHostUnit (pa_runtime p) = Ok unit -> run_action systemctl p w = (Ok tt, w') -> acted (pa_action p) unit w w'.
Proof.
  intros Hu Hr. unfold run_action, start, restart, drain, stop, acted in *.
  destruct (pa_action p); cbn; try exact (unit_command_Ok _ _ _ _ _ Hu Hr).
  - split; [done|]. unfold mret, io_ret in Hr. congruence.
  - by apply lift_Ok in Hr as [[=] _].
Qed.
Lemma execute_executed p w r w' : execute systemctl readFile p w = (Ok r, w') -> executed p w r w'.
Proof.
  unfold execute. intros He. apply bind_io_Ok in He as (before & w1 & Hb & He). apply catch_world in Hb as ->.
  apply bind_io_Ok in He as ([] & w2 & Hrun & He). apply bind_io_Ok in He as (after & w3 & Hshow & He). apply bind_io_Ok in He as (process & w4 & Hp & He).
  injection He as <- <-. cbn [er_after er_process]. unfold show in Hshow at 1. inv_io. simplify_eq. eexists _, w2, _, _.
  split_and!; [eassumption|by apply run_action_Ok|eassumption|eassumption|]. cbn [er_after er_process]. destruct (0 <? mainPid after); [done|]. unfold mret, io_ret in Hp. by simplify_eq.
Qed.

(** What reaches the ledger *)
Definition readback_payload (p : PreparedRuntimeAction) (after : SystemdUnitState) (process : option ProcessReadback) : json :=
  canonicalize (JObj [("unit", unit_json after); ("process", process_json process); ("operationName", JStr (pa_operationName p)); ("runtimeInstanceId", JStr (pa_runtime p))]).
Definition failure_payload (p : PreparedRuntimeAction) (e : exn) : json :=
  canonicalize (JObj [("operationName", JStr (pa_operationName p)); ("runtimeInstanceId", JStr (pa_runtime p)); ("outcome", JStr "UNKNOWN"); ("errorCode", JStr (error_message e))]).

(** C39. A runtime effect is applied only on read-back.  When the action ran and [reconcile] reports it as applied, its
    command had succeeded, and [systemctl show] was asked after that, in the world the command left; its answer shows the state the action
    aims at (active after start, restart and drain; inactive without a main process after stop and cleanup).  The last evidence of the
    effect in the ledger is exactly that answer, with its digest and status CONFIRMED_APPLIED, and the instance row takes its state and the identity of its
    process from it.  When it reports a failure, no instance and no cleanup operation changed, and the last evidence is UNKNOWN, with the error, if the run
    failed, and otherwise the answer that does not show the effect, with CONFIRMED_NOT_APPLIED. *)
Theorem runtime_effect_confirmed p w execution w' correlation now d r d' :
  execute systemctl readFile p w = (execution, w') -> reconcile p execution correlation now d = Ok (r, d') ->
  match r with
  | APPLIED output => exists readback, execution = Ok readback /\ executed p w readback w' /\ shows (pa_action p) (er_after readback)
      /\ output = applied_output p (effectiveStateFromReadback (pa_action p) (er_after readback)) readback
      /\ last_readback (pa_sideEffect p) CONFIRMED_APPLIED (readback_payload p (er_after readback) (er_process readback)) (ledger d')
      /\ (forall x, instances d !! pa_runtime p = Some x ->
            exists y, instances d' !! pa_runtime p = Some y /\ authority y = authority x
              /\ effective_state (state y) = effectiveStateFromReadback (pa_action p) (er_after readback)
              /\ rs_invocation (state y) = invocationId (er_after readback) /\ rs_pid (state y) = pr_pid <$> er_process readback
              /\ rs_boot (state y) = pr_bootId <$> er_process readback /\ rs_ticks (state y) = pr_startTicks <$> er_process readback)
  | FAILED e =>
      instances d' = instances d /\ cleanup_operations d' = cleanup_operations d
      /\ ((execution = Throw e /\ last_readback (pa_sideEffect p) UNKNOWN (failure_payload p e) (ledger d'))
          \/ exists readback, execution = Ok readback /\ executed p w readback w' /\ ~ shows (pa_action p) (er_after readback)
               /\ last_readback (pa_sideEffect p) CONFIRMED_NOT_APPLIED (readback_payload p (er_after readback) (er_process readback)) (ledger d'))
  end.
Proof.
  unfold reconcile. intros Hx E. destruct execution as [x|e].
  - apply execute_executed in Hx. apply bind_Ok_inv in E as (l & Hl & E). pose proof (effect_applied_shows p x) as Hshow. destruct (effect_applied p x); cbn [negb] in E.
    + apply bind_Ok_inv in E as ([n d1] & Hu & E). injection E as <- <-.
      apply readback_last in Hl. apply update_instance_Ok in Hu as (Hled & _ & Hu). cbn [ledger instances set_ledger disposition_status] in *.
      set (d2 := match pa_cleanup p with Some c => if _ : bool then mark_cleanup c d1 else d1 | None => d1 end).
      assert (Hfr : ledger d2 = ledger d1 /\ instances d2 = instances d1).
      { unfold d2. destruct (pa_cleanup p); [|done]. case_match; [apply mark_cleanup_frame|done]. }
      destruct Hfr as [-> ->]. rewrite Hled. exists x. split_and!; [done|done|by apply Hshow|done|done|].
      intros y Hy. destruct Hu as [(y' & Hy' & _ & ->)|(Hn & _)]; [|congruence].
      rewrite Hy in Hy'. injection Hy' as <-. rewrite lookup_insert_eq. by eexists.
    + injection E as <- <-. apply readback_last in Hl. cbn [ledger instances cleanup_operations set_ledger disposition_status] in *. split_and!; [done|done|]. right. exists x.
      split_and!; [done|done| |done]. intros C. by apply Hshow in C.
  - apply bind_Ok_inv in E as (l & Hl & E). injection E as <- <-. apply readback_last in Hl. cbn [ledger instances cleanup_operations set_ledger disposition_status] in *. eauto 10.
Qed.
End Reconcile.

(** ** Samples *)

Definition runtime_id : string := "aaaaaaaa-aaaa-4aaa-8aaa-aaaaaaaaaaaa".
Definition runtime_unit : string := "kcml-runtime-host@" +:+ runtime_id +:+ ".service".
Definition sample_authority : runtime_authority :=
  {| ra_component := "component"; ra_generation := 1; ra_unit := runtime_unit; ra_service_class := "kcml-runtime-host";
     ra_incarnation := "incarnation"; ra_deployment := 2; ra_epoch := 3; ra_launch_manifest := repeat 1 32; ra_namespace := repeat 2 32;
     ra_runtime_digest := repeat 3 32; ra_artifact_digest := repeat 4 32; ra_uid := 100; ra_gid := 100; ra_revision := "revision";
     ra_release := "release"; ra_binding_set := "bindings"; ra_target := "target" |}.
Definition sample_state : runtime_state :=
  {| desired_state := "STOPPED"; effective_state := "ABSENT"; rs_invocation := None; rs_boot := None; rs_pid := None; rs_ticks := None;
     rs_cgroup := "/"; gateway_connection := None; heartbeat_sequence := 0; drain_operation := None; stop_operation := None;
     restart_operation := None; stopped_at := None; rs_correlation := None; state_version := 1 |}.
Definition sample_db : rt_db :=
  {| ledger := empty_db; instances := {[runtime_id := {| authority := sample_authority; state := sample_state |}]};
     cleanup_operations := ∅; components := ∅ |}.
Definition sample_execution (operation : string) : execution_context :=
  {| ec_commandId := "command"; ec_logicalOperationId := "operation"; ec_operationName := operation; ec_sideEffectClass := "EXTERNAL";
     ec_retryClass := "NONE"; ec_incarnation := "incarnation"; ec_deployment := 2; ec_epoch := 3; ec_recoveryEpoch := 1;
     ec_correlationId := "correlation"; ec_targetId := Some runtime_id; ec_expectedStateVersion := Some 1 |}.
(** A host whose unit is active with process 42, and never fails *)
Definition lines (l : list string) : string := of_chars (concat (map (fun s => chars s ++ [newline]) l)).
Definition sample_comm : list ascii := chars "a) 7 (b".
Definition sample_fields : list (list ascii) := map chars ("S" :: repeat "1" 18 ++ ["9001"; "5"]).
Definition sample_systemctl (args : list string) : io Z string := fun w =>
  match args with
  | "show" :: _ => (Ok (lines ["MainPID=42"; "ActiveState=active"; "LoadState=loaded"; "ControlGroup=/kcml/host"; "no separator";
                               "InvocationID=0123456789abcdef0123456789abcdef"]), w)
  | _ => (Ok "", w + 1)
  end.
Definition sample_read (path : string) : io Z string := fun w =>
  if String.eqb path "/proc/42/stat" then (Ok (proc_stat "42" sample_comm sample_fields), w)
  else if String.eqb path "/proc/42/cgroup" then (Ok (lines ["0::/kcml/host"]), w)
  else (Ok (lines [runtime_id]), w).
Definition sample_prepared (operation : string) : option (PreparedRuntimeAction * rt_db) :=
  match prepare (L := code_unit_locale) (H := toy_hash) "side-effect" (sample_execution operation) sample_db with Ok x => Some x | Throw _ => None end.
Example sample_run :
  (fun x => (fst (execute sample_systemctl sample_read (fst x) 0))) <$> sample_prepared "runtime.instance.start" =
  Some (Ok (let u := {| su_unit := runtime_unit; loadState := "loaded"; activeState := "active"; subState := "unknown"; mainPid := 42;
                        invocationId := Some "01234567-89ab-cdef-0123-456789abcdef"; controlGroup := "/kcml/host"; su_result := "unknown" |} in
            {| er_action := START; er_before := u; er_after := u;
               er_process := Some {| pr_pid := 42; pr_bootId := runtime_id; pr_startTicks := 9001; pr_cgroupPath := "/kcml/host" |} |})).
Proof. vm_compute. reflexivity. Qed.

Lemma start_ticks_field_witness : startTicks (proc_stat "42" sample_comm sample_fields) = Ok 9001.
Proof.
  apply (start_ticks_field "42" sample_comm sample_fields (chars "9001")).
  - repeat constructor; discriminate.
  - repeat constructor.
  - reflexivity.
  - reflexivity.
Defined.
(** The host above runs every command and changes nothing: a start is applied, a stop is not, its unit is still active when it is read back. *)
Definition sample_execution_of (x : PreparedRuntimeAction * rt_db) : result RuntimeExecutionReadback * Z := execute sample_systemctl sample_read (fst x) 0.
Definition sample_reconcile (x : PreparedRuntimeAction * rt_db) : result (reconcile_result * rt_db) :=
  reconcile (L := code_unit_locale) (H := toy_hash) (fst x) (fst (sample_execution_of x)) "correlation" 9 (snd x).
Definition not_stopped (x : PreparedRuntimeAction * rt_db) : bool :=
  match sample_reconcile x with
  | Ok (FAILED (JsError m), _) => String.eqb m "RUNTIME_SYSTEMD_READBACK_NOT_APPLIED"
  | _ => false
  end.
Definition is_applied (x : PreparedRuntimeAction * rt_db) : bool := match sample_reconcile x with Ok (APPLIED _, _) => true | _ => false end.
Lemma sample_not_stopped : not_stopped <$> sample_prepared "runtime.stop" = Some true.
Proof. vm_compute. reflexivity. Qed.
Example sample_started : is_applied <$> sample_prepared "runtime.instance.start" = Some true.
Proof. vm_compute. reflexivity. Qed.
Lemma runtime_effect_confirmed_witness :
  exists x r d', sample_prepared "runtime.stop" = Some x /\ not_stopped x = true /\ sample_reconcile x = Ok (r, d')
    /\ instances d' = instances (snd x).
Proof.
  pose proof sample_not_stopped as S. destruct (sample_prepared "runtime.stop") as [x|]; [|discriminate S].
  apply (inj Some) in S. unfold not_stopped in S. destruct (sample_reconcile x) as [[r d']|] eqn:R; [|discriminate S].
  pose proof (@runtime_effect_confirmed code_unit_locale toy_hash Z sample_systemctl sample_read (fst x) 0 (fst (sample_execution_of x)) (snd (sample_execution_of x))
    "correlation" 9 (snd x) r d' (surjective_pairing _) R) as T.
  destruct r as [e|]; [|discriminate S]. exists x, (FAILED e), d'. unfold not_stopped. rewrite R.
  split; [reflexivity|]. split; [exact S|]. split; [reflexivity|]. apply T.
Defined.
