(* ===== verification/RuntimeGateway.v ===== *)
(** * The runtime gateway

    [packages/worker-runtime/src/runtime-gateway.ts]: the activated listener, the kernel identity of a peer, the current
    snapshot of its runtime instance, the transactions that open and close a connection, and the frame handler of each
    connection as a transition system over the tables, the host and the connections.  The kernel, [systemctl] and the
    proc file system are parameters over an arbitrary world; the gateway's own pidfds are explicit.

    The query of the snapshot names two columns that [platform_recovery_head] does not have.  The columns of that table are a parameter
    of the transition system: with those of the baseline nobody is ever accepted; the other theorems hold for any columns,
    and say what the gateway guarantees where the query can run. *)
From Stdlib Require Import Ascii String.
From S2P Require Import Prelude Bytes Json Text Digest CanonicalValue SideEffect IpcFrame IpcChannel IpcBroker ErrorRegistry Schemas RuntimeSystemd.

(** ** The greeting *)

Record RuntimeHostHello := { hh_runtime : string; hh_generation : string; hh_unit : string; hh_manifest : string }.
Record Heartbeat := { hb_runtime : string; hb_generation : string; hb_sequence : string }.
(** [/^[1-9][0-9]*$/u] *)
Definition positive_text (s : string) : bool := match chars s with c :: r => in_range "1" "9" c && forallb is_digit r | [] => false end.
Definition z_literal (s : string) : json -> option string := z_string (String.eqb s).
Definition RUNTIME_IPC_PROTOCOL : string := "KCML-RUNTIME-IPC/1".
Definition SERVICE_CLASS : string := "kcml-runtime-host".
(** [BigInt(text)] where the schema has checked the digits *)
Definition big (s : string) : Z := digits_Z (chars s).

Section Greeting.
Context `{F : Formats}.
Definition runtimeHostHelloSchema (j : json) : option RuntimeHostHello :=
  l ← z_strict ["protocol"; "peerKind"; "serviceClass"; "runtimeInstanceId"; "runtimeGeneration"; "systemdUnit"; "launchManifestDigest"] j;
  _ ← z_field l "protocol" (z_literal RUNTIME_IPC_PROTOCOL);
  _ ← z_field l "peerKind" (z_literal "RUNTIME_HOST");
  _ ← z_field l "serviceClass" (z_literal SERVICE_CLASS);
  runtime ← z_field l "runtimeInstanceId" z_uuid;
  generation ← z_field l "runtimeGeneration" (z_string positive_text);
  unit ← z_field l "systemdUnit" (z_sized 1 512);
  manifest ← z_field l "launchManifestDigest" (z_string digest_ok);
  Some {| hh_runtime := runtime; hh_generation := generation; hh_unit := unit; hh_manifest := manifest |}.
Definition heartbeatSchema (j : json) : option Heartbeat :=
  l ← z_strict ["runtimeInstanceId"; "runtimeGeneration"; "heartbeatSequence"] j;
  runtime ← z_field l "runtimeInstanceId" z_uuid;
  generation ← z_field l "runtimeGeneration" (z_string positive_text);
  number ← z_field l "heartbeatSequence" (z_string positive_text);
  Some {| hb_runtime := runtime; hb_generation := generation; hb_sequence := number |}.
(** [schema.parse(frame.payload)]: the payload of a stream chunk is a buffer. *)
Definition parse_payload {A} (schema : json -> option A) (p : frame_payload) : result A :=
  match p with PJson j => or_throw (schema j) ZodError | PBuffer _ => Throw ZodError end.
End Greeting.

(** ** Texts *)

(** [/^...[1-8].../u]: eight UUID versions, where [runtime-systemd.ts] takes five *)
Definition UUID_PATTERN : string -> bool := uuid_pattern ["1"; "2"; "3"; "4"; "5"; "6"; "7"; "8"]%char.
Definition requireGatewayUuid : option string -> string -> result string := require_pattern UUID_PATTERN.
(** The same text as [startTicks] in [runtime-systemd.ts] *)
Definition parseProcStartTicks (stat : string) : result Z := startTicks stat.
(** [replace(/\\x2d/gu, '-')]; [skip] characters of a match are left. *)
Fixpoint unescape_dash (skip : nat) (l : list ascii) : list ascii :=
  match l with
  | [] => []
  | c :: r =>
      match skip with
      | S k => unescape_dash k r
      | O => if bool_decide (firstn 4 l = chars "\x2d") then "-"%char :: unescape_dash 3 r else c :: unescape_dash 0 r
      end
  end.
Definition cgroup_leaf (path : string) : string :=
  of_chars (unescape_dash 0 (chars (default "" (last (List.filter truthy (split_on "/" path)))))).
(** [/^kcml-runtime-host@[0-9a-f-]{36}\.service$/u] *)
Definition host_unit_leaf (leaf : string) : bool :=
  let r := skipn 18 (chars leaf) in
  starts_with "kcml-runtime-host@" leaf && (36 <=? length r)%nat && forallb (fun c => is_hex c || Ascii.eqb c "-") (firstn 36 r)
  && String.eqb (of_chars (skipn 36 r)) ".service".
Definition runtimeUnitFromCgroup (cgroup : string) : result string :=
  or_throw (List.find host_unit_leaf (map cgroup_leaf (cgroup_paths cgroup))) (JsError "RUNTIME_CGROUP_UNIT_NOT_FOUND").
(** [/^Label:\s+(\d+)/mu.exec(status)?.[1]] *)
Definition number_after (l : list ascii) : option (list ascii) :=
  match l with
  | c :: _ => if js_space c then match fst (span is_digit (drop_spaces l)) with [] => None | d => Some d end else None
  | [] => None
  end.
Definition line_end (c : ascii) : bool := existsb (Z.eqb (code c)) [10; 13].
Fixpoint status_field (label : list ascii) (start : bool) (l : list ascii) : option (list ascii) :=
  match l with
  | [] => None
  | c :: r =>
      match (if start && bool_decide (firstn (length label) l = label) then number_after (skipn (length label) l) else None) with
      | Some d => Some d
      | None => status_field label (line_end c) r
      end
  end.
Definition status_number (label status : string) : Z :=
  match status_field (chars label) true (chars status) with Some d => digits_Z d | None => -1 end.
(** [value.endsWith(`/${unit}`) || value === `/${unit}`] *)
Definition ends_with_unit (unit path : string) : bool :=
  let suffix := chars ("/" +:+ unit) in
  (length suffix <=? length (chars path))%nat && bool_decide (skipn (length (chars path) - length suffix) (chars path) = suffix).

(** ** The listener *)

Definition assertRuntimeGatewayActivationEnvironment (environment : gmap string string) (pid : Z) : result unit :=
  let has (name value : string) := match environment !! name with Some v => String.eqb v value | None => false end in
  _ ← throw_if (negb (has "LISTEN_PID" (dec pid))) (JsError "RUNTIME_SOCKET_ACTIVATION_PID_MISMATCH");
  _ ← throw_if (negb (has "LISTEN_FDS" "1")) (JsError "RUNTIME_SOCKET_ACTIVATION_FD_COUNT_INVALID");
  throw_if (negb (has "LISTEN_FDNAMES" "runtime-gateway")) (JsError "RUNTIME_SOCKET_ACTIVATION_FD_NAME_INVALID").
(** What the native inspection of a socket descriptor reports *)
Record RuntimeSocketFdEvidence := {
  so_family : string; so_type : string; so_accepting : bool; so_nonBlocking : bool; so_closeOnExec : bool; so_localPath : string;
  so_device : Z; so_inode : Z;
}.
Record lstat_result := { st_isSocket : bool; st_isDirectory : bool; st_isSymbolicLink : bool; st_dev : Z; st_ino : Z; st_mode : Z; st_uid : Z; st_gid : Z }.
Record ListenerEvidence := { le_path : string; le_device : Z; le_inode : Z; le_uid : Z; le_gid : Z; le_mode : Z }.
(** [mode & 0o777n]; below, [0x1b0] is [0o660] and [0x1e8] is [0o750]. *)
Definition permissions (s : lstat_result) : Z := Z.land (st_mode s) 0x1ff.
(** [uid] and [groups] are those of the process. *)
Definition listenerEvidence (path : string) (environment : gmap string string) (pid uid : Z) (groups : list Z) (native : result RuntimeSocketFdEvidence)
    (socket parent : result lstat_result) : result ListenerEvidence :=
  _ ← assertRuntimeGatewayActivationEnvironment environment pid;
  native ← native;
  _ ← throw_if (negb (String.eqb (so_family native) "AF_UNIX") || negb (String.eqb (so_type native) "SOCK_STREAM") || negb (so_accepting native)
                || negb (so_nonBlocking native) || negb (so_closeOnExec native)) (JsError "RUNTIME_SOCKET_ACTIVATION_FD_INVALID");
  _ ← throw_if (negb (String.eqb (so_localPath native) path)) (JsError "RUNTIME_SOCKET_ACTIVATION_PATH_MISMATCH");
  socket ← socket;
  parent ← parent;
  _ ← throw_if (negb (st_isSocket socket) || st_isSymbolicLink socket) (JsError "RUNTIME_SOCKET_PATH_TYPE_INVALID");
  _ ← throw_if (negb (st_dev socket =? so_device native) || negb (st_ino socket =? so_inode native)) (JsError "RUNTIME_SOCKET_SUBSTITUTION_DETECTED");
  _ ← throw_if (negb (permissions socket =? 0x1b0)) (JsError "RUNTIME_SOCKET_MODE_INVALID");
  _ ← throw_if (negb (st_uid socket =? uid)) (JsError "RUNTIME_SOCKET_OWNER_INVALID");
  _ ← throw_if (negb (existsb (Z.eqb (st_gid socket)) groups)) (JsError "RUNTIME_SOCKET_GROUP_INVALID");
  _ ← throw_if (negb (st_isDirectory parent) || st_isSymbolicLink parent || negb (st_uid parent =? 0) || negb (permissions parent =? 0x1e8)
                || negb (st_gid parent =? st_gid socket)) (JsError "RUNTIME_SOCKET_PARENT_INVALID");
  Ok {| le_path := path; le_device := st_dev socket; le_inode := st_ino socket; le_uid := st_uid socket; le_gid := st_gid socket;
        le_mode := permissions socket |}.

(** ** The peer *)

Record PeerCredentials := { cred_pid : Z; cred_uid : Z; cred_gid : Z }.
Record PeerKernelIdentity := {
  pk_credentials : PeerCredentials; pk_bootId : string; pk_startTicks : Z; pk_cgroupPath : string; pk_unit : string; pk_invocationId : string;
  pk_pidfd : Z;
}.
Definition z_int (j : json) : option Z := match j with JNum n => Some n | _ => None end.
Definition parse_credentials (stdout : string) : option PeerCredentials :=
  j ← JSON_parse stdout;
  l ← z_record j;
  pid ← z_field l "pid" z_int; uid ← z_field l "uid" z_int; gid ← z_field l "gid" z_int;
  if (0 <? pid) && (0 <=? uid) && (0 <=? gid) then Some {| cred_pid := pid; cred_uid := uid; cred_gid := gid |} else None.

(** The host as the gateway uses it: a world, and the pidfds the gateway holds open *)
Record host (W : Type) := { world : W; pidfds : list Z }.
Arguments world {W} h.
Arguments pidfds {W} h.
Definition on_world {W A} (m : io W A) : io (host W) A := fun h =>
  let '(r, w) := m (world h) in (r, {| world := w; pidfds := pidfds h |}).
Definition remove_first (fd : Z) (l : list Z) : list Z :=
  match list_find (fun x => x = fd) l with Some (i, _) => delete i l | None => l end.
Definition closeSync {W} (fd : Z) : io (host W) unit := fun h =>
  if existsb (Z.eqb fd) (pidfds h) then (Ok tt, {| world := world h; pidfds := remove_first fd (pidfds h) |})
  else (Throw (JsError "EBADF"), h).
(** [try { m } catch (error) { closeSync(fd); throw error; }] *)
Definition or_close {W A} (fd : Z) (m : io (host W) A) : io (host W) A := fun h =>
  match m h with
  | (Throw e, h) => match closeSync fd h with (Ok _, h) => (Throw e, h) | (Throw e, h) => (Throw e, h) end
  | ok => ok
  end.

Section Peer.
Context {W : Type} (systemctl : list string -> io W string) (readFile : string -> io W string).
(** The output of the credential helper on the peer's socket, or its failure; and [pidfd_open] *)
Variable peercred : io W string.
Variable openPidfd : Z -> io W Z.

Definition peerCredentials : io W PeerCredentials :=
  stdout ← peercred; lift (or_throw (parse_credentials stdout) (JsError "RUNTIME_PEERCRED_INVALID")).
Definition openPinnedPidfd (pid : Z) : io (host W) Z := fun h =>
  if pid <=? 0 then (Throw (JsError "RUNTIME_PEER_PID_INVALID"), h) else
  match openPidfd pid (world h) with
  | (Ok fd, w) => (Ok fd, {| world := w; pidfds := fd :: pidfds h |})
  | (Throw e, w) => (Throw e, {| world := w; pidfds := pidfds h |})
  end.
Definition identity_checks (hello : RuntimeHostHello) (credentials : PeerCredentials) (pidfd : Z) : io W PeerKernelIdentity :=
  let proc := "/proc/" +:+ dec (cred_pid credentials) in
  statBefore ← readFile (proc +:+ "/stat");
  before ← lift (parseProcStartTicks statBefore);
  status ← readFile (proc +:+ "/status");
  cgroup ← readFile (proc +:+ "/cgroup");
  bootIdRaw ← readFile "/proc/sys/kernel/random/boot_id";
  bootId ← lift (requireGatewayUuid (Some (trim bootIdRaw)) "HOST_BOOT_ID");
  _ ← lift (throw_if (negb (status_number "Uid:" status =? cred_uid credentials) || negb (status_number "Gid:" status =? cred_gid credentials))
              (JsError "RUNTIME_PEER_PROC_CREDENTIAL_MISMATCH"));
  unit ← lift (runtimeUnitFromCgroup cgroup);
  _ ← (if negb (String.eqb unit (hh_unit hello)) then lift (Throw (JsError "RUNTIME_PEER_SYSTEMD_UNIT_MISMATCH"))
       else expected ← lift (runtimeHostUnit (hh_runtime hello));
            lift (throw_if (negb (String.eqb unit expected)) (JsError "RUNTIME_PEER_SYSTEMD_UNIT_MISMATCH")));
  systemd ← show systemctl (hh_runtime hello);
  statAfter ← readFile (proc +:+ "/stat");
  after ← lift (parseProcStartTicks statAfter);
  _ ← lift (throw_if (negb (before =? after)) (JsError "RUNTIME_PID_REUSE_DETECTED"));
  let cgroupPath := find_path (ends_with_unit unit) (cgroup_paths cgroup) in
  _ ← lift (throw_if (negb (String.eqb (activeState systemd) "active") || negb (mainPid systemd =? cred_pid credentials)
                      || negb (String.eqb (controlGroup systemd) cgroupPath)) (JsError "RUNTIME_PEER_SYSTEMD_IDENTITY_MISMATCH"));
  invocation ← lift (or_throw (invocationId systemd) (JsError "RUNTIME_PEER_SYSTEMD_IDENTITY_MISMATCH"));
  mret {| pk_credentials := credentials; pk_bootId := bootId; pk_startTicks := before; pk_cgroupPath := cgroupPath; pk_unit := unit;
          pk_invocationId := invocation; pk_pidfd := pidfd |}.
Definition readPeerKernelIdentity (hello : RuntimeHostHello) : io (host W) PeerKernelIdentity :=
  credentials ← on_world peerCredentials;
  pidfd ← openPinnedPidfd (cred_pid credentials);
  or_close pidfd (on_world (identity_checks hello credentials pidfd)).
End Peer.

(** ** Tables *)

(** The columns that the snapshot query reads of revision, release and runtime target, and the four singleton heads *)
Record revision_row := { rv_validation_state : string; rv_verification_state : string }.
Record release_row := { re_state : string; re_artifact_digest : list Z; re_runtime_digest : list Z }.
Record platform_heads := {
  ph_incarnation : string; ph_deployment_epoch : Z; ph_activation_epoch : Z;
  ph_recovery : gmap string json; (* the row of [platform_recovery_head], by column *)
}.
(** [(host_boot_id, linux_pid, process_start_ticks)] *)
Abbreviation kernel_key := (string * Z * Z)%type.
Record identity_row := {
  pi_instance : string; pi_generation : Z; pi_role : string; pi_uid : Z; pi_gid : Z; pi_unit : string; pi_invocation : string;
  pi_cgroup : string; pi_namespace_digest : list Z; pi_executable_digest : list Z; pi_release_digest : list Z; pi_exited : bool;
  pi_digest : list Z; pi_epoch : Z; pi_incarnation : string; pi_deployment : Z;
}.
Record connection_row := {
  ic_path : string; ic_socket : Z * Z; ic_owner : Z; ic_group : Z; ic_mode : Z; ic_uid : Z; ic_gid : Z; ic_peer : kernel_key;
  ic_cgroup : string; ic_instance : string; ic_generation : Z; ic_invocation : string; ic_protocol_digest : list Z; ic_last_sequence : Z;
  ic_state : string; ic_close_reason : option string; ic_digest : list Z; ic_epoch : Z; ic_incarnation : string; ic_deployment : Z;
  ic_version : Z;
}.
Record gw_db := {
  rt : rt_db; revisions : gmap string revision_row; releases : gmap string release_row; targets : gmap string string;
  heads : option platform_heads; identities : gmap kernel_key identity_row; connections : gmap string connection_row;
}.
Definition set_rt (t : rt_db) (d : gw_db) : gw_db :=
  {| rt := t; revisions := revisions d; releases := releases d; targets := targets d; heads := heads d; identities := identities d;
     connections := connections d |}.
Definition set_identities (t : gmap kernel_key identity_row) (d : gw_db) : gw_db :=
  {| rt := rt d; revisions := revisions d; releases := releases d; targets := targets d; heads := heads d; identities := t;
     connections := connections d |}.
Definition set_connections (t : gmap string connection_row) (d : gw_db) : gw_db :=
  {| rt := rt d; revisions := revisions d; releases := releases d; targets := targets d; heads := heads d; identities := identities d;
     connections := t |}.

(** ** The snapshot *)

Definition asDigest (value : list Z) (label : string) : result (list Z) :=
  _ ← throw_if (negb (length value =? 32)%nat) (JsError (label +:+ "_INVALID")); Ok value.
Definition sha256Label (value : list Z) (label : string) : result string := d ← asDigest value label; Ok ("sha256:" +:+ hex d).
Record snapshot := {
  sn_runtime : runtime_row; sn_component : component_row; sn_revision : revision_row; sn_release : release_row; sn_target : string;
  sn_heads : platform_heads;
}.
(** The columns of [kcml.platform_recovery_head] as the baseline creates it; no migration changes it. *)
Definition platform_recovery_head_columns : list string :=
  ["singleton_key"; "database_start_identity"; "platform_incarnation_id"; "application_deployment_epoch"; "recovery_epoch"; "state"; "state_version"; "current_attempt_id";
   "current_fencing_token"; "ready_evidence_digest"; "updated_at"].
(** The columns of it that the query names *)
Definition recovery_columns_read : list string := ["state"; "database_identity_current"; "recovery_lineage_current"; "singleton_key"].
(** The joined row, from a recovery head with the given columns: PostgreSQL refuses a query that names another one
    (undefined_column), whatever the rows are.  Uuids compare without letter case. *)
Definition snapshot_query (columns : list string) (d : gw_db) (runtimeInstanceId : string) : result (option snapshot) :=
  _ ← throw_if (negb (forallb (fun x => includes x columns) recovery_columns_read)) (PgError "42703");
  Ok (r ← instances (rt d) !! to_lower runtimeInstanceId;
      let a := authority r in
      c ← components (rt d) !! ra_component a;
      v ← revisions d !! ra_revision a;
      e ← releases d !! ra_release a;
      t ← targets d !! ra_target a;
      h ← heads d;
      Some {| sn_runtime := r; sn_component := c; sn_revision := v; sn_release := e; sn_target := t; sn_heads := h |}).
Definition recovery_is_true (h : platform_heads) (column : string) : bool := match ph_recovery h !! column with Some (JBool true) => true | _ => false end.
Definition recovery_is (h : platform_heads) (column text : string) : bool := match ph_recovery h !! column with Some (JStr s) => String.eqb s text | _ => false end.
Definition opt_is (o : option string) (s : string) : bool := match o with Some x => String.eqb x s | None => false end.
Definition bytes_eqb (a b : list Z) : bool := bool_decide (a = b).
Definition NOT_CURRENT : exn := JsError "RUNTIME_CONTEXT_NOT_CURRENT".
Definition validateRuntimeSnapshot (columns : list string) (d : gw_db) (hello : RuntimeHostHello) (peer : PeerKernelIdentity) : result runtime_row :=
  found ← snapshot_query columns d (hh_runtime hello);
  s ← or_throw found NOT_CURRENT;
  let a := authority (sn_runtime s) in let c := sn_component s in let h := sn_heads s in
  _ ← throw_if (negb (ra_generation a =? big (hh_generation hello))) (JsError "RUNTIME_GENERATION_STALE");
  _ ← throw_if (negb (String.eqb (ra_unit a) (hh_unit hello)) || negb (String.eqb (ra_service_class a) SERVICE_CLASS))
        (JsError "RUNTIME_PEER_SYSTEMD_IDENTITY_MISMATCH");
  manifest ← sha256Label (ra_launch_manifest a) "RUNTIME_LAUNCH_MANIFEST_DIGEST";
  _ ← throw_if (negb (String.eqb manifest (hh_manifest hello))) (JsError "RUNTIME_LAUNCH_MANIFEST_MISMATCH");
  _ ← throw_if (negb (ra_uid a =? cred_uid (pk_credentials peer)) || negb (ra_gid a =? cred_gid (pk_credentials peer)))
        (JsError "RUNTIME_PEER_CREDENTIAL_MISMATCH");
  _ ← throw_if (negb (String.eqb (ra_incarnation a) (ph_incarnation h)) || negb (ra_deployment a =? ph_deployment_epoch h)
                || negb (ra_epoch a =? ph_activation_epoch h)) NOT_CURRENT;
  _ ← throw_if (negb (recovery_is h "state" "READY") || negb (recovery_is_true h "database_identity_current") || negb (recovery_is_true h "recovery_lineage_current"))
        (JsError "PLATFORM_RECOVERY_REQUIRED");
  _ ← throw_if (negb (String.eqb (c_lifecycle c) "ACTIVE") || negb (String.eqb (c_activation_state c) "ACTIVE") || negb (c_enabled c)
                || negb (opt_is (c_active_revision c) (ra_revision a)) || negb (opt_is (c_current_release c) (ra_release a))
                || negb (opt_is (c_binding_set c) (ra_binding_set a)) || negb (c_activation_epoch c =? ra_epoch a)) NOT_CURRENT;
  _ ← throw_if (negb (String.eqb (rv_validation_state (sn_revision s)) "VALID") || negb (String.eqb (rv_verification_state (sn_revision s)) "VERIFIED")
                || negb (String.eqb (re_state (sn_release s)) "ACTIVE") || negb (String.eqb (sn_target s) "ACTIVE")) NOT_CURRENT;
  artifact ← asDigest (re_artifact_digest (sn_release s)) "RELEASE_ARTIFACT_DIGEST";
  artifact' ← asDigest (ra_artifact_digest a) "RUNTIME_ARTIFACT_DIGEST";
  _ ← throw_if (negb (bytes_eqb artifact artifact')) (JsError "RUNTIME_RELEASE_DIGEST_MISMATCH");
  runtime ← asDigest (re_runtime_digest (sn_release s)) "RELEASE_RUNTIME_DIGEST";
  runtime' ← asDigest (ra_runtime_digest a) "RUNTIME_RUNTIME_DIGEST";
  _ ← throw_if (negb (bytes_eqb runtime runtime')) (JsError "RUNTIME_RELEASE_DIGEST_MISMATCH");
  Ok (sn_runtime s).

(** ** Transactions of a connection *)

Record AcceptedConnection := { ac_connectionId : string; ac_runtime : string; ac_generation : Z; ac_pidfd : Z }.
(** The columns that the gateway sets of a runtime instance *)
Definition instance_link (connection : option string) (effective : string) (s : runtime_state) : runtime_state :=
  {| desired_state := desired_state s; effective_state := effective; rs_invocation := rs_invocation s; rs_boot := rs_boot s;
     rs_pid := rs_pid s; rs_ticks := rs_ticks s; rs_cgroup := rs_cgroup s; gateway_connection := connection;
     heartbeat_sequence := heartbeat_sequence s; drain_operation := drain_operation s; stop_operation := stop_operation s;
     restart_operation := restart_operation s; stopped_at := stopped_at s; rs_correlation := rs_correlation s; state_version := state_version s + 1 |}.
Definition instance_connected (connectionId : string) (p : PeerKernelIdentity) (s : runtime_state) : runtime_state :=
  {| desired_state := desired_state s;
     effective_state := if includes (effective_state s) ["ABSENT"; "STOPPED"; "FAILED"; "UNKNOWN"] then "STARTING" else effective_state s;
     rs_invocation := Some (pk_invocationId p); rs_boot := Some (pk_bootId p); rs_pid := Some (cred_pid (pk_credentials p));
     rs_ticks := Some (pk_startTicks p); rs_cgroup := pk_cgroupPath p; gateway_connection := Some connectionId;
     heartbeat_sequence := heartbeat_sequence s; drain_operation := drain_operation s; stop_operation := stop_operation s;
     restart_operation := restart_operation s; stopped_at := stopped_at s; rs_correlation := rs_correlation s; state_version := state_version s + 1 |}.
Definition instance_disconnected (s : runtime_state) : runtime_state :=
  instance_link None (if String.eqb (effective_state s) "READY" then "UNKNOWN" else effective_state s) s.
Definition instance_beat (number : Z) (s : runtime_state) : runtime_state :=
  {| desired_state := desired_state s; effective_state := effective_state s; rs_invocation := rs_invocation s; rs_boot := rs_boot s;
     rs_pid := rs_pid s; rs_ticks := rs_ticks s; rs_cgroup := rs_cgroup s; gateway_connection := gateway_connection s;
     heartbeat_sequence := number; drain_operation := drain_operation s; stop_operation := stop_operation s;
     restart_operation := restart_operation s; stopped_at := stopped_at s; rs_correlation := rs_correlation s; state_version := state_version s + 1 |}.
(** A decimal parameter for a [bigint] or [integer] column *)
Definition fits (bits z : Z) : result unit := throw_if (2 ^ (bits - 1) <=? z) (PgError "22003").
Definition duplicate : exn := PgError "23505".

Section Transactions.
Context `{L : Locale} `{H : Hash}.
Definition gateway_digest (j : json) : list Z := digest (canonicalize j).
Definition protocolDigest : list Z :=
  gateway_digest (JObj [("protocol", JStr RUNTIME_IPC_PROTOCOL); ("magic", JStr "KCR1"); ("headerBytes", JNum (Z.of_nat RUNTIME_IPC_HEADER_BYTES));
                        ("maxPayload", JNum RUNTIME_IPC_MAX_PAYLOAD); ("maxUnary", JNum (16 * 1024 * 1024));
                        ("maxStreamChunk", JNum RUNTIME_IPC_MAX_STREAM_CHUNK); ("maxPending", JNum (Z.of_nat RUNTIME_IPC_MAX_PENDING))]).
Definition identity_evidence (hello : RuntimeHostHello) (p : PeerKernelIdentity) : json :=
  JObj [("runtimeInstanceId", JStr (hh_runtime hello)); ("runtimeGeneration", JStr (hh_generation hello));
        ("pid", JNum (cred_pid (pk_credentials p))); ("uid", JNum (cred_uid (pk_credentials p))); ("gid", JNum (cred_gid (pk_credentials p)));
        ("bootId", JStr (pk_bootId p)); ("startTicks", JStr (dec (pk_startTicks p))); ("unit", JStr (pk_unit p));
        ("invocationId", JStr (pk_invocationId p)); ("cgroupPath", JStr (pk_cgroupPath p))].
Definition kernel_key_of (p : PeerKernelIdentity) : kernel_key := (pk_bootId p, cred_pid (pk_credentials p), pk_startTicks p).
(** [INSERT ... ON CONFLICT (host_boot_id,linux_pid,process_start_ticks) DO NOTHING]; the other unique key is
    (instance, generation, role, pid). *)
Definition insert_identity (hello : RuntimeHostHello) (p : PeerKernelIdentity) (r : runtime_row) (d : gw_db) : result gw_db :=
  let a := authority r in
  namespace ← asDigest (ra_namespace a) "RUNTIME_NAMESPACE_PROFILE_DIGEST";
  executable ← asDigest (ra_runtime_digest a) "RUNTIME_EXECUTABLE_DIGEST";
  release ← asDigest (ra_artifact_digest a) "RUNTIME_RELEASE_DIGEST";
  _ ← fits 32 (cred_pid (pk_credentials p));
  _ ← fits 64 (pk_startTicks p);
  match identities d !! kernel_key_of p with
  | Some _ => Ok d
  | None =>
      _ ← throw_if (existsb (fun '((_, pid, _), i) => String.eqb (pi_instance i) (to_lower (hh_runtime hello)) && (pi_generation i =? ra_generation a)
                                 && String.eqb (pi_role i) "HOST" && (pid =? cred_pid (pk_credentials p))) (map_to_list (identities d))) duplicate;
      Ok (set_identities (<[kernel_key_of p :=
        {| pi_instance := to_lower (hh_runtime hello); pi_generation := ra_generation a; pi_role := "HOST"; pi_uid := cred_uid (pk_credentials p);
           pi_gid := cred_gid (pk_credentials p); pi_unit := pk_unit p; pi_invocation := pk_invocationId p; pi_cgroup := pk_cgroupPath p;
           pi_namespace_digest := namespace; pi_executable_digest := executable; pi_release_digest := release; pi_exited := false;
           pi_digest := gateway_digest (identity_evidence hello p); pi_epoch := ra_epoch a; pi_incarnation := ra_incarnation a;
           pi_deployment := ra_deployment a |}]> (identities d)) d)
  end.
Definition check_identity (hello : RuntimeHostHello) (p : PeerKernelIdentity) (d : gw_db) : result unit :=
  throw_if (match identities d !! kernel_key_of p with
            | Some i => pi_exited i || negb (String.eqb (pi_instance i) (hh_runtime hello)) || negb (pi_generation i =? big (hh_generation hello))
                        || negb (String.eqb (pi_unit i) (pk_unit p)) || negb (String.eqb (pi_invocation i) (pk_invocationId p))
            | None => true
            end) (JsError "RUNTIME_PROCESS_IDENTITY_MISMATCH").
Definition connection_evidence (connectionId : string) (listener : ListenerEvidence) (hello : RuntimeHostHello) (p : PeerKernelIdentity) : json :=
  JObj [("connectionId", JStr connectionId);
        ("listener", JObj [("path", JStr (le_path listener)); ("device", JStr (dec (le_device listener))); ("inode", JStr (dec (le_inode listener)));
                           ("mode", JNum (le_mode listener))]);
        ("peer", identity_evidence hello p); ("protocol", JStr RUNTIME_IPC_PROTOCOL)].
Definition insert_connection (connectionId : string) (listener : ListenerEvidence) (socket : RuntimeSocketFdEvidence) (hello : RuntimeHostHello)
    (p : PeerKernelIdentity) (r : runtime_row) (d : gw_db) : result gw_db :=
  let a := authority r in
  _ ← throw_if (is_some (connections d !! connectionId)
                || existsb (fun '(_, x) => bool_decide (ic_socket x = (so_device socket, so_inode socket)) && bool_decide (ic_peer x = kernel_key_of p))
                     (map_to_list (connections d))) duplicate;
  Ok (set_connections (<[connectionId :=
    {| ic_path := le_path listener; ic_socket := (so_device socket, so_inode socket); ic_owner := le_uid listener; ic_group := le_gid listener;
       ic_mode := le_mode listener; ic_uid := cred_uid (pk_credentials p); ic_gid := cred_gid (pk_credentials p); ic_peer := kernel_key_of p;
       ic_cgroup := pk_cgroupPath p; ic_instance := to_lower (hh_runtime hello); ic_generation := big (hh_generation hello);
       ic_invocation := pk_invocationId p; ic_protocol_digest := protocolDigest; ic_last_sequence := 1; ic_state := "ACTIVE";
       ic_close_reason := None; ic_digest := gateway_digest (connection_evidence connectionId listener hello p); ic_epoch := ra_epoch a;
       ic_incarnation := ra_incarnation a; ic_deployment := ra_deployment a; ic_version := 1 |}]> (connections d)) d).
(** The [WHERE] clause of the update: the snapshot's identities *)
Definition same_authority (generation : Z) (a : runtime_authority) (r : runtime_row) : bool :=
  let b := authority r in
  (ra_generation b =? generation) && bytes_eqb (ra_launch_manifest b) (ra_launch_manifest a) && String.eqb (ra_incarnation b) (ra_incarnation a)
  && (ra_deployment b =? ra_deployment a) && (ra_epoch b =? ra_epoch a).
Definition persistAcceptedConnection (columns : list string) (socket : RuntimeSocketFdEvidence) (connectionId : string) (listener : ListenerEvidence) (hello : RuntimeHostHello)
    (p : PeerKernelIdentity) (d : gw_db) : result (AcceptedConnection * gw_db) :=
  _ ← throw_if (negb (String.eqb (so_family socket) "AF_UNIX") || negb (String.eqb (so_type socket) "SOCK_STREAM") || so_accepting socket)
        (JsError "RUNTIME_PEER_SOCKET_INVALID");
  r ← validateRuntimeSnapshot columns d hello p;
  d ← insert_identity hello p r d;
  _ ← check_identity hello p d;
  d ← insert_connection connectionId listener socket hello p r d;
  '(n, t) ← update_instance (to_lower (hh_runtime hello)) (same_authority (big (hh_generation hello)) (authority r))
              (instance_connected connectionId p) (rt d);
  _ ← throw_if (negb (n =? 1)) NOT_CURRENT;
  Ok ({| ac_connectionId := connectionId; ac_runtime := hh_runtime hello; ac_generation := big (hh_generation hello); ac_pidfd := pk_pidfd p |},
      set_rt t d).
End Transactions.

Definition linked_to (a : AcceptedConnection) (r : runtime_row) : bool :=
  (ra_generation (authority r) =? ac_generation a) && opt_is (gateway_connection (state r)) (ac_connectionId a).
Definition close_row (reason : string) (x : connection_row) : connection_row :=
  {| ic_path := ic_path x; ic_socket := ic_socket x; ic_owner := ic_owner x; ic_group := ic_group x; ic_mode := ic_mode x; ic_uid := ic_uid x;
     ic_gid := ic_gid x; ic_peer := ic_peer x; ic_cgroup := ic_cgroup x; ic_instance := ic_instance x; ic_generation := ic_generation x;
     ic_invocation := ic_invocation x; ic_protocol_digest := ic_protocol_digest x; ic_last_sequence := ic_last_sequence x; ic_state := "CLOSED";
     ic_close_reason := Some (default (slice 0 1000 reason) (ic_close_reason x)); ic_digest := ic_digest x; ic_epoch := ic_epoch x;
     ic_incarnation := ic_incarnation x; ic_deployment := ic_deployment x; ic_version := ic_version x + 1 |}.
Definition beat_row (number : Z) (x : connection_row) : connection_row :=
  {| ic_path := ic_path x; ic_socket := ic_socket x; ic_owner := ic_owner x; ic_group := ic_group x; ic_mode := ic_mode x; ic_uid := ic_uid x;
     ic_gid := ic_gid x; ic_peer := ic_peer x; ic_cgroup := ic_cgroup x; ic_instance := ic_instance x; ic_generation := ic_generation x;
     ic_invocation := ic_invocation x; ic_protocol_digest := ic_protocol_digest x; ic_last_sequence := number; ic_state := ic_state x;
     ic_close_reason := ic_close_reason x; ic_digest := ic_digest x; ic_epoch := ic_epoch x; ic_incarnation := ic_incarnation x;
     ic_deployment := ic_deployment x; ic_version := ic_version x + 1 |}.
(** [UPDATE kcml.runtime_ipc_connection ... WHERE id=$1 AND p] *)
Definition update_connection (id : string) (p : connection_row -> bool) (f : connection_row -> connection_row) (d : gw_db) : Z * gw_db :=
  match connections d !! id with
  | Some x => if p x then (1, set_connections (<[id := f x]> (connections d)) d) else (0, d)
  | None => (0, d)
  end.
Definition closeConnectionEvidence (a : AcceptedConnection) (reason : string) (d : gw_db) : result gw_db :=
  let '(_, d) := update_connection (ac_connectionId a) (fun x => negb (String.eqb (ic_state x) "CLOSED")) (close_row reason) d in
  '(_, t) ← update_instance (to_lower (ac_runtime a)) (linked_to a) instance_disconnected (rt d);
  Ok (set_rt t d).
(** The two statements of a heartbeat, each committed on its own *)
Definition record_sequence (a : AcceptedConnection) (number : Z) (d : gw_db) : result gw_db :=
  let '(n, d) := update_connection (ac_connectionId a) (fun x => String.eqb (ic_state x) "ACTIVE" && (ic_last_sequence x <? number)) (beat_row number) d in
  _ ← throw_if (negb (n =? 1)) (JsError "RUNTIME_PROTOCOL_SEQUENCE_INVALID"); Ok d.
Definition record_heartbeat (a : AcceptedConnection) (hb : Heartbeat) (d : gw_db) : result gw_db :=
  _ ← fits 64 (big (hb_sequence hb));
  '(_, t) ← update_instance (to_lower (ac_runtime a)) (fun r => linked_to a r && (heartbeat_sequence (state r) <? big (hb_sequence hb)))
              (instance_beat (big (hb_sequence hb))) (rt d);
  Ok (set_rt t d).

(** ** Connections *)

(** Where the handler of a connection waits; frames that arrive meanwhile wait for it. *)
Inductive phase :=
| Idle
| Identifying (hello : RuntimeHostHello)
| Persisting (hello : RuntimeHostHello) (peer : PeerKernelIdentity)
| Recording (number : Z) (hb : Heartbeat)
| Beating (hb : Heartbeat).
(** [failed]: the error with which the handler destroyed the socket; [closing]: the reason of a close that is to be
    recorded. *)
Record peer_connection := {
  accepted : option AcceptedConnection; outboundSequence : Z; closed : bool; at_phase : phase; failed : option exn; closing : option string;
  written : list (list Z);
}.
Definition new_connection : peer_connection :=
  {| accepted := None; outboundSequence := 1; closed := false; at_phase := Idle; failed := None; closing := None; written := [] |}.
Definition set_phase (p : phase) (k : peer_connection) : peer_connection :=
  {| accepted := accepted k; outboundSequence := outboundSequence k; closed := closed k; at_phase := p; failed := failed k; closing := closing k;
     written := written k |}.
(** [catch((error) => socket.destroy(error))] *)
Definition fail (e : exn) (k : peer_connection) : peer_connection :=
  {| accepted := accepted k; outboundSequence := outboundSequence k; closed := closed k; at_phase := Idle;
     failed := match failed k with Some e => Some e | None => Some e end; closing := closing k; written := written k |}.
Definition set_closed (reason : option string) (k : peer_connection) : peer_connection :=
  {| accepted := accepted k; outboundSequence := outboundSequence k; closed := true; at_phase := at_phase k; failed := failed k;
     closing := reason; written := written k |}.
Definition set_accepted (a : AcceptedConnection) (k : peer_connection) : peer_connection :=
  {| accepted := Some a; outboundSequence := outboundSequence k; closed := closed k; at_phase := at_phase k; failed := failed k;
     closing := closing k; written := written k |}.

Section Gateway.
Context `{L : Locale} `{H : Hash} `{F : Formats}.
Context {W : Type} (systemctl : list string -> io W string) (readFile : string -> io W string).
(** Per connection: the credential helper and the inspection of the accepted socket; and [pidfd_open] *)
Context (peercred : nat -> io W string) (inspect : nat -> io W RuntimeSocketFdEvidence) (openPidfd : Z -> io W Z).
Variable (listener : ListenerEvidence) (columns : list string).

Record gateway := { kernel : host W; tables : gw_db; connected : gmap nat peer_connection }.
Definition set_kernel (h : host W) (g : gateway) : gateway := {| kernel := h; tables := tables g; connected := connected g |}.
Definition set_tables (d : gw_db) (g : gateway) : gateway := {| kernel := kernel g; tables := d; connected := connected g |}.
Definition set_connected (c : nat) (k : peer_connection) (g : gateway) : gateway :=
  {| kernel := kernel g; tables := tables g; connected := <[c := k]> (connected g) |}.

Definition read_peer (c : nat) : RuntimeHostHello -> io (host W) PeerKernelIdentity := readPeerKernelIdentity systemctl readFile (peercred c) openPidfd.
(** The handler until its first wait *)
Definition on_frame (f : RuntimeFrame) (k : peer_connection) : result phase :=
  match accepted k with
  | None =>
      _ ← throw_if (negb (bool_decide (frameType f = HELLO)) || negb (sequence f =? 1)) (JsError "RUNTIME_PROTOCOL_HELLO_REQUIRED");
      hello ← parse_payload runtimeHostHelloSchema (payload f);
      Ok (Identifying hello)
  | Some a =>
      _ ← throw_if (negb (bool_decide (frameType f = HEARTBEAT))) (JsError "RUNTIME_PROTOCOL_UNEXPECTED_FRAME");
      hb ← parse_payload heartbeatSchema (payload f);
      _ ← throw_if (negb (String.eqb (hb_runtime hb) (ac_runtime a)) || negb (big (hb_generation hb) =? ac_generation a)) (JsError "RUNTIME_GENERATION_STALE");
      Ok (Recording (sequence f) hb)
  end.
Definition ready_frame (a : AcceptedConnection) (peer : PeerKernelIdentity) (number : Z) : RuntimeFrame :=
  {| frameType := READY; flags := 0; sequence := number;
     payload := PJson (JObj [("protocol", JStr RUNTIME_IPC_PROTOCOL); ("stage", JStr "HOST_CHANNEL_VALIDATED"); ("connectionId", JStr (ac_connectionId a));
                             ("runtimeInstanceId", JStr (ac_runtime a)); ("runtimeGeneration", JStr (dec (ac_generation a)));
                             ("systemdInvocationId", JStr (pk_invocationId peer))]) |}.
(** [socket.write(...)]: a destroyed socket drops the bytes. *)
Definition sent (frames : list (list Z)) (k : peer_connection) : peer_connection :=
  {| accepted := accepted k; outboundSequence := outboundSequence k + 1; closed := closed k; at_phase := Idle; failed := failed k;
     closing := closing k; written := if closed k then written k else written k ++ frames |}.
Definition write_ready (a : AcceptedConnection) (peer : PeerKernelIdentity) (k : peer_connection) : peer_connection :=
  match encodeRuntimeFrame (ready_frame a peer (outboundSequence k)) with
  | Ok bytes => sent [bytes] k
  | Throw e => fail e (sent [] k)
  end.
(** The handler from one wait to the next; [newId] is a [randomUUID()]. *)
Definition resume (c : nat) (newId : string) (k : peer_connection) (g : gateway) : gateway :=
  match at_phase k with
  | Idle => g
  | Identifying hello =>
      let '(r, h) := read_peer c hello (kernel g) in
      set_connected c (match r with Ok peer => set_phase (Persisting hello peer) k | Throw e => fail e k end) (set_kernel h g)
  | Persisting hello peer =>
      let '(r, h) := on_world (inspect c) (kernel g) in
      let g := set_kernel h g in
      match socket ← r; persistAcceptedConnection columns socket newId listener hello peer (tables g) with
      | Ok (a, d) => set_connected c (write_ready a peer (set_accepted a k)) (set_tables d g)
      | Throw e => set_connected c (fail e k) g
      end
  | Recording number hb =>
      match accepted k with
      | Some a => match record_sequence a number (tables g) with
                  | Ok d => set_connected c (set_phase (Beating hb) k) (set_tables d g)
                  | Throw e => set_connected c (fail e k) g
                  end
      | None => g
      end
  | Beating hb =>
      match accepted k with
      | Some a => match record_heartbeat a hb (tables g) with
                  | Ok d => set_connected c (set_phase Idle k) (set_tables d g)
                  | Throw e => set_connected c (fail e k) g
                  end
      | None => g
      end
  end.
Definition terminate (c : nat) (reason : string) (k : peer_connection) (g : gateway) : gateway :=
  if closed k then g else
  match accepted k with
  | None => set_connected c (set_closed None k) g
  | Some a =>
      let '(r, h) := closeSync (ac_pidfd a) (kernel g) in
      set_connected c (set_closed (match r with Ok _ => Some reason | Throw _ => None end) k) (set_kernel h g)
  end.
Definition record_close (c : nat) (k : peer_connection) (g : gateway) : gateway :=
  match closing k, accepted k with
  | Some reason, Some a =>
      let g' := set_connected c {| accepted := accepted k; outboundSequence := outboundSequence k; closed := closed k; at_phase := at_phase k;
                                   failed := failed k; closing := None; written := written k |} g in
      match closeConnectionEvidence a reason (tables g) with Ok d => set_tables d g' | Throw _ => g' end
  | _, _ => g
  end.

(** What can happen next: a peer connects, a frame reaches an idle handler, a waiting handler goes on, the socket fails or
    closes, a close is recorded, the world changes, or other writers change every table but the gateway's own of connections. *)
Inductive gw_event :=
| Connect (c : nat) | Frame (c : nat) (f : RuntimeFrame) | Resume (c : nat) (newId : string) | SocketClosed (c : nat) (reason : string)
| RecordClose (c : nat) | World (w : W) | Tables (d : gw_db).
Definition gw_step (g : gateway) (e : gw_event) : gateway :=
  let on (c : nat) (act : peer_connection -> gateway) : gateway := match connected g !! c with Some k => act k | None => g end in
  match e with
  | Connect c => match connected g !! c with Some _ => g | None => set_connected c new_connection g end
  | Frame c f => on c (fun k => match at_phase k with
                                | Idle => set_connected c (match on_frame f k with Ok p => set_phase p k | Throw e => fail e k end) g
                                | _ => g
                                end)
  | Resume c newId => on c (fun k => resume c newId k g)
  | SocketClosed c reason => on c (fun k => terminate c reason k g)
  | RecordClose c => on c (fun k => record_close c k g)
  | World w => set_kernel {| world := w; pidfds := pidfds (kernel g) |} g
  | Tables d => set_tables (set_connections (connections (tables g)) d) g
  end.
Definition gw_run (g : gateway) (es : list gw_event) : gateway := fold_left gw_step es g.
End Gateway.

(** ** Theory *)

Section Admission.
Context `{L : Locale} `{H : Hash}.
Context {W : Type} (systemctl : list string -> io W string) (readFile : string -> io W string) (openPidfd : Z -> io W Z).

(** What the kernel and [systemctl] vouch for: the peer runs in the unit of the greeting, which is the unit of its
    instance, and that unit was shown active with the peer as its main process. *)
Definition vouched (hello : RuntimeHostHello) (p : PeerKernelIdentity) : Prop :=
  pk_unit p = hh_unit hello /\ runtimeHostUnit (hh_runtime hello) = Ok (pk_unit p) /\ 0 < cred_pid (pk_credentials p)
  /\ exists w s w', show systemctl (hh_runtime hello) w = (Ok s, w') /\ activeState s = "active" /\ mainPid s = cred_pid (pk_credentials p)
       /\ controlGroup s = pk_cgroupPath p /\ invocationId s = Some (pk_invocationId p).
Lemma identity_checks_Ok hello credentials fd w p w' :
  0 < cred_pid credentials -> identity_checks systemctl readFile hello credentials fd w = (Ok p, w') ->
  vouched hello p /\ pk_credentials p = credentials /\ pk_pidfd p = fd.
Proof.
  intros Hpid E. unfold identity_checks in E. inv_io. subst p. cbn. split; [|done].
  match goal with E : (if negb (String.eqb ?u _) then _ else _) _ = _ |- _ => destruct (String.eqb_spec u (hh_unit hello)) as [Hu|]; cbn [negb] in E end;
    inv_io. reflect_bools. subst. unfold vouched; cbn. split; [done|]. split; [congruence|]. split; [done|].
  eexists _, _, _. split; [eassumption|]. eauto.
Qed.
Lemma parse_credentials_pid t c : parse_credentials t = Some c -> 0 < cred_pid c.
Proof.
  unfold parse_credentials. intros E. repeat (apply bind_Some in E as (? & _ & E)).
  destruct (_ && _) eqn:B; [|done]. injection E as <-. cbn. reflect_bools. lia.
Qed.
Lemma read_peer_Ok peercred hello h p h' :
  readPeerKernelIdentity systemctl readFile peercred openPidfd hello h = (Ok p, h') -> vouched hello p /\ pk_pidfd p ∈ pidfds h'.
Proof.
  intros E. unfold readPeerKernelIdentity in E. inv_io. unfold on_world in Hio.
  destruct (peerCredentials peercred (world h)) as [r u] eqn:C. injection Hio as -> <-.
  unfold peerCredentials in C. inv_io. apply parse_credentials_pid in C.
  unfold openPinnedPidfd in Hio0. cbn in Hio0. destruct (_ <=? 0); [done|]. destruct (openPidfd _ _) as [[fd|] u']; [|done].
  injection Hio0 as -> <-. unfold or_close, on_world in E. cbn in E.
  destruct (identity_checks _ _ _ _ _ _) as [[q|e] u''] eqn:I.
  - injection E as <- <-. apply identity_checks_Ok in I as (V & _ & Hfd); [|done]. cbn. split; [done|]. rewrite Hfd. constructor.
  - by destruct (closeSync _ _) as [[|] ?].
Qed.

(** The instance [r] of the greeting is current in [d]: every pointer, epoch and digest of the chain agrees. *)
Definition current (d : gw_db) (hello : RuntimeHostHello) (p : PeerKernelIdentity) (r : runtime_row) : Prop :=
  let a := authority r in
  instances (rt d) !! to_lower (hh_runtime hello) = Some r
  /\ ra_generation a = big (hh_generation hello) /\ ra_unit a = hh_unit hello /\ ra_service_class a = SERVICE_CLASS
  /\ "sha256:" +:+ hex (ra_launch_manifest a) = hh_manifest hello
  /\ ra_uid a = cred_uid (pk_credentials p) /\ ra_gid a = cred_gid (pk_credentials p)
  /\ (exists h, heads d = Some h /\ ra_incarnation a = ph_incarnation h /\ ra_deployment a = ph_deployment_epoch h /\ ra_epoch a = ph_activation_epoch h
        /\ ph_recovery h !! "state" = Some (JStr "READY") /\ ph_recovery h !! "database_identity_current" = Some (JBool true)
        /\ ph_recovery h !! "recovery_lineage_current" = Some (JBool true))
  /\ (exists c, components (rt d) !! ra_component a = Some c /\ c_lifecycle c = "ACTIVE" /\ c_activation_state c = "ACTIVE" /\ c_enabled c = true
        /\ c_active_revision c = Some (ra_revision a) /\ c_current_release c = Some (ra_release a) /\ c_binding_set c = Some (ra_binding_set a)
        /\ c_activation_epoch c = ra_epoch a)
  /\ (exists v, revisions d !! ra_revision a = Some v /\ rv_validation_state v = "VALID" /\ rv_verification_state v = "VERIFIED")
  /\ (exists e, releases d !! ra_release a = Some e /\ re_state e = "ACTIVE" /\ re_artifact_digest e = ra_artifact_digest a
        /\ re_runtime_digest e = ra_runtime_digest a)
  /\ targets d !! ra_target a = Some "ACTIVE".
Lemma opt_is_eq o s : opt_is o s = true -> o = Some s.
Proof. destruct o as [x|]; cbn; [|done]. by intros ->%String.eqb_eq. Qed.
Lemma asDigest_Ok v l d : asDigest v l = Ok d -> d = v.
Proof. intros E. unfold asDigest in E. by inv_ok. Qed.
Lemma bytes_eqb_eq a b : bytes_eqb a b = true -> a = b.
Proof. apply bool_decide_eq_true. Qed.
Lemma recovery_is_Some h c t : recovery_is h c t = true -> ph_recovery h !! c = Some (JStr t).
Proof. unfold recovery_is. destruct (_ !! c) as [[]|]; try done. by intros ->%String.eqb_eq. Qed.
Lemma recovery_is_true_Some h c : recovery_is_true h c = true -> ph_recovery h !! c = Some (JBool true).
Proof. unfold recovery_is_true. by destruct (_ !! c) as [[|[]| | | |]|]. Qed.
Lemma validate_Ok columns d hello p r : validateRuntimeSnapshot columns d hello p = Ok r -> current d hello p r.
Proof.
  intros E. unfold validateRuntimeSnapshot, snapshot_query in E. inv_ok. unfold sha256Label in *. inv_ok.
  repeat match goal with E : asDigest _ _ = Ok _ |- _ => apply asDigest_Ok in E end. reflect_bools. subst.
  repeat match goal with
  | E : opt_is _ _ = true |- _ => apply opt_is_eq in E
  | E : bytes_eqb _ _ = true |- _ => apply bytes_eqb_eq in E
  | E : recovery_is _ _ _ = true |- _ => apply recovery_is_Some in E
  | E : recovery_is_true _ _ = true |- _ => apply recovery_is_true_Some in E
  end.
  match goal with E : (instances _ !! _ ≫= _) = Some _ |- _ => rename E into Q end.
  repeat match type of Q with (_ ≫= _) = Some _ => let E := fresh "Q" in apply bind_Some in Q as (? & E & Q) end.
  injection Q as <-. cbn in *. unfold current. repeat (split; [by eauto 20 with congruence|]); try congruence; eauto 20.
Qed.
End Admission.

Section Transaction_lemmas.
Context `{L : Locale} `{H : Hash}.

Lemma update_instance_one id p f d n d' :
  update_instance id p f d = Ok (n, d') ->
  (n = 0 /\ d' = d) \/ (n = 1 /\ exists r, instances d !! id = Some r /\ p r = true
                        /\ instances d' = <[id := {| authority := authority r; state := f (state r) |}]> (instances d)).
Proof.
  unfold update_instance. destruct (instances d !! id) as [r|]; [|intros [= <- <-]; by left].
  destruct (p r) eqn:Hp; [|intros [= <- <-]; by left]. intros E. inv_ok. subst. right. cbn. eauto.
Qed.
Lemma insert_identity_connections hello p r d d' :
  insert_identity hello p r d = Ok d' -> connections d' = connections d /\ rt d' = rt d.
Proof. unfold insert_identity. intros E. inv_ok. destruct (_ !! _); inv_ok; by subst. Qed.

(** A connection that was admitted: the row it has and the instance that points to it *)
Definition connection_opened (a : AcceptedConnection) (p : PeerKernelIdentity) (d d' : gw_db) : Prop :=
  connections d !! ac_connectionId a = None
  /\ (exists x, connections d' = <[ac_connectionId a := x]> (connections d) /\ ic_state x = "ACTIVE" /\ ic_last_sequence x = 1
        /\ ic_peer x = kernel_key_of p /\ ic_instance x = to_lower (ac_runtime a) /\ ic_generation x = ac_generation a)
  /\ (exists y, instances (rt d') !! to_lower (ac_runtime a) = Some y /\ gateway_connection (state y) = Some (ac_connectionId a)
        /\ rs_pid (state y) = Some (cred_pid (pk_credentials p))).
Lemma persist_Ok columns socket newId listener hello p d a d' :
  persistAcceptedConnection columns socket newId listener hello p d = Ok (a, d') ->
  a = {| ac_connectionId := newId; ac_runtime := hh_runtime hello; ac_generation := big (hh_generation hello); ac_pidfd := pk_pidfd p |}
  /\ (exists r, current d hello p r) /\ connection_opened a p d d'.
Proof.
  unfold persistAcceptedConnection. intros E. apply bind_Ok_inv in E as ([] & _ & E). apply bind_Ok_inv in E as (r & Hr & E).
  apply bind_Ok_inv in E as (d1 & H1 & E). apply bind_Ok_inv in E as ([] & _ & E). apply bind_Ok_inv in E as (d2 & H2 & E).
  apply bind_Ok_inv in E as ([n t] & H3 & E). apply bind_Ok_inv in E as ([] & Hn & E). injection E as <- <-.
  apply validate_Ok in Hr. apply insert_identity_connections in H1 as [H1 H1'].
  unfold insert_connection in H2. apply bind_Ok_inv in H2 as ([] & Hd & H2). apply throw_if_Ok in Hd. reflect_bools. injection H2 as <-.
  apply throw_if_Ok in Hn. reflect_bools. subst n. split; [done|]. split; [by eexists|]. unfold connection_opened. cbn in *.
  split; [rewrite <- H1; by destruct (connections d1 !! newId)|]. split; [rewrite H1; by eexists|].
  apply update_instance_one in H3 as [[? _]|(_ & y & _ & _ & ->)]; [done|]. rewrite lookup_insert_eq. by eexists.
Qed.

(** What may happen to a row of [runtime_ipc_connection] *)
Definition row_evolves (x y : connection_row) : Prop :=
  ic_instance y = ic_instance x /\ ic_generation y = ic_generation x /\ ic_peer y = ic_peer x /\ ic_last_sequence x <= ic_last_sequence y
  /\ ic_version x <= ic_version y /\ (ic_state x = "CLOSED" -> y = x) /\ (ic_state y = ic_state x \/ ic_state y = "CLOSED").
Lemma row_evolves_refl x : row_evolves x x.
Proof. unfold row_evolves. repeat split; auto; lia. Qed.
Lemma row_evolves_trans x y z : row_evolves x y -> row_evolves y z -> row_evolves x z.
Proof.
  intros (A1 & A2 & A3 & A4 & A5 & A6 & A7) (B1 & B2 & B3 & B4 & B5 & B6 & B7). unfold row_evolves.
  split; [congruence|]. split; [congruence|]. split; [congruence|]. split; [lia|]. split; [lia|]. split.
  - intros C. specialize (A6 C). subst y. auto.
  - destruct B7 as [B7|B7]; [destruct A7; [left|right]; congruence|by right].
Qed.
Definition rows_evolve (t t' : gmap string connection_row) : Prop := forall id x, t !! id = Some x -> exists y, t' !! id = Some y /\ row_evolves x y.
Lemma rows_evolve_refl t : rows_evolve t t.
Proof. intros id x E. eauto using row_evolves_refl. Qed.
Lemma rows_evolve_insert t id y : (forall x, t !! id = Some x -> row_evolves x y) -> rows_evolve t (<[id := y]> t).
Proof.
  intros Hy id' x E. destruct (decide (id' = id)) as [->|Hne].
  - rewrite lookup_insert_eq. eauto.
  - rewrite lookup_insert_ne by done. eauto using row_evolves_refl.
Qed.
Lemma update_connection_spec id p f d n d' :
  update_connection id p f d = (n, d') ->
  (n = 0 /\ d' = d) \/ (n = 1 /\ exists x, connections d !! id = Some x /\ p x = true /\ connections d' = <[id := f x]> (connections d)).
Proof.
  unfold update_connection. destruct (connections d !! id) as [x|]; [|intros [= <- <-]; by left].
  destruct (p x) eqn:Hp; intros [= <- <-]; [right|left]; eauto 6.
Qed.
Lemma close_Ok a reason d d' :
  closeConnectionEvidence a reason d = Ok d' ->
  connections d' = connections d
  \/ exists x, connections d !! ac_connectionId a = Some x /\ ic_state x <> "CLOSED"
       /\ connections d' = <[ac_connectionId a := close_row reason x]> (connections d).
Proof.
  unfold closeConnectionEvidence. destruct (update_connection _ _ _ d) as [n d1] eqn:U. intros E. inv_ok. destruct a0 as [n' t].
  inv_ok. subst d'. cbn. apply update_connection_spec in U as [[_ ->]|(_ & x & Hx & Hp & ->)]; [by left|right]. reflect_bools. eauto.
Qed.
Lemma record_sequence_Ok a number d d' :
  record_sequence a number d = Ok d' ->
  exists x, connections d !! ac_connectionId a = Some x /\ ic_state x = "ACTIVE" /\ ic_last_sequence x < number
    /\ connections d' = <[ac_connectionId a := beat_row number x]> (connections d).
Proof.
  unfold record_sequence. destruct (update_connection _ _ _ d) as [n d1] eqn:U. intros E. inv_ok. reflect_bools. subst.
  apply update_connection_spec in U as [[? _]|(_ & x & Hx & Hp & E)]; [done|]. reflect_bools. eauto.
Qed.
Lemma record_heartbeat_Ok a hb d d' : record_heartbeat a hb d = Ok d' -> connections d' = connections d.
Proof. unfold record_heartbeat. intros E. apply bind_Ok_inv in E as ([] & _ & E). apply bind_Ok_inv in E as ([] & _ & E). by injection E as <-. Qed.
Lemma close_row_evolves reason x : ic_state x <> "CLOSED" -> row_evolves x (close_row reason x).
Proof. intros Hx. unfold row_evolves; cbn. repeat split; auto; try lia; done. Qed.
Lemma beat_row_evolves number x : ic_state x = "ACTIVE" -> ic_last_sequence x < number -> row_evolves x (beat_row number x).
Proof. intros Hx Hn. unfold row_evolves; cbn. repeat split; auto; try lia; congruence. Qed.
End Transaction_lemmas.

Section Gateway_theory.
Context `{L : Locale} `{H : Hash} `{F : Formats}.
Context {W : Type} (systemctl : list string -> io W string) (readFile : string -> io W string).
Context (peercred : nat -> io W string) (inspect : nat -> io W RuntimeSocketFdEvidence) (openPidfd : Z -> io W Z).
Variable (listener : ListenerEvidence) (columns : list string).
#[local] Abbreviation gateway := (gateway (W := W)).
#[local] Abbreviation step := (gw_step systemctl readFile peercred inspect openPidfd listener columns).
#[local] Abbreviation run := (gw_run systemctl readFile peercred inspect openPidfd listener columns).
#[local] Abbreviation vouched := (vouched systemctl).

(** *** One step of one connection *)

Definition waiting (p : phase) : bool := match p with Identifying _ | Persisting _ _ => true | _ => false end.
(** A step that does not admit the peer *)
Record follows (k k' : peer_connection) : Prop := {
  fo_accepted : accepted k' = accepted k;
  fo_closed : closed k = true -> closed k' = true;
  fo_closing : closing k' = closing k \/ closing k' = None \/ (closed k = false /\ is_Some (accepted k));
  fo_persisting : forall hello p, at_phase k' = Persisting hello p -> at_phase k = Persisting hello p \/ vouched hello p;
  fo_waiting : waiting (at_phase k') = true -> accepted k = None \/ waiting (at_phase k) = true;
}.
Lemma follows_refl k : follows k k.
Proof. constructor; auto. Qed.
Lemma follows_fail e k : follows k (fail e k).
Proof. constructor; cbn; auto; done. Qed.
Lemma follows_phase p k : waiting p = false -> follows k (set_phase p k).
Proof. intros Hp. constructor; cbn; auto; [|congruence]. intros hello q ->. done. Qed.

(** The peer of [c] is admitted: from the waiting [k], the transaction commits [g']'s tables. *)
Definition admits (g g' : gateway) (e : gw_event (W := W)) (c : nat) (k k' : peer_connection) : Prop :=
  exists newId hello p socket a, e = Resume c newId /\ at_phase k = Persisting hello p
    /\ persistAcceptedConnection columns socket newId listener hello p (tables g) = Ok (a, tables g')
    /\ accepted k' = Some a /\ at_phase k' = Idle /\ closed k' = closed k /\ closing k' = closing k.

Lemma write_ready_same a p k :
  accepted (write_ready a p k) = accepted k /\ at_phase (write_ready a p k) = Idle /\ closed (write_ready a p k) = closed k
  /\ closing (write_ready a p k) = closing k.
Proof. unfold write_ready. by destruct (encodeRuntimeFrame _). Qed.
Lemma on_frame_follows f k ph : at_phase k = Idle -> on_frame f k = Ok ph -> follows k (set_phase ph k).
Proof.
  unfold on_frame. intros Hi E. destruct (accepted k) as [a|] eqn:Ha; inv_ok; subst ph.
  - by apply follows_phase.
  - constructor; cbn; auto; done.
Qed.
Lemma resume_connections c newId k g c' k' :
  connected g !! c = Some k -> connected (resume systemctl readFile peercred inspect openPidfd listener columns c newId k g) !! c' = Some k' ->
  exists k0, connected g !! c' = Some k0
    /\ (follows k0 k' \/ admits g (resume systemctl readFile peercred inspect openPidfd listener columns c newId k g) (Resume c newId) c' k0 k').
Proof.
  intros Hk. destruct (decide (c' = c)) as [->|Hne].
  - intros E. exists k. split; [done|]. unfold resume in *.
    destruct (at_phase k) as [|hello|hello p|n hb|hb] eqn:Hph.
    + rewrite Hk in E. injection E as <-. left. apply follows_refl.
    + destruct (read_peer _ _ _ _ _ _ _) as [r h] eqn:R. cbn in E. rewrite lookup_insert_eq in E. injection E as <-. left.
      destruct r as [p|e]; [|apply follows_fail]. apply read_peer_Ok in R as [R _].
      constructor; cbn; auto; [|rewrite Hph; auto]. intros hello' q [= <- <-]. by right.
    + destruct (on_world _ _) as [r h]. cbn [set_kernel tables] in *. destruct (_ ≫= _) as [[a d]|e] eqn:P; cbn in E;
        rewrite lookup_insert_eq in E; injection E as <-; [right|left; apply follows_fail].
      apply bind_Ok_inv in P as (socket & _ & P). unfold admits. destruct (write_ready_same a p (set_accepted a k)) as (-> & -> & -> & ->).
      exists newId, hello, p, socket, a. cbn. by rewrite P.
    + destruct (accepted k) as [a|] eqn:Ha; [|rewrite Hk in E; injection E as <-; left; apply follows_refl].
      destruct (record_sequence _ _ _); cbn in E; rewrite lookup_insert_eq in E; injection E as <-; left; [|apply follows_fail].
      by apply follows_phase.
    + destruct (accepted k) as [a|] eqn:Ha; [|rewrite Hk in E; injection E as <-; left; apply follows_refl].
      destruct (record_heartbeat _ _ _); cbn in E; rewrite lookup_insert_eq in E; injection E as <-; left; [|apply follows_fail].
      by apply follows_phase.
  - intros E. exists k'. split; [|left; apply follows_refl]. unfold resume in E.
    repeat (case_match; cbn in E; rewrite ?lookup_insert_ne in E by done; try done).
Qed.
Lemma step_connections g e c k' :
  connected (step g e) !! c = Some k' ->
  (k' = new_connection /\ connected g !! c = None)
  \/ exists k, connected g !! c = Some k /\ (follows k k' \/ admits g (step g e) e c k k').
Proof.
  assert (Hstay : connected g !! c = Some k' -> exists k, connected g !! c = Some k /\ (follows k k' \/ admits g (step g e) e c k k')).
  { intros E. exists k'. split; [done|left; apply follows_refl]. }
  destruct e as [c0|c0 f|c0 newId|c0 reason|c0|w|d]; cbn [gw_step] in *; try (destruct (connected g !! c0) as [k|] eqn:Hk; [|by auto]); auto.
  - destruct (connected g !! c0) as [k|] eqn:Hk; [by auto|]. cbn. destruct (decide (c = c0)) as [->|Hne]; [rewrite lookup_insert_eq; intros [= <-]; by left|rewrite lookup_insert_ne by done; by auto].
  - destruct (at_phase k) eqn:Hi; [|by auto..]. destruct (decide (c = c0)) as [->|Hne]; cbn; [|rewrite lookup_insert_ne by done; by auto].
    rewrite lookup_insert_eq. intros [= <-]. right. exists k. split; [done|left].
    destruct (on_frame f k) eqn:Hf; [by eapply on_frame_follows|apply follows_fail].
  - intros E. right. by eapply resume_connections.
  - unfold terminate in *. destruct (closed k) eqn:Hc; [by auto|]. intros E. right. destruct (accepted k) as [a|] eqn:Ha.
    + destruct (closeSync _ _) as [r h]. cbn in E. destruct (decide (c = c0)) as [->|Hne]; [|rewrite lookup_insert_ne in E by done; by apply Hstay].
      rewrite lookup_insert_eq in E. injection E as <-. exists k. split; [done|left]. constructor; cbn; auto; rewrite ?Ha; eauto 6.
    + cbn in E. destruct (decide (c = c0)) as [->|Hne]; [|rewrite lookup_insert_ne in E by done; by apply Hstay].
      rewrite lookup_insert_eq in E. injection E as <-. exists k. split; [done|left]. constructor; cbn; auto.
  - unfold record_close in *. destruct (closing k) eqn:Hc; [|by auto]. destruct (accepted k) as [a|] eqn:Ha; [|by auto]. intros E. right.
    assert (E' : connected (set_connected c0 {| accepted := accepted k; outboundSequence := outboundSequence k; closed := closed k; at_phase := at_phase k;
      failed := failed k; closing := None; written := written k |} g) !! c = Some k') by (rewrite Ha; destruct (closeConnectionEvidence _ _ _); exact E).
    cbn in E'. destruct (decide (c = c0)) as [->|Hne]; [|rewrite lookup_insert_ne in E' by done; by apply Hstay].
    rewrite lookup_insert_eq in E'. injection E' as <-. exists k. split; [done|left]. constructor; cbn; auto.
Qed.

(** *** The table of connections *)

(** The row of an admitted connection changes: its number grows, or the close that it has pending is recorded. *)
Definition touches (g g' : gateway) (c : nat) (k : peer_connection) : Prop :=
  exists a x y, accepted k = Some a /\ connections (tables g) !! ac_connectionId a = Some x
    /\ connections (tables g') = <[ac_connectionId a := y]> (connections (tables g)) /\ row_evolves x y
    /\ (ic_state y = ic_state x \/ is_Some (closing k)).
Lemma resume_rows c newId k g :
  connected g !! c = Some k ->
  let g' := resume systemctl readFile peercred inspect openPidfd listener columns c newId k g in
  connections (tables g') = connections (tables g)
  \/ (exists k', connected g' !! c = Some k' /\ admits g g' (Resume c newId) c k k') \/ touches g g' c k.
Proof.
  intros Hk. unfold resume. destruct (at_phase k) as [|hello|hello p|n hb|hb] eqn:Hph; [by left|..].
  - destruct (read_peer _ _ _ _ _ _ _) as [r h]. by left.
  - destruct (on_world _ _) as [r h]. cbn [set_kernel tables]. destruct (_ ≫= _) as [[a d]|e] eqn:P; [|by left]. right; left.
    apply bind_Ok_inv in P as (socket & _ & P). cbn. rewrite lookup_insert_eq. eexists. split; [done|]. unfold admits.
    destruct (write_ready_same a p (set_accepted a k)) as (-> & -> & -> & ->). exists newId, hello, p, socket, a. cbn. by rewrite P.
  - destruct (accepted k) as [a|] eqn:Ha; [|by left]. destruct (record_sequence a n (tables g)) as [d|e] eqn:R; [|by left]. right; right.
    apply record_sequence_Ok in R as (x & Hx & Hs & Hn & R). exists a, x, (beat_row n x). split; [done|]. split; [done|]. split; [done|].
    split; [by apply beat_row_evolves|by left].
  - destruct (accepted k) as [a|] eqn:Ha; [|by left]. destruct (record_heartbeat a hb (tables g)) as [d|e] eqn:R; left; [|done].
    by apply record_heartbeat_Ok in R.
Qed.
Lemma step_rows g e :
  connections (tables (step g e)) = connections (tables g)
  \/ (exists c k k', connected g !! c = Some k /\ connected (step g e) !! c = Some k' /\ admits g (step g e) e c k k')
  \/ (exists c k, connected g !! c = Some k /\ touches g (step g e) c k).
Proof.
  destruct e as [c|c f|c newId|c reason|c|w|d]; cbn [gw_step]; try (by left); destruct (connected g !! c) as [k|] eqn:Hk; try (by left).
  - by destruct (at_phase k); left.
  - destruct (resume_rows c newId k g Hk) as [E|[(k' & E & A)|T]]; [by left|right; left; by exists c, k, k'|right; right; by exists c, k].
  - left. unfold terminate. destruct (closed k); [done|]. destruct (accepted k); [|done]. by destruct (closeSync _ _).
  - unfold record_close. destruct (closing k) as [reason|] eqn:Hc; [|by left]. destruct (accepted k) as [a|] eqn:Ha; [|by left].
    destruct (closeConnectionEvidence _ _ _) as [d|] eqn:E; [|by left]. apply close_Ok in E as [E|(x & Hx & Hs & E)]; [by left|].
    right; right. exists c, k. split; [done|]. exists a, x, (close_row reason x). split; [done|]. split; [done|]. split; [done|].
    split; [by apply close_row_evolves|right; rewrite Hc; by eexists].
Qed.
Lemma step_rows_evolve g e : rows_evolve (connections (tables g)) (connections (tables (step g e))).
Proof.
  destruct (step_rows g e) as [->|[(c & k & k' & _ & _ & A)|(c & k & _ & a & x & y & _ & Hx & -> & Hy & _)]].
  - apply rows_evolve_refl.
  - destruct A as (newId & hello & p & socket & a & _ & _ & P & _). apply persist_Ok in P as (_ & _ & Hn & (x & -> & _) & _).
    apply rows_evolve_insert. congruence.
  - apply rows_evolve_insert. intros x' E. congruence.
Qed.

(** *** Histories *)

Lemma run_snoc g es e : run g (es ++ [e]) = step (run g es) e.
Proof. unfold gw_run. by rewrite fold_left_app. Qed.
Definition opened (g0 : gateway) (es : list (gw_event (W := W))) (a : AcceptedConnection) : Prop :=
  exists es1 c newId es2 hello p r, es = es1 ++ Resume c newId :: es2 /\ vouched hello p
    /\ let g := run g0 es1 in
       current (tables g) hello p r /\ connection_opened a p (tables g) (tables (step g (Resume c newId)))
       /\ a = {| ac_connectionId := newId; ac_runtime := hh_runtime hello; ac_generation := big (hh_generation hello); ac_pidfd := pk_pidfd p |}.
Lemma opened_snoc g0 es e a : opened g0 es a -> opened g0 (es ++ [e]) a.
Proof.
  intros (es1 & c & newId & es2 & hello & p & r & -> & H1). exists es1, c, newId, (es2 ++ [e]), hello, p, r. split; [|done].
  by rewrite <- app_assoc.
Qed.
Lemma admission_inv g0 es c k :
  connected g0 = ∅ -> connected (gw_run systemctl readFile peercred inspect openPidfd listener columns g0 es) !! c = Some k ->
  (forall hello p, at_phase k = Persisting hello p -> vouched hello p) /\ (forall a, accepted k = Some a -> opened g0 es a).
Proof.
  intros H0. revert c k; induction es as [|e es IH] using rev_ind; intros c k; [cbn; by rewrite H0, lookup_empty|].
  rewrite run_snoc. intros E. apply step_connections in E as [[-> _]|(k0 & Hk0 & [Hf|Ha])]; [by split| |].
  - destruct (IH _ _ Hk0) as [I1 I2]. split.
    + intros hello p E. destruct (fo_persisting _ _ Hf _ _ E); eauto.
    + intros a. rewrite (fo_accepted _ _ Hf). eauto using opened_snoc.
  - destruct Ha as (newId & hello & p & socket & a & -> & Hp & P & Ha & Hi & _). split; [intros ??; by rewrite Hi|].
    intros a'. rewrite Ha. intros [= <-]. destruct (IH _ _ Hk0) as [I1 _]. apply I1 in Hp.
    apply persist_Ok in P as (Ea & [r Hr] & P). by exists es, c, newId, [], hello, p, r.
Qed.

(** What holds of the connections in every history *)
Record gw_inv (g : gateway) : Prop := {
  inv_waiting : forall c k, connected g !! c = Some k -> waiting (at_phase k) = true -> accepted k = None;
  inv_closing : forall c k, connected g !! c = Some k -> is_Some (closing k) -> is_Some (accepted k);
  inv_row : forall c k a, connected g !! c = Some k -> accepted k = Some a -> is_Some (connections (tables g) !! ac_connectionId a);
  inv_unique : forall c c' k k' a a', connected g !! c = Some k -> connected g !! c' = Some k' -> accepted k = Some a -> accepted k' = Some a' ->
    ac_connectionId a = ac_connectionId a' -> c = c';
}.
Lemma rows_kept g e id : is_Some (connections (tables g) !! id) -> is_Some (connections (tables (step g e)) !! id).
Proof. intros [x Hx]. destruct (step_rows_evolve g e id x Hx) as (y & Hy & _). by eexists. Qed.
(** A connection after a step has been accepted before it, or now under an identity without a row. *)
Lemma step_accepted g e c k' a :
  connected (step g e) !! c = Some k' -> accepted k' = Some a ->
  (exists k, connected g !! c = Some k /\ accepted k = Some a)
  \/ (exists newId, e = Resume c newId /\ connections (tables g) !! ac_connectionId a = None
        /\ is_Some (connections (tables (step g e)) !! ac_connectionId a)).
Proof.
  intros E Ha. apply step_connections in E as [[-> _]|(k & Hk & [Hf|A])]; [done|left; exists k; by rewrite <- (fo_accepted _ _ Hf)|right].
  destruct A as (newId & hello & p & socket & a' & -> & _ & P & Ha' & _). rewrite Ha in Ha'. injection Ha' as <-.
  apply persist_Ok in P as (_ & _ & Hn & (x & -> & _) & _). exists newId. rewrite lookup_insert_eq. eauto.
Qed.
Lemma step_inv g e : gw_inv g -> gw_inv (step g e).
Proof.
  intros [I1 I2 I3 I4]. constructor.
  - intros c k' E. apply step_connections in E as [[-> _]|(k & Hk & [Hf|A])]; [done|..].
    + intros Hw. rewrite (fo_accepted _ _ Hf). destruct (fo_waiting _ _ Hf Hw); eauto.
    + destruct A as (? & ? & ? & ? & ? & _ & _ & _ & _ & -> & _). done.
  - intros c k' E. apply step_connections in E as [[-> _]|(k & Hk & [Hf|A])]; [by intros [? ?]|..].
    + rewrite (fo_accepted _ _ Hf). intros Hc. destruct (fo_closing _ _ Hf) as [E|[E|[_ ?]]]; [rewrite E in Hc; eauto|rewrite E in Hc; by destruct Hc|done].
    + destruct A as (? & ? & ? & ? & ? & _ & _ & _ & -> & _). eauto.
  - intros c k' a E Ha. destruct (step_accepted _ _ _ _ _ E Ha) as [(k & Hk & Hak)|(? & _ & _ & ?)]; eauto using rows_kept.
  - intros c c' k k' a a' E E' Ha Ha' Eid.
    destruct (step_accepted _ _ _ _ _ E Ha) as [(k0 & Hk & Hak)|(n & He & Hn & _)],
      (step_accepted _ _ _ _ _ E' Ha') as [(k0' & Hk' & Hak')|(n' & He' & Hn' & _)].
    + eauto.
    + destruct (I3 _ _ _ Hk Hak) as [x Hx]. congruence.
    + destruct (I3 _ _ _ Hk' Hak') as [x Hx]. congruence.
    + congruence.
Qed.
Lemma run_inv g0 es : connected g0 = ∅ -> gw_inv (run g0 es).
Proof.
  intros H0. induction es as [|e es IH] using rev_ind; [|rewrite run_snoc; by apply step_inv].
  constructor; cbn; rewrite H0; intros *; by rewrite lookup_empty.
Qed.

Lemma step_connected g e c : is_Some (connected g !! c) -> is_Some (connected (step g e) !! c).
Proof.
  intros Hc. assert (Hi : forall c0 k0 (g' : gateway), connected g' = connected g -> is_Some (connected (set_connected c0 k0 g') !! c)).
  { intros c0 k0 g' E. cbn. rewrite E. destruct (decide (c = c0)) as [->|Hne]; [rewrite lookup_insert_eq; by eexists|by rewrite lookup_insert_ne]. }
  destruct e as [c0|c0 f|c0 newId|c0 reason|c0|w|d]; cbn [gw_step]; try done;
    try (destruct (connected g !! c0) as [k|] eqn:Hk; [|done]).
  - destruct (connected g !! c0) as [k|]; [done|by apply Hi].
  - destruct (at_phase k); [by apply Hi|done..].
  - unfold resume. repeat (case_match; try done; try by apply Hi).
  - unfold terminate. repeat (case_match; try done; try by apply Hi).
  - unfold record_close. repeat (case_match; try done; try by apply Hi).
Qed.
(** Closed before it was accepted: nothing is left that would close its row. *)
Definition abandoned (g : gateway) (c : nat) (a : AcceptedConnection) : Prop :=
  (exists k, connected g !! c = Some k /\ accepted k = Some a /\ closed k = true /\ closing k = None)
  /\ exists x, connections (tables g) !! ac_connectionId a = Some x /\ ic_state x = "ACTIVE".
Lemma abandoned_step g e c a : gw_inv g -> abandoned g c a -> abandoned (step g e) c a.
Proof.
  intros I [(k & Hk & Ha & Hc & Hn) (x & Hx & Hs)]. split.
  - destruct (step_connected g e c) as [k' Hk']; [by eexists|]. exists k'. split; [done|].
    apply step_connections in Hk' as [[_ E]|(k0 & E & [Hf|A])]; [congruence|..]; rewrite Hk in E; injection E as <-.
    + rewrite (fo_accepted _ _ Hf). split; [done|]. split; [by apply (fo_closed _ _ Hf)|].
      destruct (fo_closing _ _ Hf) as [E|[E|[E _]]]; congruence.
    + destruct A as (? & hello & p & ? & ? & _ & Hp & _). pose proof (inv_waiting _ I c k Hk) as Hw. rewrite Hp in Hw. rewrite Hw in Ha; done.
  - destruct (step_rows g e) as [->|[(c' & k' & k'' & _ & _ & A)|(c' & k' & Hk' & a' & x' & y & Ha' & Hx' & -> & _ & Hy)]]; [by exists x|..].
    + destruct A as (newId & hello & p & socket & a' & _ & _ & P & _). apply persist_Ok in P as (_ & _ & Hn' & (x' & -> & _) & _).
      exists x. rewrite lookup_insert_ne by congruence. done.
    + destruct (decide (ac_connectionId a' = ac_connectionId a)) as [E|Hne]; [|exists x; by rewrite lookup_insert_ne].
      rewrite E, lookup_insert_eq. exists y. split; [done|]. assert (c' = c) as -> by (by eapply (inv_unique _ I); eauto).
      destruct Hy as [Hy|[? Hy]]; congruence.
Qed.
Lemma run_abandoned g es c a : gw_inv g -> abandoned g c a -> abandoned (run g es) c a.
Proof.
  intros I A. enough (gw_inv (run g es) /\ abandoned (run g es) c a) by tauto.
  induction es as [|e es [I' A']] using rev_ind; [done|]. rewrite run_snoc. split; [by apply step_inv|by apply abandoned_step].
Qed.

(** *** Properties *)

(** Admission, if the query of the snapshot can run.  Whatever connects, sends and fails, and however other writers change the tables: a connection that
    the gateway treats as accepted was opened by one transaction of the history, for a peer whose kernel identity and
    [systemctl] had vouched for it, at a moment when its instance was current in every pointer, epoch and digest; the
    transaction left an active connection row under a new id and made the instance point to it. *)
Theorem gateway_admits_current g0 es c k a :
  connected g0 = ∅ -> connected (gw_run systemctl readFile peercred inspect openPidfd listener columns g0 es) !! c = Some k -> accepted k = Some a -> opened g0 es a.
Proof. intros H0 Hk. by apply (admission_inv g0 es c k). Qed.

(** Connection rows in every history.  A row keeps its instance, generation and peer process, its sequence number never
    decreases, its state only goes to CLOSED, and a closed row never changes again. *)
Theorem connection_rows_evolve g0 es : rows_evolve (connections (tables g0)) (connections (tables (run g0 es))).
Proof.
  induction es as [|e es IH] using rev_ind; [apply rows_evolve_refl|]. rewrite run_snoc. intros id x Hx.
  destruct (IH id x Hx) as (y & Hy & Hxy). destruct (step_rows_evolve _ e id y Hy) as (z & Hz & Hyz). eauto using row_evolves_trans.
Qed.

(** A connection lost while it is admitted stays active, where the query of the snapshot can run.  When the socket closes before the transaction that
    admits its peer has committed, [terminate] has already run without a connection to close: in every later state
    the row of the connection is still ACTIVE. *)
Theorem abandoned_connection_stays_active g0 es c newId k k1 a es' :
  connected g0 = ∅ -> connected (gw_run systemctl readFile peercred inspect openPidfd listener columns g0 es) !! c = Some k -> closed k = true -> accepted k = None ->
  connected (step (run g0 es) (Resume c newId)) !! c = Some k1 -> accepted k1 = Some a ->
  exists x, connections (tables (run (step (run g0 es) (Resume c newId)) es')) !! ac_connectionId a = Some x /\ ic_state x = "ACTIVE".
Proof.
  set (g := run g0 es). intros H0 Hk Hc Hn Hk1 Ha. pose proof (run_inv g0 es H0) as I. fold g in I.
  enough (A : abandoned (step g (Resume c newId)) c a) by (apply (run_abandoned _ es' c a) in A; [apply A|by apply step_inv]).
  pose proof Hk1 as E. apply step_connections in E as [[_ E]|(k0 & E & [Hf|A])]; rewrite Hk in E; try done;
    injection E as <-; [rewrite (fo_accepted _ _ Hf) in Ha; congruence|].
  destruct A as (? & hello & p & socket & a' & _ & _ & P & Ha' & _ & Hc1 & Hn1). rewrite Ha in Ha'. injection Ha' as <-. split.
  - exists k1. split; [done|]. split; [done|]. split; [congruence|]. rewrite Hn1.
    destruct (closing k) eqn:E; [|done]. destruct (inv_closing _ I c k Hk) as [? ?]; [by eexists|congruence].
  - apply persist_Ok in P as (_ & _ & _ & (row & -> & Hs & _) & _). exists row. by rewrite lookup_insert_eq.
Qed.
End Gateway_theory.

(** *** The gateway against the recovery head that the baseline creates *)

Section Shipped.
Context `{L : Locale} `{H : Hash} `{F : Formats}.
Context {W : Type} (systemctl : list string -> io W string) (readFile : string -> io W string).
Context (peercred : nat -> io W string) (inspect : nat -> io W RuntimeSocketFdEvidence) (openPidfd : Z -> io W Z).
Variable listener : ListenerEvidence.
#[local] Abbreviation gateway := (gateway (W := W)).
#[local] Abbreviation step := (gw_step systemctl readFile peercred inspect openPidfd listener platform_recovery_head_columns).
#[local] Abbreviation run := (gw_run systemctl readFile peercred inspect openPidfd listener platform_recovery_head_columns).

Definition stream_socket (x : RuntimeSocketFdEvidence) : Prop := so_family x = "AF_UNIX" /\ so_type x = "SOCK_STREAM" /\ so_accepting x = false.
Lemma persist_refused x newId hello p d : exists e, persistAcceptedConnection platform_recovery_head_columns x newId listener hello p d = Throw e /\ (stream_socket x -> e = PgError "42703").
Proof.
  unfold persistAcceptedConnection. destruct (_ || so_accepting x) eqn:B; cbn [throw_if mbind result_bind].
  - eexists. split; [done|]. intros (E1 & E2 & E3). by rewrite E1, E2, E3 in B.
  - eexists. split; [|done]. reflexivity.
Qed.
Definition untaken (k : peer_connection) : Prop := accepted k = None /\ written k = [].
Definition nobody (g : gateway) : Prop := forall c k, connected g !! c = Some k -> untaken k.
Lemma nobody_set c k (g g' : gateway) : nobody g -> untaken k -> connected g' = <[c := k]> (connected g) -> nobody g'.
Proof. intros N Hk E c' k'. rewrite E, lookup_insert_Some. intros [[_ <-]|[_ Hk']]; [done|by eapply N]. Qed.
Lemma untaken_fail e k : untaken k -> untaken (fail e k).
Proof. done. Qed.
Lemma nobody_resume c newId k g : nobody g -> untaken k -> nobody (resume systemctl readFile peercred inspect openPidfd listener platform_recovery_head_columns c newId k g).
Proof.
  intros N U. unfold resume. destruct (at_phase k) as [|hello|hello p|n hb|hb]; [done|..].
  - destruct (read_peer _ _ _ _ _ _ _) as [[p|e] h]; [by apply (nobody_set c (set_phase (Persisting hello p) k) g)|by apply (nobody_set c (fail e k) g)].
  - destruct (on_world _ _) as [[x|e] h]; cbn [mbind result_bind]; [|by apply (nobody_set c (fail e k) g)]. destruct (persist_refused x newId hello p (tables (set_kernel h g))) as (e & -> & _). by apply (nobody_set c (fail e k) g).
  - destruct U as [-> _]. done.
  - destruct U as [-> _]. done.
Qed.
Lemma nobody_step g e : nobody g -> nobody (step g e).
Proof.
  intros N. destruct e as [c|c f|c newId|c reason|c|w|d]; cbn [gw_step]; try done; destruct (connected g !! c) as [k|] eqn:Hk; try done; try (pose proof (N _ _ Hk) as U).
  - eapply nobody_set; [exact N| |reflexivity]. done.
  - destruct (at_phase k); try done. eapply nobody_set; [done| |reflexivity]. by destruct (on_frame f k).
  - by apply nobody_resume.
  - unfold terminate. destruct U as [U1 U2]. rewrite U1. destruct (closed k); [done|]. by apply (nobody_set c (set_closed None k) g).
  - unfold record_close. destruct U as [-> _]. by destruct (closing k).
Qed.
Lemma nobody_run g es : nobody g -> nobody (run g es) /\ connections (tables (run g es)) = connections (tables g).
Proof.
  intros N. induction es as [|e es [IN IH]] using rev_ind; [done|]. rewrite run_snoc. split; [by apply nobody_step|].
  destruct (step_rows systemctl readFile peercred inspect openPidfd listener platform_recovery_head_columns (run g es) e) as [->|[(c & k & k' & _ & Hk & A)|(c & k & Hk & a & x & y & Ha & _)]]; [done|..]; exfalso.
  - destruct A as (? & ? & ? & ? & a & _ & _ & _ & Ha & _). destruct (nobody_step _ e IN _ _ Hk). congruence.
  - destruct (IN _ _ Hk). congruence.
Qed.

(** C40. Nobody is accepted.  The query of the snapshot names two columns that the recovery head does not have.  So whatever
    connects, sends and fails, and however other writers change the tables: no connection is ever accepted, no frame is written to any, and the gateway opens
    and changes no connection row.  A peer that the kernel and [systemctl] vouched for, on a proper socket, is the one that
    fails with the error of PostgreSQL for an undefined column. *)
Theorem gateway_accepts_nobody g0 es : connected g0 = ∅ ->
  (forall c k, connected (gw_run systemctl readFile peercred inspect openPidfd listener platform_recovery_head_columns g0 es) !! c = Some k -> accepted k = None /\ written k = []) /\
  connections (tables (run g0 es)) = connections (tables g0) /\
  (forall c k hello p x h newId, connected (run g0 es) !! c = Some k -> at_phase k = Persisting hello p -> failed k = None ->
     on_world (inspect c) (kernel (run g0 es)) = (Ok x, h) -> stream_socket x ->
     vouched systemctl hello p /\ exists k', connected (step (run g0 es) (Resume c newId)) !! c = Some k' /\ accepted k' = None /\ failed k' = Some (PgError "42703")).
Proof.
  intros H0. destruct (nobody_run g0 es) as [N E]; [intros c k; by rewrite H0, lookup_empty|]. split_and!; [done|done|].
  intros c k hello p x h newId Hk Hp Hf Hx Hs. split; [by eapply admission_inv|]. destruct (N _ _ Hk) as [Ha _]. cbn [gw_step]. rewrite Hk. unfold resume. rewrite Hp, Hx. cbn [mbind result_bind].
  destruct (persist_refused x newId hello p (tables (set_kernel h (run g0 es)))) as (e & -> & He). rewrite (He Hs). eexists. split; [apply lookup_insert_eq|]. by cbn; rewrite Hf.
Qed.
End Shipped.

(** ** Samples *)

Definition host_unit_path : string := "/kcml/" +:+ runtime_unit.
Definition gw_systemctl (args : list string) : io Z string := fun w =>
  (Ok (lines ["MainPID=42"; "ActiveState=active"; "ControlGroup=" +:+ host_unit_path; "InvocationID=0123456789abcdef0123456789abcdef"]), w).
Definition gw_read (path : string) : io Z string := fun w =>
  if String.eqb path "/proc/42/stat" then (Ok (proc_stat "42" sample_comm sample_fields), w)
  else if String.eqb path "/proc/42/cgroup" then (Ok (lines ["0::" +:+ host_unit_path]), w)
  else if String.eqb path "/proc/42/status" then (Ok (lines ["Name: host"; "Uid: 100 100"; "Gid: 100 100"]), w)
  else (Ok (lines [runtime_id]), w).
Definition q (s : string) : string := of_chars (quote :: chars s ++ [quote]).
Definition gw_peercred (c : nat) : io Z string := fun w => (Ok ("{" +:+ q "pid" +:+ ":42," +:+ q "uid" +:+ ":100," +:+ q "gid" +:+ ":100}"), w).
Definition gw_inspect (c : nat) : io Z RuntimeSocketFdEvidence := fun w =>
  (Ok {| so_family := "AF_UNIX"; so_type := "SOCK_STREAM"; so_accepting := false; so_nonBlocking := true; so_closeOnExec := true; so_localPath := "/gw";
         so_device := 1; so_inode := 100 + w |}, w).
Definition gw_pidfd (pid : Z) : io Z Z := fun w => (Ok (10 + w), w + 1).
Definition gw_listener : ListenerEvidence := {| le_path := "/gw"; le_device := 1; le_inode := 7; le_uid := 5; le_gid := 6; le_mode := 0x1b0 |}.
(** A recovery head with the two columns that the query names and the baseline has not *)
Definition gw_columns : list string := platform_recovery_head_columns ++ ["database_identity_current"; "recovery_lineage_current"].
Definition gw_tables : gw_db :=
  {| rt := {| ledger := empty_db; instances := {[runtime_id := {| authority := sample_authority; state := sample_state |}]}; cleanup_operations := ∅;
              components := {["component" := {| c_lifecycle := "ACTIVE"; c_activation_state := "ACTIVE"; c_enabled := true; c_active_revision := Some "revision";
                                                c_current_release := Some "release"; c_binding_set := Some "bindings"; c_activation_epoch := 3 |}]} |};
     revisions := {["revision" := {| rv_validation_state := "VALID"; rv_verification_state := "VERIFIED" |}]};
     releases := {["release" := {| re_state := "ACTIVE"; re_artifact_digest := repeat 4 32; re_runtime_digest := repeat 3 32 |}]};
     targets := {["target" := "ACTIVE"]};
     heads := Some {| ph_incarnation := "incarnation"; ph_deployment_epoch := 2; ph_activation_epoch := 3;
                      ph_recovery := {["state" := JStr "READY"; "database_identity_current" := JBool true; "recovery_lineage_current" := JBool true]} |};
     identities := ∅; connections := ∅ |}.
Definition gw_sample : gateway (W := Z) := {| kernel := {| world := 0; pidfds := [] |}; tables := gw_tables; connected := ∅ |}.
Definition gw_hello : RuntimeFrame :=
  {| frameType := HELLO; flags := 0; sequence := 1;
     payload := PJson (JObj [("protocol", JStr RUNTIME_IPC_PROTOCOL); ("peerKind", JStr "RUNTIME_HOST"); ("serviceClass", JStr SERVICE_CLASS);
                             ("runtimeInstanceId", JStr runtime_id); ("runtimeGeneration", JStr "1"); ("systemdUnit", JStr runtime_unit);
                             ("launchManifestDigest", JStr ("sha256:" +:+ hex (repeat 1 32)))]) |}.
Definition gw_beat : RuntimeFrame :=
  {| frameType := HEARTBEAT; flags := 0; sequence := 2;
     payload := PJson (JObj [("runtimeInstanceId", JStr runtime_id); ("runtimeGeneration", JStr "1"); ("heartbeatSequence", JStr "5")]) |}.
Definition sample_gw_step := gw_step (L := code_unit_locale) (H := toy_hash) (F := toy_formats) gw_systemctl gw_read gw_peercred gw_inspect gw_pidfd gw_listener gw_columns.
Definition sample_gw_run := gw_run (L := code_unit_locale) (H := toy_hash) (F := toy_formats) gw_systemctl gw_read gw_peercred gw_inspect gw_pidfd gw_listener gw_columns.
Definition greeted : list (gw_event (W := Z)) := [Connect 0; Frame 0 gw_hello; Resume 0 "identity"].
Definition dropped : gateway (W := Z) := sample_gw_run gw_sample (greeted ++ [SocketClosed 0 "PEER_CLOSED"]).
Definition accepted_id (g : gateway (W := Z)) : option string := k ← connected g !! 0%nat; a ← accepted k; Some (ac_connectionId a).
Definition last_number (g : gateway (W := Z)) : option (string * Z) := x ← connections (tables g) !! "connection"; Some (ic_state x, ic_last_sequence x).

Example greeted_accepted : accepted_id (sample_gw_run gw_sample (greeted ++ [Resume 0 "connection"])) = Some "connection".
Proof. vm_compute. reflexivity. Qed.
Example beaten : last_number (sample_gw_run gw_sample (greeted ++ [Resume 0 "connection"; Frame 0 gw_beat; Resume 0 ""; Resume 0 ""])) = Some ("ACTIVE", 2).
Proof. vm_compute. reflexivity. Qed.
Example closed_row :
  let g := sample_gw_run gw_sample (greeted ++ [Resume 0 "connection"; SocketClosed 0 "PEER_CLOSED"; RecordClose 0]) in
  last_number g = Some ("CLOSED", 1) /\ pidfds (kernel g) = [].
Proof. vm_compute. done. Qed.
(** The peer is gone, and its row is active and its pidfd open. *)
Example dropped_accepted :
  let g := sample_gw_step dropped (Resume 0 "connection") in
  accepted_id g = Some "connection" /\ last_number g = Some ("ACTIVE", 1) /\ pidfds (kernel g) = [10].
Proof. vm_compute. done. Qed.
Example dropped_before : (fun k => (closed k, is_some (accepted k))) <$> connected dropped !! 0%nat = Some (true, false).
Proof. vm_compute. reflexivity. Qed.

(** Against the recovery head of the baseline the same peer fails. *)
Definition shipped_run := gw_run (L := code_unit_locale) (H := toy_hash) (F := toy_formats) gw_systemctl gw_read gw_peercred gw_inspect gw_pidfd gw_listener platform_recovery_head_columns.
Definition persisting (k : peer_connection) : option (RuntimeHostHello * PeerKernelIdentity) := match at_phase k, failed k with Persisting hello p, None => Some (hello, p) | _, _ => None end.
Example greeted_identified : is_some (connected (shipped_run gw_sample greeted) !! 0%nat ≫= persisting) = true.
Proof. vm_compute. reflexivity. Qed.
Lemma gateway_accepts_nobody_witness :
  connections (tables (shipped_run gw_sample (greeted ++ [Resume 0 "connection"]))) = ∅ /\
  exists k, connected (shipped_run gw_sample (greeted ++ [Resume 0 "connection"])) !! 0%nat = Some k /\ failed k = Some (PgError "42703").
Proof.
  split; [exact (proj1 (proj2 (@gateway_accepts_nobody code_unit_locale toy_hash toy_formats Z gw_systemctl gw_read gw_peercred gw_inspect gw_pidfd gw_listener gw_sample
    (greeted ++ [Resume 0 "connection"]) eq_refl)))|].
  pose proof greeted_identified as E. destruct (connected (shipped_run gw_sample greeted) !! 0%nat) as [k|] eqn:Hk; [|discriminate E]. cbn in E. unfold persisting in E.
  destruct (at_phase k) as [| |hello p| |] eqn:Hp; try discriminate E. destruct (failed k) eqn:Hf; [discriminate E|].
  destruct (@gateway_accepts_nobody code_unit_locale toy_hash toy_formats Z gw_systemctl gw_read gw_peercred gw_inspect gw_pidfd gw_listener gw_sample greeted eq_refl) as (_ & _ & Hall).
  destruct (Hall 0%nat k hello p _ _ "connection" Hk Hp Hf eq_refl) as (_ & k' & Hk' & _ & Hf'); [split; [reflexivity|split; reflexivity]|].
  exists k'. split; [exact Hk'|exact Hf'].
Defined.
Lemma abandoned_connection_stays_active_witness :
  exists a x, connections (tables (sample_gw_run (sample_gw_step dropped (Resume 0 "connection")) [RecordClose 0])) !! ac_connectionId a = Some x /\ ic_state x = "ACTIVE".
Proof.
  pose proof (proj1 dropped_accepted) as E. pose proof dropped_before as B. unfold accepted_id in E.
  destruct (connected (sample_gw_step dropped (Resume 0 "connection")) !! 0%nat) as [k1|] eqn:Hk1; [|discriminate E].
  cbn in E. destruct (accepted k1) as [a|] eqn:Ha; [|discriminate E]. destruct (connected dropped !! 0%nat) as [k|] eqn:Hk; [|discriminate B].
  apply (inj Some), pair_equal_spec in B as [Hc Hn]. destruct (accepted k) as [a0|] eqn:Hak; [discriminate Hn|].
  exists a. exact (@abandoned_connection_stays_active code_unit_locale toy_hash toy_formats Z gw_systemctl gw_read gw_peercred gw_inspect gw_pidfd gw_listener gw_columns
    gw_sample (greeted ++ [SocketClosed 0 "PEER_CLOSED"]) 0%nat "connection" k k1 a [RecordClose 0] eq_refl Hk Hc Hak Hk1 Ha).
Defined.
