(* ===== verification/Commands.v ===== *)
(** * The command service

    [packages/domain/src/operations.ts], [CanonicalOperationService] and the guards it shares with the worker: idempotent
    admission of a command, the concurrency claim of its aggregate, the admission to its activation domain, its queue item
    and its outbox and audit events, in one transaction.  Surrogate keys that are never reused are replaced by the
    natural key: a claim is named by its scope, a domain by its key, an admission and a queue item by their command.
    Columns that only time or count the updates of a row are left out.  The rest of the database is an arbitrary
    type with the operations of [CommandDomain]. *)
From Stdlib Require Import Ascii String.
From S2P Require Import Prelude Bytes Json Text Digest CanonicalValue IpcFrame IpcChannel IpcBroker AuditChain Database ErrorRegistry Contracts Schemas.

(** ** Tables *)

Record lineage := { ln_incarnation : string; ln_deployment : Z; ln_recovery : Z }.
#[export] Instance lineage_eq_dec : EqDecision lineage.
Proof. solve_decision. Defined.
Inductive command_status := C_ACCEPTED | C_RUNNING | C_WAITING | C_SUCCEEDED | C_FAILED_FINAL | C_CANCELLED_FINAL | C_MANUAL_REVIEW.
#[export] Instance command_status_eq_dec : EqDecision command_status.
Proof. solve_decision. Defined.
Inductive admission_state := ADMITTED | CHECKPOINTED | RECONCILING | TERMINAL.
#[export] Instance admission_state_eq_dec : EqDecision admission_state.
Proof. solve_decision. Defined.
Inductive queue_status := Q_READY | Q_CLAIMED | Q_SUCCEEDED | Q_FAILED_FINAL | Q_CANCELLED_FINAL | Q_DEAD_LETTER.
#[export] Instance queue_status_eq_dec : EqDecision queue_status.
Proof. solve_decision. Defined.
Inductive idempotency_lifecycle := I_RESERVED | I_EXECUTING | I_SUCCEEDED | I_FAILED_FINAL.

Record idempotency_row := {
  id_key : string; id_request_digest : list Z; id_logical : string; id_command : string; id_lifecycle : idempotency_lifecycle;
  id_status : option Z; id_response : option json;
}.
Record domain_head := { dh_epoch : Z; dh_barrier : string; dh_pending : Z; dh_lineage : lineage }.
(** [(scope_kind, scope_key_digest)] *)
Abbreviation claim_key := (string * list Z)%type.
Record claim_row := {
  kc_scope_key : string; kc_logical : string; kc_owner : string; kc_fence : Z; kc_expires : Z; kc_released : bool; kc_lineage : lineage;
}.
Record command_row := {
  cr_logical : string; cr_operation : string; cr_revision : Z; cr_target : option string; cr_caller : string; cr_request : json;
  cr_digest : list Z; cr_expected_version : option Z; cr_expected_epoch : option Z; cr_status : command_status; cr_result : option json;
  cr_error : option json; cr_correlation : string; cr_causation : option string; cr_deadline : option string; cr_epoch : Z;
  cr_lineage : lineage; cr_claim : claim_key; cr_fence : Z;
}.
Record admission_row := { ad_domain : string; ad_pinned : Z; ad_state : admission_state; ad_digest : list Z }.
Record queue_row := {
  qi_id : string; qi_queue : string; qi_partition : string; qi_status : queue_status; qi_available : Z; qi_attempts : Z; qi_max : Z; qi_owner : option string;
  qi_lease : Z; qi_lease_expires : option Z; qi_lineage : lineage; qi_claim : claim_key; qi_fence : Z;
}.
Record outbox_row := { ob_stream : string; ob_sequence : Z; ob_event : string; ob_aggregate : option string; ob_payload : json; ob_digest : list Z }.
Record checkpoint_row := { cp_logical : string; cp_output : json; cp_claim : claim_key; cp_fence : Z; cp_lineage : lineage }.
Record failure_row := { fa_logical : string; fa_failure : json; fa_code : string; fa_directive : option string }.
Inductive plan_state := P_READY | P_CLAIMED | P_WAITING_RECONCILIATION | P_WAITING_OWNER | P_COMPLETED | P_FAILED_FINAL.
#[export] Instance plan_state_eq_dec : EqDecision plan_state.
Proof. solve_decision. Defined.
Record plan_row := {
  pl_command : string; pl_action : RetryPlanAction; pl_directive : option string; pl_state : plan_state; pl_available : Z; pl_owner : option string;
  pl_lease : Z; pl_expires : option Z; pl_attempts : Z; pl_max : Z; pl_successor : option string; pl_lineage : lineage;
}.
Inductive reconciliation_state := R_READY | R_CLAIMED | R_RETRY_ALLOWED | R_COMPLETED | R_MANUAL_REVIEW.
#[export] Instance reconciliation_state_eq_dec : EqDecision reconciliation_state.
Proof. solve_decision. Defined.
Record reconciliation_row := {
  rc_command : string; rc_state : reconciliation_state; rc_available : Z; rc_attempts : Z; rc_max : Z; rc_owner : option string; rc_lease : Z;
  rc_expires : option Z; rc_evidence : option json; rc_lineage : lineage;
}.
Record snapshot_row := { sn_command : string; sn_target : option string; sn_version : option Z; sn_epoch : Z; sn_value : json; sn_lineage : lineage }.
(** Failures and plans are named by their command and attempt; a review, a reconciliation and a snapshot by their plan. *)
Record failure_tables := {
  failures : gmap (string * Z) failure_row; plans : gmap (string * Z) plan_row; reviews : list (string * Z);
  reconciliations : gmap (string * Z) reconciliation_row; snapshots : gmap (string * Z) snapshot_row;
}.
Record log_tables := { outbox : list outbox_row; allocators : allocator; audit_log : audit_db }.
Record cmd_db (W : Type) := Db {
  recovery : option recovery_row; activation : option Z; idempotency : gmap (list Z * list Z) idempotency_row; domains : gmap string domain_head;
  claims : gmap claim_key claim_row; commands : gmap string command_row; admissions : gmap string admission_row; queue : gmap string queue_row;
  checkpoints : gmap string checkpoint_row; failed : failure_tables; logs : log_tables; rest : W;
}.
Arguments Db {W}.
Arguments recovery {W}. Arguments activation {W}. Arguments idempotency {W}. Arguments domains {W}. Arguments claims {W}.
Arguments commands {W}. Arguments admissions {W}. Arguments queue {W}. Arguments checkpoints {W}. Arguments failed {W}.
Arguments logs {W}. Arguments rest {W}.

Section Setters.
Context {W : Type}.
Implicit Type d : cmd_db W.
Definition set_idempotency t d := Db (recovery d) (activation d) t (domains d) (claims d) (commands d) (admissions d) (queue d) (checkpoints d) (failed d) (logs d) (rest d).
Definition set_domains t d := Db (recovery d) (activation d) (idempotency d) t (claims d) (commands d) (admissions d) (queue d) (checkpoints d) (failed d) (logs d) (rest d).
Definition set_claims t d := Db (recovery d) (activation d) (idempotency d) (domains d) t (commands d) (admissions d) (queue d) (checkpoints d) (failed d) (logs d) (rest d).
Definition set_commands t d := Db (recovery d) (activation d) (idempotency d) (domains d) (claims d) t (admissions d) (queue d) (checkpoints d) (failed d) (logs d) (rest d).
Definition set_admissions t d := Db (recovery d) (activation d) (idempotency d) (domains d) (claims d) (commands d) t (queue d) (checkpoints d) (failed d) (logs d) (rest d).
Definition set_queue t d := Db (recovery d) (activation d) (idempotency d) (domains d) (claims d) (commands d) (admissions d) t (checkpoints d) (failed d) (logs d) (rest d).
Definition set_checkpoints t d := Db (recovery d) (activation d) (idempotency d) (domains d) (claims d) (commands d) (admissions d) (queue d) t (failed d) (logs d) (rest d).
Definition set_failed t d := Db (recovery d) (activation d) (idempotency d) (domains d) (claims d) (commands d) (admissions d) (queue d) (checkpoints d) t (logs d) (rest d).
Definition set_logs t d := Db (recovery d) (activation d) (idempotency d) (domains d) (claims d) (commands d) (admissions d) (queue d) (checkpoints d) (failed d) t (rest d).
Definition set_rest (t : W) d := Db (recovery d) (activation d) (idempotency d) (domains d) (claims d) (commands d) (admissions d) (queue d) (checkpoints d) (failed d) (logs d) t.
End Setters.

(** ** The rest of the domain *)

Inductive HandlerStrategy :=
| CONSISTENT_QUERY | IDEMPOTENT_CREATE | CAS_STATE_TRANSITION | COMMUTATIVE_EVIDENCE_APPEND | SIDE_EFFECT_LEDGER | GUARDED_RECONCILIATION.
#[export] Instance handler_strategy_eq_dec : EqDecision HandlerStrategy.
Proof. solve_decision. Defined.
Record OperationHandlerSpec := { hs_entity : string; hs_strategy : HandlerStrategy; hs_queue : string }.
(** What the service needs of it: the catalog of handlers, the validation of a command's arguments, queries, the
    row of an entity ([None] when there is none, its [state_version] when it has one), and whether a component is
    deregistered. *)
Class CommandDomain (W : Type) := {
  byOperation : gmap string OperationHandlerSpec;
  validateCanonicalOperationCommand : OperationContract -> option string -> list (string * json) -> result unit;
  runQuery : OperationContract -> option string -> list (string * json) -> W -> result json;
  entityRow : W -> string -> string -> result (option (option Z));
  deregisteredComponent : W -> string -> bool;
}.
Definition operationHandlerFor `{CommandDomain W} (operation : string) : result OperationHandlerSpec :=
  or_throw (byOperation !! operation) (JsError ("OPERATION_HANDLER_NOT_BOUND:" +:+ operation)).
Definition workerAggregateEntity `{CommandDomain W} (operation : string) : result string :=
  h ← operationHandlerFor operation; Ok (if String.eqb operation "component.revision.publish" then "component" else hs_entity h).

(** ** The service *)

Record recovery_fence := { rf_epoch : Z; rf_token : Z }.
Record CommandContext := {
  callerFingerprint : string; actorId : string; cx_correlation : string; cx_causation : option string; idempotencyKey : option string;
  recoveryFence : option recovery_fence;
}.
(** The identifiers and the clock of one call *)
Record fresh := { fr_logical : string; fr_command : string; fr_queue : string; fr_now : Z; fr_serverTime : string }.
Record OperationCatalogService := { oc_operations : list OperationContract; oc_authorities : list AuthorityOwnershipRecord }.
Definition CLAIM_LEASE : Z := 5 * 60 * 1000.
Definition now_lineage (h : RecoveryAuthorityHead) : lineage :=
  {| ln_incarnation := ah_incarnation h; ln_deployment := ah_current_epoch h; ln_recovery := ah_recovery_epoch h |}.
Definition nul : string := of_chars [char_of 0].
Definition CLOSED_ADMISSION : list string :=
  ["component.suspend"; "component.quarantine"; "component.restore"; "component.recertify"; "component.deregister"; "component.heartbeat";
   "component.state.report"; "component.activate"; "component.enable"; "component.disable"; "component.rollback"; "component.control.enable";
   "component.control.disable"; "component.control.ack"].
Definition permitsClosedComponentAdmission (operationName : string) : bool := includes operationName CLOSED_ADMISSION.

Section Service.
Context `{L : Locale} `{H : Hash} `{F : Formats} {W : Type} `{D : CommandDomain W}.
Implicit Type d : cmd_db W.

Definition jsonSafe (j : json) : json := canonicalize j.
Definition digestBytes (digest : string) : list Z := hex_decode (String.substring 7 (String.length digest - 7) digest).
Definition str_or (k default : string) (l : list (string * json)) : string := match get_prop k l with Some (JStr s) => s | _ => default end.
Definition operationDomainKey (o : OperationContract) (targetId : option string) (args : list (string * json)) : string :=
  let kind := to_lower (aggregateRoot o) in
  match targetId with
  | Some t => kind +:+ ":" +:+ t
  | None =>
      if String.eqb (operationName o) "monitor.alert.open" then
        kind +:+ ":episode:" +:+ Digest.canonicalDigest (jsonSafe (JObj
          [("sourceObjectType", JStr (str_or "sourceObjectType" "invalid-source-type" args)); ("sourceObjectId", JStr (str_or "sourceObjectId" "invalid-source-id" args));
           ("alertType", JStr (str_or "alertType" "invalid-alert-type" args)); ("conditionDigest", JStr (str_or "conditionDigest" "invalid-condition-digest" args))]))
      else kind +:+ ":create:" +:+ match get_prop "stableKey" args, get_prop "code" args with
                                   | Some (JStr s), _ => s | _, Some (JStr s) => s | _, _ => operationName o end
  end.
(** [catalog.get]: a later operation of the same name replaces an earlier one. *)
Definition catalog_get (c : OperationCatalogService) (name : string) : result OperationContract :=
  or_throw (List.find (fun o => String.eqb (operationName o) name) (rev (oc_operations c)))
    (DomainErr "KCIP_TARGET_NOT_FOUND" ("Unknown operation " +:+ name)).

Definition claim_scope (o : OperationContract) (domainKey : string) : claim_key :=
  (match get_prop "concurrencyScope" (op_other o) with Some (JStr s) => s | _ => "" end, hash (utf8 domainKey)).
Definition reserveConcurrencyClaim (o : OperationContract) (domainKey logical owner : string) (ln : lineage) (now : Z) d
    : result ((claim_key * Z) * cmd_db W) :=
  let k := claim_scope o domainKey in
  let current := claims d !! k in
  _ ← match current with
      | Some c => throw_if (negb (kc_released c)) (DomainErr (if kc_expires c >? now then "CONCURRENCY_KEY_HELD" else "LEASE_EXPIRED")
                    "A nonterminal concurrency claim cannot be stolen by a new logical operation")
      | None => Ok tt end;
  let fence := match current with Some c => kc_fence c | None => 0 end + 1 in
  _ ← throw_if (max_bigint <? fence) (PgError "22003");
  Ok ((k, fence), set_claims (<[k := {| kc_scope_key := domainKey; kc_logical := logical; kc_owner := owner; kc_fence := fence;
                                         kc_expires := now + CLAIM_LEASE; kc_released := false; kc_lineage := ln |}]> (claims d)) d).
Definition release_claim (c : claim_row) : claim_row :=
  {| kc_scope_key := kc_scope_key c; kc_logical := kc_logical c; kc_owner := kc_owner c; kc_fence := kc_fence c; kc_expires := kc_expires c;
     kc_released := true; kc_lineage := kc_lineage c |}.
Definition set_pending (n : Z) (h : domain_head) : domain_head :=
  {| dh_epoch := dh_epoch h; dh_barrier := dh_barrier h; dh_pending := n; dh_lineage := dh_lineage h |}.
Definition set_admission (s : admission_state) (a : admission_row) : admission_row :=
  {| ad_domain := ad_domain a; ad_pinned := ad_pinned a; ad_state := s; ad_digest := ad_digest a |}.
Definition count_pending (by_ : Z) (key : string) (p : domain_head -> bool) d : cmd_db W :=
  match domains d !! key with Some h => if p h then set_domains (<[key := set_pending (dh_pending h + by_) h]> (domains d)) d else d | None => d end.
Definition terminalize_admission (commandId : string) d : cmd_db W :=
  match admissions d !! commandId with
  | Some a => if bool_decide (ad_state a = TERMINAL) then d
              else count_pending (-1) (ad_domain a) (fun h => 0 <? dh_pending h)
                     (set_admissions (<[commandId := set_admission TERMINAL a]> (admissions d)) d)
  | None => d
  end.
Definition terminalizeCommandGuards (commandId logical : string) (claim : claim_key) d : cmd_db W :=
  let d := terminalize_admission commandId d in
  match claims d !! claim with
  | Some c => if String.eqb (kc_logical c) logical && negb (kc_released c) then set_claims (<[claim := release_claim c]> (claims d)) d else d
  | None => d
  end.

(** [SELECT append_audit_event(...)] with the canonical bytes of the payload *)
Definition audit (type : string) (payload : json) d : result (cmd_db W) :=
  log ← append_audit_event (audit_log (logs d)) (type, utf8 (canonicalJson (jsonSafe payload)));
  Ok (set_logs {| outbox := outbox (logs d); allocators := allocators (logs d); audit_log := log |} d).
Definition uuid_text (s : string) : bool := (String.length s =? 36)%nat && str_forallb (fun c => is_hex c || in_range "A" "F" c || Ascii.eqb c "-") s.
Definition append_outbox (commandId event : string) (target : option string) (payload : json) d : result (Z * cmd_db W) :=
  _ ← throw_if (negb (uuid_text commandId)) (DomainErr "TOOL_ARGUMENT_SCHEMA_INVALID" "Authoritative outbox stream must be UUID-addressable");
  '(n, al) ← allocateContiguousSequence ("TRANSACTIONAL_OUTBOX", commandId, "STREAM_SEQUENCE") (allocators (logs d));
  Ok (n, set_logs {| outbox := outbox (logs d) ++ [{| ob_stream := "command:" +:+ commandId; ob_sequence := n; ob_event := event; ob_aggregate := target;
                       ob_payload := payload; ob_digest := digestBytes (Digest.canonicalDigest (jsonSafe payload)) |}];
                     allocators := al; audit_log := audit_log (logs d) |} d).

(** A result as the canonical tree that is stored and sent: its bigints are texts. *)
Definition result_json (status commandId logical correlation : string) (version sequence epoch : Z) (digest : string) (replay : bool) (time : string)
    (result error : json) : json :=
  jsonSafe (JObj [("status", JStr status);
    ("metadata", JObj [("correlationId", JStr correlation); ("logicalOperationId", JStr logical); ("commandId", JStr commandId);
                       ("stateVersion", JStr (dec version)); ("eventSequence", JStr (dec sequence)); ("activationEpoch", JStr (dec epoch));
                       ("resultDigest", JStr digest); ("idempotencyReplay", JBool replay); ("serverTime", JStr time)]);
    ("result", result); ("error", error)]).
Definition acceptedResult (status commandId logical correlation : string) (sequence epoch : Z) (replay : bool) (time : string) (result : json) : json :=
  result_json status commandId logical correlation 0 sequence epoch (Digest.canonicalDigest (jsonSafe result)) replay time (jsonSafe result) JNull.
(** [{...body, metadata: {...body.metadata, idempotencyReplay: true}}] *)
Definition replayed (body : json) : json :=
  match body with
  | JObj l => JObj (define_prop "metadata" (JObj (define_prop "idempotencyReplay" (JBool true)
                      (match get_prop "metadata" l with Some (JObj m) => m | _ => [] end))) l)
  | j => j
  end.
Definition accepted_json (commandId : string) : json := JObj [("commandId", JStr commandId); ("status", JStr "ACCEPTED")].

(** [{...(commandInput ?? {}), operation: operationName}] *)
Definition spread_input (j : json) (operation : string) : result (list (string * json)) :=
  match j with
  | JObj l => Ok (define_prop "operation" (JStr operation) l)
  | JStr s => _ ← throw_if (truthy s) ZodError; Ok [("operation", JStr operation)]
  | JArr l => match l with [] => Ok [("operation", JStr operation)] | _ => Throw ZodError end
  | _ => Ok [("operation", JStr operation)]
  end.
Definition num_or_null (z : option Z) : json := match z with Some n => JStr (dec n) | None => JNull end.
Definition command_json (c : OperationCommand) : json :=
  jsonSafe (JObj [("operation", JStr (oc_operation c)); ("targetId", jstr_opt (oc_targetId c)); ("arguments", JObj (oc_arguments c));
                  ("expectedStateVersion", num_or_null (oc_expectedStateVersion c)); ("expectedActivationEpoch", num_or_null (oc_expectedActivationEpoch c));
                  ("deadlineAt", jstr_opt (oc_deadlineAt c))]).
End Service.

Section Execute.
Context `{L : Locale} `{H : Hash} `{F : Formats} {W : Type} `{D : CommandDomain W}.
Implicit Type d : cmd_db W.

Definition bytes_eqb (a b : list Z) : bool := bool_decide (a = b).
Definition scope_digest (x : CommandContext) (operationName : string) (targetId : option string) : list Z :=
  hash (utf8 (callerFingerprint x +:+ nul +:+ operationName +:+ nul +:+ default "none" targetId)).
Definition request_bytes (c : OperationCommand) : list Z := utf8 (canonicalJson (command_json c)).
Definition request_digest (c : OperationCommand) : list Z := digestBytes (sha256_text (request_bytes c)).
Definition duplicate : exn := PgError "23505".
(** The unique keys of the two identifiers *)
Definition taken (f : fresh) d : bool :=
  existsb (fun '(_, r) => String.eqb (id_logical r) (fr_logical f) || String.eqb (id_command r) (fr_command f)) (map_to_list (idempotency d)).
Definition fence_stale (x : CommandContext) (h : RecoveryAuthorityHead) : bool :=
  match recoveryFence x with
  | Some r => negb (rf_epoch r =? ah_recovery_epoch h) || negb (rf_token r =? ah_fencing_token h)
  | None => false
  end.
Definition epoch_changed (expected : option Z) (epoch : Z) : bool := match expected with Some e => negb (e =? epoch) | None => false end.
(** [expectedStateVersion] against the row of the target *)
Definition check_target (o : OperationContract) (c : OperationCommand) d : result unit :=
  match oc_targetId c, oc_expectedStateVersion c with
  | Some t, Some v =>
      entity ← workerAggregateEntity (operationName o);
      row ← entityRow (rest d) entity t;
      match row with
      | None => Throw (DomainErr "KCIP_TARGET_NOT_FOUND" "Target does not exist")
      | Some (Some n) => throw_if (negb (n =? v)) (DomainErr "STATE_VERSION_CONFLICT" "Target state changed")
      | Some None => Ok tt
      end
  | _, _ => Ok tt
  end.
Definition new_command (o : OperationContract) (c : OperationCommand) (x : CommandContext) (f : fresh) (h : RecoveryAuthorityHead) (epoch : Z)
    (k : claim_key * Z) : command_row :=
  {| cr_logical := fr_logical f; cr_operation := operationName o; cr_revision := operationRevision o; cr_target := oc_targetId c;
     cr_caller := callerFingerprint x; cr_request := command_json c; cr_digest := request_digest c;
     cr_expected_version := oc_expectedStateVersion c; cr_expected_epoch := oc_expectedActivationEpoch c; cr_status := C_ACCEPTED;
     cr_result := None; cr_error := None; cr_correlation := cx_correlation x; cr_causation := cx_causation x; cr_deadline := oc_deadlineAt c;
     cr_epoch := epoch; cr_lineage := now_lineage h; cr_claim := fst k; cr_fence := snd k |}.
(** [INSERT INTO kcml.domain_command]: the trigger on the children of a deregistered component, the width of the columns and the unique keys *)
Definition insert_command (id : string) (r : command_row) d : result (cmd_db W) :=
  _ ← throw_if (match cr_target r with Some t => deregisteredComponent (rest d) t | None => false end) (PgError "55000");
  _ ← throw_if (match cr_expected_version r with Some v => max_bigint <? v | None => false end) (PgError "22003");
  _ ← throw_if (is_some (commands d !! id) || existsb (fun '(_, r') => String.eqb (cr_logical r') (cr_logical r)) (map_to_list (commands d))) duplicate;
  Ok (set_commands (<[id := r]> (commands d)) d).
Definition admission_payload (commandId domainKey : string) (pinned : Z) : json :=
  JObj [("commandId", JStr commandId); ("activationDomainId", JStr domainKey); ("pinnedActivationEpoch", JStr (dec pinned)); ("operationClass", JStr "MUTATING")].
Definition new_admission (commandId domainKey : string) (pinned : Z) : admission_row :=
  {| ad_domain := domainKey; ad_pinned := pinned; ad_state := ADMITTED;
     ad_digest := digestBytes (Digest.canonicalDigest (jsonSafe (admission_payload commandId domainKey pinned))) |}.
Definition new_queue_item (spec : OperationHandlerSpec) (o : OperationContract) (c : OperationCommand) (h : RecoveryAuthorityHead) (k : claim_key * Z) (f : fresh) : queue_row :=
  {| qi_id := fr_queue f; qi_queue := hs_queue spec; qi_partition := default (operationFamily o) (oc_targetId c); qi_status := Q_READY; qi_available := fr_now f;
     qi_attempts := 0; qi_max := 8; qi_owner := None; qi_lease := 0; qi_lease_expires := None; qi_lineage := now_lineage h;
     qi_claim := fst k; qi_fence := snd k |}.
Definition event_payload (f : fresh) (o : OperationContract) (c : OperationCommand) : json :=
  JObj [("commandId", JStr (fr_command f)); ("logicalOperationId", JStr (fr_logical f)); ("operationName", JStr (operationName o));
        ("targetId", jstr_opt (oc_targetId c))].
Definition set_response (l : idempotency_lifecycle) (status : Z) (body : json) (r : idempotency_row) : idempotency_row :=
  {| id_key := id_key r; id_request_digest := id_request_digest r; id_logical := id_logical r; id_command := id_command r; id_lifecycle := l;
     id_status := Some status; id_response := Some body |}.
Definition idempotency_key (o : OperationContract) (c : OperationCommand) (key : string) (x : CommandContext) : list Z * list Z :=
  (scope_digest x (operationName o) (oc_targetId c), hash (utf8 key)).

(** The transaction of a first request, after its idempotency key is reserved *)
Definition admit_new (o : OperationContract) (c : OperationCommand) (x : CommandContext) (f : fresh) (h : RecoveryAuthorityHead) (epoch : Z)
    (sk : list Z * list Z) (row : idempotency_row) d : result (json * cmd_db W) :=
  _ ← throw_if (epoch_changed (oc_expectedActivationEpoch c) epoch) (DomainErr "ACTIVATION_EPOCH_STALE" "Activation epoch changed");
  let key := operationDomainKey o (oc_targetId c) (oc_arguments c) in
  let d := match domains d !! key with
           | Some _ => d
           | None => set_domains (<[key := {| dh_epoch := epoch; dh_barrier := "OPEN"; dh_pending := 0; dh_lineage := now_lineage h |}]> (domains d)) d end in
  head ← or_throw (domains d !! key) (DomainErr "TOOL_ARGUMENT_SCHEMA_INVALID" "Activation domain head could not be reserved");
  _ ← throw_if (negb (String.eqb (dh_barrier head) "OPEN") && negb (permitsClosedComponentAdmission (operationName o)))
        (DomainErr "TERMINAL_STATE_IMMUTABLE" "Mutating admission is closed for this activation domain");
  _ ← check_target o c d;
  '(k, d) ← reserveConcurrencyClaim o key (fr_logical f) (ah_incarnation h) (now_lineage h) (fr_now f) d;
  d ← insert_command (fr_command f) (new_command o c x f h epoch k) d;
  _ ← throw_if (is_some (admissions d !! fr_command f)) duplicate;
  let d := set_admissions (<[fr_command f := new_admission (fr_command f) key (dh_epoch head)]> (admissions d)) d in
  let d := count_pending 1 key (fun _ => true) d in
  spec ← operationHandlerFor (operationName o);
  _ ← throw_if (is_some (queue d !! fr_command f)) duplicate;
  let d := set_queue (<[fr_command f := new_queue_item spec o c h k f]> (queue d)) d in
  '(sequence, d) ← append_outbox (fr_command f) "domain.command.accepted" (oc_targetId c) (event_payload f o c) d;
  let response := acceptedResult "ACCEPTED" (fr_command f) (fr_logical f) (cx_correlation x) sequence epoch false (fr_serverTime f)
                    (accepted_json (fr_command f)) in
  let d := set_idempotency (<[sk := set_response I_EXECUTING 202 response row]> (idempotency d)) d in
  d ← audit "domain.command.accepted" (event_payload f o c) d;
  Ok (response, d).
Definition admit_command (o : OperationContract) (c : OperationCommand) (key : string) (x : CommandContext) (f : fresh) d : result (json * cmd_db W) :=
  h ← lockAndVerifyPlatformRecovery (recovery d);
  _ ← throw_if (fence_stale x h) (DomainErr "FENCING_TOKEN_STALE" "Recovery action was not admitted with the current recovery fence");
  epoch ← or_throw (activation d) (DomainErr "CLOSURE_PREDICATE_INCOMPLETE" "Activation authority head is missing");
  _ ← throw_if (256 <? String.length key)%nat (PgError "23514");
  let sk := idempotency_key o c key x in
  match idempotency d !! sk with
  | Some row =>
      _ ← throw_if (negb (bytes_eqb (id_request_digest row) (request_digest c))) (DomainErr "IDEMPOTENCY_CONFLICT" "Idempotency key was used with a different request");
      Ok (match id_response row with
          | Some body => replayed body
          | None => acceptedResult "ACCEPTED" (id_command row) (id_logical row) (cx_correlation x) 0 epoch true (fr_serverTime f) (accepted_json (id_command row))
          end, d)
  | None =>
      _ ← throw_if (taken f d) duplicate;
      let row := {| id_key := key; id_request_digest := request_digest c; id_logical := fr_logical f; id_command := fr_command f;
                    id_lifecycle := I_RESERVED; id_status := None; id_response := None |} in
      admit_new o c x f h epoch sk row (set_idempotency (<[sk := row]> (idempotency d)) d)
  end.

Definition elapsed (deadline : option string) (now : Z) : bool :=
  match deadline with Some t => match datetime_ms t with Some ms => ms <=? now | None => false end | None => false end.
Definition read_only (o : OperationContract) : bool := String.eqb (sideEffectClass o) "READ_ONLY" || String.eqb (exposureClass o) "OWNER_QUERY".
Definition execute (cat : OperationCatalogService) (name : string) (input : json) (x : CommandContext) (f : fresh) d : result (json * cmd_db W) :=
  o ← catalog_get cat name;
  _ ← authorityForOperation (operationId o) (oc_authorities cat);
  l ← spread_input input name;
  c ← or_throw (operationCommandSchema (JObj l)) ZodError;
  _ ← validateCanonicalOperationCommand o (oc_targetId c) (oc_arguments c);
  _ ← throw_if (elapsed (oc_deadlineAt c) (fr_now f)) (DomainErr "RUNTIME_DEADLINE_EXCEEDED" "The absolute command deadline has elapsed");
  if read_only o then
    r ← runQuery o (oc_targetId c) (oc_arguments c) (rest d);
    epoch ← or_throw (activation d) (JsError "TypeError");
    Ok (acceptedResult "SUCCEEDED" (fr_command f) (fr_logical f) (cx_correlation x) 0 epoch false (fr_serverTime f) r, d)
  else
    key ← match idempotencyKey x with
          | Some k => if truthy k then Ok k else Throw (DomainErr "TOOL_ARGUMENT_SCHEMA_INVALID" "Idempotency-Key is required for mutating operations")
          | None => Throw (DomainErr "TOOL_ARGUMENT_SCHEMA_INVALID" "Idempotency-Key is required for mutating operations") end;
    admit_command o c key x f d.
End Execute.

(** ** Theory *)

Definition final (s : command_status) : bool := bool_decide (s = C_SUCCEEDED \/ s = C_FAILED_FINAL \/ s = C_CANCELLED_FINAL).
Section Theory.
Context {W : Type}.
Implicit Type d : cmd_db W.

Definition pending d (key : string) : Z := match domains d !! key with Some h => dh_pending h | None => 0 end.
Definition open_in (key : string) (p : string * admission_row) : Prop := ad_domain p.2 = key /\ ad_state p.2 <> TERMINAL.
#[export] Instance open_in_dec key p : Decision (open_in key p).
Proof. unfold open_in. apply _. Defined.
Definition open_count (m : gmap string admission_row) (key : string) : Z := Z.of_nat (size (filter (open_in key) m)).
Definition held_by (r : command_row) (c : claim_row) : Prop := kc_logical c = cr_logical r /\ kc_released c = false /\ kc_fence c = cr_fence r.

(** The counters of the domains are exact, an open admission belongs to a command that is not final, and the commands
    that are not final and the claims that are not released hold each other. *)
Record guards d : Prop := {
  g_pending : forall key, pending d key = open_count (admissions d) key;
  g_domain : forall id a, admissions d !! id = Some a -> is_Some (domains d !! ad_domain a);
  g_admitted : forall id a, admissions d !! id = Some a -> exists r, commands d !! id = Some r /\ (final (cr_status r) = true -> ad_state a = TERMINAL);
  g_logical : forall id1 id2 r1 r2, commands d !! id1 = Some r1 -> commands d !! id2 = Some r2 -> cr_logical r1 = cr_logical r2 -> id1 = id2;
  g_holds : forall id r, commands d !! id = Some r -> final (cr_status r) = false -> exists c, claims d !! cr_claim r = Some c /\ held_by r c;
  g_owner : forall k c, claims d !! k = Some c -> kc_released c = false ->
            exists id r, commands d !! id = Some r /\ final (cr_status r) = false /\ cr_claim r = k /\ held_by r c;
  g_queue : forall id q, queue d !! id = Some q -> exists r, commands d !! id = Some r /\ qi_claim q = cr_claim r /\ qi_fence q = cr_fence r;
  g_checkpoint : forall id p, checkpoints d !! id = Some p -> exists r, commands d !! id = Some r /\ cp_logical p = cr_logical r /\
                 cr_status r <> C_FAILED_FINAL;
}.

Lemma open_count_insert m key id a : m !! id = None ->
  open_count (<[id := a]> m) key = open_count m key + (if decide (open_in key (id, a)) then 1 else 0).
Proof.
  intros Hn. unfold open_count. destruct (decide _) as [Ho|Ho].
  - rewrite map_filter_insert_True, map_size_insert_None by (try apply map_lookup_filter_None; auto). lia.
  - rewrite map_filter_insert_False, delete_id by auto. lia.
Qed.
Lemma open_count_close m key id a a' : m !! id = Some a -> ad_domain a' = ad_domain a -> ad_state a' = TERMINAL ->
  open_count (<[id := a']> m) key = open_count m key - (if decide (open_in key (id, a)) then 1 else 0).
Proof.
  intros Ha _ Ht. unfold open_count.
  assert (Hd : filter (open_in key) (<[id := a']> m) = delete id (filter (open_in key) m)).
  { rewrite map_filter_insert_False by (intros [_ H]; by apply H). by rewrite map_filter_delete. }
  rewrite Hd. destruct (decide _) as [Ho|Ho].
  - assert (Hs : filter (open_in key) m !! id = Some a) by (by apply map_lookup_filter_Some).
    rewrite map_size_delete_Some by eauto. assert (size (filter (open_in key) m) <> 0%nat); [|lia].
    intros Hz. apply map_size_empty_inv in Hz. rewrite Hz in Hs. by rewrite lookup_empty in Hs.
  - rewrite delete_id; [lia|]. apply map_lookup_filter_None. right. intros a0 E. by simplify_eq.
Qed.
Lemma open_count_pos m id a : m !! id = Some a -> ad_state a <> TERMINAL -> 0 < open_count m (ad_domain a).
Proof.
  intros Ha Ht. unfold open_count.
  assert (Hs : filter (open_in (ad_domain a)) m !! id = Some a) by (by apply map_lookup_filter_Some).
  enough (size (filter (open_in (ad_domain a)) m) <> 0%nat) by lia.
  intros Hz. apply map_size_empty_inv in Hz. rewrite Hz in Hs. by rewrite lookup_empty in Hs.
Qed.
Lemma pending_count n key p h d : domains d !! key = Some h -> p h = true ->
  forall k, pending (count_pending n key p d) k = pending d k + (if decide (k = key) then n else 0).
Proof.
  intros Hh Hp k. unfold count_pending, pending. rewrite Hh, Hp. cbn.
  destruct (decide (k = key)) as [->|Hk]; [rewrite lookup_insert_eq, Hh; cbn; lia|].
  rewrite lookup_insert_ne by congruence. lia.
Qed.
(** Everything but the domains *)
Lemma count_pending_same n key p d :
  recovery (count_pending n key p d) = recovery d /\ activation (count_pending n key p d) = activation d /\
  idempotency (count_pending n key p d) = idempotency d /\ claims (count_pending n key p d) = claims d /\
  commands (count_pending n key p d) = commands d /\ admissions (count_pending n key p d) = admissions d /\
  queue (count_pending n key p d) = queue d /\ checkpoints (count_pending n key p d) = checkpoints d /\
  failed (count_pending n key p d) = failed d /\ logs (count_pending n key p d) = logs d /\ rest (count_pending n key p d) = rest d.
Proof. unfold count_pending. destruct (domains d !! key); [destruct (p _)|]; repeat split. Qed.
Lemma count_pending_domains n key p d k : is_Some (domains (count_pending n key p d) !! k) <-> is_Some (domains d !! k).
Proof.
  unfold count_pending. destruct (domains d !! key) eqn:E; [destruct (p _)|]; try done. cbn.
  rewrite lookup_insert_is_Some'. split; [intros [<-|]; eauto|auto].
Qed.
End Theory.

Section Admission.
Context `{L : Locale} `{H : Hash} `{F : Formats} {W : Type} `{D : CommandDomain W}.
Implicit Type d : cmd_db W.

Lemma audit_same type payload d d' : audit type payload d = Ok d' ->
  exists l, d' = set_logs l d.
Proof. unfold audit. intros Ha. inv_ok. subst. eauto. Qed.
Lemma append_outbox_same id event target payload d n d' : append_outbox id event target payload d = Ok (n, d') ->
  exists l, d' = set_logs l d.
Proof. unfold append_outbox. intros Ha. inv_ok. destruct a0. inv_ok. simplify_eq. eauto. Qed.
Lemma reserve_Ok o key logical owner ln now d k n d' : reserveConcurrencyClaim o key logical owner ln now d = Ok ((k, n), d') ->
  (forall c, claims d !! k = Some c -> kc_released c = true /\ kc_fence c < n) /\ n <= max_bigint /\ k = claim_scope o key /\
  exists c, d' = set_claims (<[k := c]> (claims d)) d /\ kc_logical c = logical /\ kc_released c = false /\ kc_fence c = n.
Proof.
  unfold reserveConcurrencyClaim. intros Hr. inv_ok. reflect_bools. simplify_eq.
  split_and!; [|lia|done|eexists; split_and!; reflexivity].
  intros c Hc. rewrite Hc in *. inv_ok. reflect_bools. split; [done|lia].
Qed.
Lemma insert_command_Ok id r d d' : insert_command id r d = Ok d' ->
  commands d !! id = None /\ (forall id' r', commands d !! id' = Some r' -> cr_logical r' <> cr_logical r) /\ d' = set_commands (<[id := r]> (commands d)) d.
Proof.
  unfold insert_command. intros Hi. inv_ok. reflect_bools. subst. split_and!; [by destruct (commands d !! id)| |done].
  intros id' r' Hr' Hl. enough (existsb (fun '(_, r') => String.eqb (cr_logical r') (cr_logical r)) (map_to_list (commands d)) = true) by congruence.
  apply existsb_exists. exists (id', r'). rewrite <- list_elem_of_In, elem_of_map_to_list. split; [done|by apply String.eqb_eq].
Qed.

(** What a first admission did *)
Record admitted (o : OperationContract) (c : OperationCommand) (x : CommandContext) (f : fresh) (h : RecoveryAuthorityHead) (epoch : Z)
    (sk : list Z * list Z) (r : json) d d' : Prop := {
  am_key := operationDomainKey o (oc_targetId c) (oc_arguments c);
  am_heads : recovery d' = recovery d /\ activation d' = activation d;
  am_same : checkpoints d' = checkpoints d /\ failed d' = failed d /\ rest d' = rest d;
  am_response : exists row, idempotency d' = <[sk := row]> (idempotency d) /\ id_request_digest row = request_digest c /\ id_response row = Some r /\
                id_command row = fr_command f /\ id_lifecycle row = I_EXECUTING;
  am_claim : exists n k, let r0 := new_command o c x f h epoch (claim_scope o am_key, n) in
             claims d' = <[claim_scope o am_key := k]> (claims d) /\ held_by r0 k /\
             (forall k0, claims d !! claim_scope o am_key = Some k0 -> kc_released k0 = true /\ kc_fence k0 < n) /\
             commands d !! fr_command f = None /\ commands d' = <[fr_command f := r0]> (commands d) /\
             (forall id r', commands d !! id = Some r' -> cr_logical r' <> fr_logical f) /\
             exists q, queue d' = <[fr_command f := q]> (queue d) /\ qi_claim q = cr_claim r0 /\ qi_fence q = cr_fence r0 /\
                       qi_status q = Q_READY /\ qi_attempts q = 0;
  am_admission : exists a, admissions d !! fr_command f = None /\ admissions d' = <[fr_command f := a]> (admissions d) /\ ad_domain a = am_key /\ ad_state a = ADMITTED;
  am_pending : is_Some (domains d' !! am_key) /\ forall k, pending d' k = pending d k + (if decide (k = am_key) then 1 else 0);
  am_domains : forall k, is_Some (domains d !! k) -> is_Some (domains d' !! k);
}.

Lemma admit_new_Ok o c x f h epoch sk row d r d' : id_request_digest row = request_digest c -> id_command row = fr_command f ->
  admit_new o c x f h epoch sk row d = Ok (r, d') -> admitted o c x f h epoch sk r d d'.
Proof.
  intros Hd Hc Ha. unfold admit_new in Ha. apply bind_Ok_inv in Ha as (? & _ & Ha).
  set (key := operationDomainKey _ _ _) in Ha.
  set (d0 := match domains d !! key with Some _ => d | None => _ end) in Ha.
  assert (Hp0 : forall k, pending d0 k = pending d k).
  { intros k. unfold d0. destruct (domains d !! key) eqn:E; [done|]. unfold pending. cbn.
    destruct (decide (k = key)) as [->|]; [by rewrite lookup_insert_eq, E|by rewrite lookup_insert_ne by congruence]. }
  assert (Hs0 : forall k, is_Some (domains d !! k) -> is_Some (domains d0 !! k)).
  { intros k Hk. unfold d0. destruct (domains d !! key); [done|]. cbn. rewrite lookup_insert_is_Some'. auto. }
  assert (E0 : recovery d0 = recovery d /\ activation d0 = activation d /\ idempotency d0 = idempotency d /\ claims d0 = claims d /\ commands d0 = commands d
    /\ admissions d0 = admissions d /\ queue d0 = queue d /\ checkpoints d0 = checkpoints d /\ failed d0 = failed d /\ rest d0 = rest d).
  { unfold d0. destruct (domains d !! key); repeat split. }
  clearbody d0. destruct E0 as (E1 & E2 & E3 & E4 & E5 & E6 & E7 & E8 & E9 & E10).
  inv_ok. destruct a2 as [[k n] d1]. apply reserve_Ok in Hok2 as (Hfree & _ & -> & kc & -> & Hk).
  inv_ok. apply insert_command_Ok in Hok2 as (Hnew & Hlog & ->). inv_ok.
  match goal with Hq : is_some (queue (count_pending 1 key ?p ?d2) !! _) = false |- _ =>
    set (d2' := d2) in *; destruct (count_pending_same 1 key p d2') as (S1 & S2 & S3 & S4 & S5 & S6 & S7 & S8 & S9 & S10 & S11);
    pose proof (fun h' Hh => pending_count 1 key p h' d2' Hh eq_refl) as Hcount; pose proof (count_pending_domains 1 key p d2') as Hdom;
    set (d3 := count_pending 1 key p d2') in * end.
  match goal with Hh : domains d0 !! key = Some ?a |- _ => specialize (Hcount a Hh) end.
  match goal with Ho : append_outbox _ _ _ _ _ = Ok ?p |- _ => destruct p as [s d4]; apply append_outbox_same in Ho as [l ->] end.
  inv_ok. match goal with Ho : audit _ _ _ = Ok _ |- _ => apply audit_same in Ho as [l' ->] end.
  match goal with Hd' : set_logs _ _ = d' |- _ => rewrite Ha in Hd'; subst d' end.
  assert (Hno : forall A (m : gmap string A) k, is_some (m !! k) = false -> m !! k = None) by (intros A m k; by destruct (m !! k)).
  split; cbn; rewrite ?S1, ?S2, ?S3, ?S4, ?S5, ?S6, ?S7, ?S8, ?S9, ?S11; cbn; rewrite ?E1, ?E2, ?E3, ?E4, ?E5, ?E6, ?E7, ?E8, ?E9, ?E10; try done.
  - eexists. split_and!; [reflexivity|done..].
  - exists n, kc. rewrite <- E4, <- E5. split_and!; try done.
    eexists. split_and!; reflexivity.
  - eexists. split_and!; [|reflexivity..]. rewrite <- E6. by apply Hno.
  - split; [apply Hdom; cbn; eauto|]. intros k. transitivity (pending d3 k); [done|].
    rewrite Hcount, <- Hp0. done.
  - intros k Hk'. apply Hdom. cbn. auto.
Qed.

Lemma guards_idempotency t d : guards d -> guards (set_idempotency t d).
Proof. intros []. by split. Qed.
Lemma guards_logs t d : guards d -> guards (set_logs t d).
Proof. intros []. by split. Qed.

Lemma guards_admitted o c x f h epoch sk r d d' : guards d -> admitted o c x f h epoch sk r d d' -> guards d'.
Proof.
  intros G A. destruct (am_claim _ _ _ _ _ _ _ _ _ _ A) as (n & k & Hcl & Hk & Hfree & Hnew & Hcm & Hlog & q & Hq & Hqc & Hqf & _ & _).
  destruct (am_admission _ _ _ _ _ _ _ _ _ _ A) as (a & Ha & Had & Hdom & Hst). destruct (am_pending _ _ _ _ _ _ _ _ _ _ A) as (Hkey & Hp).
  destruct (am_same _ _ _ _ _ _ _ _ _ _ A) as (Hchk & _). pose proof (am_domains _ _ _ _ _ _ _ _ _ _ A) as Hmono.
  set (key := operationDomainKey o (oc_targetId c) (oc_arguments c)) in *. set (r0 := new_command _ _ _ _ _ _ _) in *.
  assert (Hnf : final (cr_status r0) = false) by done.
  assert (Hfr : forall id r', commands d !! id = Some r' -> final (cr_status r') = false -> cr_claim r' <> claim_scope o key).
  { intros id r' Hr' Hf He. destruct (g_holds _ G _ _ Hr' Hf) as (k0 & Hk0 & _ & Hrel & _). rewrite He in Hk0. apply Hfree in Hk0 as [? _]. congruence. }
  assert (Hne : forall id r', commands d !! id = Some r' -> commands d' !! id = Some r').
  { intros id r' Hr'. rewrite Hcm, lookup_insert_ne by congruence. done. }
  split.
  - intros k'. rewrite Hp, Had, open_count_insert, (g_pending _ G) by done. f_equal.
    assert (Ho : open_in k' (fr_command f, a) <-> k' = key) by (unfold open_in; cbn; rewrite Hdom, Hst; naive_solver).
    destruct (decide (k' = _)) as [Hd1|Hd1], (decide (open_in _ _)) as [Hd2|Hd2]; try done; by apply Ho in Hd2 || by apply Ho in Hd1.
  - intros id b. rewrite Had, lookup_insert_Some. intros [[_ <-]|[_ Hb]]; [by rewrite Hdom|]. apply Hmono. by eapply g_domain.
  - intros id b. rewrite Had, lookup_insert_Some. intros [[<- <-]|[_ Hb]].
    + exists r0. rewrite Hcm, lookup_insert_eq. done.
    + destruct (g_admitted _ G _ _ Hb) as (r' & Hr' & ?). eauto.
  - intros id1 id2 r1 r2. rewrite Hcm, !lookup_insert_Some. intros [[<- <-]|[? H1]] [[<- <-]|[? H2]] Hl; [done| | |by eapply g_logical].
    + by apply Hlog in H2.
    + by apply Hlog in H1.
  - intros id r'. rewrite Hcm, lookup_insert_Some, Hcl. intros [[<- <-]|[? Hr']] Hf.
    + exists k. split; [apply lookup_insert_eq|done].
    + rewrite lookup_insert_ne by (intros E; by eapply Hfr). by eapply g_holds.
  - intros k' c'. rewrite Hcl, lookup_insert_Some. intros [[<- <-]|[Hn Hc']] Hrel.
    + exists (fr_command f), r0. rewrite Hcm, lookup_insert_eq. done.
    + destruct (g_owner _ G _ _ Hc' Hrel) as (id & r' & Hr' & ?). eauto 8.
  - intros id q'. rewrite Hq, lookup_insert_Some. intros [[<- <-]|[_ Hq']].
    + exists r0. rewrite Hcm, lookup_insert_eq. done.
    + destruct (g_queue _ G _ _ Hq') as (r' & Hr' & ?). eauto.
  - intros id p. rewrite Hchk. intros Hc'. destruct (g_checkpoint _ G _ _ Hc') as (r' & Hr' & ?). eauto.
Qed.

(** A request either finds its key or is admitted. *)
Lemma admit_command_Ok o c key x f d r d' : admit_command o c key x f d = Ok (r, d') ->
  exists h epoch, lockAndVerifyPlatformRecovery (recovery d) = Ok h /\ activation d = Some epoch /\ fence_stale x h = false /\ (256 <? String.length key)%nat = false /\
  match idempotency d !! idempotency_key o c key x with
  | Some row => d' = d /\ id_request_digest row = request_digest c /\ (forall body, id_response row = Some body -> r = replayed body)
  | None => exists row, admitted o c x f h epoch (idempotency_key o c key x) r (set_idempotency (<[idempotency_key o c key x := row]> (idempotency d)) d) d'
  end.
Proof.
  intros Ha. unfold admit_command in Ha. inv_ok. exists a, a1. split_and!; try done.
  destruct (idempotency d !! _) as [row|] eqn:E; inv_ok.
  - apply negb_false_iff, bool_decide_eq_true in Hok3. split_and!; [done..|]. intros body Hb. by rewrite Hb in *.
  - match type of Ha with admit_new _ _ _ _ _ _ _ ?row _ = _ => exists row end. by apply admit_new_Ok in Ha.
Qed.
Lemma guards_admit o c key x f d r d' : guards d -> admit_command o c key x f d = Ok (r, d') -> guards d'.
Proof.
  intros G Ha. apply admit_command_Ok in Ha as (h & epoch & _ & _ & _ & _ & Ha). destruct (idempotency d !! _).
  - by destruct Ha as [-> _].
  - destruct Ha as [row Ha]. eapply guards_admitted; [by apply guards_idempotency|exact Ha].
Qed.
End Admission.

(** ** Properties *)

Section Properties.
Context `{L : Locale} `{H : Hash} `{F : Formats} {W : Type} `{D : CommandDomain W}.
Implicit Type d : cmd_db W.

(** C6. Idempotent admission: a request whose key is new is admitted as exactly one new command, with one new queue item
    that is ready, under a claim of its aggregate that nobody else held and with a larger fencing token than any before.
    From then on every request of the same caller, operation and target with that key changes nothing: it gets the
    recorded response, marked as a replay, when it is the same request, and is refused when it is another. *)
Theorem idempotent_admission o c key x f d r d' c2 x2 f2 :
  admit_command o c key x f d = Ok (r, d') -> idempotency d !! idempotency_key o c key x = None ->
  callerFingerprint x2 = callerFingerprint x -> recoveryFence x2 = recoveryFence x -> oc_targetId c2 = oc_targetId c ->
  (exists row q claim, commands d !! fr_command f = None /\ commands d' = <[fr_command f := row]> (commands d) /\
     queue d' = <[fr_command f := q]> (queue d) /\ qi_status q = Q_READY /\ cr_status row = C_ACCEPTED /\ cr_digest row = request_digest c /\
     claims d' !! cr_claim row = Some claim /\ held_by row claim /\
     forall old, claims d !! cr_claim row = Some old -> kc_released old = true /\ kc_fence old < cr_fence row) /\
  admit_command o c2 key x2 f2 d' =
    if bool_decide (request_digest c2 = request_digest c) then Ok (replayed r, d')
    else Throw (DomainErr "IDEMPOTENCY_CONFLICT" "Idempotency key was used with a different request").
Proof.
  intros Ha Hn Hc Hf Ht. pose proof (admit_command_Ok _ _ _ _ _ _ _ _ Ha) as (h & epoch & Hh & He & Hs & Hl & Hr). rewrite Hn in Hr.
  destruct Hr as [row0 A]. destruct (am_claim _ _ _ _ _ _ _ _ _ _ A) as (n & k & Hcl & Hk & Hfree & Hnew & Hcm & _ & q & Hq & _ & _ & Hrd & _).
  destruct (am_response _ _ _ _ _ _ _ _ _ _ A) as (row & Hi & Hd & Hb & _ & _). destruct (am_heads _ _ _ _ _ _ _ _ _ _ A) as [Hrec Hact]. cbn in Hi, Hrec, Hact.
  split.
  - eexists _, _, k. split_and!; [exact Hnew|exact Hcm|exact Hq|done..| |exact Hk|exact Hfree]. rewrite Hcl. apply lookup_insert_eq.
  - unfold admit_command. rewrite Hrec, Hact, Hh, He, Hl. cbn.
    replace (fence_stale x2 h) with false by (unfold fence_stale in *; by rewrite Hf). cbn.
    replace (idempotency_key o c2 key x2) with (idempotency_key o c key x) by (unfold idempotency_key, scope_digest; by rewrite Hc, Ht).
    rewrite Hi, lookup_insert_eq, Hd, Hb. unfold bytes_eqb, throw_if. rewrite (bool_decide_ext (request_digest c = _) (request_digest c2 = request_digest c)) by done.
    by case_bool_decide.
Qed.

(** While a command that is not final holds an aggregate, a new request for it is refused. *)
Lemma held_aggregate_refused o c key x f d id r : guards d -> commands d !! id = Some r -> final (cr_status r) = false ->
  cr_claim r = claim_scope o (operationDomainKey o (oc_targetId c) (oc_arguments c)) -> idempotency d !! idempotency_key o c key x = None ->
  is_Ok (admit_command o c key x f d) = false.
Proof.
  intros G Hr Hf He Hn. destruct (admit_command o c key x f d) as [[r' d']|e] eqn:Ha; [|done]. exfalso.
  apply admit_command_Ok in Ha as (h & epoch & _ & _ & _ & _ & Ha). rewrite Hn in Ha. destruct Ha as [row A].
  destruct (am_claim _ _ _ _ _ _ _ _ _ _ A) as (n & k & _ & _ & Hfree & _). cbn in Hfree.
  destruct (g_holds _ G _ _ Hr Hf) as (k0 & Hk0 & _ & Hrel & _). rewrite He in Hk0. apply Hfree in Hk0 as [? _]. congruence.
Qed.
End Properties.

(** ** Samples *)

(** The rest of the database is a counter, the version of every entity. *)
Definition sample_domain : CommandDomain Z :=
  {| byOperation := {[ "component.create" := {| hs_entity := "component"; hs_strategy := CAS_STATE_TRANSITION; hs_queue := "kcml-domain" |} ]};
     validateCanonicalOperationCommand := fun _ _ _ => Ok tt; runQuery := fun _ _ _ _ => Ok JNull;
     entityRow := fun w _ _ => Ok (Some (Some w)); deregisteredComponent := fun _ _ => false |}.
Definition sample_recovery : recovery_row :=
  {| database_start_identity := [1]; current_database_start_identity := [1]; rec_incarnation := "incarnation"; current_incarnation := "incarnation";
     application_deployment_epoch := 2; current_epoch := 2; recovery_epoch := 3; recovery_fencing_token := 1; rec_state := "READY" |}.
Definition sample_db : cmd_db Z :=
  {| recovery := Some sample_recovery; activation := Some 4; idempotency := ∅; domains := ∅; claims := ∅; commands := ∅; admissions := ∅; queue := ∅;
     checkpoints := ∅; failed := {| failures := ∅; plans := ∅; reviews := []; reconciliations := ∅; snapshots := ∅ |};
     logs := {| outbox := []; allocators := ∅; audit_log := AuditChain.initial_db |}; rest := 7 |}.
Definition sample_command (target : option string) (n : Z) : OperationCommand :=
  {| oc_operation := "component.create"; oc_targetId := target; oc_arguments := [("n", JNum n)]; oc_expectedStateVersion := None;
     oc_expectedActivationEpoch := None; oc_deadlineAt := None |}.
Definition sample_context (correlation : string) : CommandContext :=
  {| callerFingerprint := "owner"; actorId := "owner"; cx_correlation := correlation; cx_causation := None; idempotencyKey := Some "key"; recoveryFence := None |}.
Definition sample_fresh (n : Z) : fresh :=
  {| fr_logical := "l" +:+ dec n; fr_command := "00000000-0000-4000-8000-00000000000" +:+ dec n; fr_queue := "q" +:+ dec n; fr_now := 1000 * n;
     fr_serverTime := "2026-01-01T00:00:00.000Z" |}.
Definition sample_admit (key : string) (n : Z) (x : string) (target : option string) (d : cmd_db Z) : result (json * cmd_db Z) :=
  @admit_command code_unit_locale toy_hash Z sample_domain sample_operation (sample_command target n) key (sample_context x) (sample_fresh n) d.
Definition sample_target : option string := Some "11111111-1111-4111-8111-111111111111".
Definition admitted_db : cmd_db Z := (get_Ok (JNull, sample_db) (sample_admit "key" 1 "a" sample_target sample_db)).2.
Definition admitted_response : json := (get_Ok (JNull, sample_db) (sample_admit "key" 1 "a" sample_target sample_db)).1.
Example sample_admitted : is_Ok (sample_admit "key" 1 "a" sample_target sample_db) = true.
Proof. vm_compute. reflexivity. Qed.
Example sample_admitted_eq : sample_admit "key" 1 "a" sample_target sample_db = Ok (admitted_response, admitted_db).
Proof. rewrite (get_Ok_spec (JNull, sample_db) _ sample_admitted) at 1. unfold admitted_response, admitted_db. by destruct (get_Ok _ _). Qed.
(** Another request for the aggregate is refused while the first is pending. *)
Example sample_held : sample_admit "other" 2 "a" sample_target admitted_db =
  Throw (DomainErr "CONCURRENCY_KEY_HELD" "A nonterminal concurrency claim cannot be stolen by a new logical operation").
Proof. vm_compute. reflexivity. Qed.
Lemma idempotent_admission_witness :
  @admit_command code_unit_locale toy_hash Z sample_domain sample_operation (sample_command sample_target 2) "key" (sample_context "b") (sample_fresh 2) admitted_db =
    if bool_decide (@request_digest code_unit_locale toy_hash (sample_command sample_target 2) = @request_digest code_unit_locale toy_hash (sample_command sample_target 1))
    then Ok (replayed admitted_response, admitted_db)
    else Throw (DomainErr "IDEMPOTENCY_CONFLICT" "Idempotency key was used with a different request").
Proof.
  apply (@idempotent_admission code_unit_locale toy_hash Z sample_domain sample_operation (sample_command sample_target 1) "key" (sample_context "a")
           (sample_fresh 1) sample_db admitted_response admitted_db (sample_command sample_target 2) (sample_context "b") (sample_fresh 2)).
  - exact sample_admitted_eq.
  - reflexivity.
  - reflexivity.
  - reflexivity.
  - reflexivity.
Defined.
