(* ===== verification/CommandWorker.v ===== *)
(** * The command worker

    [packages/domain/src/operations.ts], [CanonicalCommandWorker]: claiming the next queue item under a new fencing
    token, applying the command under its fence with an immutable checkpoint, specialist effects outside of the
    database, terminalization and the failure plan; the parts of [CanonicalRetryScheduler] and of
    [packages/domain/src/platform-recovery.ts] that change the same tables.  Each transaction is one atomic step that
    reads one clock; [step] interleaves the steps of any number of workers that may crash between them or lose the
    acknowledgement of a commit. *)
From Stdlib Require Import Ascii String.
From S2P Require Import Prelude Bytes Json Text Digest CanonicalValue IpcFrame IpcChannel IpcBroker AuditChain Database ErrorRegistry Contracts Schemas Commands.

(** ** The worker's view of a command *)

Record WorkerOptions := { queueNames : list string; allowedOperations : option (list string); workerId : string; leaseSeconds : option Z }.
(** The row [runOnce] carries from its claim *)
Record claimed := {
  ck_command : string; ck_queue : string; ck_owner : string; ck_lease : Z; ck_fence : Z; ck_logical : string; ck_claim : claim_key;
  ck_lineage : lineage; ck_epoch : Z; ck_operation : string; ck_target : option string; ck_correlation : string; ck_request : json;
}.
Inductive SpecialistReconcileResult := APPLIED (output : json) | FAILED (error : thrown).
(** The mutation handlers run inside the transaction of the command; [terminalReplay] reads the recovery items. *)
Class CommandHandlers (W : Type) := {
  runMutation : OperationContract -> list (string * json) -> claimed -> RecoveryAuthorityHead -> cmd_db W -> result (json * cmd_db W);
  terminalReplay : W -> Z -> string -> bool;
  canHandle : string -> bool;
  prepared : Type;
  prepare : OperationContract -> list (string * json) -> claimed -> RecoveryAuthorityHead -> cmd_db W -> result (prepared * cmd_db W);
  reconcile : prepared -> json + thrown -> claimed -> RecoveryAuthorityHead -> cmd_db W -> result (SpecialistReconcileResult * cmd_db W);
}.

Definition stale_fence (message : string) : exn := DomainErr "FENCING_TOKEN_STALE" message.
Definition max_int : Z := 2 ^ 31 - 1.
(** [catch (error)] of what the model throws; the details of an error are not part of it. *)
Definition thrown_of (e : exn) : thrown :=
  match e with
  | DomainErr c m => ThrownDomain c m JNull
  | PgError c => ThrownObject (Some c)
  | _ => ThrownObject None
  end.

Section Worker.
Context `{L : Locale} `{H : Hash} `{F : Formats} {W : Type} `{D : CommandDomain W} `{M : CommandHandlers W}.
Context (cat : OperationCatalogService) (opts : WorkerOptions) (reg : gmap string StableErrorRecord).
Implicit Type d : cmd_db W.

Definition lockWorkerAggregate (operation : string) (target : option string) d : result unit :=
  match target with
  | None => Ok tt
  | Some t => entity ← workerAggregateEntity operation;
              row ← entityRow (rest d) entity t;
              throw_if (negb (is_some row)) (DomainErr "KCIP_TARGET_NOT_FOUND" (entity +:+ " target does not exist"))
  end.

(** *** Claiming *)

Definition admission_claimable (id : string) (a : admission_row) d : bool :=
  bool_decide (ad_state a = ADMITTED) || bool_decide (ad_state a = TERMINAL) && is_some (checkpoints d !! id).
Definition queue_claimable (q : queue_row) (now : Z) : bool :=
  bool_decide (qi_status q = Q_READY)
  || bool_decide (qi_status q = Q_CLAIMED) && match qi_lease_expires q with Some t => t <=? now | None => false end.
Definition claim_current (k : claim_row) (c : command_row) (h : RecoveryAuthorityHead) : bool :=
  negb (kc_released k) && String.eqb (kc_logical k) (cr_logical c) && (kc_fence k =? cr_fence c) && bool_decide (kc_lineage k = now_lineage h).
(** The WHERE clause of the candidate query *)
Definition candidate (h : RecoveryAuthorityHead) (now : Z) d (id : string) (q : queue_row) : bool :=
  match commands d !! id, admissions d !! id with
  | Some c, Some a =>
      match claims d !! cr_claim c with
      | Some k =>
          includes (qi_queue q) (queueNames opts) && match allowedOperations opts with Some l => includes (cr_operation c) l | None => true end
          && (qi_available q <=? now) && queue_claimable q now
          && bool_decide (qi_lineage q = now_lineage h) && bool_decide (cr_lineage c = now_lineage h)
          && claim_current k c h && (qi_fence q =? cr_fence c) && admission_claimable id a d
      | None => false
      end
  | _, _ => false
  end.
Definition earlier (a b : string * queue_row) : bool :=
  (qi_available a.2 <? qi_available b.2) || (qi_available a.2 =? qi_available b.2) && String.leb (qi_id a.2) (qi_id b.2).
(** [ORDER BY priority, available_at, id FOR UPDATE SKIP LOCKED LIMIT 1]; [locked] are the rows that other transactions
    hold, and every item has the default priority. *)
Definition next_candidate (locked : string -> bool) (h : RecoveryAuthorityHead) (now : Z) d : option (string * queue_row) :=
  head (stable_sort earlier (List.filter (fun '(id, q) => candidate h now d id q && negb (locked id)) (map_to_list (queue d)))).
Definition advance_claim (owner : string) (fence now : Z) (k : claim_row) : claim_row :=
  {| kc_scope_key := kc_scope_key k; kc_logical := kc_logical k; kc_owner := owner; kc_fence := fence; kc_expires := now + CLAIM_LEASE;
     kc_released := kc_released k; kc_lineage := kc_lineage k |}.
Definition claim_item (lease fence now : Z) (q : queue_row) : queue_row :=
  {| qi_id := qi_id q; qi_queue := qi_queue q; qi_partition := qi_partition q; qi_status := Q_CLAIMED; qi_available := qi_available q;
     qi_attempts := qi_attempts q + 1; qi_max := qi_max q; qi_owner := Some (workerId opts); qi_lease := lease;
     qi_lease_expires := Some (now + 1000 * default 60 (leaseSeconds opts)); qi_lineage := qi_lineage q; qi_claim := qi_claim q; qi_fence := fence |}.
Definition set_command (s : command_status) (result error : option json) (ln : lineage) (fence : Z) (c : command_row) : command_row :=
  {| cr_logical := cr_logical c; cr_operation := cr_operation c; cr_revision := cr_revision c; cr_target := cr_target c; cr_caller := cr_caller c;
     cr_request := cr_request c; cr_digest := cr_digest c; cr_expected_version := cr_expected_version c; cr_expected_epoch := cr_expected_epoch c;
     cr_status := s; cr_result := result; cr_error := error; cr_correlation := cr_correlation c; cr_causation := cr_causation c;
     cr_deadline := cr_deadline c; cr_epoch := cr_epoch c; cr_lineage := ln; cr_claim := cr_claim c; cr_fence := fence |}.
Definition claimed_row (id : string) (q : queue_row) (c : command_row) (lease fence : Z) : claimed :=
  {| ck_command := id; ck_queue := qi_queue q; ck_owner := workerId opts; ck_lease := lease; ck_fence := fence; ck_logical := cr_logical c;
     ck_claim := qi_claim q; ck_lineage := qi_lineage q; ck_epoch := cr_epoch c; ck_operation := cr_operation c; ck_target := cr_target c;
     ck_correlation := cr_correlation c; ck_request := cr_request c |}.
(** The first transaction of [runOnce] *)
Definition claim_next (locked : string -> bool) (now : Z) d : result (option claimed * cmd_db W) :=
  h ← lockAndVerifyPlatformRecovery (recovery d);
  match next_candidate locked h now d with
  | None => Ok (None, d)
  | Some (id, q) =>
      match commands d !! id, admissions d !! id with
      | Some c, Some a =>
          _ ← lockWorkerAggregate (cr_operation c) (cr_target c) d;
          match claims d !! cr_claim c with
          | Some k =>
              if claim_current k c h && admission_claimable id a d && queue_claimable q now && (qi_fence q =? kc_fence k) then
                let fence := kc_fence k + 1 in
                let lease := qi_lease q + 1 in
                _ ← throw_if ((max_bigint <? fence) || (max_bigint <? lease) || (max_int <? qi_attempts q + 1)) (PgError "22003");
                let d := set_claims (<[cr_claim c := advance_claim (workerId opts) fence now k]> (claims d)) d in
                let d := set_queue (<[id := claim_item lease fence now q]> (queue d)) d in
                _ ← throw_if (negb ((ln_recovery (qi_lineage q) =? ah_recovery_epoch h) && (ln_recovery (cr_lineage c) =? ah_recovery_epoch h)
                                    && (bool_decide (cr_status c = C_ACCEPTED) || bool_decide (cr_status c = C_RUNNING))))
                      (stale_fence "Worker claim could not atomically advance queue and command fences");
                let d := set_commands (<[id := set_command C_RUNNING (cr_result c) (cr_error c) (cr_lineage c) fence c]> (commands d)) d in
                Ok (Some (claimed_row id q c lease fence), d)
              else Ok (None, d)
          | None => Ok (None, d)
          end
      | _, _ => Ok (None, d)
      end
  end.

(** *** The fence of a claimed command *)

Definition verifyWorkerClaimAndAdmission (row : claimed) (allowed : list admission_state) (heartbeat : bool) (now : Z) d : result (cmd_db W) :=
  a ← or_throw (admissions d !! ck_command row) (DomainErr "TOOL_ARGUMENT_SCHEMA_INVALID" "Command has no activation-domain admission");
  head ← or_throw (domains d !! ad_domain a) (DomainErr "TOOL_ARGUMENT_SCHEMA_INVALID" "Command activation-domain head is missing");
  _ ← lockWorkerAggregate (ck_operation row) (ck_target row) d;
  let stale := stale_fence "Worker no longer owns the current aggregate concurrency fence and lineage" in
  k ← or_throw (claims d !! ck_claim row) stale;
  _ ← throw_if (kc_released k || negb (bool_decide (kc_lineage k = ck_lineage row)) || negb (String.eqb (kc_logical k) (ck_logical row))
                || negb (kc_fence k =? ck_fence row)) stale;
  _ ← throw_if (negb (bool_decide (ad_state a ∈ allowed)) || negb (ad_pinned a =? dh_epoch head) || negb (ad_pinned a =? ck_epoch row))
        (DomainErr "STATE_VERSION_CONFLICT" "Command activation-domain admission or pinned activation epoch is not current");
  Ok (if heartbeat then set_claims (<[ck_claim row := advance_claim (kc_owner k) (kc_fence k) now k]> (claims d)) d else d).
Definition checkpointRecoveryAuthorized (row : claimed) (p : checkpoint_row) d : bool :=
  String.eqb (cp_logical p) (ck_logical row) && bool_decide (cp_claim p = ck_claim row) && (cp_fence p <=? ck_fence row)
  && ((ln_recovery (cp_lineage p) =? ln_recovery (ck_lineage row)) || terminalReplay (rest d) (ln_recovery (ck_lineage row)) (ck_command row)).
(** How every transaction of a claimed command starts *)
Definition recovery_current (row : claimed) (message : string) d : result RecoveryAuthorityHead :=
  h ← lockAndVerifyPlatformRecovery (recovery d);
  _ ← throw_if (negb (ln_recovery (ck_lineage row) =? ah_recovery_epoch h)) (DomainErr "PLATFORM_INCARNATION_STALE" message);
  Ok h.
Definition replay_checkpoint (row : claimed) (now : Z) (message : string) d : result (option json * cmd_db W) :=
  let checkpoint := checkpoints d !! ck_command row in
  d ← verifyWorkerClaimAndAdmission row (if is_some checkpoint then [ADMITTED; TERMINAL] else [ADMITTED]) true now d;
  match checkpoint with
  | Some p => _ ← throw_if (negb (checkpointRecoveryAuthorized row p d)) (DomainErr "CHECKPOINT_DIGEST_INVALID" message); Ok (Some (cp_output p), d)
  | None => Ok (None, d)
  end.
Definition command_deadline (row : claimed) d : option string := match commands d !! ck_command row with Some c => cr_deadline c | None => None end.
Definition insert_checkpoint (row : claimed) (h : RecoveryAuthorityHead) (output : json) d : result (cmd_db W) :=
  _ ← throw_if (is_some (checkpoints d !! ck_command row) || existsb (fun '(_, p) => String.eqb (cp_logical p) (ck_logical row)) (map_to_list (checkpoints d))) duplicate;
  Ok (set_checkpoints (<[ck_command row := {| cp_logical := ck_logical row; cp_output := output; cp_claim := ck_claim row; cp_fence := ck_fence row;
        cp_lineage := {| ln_incarnation := ah_incarnation h; ln_deployment := ah_current_epoch h; ln_recovery := ln_recovery (ck_lineage row) |} |}]> (checkpoints d)) d).
(** The output, and whether the handler ran *)
Definition applyInCommandTransaction (row : claimed) (now : Z) (apply : cmd_db W -> RecoveryAuthorityHead -> result (json * cmd_db W)) d
    : result ((json * bool) * cmd_db W) :=
  h ← recovery_current row "Worker command recovery epoch is stale" d;
  '(replay, d) ← replay_checkpoint row now "Persisted command checkpoint does not match current logical operation lineage or an exact terminal-replay recovery classification" d;
  match replay with
  | Some output => Ok ((output, false), d)
  | None =>
      _ ← throw_if (elapsed (command_deadline row d) now) (DomainErr "KCIP_DEADLINE_EXCEEDED" "Command deadline elapsed before execution began");
      '(output, d) ← apply d h;
      let safeOutput := jsonSafe output in
      d ← insert_checkpoint row h safeOutput d;
      Ok ((safeOutput, true), d)
  end.
Definition request_arguments (row : claimed) : list (string * json) :=
  match ck_request row with JObj l => match get_prop "arguments" l with Some (JObj a) => a | _ => [] end | _ => [] end.
(** The guards of [applyCommand] *)
Definition worker_operation (row : claimed) : result OperationContract :=
  o ← catalog_get cat (ck_operation row);
  _ ← authorityForOperation (operationId o) (oc_authorities cat);
  handler ← operationHandlerFor (operationName o);
  _ ← throw_if (negb (String.eqb (ck_queue row) (hs_queue handler)))
        (DomainErr "OPERATION_CONTRACT_INCOMPLETE" (operationName o +:+ " was delivered on " +:+ ck_queue row +:+ ", expected " +:+ hs_queue handler));
  _ ← throw_if (bool_decide (hs_strategy handler = CONSISTENT_QUERY))
        (DomainErr "OPERATION_CONTRACT_INCOMPLETE" (operationName o +:+ " must execute on the consistent-read path"));
  Ok o.
Definition apply_mutation (row : claimed) (now : Z) d : result ((json * bool) * cmd_db W) :=
  o ← worker_operation row;
  applyInCommandTransaction row now (fun d h => runMutation o (request_arguments row) row h d) d.
(** The two transactions of [applySpecialistCommand] *)
Definition prepare_specialist (row : claimed) (now : Z) d : result ((json + prepared) * cmd_db W) :=
  o ← worker_operation row;
  h ← recovery_current row "Worker command recovery epoch is stale before specialist preparation" d;
  '(replay, d) ← replay_checkpoint row now "Persisted specialist command checkpoint does not match current logical operation lineage" d;
  match replay with
  | Some output => Ok (inl output, d)
  | None =>
      _ ← throw_if (elapsed (command_deadline row d) now) (DomainErr "KCIP_DEADLINE_EXCEEDED" "Command deadline elapsed before specialist execution began");
      '(p, d) ← prepare o (request_arguments row) row h d; Ok (inr p, d)
  end.
Definition reconcile_specialist (row : claimed) (p : prepared) (execution : json + thrown) (now : Z) d
    : result ((SpecialistReconcileResult * bool) * cmd_db W) :=
  h ← recovery_current row "Worker command recovery epoch changed while specialist effect was in flight" d;
  '(replay, d) ← replay_checkpoint row now "Persisted specialist command checkpoint does not match current logical operation lineage" d;
  match replay with
  | Some output => Ok ((APPLIED output, false), d)
  | None =>
      '(r, d) ← reconcile p execution row h d;
      match r with
      | FAILED e => Ok ((FAILED e, false), d)
      | APPLIED output => let safeOutput := jsonSafe output in
                          d ← insert_checkpoint row h safeOutput d; Ok ((APPLIED safeOutput, true), d)
      end
  end.

(** *** Terminalization *)

Definition nullish (j : option json) : bool := match j with None | Some JNull => true | _ => false end.
(** [BigInt(String(value))] *)
Definition bigint_text (j : json) : result Z := or_throw (StringToBigInt (to_text j)) (JsError "SyntaxError").
Definition output_number (output : json) (keys : list string) : result Z :=
  match output with
  | JObj l => match List.find (fun v => negb (nullish v)) (map (fun k => get_prop k l) keys) with Some (Some j) => bigint_text j | _ => Ok 0 end
  | _ => Ok 0
  end.
Definition release_item (s : queue_status) (available : Z) (q : queue_row) : queue_row :=
  {| qi_id := qi_id q; qi_queue := qi_queue q; qi_partition := qi_partition q; qi_status := s; qi_available := available; qi_attempts := qi_attempts q;
     qi_max := qi_max q; qi_owner := None; qi_lease := qi_lease q; qi_lease_expires := None; qi_lineage := qi_lineage q; qi_claim := qi_claim q;
     qi_fence := qi_fence q |}.
(** [UPDATE kcml.domain_command SET status, result, error WHERE id]: no row is no error. *)
Definition update_command (id : string) (g : command_row -> command_row) d : cmd_db W :=
  match commands d !! id with Some c => set_commands (<[id := g c]> (commands d)) d | None => d end.
Definition with_status (s : command_status) (error : option json) (c : command_row) : command_row :=
  set_command s (cr_result c) error (cr_lineage c) (cr_fence c) c.
Definition update_queue (id : string) (g : queue_row -> queue_row) d : cmd_db W :=
  match queue d !! id with Some q => set_queue (<[id := g q]> (queue d)) d | None => d end.
Definition record_response (id : string) (l : idempotency_lifecycle) (status : Z) (body : json) d : cmd_db W :=
  set_idempotency ((fun r => if String.eqb (id_command r) id then set_response l status body r else r) <$> idempotency d) d.
Definition complete (row : claimed) (output : json) (time : string) (now : Z) d : result (cmd_db W) :=
  _ ← recovery_current row "Worker terminal write recovery epoch is stale" d;
  let stale := DomainErr "CHECKPOINT_STALE" "Successful terminalization requires the exact immutable execution checkpoint from the same recovery epoch or an authorized terminal-replay classification" in
  p ← or_throw (checkpoints d !! ck_command row) stale;
  _ ← throw_if (negb (checkpointRecoveryAuthorized row p d)) stale;
  d ← verifyWorkerClaimAndAdmission row [ADMITTED; TERMINAL] false now d;
  q ← or_throw (queue d !! ck_command row) (JsError "TypeError");
  _ ← throw_if (negb (bool_decide (qi_status q = Q_CLAIMED)) || negb (bool_decide (qi_owner q = Some (workerId opts))) || negb (qi_lease q =? ck_lease row))
        (stale_fence "Queue claim fence is no longer current");
  let safeOutput := jsonSafe (cp_output p) in
  let digest := Digest.canonicalDigest safeOutput in
  _ ← throw_if (negb (String.eqb digest (Digest.canonicalDigest (jsonSafe output))))
        (DomainErr "CHECKPOINT_DIGEST_INVALID" "Worker output differs from immutable execution checkpoint");
  version ← output_number (cp_output p) ["state_version"];
  sequence ← output_number (cp_output p) ["aggregate_event_sequence"];
  epoch ← output_number (cp_output p) ["current_activation_epoch"; "activation_epoch"];
  let terminal := result_json "SUCCEEDED" (ck_command row) (ck_logical row) (ck_correlation row) version sequence epoch digest false time safeOutput JNull in
  let d := update_command (ck_command row) (fun c => set_command C_SUCCEEDED (Some safeOutput) None (cr_lineage c) (cr_fence c) c) d in
  let d := record_response (ck_command row) I_SUCCEEDED 200 terminal d in
  let d := update_queue (ck_command row) (fun q => release_item Q_SUCCEEDED (qi_available q) q) d in
  let d := terminalizeCommandGuards (ck_command row) (ck_logical row) (ck_claim row) d in
  audit "domain.command.succeeded"
    (JObj [("commandId", JStr (ck_command row)); ("operationName", JStr (ck_operation row)); ("resultDigest", JStr digest)]) d.

(** *** Failure *)

Definition cause_json (c : option Cause) : json :=
  match c with
  | Some c => JObj [("kind", JStr (cause_kind c)); ("originalCode", jstr_opt (originalCode c)); ("digest", JStr (cause_digest c))]
  | None => JNull
  end.
Definition failure_json (f : CanonicalFailure) : json :=
  jsonSafe (JObj [("code", JStr (cf_code f)); ("effectiveCode", JStr (cf_effectiveCode f)); ("message", JStr (cf_message f));
                  ("classification", JStr (cf_classification f)); ("sideEffectPoint", JStr (cf_sideEffectPoint f)); ("retryDirective", jstr_opt (cf_retryDirective f));
                  ("recordDigest", JStr (cf_recordDigest f)); ("registryVersion", JStr (cf_registryVersion f)); ("httpStatus", JNum (cf_httpStatus f));
                  ("details", cf_details f); ("cause", cause_json (cf_cause f))]).
Definition set_plan (s : plan_state) (owner : option string) (expires : option Z) (p : plan_row) : plan_row :=
  {| pl_command := pl_command p; pl_action := pl_action p; pl_directive := pl_directive p; pl_state := s; pl_available := pl_available p; pl_owner := owner;
     pl_lease := pl_lease p; pl_expires := expires; pl_attempts := pl_attempts p; pl_max := pl_max p; pl_successor := pl_successor p; pl_lineage := pl_lineage p |}.
Definition set_failures t (x : failure_tables) : failure_tables :=
  {| failures := t; plans := plans x; reviews := reviews x; reconciliations := reconciliations x; snapshots := snapshots x |}.
Definition set_plans t (x : failure_tables) : failure_tables :=
  {| failures := failures x; plans := t; reviews := reviews x; reconciliations := reconciliations x; snapshots := snapshots x |}.
Definition set_reviews t (x : failure_tables) : failure_tables :=
  {| failures := failures x; plans := plans x; reviews := t; reconciliations := reconciliations x; snapshots := snapshots x |}.
(** [UPDATE kcml.domain_retry_plan ... WHERE id AND state = 'READY'] *)
Definition finish_plan (k : string * Z) (s : plan_state) (x : failure_tables) : failure_tables :=
  match plans x !! k with Some p => if bool_decide (pl_state p = P_READY) then set_plans (<[k := set_plan s (pl_owner p) (pl_expires p) p]> (plans x)) x else x | None => x end.
(** Both inserts keep a row that is there. *)
Definition record_failure (row : claimed) (k : string * Z) (f : CanonicalFailure) (p : RetryPlanDecision) (h : RecoveryAuthorityHead) (now : Z) (x : failure_tables)
    : result failure_tables :=
  _ ← throw_if ((cf_httpStatus f <? 100) || (599 <? cf_httpStatus f)) (PgError "23514");
  _ ← throw_if (negb (is_some (cf_retryDirective f))) (PgError "23502");
  let x := match failures x !! k with Some _ => x | None =>
             set_failures (<[k := {| fa_logical := ck_logical row; fa_failure := failure_json f; fa_code := cf_effectiveCode f; fa_directive := cf_retryDirective f |}]> (failures x)) x end in
  Ok (match plans x !! k with Some _ => x | None =>
        set_plans (<[k := {| pl_command := ck_command row; pl_action := action p; pl_directive := pd_directive p; pl_state := P_READY; pl_available := now;
          pl_owner := None; pl_lease := 0; pl_expires := None; pl_attempts := 0; pl_max := 8; pl_successor := None; pl_lineage := now_lineage h |}]> (plans x)) x end).
Definition add_review (k : string * Z) (x : failure_tables) : result failure_tables :=
  _ ← throw_if (bool_decide (k ∈ reviews x)) duplicate;
  Ok (set_reviews (reviews x ++ [k]) x).
Definition fail (row : claimed) (error : thrown) (time : string) (now : Z) d : result (cmd_db W) :=
  h ← recovery_current row "Worker failure write recovery epoch is stale" d;
  _ ← throw_if (is_some (checkpoints d !! ck_command row))
        (DomainErr "SIDE_EFFECT_RECONCILIATION_FAILED" "An applied command with immutable checkpoint must resume terminal replay instead of becoming failed");
  d ← verifyWorkerClaimAndAdmission row [ADMITTED] false now d;
  match queue d !! ck_command row with
  | None => Ok d
  | Some q =>
      if negb (bool_decide (qi_status q = Q_CLAIMED)) || negb (bool_decide (qi_owner q = Some (workerId opts))) then Ok d
      else
        f ← canonicalFailure reg error;
        plan ← planCanonicalRetry f (qi_attempts q) (qi_max q);
        let k := (ck_command row, qi_attempts q) in
        x ← record_failure row k f plan h now (failed d);
        let d := set_failed x d in
        let failure := failure_json f in
        let close s d := update_queue (ck_command row) (fun q => release_item Q_FAILED_FINAL (qi_available q) q)
                           (update_command (ck_command row) (with_status s (Some failure)) d) in
        match action plan with
        | RETRY_SAME_COMMAND =>
            let d := update_queue (ck_command row) (release_item Q_READY (now + 1000 * default 0 (backoffSeconds plan))) d in
            let d := update_command (ck_command row) (with_status C_ACCEPTED (Some failure)) d in
            Ok (set_failed (finish_plan k P_COMPLETED (failed d)) d)
        | ENQUEUE_RECONCILIATION => Ok (close C_WAITING d)
        | CREATE_MANUAL_REVIEW =>
            x ← add_review k (failed d);
            Ok (set_failed (finish_plan k P_WAITING_OWNER x) (close C_MANUAL_REVIEW d))
        | CLOSE_FAILED_COMMAND | REFRESH_AND_CREATE_SUCCESSOR =>
            let digest := Digest.canonicalDigest failure in
            let terminal := result_json "FAILED_FINAL" (ck_command row) (ck_logical row) (ck_correlation row) 0 0 0 digest false time JNull failure in
            let d := record_response (ck_command row) I_FAILED_FINAL (cf_httpStatus f) terminal (close C_FAILED_FINAL d) in
            let d := terminalizeCommandGuards (ck_command row) (ck_logical row) (ck_claim row) d in
            Ok (if bool_decide (action plan = CLOSE_FAILED_COMMAND) then set_failed (finish_plan k P_COMPLETED (failed d)) d else d)
        end
  end.

(** *** One run of a worker, with nothing in between: whether it found work, or the error it throws *)

Definition commit {A} (r : result (A * cmd_db W)) d : result A * cmd_db W := match r with Ok (a, d') => (Ok a, d') | Throw e => (Throw e, d) end.
Definition commit_unit (r : result (cmd_db W)) d : result unit * cmd_db W := match r with Ok d' => (Ok tt, d') | Throw e => (Throw e, d) end.
(** [applyCommand]; [execute] is the specialist's effect outside of the database. *)
Definition applyCommand (execute : prepared -> json + thrown) (row : claimed) (now : Z) d : (json + thrown) * cmd_db W :=
  if canHandle (ck_operation row) then
    match commit (prepare_specialist row now d) d with
    | (Throw e, d) => (inr (thrown_of e), d)
    | (Ok (inl output), d) => (inl output, d)
    | (Ok (inr p), d) =>
        match commit (reconcile_specialist row p (execute p) now d) d with
        | (Throw e, d) => (inr (thrown_of e), d)
        | (Ok (FAILED e, _), d) => (inr e, d)
        | (Ok (APPLIED output, _), d) => (inl output, d)
        end
    end
  else match commit (apply_mutation row now d) d with
       | (Throw e, d) => (inr (thrown_of e), d)
       | (Ok (output, _), d) => (inl output, d)
       end.
Definition runOnce (execute : prepared -> json + thrown) (locked : string -> bool) (time : string) (now : Z) d : result bool * cmd_db W :=
  match commit (claim_next locked now d) d with
  | (Throw e, d) => (Throw e, d)
  | (Ok None, d) => (Ok false, d)
  | (Ok (Some row), d) =>
      let '(outcome, d) := applyCommand execute row now d in
      let '(r, d) := match outcome with
                     | inl output => commit_unit (complete row output time now d) d
                     | inr e => commit_unit (fail row e time now d) d
                     end in
      (_ ← r; Ok true, d)
  end.

(** *** The retry scheduler and the recovery of the platform, where they change a command *)

Definition executing (r : idempotency_row) : bool := match id_lifecycle r with I_EXECUTING => true | _ => false end.
(** [version] is the update count of the command's row. *)
Definition terminalizeReplacedCommand (id : string) (c : command_row) (version : Z) (time : string) d : result (cmd_db W) :=
  failure ← match cr_error c with
            | Some e => Ok (jsonSafe e)
            | None => f ← canonicalFailure reg (ThrownDomain "ERROR_RECOVERY_CONTRACT_INCOMPLETE" "Replaced command has no canonical failure" JNull);
                      Ok (failure_json f)
            end;
  let status := match cr_error c with Some (JObj l) => match get_prop "httpStatus" l with Some (JNum n) => n | _ => 500 end | _ => 500 end in
  let digest := Digest.canonicalDigest failure in
  let terminal := result_json "FAILED_FINAL" id (cr_logical c) (cr_correlation c) version 0 (cr_epoch c) digest false time JNull failure in
  let d := update_command id (fun c => if bool_decide (cr_status c = C_WAITING) then with_status C_FAILED_FINAL (cr_error c) c else c) d in
  let d := set_idempotency ((fun r => if String.eqb (id_command r) id && executing r then set_response I_FAILED_FINAL status terminal r else r) <$> idempotency d) d in
  Ok (terminalizeCommandGuards id (cr_logical c) (cr_claim c) d).
(** The part of [createSuccessor] that ends the failed command *)
Definition end_replaced (id : string) (version : Z) (time : string) d : result (cmd_db W) :=
  _ ← lockAndVerifyPlatformRecovery (recovery d);
  c ← or_throw (commands d !! id) (DomainErr "KCIP_TARGET_NOT_FOUND" "Failed command no longer exists");
  if bool_decide (cr_status c = C_WAITING) then terminalizeReplacedCommand id c version time d else Ok d.
Definition createManualReview (k : string * Z) (commandId : string) d : cmd_db W :=
  let x := failed d in
  let x := if bool_decide (k ∈ reviews x) then x else set_reviews (reviews x ++ [k]) x in
  let x := match plans x !! k with Some p => set_plans (<[k := set_plan P_WAITING_OWNER None None p]> (plans x)) x | None => x end in
  update_command commandId (fun c => if bool_decide (cr_status c = C_WAITING) then with_status C_MANUAL_REVIEW (cr_error c) c else c) (set_failed x d).
(** [classifyCommands]: a command with an item in the queue, its claim and no uncertain effect is resumed under the new
    lineage and a new fence, by replay of its terminal state when it has a checkpoint. *)
Definition resumable (id : string) (effectUncertain : bool) d : option (command_row * queue_row * claim_row) :=
  match commands d !! id, queue d !! id with
  | Some c, Some q =>
      match claims d !! cr_claim c with
      | Some k => if negb (final (cr_status c)) && (bool_decide (qi_status q = Q_READY) || bool_decide (qi_status q = Q_CLAIMED))
                     && negb (kc_released k) && String.eqb (kc_logical k) (cr_logical c) && negb effectUncertain then Some (c, q, k) else None
      | None => None
      end
  | _, _ => None
  end.
Definition resume_claim (owner : string) (fence now : Z) (ln : lineage) (k : claim_row) : claim_row :=
  {| kc_scope_key := kc_scope_key k; kc_logical := kc_logical k; kc_owner := owner; kc_fence := fence; kc_expires := now + CLAIM_LEASE;
     kc_released := false; kc_lineage := ln |}.
Definition resume_item (fence now : Z) (ln : lineage) (q : queue_row) : queue_row :=
  {| qi_id := qi_id q; qi_queue := qi_queue q; qi_partition := qi_partition q; qi_status := Q_READY; qi_available := now; qi_attempts := qi_attempts q;
     qi_max := qi_max q; qi_owner := None; qi_lease := qi_lease q; qi_lease_expires := None; qi_lineage := ln; qi_claim := qi_claim q; qi_fence := fence |}.
Definition set_head_lineage (ln : lineage) (h : domain_head) : domain_head :=
  {| dh_epoch := dh_epoch h; dh_barrier := dh_barrier h; dh_pending := dh_pending h; dh_lineage := ln |}.
Definition resume_command (id owner : string) (ln : lineage) (effectUncertain : bool) (now : Z) d : result (cmd_db W) :=
  match resumable id effectUncertain d with
  | None => Ok d
  | Some (c, q, k) =>
      let fence := kc_fence k + 1 in
      _ ← throw_if (max_bigint <? fence) (PgError "22003");
      let d := set_claims (<[cr_claim c := resume_claim owner fence now ln k]> (claims d)) d in
      let d := set_commands (<[id := set_command C_ACCEPTED (cr_result c) (cr_error c) ln fence c]> (commands d)) d in
      let d := set_queue (<[id := resume_item fence now ln q]> (queue d)) d in
      Ok (match admissions d !! id with
          | Some a => match domains d !! ad_domain a with
                      | Some h => set_domains (<[ad_domain a := set_head_lineage ln h]> (domains d)) d
                      | None => d end
          | None => d end)
  end.
End Worker.

(** ** The system of the workers *)

(** What handlers did: the mutation handler in a committed transaction; the specialist that prepared in a committed
    transaction, acted outside of the database ([execute], whatever it returned), and found its effect applied, or not,
    in a committed transaction.  A handler whose transaction is rolled back did nothing. *)
Inductive run_event := MUTATED (output : json) | PREPARED | EXECUTED | RECONCILED (output : json) | NOT_APPLIED.
(** Under which claim: the command and the fencing token *)
Definition claim_of (row : claimed) : string * Z := (ck_command row, ck_fence row).
Abbreviation run_log := (list ((string * Z) * run_event)).

Section System.
Context `{L : Locale} `{H : Hash} `{F : Formats} {W : Type} `{D : CommandDomain W} `{M : CommandHandlers W}.
Context (cat : OperationCatalogService) (reg : gmap string StableErrorRecord).
Implicit Type d : cmd_db W.

(** What is promised of the handlers, and of every other program that shares the database: they leave the tables of the
    command service alone, except that a handler may close the admission of its own command early
    ([component.deregister] does) and that barriers and epochs of the domains may change. *)
Record same_commands d d' : Prop := {
  sc_tables : idempotency d' = idempotency d /\ claims d' = claims d /\ commands d' = commands d /\ admissions d' = admissions d /\
              queue d' = queue d /\ checkpoints d' = checkpoints d;
  sc_pending : forall k, pending d' k = pending d k;
  sc_domains : forall k, is_Some (domains d !! k) -> is_Some (domains d' !! k);
}.
Definition handler_frame (id : string) d d' : Prop := same_commands d d' \/ same_commands (terminalize_admission id d) d'.
Class LawfulHandlers : Prop := {
  runMutation_frame : forall o args row h d out d', runMutation o args row h d = Ok (out, d') -> handler_frame (ck_command row) d d';
  prepare_frame : forall o args row h d p d', prepare o args row h d = Ok (p, d') -> handler_frame (ck_command row) d d';
  reconcile_frame : forall p e row h d r d', reconcile p e row h d = Ok (r, d') -> handler_frame (ck_command row) d d';
}.

Inductive phase := Claimed | Prepared (p : prepared) | Executed (p : prepared) (execution : json + thrown) | Applied (output : json) | Failing (e : thrown).
(** The workers in flight, and everything their handlers did, the latest first *)
Record system := Sys { db : cmd_db W; flights : list (claimed * phase); ran : run_log }.
Definition ran_more (row : claimed) (fresh : bool) (e : run_event) (l : run_log) : run_log := if fresh then (claim_of row, e) :: l else l.

(** Which worker has a specialist for which operation is a matter of its options: either way of applying a command is open
    to every worker. *)
Inductive step : system -> system -> Prop :=
| st_execute name input x f d r d' fl l : execute cat name input x f d = Ok (r, d') -> step (Sys d fl l) (Sys d' fl l)
| st_claim opts locked now d row d' fl l : claim_next opts locked now d = Ok (Some row, d') -> step (Sys d fl l) (Sys d' ((row, Claimed) :: fl) l)
| st_apply row now d r d' fl1 fl2 l :
    apply_mutation cat row now d = Ok (r, d') ->
    step (Sys d (fl1 ++ (row, Claimed) :: fl2) l) (Sys d' (fl1 ++ (row, Applied r.1) :: fl2) (ran_more row r.2 (MUTATED r.1) l))
| st_apply_lost row now d r d' fl1 fl2 l e : (* committed, but the worker sees an error *)
    apply_mutation cat row now d = Ok (r, d') ->
    step (Sys d (fl1 ++ (row, Claimed) :: fl2) l) (Sys d' (fl1 ++ (row, Failing e) :: fl2) (ran_more row r.2 (MUTATED r.1) l))
| st_prepare row now d q d' fl1 fl2 l :
    prepare_specialist cat row now d = Ok (q, d') ->
    step (Sys d (fl1 ++ (row, Claimed) :: fl2) l)
         (Sys d' (fl1 ++ (row, match q with inl out => Applied out | inr p => Prepared p end) :: fl2)
                 (ran_more row match q with inl _ => false | inr _ => true end PREPARED l))
| st_effect row p execution d fl1 fl2 l : (* [execute]: no fence, no transaction, any result *)
    step (Sys d (fl1 ++ (row, Prepared p) :: fl2) l) (Sys d (fl1 ++ (row, Executed p execution) :: fl2) (ran_more row true EXECUTED l))
| st_reconcile row p execution now d r d' fl1 fl2 l :
    reconcile_specialist row p execution now d = Ok (r, d') ->
    step (Sys d (fl1 ++ (row, Executed p execution) :: fl2) l)
         (Sys d' (fl1 ++ (row, match r.1 with APPLIED out => Applied out | FAILED e => Failing e end) :: fl2)
                 (match r.1 with APPLIED out => ran_more row r.2 (RECONCILED out) l | FAILED _ => ran_more row true NOT_APPLIED l end))
| st_error row ph e d fl1 fl2 l : (* any error, an unacknowledged preparation included *)
    step (Sys d (fl1 ++ (row, ph) :: fl2) l) (Sys d (fl1 ++ (row, Failing e) :: fl2) l)
| st_complete opts row out time now d d' fl1 fl2 l :
    complete opts row out time now d = Ok d' -> step (Sys d (fl1 ++ (row, Applied out) :: fl2) l) (Sys d' (fl1 ++ fl2) l)
| st_fail opts row e time now d d' fl1 fl2 l :
    fail opts reg row e time now d = Ok d' -> step (Sys d (fl1 ++ (row, Failing e) :: fl2) l) (Sys d' (fl1 ++ fl2) l)
| st_crash row ph d fl1 fl2 l : step (Sys d (fl1 ++ (row, ph) :: fl2) l) (Sys d (fl1 ++ fl2) l)
| st_replace id version time d d' fl l : end_replaced reg id version time d = Ok d' -> step (Sys d fl l) (Sys d' fl l)
| st_review k id d fl l : step (Sys d fl l) (Sys (createManualReview k id d) fl l)
| st_resume id owner ln uncertain now d d' fl l : resume_command id owner ln uncertain now d = Ok d' -> step (Sys d fl l) (Sys d' fl l)
| st_other d d' fl l : same_commands d d' -> step (Sys d fl l) (Sys d' fl l).

(** A database without commands, and no worker *)
Definition initial (s : system) : Prop :=
  flights s = [] /\ ran s = [] /\ commands (db s) = ∅ /\ admissions (db s) = ∅ /\ queue (db s) = ∅ /\ checkpoints (db s) = ∅ /\
  (forall k c, claims (db s) !! k = Some c -> kc_released c = true) /\ forall k, pending (db s) k = 0.
Definition reachable (s : system) : Prop := exists s0, initial s0 /\ star step s0 s.

(** *** Reading the log *)

(** The committed applications: each with the command and the output *)
Definition applied (l : run_log) : list (string * json) :=
  omap (fun x => match x.2 with MUTATED out | RECONCILED out => Some (x.1.1, out) | _ => None end) l.
(** The preparations and the effects of the specialists *)
Definition attempts (l : run_log) : run_log := List.filter (fun x => match x.2 with PREPARED | EXECUTED => true | _ => false end) l.
(** What must be in the log before an event: the same worker, under the same claim, prepared before it acted, and acted before it
    judged its effect. *)
Definition cause (x : (string * Z) * run_event) (before : run_log) : Prop :=
  match x.2 with
  | EXECUTED => (x.1, PREPARED) ∈ before
  | RECONCILED _ | NOT_APPLIED => (x.1, EXECUTED) ∈ before
  | MUTATED _ | PREPARED => True
  end.
Fixpoint explained (l : run_log) : Prop := match l with [] => True | x :: l => cause x l /\ explained l end.

(** ** Theory *)

Lemma guards_same d d' : guards d -> same_commands d d' -> guards d'.
Proof.
  intros [] [(_ & Hcl & Hcm & Had & Hq & Hck) Hp Hd]. split; rewrite ?Hcl, ?Hcm, ?Had, ?Hq, ?Hck; eauto.
  intros k. by rewrite Hp.
Qed.
Lemma terminalize_admission_same id d :
  recovery (terminalize_admission id d) = recovery d /\ idempotency (terminalize_admission id d) = idempotency d /\
  claims (terminalize_admission id d) = claims d /\ commands (terminalize_admission id d) = commands d /\
  queue (terminalize_admission id d) = queue d /\ checkpoints (terminalize_admission id d) = checkpoints d.
Proof.
  unfold terminalize_admission. destruct (admissions d !! id) as [a|]; [|done]. case_bool_decide; [done|].
  match goal with |- context [count_pending ?n ?k ?p ?d0] => destruct (count_pending_same n k p d0) as (-> & _ & -> & -> & -> & _ & -> & -> & _) end. done.
Qed.
Lemma terminalize_admission_spec id d : guards d ->
  (forall k, pending (terminalize_admission id d) k = open_count (admissions (terminalize_admission id d)) k) /\
  (forall id' a, admissions (terminalize_admission id d) !! id' = Some a -> exists a0, admissions d !! id' = Some a0 /\ ad_domain a = ad_domain a0 /\
     (ad_state a = ad_state a0 /\ id' <> id \/ ad_state a = TERMINAL)) /\
  (forall k, is_Some (domains d !! k) -> is_Some (domains (terminalize_admission id d) !! k)).
Proof.
  intros G. unfold terminalize_admission. destruct (admissions d !! id) as [a|] eqn:Ha.
  2:{ split_and!; [apply (g_pending _ G)| |done]. intros id' a' Ha'. exists a'. split_and!; [done|done|left; split; [done|congruence]]. }
  destruct (bool_decide_reflect (ad_state a = TERMINAL)) as [Ht|Ht].
  { split_and!; [apply (g_pending _ G)| |done]. intros id' a' Ha'. exists a'. split_and!; [done|done|]. destruct (decide (id' = id)); [right; congruence|by left]. }
  destruct (g_domain _ G _ _ Ha) as [h Hh]. set (p := fun h0 => 0 <? dh_pending h0). set (a' := set_admission TERMINAL a).
  set (d0 := set_admissions _ d).
  assert (Hpos : p h = true).
  { apply Z.ltb_lt. pose proof (open_count_pos _ _ _ Ha Ht) as Hp. rewrite <- (g_pending _ G) in Hp. unfold pending in Hp. by rewrite Hh in Hp. }
  destruct (count_pending_same (-1) (ad_domain a) p d0) as (_ & _ & _ & _ & _ & Hadm & _). rewrite Hadm. split_and!.
  - intros k. rewrite (pending_count (-1) _ p h d0 Hh Hpos). cbn. rewrite (open_count_close _ _ _ a) by done.
    change (pending d0 k) with (pending d k). rewrite (g_pending _ G).
    assert (Ho : open_in k (id, a) <-> k = ad_domain a) by (unfold open_in; cbn; naive_solver).
    destruct (decide (k = _)) as [?|?], (decide (open_in _ _)) as [?|?]; try lia; tauto.
  - intros id' b. cbn. rewrite lookup_insert_Some. intros [[<- <-]|[? Hb]]; [|exists b; split_and!; [done|done|left; done]].
    exists a. split_and!; [done|done|by right].
  - intros k Hk. apply count_pending_domains. exact Hk.
Qed.
Lemma guards_terminalize id d : guards d -> guards (terminalize_admission id d).
Proof.
  intros G. destruct (terminalize_admission_spec id d G) as (Hp & Ha & Hd). destruct (terminalize_admission_same id d) as (_ & _ & Hcl & Hcm & Hq & Hck).
  split; rewrite ?Hcl, ?Hcm, ?Hq, ?Hck; [done| | |by destruct G..].
  - intros id' a E. destruct (Ha _ _ E) as (a0 & Ha0 & -> & _). apply Hd. by eapply g_domain.
  - intros id' a E. destruct (Ha _ _ E) as (a0 & Ha0 & _ & Hs). destruct (g_admitted _ G _ _ Ha0) as (r & Hr & Hf). exists r. split; [done|].
    intros Hfin. destruct Hs as [[-> _]|]; auto.
Qed.
Lemma guards_frame id d d' : guards d -> handler_frame id d d' -> guards d'.
Proof. intros G [Hs|Hs]; (eapply guards_same; [|exact Hs]); [done|by apply guards_terminalize]. Qed.

(** *** Changes of one command *)

(** A command that is not final gets a new row that is not final either. *)
Lemma guards_update id c k c' k' d d' : guards d ->
  commands d !! id = Some c -> final (cr_status c) = false -> claims d !! cr_claim c = Some k ->
  cr_logical c' = cr_logical c -> cr_claim c' = cr_claim c -> final (cr_status c') = false -> held_by c' k' ->
  commands d' = <[id := c']> (commands d) -> claims d' = <[cr_claim c := k']> (claims d) ->
  (forall id2 q, queue d' !! id2 = Some q -> exists r, commands d' !! id2 = Some r /\ qi_claim q = cr_claim r /\ qi_fence q = cr_fence r) ->
  admissions d' = admissions d -> checkpoints d' = checkpoints d -> (forall key, pending d' key = pending d key) ->
  (forall key, is_Some (domains d !! key) -> is_Some (domains d' !! key)) -> guards d'.
Proof.
  intros G Hc Hf Hk Hl' Hcl' Hf' Hh' Ecm Ecl Eq Ead Eck Hp Hd.
  destruct (g_holds _ G _ _ Hc Hf) as (k0 & Hk0 & Hl & Hrel & Hfe). simplify_eq.
  assert (Hone : forall id2 r2, commands d !! id2 = Some r2 -> final (cr_status r2) = false -> cr_claim r2 = cr_claim c -> id2 = id).
  { intros id2 r2 H2 Hf2 He. destruct (g_holds _ G _ _ H2 Hf2) as (k2 & Hk2 & Hl2 & _). rewrite He in Hk2. simplify_eq. eapply (g_logical _ G); [exact H2|exact Hc|congruence]. }
  split.
  - intros key. by rewrite Hp, Ead, (g_pending _ G).
  - intros id2 a. rewrite Ead. intros Ha. apply Hd. by eapply g_domain.
  - intros id2 a. rewrite Ead, Ecm. intros Ha. destruct (g_admitted _ G _ _ Ha) as (r & Hr & Ht). destruct (decide (id2 = id)) as [->|].
    + exists c'. rewrite lookup_insert_eq. split; [done|congruence].
    + exists r. by rewrite lookup_insert_ne by congruence.
  - intros id1 id2 r1 r2. rewrite Ecm, !lookup_insert_Some. intros [[<- <-]|[? H1]] [[<- <-]|[? H2]] He; [done| | |by eapply g_logical].
    + eapply (g_logical _ G); [exact Hc|exact H2|congruence].
    + eapply (g_logical _ G); [exact H1|exact Hc|congruence].
  - intros id2 r. rewrite Ecm, Ecl, lookup_insert_Some. intros [[<- <-]|[Hn Hr]] Hfr.
    + exists k'. rewrite Hcl', lookup_insert_eq. done.
    + rewrite lookup_insert_ne by (intros E; apply Hn; symmetry; eauto). by eapply g_holds.
  - intros k2 c2. rewrite Ecl, Ecm, lookup_insert_Some. intros [[<- <-]|[Hn Hc2]] Hrel2.
    + exists id, c'. rewrite lookup_insert_eq. done.
    + destruct (g_owner _ G _ _ Hc2 Hrel2) as (id2 & r & Hr & Hfr & He & Hb). exists id2, r.
      rewrite lookup_insert_ne; [done|]. intros <-. simplify_eq.
  - exact Eq.
  - intros id2 p. rewrite Eck, Ecm. intros Hp2. destruct (g_checkpoint _ G _ _ Hp2) as (r & Hr & Hlr & Hs). destruct (decide (id2 = id)) as [->|].
    + exists c'. rewrite lookup_insert_eq. simplify_eq. split_and!; [done|congruence|]. intros E. by rewrite E in Hf'.
    + exists r. by rewrite lookup_insert_ne by congruence.
Qed.
Lemma guards_ext d d' : guards d -> claims d' = claims d -> commands d' = commands d -> admissions d' = admissions d -> queue d' = queue d ->
  checkpoints d' = checkpoints d -> domains d' = domains d -> guards d'.
Proof. intros [] Hcl Hcm Had Hq Hck Hdm. split; unfold pending in *; rewrite ?Hcl, ?Hcm, ?Had, ?Hq, ?Hck, ?Hdm; done. Qed.
(** With a new fence for the command, its claim and its item *)
Lemma guards_refence id c k q c' k' q' d d' : guards d ->
  commands d !! id = Some c -> final (cr_status c) = false -> claims d !! cr_claim c = Some k -> queue d !! id = Some q ->
  cr_logical c' = cr_logical c -> cr_claim c' = cr_claim c -> final (cr_status c') = false -> held_by c' k' ->
  qi_claim q' = qi_claim q -> qi_fence q' = cr_fence c' ->
  commands d' = <[id := c']> (commands d) -> claims d' = <[cr_claim c := k']> (claims d) -> queue d' = <[id := q']> (queue d) ->
  admissions d' = admissions d -> checkpoints d' = checkpoints d -> (forall key, pending d' key = pending d key) ->
  (forall key, is_Some (domains d !! key) -> is_Some (domains d' !! key)) -> guards d'.
Proof.
  intros G Hc Hf Hk Hq Hl' Hcl' Hf' Hh' Hqc Hqf Ecm Ecl Eq. apply (guards_update id c k c' k'); try done.
  intros id2 q2. rewrite Eq, Ecm. destruct (g_queue _ G _ _ Hq) as (r & Hr & Hrc & _). simplify_eq.
  rewrite lookup_insert_Some. intros [[<- <-]|[Hn Hq2]].
  - exists c'. rewrite lookup_insert_eq. split_and!; [done|congruence|done].
  - destruct (g_queue _ G _ _ Hq2) as (r2 & Hr2 & ?). exists r2. by rewrite lookup_insert_ne by congruence.
Qed.
(** The row of the queue changes, not its fence. *)
Lemma guards_item id g d : (forall q, qi_claim (g q) = qi_claim q /\ qi_fence (g q) = qi_fence q) -> guards d -> guards (update_queue id g d).
Proof.
  intros Hg G. unfold update_queue. destruct (queue d !! id) as [q|] eqn:Hq; [|done]. destruct G. split; try done.
  intros id2 q2. cbn. rewrite lookup_insert_Some. intros [[<- <-]|[? ?]]; [|eauto]. destruct (Hg q) as [-> ->]. eauto.
Qed.
Lemma guards_status id c c' d : guards d -> commands d !! id = Some c -> final (cr_status c) = false -> final (cr_status c') = false ->
  cr_logical c' = cr_logical c -> cr_claim c' = cr_claim c -> cr_fence c' = cr_fence c -> guards (set_commands (<[id := c']> (commands d)) d).
Proof.
  intros G Hc Hf Hf' Hl Hcl Hfe. destruct (g_holds _ G _ _ Hc Hf) as (k & Hk & Hb).
  apply (guards_update id c k c' k d); try done; cbn.
  - unfold held_by in *. by rewrite Hl, Hfe.
  - by rewrite insert_id.
  - intros id2 q Hq. destruct (g_queue _ G _ _ Hq) as (r & Hr & ? & ?). destruct (decide (id2 = id)) as [->|].
    + exists c'. rewrite lookup_insert_eq. simplify_eq. split_and!; congruence.
    + exists r. by rewrite lookup_insert_ne by congruence.
Qed.
(** A command becomes final: its admission is closed and its claim released. *)
Lemma guards_close id c c' logical claim d : guards d -> commands d !! id = Some c -> final (cr_status c) = false -> final (cr_status c') = true ->
  cr_logical c' = cr_logical c -> cr_claim c' = cr_claim c -> cr_fence c' = cr_fence c -> logical = cr_logical c -> claim = cr_claim c ->
  (cr_status c' = C_FAILED_FINAL -> checkpoints d !! id = None) ->
  guards (terminalizeCommandGuards id logical claim (set_commands (<[id := c']> (commands d)) d)).
Proof.
  intros G Hc Hf Hf' Hl Hcl Hfe -> -> Hfail. set (d1 := set_commands _ d).
  destruct (terminalize_admission_spec id d G) as (Hp & Ha & Hd). destruct (terminalize_admission_same id d) as (_ & _ & Tcl & Tcm & Tq & Tck).
  assert (Hs : terminalize_admission id d1 = set_commands (<[id := c']> (commands d)) (terminalize_admission id d)).
  { unfold terminalize_admission, d1. cbn. destruct (admissions d !! id); [|done]. case_bool_decide; [done|]. unfold count_pending. cbn.
    destruct (domains d !! _); [|done]. by destruct (0 <? _). }
  destruct (g_holds _ G _ _ Hc Hf) as (k & Hk & Hkl & Hkr & Hkf).
  unfold terminalizeCommandGuards. rewrite Hs. cbn [claims set_commands]. rewrite Tcl, Hk, Hkl, Hkr, String.eqb_refl. cbn [negb andb].
  set (t := terminalize_admission id d) in *. clear Hs d1.
  split; cbn; rewrite ?Tq, ?Tck; unfold pending in *; cbn; try done.
  - intros id2 a E. destruct (Ha _ _ E) as (a0 & Ha0 & -> & _). apply Hd. by eapply g_domain.
  - intros id2 a E. destruct (Ha _ _ E) as (a0 & Ha0 & _ & Hst). destruct (g_admitted _ G _ _ Ha0) as (r & Hr & Ht). destruct (decide (id2 = id)) as [->|].
    + exists c'. rewrite lookup_insert_eq. split; [done|]. destruct Hst as [[_ []]|]; done.
    + exists r. rewrite lookup_insert_ne by congruence. split; [done|]. intros Hfr. destruct Hst as [[-> _]|]; auto.
  - intros id1 id2 r1 r2. rewrite !lookup_insert_Some. intros [[<- <-]|[? H1]] [[<- <-]|[? H2]] He; [done| | |by eapply g_logical].
    + eapply (g_logical _ G); [exact Hc|exact H2|congruence].
    + eapply (g_logical _ G); [exact H1|exact Hc|congruence].
  - intros id2 r. rewrite lookup_insert_Some. intros [[<- <-]|[Hn Hr]] Hfr; [congruence|].
    destruct (g_holds _ G _ _ Hr Hfr) as (k2 & Hk2 & Hb). exists k2. split; [|done]. rewrite lookup_insert_ne; [done|].
    intros E. rewrite <- E in Hk2. simplify_eq. destruct Hb as [Hb _]. apply Hn. eapply (g_logical _ G); [exact Hc|exact Hr|congruence].
  - intros k2 c2. rewrite lookup_insert_Some. intros [[<- <-]|[Hn Hc2]] Hrel2; [done|].
    destruct (g_owner _ G _ _ Hc2 Hrel2) as (id2 & r & Hr & Hfr & He & Hb). exists id2, r.
    rewrite lookup_insert_ne; [done|]. intros <-. simplify_eq.
  - intros id2 q2 Hq2. destruct (g_queue _ G _ _ Hq2) as (r & Hr & ? & ?). destruct (decide (id2 = id)) as [->|].
    + exists c'. rewrite lookup_insert_eq. simplify_eq. split_and!; congruence.
    + exists r. by rewrite lookup_insert_ne by congruence.
  - intros id2 p Hp2. destruct (g_checkpoint _ G _ _ Hp2) as (r & Hr & Hlr & Hsr). destruct (decide (id2 = id)) as [->|].
    + exists c'. rewrite lookup_insert_eq. simplify_eq. split_and!; [done|congruence|]. intros E. rewrite Hfail in Hp2 by done. done.
    + exists r. by rewrite lookup_insert_ne by congruence.
Qed.
End System.

(** *** Transactions of a claimed command *)

Section Transactions.
Context `{L : Locale} `{H : Hash} `{F : Formats} {W : Type} `{D : CommandDomain W} `{M : CommandHandlers W} `{Law : !LawfulHandlers}.
Context (cat : OperationCatalogService) (reg : gmap string StableErrorRecord).
Implicit Type d : cmd_db W.

Definition claim_like (k k' : claim_row) : Prop := kc_logical k' = kc_logical k /\ kc_released k' = kc_released k /\ kc_fence k' = kc_fence k.
Lemma guards_heartbeat key k k' d : guards d -> claims d !! key = Some k -> claim_like k k' -> guards (set_claims (<[key := k']> (claims d)) d).
Proof.
  intros G Hk (Hl & Hr & Hf). split; try by destruct G; cbn.
  - intros id r Hc Hfin. destruct (g_holds _ G _ _ Hc Hfin) as (k0 & Hk0 & Hb). cbn. destruct (decide (cr_claim r = key)) as [E|]; [rewrite E in *|].
    + destruct Hb as (? & ? & ?). exists k'. rewrite lookup_insert_eq. simplify_eq. unfold held_by. split_and!; congruence.
    + exists k0. by rewrite lookup_insert_ne by congruence.
  - intros k2 c2. cbn. rewrite lookup_insert_Some. intros [[<- <-]|[Hn Hc2]] Hrel.
    + rewrite Hr in Hrel. destruct (g_owner _ G _ _ Hk Hrel) as (id & r & ? & ? & ? & Hb). destruct Hb as (? & ? & ?). exists id, r. unfold held_by. split_and!; congruence.
    + by eapply g_owner.
Qed.
Lemma worker_verify_Ok row allowed hb now d d' : verifyWorkerClaimAndAdmission row allowed hb now d = Ok d' ->
  exists a k k', admissions d !! ck_command row = Some a /\ ad_state a ∈ allowed /\ claims d !! ck_claim row = Some k /\ kc_released k = false /\
    kc_logical k = ck_logical row /\ kc_fence k = ck_fence row /\ claim_like k k' /\ d' = set_claims (<[ck_claim row := k']> (claims d)) d.
Proof.
  unfold verifyWorkerClaimAndAdmission. intros Hv. inv_ok. reflect_bools. exists a, a2. subst d'. destruct hb.
  - exists (advance_claim (kc_owner a2) (kc_fence a2) now a2). done.
  - exists a2. split_and!; try done. rewrite insert_id by done. by destruct d.
Qed.
Lemma set_claims_same k k' key d : claims d !! key = Some k -> k' = k -> set_claims (<[key := k']> (claims d)) d = d.
Proof. intros Hk ->. rewrite insert_id by done. by destruct d. Qed.
Lemma verify_quiet row allowed now d d' : verifyWorkerClaimAndAdmission row allowed false now d = Ok d' -> d' = d.
Proof. unfold verifyWorkerClaimAndAdmission. intros Hv. inv_ok. by subst. Qed.

(** A worker in flight, against the database *)
Definition flight_row (d : cmd_db W) (row : claimed) : Prop := exists c, commands d !! ck_command row = Some c /\ cr_logical c = ck_logical row /\
  cr_claim c = ck_claim row /\ ck_fence row <= cr_fence c /\ (ck_fence row = cr_fence c -> cr_status c = C_RUNNING).
Definition flight_ok (d : cmd_db W) (f : claimed * phase) : Prop := flight_row d f.1 /\
  match f.2 with Applied out => exists p, checkpoints d !! ck_command f.1 = Some p /\ cp_output p = out | _ => True end.
Definition current_flight (d : cmd_db W) (row : claimed) (c : command_row) : Prop := commands d !! ck_command row = Some c /\ cr_status c = C_RUNNING /\
  cr_logical c = ck_logical row /\ cr_claim c = ck_claim row /\ cr_fence c = ck_fence row.

Lemma verified_current row allowed hb now d d' : guards d -> flight_row d row -> verifyWorkerClaimAndAdmission row allowed hb now d = Ok d' ->
  exists c, current_flight d row c.
Proof.
  intros G (c & Hc & Hl & Hcl & _ & Hr) Hv. apply worker_verify_Ok in Hv as (a & k & k' & _ & _ & Hk & Hrel & Hkl & Hkf & _ & _).
  destruct (g_owner _ G _ _ Hk Hrel) as (id & r & Hid & Hf & Hrk & Hb & _ & Hfe).
  assert (id = ck_command row) as -> by (eapply (g_logical _ G); [exact Hid|exact Hc|congruence]). simplify_eq.
  exists c. split_and!; try done; [apply Hr; congruence|congruence].
Qed.

Lemma replay_checkpoint_Ok row now m d o d' : guards d -> flight_row d row -> replay_checkpoint row now m d = Ok (o, d') ->
  exists c k, current_flight d row c /\ d' = set_claims (<[ck_claim row := k]> (claims d)) d /\ guards d' /\
  match o with Some out => exists p, checkpoints d !! ck_command row = Some p /\ cp_output p = out | None => checkpoints d !! ck_command row = None end.
Proof.
  intros G Hfl Hr. unfold replay_checkpoint in Hr. apply bind_Ok_inv in Hr as (d1 & Hv & Hr).
  destruct (verified_current _ _ _ _ _ _ G Hfl Hv) as [c Hc]. apply worker_verify_Ok in Hv as (a & k & k' & _ & _ & Hk & _ & _ & _ & Hlike & ->).
  exists c, k'. pose proof (guards_heartbeat _ _ _ _ G Hk Hlike).
  destruct (checkpoints d !! ck_command row) as [p|] eqn:Hp; inv_ok; simplify_eq; split_and!; eauto.
Qed.

(** The effects of applying a command: the handler ran and left its checkpoint, or the checkpoint was there *)
Definition outcome (row : claimed) (out : json) (fresh : bool) (d d' : cmd_db W) : Prop :=
  guards d' /\ commands d' = commands d /\ (exists c, current_flight d row c) /\
  if fresh then checkpoints d !! ck_command row = None /\ exists p, cp_output p = out /\ checkpoints d' = <[ck_command row := p]> (checkpoints d)
  else checkpoints d' = checkpoints d /\ exists p, checkpoints d !! ck_command row = Some p /\ cp_output p = out.

Lemma handler_frame_same id d d' : handler_frame id d d' -> commands d' = commands d /\ checkpoints d' = checkpoints d.
Proof.
  intros [[(_ & _ & Hc & _ & _ & Hk) _ _]|[(_ & _ & Hc & _ & _ & Hk) _ _]]; [done|].
  destruct (terminalize_admission_same id d) as (_ & _ & _ & Hc' & _ & Hk'). by rewrite Hc, Hk, Hc', Hk'.
Qed.
Lemma insert_checkpoint_Ok row h out d d' c : guards d -> current_flight d row c -> insert_checkpoint row h out d = Ok d' ->
  guards d' /\ commands d' = commands d /\ checkpoints d !! ck_command row = None /\ exists p, cp_output p = out /\ checkpoints d' = <[ck_command row := p]> (checkpoints d).
Proof.
  intros G (Hc & Hs & Hl & _) Hi. unfold insert_checkpoint in Hi. inv_ok. reflect_bools. subst d'. cbn.
  split_and!; [|done|by destruct (checkpoints d !! _)|eexists; split; [|reflexivity]; done].
  destruct G. split; try done. intros id p. cbn. rewrite lookup_insert_Some. intros [[<- <-]|[_ Hp]]; [|eauto].
  exists c. split_and!; [done|done|congruence].
Qed.
Lemma apply_outcome row now d out fresh d' : guards d -> flight_row d row -> apply_mutation cat row now d = Ok ((out, fresh), d') -> outcome row out fresh d d'.
Proof.
  intros G Hfl Ha. unfold apply_mutation, applyInCommandTransaction in Ha. apply bind_Ok_inv in Ha as (o & _ & Ha). apply bind_Ok_inv in Ha as (h & _ & Ha).
  apply bind_Ok_inv in Ha as ([replay d1] & Hr & Ha). destruct (replay_checkpoint_Ok _ _ _ _ _ _ G Hfl Hr) as (c & k & Hc & -> & G1 & Hp).
  destruct replay as [out'|]; [inv_ok; simplify_eq; unfold outcome; split_and!; eauto|]. inv_ok. destruct a0 as [out' d2]. inv_ok. simplify_eq.
  apply runMutation_frame in Hok0. pose proof (guards_frame _ _ _ G1 Hok0) as G2. apply handler_frame_same in Hok0 as [Hcm Hck].
  assert (Hc2 : current_flight d2 row c) by (destruct Hc as [Hc Hc']; split; [by rewrite Hcm|done]).
  destruct (insert_checkpoint_Ok _ _ _ _ _ _ G2 Hc2 Hok1) as (? & Hcm' & Hno & p & Hpo & Hck').
  split_and!; [done|by rewrite Hcm', Hcm|eauto|done|]. exists p. by rewrite Hck', Hck.
Qed.
Lemma reconcile_outcome row p e now d r fresh d' : guards d -> flight_row d row -> reconcile_specialist row p e now d = Ok ((r, fresh), d') ->
  match r with APPLIED out => outcome row out fresh d d' | FAILED _ => guards d' /\ commands d' = commands d /\ checkpoints d' = checkpoints d end.
Proof.
  intros G Hfl Ha. unfold reconcile_specialist in Ha. apply bind_Ok_inv in Ha as (h & _ & Ha).
  apply bind_Ok_inv in Ha as ([replay d1] & Hr & Ha). destruct (replay_checkpoint_Ok _ _ _ _ _ _ G Hfl Hr) as (c & k & Hc & -> & G1 & Hp).
  destruct replay as [out'|]; [inv_ok; simplify_eq; unfold outcome; split_and!; eauto|]. inv_ok. destruct a as [r' d2].
  apply reconcile_frame in Hok. pose proof (guards_frame _ _ _ G1 Hok) as G2. apply handler_frame_same in Hok as [Hcm Hck].
  destruct r' as [out|e']; inv_ok; simplify_eq; [|by rewrite Hcm, Hck].
  assert (Hc2 : current_flight d2 row c) by (destruct Hc as [Hc Hc']; split; [by rewrite Hcm|done]).
  destruct (insert_checkpoint_Ok _ _ _ _ _ _ G2 Hc2 Hok) as (? & Hcm' & Hno & p' & Hpo & Hck').
  split_and!; [done|by rewrite Hcm', Hcm|eauto|done|]. exists p'. by rewrite Hck', Hck.
Qed.
Lemma prepare_spec row now d q d' : guards d -> flight_row d row -> prepare_specialist cat row now d = Ok (q, d') ->
  guards d' /\ commands d' = commands d /\ checkpoints d' = checkpoints d /\
  match q with inl out => exists p, checkpoints d !! ck_command row = Some p /\ cp_output p = out | inr _ => True end.
Proof.
  intros G Hfl Ha. unfold prepare_specialist in Ha. apply bind_Ok_inv in Ha as (o & _ & Ha). apply bind_Ok_inv in Ha as (h & _ & Ha).
  apply bind_Ok_inv in Ha as ([replay d1] & Hr & Ha). destruct (replay_checkpoint_Ok _ _ _ _ _ _ G Hfl Hr) as (c & k & Hc & -> & G1 & Hp).
  destruct replay as [out'|]; [inv_ok; simplify_eq; by split_and!|]. inv_ok. destruct a0 as [p d2]. inv_ok. simplify_eq.
  apply prepare_frame in Hok0. pose proof (guards_frame _ _ _ G1 Hok0) as G2. by apply handler_frame_same in Hok0 as [-> ->].
Qed.

(** *** Transactions that change a command *)

(** A command got a new row. *)
Definition replaced (id : string) (c c' : command_row) d d' : Prop :=
  guards d' /\ commands d !! id = Some c /\ commands d' = <[id := c']> (commands d) /\ checkpoints d' = checkpoints d /\
  cr_logical c' = cr_logical c /\ cr_claim c' = cr_claim c.

Lemma next_candidate_Some opts locked h now d id q : next_candidate opts locked h now d = Some (id, q) ->
  queue d !! id = Some q /\ candidate opts h now d id q = true /\ locked id = false.
Proof.
  unfold next_candidate. intros Hh. assert (Hin : (id, q) ∈ stable_sort earlier (List.filter (fun '(id, q) => candidate opts h now d id q && negb (locked id)) (map_to_list (queue d)))).
  { destruct (stable_sort _ _); [done|]. injection Hh as ->. left. }
  apply elem_of_stable_sort in Hin. apply list_elem_of_In, filter_In in Hin as [Hin Hc].
  apply list_elem_of_In, elem_of_map_to_list in Hin. by reflect_bools.
Qed.
Lemma claim_next_Ok opts locked now d row d' : guards d -> claim_next opts locked now d = Ok (Some row, d') ->
  exists c c', replaced (ck_command row) c c' d d' /\ (cr_status c = C_ACCEPTED \/ cr_status c = C_RUNNING) /\ cr_status c' = C_RUNNING /\
    cr_fence c < cr_fence c' /\ ck_fence row = cr_fence c' /\ ck_logical row = cr_logical c /\ ck_claim row = cr_claim c.
Proof.
  intros G Hc. unfold claim_next in Hc. apply bind_Ok_inv in Hc as (h & _ & Hc). destruct (next_candidate opts locked h now d) as [[id q]|] eqn:Hn; [|by inv_ok].
  apply next_candidate_Some in Hn as (Hq & _ & _). destruct (commands d !! id) as [c|] eqn:Hcmd; [|by inv_ok]. destruct (admissions d !! id) as [a|]; [|by inv_ok].
  apply bind_Ok_inv in Hc as (? & _ & Hc). destruct (claims d !! cr_claim c) as [k|] eqn:Hk; [|by inv_ok].
  destruct (claim_current k c h && _ && _ && _) eqn:Hcur; [|by inv_ok]. inv_ok. simplify_eq. reflect_bools. unfold claim_current in *. reflect_bools.
  assert (Hs : cr_status c = C_ACCEPTED \/ cr_status c = C_RUNNING).
  { match goal with Hs : bool_decide (cr_status c = _) || _ = true |- _ => apply orb_true_iff in Hs as [Hs|Hs]; apply bool_decide_eq_true in Hs; auto end. }
  assert (Hf : final (cr_status c) = false) by (by destruct Hs as [-> | ->]).
  destruct (g_queue _ G _ _ Hq) as (r & Hr & Hqc & _). rewrite Hcmd in Hr. injection Hr as <-.
  exists c, (set_command C_RUNNING (cr_result c) (cr_error c) (cr_lineage c) (kc_fence k + 1) c). split; [|split_and!; [exact Hs|reflexivity|cbn; lia|reflexivity|reflexivity|exact Hqc]].
  split_and!; [|exact Hcmd|reflexivity..].
  apply (guards_refence id c k q (set_command C_RUNNING (cr_result c) (cr_error c) (cr_lineage c) (kc_fence k + 1) c)
           (advance_claim (workerId opts) (kc_fence k + 1) now k) (claim_item opts (qi_lease q + 1) (kc_fence k + 1) now q) d); try done.
Qed.
Lemma resume_Ok id owner ln u now d d' : guards d -> resume_command id owner ln u now d = Ok d' ->
  d' = d \/ exists c c', replaced id c c' d d' /\ cr_status c' = C_ACCEPTED /\ cr_fence c < cr_fence c'.
Proof.
  intros G Hr. unfold resume_command in Hr. destruct (resumable id u d) as [[[c q] k]|] eqn:Hres; [|inv_ok; by left].
  unfold resumable in Hres. destruct (commands d !! id) as [c0|] eqn:Hc; [|done]. destruct (queue d !! id) as [q0|] eqn:Hq; [|done].
  destruct (claims d !! cr_claim c0) as [k0|] eqn:Hk; [|done]. destruct (_ && _) eqn:Hb; [|done]. simplify_eq. reflect_bools.
  right. inv_ok. destruct (g_holds _ G _ _ Hc ltac:(assumption)) as (k' & Hk' & _ & _ & Hfe). rewrite Hk in Hk'. injection Hk' as <-.
  set (c' := set_command _ _ _ _ _ c) in *. exists c, c'. split; [|split; [done|cbn; lia]].
  set (d1 := set_queue _ _) in *.
  assert (Hd : commands d' = commands d1 /\ claims d' = claims d1 /\ queue d' = queue d1 /\ admissions d' = admissions d1 /\ checkpoints d' = checkpoints d1 /\
    (forall key, pending d' key = pending d1 key) /\ (forall key, is_Some (domains d1 !! key) -> is_Some (domains d' !! key))).
  { subst d'. destruct (admissions d !! id) as [a|]; [|by split_and!]. destruct (domains d !! ad_domain a) as [h|] eqn:Hh; [|by split_and!]. split_and!; try done.
    - intros key. unfold pending. cbn. destruct (decide (key = ad_domain a)) as [->|]; [by rewrite lookup_insert_eq, Hh|by rewrite lookup_insert_ne by congruence].
    - intros key Hkey. cbn. rewrite lookup_insert_is_Some'. auto. }
  destruct Hd as (Ecm & Ecl & Eq & Ead & Eck & Ep & Ed). split_and!; [|exact Hc|by rewrite Ecm|by rewrite Eck|done|done].
  by apply (guards_refence id c k q c' (resume_claim owner (kc_fence k + 1) now ln k) (resume_item (kc_fence k + 1) now ln q) d).
Qed.

Lemma terminalizeCommandGuards_same id logical claim d :
  commands (terminalizeCommandGuards id logical claim d) = commands d /\ checkpoints (terminalizeCommandGuards id logical claim d) = checkpoints d.
Proof.
  unfold terminalizeCommandGuards. destruct (terminalize_admission_same id d) as (_ & _ & _ & Hc & _ & Hk).
  destruct (claims (terminalize_admission id d) !! claim) as [k|]; [destruct (_ && _)|]; done.
Qed.
Lemma update_queue_same id g d : commands (update_queue id g d) = commands d /\ checkpoints (update_queue id g d) = checkpoints d.
Proof. unfold update_queue. by destruct (queue d !! id). Qed.
Lemma replaced_logs id c c' d d' t : replaced id c c' d d' -> replaced id c c' d (set_logs t d').
Proof. intros (G & ?). split; [by eapply guards_ext|done]. Qed.
Lemma replaced_failed id c c' d d' t : replaced id c c' d d' -> replaced id c c' d (set_failed t d').
Proof. intros (G & ?). split; [by eapply guards_ext|done]. Qed.
Lemma replaced_item id c c' g d d' : (forall q, qi_claim (g q) = qi_claim q /\ qi_fence (g q) = qi_fence q) -> replaced id c c' d d' -> replaced id c c' d (update_queue id g d').
Proof. intros Hg (G & ? & Hc & Hk & ?). destruct (update_queue_same id g d') as [Ec Ek]. split_and!; [by apply guards_item|done|by rewrite Ec|by rewrite Ek|naive_solver..]. Qed.
Lemma replaced_status id gc c d : guards d -> commands d !! id = Some c -> final (cr_status c) = false -> final (cr_status (gc c)) = false ->
  cr_logical (gc c) = cr_logical c -> cr_claim (gc c) = cr_claim c -> cr_fence (gc c) = cr_fence c -> replaced id c (gc c) d (update_command id gc d).
Proof. intros G Hc ? ? ? ? ?. unfold update_command. rewrite Hc. split_and!; try done. by apply (guards_status id c). Qed.
Lemma replaced_trans id c c' c2 d d' d2 : replaced id c c' d d' -> replaced id c' c2 d' d2 -> replaced id c c2 d d2.
Proof.
  intros (_ & Hc & E & Ek & ? & ?) (? & _ & E2 & Ek2 & ? & ?). split_and!; [done|done| | |congruence..].
  - by rewrite E2, E, insert_insert_eq.
  - congruence.
Qed.
Lemma idempotency_item id g t d : set_idempotency t (update_queue id g d) = update_queue id g (set_idempotency t d).
Proof. unfold update_queue. cbn. by destruct (queue d !! id). Qed.
Lemma command_item id gc g d : update_command id gc (update_queue id g d) = update_queue id g (update_command id gc d).
Proof. unfold update_command, update_queue. destruct (commands d !! id) eqn:Hc, (queue d !! id) eqn:Hq; cbn; by rewrite ?Hc, ?Hq. Qed.
(** The command is closed with its item and its response. *)
Lemma closed id gc g t c d : guards d -> commands d !! id = Some c -> final (cr_status c) = false -> final (cr_status (gc c)) = true ->
  cr_logical (gc c) = cr_logical c -> cr_claim (gc c) = cr_claim c -> cr_fence (gc c) = cr_fence c ->
  (cr_status (gc c) = C_FAILED_FINAL -> checkpoints d !! id = None) -> (forall q, qi_claim (g q) = qi_claim q /\ qi_fence (g q) = qi_fence q) ->
  replaced id c (gc c) d (terminalizeCommandGuards id (cr_logical c) (cr_claim c) (update_queue id g (set_idempotency t (update_command id gc d)))).
Proof.
  intros G Hc Hf Hf' Hl Hcl Hfe Hfail Hg. unfold update_command. rewrite Hc. set (d1 := set_idempotency t (update_queue id g d)).
  assert (E : update_queue id g (set_idempotency t (set_commands (<[id:=gc c]> (commands d)) d)) = set_commands (<[id := gc c]> (commands d1)) d1).
  { unfold d1, update_queue. cbn. by destruct (queue d !! id). }
  rewrite E. destruct (update_queue_same id g d) as [Hcm Hck].
  destruct (terminalizeCommandGuards_same id (cr_logical c) (cr_claim c) (set_commands (<[id := gc c]> (commands d1)) d1)) as [Tc Tk].
  split_and!; [|done| |by rewrite Tk|done|done].
  - apply (guards_close id c (gc c)); try done; [by apply guards_idempotency, guards_item|by cbn; rewrite Hcm|by cbn; rewrite Hck].
  - rewrite Tc. cbn. by rewrite Hcm.
Qed.

Lemma worker_complete_Ok opts row out time now d d' : guards d -> flight_row d row -> complete opts row out time now d = Ok d' ->
  exists c c' p, replaced (ck_command row) c c' d d' /\ current_flight d row c /\ cr_status c' = C_SUCCEEDED /\ cr_fence c' = cr_fence c /\
    checkpoints d !! ck_command row = Some p /\ cr_result c' = Some (jsonSafe (cp_output p)).
Proof.
  intros G Hfl Hc. unfold complete in Hc. apply bind_Ok_inv in Hc as (h & _ & Hc). apply bind_Ok_inv in Hc as (p & Hp & Hc). apply or_throw_Ok in Hp.
  apply bind_Ok_inv in Hc as (? & _ & Hc). apply bind_Ok_inv in Hc as (d1 & Hv & Hc).
  destruct (verified_current _ _ _ _ _ _ G Hfl Hv) as [c Hcur]. apply verify_quiet in Hv as ->.
  do 6 (apply bind_Ok_inv in Hc as (? & _ & Hc)). apply audit_same in Hc as [l ->].
  pose proof Hcur as (Hcm & Hs & Hl & Hcl & Hfe). rewrite <- Hl, <- Hcl.
  eexists c, _, p. split; [apply replaced_logs, closed; try done; by rewrite Hs|done].
Qed.
Lemma fail_Ok opts row e time now d d' : guards d -> flight_row d row -> fail opts reg row e time now d = Ok d' ->
  checkpoints d !! ck_command row = None /\ exists c, current_flight d row c /\
    (d' = d \/ exists c', replaced (ck_command row) c c' d d' /\ cr_status c' <> C_SUCCEEDED /\ cr_fence c' = cr_fence c).
Proof.
  intros G Hfl Hc. unfold fail in Hc. apply bind_Ok_inv in Hc as (h & _ & Hc). apply bind_Ok_inv in Hc as (? & Hp & Hc). apply throw_if_Ok in Hp.
  apply bind_Ok_inv in Hc as (d1 & Hv & Hc). destruct (verified_current _ _ _ _ _ _ G Hfl Hv) as [c Hcur]. apply verify_quiet in Hv as ->.
  assert (Hck : checkpoints d !! ck_command row = None) by (by destruct (checkpoints d !! _)). clear Hp. split; [done|]. exists c. split; [done|].
  pose proof Hcur as (Hcm & Hs & Hl & Hcl & Hfe).
  destruct (queue d !! ck_command row) as [q|]; [|inv_ok; by left]. destruct (_ || _); [inv_ok; by left|].
  apply bind_Ok_inv in Hc as (f & _ & Hc). apply bind_Ok_inv in Hc as (plan & _ & Hc). apply bind_Ok_inv in Hc as (y & _ & Hc). right.
  set (d1 := set_failed y d) in *. assert (G1 : guards d1) by (by eapply guards_ext).
  enough (exists c', replaced (ck_command row) c c' d1 d' /\ cr_status c' <> C_SUCCEEDED /\ cr_fence c' = cr_fence c) as (c' & (? & ? & ? & ?) & ?) by (exists c'; done).
  assert (Hnf : final (cr_status c) = false) by (by rewrite Hs). cbv zeta in Hc.
  assert (Hclose : forall t, replaced (ck_command row) c (with_status C_FAILED_FINAL (Some (failure_json f)) c) d1
    (terminalizeCommandGuards (ck_command row) (ck_logical row) (ck_claim row) (set_idempotency t
      (update_queue (ck_command row) (fun q => release_item Q_FAILED_FINAL (qi_available q) q) (update_command (ck_command row) (with_status C_FAILED_FINAL (Some (failure_json f))) d1))))).
  { intros t. rewrite idempotency_item, <- Hl, <- Hcl. by apply closed. }
  assert (Hput : forall s g, final s = false -> (forall q, qi_claim (g q) = qi_claim q /\ qi_fence (g q) = qi_fence q) ->
    replaced (ck_command row) c (with_status s (Some (failure_json f)) c) d1 (update_queue (ck_command row) g (update_command (ck_command row) (with_status s (Some (failure_json f))) d1))).
  { intros s g Hs' Hg. apply replaced_item, replaced_status; done. }
  destruct (action plan).
  - inv_ok. subst d'. exists (with_status C_FAILED_FINAL (Some (failure_json f)) c). split; [|done]. first [apply Hclose|apply replaced_failed, Hclose].
  - inv_ok. subst d'. exists (with_status C_ACCEPTED (Some (failure_json f)) c). split; [|done]. apply replaced_failed.
    rewrite command_item. by apply Hput.
  - inv_ok. subst d'. exists (with_status C_FAILED_FINAL (Some (failure_json f)) c). split; [|done]. first [apply Hclose|apply replaced_failed, Hclose].
  - inv_ok. subst d'. exists (with_status C_WAITING (Some (failure_json f)) c). split; [|done]. by apply Hput.
  - inv_ok. subst d'. exists (with_status C_MANUAL_REVIEW (Some (failure_json f)) c). split; [|done]. apply replaced_failed. by apply Hput.
Qed.

Lemma end_replaced_Ok id version time d d' : guards d -> (forall c, commands d !! id = Some c -> cr_status c = C_WAITING -> checkpoints d !! id = None) ->
  end_replaced reg id version time d = Ok d' ->
  d' = d \/ exists c c', replaced id c c' d d' /\ cr_status c = C_WAITING /\ cr_status c' = C_FAILED_FINAL /\ cr_fence c' = cr_fence c.
Proof.
  intros G Hck He. unfold end_replaced in He. inv_ok. destruct (bool_decide_reflect (cr_status a0 = C_WAITING)) as [Hs|]; [|inv_ok; by left].
  right. unfold terminalizeReplacedCommand in He. apply bind_Ok_inv in He as (f & _ & He). inv_ok. subst d'.
  set (gc := fun c : command_row => if bool_decide (cr_status c = C_WAITING) then with_status C_FAILED_FINAL (cr_error c) c else c).
  assert (Egc : gc a0 = with_status C_FAILED_FINAL (cr_error a0) a0) by (unfold gc; by rewrite bool_decide_true).
  exists a0, (gc a0). split; [|by rewrite Egc].
  match goal with |- replaced _ _ _ _ (terminalizeCommandGuards _ _ _ (set_idempotency ?t _)) =>
    pose proof (closed id gc (fun q => q) t a0 d) as Hc end.
  assert (E : forall d0, update_queue id (fun q : queue_row => q) d0 = d0).
  { intros d0. unfold update_queue. destruct (queue d0 !! id) as [q|] eqn:Hq; [|done]. rewrite insert_id by done. by destruct d0. }
  rewrite E in Hc. apply Hc; try done; rewrite ?Egc; try done; [by rewrite Hs|]. intros _. by eapply Hck.
Qed.
Lemma review_Ok k id d : guards d ->
  same_commands d (createManualReview k id d) \/
  exists c c', replaced id c c' d (createManualReview k id d) /\ cr_status c = C_WAITING /\ cr_status c' = C_MANUAL_REVIEW /\ cr_fence c' = cr_fence c.
Proof.
  intros G. unfold createManualReview. set (x := match plans _ !! k with Some _ => _ | None => _ end). clearbody x. set (d1 := set_failed x d).
  assert (G1 : guards d1) by (by eapply guards_ext). unfold update_command. destruct (commands d1 !! id) as [c|] eqn:Hc; [|by left].
  destruct (bool_decide_reflect (cr_status c = C_WAITING)) as [Hs|]; [right|left; rewrite insert_id by done; by split].
  exists c, (with_status C_MANUAL_REVIEW (cr_error c) c). split; [|done]. split_and!; try done. apply (guards_status id c); try done. by rewrite Hs.
Qed.
End Transactions.

(** *** The invariant of the system *)

Section Invariant.
Context `{L : Locale} `{H : Hash} `{F : Formats} {W : Type} `{D : CommandDomain W} `{M : CommandHandlers W} `{Law : !LawfulHandlers}.
Context (cat : OperationCatalogService) (reg : gmap string StableErrorRecord).
Implicit Type d : cmd_db W.

Definition flight_key (f : claimed * phase) : string * Z := claim_of f.1.
(** A command in one of these states was never applied. *)
Definition unapplied (s : command_status) : Prop := s = C_WAITING \/ s = C_MANUAL_REVIEW \/ s = C_FAILED_FINAL.
Record safe (s : system) : Prop := {
  v_guards : guards (db s);
  v_flights : forall f, f ∈ flights s -> flight_ok (db s) f;
  v_distinct : NoDup (map flight_key (flights s));
  v_once : NoDup (map fst (applied (ran s)));
  v_ran : forall id out, (id, out) ∈ applied (ran s) <-> exists p, checkpoints (db s) !! id = Some p /\ cp_output p = out;
  v_unapplied : forall id c, commands (db s) !! id = Some c -> unapplied (cr_status c) -> checkpoints (db s) !! id = None;
  v_done : forall id c, commands (db s) !! id = Some c -> cr_status c = C_SUCCEEDED ->
           exists p, checkpoints (db s) !! id = Some p /\ cr_result c = Some (jsonSafe (cp_output p));
}.

Lemma flight_ok_grow d d' f : commands d' = commands d -> (forall id p, checkpoints d !! id = Some p -> checkpoints d' !! id = Some p) -> flight_ok d f -> flight_ok d' f.
Proof.
  intros Hc Hk [Hr Hp]. split; [unfold flight_row in *; by rewrite Hc|]. destruct f.2; try done. destruct Hp as (p & Hp & ?). eauto.
Qed.
(** What a new row of its command may do to a worker in flight *)
Definition spares (id : string) (c c' : command_row) (f : claimed * phase) : Prop := ck_command f.1 = id ->
  cr_fence c < cr_fence c' \/ cr_fence c' = cr_fence c /\ (cr_status c' = cr_status c \/ ck_fence f.1 <> cr_fence c).
Lemma flight_ok_replaced id c c' d d' f : replaced id c c' d d' -> spares id c c' f -> flight_ok d f -> flight_ok d' f.
Proof.
  intros (_ & Hc & Ec & Ek & Hl & Hcl) Hs [(c0 & Hc0 & Hl0 & Hcl0 & Hle & Hr) Hp]. split; [|by rewrite Ek]. unfold flight_row. rewrite Ec.
  destruct (decide (ck_command f.1 = id)) as [E|].
  - pose proof (Hs E) as Hsp. rewrite E, lookup_insert_eq. rewrite E in Hc0. simplify_eq. exists c'. destruct Hsp as [Hlt|[He Hst]].
    + split_and!; [done|congruence|congruence|lia|lia].
    + rewrite He. split_and!; [done|congruence|congruence|done|]. intros Hfe. destruct Hst as [->|]; [auto|done].
  - rewrite lookup_insert_ne by congruence. by exists c0.
Qed.
Lemma safe_drop d fl1 f fl2 l : safe (Sys d (fl1 ++ f :: fl2) l) -> safe (Sys d (fl1 ++ fl2) l).
Proof.
  intros []; cbn in *. split; cbn; try done.
  - intros g Hg. apply v_flights0. rewrite elem_of_app, elem_of_cons in *. tauto.
  - rewrite map_app in *. cbn in *. apply NoDup_app in v_distinct0 as (? & Hd & Hn). apply NoDup_cons in Hn as [_ ?]. apply NoDup_app.
    split_and!; [done| |done]. intros k Hk Hk2. apply (Hd k Hk). by right.
Qed.
Lemma safe_phase d fl1 row ph ph' fl2 l : safe (Sys d (fl1 ++ (row, ph) :: fl2) l) ->
  match ph' with Applied out => exists p, checkpoints d !! ck_command row = Some p /\ cp_output p = out | _ => True end -> safe (Sys d (fl1 ++ (row, ph') :: fl2) l).
Proof.
  intros [] Hp; cbn in *. split; cbn; try done.
  - intros g Hg. apply elem_of_app in Hg as [Hg|Hg]; [apply v_flights0; set_solver|]. apply elem_of_cons in Hg as [->|Hg]; [|apply v_flights0; set_solver].
    split; [|done]. by destruct (v_flights0 (row, ph) ltac:(set_solver)).
  - by rewrite map_app in *.
Qed.
Lemma safe_same d d' fl l : guards d' -> commands d' = commands d -> checkpoints d' = checkpoints d -> safe (Sys d fl l) -> safe (Sys d' fl l).
Proof.
  intros G Hc Hk []; cbn in *. split; cbn; rewrite ?Hc, ?Hk; try done. intros f Hf. eapply flight_ok_grow; [exact Hc|by rewrite Hk|auto].
Qed.
Lemma safe_replaced id c c' d d' fl l : safe (Sys d fl l) -> replaced id c c' d d' -> (forall f, f ∈ fl -> spares id c c' f) ->
  (unapplied (cr_status c') -> checkpoints d !! id = None) ->
  (cr_status c' = C_SUCCEEDED -> exists p, checkpoints d !! id = Some p /\ cr_result c' = Some (jsonSafe (cp_output p))) -> safe (Sys d' fl l).
Proof.
  intros [] Hr Hf Hu Hd; cbn in *. pose proof Hr as (G & Hc & Ec & Ek & _). split; cbn; rewrite ?Ec, ?Ek; try done.
  - intros f Hin. eapply flight_ok_replaced; eauto.
  - intros id2 c2. rewrite lookup_insert_Some. intros [[<- <-]|[? ?]]; eauto.
  - intros id2 c2. rewrite lookup_insert_Some. intros [[<- <-]|[? ?]]; eauto.
Qed.
Lemma safe_outcome row out fresh e d d' fl l : e = MUTATED out \/ e = RECONCILED out ->
  safe (Sys d fl l) -> outcome row out fresh d d' -> safe (Sys d' fl (ran_more row fresh e l)).
Proof.
  intros He S (G & Hc & (c & Hcm & Hs & _) & Hk). destruct fresh; [|destruct Hk as [Hk _]; by apply (safe_same d)].
  destruct Hk as (Hno & p & Hp & Hk).
  assert (Ea : applied (ran_more row true e l) = (ck_command row, out) :: applied l) by (by destruct He as [-> | ->]).
  destruct S; cbn in *. split; cbn; rewrite ?Hc, ?Hk; try done; rewrite ?Ea.
  - intros f Hf. eapply flight_ok_grow; [exact Hc| |auto]. intros id p0 Hp0. rewrite Hk, lookup_insert_ne by congruence. done.
  - constructor; [|done]. intros Hin. apply list_elem_of_In, in_map_iff in Hin as ([id o] & E & Hin). cbn in E. subst id.
    apply list_elem_of_In, v_ran0 in Hin as (p0 & ? & _). congruence.
  - intros id o. rewrite elem_of_cons, v_ran0. destruct (decide (id = ck_command row)) as [->|].
    + rewrite lookup_insert_eq. rewrite Hno. naive_solver.
    + rewrite lookup_insert_ne by congruence. naive_solver.
  - intros id c2 Hc2 Hu. destruct (decide (id = ck_command row)) as [->|]; [|rewrite lookup_insert_ne by congruence; eauto].
    simplify_eq. rewrite Hs in Hu. by destruct Hu as [|[|]].
  - intros id c2 Hc2 Hd. destruct (decide (id = ck_command row)) as [->|]; [congruence|]. rewrite lookup_insert_ne by congruence. eauto.
Qed.
Lemma safe_log row b e d fl l : match e with MUTATED _ | RECONCILED _ => False | _ => True end -> safe (Sys d fl l) -> safe (Sys d fl (ran_more row b e l)).
Proof.
  intros He S. assert (Ea : applied (ran_more row b e l) = applied l) by (by destruct b, e).
  destruct S. cbn in *. by split; cbn [db flights ran]; try rewrite Ea.
Qed.
(** The other workers in flight are not the current one. *)
Lemma others_spared row ph c c' d fl1 fl2 l : safe (Sys d (fl1 ++ (row, ph) :: fl2) l) -> cr_fence c = ck_fence row -> cr_fence c' = cr_fence c ->
  forall f, f ∈ fl1 ++ fl2 -> spares (ck_command row) c c' f.
Proof.
  intros S Hc Hc' f Hf E. right. split; [done|right]. rewrite Hc. intros E2. pose proof (v_distinct _ S) as Hn. cbn in Hn. rewrite map_app in Hn. cbn in Hn.
  rewrite <- Permutation_middle in Hn. apply NoDup_cons in Hn as [Hn _]. apply Hn. rewrite <- map_app. apply list_elem_of_In, in_map_iff.
  exists f. split; [|by apply list_elem_of_In]. unfold flight_key, claim_of. cbn. congruence.
Qed.

Lemma execute_Ok name input x f d r d' : execute cat name input x f d = Ok (r, d') -> d' = d \/ exists o c key, admit_command o c key x f d = Ok (r, d').
Proof.
  intros He. unfold execute in He. apply bind_Ok_inv in He as (o & _ & He). apply bind_Ok_inv in He as (? & _ & He). apply bind_Ok_inv in He as (i & _ & He).
  apply bind_Ok_inv in He as (c & _ & He). do 2 (apply bind_Ok_inv in He as (? & _ & He)). destruct (read_only o).
  - left. inv_ok. by simplify_eq.
  - right. apply bind_Ok_inv in He as (key & _ & He). eauto.
Qed.
Lemma safe_execute name input x f d r d' fl l : safe (Sys d fl l) -> execute cat name input x f d = Ok (r, d') -> safe (Sys d' fl l).
Proof.
  intros S He. apply execute_Ok in He as [->|(o & c & key & Ha)]; [done|]. pose proof (guards_admit _ _ _ _ _ _ _ _ (v_guards _ S) Ha) as G.
  apply admit_command_Ok in Ha as (h & epoch & _ & _ & _ & _ & Ha). destruct (idempotency d !! _); [by destruct Ha as [-> _]|]. destruct Ha as [row A].
  destruct (am_claim _ _ _ _ _ _ _ _ _ _ A) as (n & k & _ & _ & _ & Hnew & Hcm & _). destruct (am_same _ _ _ _ _ _ _ _ _ _ A) as (Hk & _). cbn in *.
  destruct S; cbn in *. split; cbn; rewrite ?Hk; try done.
  - intros g Hg. destruct (v_flights0 g Hg) as [(c0 & Hc0 & ?) ?]. split; [|by rewrite Hk]. exists c0. by rewrite Hcm, lookup_insert_ne by congruence.
  - intros id c2. rewrite Hcm, lookup_insert_Some. intros [[<- <-]|[? ?]]; [|eauto]. by intros [|[|]].
  - intros id c2. rewrite Hcm, lookup_insert_Some. intros [[<- <-]|[? ?]]; [done|eauto].
Qed.
Lemma safe_claim opts locked now d row d' fl l : safe (Sys d fl l) -> claim_next opts locked now d = Ok (Some row, d') -> safe (Sys d' ((row, Claimed) :: fl) l).
Proof.
  intros S Hc. destruct (claim_next_Ok _ _ _ _ _ _ (v_guards _ S) Hc) as (c & c' & Hr & Hs & Hs' & Hf & Hrf & Hrl & Hrc).
  assert (S' : safe (Sys d' fl l)).
  { eapply (safe_replaced _ c c'); [exact S|exact Hr|by intros f _ _; left| |congruence]. rewrite Hs'. by intros [|[|]]. }
  pose proof (v_flights _ S) as Hfl. pose proof Hr as (_ & Hcm & Ec & _ & Hl' & Hcl'). destruct S'; cbn in *. split; cbn; try done.
  - intros f Hin. apply elem_of_cons in Hin as [->|]; [|auto]. split; [|done]. exists c'. cbn. rewrite Ec, lookup_insert_eq. split_and!; [done|congruence|congruence|lia|done].
  - constructor; [|done]. intros Hin. apply list_elem_of_In, in_map_iff in Hin as (f & E & Hin). apply list_elem_of_In in Hin.
    destruct (Hfl f Hin) as [(c0 & Hc0 & _ & _ & Hle & _) _]. injection E as E1 E2. rewrite E1 in Hc0. cbn in Hc0. simplify_eq. lia.
Qed.

Lemma safe_step s s' : safe s -> step cat reg s s' -> safe s'.
Proof.
  intros S St. destruct St.
  - by eapply safe_execute.
  - by eapply safe_claim.
  - destruct r as [out fresh]. assert (Ho : outcome row out fresh d d') by (eapply apply_outcome; [apply S| |done]; by destruct (v_flights _ S (row, Claimed) ltac:(set_solver))).
    eapply safe_phase; [by eapply safe_outcome; [left|..]|]. cbn. destruct Ho as (_ & _ & _ & Ho). destruct fresh; [destruct Ho as (_ & p & ? & ->); exists p; by rewrite lookup_insert_eq|].
    destruct Ho as (-> & ?). done.
  - destruct r as [out fresh]. assert (Ho : outcome row out fresh d d') by (eapply apply_outcome; [apply S| |done]; by destruct (v_flights _ S (row, Claimed) ltac:(set_solver))).
    eapply safe_phase; [by eapply safe_outcome; [left|..]|done].
  - destruct (prepare_spec cat row now d q d' (v_guards _ S)) as (G & Hc & Hk & Hq); [by destruct (v_flights _ S (row, Claimed) ltac:(set_solver))|done|].
    eapply safe_phase; [apply safe_log; [done|by eapply safe_same]|]. destruct q; [by rewrite Hk|done].
  - eapply safe_phase; [by apply safe_log|done].
  - destruct r as [r fresh]. assert (Ho := reconcile_outcome row p execution now d r fresh d' (v_guards _ S)). 
    specialize (Ho ltac:(by destruct (v_flights _ S (row, Executed p execution) ltac:(set_solver))) ltac:(done)). destruct r as [out|e]; cbn.
    + eapply safe_phase; [by eapply safe_outcome; [right|..]|]. destruct Ho as (_ & _ & _ & Ho). destruct fresh; [destruct Ho as (_ & p' & ? & ->); exists p'; by rewrite lookup_insert_eq|].
      destruct Ho as (-> & ?). done.
    + destruct Ho as (? & ? & ?). eapply safe_phase; [apply (safe_log row true); [done|by eapply safe_same]|done].
  - by eapply safe_phase.
  - destruct (worker_complete_Ok opts row out time now d d' (v_guards _ S)) as (c & c' & p & Hr & (_ & Hs & _ & _ & Hfe) & Hs' & Hf & Hp & Hres);
      [by destruct (v_flights _ S (row, Applied out) ltac:(set_solver))|done|].
    eapply (safe_replaced _ c c'); [by eapply safe_drop|exact Hr|by eapply others_spared| |eauto]. rewrite Hs'. by intros [|[|]].
  - destruct (fail_Ok reg opts row e time now d d' (v_guards _ S)) as (Hk & c & (_ & _ & _ & _ & Hfe) & Hd);
      [by destruct (v_flights _ S (row, Failing e) ltac:(set_solver))|done|].
    destruct Hd as [->|(c' & Hr & Hs' & Hf)]; [by eapply safe_drop|].
    eapply (safe_replaced _ c c'); [by eapply safe_drop|exact Hr|by eapply others_spared|done|done].
  - by eapply safe_drop.
  - destruct (end_replaced_Ok reg id version time d d' (v_guards _ S)) as [->|(c & c' & Hr & Hs & Hs' & Hf)]; [|done|done|].
    + intros c Hc Hs. eapply (v_unapplied _ S); [exact Hc|by left].
    + eapply (safe_replaced _ c c'); [exact S|exact Hr| | |congruence].
      * intros f Hin E. right. split; [done|right]. destruct (v_flights _ S f Hin) as [(c0 & Hc0 & _ & _ & _ & Hrun) _]. cbn in Hc0.
        destruct Hr as (_ & Hc & _). rewrite E in Hc0. simplify_eq. intros E2. apply Hrun in E2. congruence.
      * intros _. destruct Hr as (_ & Hc & _). eapply (v_unapplied _ S); [exact Hc|by left].
  - destruct (review_Ok k id d (v_guards _ S)) as [Hs|(c & c' & Hr & Hs & Hs' & Hf)].
    + eapply safe_same; [by eapply guards_same; [apply S|]|apply Hs|apply Hs|exact S].
    + eapply (safe_replaced _ c c'); [exact S|exact Hr| | |congruence].
      * intros f Hin E. right. split; [done|right]. destruct (v_flights _ S f Hin) as [(c0 & Hc0 & _ & _ & _ & Hrun) _]. cbn in Hc0.
        destruct Hr as (_ & Hc & _). rewrite E in Hc0. simplify_eq. intros E2. apply Hrun in E2. congruence.
      * intros _. destruct Hr as (_ & Hc & _). eapply (v_unapplied _ S); [exact Hc|by left].
  - destruct (resume_Ok id owner ln uncertain now d d' (v_guards _ S)) as [->|(c & c' & Hr & Hs & Hf)]; [done..|].
    eapply (safe_replaced _ c c'); [exact S|exact Hr|by intros f _ _; left| |congruence]. rewrite Hs. by intros [|[|]].
  - eapply safe_same; [by eapply guards_same; [apply S|]|apply H0|apply H0|exact S].
Qed.

(** **** The log: what each worker did under its claim *)

Definition kept d d' : Prop := forall id c, commands d !! id = Some c -> exists c', commands d' !! id = Some c' /\ cr_fence c <= cr_fence c'.
Lemma same_kept d d' : commands d' = commands d -> kept d d'.
Proof. intros Hc id c. rewrite Hc. eauto with lia. Qed.
Lemma replaced_kept id c c' d d' : replaced id c c' d d' -> cr_fence c <= cr_fence c' -> kept d d'.
Proof.
  intros (_ & Hc & E & _) Hle id2 c2 Hc2. rewrite E. destruct (decide (id2 = id)) as [->|]; [rewrite lookup_insert_eq|rewrite lookup_insert_ne by congruence; eauto with lia].
  simplify_eq. eauto.
Qed.
Lemma execute_kept name input x f d r d' : execute cat name input x f d = Ok (r, d') -> kept d d'.
Proof.
  intros He. apply execute_Ok in He as [->|(o & c & key & Ha)]; [by apply same_kept|]. apply admit_command_Ok in Ha as (h & epoch & _ & _ & _ & _ & Ha).
  destruct (idempotency d !! _); [destruct Ha as [-> _]; by apply same_kept|]. destruct Ha as [row A].
  destruct (am_claim _ _ _ _ _ _ _ _ _ _ A) as (n & k & _ & _ & _ & Hnew & Hcm & _). cbn in *.
  intros id c2 Hc2. rewrite Hcm, lookup_insert_ne by congruence. eauto with lia.
Qed.
Lemma step_kept s s' : safe s -> step cat reg s s' -> kept (db s) (db s').
Proof.
  intros S St. pose proof (v_guards _ S) as G. pose proof (v_flights _ S) as Hfl.
  assert (Hrow : forall row ph d fl1 fl2 l, s = Sys d (fl1 ++ (row, ph) :: fl2) l -> flight_row d row) by (intros row ph d fl1 fl2 l ->; by destruct (Hfl (row, ph) ltac:(set_solver))).
  destruct St; cbn in *; try (by apply same_kept); try (specialize (Hrow row _ d fl1 fl2 l eq_refl)).
  - by eapply execute_kept.
  - destruct (claim_next_Ok _ _ _ _ _ _ G ltac:(eassumption)) as (c & c' & Hr & _ & _ & Hf & _). eapply replaced_kept; [exact Hr|lia].
  - destruct r. apply same_kept. by eapply apply_outcome.
  - destruct r. apply same_kept. by eapply apply_outcome.
  - apply same_kept. by eapply prepare_spec.
  - destruct r as [r fresh]. apply same_kept. pose proof (reconcile_outcome _ _ _ _ _ _ _ _ G Hrow ltac:(eassumption)) as Ho. destruct r; apply Ho.
  - destruct (worker_complete_Ok _ _ _ _ _ _ _ G Hrow ltac:(eassumption)) as (c & c' & p & Hr & _ & _ & Hf & _). eapply replaced_kept; [exact Hr|lia].
  - destruct (fail_Ok _ _ _ _ _ _ _ _ G Hrow ltac:(eassumption)) as (_ & c & _ & [->|(c' & Hr & _ & Hf)]); [by apply same_kept|eapply replaced_kept; [exact Hr|lia]].
  - destruct (end_replaced_Ok reg id version time d d' G) as [->|(c & c' & Hr & _ & _ & Hf)]; [|done|by apply same_kept|eapply replaced_kept; [exact Hr|lia]].
    intros c Hc Hs. eapply (v_unapplied _ S); [exact Hc|by left].
  - destruct (review_Ok k id d G) as [Hs|(c & c' & Hr & _ & _ & Hf)]; [apply same_kept, Hs|eapply replaced_kept; [exact Hr|lia]].
  - destruct (resume_Ok id owner ln uncertain now d d' G ltac:(eassumption)) as [->|(c & c' & Hr & _ & Hf)]; [by apply same_kept|eapply replaced_kept; [exact Hr|lia]].
  - apply same_kept. apply H0.
Qed.

(** What the log holds of a worker in flight *)
Definition phase_ok (f : claimed * phase) (l : run_log) : Prop :=
  match f.2 with
  | Claimed => forall e, (flight_key f, e) ∉ l
  | Prepared _ => (flight_key f, PREPARED) ∈ l /\ (flight_key f, EXECUTED) ∉ l
  | Executed _ _ => (flight_key f, EXECUTED) ∈ l
  | Applied _ | Failing _ => True
  end.
Record traced (s : system) : Prop := {
  t_known : forall k e, (k, e) ∈ ran s -> exists c, commands (db s) !! k.1 = Some c /\ k.2 <= cr_fence c;
  t_once : NoDup (attempts (ran s));
  t_explained : explained (ran s);
  t_phase : forall f, f ∈ flights s -> phase_ok f (ran s);
}.
Lemma traced_kept d d' fl l : traced (Sys d fl l) -> kept d d' -> traced (Sys d' fl l).
Proof. intros [] Hk. split; try done. cbn in *. intros k e Hin. destruct (t_known0 _ _ Hin) as (c & Hc & ?). destruct (Hk _ _ Hc) as (c' & ? & ?). exists c'. split; [done|lia]. Qed.
Lemma traced_drop d fl1 f fl2 l : traced (Sys d (fl1 ++ f :: fl2) l) -> traced (Sys d (fl1 ++ fl2) l).
Proof. intros []. split; try done. cbn in *. intros g Hg. apply t_phase0. set_solver. Qed.
Lemma traced_phase d fl1 row ph ph' fl2 l : traced (Sys d (fl1 ++ (row, ph) :: fl2) l) -> phase_ok (row, ph') l -> traced (Sys d (fl1 ++ (row, ph') :: fl2) l).
Proof. intros [] Hp. split; try done. cbn in *. intros g Hg. apply elem_of_app in Hg as [Hg|[->|Hg]%elem_of_cons]; [apply t_phase0; set_solver|done|apply t_phase0; set_solver]. Qed.
(** An entry under another claim says nothing of this worker. *)
Lemma phase_ok_other f k e l : k <> flight_key f -> phase_ok f l -> phase_ok f ((k, e) :: l).
Proof.
  intros Hk. unfold phase_ok. destruct f.2; [| |by right|done..].
  - intros Hn e' [E|Hin]%elem_of_cons; [congruence|by eapply Hn].
  - intros [Hp Hn]. split; [by right|]. intros [E|Hin]%elem_of_cons; [congruence|done].
Qed.
Lemma traced_log d fl1 row ph ph' fl2 l e : safe (Sys d (fl1 ++ (row, ph) :: fl2) l) -> traced (Sys d (fl1 ++ (row, ph) :: fl2) l) ->
  cause (claim_of row, e) l -> match e with PREPARED | EXECUTED => (claim_of row, e) ∉ l | _ => True end -> phase_ok (row, ph') ((claim_of row, e) :: l) ->
  traced (Sys d (fl1 ++ (row, ph') :: fl2) ((claim_of row, e) :: l)).
Proof.
  intros S [] Hc Hn Hp. pose proof (v_distinct _ S) as Hd. cbn in *. rewrite map_app in Hd. cbn in Hd. rewrite <- Permutation_middle, <- map_app in Hd. apply NoDup_cons in Hd as [Hd _].
  assert (Hoth : forall g, g ∈ fl1 ++ fl2 -> phase_ok g ((claim_of row, e) :: l)).
  { intros g Hg. apply phase_ok_other; [|apply t_phase0; set_solver]. intros E. apply Hd, list_elem_of_In, in_map_iff. exists g. split; [done|by apply list_elem_of_In]. }
  split; cbn.
  - intros k e0 [E|Hin]%elem_of_cons; [|eauto]. simplify_eq. destruct (v_flights _ S (row, ph) ltac:(set_solver)) as [(c & Hcm & _ & _ & Hle & _) _]. by exists c.
  - destruct e; try done; constructor; try done; intros Hin; apply Hn; apply list_elem_of_In in Hin; apply List.filter_In in Hin as [Hin _]; by apply list_elem_of_In.
  - done.
  - intros g Hg. apply elem_of_app in Hg as [Hg|[->|Hg]%elem_of_cons]; [apply Hoth; set_solver|done|apply Hoth; set_solver].
Qed.
Lemma traced_more d fl1 row ph ph' fl2 l b e : safe (Sys d (fl1 ++ (row, ph) :: fl2) l) -> traced (Sys d (fl1 ++ (row, ph) :: fl2) l) ->
  cause (claim_of row, e) l -> match e with PREPARED | EXECUTED => (claim_of row, e) ∉ l | _ => True end -> phase_ok (row, ph') (ran_more row b e l) ->
  traced (Sys d (fl1 ++ (row, ph') :: fl2) (ran_more row b e l)).
Proof. destruct b; [apply traced_log|intros _ T _ _; by apply (traced_phase d fl1 row ph)]. Qed.
Lemma traced_step s s' : safe s -> traced s -> step cat reg s s' -> traced s'.
Proof.
  intros S T St. pose proof (step_kept _ _ S St) as K. pose proof (t_phase _ T) as Hph.
  destruct St as [| | | |row now d q d' fl1 fl2 l Hq|row p ex d fl1 fl2 l|row p ex now d r d' fl1 fl2 l Hr| | | | | | | |]; cbn in *; try (eapply traced_kept; [|exact K]); try done; try (by eapply traced_drop).
  - destruct T. cbn in *. split; cbn; try done. intros f [->|Hf]%elem_of_cons; [|auto]. intros e Hin. destruct (t_known0 _ _ Hin) as (c & Hc & Hle).
    destruct (claim_next_Ok _ _ _ _ _ _ (v_guards _ S) ltac:(eassumption)) as (c0 & c' & (_ & Hc0 & _) & _ & _ & Hlt & Hf & _). cbn in *. simplify_eq. lia.
  - by apply (traced_more d fl1 row Claimed).
  - by apply (traced_more d fl1 row Claimed).
  - specialize (Hph (row, Claimed) ltac:(set_solver)). apply (traced_more d fl1 row Claimed); [done|done|done|by apply Hph|].
    destruct q; [done|]. split; [by left|]. intros [?|Hin]%elem_of_cons; [congruence|by apply Hph in Hin].
  - specialize (Hph (row, Prepared p) ltac:(set_solver)). destruct Hph as [Hp Hn]. apply (traced_log d fl1 row (Prepared p)); [done..|by left].
  - specialize (Hph (row, Executed p ex) ltac:(set_solver)). destruct r as [[out|e] fresh]; [by apply (traced_more d fl1 row (Executed p ex))|by apply (traced_log d fl1 row (Executed p ex))].
  - by eapply traced_phase.
Qed.
End Invariant.

(** *** Fencing tokens only grow *)

Section Fences.
Context `{L : Locale} `{H : Hash} `{F : Formats} {W : Type} `{D : CommandDomain W} `{M : CommandHandlers W} `{Law : !LawfulHandlers}.
Context (cat : OperationCatalogService) (reg : gmap string StableErrorRecord).
Implicit Type d : cmd_db W.

Definition fences_le d d' : Prop := forall key k, claims d !! key = Some k -> exists k', claims d' !! key = Some k' /\ kc_fence k <= kc_fence k'.
#[export] Instance fences_le_refl : Reflexive fences_le.
Proof. intros d key k Hk. by exists k. Qed.
#[export] Instance fences_le_trans : Transitive fences_le.
Proof. intros d1 d2 d3 H1 H2 key k Hk. destruct (H1 _ _ Hk) as (k2 & Hk2 & ?). destruct (H2 _ _ Hk2) as (k3 & ? & ?). exists k3. split; [done|lia]. Qed.
Lemma fences_same d d' : claims d' = claims d -> fences_le d d'.
Proof. intros Hc key k. rewrite Hc. eauto with lia. Qed.
Lemma fences_set key k k' d : claims d !! key = Some k -> kc_fence k <= kc_fence k' -> fences_le d (set_claims (<[key := k']> (claims d)) d).
Proof.
  intros Hk Hle key2 k2 Hk2. cbn. destruct (decide (key2 = key)) as [->|]; [exists k'; rewrite lookup_insert_eq; simplify_eq; split; [done|lia]|].
  exists k2. rewrite lookup_insert_ne by congruence. split; [done|lia].
Qed.
Lemma verify_fences row allowed hb now d d' : verifyWorkerClaimAndAdmission row allowed hb now d = Ok d' -> fences_le d d'.
Proof. intros Hv. apply worker_verify_Ok in Hv as (a & k & k' & _ & _ & Hk & _ & _ & _ & (_ & _ & Hf) & ->). eapply fences_set; [done|lia]. Qed.
Lemma frame_fences id d d' : handler_frame id d d' -> fences_le d d'.
Proof.
  intros [[(_ & Hc & _) _ _]|[(_ & Hc & _) _ _]]; [by apply fences_same|]. apply fences_same. destruct (terminalize_admission_same id d) as (_ & _ & Hc' & _). congruence.
Qed.
Lemma replay_fences row now m d o d' : replay_checkpoint row now m d = Ok (o, d') -> fences_le d d'.
Proof. intros Hr. unfold replay_checkpoint in Hr. apply bind_Ok_inv in Hr as (d1 & Hv & Hr). apply verify_fences in Hv. destruct (checkpoints d !! _); inv_ok; by simplify_eq. Qed.
Lemma checkpoint_fences row h out d d' : insert_checkpoint row h out d = Ok d' -> fences_le d d'.
Proof. intros Hi. unfold insert_checkpoint in Hi. inv_ok. subst. by apply fences_same. Qed.
Lemma apply_fences row now d r d' : apply_mutation cat row now d = Ok (r, d') -> fences_le d d'.
Proof.
  intros Ha. unfold apply_mutation, applyInCommandTransaction in Ha. do 2 (apply bind_Ok_inv in Ha as (? & _ & Ha)).
  apply bind_Ok_inv in Ha as ([replay d1] & Hr & Ha). apply replay_fences in Hr. destruct replay; [inv_ok; by simplify_eq|].
  inv_ok. destruct a0 as [out d2]. inv_ok. simplify_eq. apply runMutation_frame, frame_fences in Hok0. apply checkpoint_fences in Hok1. by do 2 (etrans; [eassumption|]).
Qed.
Lemma prepare_fences row now d q d' : prepare_specialist cat row now d = Ok (q, d') -> fences_le d d'.
Proof.
  intros Ha. unfold prepare_specialist in Ha. do 2 (apply bind_Ok_inv in Ha as (? & _ & Ha)).
  apply bind_Ok_inv in Ha as ([replay d1] & Hr & Ha). apply replay_fences in Hr. destruct replay; [inv_ok; by simplify_eq|].
  inv_ok. destruct a0 as [p d2]. inv_ok. simplify_eq. apply prepare_frame, frame_fences in Hok0. by etrans.
Qed.
Lemma reconcile_fences row p e now d r d' : reconcile_specialist row p e now d = Ok (r, d') -> fences_le d d'.
Proof.
  intros Ha. unfold reconcile_specialist in Ha. apply bind_Ok_inv in Ha as (? & _ & Ha).
  apply bind_Ok_inv in Ha as ([replay d1] & Hr & Ha). apply replay_fences in Hr. destruct replay; [inv_ok; by simplify_eq|].
  inv_ok. destruct a as [r2 d2]. apply reconcile_frame, frame_fences in Hok. destruct r2; inv_ok; simplify_eq; [apply checkpoint_fences in Hok0|]; by repeat (etrans; [eassumption|]).
Qed.
Lemma guards_fences id logical claim d : fences_le d (terminalizeCommandGuards id logical claim d).
Proof.
  unfold terminalizeCommandGuards. destruct (terminalize_admission_same id d) as (_ & _ & Hc & _). trans (terminalize_admission id d); [by apply fences_same|].
  destruct (claims (terminalize_admission id d) !! claim) as [k|] eqn:Hk; [|done]. destruct (_ && _); [|done]. by eapply fences_set.
Qed.
Lemma update_command_fences id g d : fences_le d (update_command id g d).
Proof. unfold update_command. destruct (commands d !! id); [by apply fences_same|done]. Qed.
Lemma update_queue_fences id g d : fences_le d (update_queue id g d).
Proof. unfold update_queue. destruct (queue d !! id); [by apply fences_same|done]. Qed.
Ltac fences :=
  lazymatch goal with
  | |- fences_le ?d ?d => reflexivity
  | |- fences_le _ (terminalizeCommandGuards _ _ _ _) => etrans; [|apply guards_fences]; fences
  | |- fences_le _ (update_command _ _ _) => etrans; [|apply update_command_fences]; fences
  | |- fences_le _ (update_queue _ _ _) => etrans; [|apply update_queue_fences]; fences
  | |- fences_le _ (record_response _ _ _ _ ?d0) => trans d0; [|by apply fences_same]; fences
  | |- fences_le _ (set_idempotency _ ?d0) => trans d0; [|by apply fences_same]; fences
  | |- fences_le _ (set_failed _ ?d0) => trans d0; [|by apply fences_same]; fences
  | |- fences_le _ (set_logs _ ?d0) => trans d0; [|by apply fences_same]; fences
  | |- fences_le _ (if ?b then _ else _) => destruct b; fences
  end.
Lemma complete_fences opts row out time now d d' : complete opts row out time now d = Ok d' -> fences_le d d'.
Proof.
  intros Hc. unfold complete in Hc. do 3 (apply bind_Ok_inv in Hc as (? & _ & Hc)). apply bind_Ok_inv in Hc as (d1 & Hv & Hc). apply verify_quiet in Hv as ->.
  do 6 (apply bind_Ok_inv in Hc as (? & _ & Hc)). apply audit_same in Hc as [l ->].
  fences.
Qed.
Lemma fail_fences opts row e time now d d' : fail opts reg row e time now d = Ok d' -> fences_le d d'.
Proof.
  intros Hc. unfold fail in Hc. do 2 (apply bind_Ok_inv in Hc as (? & _ & Hc)). apply bind_Ok_inv in Hc as (d1 & Hv & Hc). apply verify_quiet in Hv as ->.
  destruct (queue d !! ck_command row) as [q|]; [|inv_ok; by subst]. destruct (_ || _); [inv_ok; by subst|].
  do 2 (apply bind_Ok_inv in Hc as (? & _ & Hc)). apply bind_Ok_inv in Hc as (y & _ & Hc).
  cbv zeta in Hc. destruct (action _); inv_ok; subst d'; fences.
Qed.
Lemma reserve_fences o key logical owner ln now d k n d' : reserveConcurrencyClaim o key logical owner ln now d = Ok ((k, n), d') -> fences_le d d'.
Proof.
  intros Hr. apply reserve_Ok in Hr as (Hfree & _ & -> & c & -> & _ & _ & <-). intros key2 k2 Hk2. cbn.
  destruct (decide (key2 = claim_scope o key)) as [->|]; [|exists k2; rewrite lookup_insert_ne by congruence; split; [done|lia]].
  exists c. rewrite lookup_insert_eq. apply Hfree in Hk2 as [_ ?]. split; [done|lia].
Qed.
Lemma admitted_fences o c x f h epoch sk r d d' : admitted o c x f h epoch sk r d d' -> fences_le d d'.
Proof.
  intros A. destruct (am_claim _ _ _ _ _ _ _ _ _ _ A) as (n & k & Hcl & (_ & _ & Hf) & Hfree & _). unfold am_key in *. intros key2 k2 Hk2. rewrite Hcl. cbn in Hf.
  destruct (decide (key2 = claim_scope o (operationDomainKey o (oc_targetId c) (oc_arguments c)))) as [->|Hn].
  - exists k. rewrite lookup_insert_eq. apply Hfree in Hk2 as [_ ?]. split; [done|lia].
  - exists k2. rewrite lookup_insert_ne by congruence. split; [done|lia].
Qed.
Lemma execute_fences name input x f d r d' : execute cat name input x f d = Ok (r, d') -> fences_le d d'.
Proof.
  intros He. apply execute_Ok in He as [->|(o & c & key & Ha)]; [done|]. apply admit_command_Ok in Ha as (h & epoch & _ & _ & _ & _ & Ha).
  destruct (idempotency d !! _); [by destruct Ha as [-> _]|]. destruct Ha as [row A]. by apply admitted_fences in A.
Qed.
Lemma claim_fences opts locked now d r d' : claim_next opts locked now d = Ok (r, d') -> fences_le d d'.
Proof.
  intros Hc. unfold claim_next in Hc. apply bind_Ok_inv in Hc as (h & _ & Hc). destruct (next_candidate opts locked h now d) as [[id q]|]; [|inv_ok; by simplify_eq].
  destruct (commands d !! id) as [c|]; [|inv_ok; by simplify_eq]. destruct (admissions d !! id) as [a|]; [|inv_ok; by simplify_eq].
  apply bind_Ok_inv in Hc as (? & _ & Hc). destruct (claims d !! cr_claim c) as [k|] eqn:Hk; [|inv_ok; by simplify_eq].
  destruct (claim_current k c h && _ && _ && _); [|inv_ok; by simplify_eq]. do 2 (apply bind_Ok_inv in Hc as (? & _ & Hc)). inv_ok. simplify_eq.
  etrans; [|by apply fences_same]. eapply fences_set; [exact Hk|cbn; lia].
Qed.
Lemma resume_fences id owner ln u now d d' : resume_command id owner ln u now d = Ok d' -> fences_le d d'.
Proof.
  intros Hr. unfold resume_command, resumable in Hr. destruct (commands d !! id) as [c|]; [|inv_ok; by subst]. destruct (queue d !! id) as [q|]; [|inv_ok; by subst].
  destruct (claims d !! cr_claim c) as [k|] eqn:Hk; [|inv_ok; by subst]. destruct (_ && negb u); [|inv_ok; by subst]. inv_ok. subst d'.
  trans (set_claims (<[cr_claim c := resume_claim owner (kc_fence k + 1) now ln k]> (claims d)) d); [eapply fences_set; [exact Hk|cbn; lia]|].
  apply fences_same. destruct (admissions d !! id) as [a|]; [|done]. by destruct (domains d !! ad_domain a).
Qed.
Lemma end_replaced_fences id version time d d' : end_replaced reg id version time d = Ok d' -> fences_le d d'.
Proof.
  intros He. unfold end_replaced in He. inv_ok. destruct (bool_decide _); [|inv_ok; by subst]. unfold terminalizeReplacedCommand in He.
  apply bind_Ok_inv in He as (f & _ & He). inv_ok. subst d'. fences.
Qed.
Lemma step_fences s s' : step cat reg s s' -> fences_le (db s) (db s').
Proof.
  intros St. destruct St; cbn; try reflexivity.
  - by eapply execute_fences.
  - by eapply claim_fences.
  - by eapply apply_fences.
  - by eapply apply_fences.
  - by eapply prepare_fences.
  - by eapply reconcile_fences.
  - by eapply complete_fences.
  - by eapply fail_fences.
  - by eapply end_replaced_fences.
  - unfold createManualReview. fences.
  - by eapply resume_fences.
  - apply fences_same. apply H0.
Qed.
Lemma star_fences s s' : star (step cat reg) s s' -> fences_le (db s) (db s').
Proof. induction 1; [done|]. etrans; [by apply step_fences|done]. Qed.
(** A worker whose token is behind its claim passes no fence. *)
Lemma behind_unverified row k d : claims d !! ck_claim row = Some k -> ck_fence row < kc_fence k ->
  forall allowed hb now, is_Ok (verifyWorkerClaimAndAdmission row allowed hb now d) = false.
Proof.
  intros Hk Hlt allowed hb now. destruct (verifyWorkerClaimAndAdmission row allowed hb now d) as [d'|] eqn:Hv; [|done]. exfalso.
  apply worker_verify_Ok in Hv as (a & k0 & k' & _ & _ & Hk0 & _ & _ & Hf & _). simplify_eq. lia.
Qed.

Lemma unverified_replay row now m d : (forall allowed hb, is_Ok (verifyWorkerClaimAndAdmission row allowed hb now d) = false) -> is_Ok (replay_checkpoint row now m d) = false.
Proof.
  intros Hv. unfold replay_checkpoint. specialize (Hv (if is_some (checkpoints d !! ck_command row) then [ADMITTED; TERMINAL] else [ADMITTED]) true).
  by destruct (verifyWorkerClaimAndAdmission _ _ _ _ _).
Qed.
Lemma bind_fails {A B} (m : result A) (f : A -> result B) : (forall a, m = Ok a -> is_Ok (f a) = false) -> is_Ok (m ≫= f) = false.
Proof. destruct m; cbn; auto. Qed.
Lemma refused_bind {A B} (m : result A) (f : A -> result B) : is_Ok m = false -> is_Ok (m ≫= f) = false.
Proof. by destruct m. Qed.
End Fences.

(** ** Properties *)

Section Properties.
Context `{L : Locale} `{H : Hash} `{F : Formats} {W : Type} `{D : CommandDomain W} `{M : CommandHandlers W} `{Law : !LawfulHandlers}.
Context (cat : OperationCatalogService) (reg : gmap string StableErrorRecord).

Lemma initial_safe s : initial s -> safe s.
Proof.
  intros (Hf & Hr & Hc & Ha & Hq & Hk & Hcl & Hp). split; [|rewrite ?Hf, ?Hr, ?Hc, ?Hk..].
  - split; rewrite ?Hc, ?Ha, ?Hq, ?Hk; try (intros *; rewrite lookup_empty; done).
    + intros key. rewrite Hp. unfold open_count. by rewrite map_filter_empty, map_size_empty.
    + intros k c E Hrel. apply Hcl in E. congruence.
  - by intros f ?%elem_of_nil.
  - constructor.
  - constructor.
  - intros id out. rewrite elem_of_nil. setoid_rewrite lookup_empty. naive_solver.
  - intros id c. by rewrite lookup_empty.
  - intros id c. by rewrite lookup_empty.
Qed.
Lemma reachable_safe s : reachable cat reg s -> safe s.
Proof. intros (s0 & Hi & Hs). eapply star_invariant; [intros; by eapply safe_step|by apply initial_safe|done]. Qed.
Lemma initial_traced s : initial s -> traced s.
Proof. intros (Hf & Hr & _). split; rewrite ?Hf, ?Hr; [|apply NoDup_nil_2|done|]; intros * ?%elem_of_nil; done. Qed.
Lemma reachable_traced s : reachable cat reg s -> safe s /\ traced s.
Proof.
  intros (s0 & Hi & Hs). refine (star_invariant _ (fun s => safe s /\ traced s) s0 s _ _ Hs).
  - intros s1 s2 [S T] St. split; [by eapply safe_step|by eapply traced_step].
  - split; [by apply initial_safe|by apply initial_traced].
Qed.

(** C5. Exactly once: however the workers interleave, crash or lose the acknowledgement of a commit, whatever the retry
    scheduler and the recovery of the platform do in between, every command has at most one committed application,
    by a mutation handler or by a specialist that found its effect applied.  A command that succeeded has exactly one, and what the command
    records is its output; a command that failed, waits for reconciliation or for the owner has none.
    The effect a specialist has outside of the database is not exactly once, it may repeat ([specialist_repeats]):
    it acts at most once under one claim, only after its preparation under that claim has committed, and the verdict on its effect,
    applied or not, follows the effect under the same claim. *)
Theorem commands_apply_exactly_once s : reachable cat reg s ->
  NoDup (map fst (applied (ran s))) /\
  (forall id c, commands (db s) !! id = Some c ->
    (cr_status c = C_SUCCEEDED -> exists out, (id, out) ∈ applied (ran s) /\ cr_result c = Some (jsonSafe out)) /\
    (cr_status c = C_FAILED_FINAL \/ cr_status c = C_WAITING \/ cr_status c = C_MANUAL_REVIEW -> forall out, (id, out) ∉ applied (ran s))) /\
  NoDup (attempts (ran s)) /\ explained (ran s).
Proof.
  intros [S T]%reachable_traced. split_and!; [apply S| |apply T..]. intros id c Hc. split.
  - intros Hs. destruct (v_done _ S _ _ Hc Hs) as (p & Hp & Hr). exists (cp_output p). split; [|done]. apply (v_ran _ S). eauto.
  - intros Hs out Hin. apply (v_ran _ S) in Hin as (p & Hp & _). assert (checkpoints (db s) !! id = None); [|congruence].
    eapply (v_unapplied _ S); [exact Hc|]. unfold unapplied. tauto.
Qed.

(** C7. The guards of the commands hold in every reachable state: the counter of every activation domain is the number of its
    commands that are still admitted, so a domain whose counter is zero has none that could still change it; every
    command that is not final holds the claim of its aggregate with its own fencing token; and no two of them hold
    the same one. *)
Theorem command_guards_hold s : reachable cat reg s ->
  (forall key, pending (db s) key = open_count (admissions (db s)) key) /\
  (forall id c, commands (db s) !! id = Some c -> final (cr_status c) = false -> exists k, claims (db s) !! cr_claim c = Some k /\ held_by c k) /\
  (forall id1 id2 c1 c2, commands (db s) !! id1 = Some c1 -> commands (db s) !! id2 = Some c2 -> final (cr_status c1) = false -> final (cr_status c2) = false ->
     cr_claim c1 = cr_claim c2 -> id1 = id2).
Proof.
  intros [G _ _ _ _ _ _]%reachable_safe. split_and!; [apply G|apply G|]. intros id1 id2 c1 c2 H1 H2 F1 F2 E.
  destruct (g_holds _ G _ _ H1 F1) as (k1 & Hk1 & Hl1 & _), (g_holds _ G _ _ H2 F2) as (k2 & Hk2 & Hl2 & _). rewrite E in Hk1. simplify_eq.
  eapply (g_logical _ G); [exact H1|exact H2|congruence].
Qed.

(** C8. A stale worker is fenced off for good: once the fencing token of its claim has passed the worker's (another worker
    took the item over, or the platform recovered), none of its transactions ever commits again, whatever
    happens in between. *)
Theorem stale_worker_fenced s s' row k : claims (db s) !! ck_claim row = Some k -> ck_fence row < kc_fence k -> star (step cat reg) s s' ->
  forall opts now time out e p execution,
    is_Ok (apply_mutation cat row now (db s')) = false /\ is_Ok (prepare_specialist cat row now (db s')) = false /\
    is_Ok (reconcile_specialist row p execution now (db s')) = false /\ is_Ok (complete opts row out time now (db s')) = false /\
    is_Ok (fail opts reg row e time now (db s')) = false.
Proof.
  intros Hk Hlt Hs opts now time out e p execution. destruct (star_fences cat reg _ _ Hs _ _ Hk) as (k' & Hk' & Hle).
  pose proof (behind_unverified row k' (db s') Hk' ltac:(lia)) as Hv.
  assert (Hrep : forall m, is_Ok (replay_checkpoint row now m (db s')) = false) by (intros m; apply unverified_replay; auto).
  split_and!.
  - unfold apply_mutation, applyInCommandTransaction. do 2 (apply bind_fails; intros ? _). by apply refused_bind.
  - unfold prepare_specialist. do 2 (apply bind_fails; intros ? _). by apply refused_bind.
  - unfold reconcile_specialist. apply bind_fails; intros ? _. by apply refused_bind.
  - unfold complete. do 3 (apply bind_fails; intros ? _). by apply refused_bind.
  - unfold fail. do 2 (apply bind_fails; intros ? _). by apply refused_bind.
Qed.
End Properties.

(** ** Samples *)

(** Every mutation adds one to the counter; a specialist closes its admission early. *)
Definition sample_handlers : CommandHandlers Z :=
  {| runMutation := fun _ _ _ _ d => Ok (JObj [("state_version", JStr (dec (rest d + 1)))], set_rest (rest d + 1) d);
     terminalReplay := fun _ _ _ => false; canHandle := fun _ => false; prepared := unit; prepare := fun _ _ _ _ d => Ok (tt, d);
     reconcile := fun _ _ row _ d => Ok (APPLIED JNull, terminalize_admission (ck_command row) d) |}.
Lemma same_commands_refl {W} (d : cmd_db W) : same_commands d d.
Proof. by split. Qed.
#[local] Instance sample_lawful : @LawfulHandlers Z sample_handlers.
Proof.
  split.
  - intros o args row h d out d' E. injection E as _ <-. by left.
  - intros o args row h d p d' E. injection E as E E2. subst d'. left. apply same_commands_refl.
  - intros p e row h d r d' E. injection E as E E2. subst d'. right. apply same_commands_refl.
Qed.
Definition sample_catalog : OperationCatalogService := {| oc_operations := [sample_operation]; oc_authorities := [sample_authority] |}.
Definition sample_options (w : string) : WorkerOptions := {| queueNames := ["kcml-domain"]; allowedOperations := None; workerId := w; leaseSeconds := None |}.
Definition no_lock (id : string) : bool := false.
#[local] Existing Instances code_unit_locale toy_hash toy_dates sample_domain sample_handlers.

Abbreviation executed := (execute sample_catalog "component.create" JNull (sample_context "a") (sample_fresh 1) sample_db).
Definition db1 : cmd_db Z := (get_Ok (JNull, sample_db) executed).2.
Abbreviation claim1 := (claim_next (sample_options "w1") no_lock 2000 db1).
Definition no_claim : claimed :=
  {| ck_command := ""; ck_queue := ""; ck_owner := ""; ck_lease := 0; ck_fence := 0; ck_logical := ""; ck_claim := ("", []); ck_lineage := Build_lineage "" 0 0;
     ck_epoch := 0; ck_operation := ""; ck_target := None; ck_correlation := ""; ck_request := JNull |}.
Definition row1 : claimed := default no_claim (get_Ok (None, db1) claim1).1.
Definition db2 : cmd_db Z := (get_Ok (None, db1) claim1).2.
Abbreviation apply1 := (apply_mutation sample_catalog row1 3000 db2).
Definition out1 : json := (get_Ok ((JNull, false), db2) apply1).1.1.
Definition db3 : cmd_db Z := (get_Ok ((JNull, false), db2) apply1).2.
Abbreviation complete1 := (complete (sample_options "w1") row1 out1 "2026-01-01T00:00:00.000Z" 4000 db3).
Definition db4 : cmd_db Z := get_Ok db3 complete1.
(** After the lease a second worker takes the item over. *)
Abbreviation claim2 := (claim_next (sample_options "w2") no_lock 70000 db2).
Definition db5 : cmd_db Z := (get_Ok (None, db2) claim2).2.

Example executed_ok : is_Ok executed = true.
Proof. vm_compute. reflexivity. Qed.
Example claim1_ok : is_Ok claim1 && is_some (get_Ok (None, db1) claim1).1 = true.
Proof. vm_compute. reflexivity. Qed.
Example apply1_ok : is_Ok apply1 && (get_Ok ((JNull, false), db2) apply1).1.2 = true.
Proof. vm_compute. reflexivity. Qed.
Example complete1_ok : is_Ok complete1 = true.
Proof. vm_compute. reflexivity. Qed.
(** The counter moved once, and the same request now replays the terminal response. *)
Example end_to_end : rest db4 = 8 /\ option_map cr_status (commands db4 !! ck_command row1) = Some C_SUCCEEDED /\ pending db4 "component:create:component.create" = 0 /\
  match execute sample_catalog "component.create" JNull (sample_context "b") (sample_fresh 2) db4 with
  | Ok (JObj l, _) => get_prop "status" l = Some (JStr "SUCCEEDED") | _ => False end.
Proof. vm_compute. split_and!; reflexivity. Qed.
(** The same through [runOnce], which then finds no more work. *)
Example run_once :
  let run now := runOnce sample_catalog (sample_options "w1") ∅ (fun _ => inl JNull) (fun _ => false) "2026-01-01T00:00:00.000Z" now in
  let r := run 2000 db1 in
  fst r = Ok true /\ option_map cr_status (commands (snd r) !! ck_command row1) = Some C_SUCCEEDED /\ fst (run 3000 (snd r)) = Ok false.
Proof. vm_compute. split_and!; reflexivity. Qed.

(** *** A run of the system *)

Abbreviation sample_step := (step sample_catalog ∅).
Definition run_start : system := Sys sample_db [] [].
Definition run_claimed : system := Sys db2 [(row1, Claimed)] [].
Definition run_done : system := Sys db4 [] [(claim_of row1, MUTATED out1)].
Lemma executed_eq : executed = Ok ((get_Ok (JNull, sample_db) executed).1, db1).
Proof. rewrite (get_Ok_spec (JNull, sample_db) _ executed_ok) at 1. unfold db1. by destruct (get_Ok _ _). Qed.
Lemma claim1_eq : claim1 = Ok (Some row1, db2).
Proof.
  pose proof claim1_ok as Hok. apply andb_true_iff in Hok as [Hok Hs]. rewrite (get_Ok_spec (None, db1) _ Hok) at 1. unfold row1, db2.
  destruct (get_Ok (None, db1) claim1) as [[row|] d]; [done|discriminate Hs].
Qed.
Lemma apply1_eq : apply1 = Ok ((out1, true), db3).
Proof.
  pose proof apply1_ok as Hok. apply andb_true_iff in Hok as [Hok Hs]. rewrite (get_Ok_spec ((JNull, false), db2) _ Hok) at 1. unfold out1, db3.
  destruct (get_Ok ((JNull, false), db2) apply1) as [[out fresh] d]. cbn in *. by rewrite Hs.
Qed.
Lemma complete1_eq : complete1 = Ok db4.
Proof. exact (get_Ok_spec db3 _ complete1_ok). Qed.
Lemma run_start_initial : initial run_start.
Proof. unfold initial. split_and!; try done. Qed.
Definition run_admitted : system := Sys db1 [] [].
Definition run_applied : system := Sys db3 [(row1, Applied out1)] [(claim_of row1, MUTATED out1)].
Lemma run_step1 : sample_step run_start run_admitted.
Proof. exact (st_execute sample_catalog ∅ "component.create" JNull (sample_context "a") (sample_fresh 1) sample_db _ db1 [] [] executed_eq). Qed.
Lemma run_step2 : sample_step run_admitted run_claimed.
Proof. exact (st_claim sample_catalog ∅ (sample_options "w1") no_lock 2000 db1 row1 db2 [] [] claim1_eq). Qed.
Lemma run_step3 : sample_step run_claimed run_applied.
Proof. exact (st_apply sample_catalog ∅ row1 3000 db2 (out1, true) db3 [] [] [] apply1_eq). Qed.
Lemma run_step4 : sample_step run_applied run_done.
Proof. exact (st_complete sample_catalog ∅ (sample_options "w1") row1 out1 "2026-01-01T00:00:00.000Z" 4000 db3 db4 [] [] _ complete1_eq). Qed.
Lemma run_claimed_star : star sample_step run_start run_claimed.
Proof. exact (star_step _ _ _ _ run_step1 (star_one _ _ _ run_step2)). Qed.
Lemma run_done_reachable : reachable sample_catalog ∅ run_done.
Proof.
  exists run_start. split; [exact run_start_initial|]. apply (star_trans _ _ run_claimed); [exact run_claimed_star|].
  exact (star_step _ _ _ _ run_step3 (star_one _ _ _ run_step4)).
Qed.
Lemma run_claimed_reachable : reachable sample_catalog ∅ run_claimed.
Proof. exists run_start. split; [exact run_start_initial|exact run_claimed_star]. Qed.

Definition succeeded_row (o : option command_row) : bool := match o with Some c => bool_decide (cr_status c = C_SUCCEEDED) | None => false end.
Example run_done_succeeded : succeeded_row (commands db4 !! ck_command row1) = true.
Proof. vm_compute. reflexivity. Qed.
Lemma commands_apply_exactly_once_witness :
  exists c, commands db4 !! ck_command row1 = Some c /\ exists out, (ck_command row1, out) ∈ applied (ran run_done) /\ cr_result c = Some (jsonSafe out).
Proof.
  pose proof run_done_succeeded as Hs. destruct (commands db4 !! ck_command row1) as [c|] eqn:Hc; [|discriminate Hs].
  exists c. split; [reflexivity|]. apply bool_decide_eq_true in Hs.
  destruct (commands_apply_exactly_once sample_catalog ∅ run_done run_done_reachable) as (_ & Hall & _).
  exact (proj1 (Hall _ _ Hc) Hs).
Defined.
(** The effect of a specialist is not exactly once: the first worker prepares and acts, its lease ends, a second one takes the
    command over, prepares and acts again under its own claim. *)
Abbreviation prepare1 := (prepare_specialist sample_catalog row1 3000 db2).
Definition prepared_db1 : cmd_db Z := (get_Ok (inl JNull, db2) prepare1).2.
Abbreviation claim_again := (claim_next (sample_options "w2") no_lock 70000 prepared_db1).
Definition row2 : claimed := default no_claim (get_Ok (None, db2) claim_again).1.
Definition claimed_db2 : cmd_db Z := (get_Ok (None, db2) claim_again).2.
Abbreviation prepare2 := (prepare_specialist sample_catalog row2 71000 claimed_db2).
Definition prepared_db2 : cmd_db Z := (get_Ok (inl JNull, db2) prepare2).2.
Definition prepared_now (r : result ((json + @prepared Z sample_handlers) * cmd_db Z)) : bool := match r with Ok (inr _, _) => true | _ => false end.
Example specialist_runs_ok : prepared_now prepare1 = true /\ is_some (get_Ok (None, db2) claim_again).1 = true /\ is_Ok claim_again = true /\ prepared_now prepare2 = true /\
  claim_of row2 = (ck_command row1, ck_fence row1 + 1).
Proof. vm_compute. split_and!; reflexivity. Qed.
Lemma prepared_now_eq r : prepared_now r = true -> r = Ok (inr tt, (get_Ok (inl JNull, db2) r).2).
Proof. by destruct r as [[[|[]] d]|]. Qed.
Example specialist_repeats : reachable sample_catalog ∅ (Sys prepared_db2 [(row2, Executed (tt : @prepared Z sample_handlers) (inl JNull)); (row1, Executed tt (inl JNull))]
  [(claim_of row2, EXECUTED); (claim_of row2, PREPARED); (claim_of row1, EXECUTED); (claim_of row1, PREPARED)]).
Proof.
  destruct specialist_runs_ok as (H1 & H2 & H3 & H4 & _). exists run_start. split; [exact run_start_initial|].
  apply (star_trans _ _ run_claimed); [exact run_claimed_star|]. set (tt' := tt : @prepared Z sample_handlers). set (log1 := [(claim_of row1, EXECUTED); (claim_of row1, PREPARED)]).
  assert (E : claim_again = Ok (Some row2, claimed_db2)).
  { rewrite (get_Ok_spec (None, db2) _ H3) at 1. unfold row2, claimed_db2. destruct (get_Ok (None, db2) claim_again) as [[row|] d]; [done|discriminate H2]. }
  eapply star_step; [exact (st_prepare sample_catalog ∅ row1 3000 db2 _ _ [] [] [] (prepared_now_eq _ H1))|].
  eapply star_step; [exact (st_effect sample_catalog ∅ row1 tt' (inl JNull) prepared_db1 [] [] [(claim_of row1, PREPARED)])|].
  eapply star_step; [exact (st_claim sample_catalog ∅ (sample_options "w2") no_lock 70000 prepared_db1 row2 claimed_db2 [(row1, Executed tt' (inl JNull))] log1 E)|].
  eapply star_step; [exact (st_prepare sample_catalog ∅ row2 71000 claimed_db2 _ _ [] [(row1, Executed tt' (inl JNull))] log1 (prepared_now_eq _ H4))|].
  apply star_one. exact (st_effect sample_catalog ∅ row2 tt' (inl JNull) prepared_db2 [] [(row1, Executed tt' (inl JNull))] ((claim_of row2, PREPARED) :: log1)).
Qed.
Lemma command_guards_hold_witness : pending db2 "component:create:component.create" = open_count (admissions db2) "component:create:component.create".
Proof.
  destruct (command_guards_hold sample_catalog ∅ run_claimed run_claimed_reachable) as [Hp _]. exact (Hp "component:create:component.create").
Defined.
Example one_pending : pending db2 "component:create:component.create" = 1.
Proof. vm_compute. reflexivity. Qed.
(** The first worker of an item that a second one took over *)
Definition taken_over : option Z := kc_fence <$> claims db5 !! ck_claim row1.
Example taken_over_ahead : match taken_over with Some n => ck_fence row1 <? n | None => false end = true.
Proof. vm_compute. reflexivity. Qed.
Lemma stale_worker_fenced_witness : is_Ok (apply_mutation sample_catalog row1 80000 db5) = false /\ is_Ok (complete (sample_options "w1") row1 JNull "" 80000 db5) = false.
Proof.
  pose proof taken_over_ahead as Hn. unfold taken_over in Hn. destruct (claims db5 !! ck_claim row1) as [k|] eqn:Hk; [|discriminate Hn].
  destruct (stale_worker_fenced sample_catalog ∅ (Sys db5 [] []) (Sys db5 [] []) row1 k Hk (proj1 (Z.ltb_lt _ _) Hn) (star_refl _ _)
              (sample_options "w1") 80000 "" JNull ThrownPrimitive (tt : @prepared Z sample_handlers) (inl JNull)) as (Ha & _ & _ & Hc & _).
  split; [exact Ha|exact Hc].
Defined.
