(* ===== verification/Auth.v ===== *)
(** * Owner authentication

    [packages/domain/src/auth.ts], [OwnerAuthenticationService]: the password of the single owner and its throttle, web
    sessions with their epoch, second factors (one-time passwords, recovery codes, enrollment) and the revocation of
    sessions.  A transaction is a function of the tables that throws or commits; the statements that run on the pool
    itself commit one by one.  Random bytes and fresh identifiers are arguments.  [step] interleaves the calls of any
    number of clients between the reads and the writes of the service. *)
From Stdlib Require Import Ascii String.
From S2P Require Import Prelude Bytes Json Text Digest CanonicalValue IpcFrame IpcChannel IpcBroker AuditChain Crypto.

(** ** Tables *)

Record owner_row := {
  ow_id : string; ow_username : string; ow_password : option string; ow_mfa : bool; ow_secret : option (list Z); ow_nonce : option (list Z);
  ow_epoch : Z; ow_deployment : Z;
}.
Record session_row := {
  ss_owner : string; ss_lookup : list Z; ss_hash : list Z; ss_csrf : list Z; ss_epoch : Z; ss_mfa : bool; ss_expires : Z; ss_revoked : bool;
  ss_reauthenticated : option Z;
}.
Record throttle_row := { th_count : Z; th_first : Z; th_last : Z; th_locked : option Z }.
Record enrollment_row := {
  en_id : string; en_owner : string; en_token : list Z; en_cipher : list Z; en_nonce : list Z; en_tag : list Z; en_expires : Z; en_verified : bool; en_created : Z;
}.
(** Recovery codes by their hash: the owner, and whether the code was consumed.  [owner] is the singleton row. *)
Record auth_db := {
  owner : option owner_row; deployment : option Z; sessions : gmap string session_row; throttles : gmap (list Z) throttle_row;
  recovery_codes : gmap (list Z) (string * bool); enrollments : list enrollment_row; trail : audit_db;
}.
Definition set_owner o d := {| owner := o; deployment := deployment d; sessions := sessions d; throttles := throttles d; recovery_codes := recovery_codes d; enrollments := enrollments d; trail := trail d |}.
Definition set_sessions t d := {| owner := owner d; deployment := deployment d; sessions := t; throttles := throttles d; recovery_codes := recovery_codes d; enrollments := enrollments d; trail := trail d |}.
Definition set_throttles t d := {| owner := owner d; deployment := deployment d; sessions := sessions d; throttles := t; recovery_codes := recovery_codes d; enrollments := enrollments d; trail := trail d |}.
Definition set_recovery t d := {| owner := owner d; deployment := deployment d; sessions := sessions d; throttles := throttles d; recovery_codes := t; enrollments := enrollments d; trail := trail d |}.
Definition set_enrollments t d := {| owner := owner d; deployment := deployment d; sessions := sessions d; throttles := throttles d; recovery_codes := recovery_codes d; enrollments := t; trail := trail d |}.
Definition set_trail t d := {| owner := owner d; deployment := deployment d; sessions := sessions d; throttles := throttles d; recovery_codes := recovery_codes d; enrollments := enrollments d; trail := t |}.

(** ** The service *)

(** [argon2]: hashing with a salt and other options, and verification, which may throw on a malformed hash. *)
Class Argon2 := {
  argon2_hash : list Z -> string -> string;
  argon2_verify : string -> string -> result bool;
  argon2_verify_hash : forall salt password, argon2_verify (argon2_hash salt password) password = Ok true;
}.
Inductive login_state := AUTHENTICATED | MFA_REQUIRED | MFA_ENROLLMENT_REQUIRED.
Record LoginResult := { lr_state : login_state; lr_sessionToken : string; lr_csrfToken : string; lr_sessionId : string; lr_expiresAt : Z }.
Record SessionPrincipal := { sp_ownerId : string; sp_sessionId : string; sp_csrf : list Z; sp_mfa : bool; sp_epoch : Z; sp_expires : Z }.
(** What one call draws: the tokens, the identifier of the session and the time *)
Record draws := { dr_session : list Z; dr_csrf : list Z; dr_id : string }.

Definition invalid (message : string) : exn := DomainErr "AGENTIC_OPERATION_CONTEXT_INVALID" message.
Definition missing (message : string) : exn := DomainErr "AGENTIC_OWNER_INTENT_MISSING" message.
Definition separated (label value : string) : string := label +:+ of_chars [char_of 0] +:+ value.
Definition HOURS_12 : Z := 12 * 60 * 60 * 1000.
Definition MINUTES_15 : Z := 15 * 60 * 1000.
Definition MINUTES_10 : Z := 10 * 60 * 1000.
Definition six_digits (code : string) : bool := (String.length code =? 6)%nat && str_forallb is_digit code.

Section Service.
Context `{L : Locale} `{H : Hash} `{S1 : HmacSha1} `{A : Aead} `{G : Argon2} (cipher : list Z * string).
Implicit Type d : auth_db.
Abbreviation auth := (io auth_db).

Definition sessionHash (token : string) : list Z := tokenDigest (separated "KCML-OWNER-SESSION/1" token).
Definition equalDigest (left right : list Z) : bool := (length left =? length right)%nat && bool_decide (left = right).
Definition append_audit (type : string) (payload : json) d : result auth_db :=
  t ← append_audit_event (trail d) (type, utf8 (canonicalJson payload)); Ok (set_trail t d).
Definition catch_false (r : result bool) : bool := match r with Ok b => b | Throw _ => false end.
Definition the_owner (id : string) d : option owner_row :=
  match owner d with Some o => if String.eqb (ow_id o) id then Some o else None | None => None end.

(** *** Passwords *)

Definition revoke (p : string -> session_row -> bool) d : auth_db :=
  set_sessions (map_imap (fun id s => Some (if p id s && negb (ss_revoked s) then
    {| ss_owner := ss_owner s; ss_lookup := ss_lookup s; ss_hash := ss_hash s; ss_csrf := ss_csrf s; ss_epoch := ss_epoch s; ss_mfa := ss_mfa s;
       ss_expires := ss_expires s; ss_revoked := true; ss_reauthenticated := ss_reauthenticated s |} else s)) (sessions d)) d.
Definition store_password (hash : string) d : result (unit * auth_db) :=
  epoch ← or_throw (deployment d) (JsError "TypeError");
  o ← or_throw (owner d) (JsError "TypeError");
  _ ← throw_if (max_bigint <? ow_epoch o + 1) (PgError "22003");
  let d := set_owner (Some {| ow_id := ow_id o; ow_username := ow_username o; ow_password := Some hash; ow_mfa := ow_mfa o; ow_secret := ow_secret o;
                              ow_nonce := ow_nonce o; ow_epoch := ow_epoch o + 1; ow_deployment := epoch |}) d in
  let d := revoke (fun _ s => String.eqb (ss_owner s) (ow_id o)) d in
  d ← append_audit "owner.password.synchronized" (JObj [("username", JStr "KRMAR78"); ("source", JStr "GITHUB_ACTIONS_PASS"); ("deploymentEpoch", JStr (dec epoch))]) d;
  Ok (tt, d).
Definition verify_stored (password : string) d : result unit :=
  let wrong := JsError "Deployment password verification failed" in
  o ← or_throw (owner d) wrong;
  h ← or_throw (ow_password o) wrong;
  _ ← throw_if (negb (truthy h)) wrong;
  ok ← argon2_verify h password;
  throw_if (negb ok) wrong.
Definition synchronizeDeploymentPassword (password : string) (salt : list Z) : auth unit :=
  _ ← lift (throw_if (negb (truthy password)) (invalid "PASS must not be empty"));
  _ ← txn (store_password (argon2_hash salt password));
  d ← get; lift (verify_stored password d).

Definition throttle_key (remoteAddress : option string) : list Z := tokenDigest (separated "OWNER_LOGIN/1" (default "unknown" remoteAddress)).
Definition locked (key : list Z) (now : Z) d : bool :=
  match throttles d !! key with Some t => match th_locked t with Some l => now <? l | None => false end | None => false end.
Definition next_throttle (now : Z) (o : option throttle_row) : throttle_row :=
  match o with
  | None => {| th_count := 1; th_first := now; th_last := now; th_locked := None |}
  | Some t => let old := th_first t <? now - MINUTES_15 in let count := if old then 1 else th_count t + 1 in
      {| th_count := count; th_first := if old then now else th_first t; th_last := now; th_locked := if 12 <=? count then Some (now + MINUTES_15) else None |}
  end.
Definition recordLoginFailure (key : list Z) (now : Z) d : auth_db :=
  set_throttles (<[key := next_throttle now (throttles d !! key)]> (throttles d)) d.
Definition new_session (o : owner_row) (x : draws) (mfaVerified : bool) (now : Z) : session_row :=
  let token := randomToken (dr_session x) in
  {| ss_owner := ow_id o; ss_lookup := tokenDigest token; ss_hash := sessionHash token; ss_csrf := tokenDigest (randomToken (dr_csrf x)); ss_epoch := ow_epoch o;
     ss_mfa := mfaVerified; ss_expires := now + HOURS_12; ss_revoked := false; ss_reauthenticated := None |}.
Definition duplicate : exn := PgError "23505".
(** [o] is the row that was read before. *)
Definition createSession (o : owner_row) (x : draws) (mfaVerified : bool) (now : Z) : auth LoginResult := txn (fun d =>
  let s := new_session o x mfaVerified now in
  _ ← throw_if (is_some (sessions d !! dr_id x) || existsb (fun '(_, s') => bool_decide (ss_lookup s' = ss_lookup s)) (map_to_list (sessions d))) duplicate;
  Ok ({| lr_state := if ow_mfa o then MFA_REQUIRED else MFA_ENROLLMENT_REQUIRED; lr_sessionToken := randomToken (dr_session x); lr_csrfToken := randomToken (dr_csrf x);
         lr_sessionId := dr_id x; lr_expiresAt := now + HOURS_12 |}, set_sessions (<[dr_id x := s]> (sessions d)) d)).
(** [login] up to the session: the owner whose username and password were given *)
Definition valid_credentials (username password : string) (o : option owner_row) : bool :=
  bool_decide (tokenDigest (separated "OWNER_USERNAME/1" username) = tokenDigest (separated "OWNER_USERNAME/1" (match o with Some o => ow_username o | None => "" end)))
  && match o with Some o => match ow_password o with Some h => catch_false (argon2_verify h password) | None => false end | None => false end.
Definition check_login (username password : string) (remoteAddress : option string) (now : Z) : auth owner_row :=
  let key := throttle_key remoteAddress in
  d ← get;
  _ ← lift (throw_if (locked key now d) (DomainErr "PROVIDER_RATE_LIMITED" "Too many authentication attempts"));
  match owner d with
  | Some o => if valid_credentials username password (Some o) then
                _ ← txn (fun d => Ok (tt, set_throttles (delete key (throttles d)) d)); mret o
              else
                _ ← txn (fun d => Ok (tt, recordLoginFailure key now d));
                _ ← txn (fun d => d ← append_audit "owner.login.rejected"
                                        (JObj [("accepted", JBool false); ("remoteAddress", match remoteAddress with Some a => JStr a | None => JNull end); ("reasonCode", JStr "INVALID_CREDENTIALS")]) d;
                                  Ok (tt, d));
                lift (Throw (invalid "Invalid credentials"))
  | None => _ ← txn (fun d => Ok (tt, recordLoginFailure key now d)); lift (Throw (invalid "Invalid credentials"))
  end.
Definition login (username password : string) (remoteAddress : option string) (x : draws) (now : Z) : auth LoginResult :=
  o ← check_login username password remoteAddress now; createSession o x false now.
Definition createApiKeySession (x : draws) (now : Z) : auth LoginResult :=
  d ← get;
  match owner d with
  | None => lift (Throw (missing "OWNER identity is not initialized"))
  | Some o => createSession o x true now
  end.

(** *** Sessions *)

Definition live (now : Z) (s : session_row) : bool := negb (ss_revoked s) && (now <? ss_expires s).
(** [WHERE s.lookup_digest = $1 AND s.revoked_at IS NULL AND s.expires_at > clock_timestamp()] joined with the owner *)
Definition find_session (now : Z) (lookup : list Z) d : option (string * session_row * owner_row) :=
  match List.find (fun '(_, s) => bool_decide (ss_lookup s = lookup) && live now s) (map_to_list (sessions d)) with
  | Some (id, s) => match the_owner (ss_owner s) d with Some o => Some (id, s, o) | None => None end
  | None => None
  end.
Definition authenticate (sessionToken : string) (requireMfa : bool) (now : Z) d : result SessionPrincipal :=
  let stale := invalid "Session is invalid or expired" in
  '(id, s, o) ← or_throw (find_session now (tokenDigest sessionToken) d) stale;
  _ ← throw_if (negb (equalDigest (ss_hash s) (sessionHash sessionToken)) || negb (ss_epoch s =? ow_epoch o)) stale;
  _ ← throw_if (requireMfa && negb (ss_mfa s)) (missing "MFA verification is required");
  Ok {| sp_ownerId := ss_owner s; sp_sessionId := id; sp_csrf := ss_csrf s; sp_mfa := ss_mfa s; sp_epoch := ss_epoch s; sp_expires := ss_expires s |}.
Definition verifyCsrf (p : SessionPrincipal) (token : string) : result unit :=
  throw_if (negb (equalDigest (sp_csrf p) (tokenDigest token))) (invalid "CSRF token is invalid").
Definition update_session (id : string) (g : session_row -> session_row) d : auth_db :=
  match sessions d !! id with Some s => set_sessions (<[id := g s]> (sessions d)) d | None => d end.
Definition reauthenticated_at (mfa : bool) (now : Z) (s : session_row) : session_row :=
  {| ss_owner := ss_owner s; ss_lookup := ss_lookup s; ss_hash := ss_hash s; ss_csrf := ss_csrf s; ss_epoch := ss_epoch s; ss_mfa := mfa || ss_mfa s;
     ss_expires := ss_expires s; ss_revoked := ss_revoked s; ss_reauthenticated := Some now |}.

(** *** Second factors *)

(** The guards that [beginMfaEnrollment] and [completeMfa] share *)
Definition enrollment_guard (p : SessionPrincipal) (now : Z) d : result owner_row :=
  o ← or_throw (the_owner (sp_ownerId p) d) (missing "OWNER identity is not initialized");
  let stale := invalid "Session is invalid or expired" in
  s ← or_throw (sessions d !! sp_sessionId p) stale;
  _ ← throw_if (negb (String.eqb (ss_owner s) (sp_ownerId p)) || ss_revoked s || (ss_expires s <=? now)) stale;
  _ ← throw_if (ow_mfa o && negb (ss_mfa s)) (missing "Existing MFA must be verified before it can be replaced");
  Ok o.
(** The transaction of [beginMfaEnrollment]: [seed], [token], [nonce] and [id] are drawn. *)
Definition begin_enrollment (p : SessionPrincipal) (seed token nonce : list Z) (id : string) (now : Z) : auth string :=
  let secret := base32Encode seed in
  let envelope := encrypt cipher nonce secret ("owner-mfa-enrollment:" +:+ sp_ownerId p) in
  txn (fun d =>
    _ ← enrollment_guard p now d;
    let rows := List.filter (fun e => negb (String.eqb (en_owner e) (sp_ownerId p) && negb (en_verified e))) (enrollments d) in
    _ ← throw_if (existsb (fun e => bool_decide (en_token e = tokenDigest (randomToken token))) rows) duplicate;
    Ok (secret, set_enrollments (rows ++ [{| en_id := id; en_owner := sp_ownerId p; en_token := tokenDigest (randomToken token); en_cipher := ciphertext envelope;
      en_nonce := env_nonce envelope; en_tag := authTag envelope; en_expires := now + MINUTES_10; en_verified := false; en_created := now |}]) d)).
Definition beginMfaEnrollment (sessionToken : string) (seed token nonce : list Z) (id : string) (now : Z) : auth string :=
  d ← get; p ← lift (authenticate sessionToken false now d); begin_enrollment p seed token nonce id now.
Definition newest (l : list enrollment_row) : option enrollment_row := head (stable_sort (fun a b => en_created b <=? en_created a) l).
Definition recovery_code (bytes : list Z * list Z) : string := to_upper (randomToken (fst bytes)) +:+ "-" +:+ to_upper (randomToken (snd bytes)).
Definition insert_recovery (owner_id : string) (t : gmap (list Z) (string * bool)) (code : string) : result (gmap (list Z) (string * bool)) :=
  _ ← throw_if (is_some (t !! tokenDigest code)) duplicate; Ok (<[tokenDigest code := (owner_id, false)]> t).
Definition replace_recovery (owner_id : string) (codes : list string) d : result auth_db :=
  t ← fold_result (insert_recovery owner_id) (filter (fun kv => negb (String.eqb kv.2.1 owner_id)) (recovery_codes d)) codes;
  Ok (set_recovery t d).
Definition activate_mfa (p : SessionPrincipal) (o : owner_row) (e : enrollment_row) (active : CipherEnvelope) (now : Z) d : auth_db :=
  let d := set_enrollments (map (fun x => if String.eqb (en_id x) (en_id e) then
             {| en_id := en_id x; en_owner := en_owner x; en_token := en_token x; en_cipher := en_cipher x; en_nonce := en_nonce x; en_tag := en_tag x;
                en_expires := en_expires x; en_verified := true; en_created := en_created x |} else x) (enrollments d)) d in
  let d := set_owner (Some {| ow_id := ow_id o; ow_username := ow_username o; ow_password := ow_password o; ow_mfa := true;
                              ow_secret := Some (authTag active ++ ciphertext active); ow_nonce := Some (env_nonce active); ow_epoch := ow_epoch o; ow_deployment := ow_deployment o |}) d in
  let d := revoke (fun id s => String.eqb (ss_owner s) (sp_ownerId p) && negb (String.eqb id (sp_sessionId p))) d in
  update_session (sp_sessionId p) (reauthenticated_at true now) d.
Definition complete_mfa (p : SessionPrincipal) (code : string) (nonce : list Z) (codes : list string) (now : Z) : auth (list string * string) := txn (fun d =>
  o ← enrollment_guard p now d;
  e ← or_throw (newest (List.filter (fun e => String.eqb (en_owner e) (sp_ownerId p) && negb (en_verified e) && (now <? en_expires e)) (enrollments d)))
        (invalid "Start MFA enrollment first");
  secret ← decrypt cipher {| ciphertext := en_cipher e; env_nonce := en_nonce e; authTag := en_tag e; keyId := ""; env_fingerprint := ""; valueDigest := [] |}
             ("owner-mfa-enrollment:" +:+ sp_ownerId p);
  ok ← verifyTotp secret code now;
  _ ← throw_if (negb ok) (invalid "Verification code is invalid");
  let active := encrypt cipher nonce secret ("owner-mfa:" +:+ sp_ownerId p) in
  d ← replace_recovery (sp_ownerId p) codes d;
  d ← append_audit "owner.mfa.enrollment.completed"
        (JObj [("ownerId", JStr (sp_ownerId p)); ("sessionId", JStr (sp_sessionId p)); ("replacement", JBool (ow_mfa o)); ("otherSessionsRevoked", JBool true)])
        (activate_mfa p o e active now d);
  Ok ((codes, secret), d)).
Definition completeMfa (sessionToken : string) (code : string) (nonce : list Z) (bytes : list (list Z * list Z)) (now : Z) : auth (list string) :=
  d ← get; p ← lift (authenticate sessionToken false now d); r ← complete_mfa p code nonce (map recovery_code bytes) now; mret (fst r).

(** What was accepted as a second factor *)
Inductive factor := ByApiKey | ByEnrollment (secret code : string) (at_ : Z) | ByTotp (secret code : string) (at_ : Z) | ByRecoveryCode (hash : list Z).
Definition totp_accepted (o : owner_row) (owner_id code : string) (now : Z) : result (option string) :=
  match ow_secret o, ow_nonce o with
  | Some stored, Some nonce =>
      if six_digits code && ow_mfa o then
        secret ← decrypt cipher {| ciphertext := skipn 16 stored; env_nonce := nonce; authTag := firstn 16 stored; keyId := ""; env_fingerprint := ""; valueDigest := [] |}
                   ("owner-mfa:" +:+ owner_id);
        ok ← verifyTotp secret code now;
        Ok (match ok with true => Some secret | false => None end)
      else Ok None
  | _, _ => Ok None
  end.
Definition consume_recovery (owner_id code : string) d : result (factor * auth_db) :=
  match recovery_codes d !! tokenDigest code with
  | Some (id, false) => if String.eqb id owner_id then Ok (ByRecoveryCode (tokenDigest code), set_recovery (<[tokenDigest code := (id, true)]> (recovery_codes d)) d)
                        else Throw (invalid "Verification code is invalid")
  | _ => Throw (invalid "Verification code is invalid")
  end.
Definition verify_mfa (p : SessionPrincipal) (code : string) (now : Z) : auth factor := txn (fun d =>
  t ← match the_owner (sp_ownerId p) d with
      | Some o => totp_accepted o (sp_ownerId p) code now
      | None => if six_digits code then Throw (JsError "TypeError") else Ok None
      end;
  fd ← match t with Some secret => Ok (ByTotp secret code now, d) | None => consume_recovery (sp_ownerId p) code d end;
  Ok (fst fd, update_session (sp_sessionId p) (reauthenticated_at true now) (snd fd))).
Definition verifyMfa (sessionToken code : string) (now : Z) : auth unit :=
  d ← get; p ← lift (authenticate sessionToken false now d); _ ← verify_mfa p code now; mret tt.
Definition mark_reauthenticated (p : SessionPrincipal) (now : Z) : auth unit := txn (fun d => Ok (tt, update_session (sp_sessionId p) (reauthenticated_at false now) d)).
Definition reauthenticate (sessionToken password : string) (mfaCode : option string) (now : Z) : auth unit :=
  d ← get;
  p ← lift (authenticate sessionToken false now d);
  match the_owner (sp_ownerId p) d with
  | Some o =>
      _ ← lift (throw_if (negb (match ow_password o with Some h => truthy h && catch_false (argon2_verify h password) | None => false end)) (invalid "Invalid credentials"));
      _ ← (if ow_mfa o then
             match mfaCode with
             | Some c => if truthy c then verifyMfa sessionToken c now else lift (Throw (missing "MFA verification is required"))
             | None => lift (Throw (missing "MFA verification is required"))
             end
           else mret tt);
      mark_reauthenticated p now
  | None => lift (Throw (invalid "Invalid credentials"))
  end.

(** *** Revocation *)

Definition logout (p : SessionPrincipal) : auth unit := txn (fun d => Ok (tt, revoke (fun id _ => String.eqb id (sp_sessionId p)) d)).
Definition listSessions (ownerId : string) (now : Z) d : list (string * session_row) :=
  List.filter (fun '(_, s) => String.eqb (ss_owner s) ownerId && live now s) (map_to_list (sessions d)).
Definition revokable (p : string -> session_row -> bool) d : Z :=
  Z.of_nat (length (List.filter (fun '(id, s) => p id s && negb (ss_revoked s)) (map_to_list (sessions d)))).
Definition revokeSession (ownerId sessionId : string) : auth unit :=
  let p := fun id s => String.eqb (ss_owner s) ownerId && String.eqb id sessionId in
  n ← txn (fun d => Ok (revokable p d, revoke p d));
  lift (throw_if (negb (n =? 1)) (missing "Session does not exist")).
Definition revokeOtherSessions (ownerId currentSessionId : string) : auth Z :=
  let p := fun id s => String.eqb (ss_owner s) ownerId && negb (String.eqb id currentSessionId) in txn (fun d => Ok (revokable p d, revoke p d)).
Definition revokeAllSessions (ownerId : string) : auth Z :=
  let p := fun _ s => String.eqb (ss_owner s) ownerId in txn (fun d => Ok (revokable p d, revoke p d)).
Definition rotate_codes (p : SessionPrincipal) (codes : list string) : auth (list string) := txn (fun d =>
  d ← replace_recovery (sp_ownerId p) codes d;
  d ← append_audit "owner.recovery_codes.rotated" (JObj [("rotated", JNum (Z.of_nat (length codes))); ("ownerId", JStr (sp_ownerId p))]) d;
  Ok (codes, d)).
Definition rotateRecoveryCodes (sessionToken : string) (bytes : list (list Z * list Z)) (now : Z) : auth (list string) :=
  d ← get; p ← lift (authenticate sessionToken true now d); rotate_codes p (map recovery_code bytes).

(** ** Interleaved calls *)

(** The database; the logins that passed their checks, with the row they read; the principals that were authenticated; the
    second factors that were accepted, with the tables at that time; and the recovery codes that were stored.  A principal
    or a login may be used at any later time and any number of times. *)
Inductive credentials := ByPassword (username password : string) | ApiKey.
Record login_entry := { lg_row : owner_row; lg_draws : draws; lg_by : credentials }.
Record world := { db : auth_db; logins : list login_entry; principals : list SessionPrincipal; factors : list (string * auth_db * factor); issued : list (list Z) }.
Definition set_db d (w : world) : world := {| db := d; logins := logins w; principals := principals w; factors := factors w; issued := issued w |}.
Definition log_login l (w : world) : world := {| db := db w; logins := l :: logins w; principals := principals w; factors := factors w; issued := issued w |}.
Definition log_principal p (w : world) : world := {| db := db w; logins := logins w; principals := p :: principals w; factors := factors w; issued := issued w |}.
Definition log_factor id f (w : world) : world := {| db := db w; logins := logins w; principals := principals w; factors := (id, db w, f) :: factors w; issued := issued w |}.
Definition log_codes cs (w : world) : world := {| db := db w; logins := logins w; principals := principals w; factors := factors w; issued := map tokenDigest cs ++ issued w |}.
Definition is_api_key (c : credentials) : bool := match c with ApiKey => true | ByPassword _ _ => false end.

(** The calls that neither open a session nor grant a second factor nor store recovery codes *)
Inductive call :=
  | Synchronize (password : string) (salt : list Z) | RecordFailure (key : list Z) | ClearFailures (key : list Z) | Audit (type : string) (payload : json)
  | BeginEnrollment (p : SessionPrincipal) (seed token nonce : list Z) (id : string) | MarkReauthenticated (p : SessionPrincipal) | Logout (p : SessionPrincipal)
  | RevokeSession (ownerId sessionId : string) | RevokeOther (ownerId sessionId : string) | RevokeAll (ownerId : string).
Definition run_call (c : call) (now : Z) d : auth_db :=
  match c with
  | Synchronize password salt => snd (synchronizeDeploymentPassword password salt d)
  | RecordFailure key => recordLoginFailure key now d
  | ClearFailures key => set_throttles (delete key (throttles d)) d
  | Audit type payload => snd (txn (fun d => d ← append_audit type payload d; Ok (tt, d)) d)
  | BeginEnrollment p seed token nonce id => snd (begin_enrollment p seed token nonce id now d)
  | MarkReauthenticated p => snd (mark_reauthenticated p now d)
  | Logout p => snd (logout p d)
  | RevokeSession o s => snd (revokeSession o s d)
  | RevokeOther o s => snd (revokeOtherSessions o s d)
  | RevokeAll o => snd (revokeAllSessions o d)
  end.
Inductive step (w : world) : world -> Prop :=
  | St_call c now : step w (set_db (run_call c now (db w)) w)
  | St_check_login username password remoteAddress now o x :
      locked (throttle_key remoteAddress) now (db w) = false -> owner (db w) = Some o -> valid_credentials username password (Some o) = true ->
      step w (log_login {| lg_row := o; lg_draws := x; lg_by := ByPassword username password |} w)
  | St_api_key o x : owner (db w) = Some o -> step w (log_login {| lg_row := o; lg_draws := x; lg_by := ApiKey |} w)
  | St_create l now r d' : l ∈ logins w -> createSession (lg_row l) (lg_draws l) (is_api_key (lg_by l)) now (db w) = (Ok r, d') ->
      step w (set_db d' (if is_api_key (lg_by l) then log_factor (dr_id (lg_draws l)) ByApiKey w else w))
  | St_authenticate token requireMfa now p : authenticate token requireMfa now (db w) = Ok p -> step w (log_principal p w)
  | St_complete p code nonce codes now r d' : p ∈ principals w -> complete_mfa p code nonce codes now (db w) = (Ok r, d') ->
      step w (set_db d' (log_codes codes (log_factor (sp_sessionId p) (ByEnrollment (snd r) code now) w)))
  | St_verify p code now f d' : p ∈ principals w -> verify_mfa p code now (db w) = (Ok f, d') -> step w (set_db d' (log_factor (sp_sessionId p) f w))
  | St_rotate p codes r d' : p ∈ principals w -> rotate_codes p codes (db w) = (Ok r, d') -> step w (set_db d' (log_codes codes w)).

(** An installation as it is deployed: nobody has logged in, no code was stored. *)
Definition initial (w : world) : Prop :=
  sessions (db w) = ∅ /\ recovery_codes (db w) = ∅ /\ logins w = [] /\ principals w = [] /\ factors w = [] /\ issued w = [].
Definition reachable (w : world) : Prop := exists w0, initial w0 /\ star step w0 w.

(** *** What a call does to sessions, the owner and recovery codes *)

(** The password and the epoch change together, and the epoch grows. *)
Definition owner_le (a b : option owner_row) : Prop :=
  forall o, a = Some o -> exists o', b = Some o' /\ ow_id o' = ow_id o /\ ow_epoch o <= ow_epoch o' /\
    (ow_epoch o' = ow_epoch o -> ow_password o' = ow_password o /\ ow_username o' = ow_username o).
(** Sessions stay and keep their epoch; only [granted] may gain a second factor. *)
Definition session_le (granted : bool) (a b : option session_row) : Prop :=
  match a, b with
  | Some s, Some s' => ss_epoch s' = ss_epoch s /\ ss_owner s' = ss_owner s /\ (ss_mfa s' = true -> ss_mfa s = true \/ granted = true)
  | None, None => True
  | _, _ => False
  end.
Record calm (granted : option string) (d d' : auth_db) : Prop := {
  calm_owner : owner_le (owner d) (owner d');
  calm_sessions id : session_le (bool_decide (granted = Some id)) (sessions d !! id) (sessions d' !! id);
}.
Lemma owner_le_refl a : owner_le a a.
Proof. intros o ->. exists o. repeat split; lia. Qed.
Lemma session_le_refl g a : session_le g a a.
Proof. destruct a; naive_solver. Qed.
Lemma session_le_trans g a b c : session_le g a b -> session_le g b c -> session_le g a c.
Proof. destruct a, b, c; simpl; try done; naive_solver congruence. Qed.
Lemma owner_le_trans a b c : owner_le a b -> owner_le b c -> owner_le a c.
Proof.
  intros H1 H2 o Ho. destruct (H1 o Ho) as (o1 & E1 & I1 & L1 & K1). destruct (H2 o1 E1) as (o2 & E2 & I2 & L2 & K2).
  exists o2. split; [done|]. split; [congruence|]. split; [lia|]. intros E.
  destruct K1 as [P1 U1]; [lia|]. destruct K2 as [P2 U2]; [lia|]. split; congruence.
Qed.
Lemma calm_refl g d : calm g d d.
Proof. split; [apply owner_le_refl | intros; apply session_le_refl]. Qed.
Lemma calm_trans g a b c : calm g a b -> calm g b c -> calm g a c.
Proof. intros [O1 S1'] [O2 S2]. split; [by eapply owner_le_trans|]. intros id. eapply session_le_trans; [apply S1' | apply S2]. Qed.
Lemma calm_weaken g a b : calm None a b -> calm g a b.
Proof. intros [O1 S1']. split; [done|]. intros id. specialize (S1' id). destruct (sessions a !! id), (sessions b !! id); simpl in *; naive_solver. Qed.
Lemma calm_same g d d' : owner d' = owner d -> sessions d' = sessions d -> calm g d d'.
Proof. intros E1 E2. split; [rewrite E1; apply owner_le_refl | intros id; rewrite E2; apply session_le_refl]. Qed.
Lemma calm_revoke g p d : calm g d (revoke p d).
Proof.
  split; [apply owner_le_refl|]. intros id. simpl. rewrite map_lookup_imap.
  destruct (sessions d !! id) as [s|]; simpl; [|done]. destruct (p id s && negb (ss_revoked s)); simpl; naive_solver.
Qed.
Lemma calm_update g id mfa now d : (mfa = true -> g = Some id) -> calm g d (update_session id (reauthenticated_at mfa now) d).
Proof.
  intros Hg. unfold update_session. destruct (sessions d !! id) as [s|] eqn:Es; [|apply calm_refl]. split; [apply owner_le_refl|]. intros i. simpl.
  destruct (decide (i = id)) as [->|Hi].
  - rewrite Es, lookup_insert_eq. simpl. repeat split; try done. rewrite orb_true_iff, bool_decide_eq_true. intros [E|E]; auto.
  - rewrite lookup_insert_ne by congruence. apply session_le_refl.
Qed.
Lemma append_audit_same ty pl d d' : append_audit ty pl d = Ok d' -> owner d' = owner d /\ sessions d' = sessions d /\ recovery_codes d' = recovery_codes d.
Proof. unfold append_audit. intros E. inv_ok. by subst. Qed.
Lemma the_owner_Some id d o : the_owner id d = Some o <-> owner d = Some o /\ ow_id o = id.
Proof. unfold the_owner. destruct (owner d) as [o'|]; [|naive_solver]. destruct (String.eqb_spec (ow_id o') id); naive_solver. Qed.
Lemma snd_txn {B} (Q : auth_db -> Prop) (body : auth_db -> result (B * auth_db)) d :
  Q d -> (forall a d', body d = Ok (a, d') -> Q d') -> Q (snd (txn body d)).
Proof. intros H0 H1. unfold txn. destruct (body d) as [[a d']|e] eqn:E; simpl; eauto. Qed.
Lemma snd_bind {B C} (Q : auth_db -> Prop) (m : auth B) (f : B -> auth C) d :
  Q (snd (m d)) -> (forall a d', m d = (Ok a, d') -> Q (snd (f a d'))) -> Q (snd ((m ≫= f) d)).
Proof. intros H0 H1. unfold mbind, io_bind. destruct (m d) as [[a|e] d'] eqn:E; [by apply H1 | exact H0]. Qed.

(** The password is replaced: whatever happens later in the call, the epoch has grown. *)
Record synchronized (password : string) (d d' : auth_db) : Prop := {
  sy_owner : exists o o' salt, owner d = Some o /\ owner d' = Some o' /\ ow_id o' = ow_id o /\ ow_epoch o' = ow_epoch o + 1 /\ ow_password o' = Some (argon2_hash salt password);
  sy_sessions id : session_le false (sessions d !! id) (sessions d' !! id);
}.
Lemma synchronized_calm password d d' : synchronized password d d' -> calm None d d'.
Proof.
  intros [(o & o' & salt & E & E' & Hid & He & _) Hs]. split; [|intros id; apply Hs].
  intros o1 Eo1. replace o1 with o in * by congruence. exists o'. split; [done|]. split; [done|]. split; [lia|]. intros ?. lia.
Qed.
Lemma store_password_spec password salt d d' :
  store_password (argon2_hash salt password) d = Ok (tt, d') -> synchronized password d d' /\ recovery_codes d' = recovery_codes d.
Proof.
  unfold store_password. intros E. inv_ok. simplify_eq. apply append_audit_same in Hok2 as (E1 & E2 & E3). simpl in E1, E2, E3. split; [|done]. split.
  - do 3 eexists. split; [done|]. rewrite E1. done.
  - intros id. rewrite E2. apply (calm_sessions _ _ _ (calm_revoke None (fun _ s => String.eqb (ss_owner s) (ow_id a0)) d) id).
Qed.
Lemma synchronize_spec password salt d :
  let '(r, d') := synchronizeDeploymentPassword password salt d in
  (synchronized password d d' /\ recovery_codes d' = recovery_codes d) \/ (d' = d /\ is_Ok r = false).
Proof.
  unfold synchronizeDeploymentPassword, mbind, io_bind, lift, get, txn.
  destruct (throw_if _ _); [|by right]. destruct (store_password _ d) as [[[] d']|e] eqn:E; [|by right].
  left. by eapply store_password_spec.
Qed.
Lemma run_call_calm c now d : calm None d (run_call c now d) /\ recovery_codes (run_call c now d) = recovery_codes d.
Proof.
  destruct c; cbn [run_call].
  - pose proof (synchronize_spec password salt d) as E. destruct (synchronizeDeploymentPassword _ _ _) as [r d']. simpl.
    destruct E as [[E ?] | [-> _]]; split; try done; [by eapply synchronized_calm | apply calm_refl].
  - split; [by apply calm_same | done].
  - split; [by apply calm_same | done].
  - apply (snd_txn (fun d' => calm None d d' /\ recovery_codes d' = recovery_codes d)); [split; [apply calm_refl | done]|]. intros a d' E. inv_ok. simplify_eq. apply append_audit_same in Hok as (E1 & E2 & E3). split; [apply calm_same; assumption | exact E3].
  - apply (snd_txn (fun d' => calm None d d' /\ recovery_codes d' = recovery_codes d)); [split; [apply calm_refl | done]|]. intros a d' E. cbv beta zeta in E. inv_ok. simplify_eq. split; [by apply calm_same | done].
  - split; [by apply calm_update | simpl]. unfold update_session. by case_match.
  - split; [apply calm_revoke | done].
  - unfold revokeSession, mbind, io_bind, lift, txn. split; [apply calm_revoke | done].
  - split; [apply calm_revoke | done].
  - split; [apply calm_revoke | done].
Qed.

Definition occurrences (h : list Z) (l : list (list Z)) : nat := length (List.filter (fun x => bool_decide (x = h)) l).
(** Recovery codes: what is stored and unused was just issued or was there before. *)
Definition unused (h : list Z) d : nat := match recovery_codes d !! h with Some (_, false) => 1 | _ => 0 end.
Lemma insert_all_unused owner_id codes t t' h :
  fold_result (insert_recovery owner_id) t codes = Ok t' ->
  (match t' !! h with Some (_, false) => 1 | _ => 0 end = (match t !! h with Some (_, false) => 1 | _ => 0 end) + occurrences h (map tokenDigest codes))%nat.
Proof.
  revert t. induction codes as [|c codes IH]; intros t E; simpl in *; [inv_ok; subst; unfold occurrences; simpl; lia|].
  inv_ok. rewrite (IH _ E). unfold occurrences; simpl. unfold insert_recovery in Hok. inv_ok. subst.
  destruct (decide (tokenDigest c = h)) as [<-|Hne].
  - rewrite lookup_insert_eq, bool_decide_eq_true_2 by done. by destruct (t !! tokenDigest c).
  - by rewrite lookup_insert_ne, bool_decide_eq_false_2 by done.
Qed.
Lemma replace_recovery_spec owner_id codes d d' h :
  replace_recovery owner_id codes d = Ok d' ->
  owner d' = owner d /\ sessions d' = sessions d /\ (unused h d' <= unused h d + occurrences h (map tokenDigest codes))%nat.
Proof.
  unfold replace_recovery. intros E. inv_ok. subst. split; [done|]. split; [done|]. unfold unused. simpl.
  rewrite (insert_all_unused _ _ _ _ h Hok). rewrite map_lookup_filter.
  destruct (recovery_codes d !! h) as [[o []]|]; simpl; try lia; case_guard; simpl; lia.
Qed.

(** *** The four calls that change what a session may do *)

Lemma createSession_spec l now r d d' :
  createSession (lg_row l) (lg_draws l) (is_api_key (lg_by l)) now d = (Ok r, d') ->
  sessions d !! dr_id (lg_draws l) = None /\ owner d' = owner d /\ recovery_codes d' = recovery_codes d /\
  sessions d' = <[dr_id (lg_draws l) := new_session (lg_row l) (lg_draws l) (is_api_key (lg_by l)) now]> (sessions d).
Proof.
  unfold createSession. intros E. inv_io. reflect_bools. simplify_eq. split; [|done].
  destruct (sessions d !! dr_id (lg_draws l)); [naive_solver | done].
Qed.
(** What stands behind an accepted second factor of session [id]; [d] are the tables when it was accepted *)
Definition justified (ls : list login_entry) (id : string) d (f : factor) : Prop :=
  match f with
  | ByApiKey => exists l, l ∈ ls /\ lg_by l = ApiKey /\ dr_id (lg_draws l) = id
  | ByEnrollment secret code at_ => verifyTotp secret code at_ = Ok true /\
      exists o s, owner d = Some o /\ sessions d !! id = Some s /\ (ow_mfa o = true -> ss_mfa s = true)
  | ByTotp secret code at_ => verifyTotp secret code at_ = Ok true /\
      exists o stored nonce, owner d = Some o /\ ow_mfa o = true /\ ow_secret o = Some stored /\ ow_nonce o = Some nonce /\
        decrypt cipher {| ciphertext := skipn 16 stored; env_nonce := nonce; authTag := firstn 16 stored; keyId := ""; env_fingerprint := ""; valueDigest := [] |}
          ("owner-mfa:" +:+ ow_id o) = Ok secret
  | ByRecoveryCode h => exists o, recovery_codes d !! h = Some (o, false)
  end.
Lemma enrollment_guard_Ok p now d o :
  enrollment_guard p now d = Ok o ->
  owner d = Some o /\ exists s, sessions d !! sp_sessionId p = Some s /\ (ow_mfa o = true -> ss_mfa s = true).
Proof.
  unfold enrollment_guard. intros E. inv_ok. subst. apply the_owner_Some in Hok as [Ho _]. split; [done|]. exists a0. split; [done|].
  intros Em. rewrite Em in Hok2. by destruct (ss_mfa a0).
Qed.
Lemma calm_activate p o e active now d : owner d = Some o -> calm (Some (sp_sessionId p)) d (activate_mfa p o e active now d).
Proof.
  intros Ho. unfold activate_mfa. eapply calm_trans; [|by apply calm_update]. eapply calm_trans; [|apply calm_revoke].
  split; [|intros; apply session_le_refl]. rewrite Ho. intros o' [= <-]. eexists. split; [done|]. simpl. split_and!; done || lia.
Qed.
Lemma update_session_recovery id g d : recovery_codes (update_session id g d) = recovery_codes d.
Proof. unfold update_session. by destruct (sessions d !! id). Qed.
Lemma activate_recovery p o e active now d : recovery_codes (activate_mfa p o e active now d) = recovery_codes d.
Proof. unfold activate_mfa. by rewrite update_session_recovery. Qed.
Lemma complete_mfa_spec ls p code nonce codes now r d d' :
  complete_mfa p code nonce codes now d = (Ok r, d') ->
  calm (Some (sp_sessionId p)) d d' /\ (forall h, unused h d' <= unused h d + occurrences h (map tokenDigest codes))%nat /\
  justified ls (sp_sessionId p) d (ByEnrollment (snd r) code now).
Proof.
  unfold complete_mfa. intros E. inv_io. cbv zeta in E. inv_ok. reflect_bools. simplify_eq.
  apply enrollment_guard_Ok in Hok as (Ho & s & Hs & Hm).
  match goal with Ha : append_audit _ _ _ = Ok _ |- _ => apply append_audit_same in Ha as (A1 & A2 & A3) end.
  match goal with Hr : replace_recovery _ _ ?d = Ok _ |- _ => pose proof (fun h => replace_recovery_spec _ _ _ _ h Hr) as R end.
  rewrite activate_recovery in A3. split; [|split].
  - eapply calm_trans; [|eapply calm_trans; [apply (calm_activate p a a0)|by apply calm_same]].
    + destruct (R []) as (R1 & R2 & _). by apply calm_same.
    + destruct (R []) as (R1 & R2 & _). by rewrite R1.
  - intros h. destruct (R h) as (_ & _ & R3). unfold unused in *. by rewrite A3.
  - simpl. split; [done | by exists a, s].
Qed.
Lemma calm_consume owner_id code d f d' :
  consume_recovery owner_id code d = Ok (f, d') -> owner d' = owner d /\ sessions d' = sessions d /\ f = ByRecoveryCode (tokenDigest code) /\
    recovery_codes d !! tokenDigest code = Some (owner_id, false) /\ recovery_codes d' = <[tokenDigest code := (owner_id, true)]> (recovery_codes d).
Proof.
  unfold consume_recovery. destruct (recovery_codes d !! tokenDigest code) as [[id []]|] eqn:E; try done.
  destruct (String.eqb_spec id owner_id) as [->|]; [|done]. intros [= <- <-]. done.
Qed.
Lemma verify_mfa_spec ls p code now f d d' :
  verify_mfa p code now d = (Ok f, d') ->
  calm (Some (sp_sessionId p)) d d' /\ justified ls (sp_sessionId p) d f /\
  forall h, (unused h d' + (match f with ByRecoveryCode h' => if bool_decide (h' = h) then 1 else 0 | _ => 0 end) = unused h d)%nat.
Proof.
  unfold verify_mfa. intros E. apply txn_Ok in E. apply bind_Ok_inv in E as (t & Et & E). apply bind_Ok_inv in E as ([f' d1] & Ef & E).
  simplify_eq. simpl.
  destruct t as [secret|].
  - injection Ef as <- <-. split; [by apply calm_update|]. split; [|intros h; unfold unused; rewrite update_session_recovery; lia].
    destruct (the_owner _ d) as [o|] eqn:Eo; [|by destruct (six_digits code)]. apply the_owner_Some in Eo as [Eo Hid]. rewrite <- Hid in Et.
    unfold totp_accepted in Et. destruct (ow_secret o) as [stored|] eqn:Es; [|done]. destruct (ow_nonce o) as [nonce|] eqn:En; [|done].
    destruct (six_digits code); [|done]. destruct (ow_mfa o) eqn:Hm; [|done]. simpl in Et. inv_ok. destruct a0; [|done]. simplify_eq. simpl. eauto 10.
  - apply calm_consume in Ef as (E1 & E2 & -> & E3 & E4). split; [|split].
    + eapply calm_trans; [by apply calm_same | by apply calm_update].
    + simpl. eauto.
    + intros h. unfold unused. rewrite update_session_recovery, E4. destruct (decide (tokenDigest code = h)) as [<-|Hn].
      * by rewrite lookup_insert_eq, bool_decide_eq_true_2, E3 by done.
      * rewrite lookup_insert_ne, bool_decide_eq_false_2 by done. lia.
Qed.
Lemma rotate_codes_spec p codes r d d' :
  rotate_codes p codes d = (Ok r, d') ->
  calm None d d' /\ (forall h, unused h d' <= unused h d + occurrences h (map tokenDigest codes))%nat.
Proof.
  unfold rotate_codes. intros E. inv_io. simplify_eq.
  match goal with Ha : append_audit _ _ _ = Ok _ |- _ => apply append_audit_same in Ha as (A1 & A2 & A3) end.
  match goal with Hr : replace_recovery _ _ ?d = Ok _ |- _ => pose proof (fun h => replace_recovery_spec _ _ _ _ h Hr) as R end.
  split.
  - destruct (R []) as (R1 & R2 & _). apply calm_same; congruence.
  - intros h. destruct (R h) as (_ & _ & R3). unfold unused in *. by rewrite A3.
Qed.

(** *** The invariant of the service *)

Definition consumes (h : list Z) (x : string * auth_db * factor) : bool := match x.2 with ByRecoveryCode h' => bool_decide (h' = h) | _ => false end.
Definition uses (h : list Z) (l : list (string * auth_db * factor)) : nat := length (List.filter (consumes h) l).
Definition login_checked (l : login_entry) (o : owner_row) : Prop :=
  match lg_by l with ByPassword username password => valid_credentials username password (Some o) = true | ApiKey => True end.
Record invariant (w : world) : Prop := {
  iv_logins l : l ∈ logins w -> login_checked l (lg_row l) /\ exists o, owner (db w) = Some o /\ ow_epoch (lg_row l) <= ow_epoch o /\
    (ow_epoch (lg_row l) = ow_epoch o -> ow_password (lg_row l) = ow_password o /\ ow_username (lg_row l) = ow_username o);
  iv_sessions id s : sessions (db w) !! id = Some s -> exists l, l ∈ logins w /\ dr_id (lg_draws l) = id /\ ss_epoch s = ow_epoch (lg_row l);
  iv_factors id s : sessions (db w) !! id = Some s -> ss_mfa s = true -> exists d f, (id, d, f) ∈ factors w;
  iv_justified id d f : (id, d, f) ∈ factors w -> justified (logins w) id d f;
  iv_codes h : (uses h (factors w) + unused h (db w) <= occurrences h (issued w))%nat;
}.
Lemma login_checked_row l o o' : ow_password o = ow_password o' -> ow_username o = ow_username o' -> login_checked l o -> login_checked l o'.
Proof. unfold login_checked, valid_credentials. intros -> ->. done. Qed.
Lemma justified_mono l ls id d f : justified ls id d f -> justified (l :: ls) id d f.
Proof. destruct f; simpl; try done. intros (l' & ? & ?). exists l'. split; [by right | done]. Qed.
(** A call that grants [g] at most, logs [fs] and stores [cs] *)
Lemma invariant_calm g d' fs cs w :
  invariant w -> calm g (db w) d' -> (forall id, g = Some id -> exists d f, (id, d, f) ∈ fs) -> (forall id d f, (id, d, f) ∈ fs -> justified (logins w) id d f) ->
  (forall h, uses h fs + unused h d' <= unused h (db w) + occurrences h cs)%nat ->
  invariant {| db := d'; logins := logins w; principals := principals w; factors := fs ++ factors w; issued := cs ++ issued w |}.
Proof.
  intros [I1 I2 I3 I4 I5] [C1 C2] Hg Hj Hc. split; simpl.
  - intros l Hl. destruct (I1 l Hl) as (Hk & o & Eo & He & Hp). split; [done|]. destruct (C1 o Eo) as (o' & Eo' & _ & He' & Hp').
    exists o'. split; [done|]. split; [lia|]. intros E. destruct Hp as [P1 P2]; [lia|]. destruct Hp' as [P1' P2']; [lia|]. split; congruence.
  - intros id s' Hs'. specialize (C2 id). rewrite Hs' in C2. destruct (sessions (db w) !! id) as [s|] eqn:Es; [|done]. destruct C2 as (E & _ & _).
    destruct (I2 id s Es) as (l & ? & ? & ?). exists l. split_and!; [done | done | congruence].
  - intros id s' Hs' Hm. specialize (C2 id). rewrite Hs' in C2. destruct (sessions (db w) !! id) as [s|] eqn:Es; [|done]. destruct C2 as (_ & _ & E).
    destruct (E Hm) as [Hs | Hid].
    + destruct (I3 id s Es Hs) as (d & f & Hin). exists d, f. apply elem_of_app. by right.
    + apply bool_decide_eq_true in Hid. destruct (Hg id Hid) as (d & f & Hin). exists d, f. apply elem_of_app. by left.
  - intros id d f [Hin|Hin]%elem_of_app; eauto.
  - intros h. specialize (I5 h). specialize (Hc h). unfold uses, occurrences in *. rewrite !List.filter_app, !length_app. lia.
Qed.
Lemma invariant_login l w :
  invariant w -> owner (db w) = Some (lg_row l) -> login_checked l (lg_row l) -> invariant (log_login l w).
Proof.
  intros [I1 I2 I3 I4 I5] Ho Hl. split; simpl; try done.
  - intros l' [->|Hin]%elem_of_cons; [|by apply I1]. split; [done|]. exists (lg_row l). split; [done|]. split; [lia|]. done.
  - intros id s Hs. destruct (I2 id s Hs) as (l' & Hin & ?). exists l'. split; [by right | done].
  - intros id d f Hin. by apply justified_mono, I4.
Qed.
Lemma invariant_create l now r d' w :
  invariant w -> l ∈ logins w -> createSession (lg_row l) (lg_draws l) (is_api_key (lg_by l)) now (db w) = (Ok r, d') ->
  invariant (set_db d' (if is_api_key (lg_by l) then log_factor (dr_id (lg_draws l)) ByApiKey w else w)).
Proof.
  intros [I1 I2 I3 I4 I5] Hl E. apply createSession_spec in E as (En & Eo & Er & Es).
  assert (Hs : forall id s, sessions d' !! id = Some s -> (id = dr_id (lg_draws l) /\ s = new_session (lg_row l) (lg_draws l) (is_api_key (lg_by l)) now) \/ sessions (db w) !! id = Some s).
  { intros id s Hs. rewrite Es in Hs. apply lookup_insert_Some in Hs as [[<- <-]|[_ ?]]; auto. }
  assert (Hj : is_api_key (lg_by l) = true -> justified (logins w) (dr_id (lg_draws l)) (db w) ByApiKey).
  { intros Hk. exists l. split; [done|]. split; [|done]. by destruct (lg_by l). }
  split.
  - intros l' Hl'. simpl. rewrite Eo. apply I1. by destruct (is_api_key (lg_by l)).
  - intros id s H'. destruct (Hs id s H') as [[-> ->]|H1]; simpl.
    + exists l. split; [by destruct (is_api_key (lg_by l)) | done].
    + destruct (I2 id s H1) as (l' & ? & ?). exists l'. split; [by destruct (is_api_key (lg_by l)) | done].
  - intros id s H' Hm. destruct (Hs id s H') as [[-> ->]|H1]; simpl in *.
    + rewrite Hm. simpl. eexists _, _. by left.
    + destruct (I3 id s H1 Hm) as (d & f & Hin). exists d, f. destruct (is_api_key (lg_by l)); [by right | done].
  - intros id d f. simpl. destruct (is_api_key (lg_by l)) eqn:Ek; simpl; [|by apply I4]. intros [[= -> -> ->]|Hin]%elem_of_cons; [by apply Hj | by apply I4].
  - intros h. specialize (I5 h). unfold unused in *. simpl. rewrite Er. by destruct (is_api_key (lg_by l)).
Qed.
Lemma initial_invariant w : initial w -> invariant w.
Proof.
  intros (E1 & E2 & E3 & E4 & E5 & E6). split; rewrite ?E3, ?E5, ?E6.
  - by intros l ?%elem_of_nil.
  - intros id s. by rewrite E1, lookup_empty.
  - intros id s. by rewrite E1, lookup_empty.
  - by intros id d f ?%elem_of_nil.
  - intros h. unfold unused. rewrite E2, lookup_empty. done.
Qed.
Lemma step_invariant w w' : step w w' -> invariant w -> invariant w'.
Proof.
  intros Hst Hi. destruct Hst.
  - destruct (run_call_calm c now (db w)) as [Hc Hr]. apply (invariant_calm None _ [] [] w); try done.
    + by intros id d f ?%elem_of_nil.
    + intros h. unfold unused. rewrite Hr. simpl. lia.
  - by apply invariant_login.
  - by apply invariant_login.
  - by eapply invariant_create.
  - by destruct Hi.
  - apply (complete_mfa_spec (logins w)) in H1 as (Hc & Hu & Hj). apply (invariant_calm (Some (sp_sessionId p)) d' [(sp_sessionId p, db w, ByEnrollment (snd r) code now)] (map tokenDigest codes) w); try done.
    + intros id [= <-]. eexists _, _. by left.
    + intros id d f Hin. apply list_elem_of_singleton in Hin as [= -> -> ->]. done.
  - apply (verify_mfa_spec (logins w)) in H1 as (Hc & Hj & Hu). apply (invariant_calm (Some (sp_sessionId p)) d' [(sp_sessionId p, db w, f)] [] w); try done.
    + intros id [= <-]. eexists _, _. by left.
    + intros id d f' Hin. apply list_elem_of_singleton in Hin as [= -> -> ->]. done.
    + intros h. rewrite <- (Hu h). unfold uses, consumes. simpl. destruct f; simpl; try lia. case_bool_decide; simpl; lia.
  - apply rotate_codes_spec in H1 as (Hc & Hu). apply (invariant_calm None _ [] (map tokenDigest codes) w); try done.
    by intros id d f ?%elem_of_nil.
Qed.
Lemma reachable_invariant w : reachable w -> invariant w.
Proof. intros (w0 & H0 & Hs). eapply star_invariant; [|by apply initial_invariant|exact Hs]. intros a b Ia Hab. by eapply step_invariant. Qed.

(** *** Sessions and passwords *)

Lemma authenticate_Ok token requireMfa now d p :
  authenticate token requireMfa now d = Ok p ->
  exists s o, sessions d !! sp_sessionId p = Some s /\ owner d = Some o /\ ss_epoch s = ow_epoch o /\ live now s = true /\ sp_epoch p = ss_epoch s /\
    (requireMfa = true -> ss_mfa s = true).
Proof.
  unfold authenticate. intros E. apply bind_Ok_inv in E as ([[id s] o] & Ef & E). inv_ok. subst p. simpl. unfold find_session in Ef.
  destruct (List.find _ _) as [[id' s']|] eqn:Efind; [|done]. apply List.find_some in Efind as [Hin Hb].
  destruct (the_owner (ss_owner s') d) as [o'|] eqn:Eo; [|done]. injection Ef as -> -> ->. apply the_owner_Some in Eo as [Eo _].
  apply list_elem_of_In, elem_of_map_to_list in Hin. exists s, o. apply andb_true_iff in Hb as [_ Hl]. reflect_bools.
  split_and!; try done. intros ->. by destruct (ss_mfa s).
Qed.
Definition keeps (w w' : world) : Prop :=
  owner_le (owner (db w)) (owner (db w')) /\
  forall id s, sessions (db w) !! id = Some s -> exists s', sessions (db w') !! id = Some s' /\ ss_epoch s' = ss_epoch s.
Lemma keeps_calm g d' w w' : db w' = d' -> calm g (db w) d' -> keeps w w'.
Proof.
  intros <- [C1 C2]. split; [done|]. intros id s Hs. specialize (C2 id). rewrite Hs in C2. destruct (sessions (db w') !! id) as [s'|]; [|done].
  exists s'. split; [done|]. apply C2.
Qed.
Lemma keeps_refl w : keeps w w.
Proof. by apply (keeps_calm None (db w)); [|apply calm_refl]. Qed.
Lemma keeps_trans a b c : keeps a b -> keeps b c -> keeps a c.
Proof.
  intros [O1 K1] [O2 K2]. split; [by eapply owner_le_trans|]. intros id s Hs. destruct (K1 id s Hs) as (s1 & Hs1 & E1). destruct (K2 id s1 Hs1) as (s2 & Hs2 & E2).
  exists s2. split; [done | congruence].
Qed.
Lemma step_keeps w w' : step w w' -> keeps w w'.
Proof.
  intros Hst. destruct Hst; try (apply (keeps_calm None (db w)); [done | apply calm_refl]).
  - eapply keeps_calm; [done|]. apply run_call_calm.
  - apply createSession_spec in H1 as (En & Eo & _ & Es). split; simpl; [rewrite Eo; apply owner_le_refl|].
    intros id s Hs. rewrite Es. exists s. split; [|done]. rewrite lookup_insert_ne; [done|]. intros <-. congruence.
  - apply (complete_mfa_spec []) in H1 as (Hc & _). by eapply keeps_calm.
  - apply (verify_mfa_spec []) in H1 as (Hc & _). by eapply keeps_calm.
  - apply rotate_codes_spec in H1 as (Hc & _). by eapply keeps_calm.
Qed.
Lemma star_keeps w w' : star step w w' -> keeps w w'.
Proof. induction 1 as [|a b c Hab _ IH]; [apply keeps_refl|]. eapply keeps_trans; [by apply step_keeps | exact IH]. Qed.

(** C24. Changing the password ends every session and every login in flight.  After the deployment password was
    synchronized, in every interleaving of every client's calls, a token authenticates only for a session that did not
    exist at that time, and that was opened by a login checked later, whose user name and password are valid for the
    owner as he is now, or with the API key. *)
Theorem password_change_ends_sessions w password salt d1 w2 token requireMfa now p :
  reachable w -> synchronizeDeploymentPassword password salt (db w) = (Ok tt, d1) -> star step (set_db d1 w) w2 ->
  authenticate token requireMfa now (db w2) = Ok p ->
  sessions (db w) !! sp_sessionId p = None /\
  exists l o, l ∈ logins w2 /\ ~ (l ∈ logins w) /\ dr_id (lg_draws l) = sp_sessionId p /\ owner (db w2) = Some o /\ login_checked l o.
Proof.
  intros Hr Hs Hst Ha. pose proof (reachable_invariant w Hr) as Hi. pose proof (synchronize_spec password salt (db w)) as Hsync. rewrite Hs in Hsync.
  destruct Hsync as [[[Hy _] _] | [_ ?]]; [|done]. destruct Hy as (o0 & o1 & salt' & Eo0 & Eo1 & _ & Ee & _).
  assert (Hc : step w (set_db d1 w)). { replace d1 with (run_call (Synchronize password salt) now (db w)) by (simpl; by rewrite Hs). apply St_call. }
  assert (Hi2 : invariant w2). { apply reachable_invariant. destruct Hr as (w0 & Hw0 & Hw). exists w0. split; [done|]. eapply star_trans; [exact Hw|]. by eapply star_step. }
  destruct (star_keeps _ _ Hst) as [HO _]. destruct (HO o1 Eo1) as (o & Eo & _ & Hle & _).
  apply authenticate_Ok in Ha as (s & o' & Es & Eo' & He & _). replace o' with o in * by congruence.
  destruct (iv_sessions _ Hi2 _ _ Es) as (l & Hl & Hid & Hel). destruct (iv_logins _ Hi2 l Hl) as (Hk & o2 & Eo2 & _ & Hp). replace o2 with o in * by congruence.
  split.
  - destruct (sessions (db w) !! sp_sessionId p) as [s0|] eqn:E0; [|done]. exfalso.
    destruct (iv_sessions _ Hi _ _ E0) as (l0 & Hl0 & _ & He0). destruct (iv_logins _ Hi l0 Hl0) as (_ & o3 & Eo3 & Hle3 & _).
    destruct (star_keeps _ _ (star_step _ _ _ _ Hc Hst)) as [_ HK]. destruct (HK _ _ E0) as (s2 & Es2 & Hes). replace s2 with s in * by congruence. replace o3 with o0 in * by congruence. lia.
  - exists l, o. split_and!; try done.
    + intros Hold. destruct (iv_logins _ Hi l Hold) as (_ & o3 & Eo3 & Hle3 & _). replace o3 with o0 in * by congruence. lia.
    + destruct Hp as [P1 P2]; [lia|]. by eapply login_checked_row.
Qed.

(** C25. No session passes the check for a second factor without one.  In every interleaving, a token that
    authenticates with a second factor names a session for which one was accepted: the API key that opened it, a
    one-time password that verifies against the seed stored for the owner at that time, a recovery code that was stored
    and unused, or an enrollment that a session without second factor could only complete while the owner had none. *)
Theorem mfa_session_has_evidence w token now p :
  reachable w -> authenticate token true now (db w) = Ok p ->
  exists d f, (sp_sessionId p, d, f) ∈ factors w /\ justified (logins w) (sp_sessionId p) d f.
Proof.
  intros Hr Ha. pose proof (reachable_invariant w Hr) as Hi. apply authenticate_Ok in Ha as (s & o & Es & _ & _ & _ & _ & Hm).
  destruct (iv_factors _ Hi _ _ Es (Hm eq_refl)) as (d & f & Hin). exists d, f. split; [done|]. by apply (iv_justified _ Hi).
Qed.

(** C26. A recovery code is good for one use: in every interleaving, including concurrent uses, replacements
    of the codes and retries with one principal, the uses of a code never exceed the times it was issued. *)
Theorem recovery_codes_single_use w h : reachable w -> (uses h (factors w) <= occurrences h (issued w))%nat.
Proof. intros Hr. pose proof (iv_codes _ (reachable_invariant w Hr) h). lia. Qed.

Lemma txn_Throw {W B} (body : W -> result (B * W)) (v v' : W) e : txn body v = (Throw e, v') -> v' = v.
Proof. unfold txn. destruct (body v) as [[? ?]|]; congruence. Qed.
(** [login] is a sequence of these steps: the reads, the write of the throttle, the audit event, the session. *)
Theorem login_is_steps w username password remoteAddress x now :
  exists w', star step w w' /\ db w' = snd (login username password remoteAddress x now (db w)).
Proof.
  assert (Hcall : forall c v, step v (set_db (run_call c now (db v)) v)) by (intros; apply St_call).
  unfold login, check_login, mbind, io_bind, get, lift. set (key := throttle_key remoteAddress).
  destruct (locked key now (db w)) eqn:Hl; simpl; [by exists w; split; [apply star_refl|]|].
  destruct (owner (db w)) as [o|] eqn:Ho.
  - destruct (valid_credentials username password (Some o)) eqn:Hv; simpl.
    + set (l := {| lg_row := o; lg_draws := x; lg_by := ByPassword username password |}).
      set (w1 := set_db (run_call (ClearFailures key) now (db w)) (log_login l w)).
      assert (Hw1 : star step w w1).
      { eapply star_step; [by apply (St_check_login w username password remoteAddress now o x)|]. eapply star_step; [apply (Hcall (ClearFailures key))|]. apply star_refl. }
      destruct (createSession o x false now (db w1)) as [[r|e] d'] eqn:E.
      * exists (set_db d' w1). split; [|unfold w1 in E; simpl in E; unfold mret, io_ret; by rewrite E].
        eapply star_trans; [exact Hw1|]. apply star_one, (St_create w1 l now r d'); [by left | exact E].
      * exists w1. split; [done|]. unfold mret, io_ret. unfold w1 in E. simpl in E. rewrite E. unfold createSession in E. by apply txn_Throw in E as ->.
    + set (pl := JObj _). exists (set_db (run_call (Audit "owner.login.rejected" pl) now (run_call (RecordFailure key) now (db w))) (set_db (run_call (RecordFailure key) now (db w)) w)).
      split.
      * eapply star_step; [apply (Hcall (RecordFailure key))|]. eapply star_step; [apply (Hcall (Audit "owner.login.rejected" pl))|]. apply star_refl.
      * simpl. unfold txn. by destruct (append_audit _ _ _).
  - exists (set_db (run_call (RecordFailure key) now (db w)) w). split; [|done]. apply star_one, Hcall.
Qed.

(** ** Guessing *)

(** The times of the wrong guesses of one address so far, newest first.  [guesses key] holds of the tables after any
    sequence of rejected logins of that address with anything in between that leaves its row of the throttle alone. *)
Inductive guesses (key : list Z) : auth_db -> list Z -> Prop :=
  | G_none d : throttles d !! key = None -> guesses key d []
  | G_other d d' ts : guesses key d ts -> throttles d' !! key = throttles d !! key -> guesses key d' ts
  | G_wrong d ts username password remoteAddress x now :
      guesses key d ts -> Forall (fun t => t <= now) ts -> throttle_key remoteAddress = key -> locked key now d = false ->
      valid_credentials username password (owner d) = false -> guesses key (snd (login username password remoteAddress x now d)) (now :: ts)
  | G_locked d ts username password remoteAddress x now :
      guesses key d ts -> throttle_key remoteAddress = key -> locked key now d = true -> guesses key (snd (login username password remoteAddress x now d)) ts.
(** How many of them fall in the quarter of an hour that ends at [upto] *)
Definition within (upto : Z) (ts : list Z) : nat := length (List.filter (fun t => (upto - MINUTES_15 <? t) && (t <=? upto)) ts).
Lemma within_app upto a b : within upto (a ++ b) = (within upto a + within upto b)%nat.
Proof. unfold within. by rewrite List.filter_app, length_app. Qed.
Lemma within_le upto l : (within upto l <= length l)%nat.
Proof. apply List.filter_length_le. Qed.
Lemma within_none upto l : Forall (fun t => t <= upto - MINUTES_15 \/ upto < t) l -> within upto l = 0%nat.
Proof. unfold within. induction 1 as [|t l Ht _ IH]; [done|]. simpl. destruct (Z.ltb_spec (upto - MINUTES_15) t), (Z.leb_spec t upto); simpl; lia. Qed.
(** The two periods the throttle distinguishes: [cur] since [th_first], and [old] before it *)
Record periods (t : throttle_row) (cur old : list Z) : Prop := {
  pe_count : Z.of_nat (length cur) = th_count t;
  pe_first : exists l, cur = l ++ [th_first t];
  pe_cur : Forall (fun x => th_first t <= x) cur;
  pe_old : Forall (fun x => x <= th_first t) old;
  pe_recent : forall upto, th_first t <= upto -> (within upto old <= 10)%nat;
  pe_win_old upto : (within upto old <= 22)%nat;
  pe_win_cur upto : (within upto cur <= 12)%nat;
  pe_lock : if 12 <=? th_count t then exists l, th_locked t = Some l /\ Forall (fun x => x <= l - MINUTES_15) cur else th_locked t = None;
}.
Lemma periods_bound t cur old upto : periods t cur old -> (within upto (cur ++ old) <= 22)%nat.
Proof.
  intros [P1 P2 P3 P4 P5 P6 P7 P8]. rewrite within_app. destruct (Z.le_gt_cases (th_first t) upto) as [Hle|Hgt].
  - specialize (P5 upto Hle). specialize (P7 upto). lia.
  - rewrite (within_none upto cur); [apply P6|]. eapply Forall_impl; [exact P3|]. simpl. lia.
Qed.
(** What is left of a period that is over: nothing if it ended with a lock, else at most 11 guesses of which the first is too old. *)
Lemma finished_period t cur old now :
  periods t cur old -> Forall (fun x => x <= now) (cur ++ old) -> th_first t < now - MINUTES_15 ->
  (match th_locked t with Some l => l <= now | None => True end) ->
  forall upto, now <= upto -> (within upto (cur ++ old) <= 10)%nat.
Proof.
  intros Hp Hnow Hf Hl upto Hu. destruct Hp as [P1 [l0 P2] P3 P4 P5 P6 P7 P8]. rewrite within_app.
  assert (Hold : within upto old = 0%nat). { apply within_none. eapply Forall_impl; [exact P4|]. simpl. lia. }
  destruct (Z.leb_spec 12 (th_count t)) as [H12|H12].
  - destruct P8 as (l & El & Hc). rewrite El in Hl. rewrite Hold, (within_none upto cur); [lia|]. eapply Forall_impl; [exact Hc|]. simpl. lia.
  - rewrite Hold, P2, within_app, (within_none upto [th_first t]) by (constructor; [lia | constructor]).
    pose proof (within_le upto l0). rewrite P2, length_app in P1. simpl in P1. lia.
Qed.
(** One more wrong guess begins a period or belongs to the current one. *)
Lemma new_period t now old :
  th_count t = 1 -> th_first t = now -> th_locked t = None -> Forall (fun x => x <= now) old ->
  (forall upto, now <= upto -> (within upto old <= 10)%nat) -> (forall upto, within upto old <= 22)%nat -> periods t [now] old.
Proof.
  intros E1 E2 E3 Hold H10 H22. split; rewrite ?E1, ?E2, ?E3; try done.
  - by exists [].
  - by constructor.
  - intros upto. pose proof (within_le upto [now]). simpl in *. lia.
Qed.
Lemma same_period t t' now cur old :
  periods t cur old -> Forall (fun x => x <= now) (cur ++ old) -> now - MINUTES_15 <= th_first t -> (match th_locked t with Some l => l <= now | None => True end) ->
  th_count t' = th_count t + 1 -> th_first t' = th_first t -> th_locked t' = (if 12 <=? th_count t' then Some (now + MINUTES_15) else None) ->
  periods t' (now :: cur) old.
Proof.
  intros [P1 [l0 P2] P3 P4 P5 P6 P7 P8] Hnow Hf Hl E1 E2 E3. apply Forall_app in Hnow as [Hcur _].
  assert (Hn : th_first t <= now). { rewrite P2 in Hcur. apply Forall_app in Hcur as [_ Hcur]. by inversion Hcur. }
  split; rewrite ?E2; try done.
  - simpl. lia.
  - exists (now :: l0). by rewrite P2.
  - by constructor.
  - intros upto. destruct (Z.leb_spec 12 (th_count t)) as [H12|H12].
    + destruct P8 as (l & El & Hc). rewrite El in Hl. destruct (Z.le_gt_cases now upto) as [Hu|Hu].
      * unfold MINUTES_15 in *. change (now :: cur) with ([now] ++ cur). rewrite within_app, (within_none upto cur); [pose proof (within_le upto [now]); simpl in *; lia|].
        eapply Forall_impl; [exact Hc|]. simpl. unfold MINUTES_15. lia.
      * change (now :: cur) with ([now] ++ cur). rewrite within_app, (within_none upto [now]); [apply P7|]. constructor; [lia | constructor].
    + pose proof (within_le upto (now :: cur)). simpl in *. lia.
  - rewrite E3. destruct (12 <=? th_count t'); [|done]. eexists. split; [done|]. constructor; [lia|]. eapply Forall_impl; [exact Hcur|]. simpl. lia.
Qed.
Lemma login_wrong username password remoteAddress x now d :
  locked (throttle_key remoteAddress) now d = false -> valid_credentials username password (owner d) = false ->
  throttles (snd (login username password remoteAddress x now d)) = <[throttle_key remoteAddress := next_throttle now (throttles d !! throttle_key remoteAddress)]> (throttles d).
Proof.
  intros Hl Hv. unfold login, check_login, mbind, io_bind, get, lift. rewrite Hl. simpl.
  destruct (owner d) as [o|]; [rewrite Hv|]; simpl; [|done]. unfold txn.
  match goal with |- context [append_audit ?a ?b ?c] => destruct (append_audit a b c) as [d'|] eqn:Ea end; simpl; [|done].
  unfold append_audit in Ea. inv_ok. by subst.
Qed.
Lemma login_locked username password remoteAddress x now d :
  locked (throttle_key remoteAddress) now d = true -> login username password remoteAddress x now d = (Throw (DomainErr "PROVIDER_RATE_LIMITED" "Too many authentication attempts"), d).
Proof. intros Hl. unfold login, check_login, mbind, io_bind, get, lift. by rewrite Hl. Qed.
Lemma guesses_periods key d ts :
  guesses key d ts -> match throttles d !! key with None => ts = [] | Some t => exists cur old, ts = cur ++ old /\ periods t cur old end.
Proof.
  induction 1 as [d E | d d' ts _ IH E | d ts username password addr x now Hg IH Hnow <- Hl Hv | d ts username password addr x now Hg IH <- Hl].
  - by rewrite E.
  - by rewrite E.
  - rewrite login_wrong by done. rewrite lookup_insert_eq. unfold locked in Hl. destruct (throttles d !! throttle_key addr) as [t|].
    + destruct IH as (cur & old & -> & Hp).
      assert (Hlk : match th_locked t with Some l => l <= now | None => True end) by (destruct (th_locked t); [by apply Z.ltb_ge in Hl | done]).
      destruct (Z.ltb_spec (th_first t) (now - MINUTES_15)) as [Hf|Hf]; simpl next_throttle.
      * exists [now], (cur ++ old). split; [done|]. rewrite (proj2 (Z.ltb_lt _ _) Hf). apply new_period; try done; [by eapply finished_period | intros; by eapply periods_bound].
      * exists (now :: cur), old. split; [done|]. apply Z.ltb_ge in Hf as Hf'. rewrite Hf'. by eapply same_period.
    + subst ts. exists [now], []. split; [done|]. apply new_period; try done; intros; unfold within; simpl; lia.
  - rewrite login_locked by done. done.
Qed.

(** Guessing is bounded: of the wrong passwords that one address submits one after another, at most 22 are
    checked in any quarter of an hour, whatever happens in between short of a correct login: a lock
    after the twelfth, or the ten that an unfinished period leaves in the window of the next one. *)
Theorem login_attempts_bounded key d ts upto : guesses key d ts -> (within upto ts <= 22)%nat.
Proof.
  intros Hg. apply guesses_periods in Hg. destruct (throttles d !! key) as [t|].
  - destruct Hg as (cur & old & -> & Hp). by eapply periods_bound.
  - subst ts. unfold within. simpl. lia.
Qed.
End Service.

(** ** Samples *)

Definition toy_argon2 : Argon2.
Proof.
  refine {| argon2_hash := fun salt password => "argon2id:" +:+ password; argon2_verify := fun h password => Ok (String.eqb h ("argon2id:" +:+ password)) |}.
  intros salt password. by rewrite String.eqb_refl.
Defined.
#[local] Existing Instances code_unit_locale toy_hash toy_sha1 toy_aead toy_argon2.
Definition sample_cipher : list Z * string := (repeat 7 32, "key").
Definition sample_auth_db : auth_db :=
  {| owner := Some {| ow_id := "owner"; ow_username := "KRMAR78"; ow_password := None; ow_mfa := false; ow_secret := None; ow_nonce := None; ow_epoch := 1; ow_deployment := 0 |};
     deployment := Some 3; sessions := ∅; throttles := ∅; recovery_codes := ∅; enrollments := []; trail := initial_db |}.
Definition sample_draws (n : Z) : draws := {| dr_session := repeat n 48; dr_csrf := repeat n 32; dr_id := "session-" +:+ dec n |}.
Definition sample_token (n : Z) : string := randomToken (dr_session (sample_draws n)).
Definition no_result : LoginResult := {| lr_state := AUTHENTICATED; lr_sessionToken := ""; lr_csrfToken := ""; lr_sessionId := ""; lr_expiresAt := 0 |}.
Definition no_principal : SessionPrincipal := {| sp_ownerId := ""; sp_sessionId := ""; sp_csrf := []; sp_mfa := false; sp_epoch := 0; sp_expires := 0 |}.
Definition no_owner : owner_row := {| ow_id := ""; ow_username := ""; ow_password := None; ow_mfa := false; ow_secret := None; ow_nonce := None; ow_epoch := 0; ow_deployment := 0 |}.
Lemma io_eq {W B} (dflt : B) (m : result B * W) : is_Ok (fst m) = true -> m = (Ok (get_Ok dflt (fst m)), snd m).
Proof. destruct m as [[b|e] w]; [done | discriminate]. Qed.

(** The deployment sets the password, the owner logs in, enrolls, and later uses a recovery code; then the password
    changes and he logs in again. *)
Abbreviation sample_step := (step sample_cipher).
Definition w0 : world := {| db := sample_auth_db; logins := []; principals := []; factors := []; issued := [] |}.
Definition w1 : world := set_db (run_call sample_cipher (Synchronize "secret" [1]) 0 (db w0)) w0.
Definition owner_row_of (w : world) : owner_row := default no_owner (owner (db w)).
Definition login_of (n : Z) (password : string) (w : world) : login_entry :=
  {| lg_row := owner_row_of w; lg_draws := sample_draws n; lg_by := ByPassword "KRMAR78" password |}.
Definition w2 : world := log_login (login_of 1 "secret" w1) w1.
Abbreviation created n password w wl now := (createSession (lg_row (login_of n password w)) (lg_draws (login_of n password w)) (is_api_key (lg_by (login_of n password w))) now (db wl)).
Definition w3 : world := set_db (snd (created 1 "secret" w1 w2 1000)) w2.
Definition p1 : SessionPrincipal := get_Ok no_principal (authenticate (sample_token 1) false 2000 (db w3)).
Definition w4 : world := log_principal p1 w3.
Definition w5 : world := set_db (run_call sample_cipher (BeginEnrollment p1 (repeat 65 20) (repeat 1 32) (repeat 3 12) "enrollment") 3000 (db w4)) w4.
Definition sample_code : string := get_Ok "" (totp (base32Encode (repeat 65 20)) 60000 30).
Definition sample_codes : list string := ["AAAA-BBBB"; "CCCC-DDDD"].
Abbreviation completed := (complete_mfa sample_cipher p1 sample_code (repeat 4 12) sample_codes 60000 (db w5)).
Definition w6 : world := set_db (snd completed) (log_codes sample_codes (log_factor (sp_sessionId p1) (ByEnrollment (snd (get_Ok ([], "") (fst completed))) sample_code 60000) w5)).
Abbreviation verified := (verify_mfa sample_cipher p1 "CCCC-DDDD" 90000 (db w6)).
Definition w7 : world := set_db (snd verified) (log_factor (sp_sessionId p1) (get_Ok ByApiKey (fst verified)) w6).
Abbreviation changed := (synchronizeDeploymentPassword "changed" [2] (db w7)).
Definition w8 : world := set_db (snd changed) w7.
Definition w9 : world := log_login (login_of 2 "changed" w8) w8.
Definition w10 : world := set_db (snd (created 2 "changed" w8 w9 100000)) w9.
Definition run_ok : bool :=
  is_some (owner (db w1)) && negb (locked (throttle_key None) 1000 (db w1)) && valid_credentials "KRMAR78" "secret" (owner (db w1)) &&
  is_Ok (fst (created 1 "secret" w1 w2 1000)) && is_Ok (authenticate (sample_token 1) false 2000 (db w3)) && is_Ok (fst completed) && is_Ok (fst verified) &&
  is_Ok (fst changed) && is_some (owner (db w8)) && negb (locked (throttle_key None) 95000 (db w8)) && valid_credentials "KRMAR78" "changed" (owner (db w8)) &&
  is_Ok (fst (created 2 "changed" w8 w9 100000)).
Example run_ok_true : run_ok = true.
Proof. vm_compute. reflexivity. Qed.
Lemma run_facts :
  owner (db w1) = Some (owner_row_of w1) /\ locked (throttle_key None) 1000 (db w1) = false /\ valid_credentials "KRMAR78" "secret" (owner (db w1)) = true /\
  is_Ok (fst (created 1 "secret" w1 w2 1000)) = true /\ is_Ok (authenticate (sample_token 1) false 2000 (db w3)) = true /\ is_Ok (fst completed) = true /\
  is_Ok (fst verified) = true /\ is_Ok (fst changed) = true /\ owner (db w8) = Some (owner_row_of w8) /\ locked (throttle_key None) 95000 (db w8) = false /\
  valid_credentials "KRMAR78" "changed" (owner (db w8)) = true /\ is_Ok (fst (created 2 "changed" w8 w9 100000)) = true.
Proof.
  pose proof run_ok_true as E. unfold run_ok in E. repeat (apply andb_true_iff in E as [E ?]).
  repeat match goal with Hb : negb _ = true |- _ => apply negb_true_iff in Hb end.
  assert (Ho : forall w, is_some (owner (db w)) = true -> owner (db w) = Some (owner_row_of w)) by (intros w; unfold owner_row_of; by destruct (owner (db w))).
  split_and!; auto.
Qed.
Lemma sample_login n password w now :
  owner (db w) = Some (owner_row_of w) -> locked (throttle_key None) now (db w) = false -> valid_credentials "KRMAR78" password (owner (db w)) = true ->
  sample_step w (log_login (login_of n password w) w).
Proof. intros Ho Hl Hv. apply (St_check_login sample_cipher w "KRMAR78" password None now (owner_row_of w) (sample_draws n)); [exact Hl | exact Ho | by rewrite Ho in Hv]. Qed.
Lemma to_w3 : star sample_step w0 w3.
Proof.
  destruct run_facts as (Ho & Hl & Hv & Hc & _).
  eapply star_step; [exact (St_call sample_cipher w0 (Synchronize "secret" [1]) 0)|]. eapply star_step; [exact (sample_login 1 "secret" w1 1000 Ho Hl Hv)|].
  apply star_one. exact (St_create sample_cipher w2 (login_of 1 "secret" w1) 1000 _ _ (list_elem_of_here _ _) (io_eq no_result _ Hc)).
Qed.
Lemma to_w7 : star sample_step w0 w7.
Proof.
  destruct run_facts as (_ & _ & _ & _ & Ha & Hm & Hv & _). eapply star_trans; [exact to_w3|].
  eapply star_step; [exact (St_authenticate sample_cipher w3 _ _ _ p1 (get_Ok_spec no_principal _ Ha))|].
  eapply star_step; [exact (St_call sample_cipher w4 (BeginEnrollment p1 (repeat 65 20) (repeat 1 32) (repeat 3 12) "enrollment") 3000)|].
  eapply star_step; [exact (St_complete sample_cipher w5 p1 sample_code (repeat 4 12) sample_codes 60000 _ _ (list_elem_of_here _ _) (io_eq ([], "") _ Hm))|].
  apply star_one. exact (St_verify sample_cipher w6 p1 "CCCC-DDDD" 90000 _ _ (list_elem_of_here _ _) (io_eq ByApiKey _ Hv)).
Qed.
Lemma w7_reachable : reachable sample_cipher w7.
Proof. exists w0. split; [by unfold initial | exact to_w7]. Qed.
Lemma to_w10 : star sample_step w8 w10.
Proof.
  destruct run_facts as (_ & _ & _ & _ & _ & _ & _ & _ & Ho & Hl & Hv & Hc).
  eapply star_step; [exact (sample_login 2 "changed" w8 95000 Ho Hl Hv)|].
  apply star_one. exact (St_create sample_cipher w9 (login_of 2 "changed" w8) 100000 _ _ (list_elem_of_here _ _) (io_eq no_result _ Hc)).
Qed.

(** The old session passes with its second factor until the password changes; then only the new one authenticates, and not with a second factor. *)
Example sessions_end :
  is_Ok (authenticate (sample_token 1) true 91000 (db w7)) && negb (is_Ok (authenticate (sample_token 1) false 91000 (db w8))) &&
  is_Ok (authenticate (sample_token 2) false 101000 (db w10)) && negb (is_Ok (authenticate (sample_token 2) true 101000 (db w10))) = true.
Proof. vm_compute. reflexivity. Qed.
(** The same recovery code is refused a second time. *)
Example code_used_up : is_Ok (fst (verify_mfa sample_cipher p1 "CCCC-DDDD" 91000 (db w7))) = false.
Proof. vm_compute. reflexivity. Qed.
Lemma password_change_ends_sessions_witness :
  exists p, authenticate (sample_token 2) false 101000 (db w10) = Ok p /\ sessions (db w7) !! sp_sessionId p = None.
Proof.
  destruct run_facts as (_ & _ & _ & _ & _ & _ & _ & Hs & _). pose proof sessions_end as E. apply andb_true_iff in E as [E _]. apply andb_true_iff in E as [_ Ha].
  exists (get_Ok no_principal (authenticate (sample_token 2) false 101000 (db w10))). split; [exact (get_Ok_spec no_principal _ Ha)|].
  apply (password_change_ends_sessions sample_cipher w7 "changed" [2] (snd changed) w10 (sample_token 2) false 101000).
  - exact w7_reachable.
  - rewrite (io_eq tt _ Hs) at 1. by destruct (get_Ok tt _).
  - exact to_w10.
  - exact (get_Ok_spec no_principal _ Ha).
Defined.
Lemma mfa_session_has_evidence_witness :
  exists p d f, authenticate (sample_token 1) true 91000 (db w7) = Ok p /\ (sp_sessionId p, d, f) ∈ factors w7 /\ justified sample_cipher (logins w7) (sp_sessionId p) d f.
Proof.
  pose proof sessions_end as E. apply andb_true_iff in E as [E _]. apply andb_true_iff in E as [E _]. apply andb_true_iff in E as [Ha _]. pose proof (get_Ok_spec no_principal _ Ha) as Hp.
  destruct (mfa_session_has_evidence sample_cipher w7 (sample_token 1) 91000 _ w7_reachable Hp) as (d & f & Hin & Hj).
  eexists _, d, f. split; [exact Hp|]. split; [exact Hin | exact Hj].
Defined.
Lemma recovery_codes_single_use_witness : (uses (tokenDigest "CCCC-DDDD") (factors w7) <= occurrences (tokenDigest "CCCC-DDDD") (issued w7))%nat.
Proof. apply (recovery_codes_single_use sample_cipher w7 (tokenDigest "CCCC-DDDD")). exact w7_reachable. Defined.
Definition sample_uses : nat * nat := (uses (tokenDigest "CCCC-DDDD") (factors w7), occurrences (tokenDigest "CCCC-DDDD") (issued w7)).
Example used_once : sample_uses = (1, 1)%nat.
Proof. vm_compute. reflexivity. Qed.

(** Guesses one after another at the given times: the times of those that were checked *)
Fixpoint guess (times : list Z) (d : auth_db) (checked : list Z) : list Z * auth_db :=
  match times with
  | [] => (checked, d)
  | t :: times => guess times (snd (login "KRMAR78" "wrong" None (sample_draws t) t d)) (if locked (throttle_key None) t d then checked else t :: checked)
  end.
(** One guess, ten more at the end of its period, twelve in the next one and as many as one likes afterwards: the bound of 22 is reached. *)
Definition sample_times : list Z := [0] ++ repeat (MINUTES_15 - 1) 10 ++ repeat (MINUTES_15 + 1) 20.
Definition sample_checked : list Z := fst (guess sample_times (db w1) []).
Example bound_is_sharp : within (MINUTES_15 + 1) sample_checked = 22%nat.
Proof. vm_compute. reflexivity. Qed.
Definition wrong_once : auth_db := snd (login "KRMAR78" "wrong" None (sample_draws 1) 5000 (db w1)).
Definition guess_refused : bool := valid_credentials "KRMAR78" "wrong" (owner (db w1)).
Definition throttle_empty : bool := match throttles (db w1) !! throttle_key None with None => true | Some _ => false end.
Example guess_facts : throttle_empty && negb guess_refused && negb (locked (throttle_key None) 5000 (db w1)) = true.
Proof. vm_compute. reflexivity. Qed.
Lemma login_attempts_bounded_witness : (within 6000%Z [5000%Z] <= 22)%nat.
Proof.
  pose proof guess_facts as E. apply andb_true_iff in E as [E Hl]. apply andb_true_iff in E as [Ht Hv]. apply negb_true_iff in Hl, Hv.
  apply (login_attempts_bounded (throttle_key None) wrong_once [5000] 6000).
  apply (G_wrong (throttle_key None) (db w1) [] "KRMAR78" "wrong" None (sample_draws 1) 5000); [|constructor|reflexivity|exact Hl|exact Hv].
  apply G_none. unfold throttle_empty in Ht. by destruct (throttles (db w1) !! throttle_key None).
Defined.
