(* ===== verification/RetryScheduler.v ===== *)
(** * The retry scheduler

    [packages/domain/src/operations.ts], [CanonicalRetryScheduler]: plans and reconciliations are claimed under a lease with
    a fencing token; a plan is turned into one successor command, at once or after the ledger of side effects shows that
    nothing was applied.  Each transaction is one function; the admission of the successor is [execute] of [Commands].
    A plan and its identifier are named by the command and the attempt that failed.  [step] interleaves any number
    of schedulers, which may crash or fail anywhere, with the workers of [CommandWorker]. *)
From Stdlib Require Import Ascii String.
From S2P Require Import Prelude Bytes Json Text Digest CanonicalValue IpcFrame IpcChannel IpcBroker AuditChain SideEffect Database ErrorRegistry Contracts Schemas Commands CommandWorker.

(** ** What the scheduler reads and carries *)

(** The effects of a command in the side-effect ledger: status, number of attempts, number of messages that authorize a dispatch *)
Record effect_view := { ef_id : string; ef_status : effect_status; ef_attempts : Z; ef_authorities : Z }.
Class EffectLedger (W : Type) := commandEffects : W -> string -> list effect_view.
Definition effect_status_text (s : effect_status) : string :=
  match s with
  | SideEffect.INTENT_RECORDED => "INTENT_RECORDED" | SideEffect.DISPATCHING => "DISPATCHING" | SideEffect.OUTCOME_RECORDED => "OUTCOME_RECORDED" | SideEffect.RECONCILING => "RECONCILING"
  | SideEffect.CONFIRMED_APPLIED => "CONFIRMED_APPLIED" | SideEffect.CONFIRMED_NOT_APPLIED => "CONFIRMED_NOT_APPLIED" | SideEffect.FAILED_FINAL => "FAILED_FINAL" | SideEffect.UNKNOWN => "UNKNOWN"
  end.
Record RetrySchedulerOptions := { rs_workerId : string; rs_leaseSeconds : option Z }.
Abbreviation plan_key := (string * Z)%type.
Record claimed_plan := { sp_key : plan_key; sp_action : RetryPlanAction; sp_command : string; sp_token : Z }.
Record claimed_reconciliation := { sr_key : plan_key; sr_previous : reconciliation_state; sr_command : string; sr_token : Z }.
Definition plan_id (k : plan_key) : string := k.1 +:+ "#" +:+ dec k.2.
Definition successor_key (k : plan_key) : string := "retry-plan:" +:+ plan_id k +:+ ":successor".

(** What the successor is asked with: the failed command, the version of its target and the activation epoch *)
Abbreviation refreshed := (command_row * option Z * Z)%type.
(** How the plan of a successor is held: by its own lease, or by the reconciliation it waits for *)
Inductive successor_basis := FromPlan (c : claimed_plan) | FromReconciliation (c : claimed_reconciliation).
Definition basis_key (b : successor_basis) : plan_key := match b with FromPlan c => sp_key c | FromReconciliation c => sr_key c end.
Definition basis_command (b : successor_basis) : string := match b with FromPlan c => sp_command c | FromReconciliation c => sr_command c end.

Section Scheduler.
Context `{L : Locale} `{H : Hash} `{F : Formats} {W : Type} `{D : CommandDomain W} `{E : EffectLedger W}.
Context (opts : RetrySchedulerOptions) (reg : gmap string StableErrorRecord) (cat : OperationCatalogService).
Implicit Type d : cmd_db W.

Definition update_failed (g : failure_tables -> failure_tables) d : cmd_db W := set_failed (g (failed d)) d.
Definition put_plan (k : plan_key) (p : plan_row) (x : failure_tables) : failure_tables := set_plans (<[k := p]> (plans x)) x.
Definition put_reconciliation (k : plan_key) (r : reconciliation_row) (x : failure_tables) : failure_tables :=
  {| failures := failures x; plans := plans x; reviews := reviews x; reconciliations := <[k := r]> (reconciliations x); snapshots := snapshots x |}.
Definition put_snapshot (k : plan_key) (s : snapshot_row) (x : failure_tables) : failure_tables :=
  {| failures := failures x; plans := plans x; reviews := reviews x; reconciliations := reconciliations x; snapshots := <[k := s]> (snapshots x) |}.
Definition due (now : Z) (expires : option Z) : bool := match expires with Some t => t <=? now | None => false end.
Definition lease_until (now : Z) : option Z := Some (now + 1000 * default 60 (rs_leaseSeconds opts)).

(** *** Claims *)

Definition plan_candidate (h : RecoveryAuthorityHead) (now : Z) d (p : plan_row) : bool :=
  is_some (commands d !! pl_command p)
  && (bool_decide (pl_action p = REFRESH_AND_CREATE_SUCCESSOR) || bool_decide (pl_action p = ENQUEUE_RECONCILIATION)) && (pl_available p <=? now)
  && (bool_decide (pl_state p = P_READY) || bool_decide (pl_state p = P_CLAIMED) && due now (pl_expires p)) && bool_decide (pl_lineage p = now_lineage h).
Definition sooner {A} (available : A -> Z) (a b : plan_key * A) : bool :=
  (available a.2 <? available b.2) || (available a.2 =? available b.2) && String.leb (plan_id a.1) (plan_id b.1).
(** [ORDER BY available_at, id FOR UPDATE SKIP LOCKED LIMIT 1] *)
Definition next_plan (locked : plan_key -> bool) (h : RecoveryAuthorityHead) (now : Z) d : option (plan_key * plan_row) :=
  head (stable_sort (sooner pl_available) (List.filter (fun '(k, p) => plan_candidate h now d p && negb (locked k)) (map_to_list (plans (failed d))))).
Definition claim_plan_row (now fence : Z) (p : plan_row) : plan_row :=
  {| pl_command := pl_command p; pl_action := pl_action p; pl_directive := pl_directive p; pl_state := P_CLAIMED; pl_available := pl_available p;
     pl_owner := Some (rs_workerId opts); pl_lease := fence; pl_expires := lease_until now; pl_attempts := pl_attempts p + 1; pl_max := pl_max p;
     pl_successor := pl_successor p; pl_lineage := pl_lineage p |}.
Definition claimPlan (locked : plan_key -> bool) (now : Z) d : result (option claimed_plan * cmd_db W) :=
  h ← lockAndVerifyPlatformRecovery (recovery d);
  match next_plan locked h now d with
  | None => Ok (None, d)
  | Some (k, p) =>
      let fence := pl_lease p + 1 in
      _ ← throw_if ((max_bigint <? fence) || (max_int <? pl_attempts p + 1)) (PgError "22003");
      Ok (Some {| sp_key := k; sp_action := pl_action p; sp_command := pl_command p; sp_token := fence |},
          update_failed (put_plan k (claim_plan_row now fence p)) d)
  end.
Definition reconciliation_candidate (h : RecoveryAuthorityHead) (now : Z) d (k : plan_key) (r : reconciliation_row) : bool :=
  is_some (plans (failed d) !! k) && is_some (commands d !! rc_command r) && (rc_available r <=? now)
  && (bool_decide (rc_state r = R_READY) || bool_decide (rc_state r = R_RETRY_ALLOWED) || bool_decide (rc_state r = R_CLAIMED) && due now (rc_expires r))
  && bool_decide (rc_lineage r = now_lineage h).
Definition next_reconciliation (locked : plan_key -> bool) (h : RecoveryAuthorityHead) (now : Z) d : option (plan_key * reconciliation_row) :=
  head (stable_sort (sooner rc_available)
    (List.filter (fun '(k, r) => reconciliation_candidate h now d k r && negb (locked k)) (map_to_list (reconciliations (failed d))))).
Definition set_reconciliation (s : reconciliation_state) (available attempts : Z) (owner : option string) (fence : Z) (expires : option Z) (evidence : option json)
    (r : reconciliation_row) : reconciliation_row :=
  {| rc_command := rc_command r; rc_state := s; rc_available := available; rc_attempts := attempts; rc_max := rc_max r; rc_owner := owner; rc_lease := fence;
     rc_expires := expires; rc_evidence := evidence; rc_lineage := rc_lineage r |}.
Definition claimReconciliation (locked : plan_key -> bool) (now : Z) d : result (option claimed_reconciliation * cmd_db W) :=
  h ← lockAndVerifyPlatformRecovery (recovery d);
  match next_reconciliation locked h now d with
  | None => Ok (None, d)
  | Some (k, r) =>
      let fence := rc_lease r + 1 in
      _ ← throw_if ((max_bigint <? fence) || (max_int <? rc_attempts r + 1)) (PgError "22003");
      Ok (Some {| sr_key := k; sr_previous := rc_state r; sr_command := rc_command r; sr_token := fence |},
          update_failed (put_reconciliation k (set_reconciliation R_CLAIMED (rc_available r) (rc_attempts r + 1) (Some (rs_workerId opts)) fence (lease_until now) (rc_evidence r) r)) d)
  end.

(** The lease of a claimed plan or reconciliation, under its row lock *)
Definition plan_held (p : plan_row) (c : claimed_plan) : bool :=
  bool_decide (pl_state p = P_CLAIMED) && bool_decide (pl_owner p = Some (rs_workerId opts)) && (pl_lease p =? sp_token c).
Definition reconciliation_held (r : reconciliation_row) (c : claimed_reconciliation) : bool :=
  bool_decide (rc_state r = R_CLAIMED) && bool_decide (rc_owner r = Some (rs_workerId opts)) && (rc_lease r =? sr_token c).

(** *** Reconciliation *)

Definition enqueueReconciliation (c : claimed_plan) (now : Z) d : result (cmd_db W) :=
  h ← lockAndVerifyPlatformRecovery (recovery d);
  let stale := stale_fence "Retry plan lease is stale" in
  p ← or_throw (plans (failed d) !! sp_key c) stale;
  _ ← throw_if (negb (plan_held p c)) stale;
  let d := match reconciliations (failed d) !! sp_key c with
           | Some _ => d
           | None => update_failed (put_reconciliation (sp_key c) {| rc_command := sp_command c; rc_state := R_READY; rc_available := now; rc_attempts := 0; rc_max := 8;
                       rc_owner := None; rc_lease := 0; rc_expires := None; rc_evidence := None; rc_lineage := now_lineage h |}) d end in
  Ok (update_failed (put_plan (sp_key c) (set_plan P_WAITING_RECONCILIATION None None p)) d).
(** An effect that cannot have been applied *)
Definition not_applied (e : effect_view) : bool :=
  bool_decide (ef_status e = SideEffect.CONFIRMED_NOT_APPLIED) || bool_decide (ef_status e = SideEffect.FAILED_FINAL)
  || bool_decide (ef_status e = SideEffect.INTENT_RECORDED) && (ef_attempts e =? 0) && (ef_authorities e =? 0).
Definition effect_json (e : effect_view) : json :=
  JObj [("id", JStr (ef_id e)); ("status", JStr (effect_status_text (ef_status e))); ("attempt_count", JNum (ef_attempts e)); ("dispatch_authority_count", JNum (ef_authorities e))].
Definition oracle_evidence (command time : string) (effects : list effect_view) : json :=
  jsonSafe (JObj [("oracle", JStr "SIDE_EFFECT_LEDGER_INDEPENDENT_READBACK"); ("failedCommandId", JStr command); ("effects", JArr (map effect_json effects));
    ("retryAllowed", JBool (forallb not_applied effects)); ("applied", JBool (existsb (fun e => bool_decide (ef_status e = SideEffect.CONFIRMED_APPLIED)) effects)); ("observedAt", JStr time)]).
(** The transaction of [processReconciliation] *)
Definition reconcile_effects (c : claimed_reconciliation) (time : string) (now : Z) d : result (cmd_db W) :=
  _ ← lockAndVerifyPlatformRecovery (recovery d);
  let stale := stale_fence "Reconciliation lease is stale" in
  r ← or_throw (reconciliations (failed d) !! sr_key c) stale;
  _ ← throw_if (negb (reconciliation_held r c)) stale;
  let effects := commandEffects (rest d) (sr_command c) in
  let evidence := Some (oracle_evidence (sr_command c) time effects) in
  let put s available d := update_failed (put_reconciliation (sr_key c) (set_reconciliation s available (rc_attempts r) None (rc_lease r) None evidence r)) d in
  Ok (if forallb not_applied effects then put R_RETRY_ALLOWED (rc_available r) d
      else if existsb (fun e => bool_decide (ef_status e = SideEffect.CONFIRMED_APPLIED)) effects || (rc_max r <=? rc_attempts r)
           then put R_MANUAL_REVIEW (rc_available r) (createManualReview (sr_key c) (sr_command c) d)
           else put R_READY (now + 1000 * Z.min 300 (2 ^ Z.min 8 (rc_attempts r))) d).

(** *** The successor *)

Definition target_version (c : command_row) d : result (option Z) :=
  match cr_target c with
  | None => Ok None
  | Some t => entity ← workerAggregateEntity (cr_operation c);
              row ← entityRow (rest d) entity t;
              or_throw row (DomainErr "KCIP_TARGET_NOT_FOUND" "Retry target no longer exists")
  end.
Definition snapshot_json (id : string) (c : command_row) (version : option Z) (epoch recovery : Z) : json :=
  jsonSafe (JObj [("failedCommandId", JStr id); ("operationName", JStr (cr_operation c)); ("targetId", jstr_opt (cr_target c));
    ("targetStateVersion", num_or_null version); ("activationEpoch", JStr (dec epoch)); ("recoveryEpoch", JStr (dec recovery))]).
(** What the transactions of [createSuccessor] say of a plan or reconciliation that is no longer theirs *)
Record stale_messages := { sm_state : string; sm_lease : string; sm_reconciliation : string }.
Definition before_admission : stale_messages :=
  {| sm_state := "Retry plan state is stale"; sm_lease := "Retry plan lease is stale"; sm_reconciliation := "Reconciliation lease is stale" |}.
Definition before_linkage : stale_messages :=
  {| sm_state := "Retry plan state changed before successor linkage"; sm_lease := "Retry plan lease changed before successor linkage";
     sm_reconciliation := "Reconciliation lease changed before successor linkage" |}.
Definition check_basis (m : stale_messages) (b : successor_basis) d : result plan_row :=
  let required := match b with FromPlan _ => P_CLAIMED | FromReconciliation _ => P_WAITING_RECONCILIATION end in
  p ← or_throw (plans (failed d) !! basis_key b) (stale_fence (sm_state m));
  _ ← throw_if (negb (bool_decide (pl_state p = required))) (stale_fence (sm_state m));
  match b with
  | FromPlan c => _ ← throw_if (negb (plan_held p c)) (stale_fence (sm_lease m)); Ok p
  | FromReconciliation c => Ok p
  end.
Definition check_reconciliation (m : stale_messages) (b : successor_basis) d : result (option reconciliation_row) :=
  match b with
  | FromPlan _ => Ok None
  | FromReconciliation c =>
      let stale := stale_fence (sm_reconciliation m) in
      r ← or_throw (reconciliations (failed d) !! sr_key c) stale; _ ← throw_if (negb (reconciliation_held r c)) stale; Ok (Some r)
  end.
(** The first transaction of [createSuccessor]; [version] is the update count of the command's row. *)
Definition refresh_snapshot (b : successor_basis) (version : Z) (time : string) d : result (refreshed * cmd_db W) :=
  h ← lockAndVerifyPlatformRecovery (recovery d);
  _ ← check_basis before_admission b d;
  _ ← check_reconciliation before_admission b d;
  c ← or_throw (commands d !! basis_command b) (DomainErr "KCIP_TARGET_NOT_FOUND" "Failed command no longer exists");
  d ← end_replaced reg (basis_command b) version time d;
  match snapshots (failed d) !! basis_key b with
  | Some s => Ok ((c, sn_version s, sn_epoch s), d)
  | None =>
      v ← target_version c d;
      epoch ← or_throw (activation d) (JsError "TypeError");
      Ok ((c, v, epoch), update_failed (put_snapshot (basis_key b)
            {| sn_command := basis_command b; sn_target := cr_target c; sn_version := v; sn_epoch := epoch;
               sn_value := snapshot_json (basis_command b) c v epoch (ah_recovery_epoch h); sn_lineage := now_lineage h |}) d)
  end.
Definition successor_input (r : refreshed) : json :=
  let '(c, version, epoch) := r in
  JObj [("targetId", jstr_opt (cr_target c));
        ("arguments", match cr_request c with JObj l => match get_prop "arguments" l with Some JNull | None => JObj [] | Some a => a end | _ => JObj [] end);
        ("expectedStateVersion", num_or_null version); ("expectedActivationEpoch", JStr (dec epoch)); ("deadlineAt", JNull)].
Definition successor_context (k : plan_key) (c : command_row) (correlation : string) : CommandContext :=
  {| callerFingerprint := cr_caller c; actorId := "KRMAR78"; cx_correlation := correlation; cx_causation := Some (cr_correlation c);
     idempotencyKey := Some (successor_key k); recoveryFence := None |}.
(** [result.metadata.commandId] *)
Definition response_command (j : json) : option string :=
  match j with
  | JObj l => match get_prop "metadata" l with Some (JObj m) => match get_prop "commandId" m with Some (JStr s) => Some s | _ => None end | _ => None end
  | _ => None
  end.
Definition admit_successor (k : plan_key) (r : refreshed) (correlation : string) (f : fresh) d : result (string * cmd_db W) :=
  '(response, d) ← execute cat (cr_operation r.1.1) (successor_input r) (successor_context k r.1.1 correlation) f d;
  id ← or_throw (response_command response) (JsError "TypeError");
  Ok (id, d).
Definition complete_plan (successor : string) (p : plan_row) : plan_row :=
  {| pl_command := pl_command p; pl_action := pl_action p; pl_directive := pl_directive p; pl_state := P_COMPLETED; pl_available := pl_available p; pl_owner := None;
     pl_lease := pl_lease p; pl_expires := None; pl_attempts := pl_attempts p; pl_max := pl_max p; pl_successor := Some successor; pl_lineage := pl_lineage p |}.
(** The last transaction of [createSuccessor] *)
Definition link_successor (b : successor_basis) (successor : string) d : result (cmd_db W) :=
  _ ← lockAndVerifyPlatformRecovery (recovery d);
  p ← check_basis before_linkage b d;
  let d := update_failed (put_plan (basis_key b) (complete_plan successor p)) d in
  r ← check_reconciliation before_linkage b d;
  Ok (match r with
      | None => d
      | Some r => update_failed (put_reconciliation (basis_key b) (set_reconciliation R_COMPLETED (rc_available r) (rc_attempts r) None (rc_lease r) None (rc_evidence r) r)) d
      end).

(** *** Failures of the scheduler *)

Definition releasePlan (c : claimed_plan) (error : thrown) (now : Z) d : result (cmd_db W) :=
  _ ← canonicalFailure reg error;
  match plans (failed d) !! sp_key c with
  | Some p =>
      if negb (plan_held p c) then Ok d
      else if pl_max p <=? pl_attempts p then Ok (createManualReview (sp_key c) (pl_command p) d)
      else Ok (update_failed (put_plan (sp_key c)
             {| pl_command := pl_command p; pl_action := pl_action p; pl_directive := pl_directive p; pl_state := P_READY; pl_available := now + 5000; pl_owner := None;
                pl_lease := pl_lease p; pl_expires := None; pl_attempts := pl_attempts p; pl_max := pl_max p; pl_successor := pl_successor p; pl_lineage := pl_lineage p |}) d)
  | None => Ok d
  end.
Definition releaseReconciliation (c : claimed_reconciliation) (error : thrown) (now : Z) d : result (cmd_db W) :=
  f ← canonicalFailure reg error;
  match reconciliations (failed d) !! sr_key c with
  | Some r =>
      if negb (reconciliation_held r c) then Ok d
      else if rc_max r <=? rc_attempts r then
        Ok (update_failed (put_reconciliation (sr_key c) (set_reconciliation R_MANUAL_REVIEW (rc_available r) (rc_attempts r) None (rc_lease r) None (Some (failure_json f)) r))
              (createManualReview (sr_key c) (sr_command c) d))
      else Ok (update_failed (put_reconciliation (sr_key c) (set_reconciliation R_READY (now + 5000) (rc_attempts r) None (rc_lease r) None (rc_evidence r) r)) d)
  | None => Ok d
  end.

(** *** One run of the scheduler, with nothing in between *)

(** Identifiers and clock of one run *)
Record run_inputs := { ri_now : Z; ri_time : string; ri_version : Z; ri_correlation : string; ri_fresh : fresh }.
Definition createSuccessor (b : successor_basis) (i : run_inputs) : io (cmd_db W) unit :=
  r ← Prelude.txn (refresh_snapshot b (ri_version i) (ri_time i));
  id ← Prelude.txn (admit_successor (basis_key b) r (ri_correlation i) (ri_fresh i));
  Prelude.txn (fun d => d ← link_successor b id d; Ok (tt, d)).
Definition unit_txn (t : cmd_db W -> result (cmd_db W)) : io (cmd_db W) unit := Prelude.txn (fun d => d ← t d; Ok (tt, d)).
Definition recover {A} (m : io (cmd_db W) A) (handler : thrown -> io (cmd_db W) unit) : io (cmd_db W) unit :=
  fun d => match m d with (Ok _, d) => (Ok tt, d) | (Throw e, d) => handler (thrown_of e) d end.
Definition processReconciliation (c : claimed_reconciliation) (i : run_inputs) : io (cmd_db W) unit :=
  if bool_decide (sr_previous c = R_RETRY_ALLOWED) then createSuccessor (FromReconciliation c) i
  else unit_txn (reconcile_effects c (ri_time i) (ri_now i)).
Definition runOnce (locked : plan_key -> bool) (i : run_inputs) : io (cmd_db W) bool :=
  reconciliation ← Prelude.txn (claimReconciliation locked (ri_now i));
  match reconciliation with
  | Some c => _ ← recover (processReconciliation c i) (fun e => unit_txn (releaseReconciliation c e (ri_now i))); mret true
  | None =>
      plan ← Prelude.txn (claimPlan locked (ri_now i));
      match plan with
      | None => mret false
      | Some c =>
          _ ← recover (if bool_decide (sp_action c = REFRESH_AND_CREATE_SUCCESSOR) then createSuccessor (FromPlan c) i
                       else if bool_decide (sp_action c = ENQUEUE_RECONCILIATION) then unit_txn (enqueueReconciliation c (ri_now i))
                       else lift (Throw (DomainErr "ERROR_RECOVERY_CONTRACT_INCOMPLETE" "Retry scheduler claimed an unsupported action")))
                (fun e => unit_txn (releasePlan c e (ri_now i))); mret true
      end
  end.
End Scheduler.

(** ** Theory: members of canonical objects *)

Lemma Ok_pair {A B} (a a' : A) (b b' : B) : Ok (a, b) = Ok (a', b') -> a = a' /\ b = b'.
Proof. by intros [= -> ->]. Qed.
Lemma get_prop_elem {A} k (v : A) l : NoDup (map fst l) -> get_prop k l = Some v <-> (k, v) ∈ l.
Proof.
  induction l as [|[k' v'] l IH]; cbn; [intros _; split; [done | by intros ?%elem_of_nil]|]. intros [Hk Hl]%NoDup_cons. rewrite elem_of_cons.
  destruct (String.eqb_spec k k') as [->|Hn].
  - split; [intros [= ->]; by left|]. intros [[= ->]|Hin]; [done|]. exfalso. apply Hk. apply list_elem_of_In, (in_map fst) in Hin. by apply list_elem_of_In.
  - rewrite IH by done. split; [by right|]. intros [[= -> ->]|]; [done|done].
Qed.
Lemma get_prop_perm {A} k (l l' : list (string * A)) : NoDup (map fst l) -> l ≡ₚ l' -> get_prop k l = get_prop k l'.
Proof.
  intros Hn Hp. assert (Hn' : NoDup (map fst l')) by (by rewrite <- Hp). destruct (get_prop k l) as [v|] eqn:E1.
  - symmetry. apply get_prop_elem; [done|]. rewrite <- Hp. by apply get_prop_elem.
  - destruct (get_prop k l') as [v|] eqn:E2; [|done]. apply get_prop_elem in E2; [|done]. rewrite <- Hp in E2. apply get_prop_elem in E2; [congruence|done].
Qed.
Lemma get_prop_filtered {A} (p : string -> bool) k (l : list (string * A)) : p k = true -> get_prop k (List.filter (fun kv => p (fst kv)) l) = get_prop k l.
Proof.
  intros Hp. induction l as [|[k' v] l IH]; cbn; [done|]. destruct (String.eqb_spec k k') as [->|Hn].
  - rewrite Hp. cbn. by rewrite String.eqb_refl.
  - destruct (p k'); cbn; [|done]. by rewrite (proj2 (String.eqb_neq k k')).
Qed.
Lemma get_prop_map {A B} (f : A -> B) k l : get_prop k (map (fun kv => (fst kv, f (snd kv))) l) = f <$> get_prop k l.
Proof. induction l as [|[k' v] l IH]; cbn; [done|]. destruct (String.eqb k k'); [done | exact IH]. Qed.
Definition in_obj (k : string) (j : json) : option json := match j with JObj l => get_prop k l | _ => None end.
Lemma response_in_obj j : response_command j = match in_obj "metadata" j ≫= in_obj "commandId" with Some (JStr s) => Some s | _ => None end.
Proof. destruct j as [| | | | |l]; try done. cbn. by destruct (get_prop "metadata" l) as [[| | | | |m]|]. Qed.
Section Canonical.
Context `{L : Locale}.
Lemma in_obj_canonical k l : NoDup (map fst l) -> k <> "__proto__" -> in_obj k (canonicalize (JObj l)) = canonicalize <$> get_prop k l.
Proof.
  intros Hn Hk. cbn [canonicalize in_obj]. rewrite (get_prop_filtered (fun k => negb (String.eqb k "__proto__"))) by (by apply negb_true_iff, String.eqb_neq).
  rewrite (get_prop_perm k _ (map (fun kv => (fst kv, canonicalize (snd kv))) l)).
  - apply get_prop_map.
  - by rewrite sorted_entries_perm, map_map.
  - apply sorted_entries_perm.
Qed.
Lemma response_command_result st id lg co v s e dg rp t r er : response_command (result_json st id lg co v s e dg rp t r er) = Some id.
Proof.
  assert (Hd : forall l : list string, bool_decide (NoDup l) = true -> NoDup l) by (intros l; apply bool_decide_eq_true).
  rewrite response_in_obj. unfold result_json, jsonSafe. rewrite in_obj_canonical; [|by apply Hd|done]. cbn [get_prop String.eqb Ascii.eqb Bool.eqb fmap option_fmap option_map mbind option_bind].
  rewrite in_obj_canonical; [|by apply Hd|done]. done.
Qed.
End Canonical.
Lemma response_command_replayed b id : response_command b = Some id -> response_command (replayed b) = Some id.
Proof.
  destruct b as [| | | | |l]; try done. cbn. rewrite get_define_eq. destruct (get_prop "metadata" l) as [[| | | | |m]|]; try done.
  by rewrite get_define_ne.
Qed.

(** ** Theory: what the workers leave alone *)

Section Keeps.
Context `{L : Locale} `{H : Hash} `{F : Formats} {W : Type} `{D : CommandDomain W} `{M : CommandHandlers W} `{Law : !LawfulHandlers}.
Context (cat : OperationCatalogService) (reg : gmap string StableErrorRecord).
Implicit Type d : cmd_db W.

(** What names the idempotency key of a successor *)
Definition same_origin (c c' : command_row) : Prop :=
  cr_caller c' = cr_caller c /\ cr_operation c' = cr_operation c /\ cr_target c' = cr_target c.
Definition mutating (c : command_row) : Prop :=
  exists o, catalog_get cat (cr_operation c) = Ok o /\ operationName o = cr_operation c /\ read_only o = false.
Definition answers (r : idempotency_row) : Prop := forall b, id_response r = Some b -> response_command b = Some (id_command r).
(** Commands and idempotency records stay; new commands come from mutating operations; a response names its command. *)
Record keeps d d' : Prop := {
  ke_commands : forall id c, commands d !! id = Some c -> exists c', commands d' !! id = Some c' /\ same_origin c c';
  ke_new : forall id c', commands d' !! id = Some c' -> (exists c, commands d !! id = Some c /\ same_origin c c') \/ mutating c';
  ke_ids : forall k r, idempotency d !! k = Some r -> exists r', idempotency d' !! k = Some r' /\ id_command r' = id_command r;
  ke_responses : forall k r', idempotency d' !! k = Some r' -> idempotency d !! k = Some r' \/ answers r';
}.
Lemma same_origin_refl c : same_origin c c.
Proof. done. Qed.
Lemma same_origin_trans a b c : same_origin a b -> same_origin b c -> same_origin a c.
Proof. intros (? & ? & ?) (? & ? & ?). split_and!; congruence. Qed.
#[export] Instance keeps_refl : Reflexive keeps.
Proof. intros d. split; eauto using same_origin_refl. Qed.
Lemma mutating_origin c c' : same_origin c c' -> mutating c -> mutating c'.
Proof. intros (_ & E & _). unfold mutating. by rewrite E. Qed.
#[export] Instance keeps_trans : Transitive keeps.
Proof.
  intros a b c [C1 N1 I1 R1] [C2 N2 I2 R2]. split.
  - intros id x Hx. destruct (C1 _ _ Hx) as (y & Hy & ?). destruct (C2 _ _ Hy) as (z & Hz & ?). eauto using same_origin_trans.
  - intros id z Hz. destruct (N2 _ _ Hz) as [(y & Hy & ?)|]; [|by right]. destruct (N1 _ _ Hy) as [(x & Hx & ?)|]; [left; eauto using same_origin_trans|right].
    by eapply mutating_origin.
  - intros k x Hx. destruct (I1 _ _ Hx) as (y & Hy & ?). destruct (I2 _ _ Hy) as (z & Hz & ?). exists z. split; [done | congruence].
  - intros k z Hz. destruct (R2 _ _ Hz) as [Hy|]; [|by right]. by apply R1.
Qed.
Lemma keeps_same d d' : commands d' = commands d -> idempotency d' = idempotency d -> keeps d d'.
Proof. intros E1 E2. split; rewrite ?E1, ?E2; eauto using same_origin_refl. Qed.
Lemma keeps_command id c c' d : commands d !! id = Some c -> same_origin c c' -> keeps d (set_commands (<[id := c']> (commands d)) d).
Proof.
  intros Hc Ho. split; cbn; [| |eauto|eauto].
  - intros id0 c0 H0. destruct (decide (id0 = id)) as [->|]; [rewrite lookup_insert_eq; simplify_eq; eauto|rewrite lookup_insert_ne by done; eauto using same_origin_refl].
  - intros id0 c0 H0. destruct (decide (id0 = id)) as [->|]; [rewrite lookup_insert_eq in H0; simplify_eq; eauto|rewrite lookup_insert_ne in H0 by done; eauto using same_origin_refl].
Qed.
Lemma keeps_update_command id g d : (forall c, same_origin c (g c)) -> keeps d (update_command id g d).
Proof. intros Hg. unfold update_command. destruct (commands d !! id) eqn:E; [by eapply keeps_command | reflexivity]. Qed.
Lemma keeps_update_queue id g d : keeps d (update_queue id g d).
Proof. unfold update_queue. destruct (queue d !! id); by apply keeps_same. Qed.
(** Responses that are recorded for a command name it. *)
Lemma keeps_responses g d : (forall r, id_command (g r) = id_command r) -> (forall r, g r = r \/ answers (g r)) -> keeps d (set_idempotency (g <$> idempotency d) d).
Proof.
  intros Hc Hr. split; cbn; [eauto using same_origin_refl|eauto using same_origin_refl| |].
  - intros k r Hk. exists (g r). by rewrite lookup_fmap, Hk.
  - intros k r' Hk. rewrite lookup_fmap in Hk. apply fmap_Some in Hk as (r & Hk & ->). destruct (Hr r) as [->|]; auto.
Qed.
Lemma keeps_record id st code st' lg co v s e dg rp t r er d : keeps d (record_response id st code (result_json st' id lg co v s e dg rp t r er) d).
Proof.
  apply keeps_responses; intros x; destruct (String.eqb_spec (id_command x) id) as [<-|]; auto. right. intros b [= <-]. apply response_command_result.
Qed.
Lemma keeps_guards id lg cl d : keeps d (terminalizeCommandGuards id lg cl d).
Proof.
  destruct (terminalize_admission_same id d) as (_ & E1 & _ & E2 & _). trans (terminalize_admission id d); [by apply keeps_same|].
  unfold terminalizeCommandGuards. destruct (claims _ !! cl); [|reflexivity]. destruct (_ && _); by apply keeps_same.
Qed.
Lemma keeps_frame id d d' : handler_frame id d d' -> keeps d d'.
Proof.
  destruct (terminalize_admission_same id d) as (_ & E1 & _ & E2 & _).
  intros [[(Hi & _ & Hc & _) _ _]|[(Hi & _ & Hc & _) _ _]]; apply keeps_same; congruence.
Qed.
Lemma keeps_verify row allowed hb now d d' : verifyWorkerClaimAndAdmission row allowed hb now d = Ok d' -> keeps d d'.
Proof. intros Hv. apply worker_verify_Ok in Hv as (a & k & k' & _ & _ & _ & _ & _ & _ & _ & ->). by apply keeps_same. Qed.
Lemma keeps_replay row now m d o d' : replay_checkpoint row now m d = Ok (o, d') -> keeps d d'.
Proof. intros Hr. unfold replay_checkpoint in Hr. apply bind_Ok_inv in Hr as (d1 & Hv & Hr). apply keeps_verify in Hv. destruct (checkpoints d !! _); inv_ok; by simplify_eq. Qed.
Lemma keeps_checkpoint row h out d d' : insert_checkpoint row h out d = Ok d' -> keeps d d'.
Proof. intros Hi. unfold insert_checkpoint in Hi. inv_ok. subst. by apply keeps_same. Qed.
Lemma keeps_apply row now d r d' : apply_mutation cat row now d = Ok (r, d') -> keeps d d'.
Proof.
  intros Ha. unfold apply_mutation, applyInCommandTransaction in Ha. do 2 (apply bind_Ok_inv in Ha as (? & _ & Ha)).
  apply bind_Ok_inv in Ha as ([replay d1] & Hr & Ha). apply keeps_replay in Hr. destruct replay; [inv_ok; by simplify_eq|].
  inv_ok. destruct a0 as [out d2]. inv_ok. simplify_eq. apply runMutation_frame, keeps_frame in Hok0. apply keeps_checkpoint in Hok1. by do 2 (etrans; [eassumption|]).
Qed.
Lemma keeps_prepare row now d q d' : prepare_specialist cat row now d = Ok (q, d') -> keeps d d'.
Proof.
  intros Ha. unfold prepare_specialist in Ha. do 2 (apply bind_Ok_inv in Ha as (? & _ & Ha)).
  apply bind_Ok_inv in Ha as ([replay d1] & Hr & Ha). apply keeps_replay in Hr. destruct replay; [inv_ok; by simplify_eq|].
  inv_ok. destruct a0 as [p d2]. inv_ok. simplify_eq. apply prepare_frame, keeps_frame in Hok0. by etrans.
Qed.
Lemma keeps_reconcile row p e now d r d' : reconcile_specialist row p e now d = Ok (r, d') -> keeps d d'.
Proof.
  intros Ha. unfold reconcile_specialist in Ha. apply bind_Ok_inv in Ha as (? & _ & Ha).
  apply bind_Ok_inv in Ha as ([replay d1] & Hr & Ha). apply keeps_replay in Hr. destruct replay; [inv_ok; by simplify_eq|].
  inv_ok. destruct a as [r2 d2]. apply reconcile_frame, keeps_frame in Hok. destruct r2; inv_ok; simplify_eq; [apply keeps_checkpoint in Hok0|]; by repeat (etrans; [eassumption|]).
Qed.
Ltac keeping :=
  lazymatch goal with
  | |- keeps ?d ?d => reflexivity
  | |- keeps _ (terminalizeCommandGuards _ _ _ _) => etrans; [|apply keeps_guards]; keeping
  | |- keeps _ (update_command _ _ _) => etrans; [|apply keeps_update_command; intros ?; repeat case_bool_decide; done]; keeping
  | |- keeps _ (update_queue _ _ _) => etrans; [|apply keeps_update_queue]; keeping
  | |- keeps _ (record_response _ _ _ _ _) => etrans; [|apply keeps_record]; keeping
  | |- keeps _ (set_failed _ ?d0) => trans d0; [|by apply keeps_same]; keeping
  | |- keeps _ (set_logs _ ?d0) => trans d0; [|by apply keeps_same]; keeping
  | |- keeps _ (if ?b then _ else _) => destruct b; keeping
  end.
Lemma keeps_complete opts row out time now d d' : complete opts row out time now d = Ok d' -> keeps d d'.
Proof.
  intros Hc. unfold complete in Hc. do 3 (apply bind_Ok_inv in Hc as (? & _ & Hc)). apply bind_Ok_inv in Hc as (d1 & Hv & Hc). apply verify_quiet in Hv as ->.
  do 6 (apply bind_Ok_inv in Hc as (? & _ & Hc)). apply audit_same in Hc as [l ->]. keeping.
Qed.
Lemma keeps_fail opts row e time now d d' : fail opts reg row e time now d = Ok d' -> keeps d d'.
Proof.
  intros Hc. unfold fail in Hc. do 2 (apply bind_Ok_inv in Hc as (? & _ & Hc)). apply bind_Ok_inv in Hc as (d1 & Hv & Hc). apply verify_quiet in Hv as ->.
  destruct (queue d !! ck_command row) as [q|]; [|inv_ok; by subst]. destruct (_ || _); [inv_ok; by subst|].
  do 2 (apply bind_Ok_inv in Hc as (? & _ & Hc)). apply bind_Ok_inv in Hc as (y & _ & Hc).
  cbv zeta in Hc. destruct (action _); inv_ok; subst d'; keeping.
Qed.
Lemma keeps_claim opts locked now d r d' : claim_next opts locked now d = Ok (r, d') -> keeps d d'.
Proof.
  intros Hc. unfold claim_next in Hc. apply bind_Ok_inv in Hc as (h & _ & Hc). destruct (next_candidate opts locked h now d) as [[id q]|]; [|inv_ok; by simplify_eq].
  destruct (commands d !! id) as [c|] eqn:Ec; [|inv_ok; by simplify_eq]. destruct (admissions d !! id) as [a|]; [|inv_ok; by simplify_eq].
  apply bind_Ok_inv in Hc as (? & _ & Hc). destruct (claims d !! cr_claim c) as [k|] eqn:Hk; [|inv_ok; by simplify_eq].
  destruct (claim_current k c h && _ && _ && _); [|inv_ok; by simplify_eq]. do 2 (apply bind_Ok_inv in Hc as (? & _ & Hc)). inv_ok. simplify_eq.
  etrans; [apply (keeps_command id c (set_command C_RUNNING (cr_result c) (cr_error c) (cr_lineage c) (kc_fence k + 1) c) d Ec); done|]. by apply keeps_same.
Qed.
Lemma keeps_resume id owner ln u now d d' : resume_command id owner ln u now d = Ok d' -> keeps d d'.
Proof.
  intros Hr. unfold resume_command, resumable in Hr. destruct (commands d !! id) as [c|] eqn:Ec; [|inv_ok; by subst]. destruct (queue d !! id) as [q|]; [|inv_ok; by subst].
  destruct (claims d !! cr_claim c) as [k|] eqn:Hk; [|inv_ok; by subst]. destruct (_ && negb u); [|inv_ok; by subst]. inv_ok. subst d'.
  etrans; [apply (keeps_command id c (set_command C_ACCEPTED (cr_result c) (cr_error c) ln (kc_fence k + 1) c) d Ec); done|].
  apply keeps_same; destruct (admissions d !! id) as [a|]; try done; by destruct (domains d !! ad_domain a).
Qed.
Lemma keeps_end_replaced id version time d d' : end_replaced reg id version time d = Ok d' -> keeps d d'.
Proof.
  intros He. unfold end_replaced in He. inv_ok. destruct (bool_decide _); [|inv_ok; by subst]. unfold terminalizeReplacedCommand in He.
  apply bind_Ok_inv in He as (f & _ & He). inv_ok. subst d'. etrans; [|apply keeps_guards].
  match goal with |- keeps _ (set_idempotency (?g <$> _) ?d1) => trans d1; [keeping | apply (keeps_responses g d1)] end; intros x.
  - by destruct (_ && executing x).
  - destruct (String.eqb_spec (id_command x) id) as [<-|]; [|by left]. cbn [andb]. destruct (executing x); [right | by left].
    intros b Hb. apply (inj Some) in Hb as <-. apply response_command_result.
Qed.
Lemma keeps_review k id d : keeps d (createManualReview k id d).
Proof. unfold createManualReview. keeping. Qed.
(** *** Admission *)

Lemma execute_mutating name input x f d r d' o : catalog_get cat name = Ok o -> read_only o = false -> execute cat name input x f d = Ok (r, d') ->
  exists l c key, spread_input input name = Ok l /\ operationCommandSchema (JObj l) = Some c /\ idempotencyKey x = Some key /\ admit_command o c key x f d = Ok (r, d').
Proof.
  intros Hc Hr He. unfold execute in He. rewrite Hc in He. apply bind_Ok_inv in He as (o' & Ho & He). injection Ho as <-. apply bind_Ok_inv in He as (? & _ & He).
  apply bind_Ok_inv in He as (l & Hl & He). apply bind_Ok_inv in He as (c & Hp & He). apply or_throw_Ok in Hp. do 2 (apply bind_Ok_inv in He as (? & _ & He)).
  rewrite Hr in He. apply bind_Ok_inv in He as (key & Hk & He). exists l, c, key. split_and!; try done.
  destruct (idempotencyKey x) as [k|]; [|done]. destruct (truthy k); inv_ok. by subst.
Qed.
Lemma admit_new_response o c x f h epoch sk row d r d' : admit_new o c x f h epoch sk row d = Ok (r, d') -> response_command r = Some (fr_command f).
Proof.
  intros Ha. unfold admit_new in Ha. cbv zeta in Ha. do 4 (apply bind_Ok_inv in Ha as (? & _ & Ha)).
  apply bind_Ok_inv in Ha as ([k d1] & _ & Ha). do 4 (apply bind_Ok_inv in Ha as (? & _ & Ha)). apply bind_Ok_inv in Ha as ([n d2] & _ & Ha).
  apply bind_Ok_inv in Ha as (? & _ & Ha). apply Ok_pair in Ha as [<- _]. apply response_command_result.
Qed.
(** The record of the key, and the response: both name one command. *)
Lemma admit_answers o c key x f d r d' : (forall k row, idempotency d !! k = Some row -> answers row) -> admit_command o c key x f d = Ok (r, d') ->
  exists row, idempotency d' !! idempotency_key o c key x = Some row /\ response_command r = Some (id_command row) /\
    (idempotency d !! idempotency_key o c key x = None -> id_command row = fr_command f /\ is_Some (commands d' !! fr_command f)).
Proof.
  intros Hall Ha. pose proof (admit_command_Ok _ _ _ _ _ _ _ _ Ha) as (h & epoch & _ & _ & _ & _ & Hs). destruct (idempotency d !! _) as [row|] eqn:E.
  - destruct Hs as (-> & _ & _). exists row. split; [done|]. split; [|done]. unfold admit_command in Ha. do 4 (apply bind_Ok_inv in Ha as (? & _ & Ha)).
    rewrite E in Ha. apply bind_Ok_inv in Ha as (? & _ & Ha). apply Ok_pair in Ha as [<- _].
    destruct (id_response row) as [b|] eqn:Eb; [by apply response_command_replayed, (Hall _ _ E) | apply response_command_result].
  - destruct Hs as [row0 A]. destruct (am_response _ _ _ _ _ _ _ _ _ _ A) as (row & Hi & _ & _ & Hc & _).
    destruct (am_claim _ _ _ _ _ _ _ _ _ _ A) as (n & k & _ & _ & _ & _ & Hcm & _).
    exists row. rewrite Hi, lookup_insert_eq, Hcm, lookup_insert_eq, Hc. split_and!; [done| |by eauto].
    unfold admit_command in Ha. do 4 (apply bind_Ok_inv in Ha as (? & _ & Ha)). rewrite E in Ha. apply bind_Ok_inv in Ha as (? & _ & Ha). by apply admit_new_response in Ha.
Qed.
Lemma keeps_admit name o c key x f d r d' : catalog_get cat name = Ok o -> read_only o = false -> admit_command o c key x f d = Ok (r, d') -> keeps d d'.
Proof.
  intros Hg Hro Ha. pose proof (admit_command_Ok _ _ _ _ _ _ _ _ Ha) as (h & epoch & _ & _ & _ & _ & Hs). destruct (idempotency d !! _) as [row|] eqn:E; [by destruct Hs as (-> & _)|].
  destruct Hs as [row0 A]. destruct (am_response _ _ _ _ _ _ _ _ _ _ A) as (row & Hi & _ & Hb & Hc & _). destruct (am_claim _ _ _ _ _ _ _ _ _ _ A) as (n & k & _ & _ & _ & Hnew & Hcm & _).
  cbn in Hi, Hnew, Hcm. rewrite insert_insert_eq in Hi. split; rewrite ?Hi, ?Hcm.
  - intros id c0 H0. exists c0. split; [|done]. rewrite lookup_insert_ne; [done|]. intros <-. congruence.
  - intros id c' Hc'. apply lookup_insert_Some in Hc' as [[<- <-]|[_ ?]]; [right|left; eauto using same_origin_refl].
    exists o. unfold catalog_get in Hg. apply or_throw_Ok in Hg as Hf. apply List.find_some in Hf as [_ Hf]. apply String.eqb_eq in Hf.
    cbn. subst name. split_and!; [|done|done]. unfold catalog_get. exact Hg.
  - intros k0 r0 H0. exists r0. split; [|done]. rewrite lookup_insert_ne; [done|]. intros <-. congruence.
  - intros k0 r0 H0. apply lookup_insert_Some in H0 as [[<- <-]|[_ ?]]; [right|by left]. intros b Hb'. rewrite Hb in Hb'. injection Hb' as <-. rewrite Hc.
    unfold admit_command in Ha. do 4 (apply bind_Ok_inv in Ha as (? & _ & Ha)). rewrite E in Ha. apply bind_Ok_inv in Ha as (? & _ & Ha). by apply admit_new_response in Ha.
Qed.
Lemma keeps_execute name input x f d r d' : execute cat name input x f d = Ok (r, d') -> keeps d d'.
Proof.
  intros He. destruct (catalog_get cat name) as [o|e] eqn:Hc; [|unfold execute in He; by rewrite Hc in He]. destruct (read_only o) eqn:Hr.
  - unfold execute in He. rewrite Hc in He. apply bind_Ok_inv in He as (o' & Ho & He). injection Ho as <-. do 5 (apply bind_Ok_inv in He as (? & _ & He)). rewrite Hr in He. inv_ok. by simplify_eq.
  - destruct (execute_mutating _ _ _ _ _ _ _ _ Hc Hr He) as (l & c & key & _ & _ & _ & Ha). by eapply keeps_admit.
Qed.
Lemma keeps_step s s' : CommandWorker.step cat reg s s' -> keeps (db s) (db s').
Proof.
  intros St. destruct St; cbn; try reflexivity.
  - by eapply keeps_execute.
  - by eapply keeps_claim.
  - by eapply keeps_apply.
  - by eapply keeps_apply.
  - by eapply keeps_prepare.
  - by eapply keeps_reconcile.
  - by eapply keeps_complete.
  - by eapply keeps_fail.
  - by eapply keeps_end_replaced.
  - apply keeps_review.
  - by eapply keeps_resume.
  - match goal with Hs : same_commands _ _ |- _ => destruct Hs as [(? & ? & ? & _) _ _] end. by apply keeps_same.
Qed.

(** The idempotency key of the successor of [c] for plan [k] *)
Definition origin_key (k : plan_key) (c : command_row) : list Z * list Z :=
  (hash (utf8 (cr_caller c +:+ nul +:+ cr_operation c +:+ nul +:+ default "none" (cr_target c))), hash (utf8 (successor_key k))).
Lemma successor_target c v e l cmd : spread_input (successor_input (c, v, e)) (cr_operation c) = Ok l -> operationCommandSchema (JObj l) = Some cmd -> oc_targetId cmd = cr_target c.
Proof.
  cbn [successor_input spread_input]. intros [= <-]. unfold operationCommandSchema. intros Hs.
  apply bind_Some in Hs as (l & Hl & Hs). unfold z_strict in Hl. destruct (forallb _ _); [|done]. injection Hl as <-.
  apply bind_Some in Hs as (op & _ & Hs). apply bind_Some in Hs as (t & Ht & Hs). repeat (apply bind_Some in Hs as (? & _ & Hs)). injection Hs as <-. cbn [oc_targetId].
  unfold z_default in Ht. cbn in Ht. destruct (cr_target c) as [tg|]; cbn in Ht; [|by injection Ht as <-]. unfold z_uuid, z_string in Ht.
  destruct (uuid_ok tg); [|done]. by injection Ht as <-.
Qed.
Lemma admit_successor_spec k c v e co f d id d' : mutating c -> (forall k row, idempotency d !! k = Some row -> answers row) ->
  admit_successor cat k (c, v, e) co f d = Ok (id, d') -> keeps d d' /\ exists row, idempotency d' !! origin_key k c = Some row /\ id_command row = id /\
    (idempotency d !! origin_key k c = None -> is_Some (commands d' !! id)).
Proof.
  intros (o & Hg & Ho & Hro) Hall Ha. unfold admit_successor in Ha. apply bind_Ok_inv in Ha as ([resp d1] & He & Ha). inv_ok. simplify_eq. cbn [fst] in He.
  split; [by eapply keeps_execute|]. destruct (execute_mutating _ _ _ _ _ _ _ _ Hg Hro He) as (l & cmd & key & Hl & Hc & Hk & Had).
  pose proof (successor_target _ _ _ _ _ Hl Hc) as Ht. cbn in Hk. injection Hk as <-.
  destruct (admit_answers _ _ _ _ _ _ _ _ Hall Had) as (row & Hi & Hr & Hn).
  replace (idempotency_key o cmd (successor_key k) (successor_context k c co)) with (origin_key k c) in *
    by (unfold idempotency_key, origin_key, scope_digest; cbn; by rewrite Ho, Ht).
  exists row. split; [done|]. split; [congruence|]. intros E. destruct (Hn E) as [Hf Hsome]. replace id with (fr_command f) by congruence. done.
Qed.
End Keeps.

(** ** The system of the schedulers and the workers *)

Section System.
Context `{L : Locale} `{H : Hash} `{F : Formats} {W : Type} `{D : CommandDomain W} `{M : CommandHandlers W} `{E : EffectLedger W}.
Context (cat : OperationCatalogService) (reg : gmap string StableErrorRecord).
Implicit Type d : cmd_db W.

(** What some scheduler got from a committed transaction; it may act on it at any later time, several times or never. *)
Inductive activity := Holds (c : claimed_plan) | HoldsReconciliation (c : claimed_reconciliation) | Refreshed (b : successor_basis) (r : refreshed) | SuccessorAdmitted (b : successor_basis) (id : string).
(** [successors]: the commands admitted for each plan; [cleared]: the plans whose effects were found not applied, with these effects *)
Record world := { workers : CommandWorker.system; known : list activity; successors : list (plan_key * string); cleared : list (plan_key * list effect_view) }.
Definition base (w : world) : cmd_db W := db (workers w).
Definition with_base d (w : world) : world :=
  {| workers := Sys d (flights (workers w)) (ran (workers w)); known := known w; successors := successors w; cleared := cleared w |}.
Definition learn (a : activity) (w : world) : world := {| workers := workers w; known := a :: known w; successors := successors w; cleared := cleared w |}.
Definition log_successor (k : plan_key) (id : string) (w : world) : world := {| workers := workers w; known := known w; successors := (k, id) :: successors w; cleared := cleared w |}.
Definition log_cleared (k : plan_key) (l : list effect_view) (w : world) : world :=
  if forallb not_applied l then {| workers := workers w; known := known w; successors := successors w; cleared := (k, l) :: cleared w |} else w.
(** Who may ask for a successor *)
Definition entitled (b : successor_basis) (l : list activity) : Prop :=
  match b with
  | FromPlan c => Holds c ∈ l /\ sp_action c = REFRESH_AND_CREATE_SUCCESSOR
  | FromReconciliation c => HoldsReconciliation c ∈ l /\ sr_previous c = R_RETRY_ALLOWED
  end.
(** What the worker does to the tables of the scheduler: new plans without successor, and states of the others *)
Definition plans_kept d d' : Prop :=
  reconciliations (failed d') = reconciliations (failed d) /\ snapshots (failed d') = snapshots (failed d) /\
  (forall k p, plans (failed d) !! k = Some p -> exists p', plans (failed d') !! k = Some p' /\ pl_command p' = pl_command p /\ pl_action p' = pl_action p /\ pl_successor p' = pl_successor p) /\
  (forall k p', plans (failed d') !! k = Some p' -> is_Some (plans (failed d) !! k) \/ pl_successor p' = None).

Inductive step (w : world) : world -> Prop :=
  | ws_worker s' : CommandWorker.step cat reg (workers w) s' -> plans_kept (base w) (db s') ->
      step w {| workers := s'; known := known w; successors := successors w; cleared := cleared w |}
  | ws_claim opts locked now c d' : claimPlan opts locked now (base w) = Ok (Some c, d') -> step w (learn (Holds c) (with_base d' w))
  | ws_claim_reconciliation opts locked now c d' : claimReconciliation opts locked now (base w) = Ok (Some c, d') -> step w (learn (HoldsReconciliation c) (with_base d' w))
  | ws_enqueue opts c now d' : Holds c ∈ known w -> sp_action c = ENQUEUE_RECONCILIATION -> enqueueReconciliation opts c now (base w) = Ok d' -> step w (with_base d' w)
  | ws_reconcile opts c time now d' : HoldsReconciliation c ∈ known w -> sr_previous c <> R_RETRY_ALLOWED -> reconcile_effects opts c time now (base w) = Ok d' ->
      step w (log_cleared (sr_key c) (commandEffects (rest (base w)) (sr_command c)) (with_base d' w))
  | ws_refresh opts b version time r d' : entitled b (known w) -> refresh_snapshot opts reg b version time (base w) = Ok (r, d') -> step w (learn (Refreshed b r) (with_base d' w))
  | ws_admit b r correlation f id d' : Refreshed b r ∈ known w -> admit_successor cat (basis_key b) r correlation f (base w) = Ok (id, d') ->
      step w (log_successor (basis_key b) id (learn (SuccessorAdmitted b id) (with_base d' w)))
  | ws_link opts b id d' : SuccessorAdmitted b id ∈ known w -> link_successor opts b id (base w) = Ok d' -> step w (with_base d' w)
  | ws_release opts c e now d' : releasePlan opts reg c e now (base w) = Ok d' -> step w (with_base d' w)
  | ws_release_reconciliation opts c e now d' : HoldsReconciliation c ∈ known w -> releaseReconciliation opts reg c e now (base w) = Ok d' -> step w (with_base d' w).

(** No command, plan or reconciliation yet *)
Definition initial (w : world) : Prop :=
  CommandWorker.initial (workers w) /\ idempotency (base w) = ∅ /\ plans (failed (base w)) = ∅ /\ reconciliations (failed (base w)) = ∅ /\
  known w = [] /\ successors w = [] /\ cleared w = [].
Definition reachable (w : world) : Prop := exists w0, initial w0 /\ star step w0 w.

(** *** The scheduler is an environment that the workers' theorems allow *)

Lemma same_commands_failed t d : same_commands d (set_failed t d).
Proof. by split. Qed.
Lemma other_step t s : CommandWorker.step cat reg s (Sys (set_failed t (db s)) (flights s) (ran s)).
Proof. destruct s as [d fl l]. apply st_other. apply same_commands_failed. Qed.
Lemma update_failed_eq g d : update_failed g d = set_failed (g (failed d)) d.
Proof. done. Qed.
Lemma claimPlan_Ok opts locked now d c d' : claimPlan opts locked now d = Ok (Some c, d') ->
  exists p, plans (failed d) !! sp_key c = Some p /\ sp_command c = pl_command p /\ sp_action c = pl_action p /\
    d' = update_failed (put_plan (sp_key c) (claim_plan_row opts now (sp_token c) p)) d.
Proof.
  unfold claimPlan. intros Hc. apply bind_Ok_inv in Hc as (h & _ & Hc). destruct (next_plan locked h now d) as [[k p]|] eqn:En; [|inv_ok; simplify_eq].
  apply bind_Ok_inv in Hc as (? & _ & Hc). apply Ok_pair in Hc as [Hc <-]. injection Hc as <-. exists p. cbn. split_and!; try done.
  unfold next_plan in En. apply head_Some_elem_of in En. apply elem_of_stable_sort, list_elem_of_In, List.filter_In in En as [En _].
  by apply list_elem_of_In, elem_of_map_to_list in En.
Qed.
Lemma claimReconciliation_Ok opts locked now d c d' : claimReconciliation opts locked now d = Ok (Some c, d') ->
  exists r, reconciliations (failed d) !! sr_key c = Some r /\ is_Some (plans (failed d) !! sr_key c) /\ sr_command c = rc_command r /\ sr_previous c = rc_state r /\
    exists r', d' = update_failed (put_reconciliation (sr_key c) r') d /\ rc_command r' = rc_command r /\ rc_state r' = R_CLAIMED.
Proof.
  unfold claimReconciliation. intros Hc. apply bind_Ok_inv in Hc as (h & _ & Hc). destruct (next_reconciliation locked h now d) as [[k r]|] eqn:En; [|inv_ok; simplify_eq].
  apply bind_Ok_inv in Hc as (? & _ & Hc). apply Ok_pair in Hc as [Hc <-]. injection Hc as <-.
  unfold next_reconciliation in En. apply head_Some_elem_of in En. apply elem_of_stable_sort, list_elem_of_In, List.filter_In in En as [En Hb].
  apply list_elem_of_In, elem_of_map_to_list in En. exists r. cbn. unfold reconciliation_candidate in Hb. split; [done|]. split; [by destruct (plans (failed d) !! k)|]. split_and!; try done.
  eexists. split; [done|]. done.
Qed.
(** The writes of the scheduler, seen by the workers *)
Inductive write d : cmd_db W -> Prop :=
  | wr_failed t : write d (set_failed t d)
  | wr_review k id : write d (createManualReview k id d)
  | wr_replace id version time d' : end_replaced reg id version time d = Ok d' -> write d d'.
Lemma write_steps d d' fl rn : star write d d' -> star (CommandWorker.step cat reg) (Sys d fl rn) (Sys d' fl rn).
Proof.
  induction 1 as [d|d d1 d2 Hw _ IH]; [apply star_refl|]. eapply star_step; [|exact IH]. destruct Hw as [t|k id|id version time d' He].
  - exact (other_step t (Sys d fl rn)).
  - apply st_review.
  - by eapply st_replace.
Qed.
Lemma enqueue_writes opts c now d d' : enqueueReconciliation opts c now d = Ok d' -> star write d d'.
Proof.
  unfold enqueueReconciliation. intros He. inv_ok. subst d'. eapply star_trans; [|apply star_one; rewrite update_failed_eq; apply wr_failed].
  destruct (reconciliations _ !! _); [apply star_refl|]. apply star_one. rewrite update_failed_eq. apply wr_failed.
Qed.
Lemma reconcile_writes opts c time now d d' : reconcile_effects opts c time now d = Ok d' -> star write d d'.
Proof.
  unfold reconcile_effects. intros He. inv_ok. subst d'. case_match; [apply star_one; rewrite update_failed_eq; apply wr_failed|].
  case_match; rewrite update_failed_eq; [|apply star_one, wr_failed]. eapply star_step; [apply wr_review|]. apply star_one, wr_failed.
Qed.
Lemma refresh_writes opts b version time r d d' : refresh_snapshot opts reg b version time d = Ok (r, d') -> star write d d'.
Proof.
  unfold refresh_snapshot. intros He. do 4 (apply bind_Ok_inv in He as (? & _ & He)). apply bind_Ok_inv in He as (d1 & Hr & He).
  eapply star_step; [by eapply wr_replace|]. destruct (snapshots _ !! _); [apply Ok_pair in He as [_ <-]; apply star_refl|].
  do 2 (apply bind_Ok_inv in He as (? & _ & He)). apply Ok_pair in He as [_ <-]. apply star_one. rewrite update_failed_eq. apply wr_failed.
Qed.
Lemma link_writes opts b id d d' : link_successor opts b id d = Ok d' -> star write d d'.
Proof.
  unfold link_successor. intros He. do 2 (apply bind_Ok_inv in He as (? & _ & He)). apply bind_Ok_inv in He as (r & _ & He). inv_ok. subst d'.
  destruct r; rewrite ?update_failed_eq; [eapply star_step; [apply wr_failed|]|]; apply star_one, wr_failed.
Qed.
Lemma release_writes opts c e now d d' : releasePlan opts reg c e now d = Ok d' -> star write d d'.
Proof.
  unfold releasePlan. intros He. apply bind_Ok_inv in He as (? & _ & He). destruct (plans _ !! _); [|inv_ok; subst; apply star_refl].
  destruct (negb _); [inv_ok; subst; apply star_refl|]. destruct (_ <=? _); inv_ok; subst; apply star_one; [apply wr_review | rewrite update_failed_eq; apply wr_failed].
Qed.
Lemma release_reconciliation_writes opts c e now d d' : releaseReconciliation opts reg c e now d = Ok d' -> star write d d'.
Proof.
  unfold releaseReconciliation. intros He. apply bind_Ok_inv in He as (? & _ & He). destruct (reconciliations _ !! _); [|inv_ok; subst; apply star_refl].
  destruct (negb _); [inv_ok; subst; apply star_refl|]. destruct (_ <=? _); inv_ok; subst; rewrite update_failed_eq; [eapply star_step; [apply wr_review|]|]; apply star_one, wr_failed.
Qed.
Lemma step_simulated w w' : step w w' -> star (CommandWorker.step cat reg) (workers w) (workers w').
Proof.
  intros St. destruct w as [[d fl rn] kn su cl]. destruct St; cbn in *.
  - by apply star_one.
  - apply claimPlan_Ok in H0 as (p & _ & _ & _ & ->). apply write_steps, star_one. rewrite update_failed_eq. apply wr_failed.
  - apply claimReconciliation_Ok in H0 as (r & _ & _ & _ & _ & r' & -> & _). apply write_steps, star_one. rewrite update_failed_eq. apply wr_failed.
  - by eapply write_steps, enqueue_writes.
  - unfold log_cleared. destruct (forallb _ _); by eapply write_steps, reconcile_writes.
  - by eapply write_steps, refresh_writes.
  - unfold admit_successor in H1. apply bind_Ok_inv in H1 as ([resp d1] & He & H1). inv_ok. simplify_eq. by eapply star_one, st_execute.
  - by eapply write_steps, link_writes.
  - by eapply write_steps, release_writes.
  - by eapply write_steps, release_reconciliation_writes.
Qed.

(** C11. Refinement.  The retry scheduler is an environment the workers allow: every run of any number of schedulers
    and workers is, on the tables of the commands, a run of the system of the workers.  So what is proved of it holds
    with the schedulers in place: no handler runs twice, and the guards of the commands are exact. *)
Theorem retry_scheduler_refines w : reachable w -> CommandWorker.reachable cat reg (workers w).
Proof.
  intros (w0 & (H0 & _) & Hs). exists (workers w0). split; [exact H0|]. clear H0. induction Hs as [w|w1 w2 w3 St _ IH]; [apply star_refl|].
  eapply star_trans; [by apply step_simulated | exact IH].
Qed.

(** *** Plans, reconciliations and successors *)

(** Tables of failures after a transaction that links no successor and allows no retry *)
Record quiet (x x' : failure_tables) : Prop := {
  q_plans k p : plans x !! k = Some p -> exists p', plans x' !! k = Some p' /\ pl_command p' = pl_command p /\ pl_action p' = pl_action p;
  q_successors k p' : plans x' !! k = Some p' -> pl_successor p' = None \/ exists p, plans x !! k = Some p /\ pl_successor p' = pl_successor p;
  q_reconciliations k r' : reconciliations x' !! k = Some r' -> exists r, reconciliations x !! k = Some r /\ rc_command r' = rc_command r /\
    (rc_state r' = R_RETRY_ALLOWED -> rc_state r = R_RETRY_ALLOWED);
}.
#[local] Instance quiet_refl : Reflexive quiet.
Proof. intros x. split; eauto. Qed.
#[local] Instance quiet_trans : Transitive quiet.
Proof.
  intros x y z [P1 S1 R1] [P2 S2 R2]. split.
  - intros k p Hp. destruct (P1 _ _ Hp) as (p1 & Hp1 & ? & ?). destruct (P2 _ _ Hp1) as (p2 & ? & ? & ?). exists p2. split_and!; [done | congruence | congruence].
  - intros k p2 Hp2. destruct (S2 _ _ Hp2) as [?|(p1 & Hp1 & E1)]; [by left|]. destruct (S1 _ _ Hp1) as [?|(p & Hp & E2)]; [left; congruence|].
    right. exists p. split; [done | congruence].
  - intros k r2 Hr2. destruct (R2 _ _ Hr2) as (r1 & Hr1 & ? & ?). destruct (R1 _ _ Hr1) as (r & Hr & ? & ?). exists r. split_and!; [done | congruence | auto].
Qed.
Lemma quiet_plan k p p' x : plans x !! k = Some p -> pl_command p' = pl_command p -> pl_action p' = pl_action p -> pl_successor p' = pl_successor p -> quiet x (put_plan k p' x).
Proof.
  intros Hp E1 E2 E3. split; cbn; [| |eauto].
  - intros k0 p0 H0. destruct (decide (k0 = k)) as [->|]; [rewrite lookup_insert_eq; simplify_eq; eauto | rewrite lookup_insert_ne by done; eauto].
  - intros k0 p0 H0. destruct (decide (k0 = k)) as [->|]; [rewrite lookup_insert_eq in H0; simplify_eq; eauto | rewrite lookup_insert_ne in H0 by done; eauto].
Qed.
Lemma quiet_reconciliation k r r' x : reconciliations x !! k = Some r -> rc_command r' = rc_command r -> rc_state r' <> R_RETRY_ALLOWED -> quiet x (put_reconciliation k r' x).
Proof.
  intros Hr E1 E2. split; cbn; [eauto|eauto|]. intros k0 r0 H0.
  destruct (decide (k0 = k)) as [->|]; [rewrite lookup_insert_eq in H0; simplify_eq; exists r; by split_and! | rewrite lookup_insert_ne in H0 by done; eauto].
Qed.
Lemma quiet_snapshot k s x : quiet x (put_snapshot k s x).
Proof. split; cbn; eauto. Qed.
Lemma quiet_review k id d : quiet (failed d) (failed (createManualReview k id d)).
Proof.
  assert (Hu : forall g d0, failed (update_command id g d0) = failed d0) by (intros g d0; unfold update_command; by destruct (commands d0 !! id)).
  unfold createManualReview. rewrite Hu. cbn. set (x := if bool_decide _ then _ else _).
  assert (Hx : quiet (failed d) x) by (unfold x; case_bool_decide; [done | by split; cbn; eauto]). etrans; [exact Hx|].
  destruct (plans x !! k) as [p|] eqn:Ep; [by eapply quiet_plan | done].
Qed.
Lemma end_replaced_failed id version time d d' : end_replaced reg id version time d = Ok d' -> failed d' = failed d.
Proof.
  intros He. unfold end_replaced in He. inv_ok. destruct (bool_decide _); [|inv_ok; by subst]. unfold terminalizeReplacedCommand in He. inv_ok. subst d'.
  assert (Ht : forall i d0, failed (terminalize_admission i d0) = failed d0).
  { intros i d0. unfold terminalize_admission. destruct (admissions d0 !! i); [|done]. case_bool_decide; [done|].
    match goal with |- context [count_pending ?n ?k ?p ?d1] => by destruct (count_pending_same n k p d1) as (_ & _ & _ & _ & _ & _ & _ & _ & -> & _) end. }
  unfold terminalizeCommandGuards. destruct (claims _ !! _); [destruct (_ && _)|]; cbn; rewrite Ht; unfold update_command; by destruct (commands d !! id).
Qed.
Lemma check_basis_Ok opts m b d p : check_basis opts m b d = Ok p -> plans (failed d) !! basis_key b = Some p.
Proof. unfold check_basis. intros He. destruct b; inv_ok; by simplify_eq. Qed.
Lemma check_reconciliation_Ok opts m b d r : check_reconciliation opts m b d = Ok (Some r) -> reconciliations (failed d) !! basis_key b = Some r.
Proof. unfold check_reconciliation. intros He. destruct b; inv_ok; by simplify_eq. Qed.

Lemma enqueue_Ok opts c now d d' : enqueueReconciliation opts c now d = Ok d' ->
  exists p p' x, plans (failed d) !! sp_key c = Some p /\ pl_command p' = pl_command p /\ pl_action p' = pl_action p /\ pl_successor p' = pl_successor p /\ failed d' = put_plan (sp_key c) p' x /\
    (x = failed d \/ exists r, rc_command r = sp_command c /\ rc_state r = R_READY /\ x = put_reconciliation (sp_key c) r (failed d)).
Proof.
  unfold enqueueReconciliation. intros He. inv_ok. subst d'. exists a0, (set_plan P_WAITING_RECONCILIATION None None a0).
  destruct (reconciliations (failed d) !! sp_key c); cbn.
  - exists (failed d). split_and!; try done. by left.
  - eexists. do 5 (split; [done|]). right. eexists. split; [|split; [|reflexivity]]; done.
Qed.
Lemma reconcile_Ok opts c time now d d' : reconcile_effects opts c time now d = Ok d' ->
  exists r r', reconciliations (failed d) !! sr_key c = Some r /\ rc_command r' = rc_command r /\
    exists x, quiet (failed d) x /\ reconciliations x = reconciliations (failed d) /\ failed d' = put_reconciliation (sr_key c) r' x /\
    (rc_state r' = R_RETRY_ALLOWED -> forallb not_applied (commandEffects (rest d) (sr_command c)) = true).
Proof.
  unfold reconcile_effects. intros He. inv_ok. subst d'. exists a0. case_match eqn:Ef; [|case_match].
  - eexists. split; [done|]. split; [|exists (failed d); split; [reflexivity|]; split; [done|]; split; [reflexivity|]; done]. done.
  - eexists. split; [done|]. split; [|exists (failed (createManualReview (sr_key c) (sr_command c) d)); split; [apply quiet_review|]; split; [|split; [reflexivity|done]]]; [done|].
    unfold createManualReview, update_command. cbn. destruct (commands d !! sr_command c); cbn; destruct (plans _ !! _); cbn; by case_bool_decide.
  - eexists. split; [done|]. split; [|exists (failed d); split; [reflexivity|]; split; [done|]; split; [reflexivity|]; done]. done.
Qed.
Lemma refresh_Ok opts b version time r d d' : refresh_snapshot opts reg b version time d = Ok (r, d') ->
  (exists p, plans (failed d) !! basis_key b = Some p) /\ commands d !! basis_command b = Some r.1.1 /\ quiet (failed d) (failed d').
Proof.
  unfold refresh_snapshot. intros He. apply bind_Ok_inv in He as (? & _ & He). apply bind_Ok_inv in He as (p & Hp & He). apply check_basis_Ok in Hp.
  apply bind_Ok_inv in He as (? & _ & He). apply bind_Ok_inv in He as (c & Hc & He). apply or_throw_Ok in Hc. apply bind_Ok_inv in He as (d1 & Hr & He). apply end_replaced_failed in Hr.
  split; [by exists p|]. destruct (snapshots _ !! _).
  - apply Ok_pair in He as [<- <-]. rewrite Hr. split; [done | reflexivity].
  - do 2 (apply bind_Ok_inv in He as (? & _ & He)). apply Ok_pair in He as [<- <-]. split; [done|]. cbn. rewrite Hr. apply quiet_snapshot.
Qed.
Lemma link_Ok opts b id d d' : link_successor opts b id d = Ok d' ->
  exists p x, plans (failed d) !! basis_key b = Some p /\ quiet (put_plan (basis_key b) (complete_plan id p) (failed d)) x /\ failed d' = x.
Proof.
  unfold link_successor. intros He. apply bind_Ok_inv in He as (? & _ & He). apply bind_Ok_inv in He as (p & Hp & He). apply check_basis_Ok in Hp.
  apply bind_Ok_inv in He as (r & Hr & He). inv_ok. subst d'. eexists p, _. split; [done|]. split; [|reflexivity]. destruct r as [r|]; [|reflexivity].
  apply check_reconciliation_Ok in Hr. cbn. by eapply quiet_reconciliation.
Qed.
Lemma release_Ok opts c e now d d' : releasePlan opts reg c e now d = Ok d' -> quiet (failed d) (failed d').
Proof.
  unfold releasePlan. intros He. apply bind_Ok_inv in He as (? & _ & He). destruct (plans _ !! _) eqn:Ep; [|inv_ok; by subst].
  destruct (negb _); [inv_ok; by subst|]. destruct (_ <=? _); inv_ok; subst; [apply quiet_review|]. cbn. by eapply quiet_plan.
Qed.
Lemma release_reconciliation_Ok opts c e now d d' : releaseReconciliation opts reg c e now d = Ok d' -> quiet (failed d) (failed d').
Proof.
  unfold releaseReconciliation. intros He. apply bind_Ok_inv in He as (? & _ & He). destruct (reconciliations _ !! _) as [r|] eqn:Er; [|inv_ok; by subst].
  destruct (negb _); [inv_ok; by subst|]. destruct (_ <=? _); inv_ok; subst; cbn; [|by eapply quiet_reconciliation].
  etrans; [apply (quiet_review (sr_key c) (sr_command c))|]. eapply (quiet_reconciliation _ r); [|done|done].
  rewrite <- Er. unfold createManualReview, update_command. cbn. destruct (commands d !! sr_command c); cbn; destruct (plans _ !! _); cbn; by case_bool_decide.
Qed.
Lemma write_keeps d d' : write d d' -> keeps cat d d'.
Proof. intros [t|k id|id v t d2 Hr]; [by apply keeps_same | apply keeps_review | by eapply keeps_end_replaced]. Qed.
Lemma writes_keep d d' : star write d d' -> keeps cat d d'.
Proof. induction 1; [done|]. etrans; [by apply write_keeps | done]. Qed.

(** What stands behind an activity, a reconciliation and a successor *)
Definition plan_of (w : world) (k : plan_key) (command : string) (p : plan_row) : Prop := plans (failed (base w)) !! k = Some p /\ pl_command p = command.
Definition may_retry (w : world) (k : plan_key) : Prop := exists l, (k, l) ∈ cleared w.
Definition due_retry (w : world) (k : plan_key) (p : plan_row) : Prop := pl_action p = REFRESH_AND_CREATE_SUCCESSOR \/ may_retry w k.
Definition activity_ok (w : world) (a : activity) : Prop :=
  match a with
  | Holds c => exists p, plan_of w (sp_key c) (sp_command c) p /\ pl_action p = sp_action c
  | HoldsReconciliation c => exists p, plan_of w (sr_key c) (sr_command c) p /\ (sr_previous c = R_RETRY_ALLOWED -> may_retry w (sr_key c))
  | Refreshed b r => exists p c, plan_of w (basis_key b) (basis_command b) p /\ commands (base w) !! basis_command b = Some c /\ same_origin r.1.1 c /\ due_retry w (basis_key b) p
  | SuccessorAdmitted b id => (basis_key b, id) ∈ successors w
  end.
Definition reconciliation_ok (w : world) (k : plan_key) (r : reconciliation_row) : Prop :=
  exists p, plan_of w k (rc_command r) p /\ (rc_state r = R_RETRY_ALLOWED -> may_retry w k).
Definition successor_ok (w : world) (k : plan_key) (id : string) : Prop :=
  exists p c row, plan_of w k (pl_command p) p /\ commands (base w) !! pl_command p = Some c /\ idempotency (base w) !! origin_key k c = Some row /\ id_command row = id /\ due_retry w k p.
Record invariant (w : world) : Prop := {
  si_mutating id c : commands (base w) !! id = Some c -> mutating cat c;
  si_answers k r : idempotency (base w) !! k = Some r -> answers r;
  si_known a : a ∈ known w -> activity_ok w a;
  si_reconciliation k r : reconciliations (failed (base w)) !! k = Some r -> reconciliation_ok w k r;
  si_successor k id : (k, id) ∈ successors w -> successor_ok w k id;
  si_linked k p id : plans (failed (base w)) !! k = Some p -> pl_successor p = Some id -> (k, id) ∈ successors w;
  si_cleared k l : (k, l) ∈ cleared w -> forallb not_applied l = true;
}.
Record grows (w w' : world) : Prop := {
  gr_keeps : keeps cat (base w) (base w');
  gr_plans k p : plans (failed (base w)) !! k = Some p -> exists p', plans (failed (base w')) !! k = Some p' /\ pl_command p' = pl_command p /\ pl_action p' = pl_action p;
  gr_successors x : x ∈ successors w -> x ∈ successors w';
  gr_cleared x : x ∈ cleared w -> x ∈ cleared w';
}.
Lemma plan_of_grows w w' k cmd p : grows w w' -> plan_of w k cmd p -> exists p', plan_of w' k cmd p' /\ pl_action p' = pl_action p.
Proof. intros G [Hp <-]. destruct (gr_plans _ _ G _ _ Hp) as (p' & Hp' & E1 & E2). by exists p'. Qed.
Lemma may_retry_grows w w' k : grows w w' -> may_retry w k -> may_retry w' k.
Proof. intros G (l & Hl). exists l. by apply (gr_cleared _ _ G). Qed.
Lemma due_retry_grows w w' k p p' : grows w w' -> pl_action p' = pl_action p -> due_retry w k p -> due_retry w' k p'.
Proof. intros G E1 [E2|Hm]; [left; congruence | right; by eapply may_retry_grows]. Qed.
Lemma activity_ok_grows w w' a : grows w w' -> activity_ok w a -> activity_ok w' a.
Proof.
  intros G. destruct a as [c|c|b r|b id]; cbn.
  - intros (p & Hp & Ha). destruct (plan_of_grows _ _ _ _ _ G Hp) as (p' & Hp' & E1). exists p'. split; [done | congruence].
  - intros (p & Hp & Ha). destruct (plan_of_grows _ _ _ _ _ G Hp) as (p' & Hp' & _). exists p'. split; [done|]. intros E1. eapply may_retry_grows; eauto.
  - intros (p & c & Hp & Hc & Ho & Hd). destruct (plan_of_grows _ _ _ _ _ G Hp) as (p' & Hp' & E1). destruct (ke_commands _ _ _ (gr_keeps _ _ G) _ _ Hc) as (c' & Hc' & Ho').
    exists p', c'. split_and!; [done | done | by eapply same_origin_trans | by eapply due_retry_grows].
  - apply (gr_successors _ _ G).
Qed.
Lemma origin_key_same k c c' : same_origin c c' -> origin_key k c' = origin_key k c.
Proof. intros (E1 & E2 & E3). unfold origin_key. by rewrite E1, E2, E3. Qed.
Lemma successor_ok_grows w w' k id : grows w w' -> successor_ok w k id -> successor_ok w' k id.
Proof.
  intros G (p & c & row & Hp & Hc & Hi & Hid & Hd). destruct (plan_of_grows _ _ _ _ _ G Hp) as (p' & Hp' & E1). destruct (ke_commands _ _ _ (gr_keeps _ _ G) _ _ Hc) as (c' & Hc' & Ho).
  destruct (ke_ids _ _ _ (gr_keeps _ _ G) _ _ Hi) as (row' & Hi' & E2). assert (E3 : pl_command p' = pl_command p) by apply Hp'.
  exists p', c', row'. rewrite E3. rewrite (origin_key_same _ _ _ Ho). split_and!; [done | done | done | congruence | by eapply due_retry_grows].
Qed.
(** What a step has to show: it grows, and what is new in it is justified. *)
Lemma grows_invariant w w' : invariant w -> grows w w' ->
  (forall a, a ∈ known w' -> a ∈ known w \/ activity_ok w' a) -> (forall k id, (k, id) ∈ successors w' -> (k, id) ∈ successors w \/ successor_ok w' k id) ->
  (forall k p' id, plans (failed (base w')) !! k = Some p' -> pl_successor p' = Some id -> (exists p, plans (failed (base w)) !! k = Some p /\ pl_successor p = Some id) \/ (k, id) ∈ successors w') ->
  (forall k r', reconciliations (failed (base w')) !! k = Some r' ->
     (exists r, reconciliations (failed (base w)) !! k = Some r /\ rc_command r' = rc_command r /\ (rc_state r' = R_RETRY_ALLOWED -> rc_state r = R_RETRY_ALLOWED)) \/ reconciliation_ok w' k r') ->
  (forall k l, (k, l) ∈ cleared w' -> (k, l) ∈ cleared w \/ forallb not_applied l = true) -> invariant w'.
Proof.
  intros I G Hk Hs Hl Hr Hc. pose proof (gr_keeps _ _ G) as K. split.
  - intros id c Hcm. destruct (ke_new _ _ _ K _ _ Hcm) as [(c0 & H0 & Ho)|]; [|done]. by eapply mutating_origin, (si_mutating _ I).
  - intros k r Hi. destruct (ke_responses _ _ _ K _ _ Hi) as [H0|]; [by apply (si_answers _ I) in H0 | done].
  - intros a Ha. destruct (Hk a Ha) as [H0|]; [|done]. by eapply activity_ok_grows, (si_known _ I).
  - intros k r' Hr'. destruct (Hr k r' Hr') as [(r & H0 & E1 & E2)|]; [|done]. destruct (si_reconciliation _ I _ _ H0) as (p & Hp & Hm).
    destruct (plan_of_grows _ _ _ _ _ G Hp) as (p' & Hp' & _). exists p'. rewrite E1. split; [done|]. intros E3. eapply may_retry_grows; [exact G|auto].
  - intros k id Hs'. destruct (Hs k id Hs') as [H0|]; [|done]. by eapply successor_ok_grows, (si_successor _ I).
  - intros k p' id Hp' E1. destruct (Hl k p' id Hp' E1) as [(p & H0 & E2)|]; [|done]. apply (gr_successors _ _ G). by eapply (si_linked _ I).
  - intros k l Hkl. destruct (Hc k l Hkl) as [H0|]; [by apply (si_cleared _ I) in H0 | done].
Qed.
Lemma quiet_grows d' w : keeps cat (base w) d' -> quiet (failed (base w)) (failed d') -> grows w (with_base d' w).
Proof. intros K Q. by split; cbn; [|apply (q_plans _ _ Q)| |]. Qed.
Lemma quiet_invariant d' w : invariant w -> keeps cat (base w) d' -> quiet (failed (base w)) (failed d') -> invariant (with_base d' w).
Proof.
  intros I K Q. apply (grows_invariant w); [done | by apply quiet_grows | by left | by left | | | by left].
  - intros k p' id Hp' E1. destruct (q_successors _ _ Q _ _ Hp') as [E2|(p & Hp & E2)]; [congruence|]. left. exists p. split; [done | congruence].
  - intros k r' Hr'. left. by apply (q_reconciliations _ _ Q).
Qed.
Lemma learn_invariant a w : invariant w -> activity_ok w a -> invariant (learn a w).
Proof.
  intros I Ha. assert (G : grows w (learn a w)) by (by split; cbn; eauto).
  apply (grows_invariant w); [done | done | | by left | by eauto | by eauto | by left]. intros a' [->|Hin]%elem_of_cons; [right | by left]. by eapply activity_ok_grows.
Qed.
Lemma scheduler_initial_invariant w : initial w -> invariant w.
Proof.
  intros ((_ & _ & Hc & _) & Hi & Hp & Hr & Hk & Hs & Hcl). split.
  - intros id c. unfold base. by rewrite Hc, lookup_empty.
  - intros k r. by rewrite Hi, lookup_empty.
  - intros a. rewrite Hk. by intros ?%elem_of_nil.
  - intros k r. by rewrite Hr, lookup_empty.
  - intros k id. rewrite Hs. by intros ?%elem_of_nil.
  - intros k p id. by rewrite Hp, lookup_empty.
  - intros k l. rewrite Hcl. by intros ?%elem_of_nil.
Qed.
Lemma enqueue_invariant opts c now d' w : invariant w -> Holds c ∈ known w -> enqueueReconciliation opts c now (base w) = Ok d' -> invariant (with_base d' w).
Proof.
  intros I Hin He. pose proof (writes_keep _ _ (enqueue_writes _ _ _ _ _ He)) as K. destruct (enqueue_Ok _ _ _ _ _ He) as (p & p' & x & Hp & E1 & E2 & E3 & Ef & Hx).
  destruct Hx as [->|(r & Ec & Er & ->)]; [by apply quiet_invariant; [..|rewrite Ef; eapply quiet_plan]|].
  destruct (si_known _ I _ Hin) as (p0 & [Hp0 Hc0] & _). assert (Hplans : forall k q, plans (failed (base w)) !! k = Some q ->
    exists q', plans (failed d') !! k = Some q' /\ pl_command q' = pl_command q /\ pl_action q' = pl_action q /\ pl_successor q' = pl_successor q).
  { intros k q Hq. rewrite Ef. cbn. destruct (decide (k = sp_key c)) as [->|]; [rewrite lookup_insert_eq; simplify_eq; eauto | rewrite lookup_insert_ne by done; eauto]. }
  apply (grows_invariant w); [done| |by left|by left| | |by left].
  - split; cbn; [done| |done|done]. intros k q Hq. destruct (Hplans k q Hq) as (q' & ? & ? & ? & _). eauto.
  - intros k q id Hq E4. left. cbn in Hq. rewrite Ef in Hq. cbn in Hq. apply lookup_insert_Some in Hq as [[<- <-]|[_ ?]]; [exists p; split; [done | congruence] | eauto].
  - intros k r' Hr'. cbn in Hr'. rewrite Ef in Hr'. cbn in Hr'. apply lookup_insert_Some in Hr' as [[<- <-]|[_ ?]]; [right | left; eauto].
    destruct (Hplans _ _ Hp0) as (q' & Hq' & E5 & _). exists q'. split; [split; [exact Hq' | congruence]|]. rewrite Er. done.
Qed.
Lemma reconcile_invariant opts c time now d' w : invariant w -> HoldsReconciliation c ∈ known w -> reconcile_effects opts c time now (base w) = Ok d' ->
  invariant (log_cleared (sr_key c) (commandEffects (rest (base w)) (sr_command c)) (with_base d' w)).
Proof.
  intros I Hin He. pose proof (writes_keep _ _ (reconcile_writes _ _ _ _ _ _ He)) as K. destruct (reconcile_Ok _ _ _ _ _ _ He) as (r & r' & Hr & E1 & x & Q & Ex & Ef & Ha).
  set (l := commandEffects _ _) in *. set (w' := log_cleared _ _ _).
  assert (Eb : base w' = d' /\ known w' = known w /\ successors w' = successors w) by (unfold w', log_cleared; by destruct (forallb _ _)). destruct Eb as (Eb & Ek & Es).
  assert (Hcl : forall y, y ∈ cleared w' -> y ∈ cleared w \/ y = (sr_key c, l) /\ forallb not_applied l = true).
  { unfold w', log_cleared. intros y. destruct (forallb not_applied l) eqn:E2; [|by left]. cbn. intros [->|?]%elem_of_cons; auto. }
  assert (G : grows w w').
  { split; rewrite ?Eb, ?Es; [done| |done|].
    - intros k p Hp. rewrite Ef. cbn. by apply (q_plans _ _ Q).
    - intros y Hy. unfold w', log_cleared. destruct (forallb _ _); [by right | done]. }
  apply (grows_invariant w); [done | exact G | rewrite Ek; by left | rewrite Es; by left | | |].
  - intros k p' id Hp' E2. rewrite Eb, Ef in Hp'. cbn in Hp'. destruct (q_successors _ _ Q _ _ Hp') as [?|(p & ? & ?)]; [congruence|]. left. exists p. split; [done | congruence].
  - intros k y Hy. rewrite Eb, Ef in Hy. cbn in Hy. rewrite Ex in Hy. apply lookup_insert_Some in Hy as [[<- <-]|[_ ?]]; [right | left; eauto].
    destruct (si_reconciliation _ I _ _ Hr) as (p & Hp & _). destruct (plan_of_grows _ _ _ _ _ G Hp) as (p' & Hp' & _). exists p'. rewrite E1. split; [done|]. intros E3.
    exists l. unfold w', log_cleared. rewrite (Ha E3). by left.
  - intros k y Hy. destruct (Hcl _ Hy) as [?|[[= -> ->] ?]]; auto.
Qed.
Lemma admit_invariant b r co f id d' w : invariant w -> Refreshed b r ∈ known w -> admit_successor cat (basis_key b) r co f (base w) = Ok (id, d') ->
  invariant (log_successor (basis_key b) id (learn (SuccessorAdmitted b id) (with_base d' w))).
Proof.
  intros I Hin Ha. destruct (si_known _ I _ Hin) as (p & c & [Hp Hpc] & Hc & Ho & Hd). destruct r as [[c0 v] e]. cbn in Ho.
  assert (Hm : mutating cat c0). { apply (si_mutating _ I) in Hc. eapply mutating_origin; [|exact Hc]. destruct Ho as (? & ? & ?). by split_and!. }
  destruct (admit_successor_spec cat _ _ _ _ _ _ _ _ _ Hm (si_answers _ I) Ha) as (K & row & Hrow & Hid & _).
  assert (Ef : failed d' = failed (base w)).
  { unfold admit_successor in Ha. apply bind_Ok_inv in Ha as ([resp d1] & He & Ha). inv_ok. simplify_eq. apply execute_Ok in He as [->|(o & cc & key & Had)]; [done|].
    apply admit_command_Ok in Had as (h & epoch & _ & _ & _ & _ & Had). destruct (idempotency (base w) !! _); [by destruct Had as (-> & _)|]. destruct Had as [row0 A]. by destruct (am_same _ _ _ _ _ _ _ _ _ _ A) as (_ & -> & _). }
  set (w' := log_successor _ _ _). assert (G : grows w w').
  { split; cbn; [done| |by right|done]. rewrite Ef. eauto. }
  assert (Hs : successor_ok w' (basis_key b) id).
  { destruct (ke_commands _ _ _ K _ _ Hc) as (c' & Hc' & Ho'). exists p, c', row. rewrite Hpc. cbn. unfold plan_of, base. cbn. rewrite Ef.
    split_and!; [done | done | done | | done | by eapply due_retry_grows]. by rewrite (origin_key_same _ c0 c') by (by eapply same_origin_trans). }
  apply (grows_invariant w); [done | exact G | | | cbn; rewrite Ef; eauto | cbn; rewrite Ef; eauto | by left].
  - intros a [->|?]%elem_of_cons; [right | by left]. cbn. by left.
  - intros k i [[= -> ->]|?]%elem_of_cons; [by right | by left].
Qed.
Lemma link_invariant opts b id d' w : invariant w -> SuccessorAdmitted b id ∈ known w -> link_successor opts b id (base w) = Ok d' -> invariant (with_base d' w).
Proof.
  intros I Hin Hl. pose proof (writes_keep _ _ (link_writes _ _ _ _ _ Hl)) as K. destruct (link_Ok _ _ _ _ _ Hl) as (p & x & Hp & Q & Ef). pose proof (si_known _ I _ Hin) as Ha. cbn in Ha.
  assert (Hplan : forall k q, plans (put_plan (basis_key b) (complete_plan id p) (failed (base w))) !! k = Some q -> k = basis_key b /\ q = complete_plan id p \/ plans (failed (base w)) !! k = Some q).
  { intros k q Hq. cbn in Hq. apply lookup_insert_Some in Hq as [[<- <-]|[_ ?]]; auto. }
  apply (grows_invariant w); [done| |by left|by left| | |by left].
  - split; cbn; [done| |done|done]. intros k q Hq. rewrite Ef. destruct (decide (k = basis_key b)) as [->|Hn].
    + simplify_eq. destruct (q_plans _ _ Q (basis_key b) (complete_plan id p)) as (q' & Hq' & E1 & E2); [cbn; by rewrite lookup_insert_eq|]. by exists q'.
    + apply (q_plans _ _ Q). cbn. by rewrite lookup_insert_ne.
  - intros k q' i Hq' E1. cbn in Hq'. rewrite Ef in Hq'. destruct (q_successors _ _ Q _ _ Hq') as [?|(q & Hq & E2)]; [congruence|].
    destruct (Hplan _ _ Hq) as [[-> ->]|Hold]; [right; cbn in E2; replace i with id by congruence; exact Ha | left; exists q; split; [done | congruence]].
  - intros k r' Hr'. left. cbn in Hr'. rewrite Ef in Hr'. by apply (q_reconciliations _ _ Q) in Hr'.
Qed.
Context `{Law : !LawfulHandlers}.
Lemma worker_invariant s' w : invariant w -> CommandWorker.step cat reg (workers w) s' -> plans_kept (base w) (db s') ->
  invariant {| workers := s'; known := known w; successors := successors w; cleared := cleared w |}.
Proof.
  intros I St (Er & _ & Hp & Hn). pose proof (keeps_step cat reg _ _ St) as K.
  apply (grows_invariant w); [done| |by left|by left| | |by left]; cbn.
  - split; cbn; [done| |done|done]. intros k p H0. destruct (Hp k p H0) as (p' & ? & ? & ? & _). by exists p'.
  - intros k p' id Hp' E1. destruct (Hn k p' Hp') as [[p H0]|?]; [|congruence]. left. exists p. split; [done|]. destruct (Hp k p H0) as (p2 & H2 & _ & _ & <-). unfold base in *. cbn in *. congruence.
  - intros k r Hr. left. unfold base in *. cbn in Hr. rewrite Er in Hr. eauto.
Qed.
Lemma scheduler_step_invariant w w' : invariant w -> step w w' -> invariant w'.
Proof.
  intros I St. destruct St as [s' St Hp|opts locked now c d' Hc|opts locked now c d' Hc|opts c now d' Hin Ha He|opts c time now d' Hin Hn He|opts b version time r d' Hb Hr|b r co f id d' Hin Ha|opts b id d' Hin Hl|opts c e now d' Hr|opts c e now d' Hin Hr].
  - by apply worker_invariant.
  - apply claimPlan_Ok in Hc as (p & Hp & E1 & E2 & ->). apply learn_invariant.
    + apply quiet_invariant; [done | by apply keeps_same | by eapply quiet_plan].
    + eexists. split; [split; [cbn; apply lookup_insert_eq | done]|done].
  - apply claimReconciliation_Ok in Hc as (r & Hr & _ & E1 & E2 & r' & -> & E3 & E4). pose proof (si_reconciliation _ I _ _ Hr) as (p & [Hp Hpc] & Hm).
    assert (Q : quiet (failed (base w)) (put_reconciliation (sr_key c) r' (failed (base w)))) by (eapply quiet_reconciliation; [done | done | by rewrite E4]).
    apply learn_invariant; [apply quiet_invariant; [done | by apply keeps_same | exact Q]|]. exists p. split; [split; [done | congruence]|]. rewrite E2. exact Hm.
  - by eapply enqueue_invariant.
  - by eapply reconcile_invariant.
  - pose proof (writes_keep _ _ (refresh_writes _ _ _ _ _ _ _ Hr)) as K. destruct (refresh_Ok _ _ _ _ _ _ _ Hr) as ((p & Hp) & Hc & Q).
    pose proof (quiet_grows _ _ K Q) as G. apply learn_invariant; [by apply quiet_invariant|]. cbn.
    assert (Hb' : plan_of w (basis_key b) (basis_command b) p /\ due_retry w (basis_key b) p).
    { destruct b as [c|c]; destruct Hb as [Hin Hd]; destruct (si_known _ I _ Hin) as (p0 & [Hp0 Hc0] & Hx); cbn in Hp; simplify_eq; split; try done; [left; cbn in Hx; congruence | right; auto]. }
    destruct Hb' as [Hb1 Hb2]. destruct (plan_of_grows _ _ _ _ _ G Hb1) as (p' & Hp' & E1). destruct (ke_commands _ _ _ K _ _ Hc) as (c' & Hc' & Ho).
    exists p', c'. split_and!; [done | done | done | by eapply due_retry_grows].
  - by eapply admit_invariant.
  - by eapply link_invariant.
  - pose proof (writes_keep _ _ (release_writes _ _ _ _ _ _ Hr)) as K. apply release_Ok in Hr. by apply quiet_invariant.
  - pose proof (writes_keep _ _ (release_reconciliation_writes _ _ _ _ _ _ Hr)) as K. apply release_reconciliation_Ok in Hr. by apply quiet_invariant.
Qed.
Lemma scheduler_reachable_invariant w : reachable w -> invariant w.
Proof. intros (w0 & H0 & Hs). eapply star_invariant; [intros x y; apply scheduler_step_invariant | by apply scheduler_initial_invariant | exact Hs]. Qed.


(** C10. No blind retry.  A command is only ever retried as a new command when its plan asks for a refresh, or when the
    ledger of side effects was read for it and every effect was confirmed as not applied, had failed for good or had never
    been dispatched. *)
Theorem retry_only_when_not_applied w k id : reachable w -> (k, id) ∈ successors w ->
  exists p, plans (failed (base w)) !! k = Some p /\
    (pl_action p = REFRESH_AND_CREATE_SUCCESSOR \/ exists l, (k, l) ∈ cleared w /\ forallb not_applied l = true).
Proof.
  intros Hr Hs. pose proof (scheduler_reachable_invariant w Hr) as I. destruct (si_successor _ I _ _ Hs) as (p & c & row & [Hp _] & _ & _ & _ & Hd).
  exists p. split; [done|]. destruct Hd as [?|[l Hl]]; [by left | right; exists l; split; [done | by apply (si_cleared _ I) in Hl]].
Qed.
End System.

(** ** What the worker's own transactions do to the tables of the scheduler *)

Section WorkerWrites.
Context `{L : Locale} `{H : Hash} `{F : Formats} {W : Type} `{D : CommandDomain W} `{M : CommandHandlers W}.
Context (reg : gmap string StableErrorRecord).
Implicit Type d : cmd_db W.
Lemma guards_failed id lg cl d : failed (terminalizeCommandGuards id lg cl d) = failed d.
Proof.
  assert (Ht : failed (terminalize_admission id d) = failed d).
  { unfold terminalize_admission. destruct (admissions d !! id); [|done]. case_bool_decide; [done|].
    match goal with |- context [count_pending ?n ?k ?p ?d1] => by destruct (count_pending_same n k p d1) as (_ & _ & _ & _ & _ & _ & _ & _ & -> & _) end. }
  unfold terminalizeCommandGuards. destruct (claims _ !! cl); [destruct (_ && _)|]; cbn; by rewrite Ht.
Qed.
Lemma same_plans_kept d d' : failed d' = failed d -> plans_kept d d'.
Proof.
  intros Hf. unfold plans_kept. rewrite Hf. split; [done|]. split; [done|]. split; [intros k p H0; by exists p | intros k p' H0; left; by exists p'].
Qed.
Lemma kept_put k p p' d x : plans x !! k = Some p -> pl_command p' = pl_command p -> pl_action p' = pl_action p -> pl_successor p' = pl_successor p ->
  plans_kept d (set_failed x d) -> plans_kept d (set_failed (set_plans (<[k := p']> (plans x)) x) d).
Proof.
  intros Ep G1 G2 G3 (E1 & E2 & Hp & Hn). cbn in *. unfold plans_kept. cbn. split_and!; try done.
  - intros k0 p0 H0. destruct (Hp k0 p0 H0) as (q & Hq & ? & ? & ?). destruct (decide (k0 = k)) as [->|].
    + simplify_eq. exists p'. rewrite lookup_insert_eq. split_and!; [done | congruence | congruence | congruence].
    + exists q. by rewrite lookup_insert_ne.
  - intros k0 q H0. apply lookup_insert_Some in H0 as [[<- <-]|[_ ?]]; [|eauto]. destruct (Hn _ _ Ep) as [?|?]; [by left | right; congruence].
Qed.
Lemma finish_plan_kept k s d x : plans_kept d (set_failed x d) -> plans_kept d (set_failed (finish_plan k s x) d).
Proof. intros Hx. unfold finish_plan. destruct (plans x !! k) as [p|] eqn:Ep; [|done]. case_bool_decide; [by eapply kept_put | done]. Qed.
Lemma kept_plans x d d' : failed d' = x -> plans_kept d (set_failed x d) -> plans_kept d d'.
Proof. intros Ef. unfold plans_kept. by rewrite Ef. Qed.
Lemma record_failure_kept row k f p h now d x : record_failure row k f p h now (failed d) = Ok x -> plans_kept d (set_failed x d).
Proof.
  unfold record_failure. intros He. inv_ok. subst x. set (y := match failures (failed d) !! k with Some _ => _ | None => _ end).
  assert (Ey : plans y = plans (failed d) /\ reconciliations y = reconciliations (failed d) /\ snapshots y = snapshots (failed d)) by (unfold y; by destruct (failures _ !! k)).
  destruct Ey as (E1 & E2 & E3). rewrite E1. unfold plans_kept. destruct (plans (failed d) !! k) as [q|] eqn:Eq; cbn; rewrite ?E1; (split; [exact E2|]); (split; [exact E3|]).
  - split; [intros k0 p0 H0; by exists p0 | intros k0 p' H0; left; by exists p'].
  - split; [intros k0 p0 H0; exists p0; by rewrite lookup_insert_ne by congruence|].
    intros k0 p' H0. apply lookup_insert_Some in H0 as [[<- <-]|[_ ?]]; [by right | left; by exists p'].
Qed.
(** Failing a command adds a plan and never touches the others but for their state. *)
Lemma fail_plans_kept opts row e time now d d' : fail opts reg row e time now d = Ok d' -> plans_kept d d'.
Proof.
  intros Hc. unfold fail in Hc. do 2 (apply bind_Ok_inv in Hc as (? & _ & Hc)). apply bind_Ok_inv in Hc as (d1 & Hv & Hc). apply verify_quiet in Hv as ->.
  destruct (queue d !! ck_command row) as [q|]; [|inv_ok; subst; by apply same_plans_kept]. destruct (_ || _); [inv_ok; subst; by apply same_plans_kept|].
  do 2 (apply bind_Ok_inv in Hc as (? & _ & Hc)). apply bind_Ok_inv in Hc as (y & Hy & Hc). pose proof (record_failure_kept _ _ _ _ _ _ _ _ Hy) as K.
  assert (Hu : forall id g d0, failed (update_command id g d0) = failed d0) by (intros id g d0; unfold update_command; by destruct (commands d0 !! id)).
  assert (Hq : forall id g d0, failed (update_queue id g d0) = failed d0) by (intros id g d0; unfold update_queue; by destruct (queue d0 !! id)).
  assert (Hr : forall id l s j d0, failed (record_response (W := W) id l s j d0) = failed d0) by done.
  cbv zeta in Hc. revert K. destruct (action _).
  all: try (inv_ok; subst d'); intros K; cbn [set_failed failed]; rewrite ?guards_failed, ?Hr, ?Hu, ?Hq, ?Hu; cbn [set_failed failed].
  - eapply kept_plans; [reflexivity|]. by apply finish_plan_kept.
  - eapply kept_plans; [reflexivity|]. by apply finish_plan_kept.
  - eapply kept_plans; [|exact K]. by rewrite guards_failed, Hr, Hq, Hu.
  - eapply kept_plans; [|exact K]. by rewrite Hq, Hu.
  - match goal with Hz : add_review _ _ = Ok _ |- _ => unfold add_review in Hz; inv_ok; match goal with Hz : _ = a |- _ => subst a end end. eapply kept_plans; [reflexivity|]. by apply finish_plan_kept.
Qed.
End WorkerWrites.

(** ** Samples *)

(** A failure that asks for reconciliation, and a ledger in which the effect of the command was confirmed as not applied *)
Definition sample_error : thrown := ThrownDomain "EFFECT_UNKNOWN" "unknown" JNull.
Definition reconciling_registry : gmap string StableErrorRecord := {[ "EFFECT_UNKNOWN" := sample_record "EFFECT_UNKNOWN" (Some RECONCILE_THEN_RETRY) "" ]}.
#[local] Instance sample_ledger : EffectLedger Z :=
  fun _ _ => [{| ef_id := "effect"; ef_status := SideEffect.CONFIRMED_NOT_APPLIED; ef_attempts := 1; ef_authorities := 1 |}].
#[local] Existing Instances code_unit_locale toy_hash toy_dates sample_domain sample_handlers sample_lawful.
Definition scheduler_options : RetrySchedulerOptions := {| rs_workerId := "s1"; rs_leaseSeconds := None |}.
Definition unlocked (k : plan_key) : bool := false.
Definition sample_time : string := "2026-01-01T00:00:00.000Z".

Abbreviation fail1 := (fail (sample_options "w1") reconciling_registry row1 sample_error sample_time 3000 db2).
Definition db_failed : cmd_db Z := get_Ok db2 fail1.
Example fail1_ok : is_Ok fail1 = true.
Proof. vm_compute. reflexivity. Qed.
Lemma fail1_eq : fail1 = Ok db_failed.
Proof. exact (get_Ok_spec db2 _ fail1_ok). Qed.

(** Three runs of one scheduler: the reconciliation is enqueued, the ledger read, the successor admitted; the fourth finds nothing. *)
Definition run_at (n now : Z) : cmd_db Z -> result bool * cmd_db Z :=
  runOnce scheduler_options reconciling_registry sample_catalog unlocked
    {| ri_now := now; ri_time := sample_time; ri_version := 3; ri_correlation := "c"; ri_fresh := sample_fresh n |}.
Definition first_plan (d : cmd_db Z) : option plan_row := plans (failed d) !! (ck_command row1, 1).
Example three_runs :
  let r3 := run_at 7 7000 (snd (run_at 6 6000 (snd (run_at 5 5000 db_failed)))) in
  fst r3 = Ok true /\ option_map pl_state (first_plan (snd r3)) = Some P_COMPLETED /\
  option_map cr_status (commands (snd r3) !! ck_command row1) = Some C_FAILED_FINAL /\
  option_map cr_status (p ← first_plan (snd r3); id ← pl_successor p; commands (snd r3) !! id) = Some C_ACCEPTED /\ fst (run_at 8 8000 (snd r3)) = Ok false.
Proof. vm_compute. split_and!; reflexivity. Qed.

(** The same as steps of the system *)
Definition no_plan : claimed_plan := {| sp_key := ("", 0); sp_action := CLOSE_FAILED_COMMAND; sp_command := ""; sp_token := 0 |}.
Definition no_reconciliation : claimed_reconciliation := {| sr_key := ("", 0); sr_previous := R_READY; sr_command := ""; sr_token := 0 |}.
Definition answered {A B} (r : result (option A * B)) : bool := match r with Ok (Some _, _) => true | _ => false end.
Lemma answered_eq {A B} (r : result (option A * B)) a b : answered r = true -> r = Ok (Some (default a (get_Ok (None, b) r).1), (get_Ok (None, b) r).2).
Proof. by destruct r as [[[x|] y]|]. Qed.
Lemma pair_eq {A B} (r : result (A * B)) a b : is_Ok r = true -> r = Ok ((get_Ok (a, b) r).1, (get_Ok (a, b) r).2).
Proof. by destruct r as [[x y]|]. Qed.

Abbreviation sched1 := (claimPlan scheduler_options unlocked 5000 db_failed).
Definition plan1 : claimed_plan := default no_plan (get_Ok (None, db_failed) sched1).1.
Definition dr1 : cmd_db Z := (get_Ok (None, db_failed) sched1).2.
Abbreviation sched2 := (enqueueReconciliation scheduler_options plan1 5000 dr1).
Definition dr2 : cmd_db Z := get_Ok dr1 sched2.
Abbreviation sched3 := (claimReconciliation scheduler_options unlocked 6000 dr2).
Definition reconciliation1 : claimed_reconciliation := default no_reconciliation (get_Ok (None, dr2) sched3).1.
Definition dr3 : cmd_db Z := (get_Ok (None, dr2) sched3).2.
Abbreviation sched4 := (reconcile_effects scheduler_options reconciliation1 sample_time 6000 dr3).
Definition dr4 : cmd_db Z := get_Ok dr3 sched4.
Abbreviation sched5 := (claimReconciliation scheduler_options unlocked 7000 dr4).
Definition reconciliation2 : claimed_reconciliation := default no_reconciliation (get_Ok (None, dr4) sched5).1.
Definition dr5 : cmd_db Z := (get_Ok (None, dr4) sched5).2.
Definition basis2 : successor_basis := FromReconciliation reconciliation2.
Abbreviation sched6 := (refresh_snapshot scheduler_options reconciling_registry basis2 3 sample_time dr5).
Definition no_command : command_row :=
  {| cr_logical := ""; cr_operation := ""; cr_revision := 0; cr_target := None; cr_caller := ""; cr_request := JNull; cr_digest := []; cr_expected_version := None;
     cr_expected_epoch := None; cr_status := C_ACCEPTED; cr_result := None; cr_error := None; cr_correlation := ""; cr_causation := None; cr_deadline := None; cr_epoch := 0;
     cr_lineage := Build_lineage "" 0 0; cr_claim := ("", []); cr_fence := 0 |}.
Definition refreshed1 : refreshed := (get_Ok ((no_command, None, 0), dr5) sched6).1.
Definition dr6 : cmd_db Z := (get_Ok ((no_command, None, 0), dr5) sched6).2.
Abbreviation sched7 := (admit_successor sample_catalog (basis_key basis2) refreshed1 "c" (sample_fresh 7) dr6).
Definition successor1 : string := (get_Ok ("", dr6) sched7).1.
Definition dr7 : cmd_db Z := (get_Ok ("", dr6) sched7).2.
Abbreviation sched8 := (link_successor scheduler_options basis2 successor1 dr7).
Definition dr8 : cmd_db Z := get_Ok dr7 sched8.
Example scheduled : answered sched1 && bool_decide (sp_action plan1 = ENQUEUE_RECONCILIATION) && is_Ok sched2 && answered sched3 && negb (bool_decide (sr_previous reconciliation1 = R_RETRY_ALLOWED)) && is_Ok sched4
  && answered sched5 && bool_decide (sr_previous reconciliation2 = R_RETRY_ALLOWED) && is_Ok sched6 && is_Ok sched7 && is_Ok sched8 = true.
Proof. vm_compute. reflexivity. Qed.

Definition at_base (d : cmd_db Z) (k : list activity) (su : list (plan_key * string)) (cl : list (plan_key * list effect_view)) : world :=
  {| workers := Sys d [] []; known := k; successors := su; cleared := cl |}.
Abbreviation sample_world_step := (step sample_catalog reconciling_registry).
Definition world_start : world := at_base sample_db [] [] [].
Definition world_failed : world := at_base db_failed [] [] [].
Lemma world_start_initial : initial world_start.
Proof. split; [exact run_start_initial | done]. Qed.
Definition idle (s : CommandWorker.system) : world := {| workers := s; known := []; successors := []; cleared := [] |}.
Lemma idle_step s s' : CommandWorker.step sample_catalog reconciling_registry s s' -> plans_kept (db s) (db s') -> sample_world_step (idle s) (idle s').
Proof. intros St Hk. exact (ws_worker _ _ (idle s) s' St Hk). Qed.
Lemma failing_run : star sample_world_step world_start world_failed.
Proof.
  apply (star_step _ _ (idle run_admitted)).
  { apply (idle_step run_start); [exact (st_execute sample_catalog reconciling_registry "component.create" JNull (sample_context "a") (sample_fresh 1) sample_db _ db1 [] [] executed_eq)|].
    apply same_plans_kept. vm_compute. reflexivity. }
  apply (star_step _ _ (idle run_claimed)).
  { apply idle_step; [exact (st_claim sample_catalog reconciling_registry (sample_options "w1") no_lock 2000 db1 row1 db2 [] [] claim1_eq)|].
    apply same_plans_kept. vm_compute. reflexivity. }
  apply (star_step _ _ (idle (Sys db2 [(row1, Failing sample_error)] []))).
  { apply idle_step; [exact (st_error sample_catalog reconciling_registry row1 Claimed sample_error db2 [] [] [])|]. by apply same_plans_kept. }
  apply star_one. apply (idle_step _ (Sys db_failed [] [])); [exact (st_fail sample_catalog reconciling_registry (sample_options "w1") row1 sample_error sample_time 3000 db2 db_failed [] [] [] fail1_eq)|].
  exact (fail_plans_kept reconciling_registry _ _ _ _ _ _ _ fail1_eq).
Qed.
Section AtBase.
Context (d : cmd_db Z) (k : list activity) (su : list (plan_key * string)) (cl : list (plan_key * list effect_view)).
Lemma at_claim o lk now c d' : claimPlan o lk now d = Ok (Some c, d') -> sample_world_step (at_base d k su cl) (at_base d' (Holds c :: k) su cl).
Proof. exact (ws_claim _ _ (at_base d k su cl) o lk now c d'). Qed.
Lemma at_claim_reconciliation o lk now c d' : claimReconciliation o lk now d = Ok (Some c, d') -> sample_world_step (at_base d k su cl) (at_base d' (HoldsReconciliation c :: k) su cl).
Proof. exact (ws_claim_reconciliation _ _ (at_base d k su cl) o lk now c d'). Qed.
Lemma at_enqueue o c now d' : Holds c ∈ k -> sp_action c = ENQUEUE_RECONCILIATION -> enqueueReconciliation o c now d = Ok d' -> sample_world_step (at_base d k su cl) (at_base d' k su cl).
Proof. exact (ws_enqueue _ _ (at_base d k su cl) o c now d'). Qed.
Lemma at_reconcile o c time now d' : HoldsReconciliation c ∈ k -> sr_previous c <> R_RETRY_ALLOWED -> reconcile_effects o c time now d = Ok d' ->
  sample_world_step (at_base d k su cl) (at_base d' k su ((sr_key c, commandEffects (rest d) (sr_command c)) :: cl)).
Proof. exact (ws_reconcile _ _ (at_base d k su cl) o c time now d'). Qed.
Lemma at_refresh o b version time r d' : entitled b k -> refresh_snapshot o reconciling_registry b version time d = Ok (r, d') ->
  sample_world_step (at_base d k su cl) (at_base d' (Refreshed b r :: k) su cl).
Proof. exact (ws_refresh _ _ (at_base d k su cl) o b version time r d'). Qed.
Lemma at_admit b r co f id d' : Refreshed b r ∈ k -> admit_successor sample_catalog (basis_key b) r co f d = Ok (id, d') ->
  sample_world_step (at_base d k su cl) (at_base d' (SuccessorAdmitted b id :: k) ((basis_key b, id) :: su) cl).
Proof. exact (ws_admit _ _ (at_base d k su cl) b r co f id d'). Qed.
Lemma at_link o b id d' : SuccessorAdmitted b id ∈ k -> link_successor o b id d = Ok d' -> sample_world_step (at_base d k su cl) (at_base d' k su cl).
Proof. exact (ws_link _ _ (at_base d k su cl) o b id d'). Qed.
End AtBase.
Lemma sched1_eq : answered sched1 = true -> sched1 = Ok (Some plan1, dr1).
Proof. exact (answered_eq sched1 no_plan db_failed). Qed.
Lemma sched2_eq : is_Ok sched2 = true -> sched2 = Ok dr2.
Proof. exact (get_Ok_spec dr1 sched2). Qed.
Lemma sched3_eq : answered sched3 = true -> sched3 = Ok (Some reconciliation1, dr3).
Proof. exact (answered_eq sched3 no_reconciliation dr2). Qed.
Lemma sched4_eq : is_Ok sched4 = true -> sched4 = Ok dr4.
Proof. exact (get_Ok_spec dr3 sched4). Qed.
Lemma sched5_eq : answered sched5 = true -> sched5 = Ok (Some reconciliation2, dr5).
Proof. exact (answered_eq sched5 no_reconciliation dr4). Qed.
Lemma sched6_eq : is_Ok sched6 = true -> sched6 = Ok (refreshed1, dr6).
Proof. exact (pair_eq sched6 (no_command, None, 0) dr5). Qed.
Lemma sched7_eq : is_Ok sched7 = true -> sched7 = Ok (successor1, dr7).
Proof. exact (pair_eq sched7 "" dr6). Qed.
Lemma sched8_eq : is_Ok sched8 = true -> sched8 = Ok dr8.
Proof. exact (get_Ok_spec dr7 sched8). Qed.
Definition world_done : world :=
  at_base dr8 [SuccessorAdmitted basis2 successor1; Refreshed basis2 refreshed1; HoldsReconciliation reconciliation2; HoldsReconciliation reconciliation1; Holds plan1]
    [(basis_key basis2, successor1)] [(sr_key reconciliation1, commandEffects (rest dr3) (sr_command reconciliation1))].
Lemma scheduled_run : star sample_world_step world_failed world_done.
Proof.
  pose proof scheduled as S. repeat (apply andb_true_iff in S as [S ?]).
  rename select (bool_decide (sp_action plan1 = _) = true) into Ha. apply bool_decide_eq_true in Ha. rename select (bool_decide (sr_previous reconciliation2 = _) = true) into Hp.
  apply bool_decide_eq_true in Hp. rename select (negb _ = true) into Hn. apply negb_true_iff, bool_decide_eq_false in Hn.
  eapply star_step; [apply (at_claim _ _ _ _ scheduler_options unlocked 5000 plan1 dr1); by apply sched1_eq|].
  eapply star_step; [apply (at_enqueue _ _ _ _ scheduler_options plan1 5000 dr2); [left | exact Ha | by apply sched2_eq]|].
  eapply star_step; [apply (at_claim_reconciliation _ _ _ _ scheduler_options unlocked 6000 reconciliation1 dr3); by apply sched3_eq|].
  eapply star_step; [apply (at_reconcile _ _ _ _ scheduler_options reconciliation1 sample_time 6000 dr4); [left | exact Hn | by apply sched4_eq]|].
  eapply star_step; [apply (at_claim_reconciliation _ _ _ _ scheduler_options unlocked 7000 reconciliation2 dr5); by apply sched5_eq|].
  eapply star_step; [apply (at_refresh _ _ _ _ scheduler_options basis2 3 sample_time refreshed1 dr6); [split; [left | exact Hp] | by apply sched6_eq]|].
  eapply star_step; [apply (at_admit _ _ _ _ basis2 refreshed1 "c" (sample_fresh 7) successor1 dr7); [left | by apply sched7_eq]|].
  apply star_one. apply (at_link _ _ _ _ scheduler_options basis2 successor1 dr8); [left | by apply sched8_eq].
Qed.
Lemma world_done_reachable : reachable sample_catalog reconciling_registry world_done.
Proof. exists world_start. split; [exact world_start_initial|]. exact (star_trans _ _ _ _ failing_run scheduled_run). Qed.

Lemma retry_scheduler_refines_witness : CommandWorker.reachable sample_catalog reconciling_registry (Sys dr8 [] []).
Proof. exact (retry_scheduler_refines sample_catalog reconciling_registry world_done world_done_reachable). Defined.
Lemma retry_only_when_not_applied_witness : exists p, plans (failed dr8) !! basis_key basis2 = Some p /\
  (pl_action p = REFRESH_AND_CREATE_SUCCESSOR \/ exists l, (basis_key basis2, l) ∈ cleared world_done /\ forallb not_applied l = true).
Proof.
  apply (retry_only_when_not_applied sample_catalog reconciling_registry world_done (basis_key basis2) successor1 world_done_reachable). left.
Defined.
