(* ===== verification/Handlers.v ===== *)
(** * The context of an operation handler

    [packages/domain/src/exact-operation-handlers.ts]: what every mutation handler is given by the worker, how it reads its
    arguments, which are JSON, and the helpers with which it answers and leaves an audit event.  Handlers that are modelled
    are with the component whose tables they write. *)
From Stdlib Require Import Ascii String.
From S2P Require Import Prelude Bytes Json Text Digest CanonicalValue IpcFrame IpcChannel AuditChain Database RuntimeSystemd ErrorRegistry Contracts Schemas Commands.

(** ** Values *)

(** [Boolean(value)], [Number(value)] of JSON; a number that is no integer is [None].  [String(value)] is [to_text] of [Schemas]. *)
Definition js_truthy (j : json) : bool :=
  match j with JNull => false | JBool b => b | JNum n => negb (n =? 0) | JStr s => truthy s | JArr _ | JObj _ => true end.
Definition js_Number (j : json) : option Z :=
  match j with
  | JNull => Some 0 | JBool b => Some (if b then 1 else 0) | JNum n => Some n | JStr s => js_integer s
  | JArr _ => js_integer (to_text j) | JObj _ => None
  end.
Definition max_safe_integer : Z := 2 ^ 53 - 1.
(** [a ?? b] *)
Definition nullish (a b : option json) : option json := match a with Some JNull | None => b | _ => a end.

(** ** The context *)

Record CanonicalHandlerContext := {
  hc_operation : string; hc_commandId : option string; hc_targetId : option string; hc_arguments : list (string * json); hc_logicalOperationId : string;
  hc_correlationId : string; hc_expectedStateVersion : option Z; hc_activationEpoch : Z; hc_platformIncarnationId : string; hc_applicationDeploymentEpoch : Z;
  hc_recoveryEpoch : Z;
}.
Implicit Type c : CanonicalHandlerContext.
Definition argument c (key : string) : option json := get_prop key (hc_arguments c).
Definition argument_invalid (message : string) : exn := DomainErr "TOOL_ARGUMENT_SCHEMA_INVALID" message.

Section Handlers.
Context `{L : Locale} `{H : Hash}.

(** [digest(value)] of JSON: the bytes of the canonical digest *)
Definition digest_of (j : json) : list Z := digestBytes (Digest.canonicalDigest (jsonSafe j)).
(** [/^[0-9a-f]{8}-[0-9a-f]{4}-[1-8][0-9a-f]{3}-[89ab][0-9a-f]{3}-[0-9a-f]{12}$/iu] *)
Definition UUID_any (s : string) : bool := uuid_pattern ["1"; "2"; "3"; "4"; "5"; "6"; "7"; "8"]%char (to_lower s).
Definition target c : result string :=
  let required := DomainErr "OPERATION_CONTRACT_INCOMPLETE" (hc_operation c +:+ " requires an exact UUID target") in
  t ← or_throw (hc_targetId c) required; _ ← throw_if (negb (UUID_any t)) required; Ok t.
Definition uuidArg c (key : string) (fallback : option string) : result string :=
  match nullish (argument c key) (JStr <$> fallback) with
  | Some (JStr s) => if UUID_any s then Ok s else Throw (argument_invalid (key +:+ " must be a UUID"))
  | _ => Throw (argument_invalid (key +:+ " must be a UUID"))
  end.
Definition textArg c (key : string) (fallback : option string) : result string :=
  match nullish (argument c key) (JStr <$> fallback) with
  | Some (JStr s) => if truthy s then Ok s else Throw (argument_invalid (key +:+ " is required for " +:+ hc_operation c))
  | _ => Throw (argument_invalid (key +:+ " is required for " +:+ hc_operation c))
  end.
Definition objectArg (value : option json) (fallback : list (string * json)) : json := match value with Some (JObj l) => JObj l | _ => JObj fallback end.
Definition numberArg c (key : string) (fallback : Z) : result Z :=
  match js_Number (default (JNum fallback) (nullish (argument c key) None)) with
  | Some n => if (0 <=? n) && (n <=? max_safe_integer) then Ok n else Throw (argument_invalid (key +:+ " must be a non-negative integer"))
  | None => Throw (argument_invalid (key +:+ " must be a non-negative integer"))
  end.
Definition sha256_text (s : string) : bool := let t := to_lower s in String.prefix "sha256:" t && hex_block 64 (String.substring 7 (String.length t - 7) t).
(** [value] is what is digested when the argument is missing. *)
Definition digestArgument c (key : string) (value : json) : list Z :=
  match argument c key with
  | Some (JStr s) => if sha256_text s then digestBytes s else digest_of (JStr s)
  | other => digest_of (default value (nullish other None))
  end.
Definition not_found (message : string) : exn := DomainErr "KCIP_TARGET_NOT_FOUND" message.
Definition assertVersion c (state_version : Z) : result unit :=
  throw_if (match hc_expectedStateVersion c with Some v => negb (state_version =? v) | None => false end)
    (DomainErr "STATE_VERSION_CONFLICT" "The authoritative aggregate changed before this operation was applied").
(** [result(...)]; the version of the aggregate is a bigint of the database, so a text. *)
Definition handler_result c (aggregate : string) (value : json) (state_version : option Z) (extra : list (string * json)) : json :=
  JObj [("operation", JStr (hc_operation c)); ("aggregate", JStr aggregate); ("value", value); ("state_version", num_or_null state_version);
    ("evidence", JObj ([("persisted", JBool true); ("operation", JStr (hc_operation c)); ("logicalOperationId", JStr (hc_logicalOperationId c))] ++ extra))].
(** [recordAudit] on the tables of the log *)
Definition recordAudit c (payload : list (string * json)) (log : audit_db) : result audit_db :=
  append_audit_event log ("operation." +:+ hc_operation c,
    utf8 (canonicalJson (jsonSafe (JObj ([("operation", JStr (hc_operation c)); ("logicalOperationId", JStr (hc_logicalOperationId c))] ++ payload))))).
End Handlers.
