(* ===== verification/GenerationCommands.v ===== *)
(** * Commands on generation jobs

    [generationMutation] of [packages/domain/src/canonical-operation-handlers.ts] for
    [generation.job.cancel], [.resume], [.retry] and [.complete], and the handlers of
    [generation.blocker.open] and [.resolve] in [exact-operation-handlers.ts].  They write the
    tables of [Generation] without its service: a job that a blocker stopped may still have a phase
    run at work, and the commands that set it going again do not look for one.  The columns that
    only these commands write are kept beside the service's tables, by row.  A command's answer
    repeats the rows it wrote and is left out, but for the identifier of a new run.  The handlers of
    [generation.phase.start] and [generation.phase.complete] repeat the service's transactions and
    are not modelled. *)
From Stdlib Require Import Ascii String.
From S2P Require Import Prelude Bytes Json Digest CanonicalValue IpcFrame IpcChannel IpcBroker Crypto AuditChain Database RuntimeSystemd ErrorRegistry Contracts Schemas Commands Handlers.
From S2P Require Import Generation.

Record blocker_row := {
  bl_job : string; bl_phase : string; bl_plan_node : option json; bl_code : string; bl_classification : string; bl_title : string;
  bl_detail : string; bl_requirements : list string; bl_evidence : json; bl_required : string; bl_input_schema : json;
  bl_resume_phase : option json; bl_state : string; bl_resolver : option string; bl_resolved_at : option Z; bl_digest : list Z;
  bl_version : Z;
}.
(** The service's tables with [cancellation_version] and [blocker] of a job, [error] of a run, the blockers
    and the audit log. *)
Record gen_system := {
  gs_db : gen_db;
  gs_cancellations : gmap string Z;
  gs_job_blocker : gmap string json;
  gs_run_error : gmap string json;
  gs_blockers : gmap string blocker_row;
  gs_audit : audit_db;
}.
Definition with_db (d : gen_db) (s : gen_system) : gen_system :=
  {| gs_db := d; gs_cancellations := gs_cancellations s; gs_job_blocker := gs_job_blocker s; gs_run_error := gs_run_error s;
     gs_blockers := gs_blockers s; gs_audit := gs_audit s |}.

Inductive job_command := JobCancel | JobResume | JobRetry | JobComplete.
#[export] Instance job_command_eq_dec : EqDecision job_command.
Proof. solve_decision. Defined.
Definition command_name (k : job_command) : string :=
  match k with
  | JobCancel => "generation.job.cancel" | JobResume => "generation.job.resume" | JobRetry => "generation.job.retry"
  | JobComplete => "generation.job.complete"
  end.
Definition job_states : list GenerationJobState := map InPhase GENERATION_PHASES ++ [COMPLETED; BLOCKED; FAILED; CANCELLED].
Definition state_of_name (s : string) : option GenerationJobState := List.find (fun x => String.eqb (job_state_name x) s) job_states.
(** [generationWorkerPool(transition.to as GenerationPhase)] *)
Definition pool_of_state (s : GenerationJobState) : string :=
  match s with InPhase p => generationWorkerPool p | _ => "kcml-generation-validation" end.

(** The columns that one statement of a command writes *)
Definition job_moved (s : GenerationJobState) (evidence : json) (j : generation_job) : generation_job :=
  {| j_mode := j_mode j; j_objective := j_objective j; j_targets := j_targets j; j_sources := j_sources j;
     j_model := j_model j; lifecycle := s; current_phase := s; progress := progress j; j_worker := j_worker j;
     j_fence := j_fence j; j_lease := j_lease j; j_version := j_version j + 1; j_epoch := j_epoch j;
     j_incarnation := j_incarnation j; j_deployment := j_deployment j; active_run := active_run j;
     latest_checkpoint := latest_checkpoint j; workspace_revision := workspace_revision j; j_set := j_set j;
     previous_snapshot := previous_snapshot j; recovery := recovery j; provisional_identity := provisional_identity j;
     result_digest := result_digest j;
     terminal_evidence := if bool_decide (s ∈ [COMPLETED; CANCELLED]) then Some evidence else terminal_evidence j;
     j_cleanup := j_cleanup j |}.
Definition job_resumed (run checkpoint : string) (j : generation_job) : generation_job :=
  {| j_mode := j_mode j; j_objective := j_objective j; j_targets := j_targets j; j_sources := j_sources j;
     j_model := j_model j; lifecycle := lifecycle j; current_phase := current_phase j; progress := progress j;
     j_worker := j_worker j; j_fence := j_fence j; j_lease := j_lease j; j_version := j_version j + 1;
     j_epoch := j_epoch j; j_incarnation := j_incarnation j; j_deployment := j_deployment j; active_run := Some run;
     latest_checkpoint := Some checkpoint; workspace_revision := workspace_revision j; j_set := j_set j;
     previous_snapshot := previous_snapshot j; recovery := recovery j; provisional_identity := provisional_identity j;
     result_digest := result_digest j; terminal_evidence := terminal_evidence j; j_cleanup := j_cleanup j |}.
(** [lifecycle=$s] alone, as the blockers write it *)
Definition job_lifecycle (s : GenerationJobState) (j : generation_job) : generation_job :=
  {| j_mode := j_mode j; j_objective := j_objective j; j_targets := j_targets j; j_sources := j_sources j;
     j_model := j_model j; lifecycle := s; current_phase := current_phase j; progress := progress j;
     j_worker := j_worker j; j_fence := j_fence j; j_lease := j_lease j; j_version := j_version j + 1;
     j_epoch := j_epoch j; j_incarnation := j_incarnation j; j_deployment := j_deployment j; active_run := active_run j;
     latest_checkpoint := latest_checkpoint j; workspace_revision := workspace_revision j; j_set := j_set j;
     previous_snapshot := previous_snapshot j; recovery := recovery j; provisional_identity := provisional_identity j;
     result_digest := result_digest j; terminal_evidence := terminal_evidence j; j_cleanup := j_cleanup j |}.
Definition run_cancelled (now : Z) (r : phase_run) : phase_run :=
  {| r_job := r_job r; r_phase := r_phase r; r_attempt := r_attempt r; r_state := RUN_CANCELLED; r_pool := r_pool r; r_owner := None;
     r_fence := r_fence r; r_lease := None; r_range := r_range r; r_input := r_input r; r_output := r_output r;
     r_summary := r_summary r; r_result_digest := r_result_digest r; r_completed := Some now; r_digest := r_digest r;
     r_epoch := r_epoch r; r_version := r_version r + 1 |}.

Section Commands.
Context `{L : Locale} `{H : Hash}.
Implicit Type c : CanonicalHandlerContext.

(** ** [generationMutation] *)

(** [target ?? arguments.jobId], when it is a non-empty text *)
Definition job_target c : option string :=
  truthy_id (or_else (hc_targetId c) (match argument c "jobId" with Some (JStr s) => Some s | _ => None end)).
Definition jobForUpdate c (id : string) (d : gen_db) : result generation_job :=
  j ← require (jobs d !! id) "GENERATION_BLOCKED" "Generation job does not exist";
  _ ← throw_if (match hc_expectedStateVersion c with Some v => negb (j_version j =? v) | None => false end)
        (DomainErr "STATE_VERSION_CONFLICT" "Generation job state changed");
  _ ← throw_if (job_terminal (lifecycle j)) (DomainErr "TERMINAL_STATE_IMMUTABLE" "Generation job is terminal");
  Ok j.

(** The table [transitions]: the states a command starts from and the name of the state it goes to *)
Definition transition_from (k : job_command) : list GenerationJobState :=
  match k with
  | JobCancel => map InPhase GENERATION_PHASES ++ [BLOCKED] | JobResume | JobRetry => [BLOCKED] | JobComplete => [InPhase ACTIVATING]
  end.
Definition transition_to (k : job_command) c (j : generation_job) : string :=
  let asked := nullish (argument c "resumePhase") (Some (JStr "ANALYZING")) in
  match k with
  | JobCancel => "CANCELLED" | JobComplete => "COMPLETED"
  | JobRetry => to_text (default JNull asked)
  | JobResume => to_text (default JNull (nullish (match terminal_evidence j with Some (JObj l) => get_prop "resumePhase" l | _ => None end) asked))
  end.

Definition resumed_run c (jobId runId : string) (to from : GenerationJobState) : phase_run :=
  {| r_job := jobId; r_phase := to; r_attempt := 1; r_state := QUEUED; r_pool := pool_of_state to; r_owner := None; r_fence := None;
     r_lease := None; r_range := JObj [("phase", JStr (job_state_name to)); ("resumedFrom", JStr (job_state_name from))];
     r_input := None; r_output := None; r_summary := None; r_result_digest := None; r_completed := None;
     r_digest := Generation.digest (JObj [("phaseRunId", JStr runId); ("phase", JStr (job_state_name to)); ("resumedFrom", JStr (job_state_name from))]);
     r_epoch := hc_activationEpoch c; r_version := 1 |}.

(** The statements after the checkpoint *)
Definition resume_statements c (jobId runId checkpointId : string) (to from : GenerationJobState) (d : gen_db) : result gen_db :=
  d ← insert_run runId (resumed_run c jobId runId to from) d;
  '(_, d) ← update_job jobId (fun _ => true) (job_resumed runId checkpointId) d;
  '(n, al) ← allocateContiguousSequence ("GENERATION_OUTBOX", jobId, "SEQUENCE") (allocators d);
  let payload := JObj [("phaseRunId", JStr runId); ("phase", JStr (job_state_name to)); ("checkpointId", JStr checkpointId)] in
  Ok (set_outbox (outbox d ++ [{| ob_stream := "generation:" +:+ jobId; ob_sequence := n; ob_event := "generation.phase.enqueue";
        ob_aggregate := jobId; ob_payload := payload; ob_digest := Generation.digest payload; ob_recovery := recovery_epoch d |}])
        (set_allocators al d)).
Definition close_statements (jobId checkpointId : string) (to : GenerationJobState) (evidence : json) (d : gen_db) : result gen_db :=
  '(_, d) ← update_job jobId (fun _ => true) (job_checkpoint checkpointId) d;
  Generation.event jobId (match to with COMPLETED => "generation.job.completed" | CANCELLED => "generation.job.cancelled"
                          | _ => "generation.phase.resumed" end) evidence None d.

Definition generationJobCommand (k : job_command) c (checkpointId runId : string) (now : Z) (s : gen_system)
    : result (option string * gen_system) :=
  let name := command_name k in
  jobId ← or_throw (job_target c) (DomainErr "AGENTIC_DYNAMIC_TARGET_UNBOUND" (name +:+ " requires a generation job target"));
  j ← jobForUpdate c jobId (gs_db s);
  _ ← throw_if (negb (bool_decide (lifecycle j ∈ transition_from k)))
        (DomainErr "SIDE_EFFECT_RECONCILIATION_FAILED" ("Cannot apply " +:+ name +:+ " from " +:+ job_state_name (lifecycle j)));
  to ← require (state_of_name (transition_to k c j)) "GENERATION_PLAN_INVALID" "Resume phase is not canonical";
  let evidence := canonicalize (JObj [("operation", JStr name); ("reason", default JNull (argument c "reason"));
                                      ("resumePhase", JStr (job_state_name to))]) in
  '(updated, d) ← update_job jobId (fun x => j_version x =? j_version j) (job_moved to evidence) (gs_db s);
  _ ← require updated "STATE_VERSION_CONFLICT" "Generation job changed during transition";
  let s := {| gs_db := d;
              gs_cancellations := if bool_decide (to = CANCELLED)
                then <[jobId := default 0 (gs_cancellations s !! jobId) + 1]> (gs_cancellations s) else gs_cancellations s;
              gs_job_blocker := gs_job_blocker s; gs_run_error := gs_run_error s; gs_blockers := gs_blockers s; gs_audit := gs_audit s |} in
  d ← Generation.checkpoint checkpointId jobId (job_state_name to)
        (if bool_decide (to ∈ [COMPLETED; CANCELLED]) then "PHASE_TERMINAL" else "RECOVERY") evidence None None (gs_db s);
  s ← match (if bool_decide (to = CANCELLED) then truthy_id (active_run j) else None) with
      | Some run =>
          '(o, d) ← update_run run (fun r => active_state (r_state r)) (run_cancelled now) d;
          Ok {| gs_db := d; gs_cancellations := gs_cancellations s; gs_job_blocker := gs_job_blocker s;
                gs_run_error := if is_some o then <[run := evidence]> (gs_run_error s) else gs_run_error s;
                gs_blockers := gs_blockers s; gs_audit := gs_audit s |}
      | None => Ok (with_db d s)
      end;
  match k with
  | JobResume | JobRetry =>
      d ← resume_statements c jobId runId checkpointId to (lifecycle j) (gs_db s); Ok (Some runId, with_db d s)
  | JobCancel | JobComplete =>
      d ← close_statements jobId checkpointId to evidence (gs_db s); Ok (None, with_db d s)
  end.

(** ** Blockers *)

(** [handleGenerationBlockerOpen] *)
Definition handleGenerationBlockerOpen c (id : string) (s : gen_system) : result gen_system :=
  jobId ← uuidArg c "jobId" (hc_targetId c);
  phase ← textArg c "phase" (Some "UNKNOWN");
  code ← textArg c "blockerCode" None;
  classification ← textArg c "classification" (Some "BLOCKING");
  title ← textArg c "title" None;
  detail ← textArg c "detail" None;
  required ← textArg c "requiredResolution" None;
  t ← insert_row id {| bl_job := jobId; bl_phase := phase; bl_plan_node := nullish (argument c "planNodeId") None; bl_code := code;
        bl_classification := classification; bl_title := title; bl_detail := detail;
        bl_requirements := match argument c "requirementIds" with
                           | Some (JArr l) => omap (fun j => match j with JStr x => Some x | _ => None end) l | _ => [] end;
        bl_evidence := objectArg (argument c "evidence") []; bl_required := required;
        bl_input_schema := objectArg (argument c "inputSchema") []; bl_resume_phase := nullish (argument c "resumePhase") None;
        bl_state := "OPEN"; bl_resolver := None; bl_resolved_at := None;
        bl_digest := digest_of (JObj [("id", JStr id); ("jobId", JStr jobId); ("blockerCode", JStr code)]); bl_version := 1 |} (gs_blockers s);
  '(o, d) ← update_job jobId (fun j => negb (bool_decide (lifecycle j ∈ [COMPLETED; CANCELLED]))) (job_lifecycle BLOCKED) (gs_db s);
  log ← recordAudit c [("blockerId", JStr id); ("jobId", JStr jobId); ("state", JStr "OPEN")] (gs_audit s);
  Ok {| gs_db := d; gs_cancellations := gs_cancellations s;
        gs_job_blocker := if is_some o then <[jobId := JObj [("blockerId", JStr id); ("code", JStr code)]]> (gs_job_blocker s) else gs_job_blocker s;
        gs_run_error := gs_run_error s; gs_blockers := t; gs_audit := log |}.

Definition blocker_resolved (resolution evidence : json) (now : Z) (b : blocker_row) : blocker_row :=
  {| bl_job := bl_job b; bl_phase := bl_phase b; bl_plan_node := bl_plan_node b; bl_code := bl_code b;
     bl_classification := bl_classification b; bl_title := bl_title b; bl_detail := bl_detail b; bl_requirements := bl_requirements b;
     bl_evidence := JObj [("resolution", resolution); ("evidence", evidence)]; bl_required := bl_required b;
     bl_input_schema := bl_input_schema b; bl_resume_phase := bl_resume_phase b; bl_state := "RESOLVED";
     bl_resolver := Some "KRMAR78"; bl_resolved_at := Some now; bl_digest := bl_digest b; bl_version := bl_version b + 1 |}.
(** [blocker->>'blockerId'=$2] *)
Definition blocked_by (id : string) (blocker : option json) : bool :=
  match blocker with Some (JObj l) => match get_prop "blockerId" l with Some (JStr b) => String.eqb b id | _ => false end | _ => false end.
(** [handleGenerationBlockerResolve] *)
Definition handleGenerationBlockerResolve c (now : Z) (s : gen_system) : result gen_system :=
  id ← Handlers.target c;
  b ← or_throw (gs_blockers s !! id) (not_found "Generation blocker does not exist");
  _ ← throw_if (negb (existsb (String.eqb (bl_state b)) ["OPEN"; "BLOCKED"])) (not_found "Generation blocker changed while resolving");
  '(o, d) ← update_job (bl_job b) (fun _ => blocked_by id (gs_job_blocker s !! bl_job b)) (job_lifecycle (InPhase DISCUSSING)) (gs_db s);
  log ← recordAudit c [("blockerId", JStr id); ("state", JStr "RESOLVED")] (gs_audit s);
  Ok {| gs_db := d; gs_cancellations := gs_cancellations s;
        gs_job_blocker := if is_some o then delete (bl_job b) (gs_job_blocker s) else gs_job_blocker s;
        gs_run_error := gs_run_error s;
        gs_blockers := <[id := blocker_resolved (objectArg (argument c "resolution") []) (objectArg (argument c "evidence") []) now b]> (gs_blockers s);
        gs_audit := log |}.
End Commands.

(** ** Theory *)

(** The run a cancelled job points to, ended if it was active *)
Definition stop_run (now : Z) (k : option string) (rs : gmap string phase_run) : gmap string phase_run :=
  match truthy_id k with
  | Some k => match rs !! k with Some r => if active_state (r_state r) then <[k := run_cancelled now r]> rs else rs | None => rs end
  | None => rs
  end.

Section CommandTheory.
Context `{L : Locale} `{H : Hash}.
Implicit Type c : CanonicalHandlerContext.

Lemma update_job_row id p f d o d' :
  update_job id p f d = Ok (o, d') ->
  runs d' = runs d /\ (forall x, x <> id -> jobs d' !! x = jobs d !! x) /\
  forall j, jobs d !! id = Some j -> p j = true -> guard_job j (f j) = Ok tt /\ o = Some (f j) /\ jobs d' !! id = Some (f j).
Proof.
  intros E. apply update_job_Ok in E as [(j & Hj & Hp & Hg & -> & ->)|(Hn & _ & ->)]; cbn.
  - split; [done|]. split; [intros x Hx; by rewrite lookup_insert_ne|]. intros j' Hj' _. assert (j' = j) as -> by congruence.
    by rewrite lookup_insert_eq.
  - split; [done|]. split; [done|]. intros j Hj Hp. by rewrite (Hn _ Hj) in Hp.
Qed.

(** What a resume leaves: one more run, and the pointer of the job on it *)
Lemma resume_statements_Ok c id runId cp to from d d' j :
  jobs d !! id = Some j -> resume_statements c id runId cp to from d = Ok d' ->
  job_terminal (lifecycle j) = false /\ runs d !! runId = None /\ runs d' = <[runId := resumed_run c id runId to from]> (runs d) /\
  jobs d' !! id = Some (job_resumed runId cp j) /\ (forall x, x <> id -> jobs d' !! x = jobs d !! x).
Proof.
  intros Hj. unfold resume_statements. intros E. apply bind_Ok_inv in E as (d1 & H1 & E). apply insert_run_Ok in H1 as [Hf ->].
  apply bind_Ok_inv in E as ([o d2] & H2 & E). apply update_job_row in H2 as (Hr & Ho & Hu).
  destruct (Hu j Hj eq_refl) as ((_ & Ht & _)%guard_job_Ok & _ & Hj2).
  apply bind_Ok_inv in E as ([n al] & _ & [= <-]). by split_and!.
Qed.
Lemma close_statements_Ok id cp to ev d d' j :
  jobs d !! id = Some j -> close_statements id cp to ev d = Ok d' ->
  runs d' = runs d /\ jobs d' !! id = Some (job_checkpoint cp j) /\ (forall x, x <> id -> jobs d' !! x = jobs d !! x).
Proof.
  intros Hj. unfold close_statements. intros E. apply bind_Ok_inv in E as ([o d2] & H2 & E).
  apply update_job_row in H2 as (Hr & Ho & Hu). destruct (Hu j Hj eq_refl) as (_ & _ & Hj2).
  apply event_same in E as [Ej Er]. rewrite Ej, Er. by split_and!.
Qed.
Lemma cancel_run_Ok k now d o d' :
  update_run k (fun r => active_state (r_state r)) (run_cancelled now) d = Ok (o, d') ->
  jobs d' = jobs d /\ runs d' = match runs d !! k with
                               | Some r => if active_state (r_state r) then <[k := run_cancelled now r]> (runs d) else runs d
                               | None => runs d end.
Proof.
  intros E. apply update_run_Ok in E as [(r & Hr & Hp & _ & _ & ->)|(Hn & _ & ->)]; cbn.
  - by rewrite Hr, Hp.
  - destruct (runs d !! k) as [r|] eqn:Hr; [|done]. by rewrite (Hn _ eq_refl).
Qed.

Lemma active_runs_insert id k r d d' :
  runs d' = <[k := r]> (runs d) -> runs d !! k = None -> active_of id (k, r) = true ->
  active_runs id d' ≡ₚ (k, r) :: active_runs id d.
Proof.
  intros E Hn Ha. unfold active_runs. rewrite E.
  rewrite (filter_perm _ _ _ (map_to_list_insert (runs d) k r Hn)). cbn. by rewrite Ha.
Qed.
End CommandTheory.

(** ** Properties *)

Section Properties.
Context `{L : Locale} `{H : Hash}.
Implicit Type c : CanonicalHandlerContext.

(** C33. What a command on a generation job does to phase runs.  An accepted [generation.job.resume] or [.retry] finds
    its job blocked, puts it into the phase it asks for, adds one queued run for that phase and makes the job point to
    it, and changes no other run: the active runs of the job are those it had before and the new one, so a run
    that was still at work when the job was blocked stays active beside it.  [generation.job.cancel] ends the run the
    job points to, if that is active, and no other; [generation.job.complete] ends none, not even that one.  Other
    jobs are left as they are. *)
Theorem job_command_runs k c checkpointId runId now s r s' :
  generationJobCommand k c checkpointId runId now s = Ok (r, s') ->
  exists id j j', job_target c = Some id /\ jobs (gs_db s) !! id = Some j /\ jobs (gs_db s') !! id = Some j' /\
    lifecycle j ∈ transition_from k /\ (forall x, x <> id -> jobs (gs_db s') !! x = jobs (gs_db s) !! x) /\
    match k with
    | JobResume | JobRetry => exists run,
        r = Some runId /\ runs (gs_db s) !! runId = None /\ runs (gs_db s') = <[runId := run]> (runs (gs_db s)) /\
        r_job run = id /\ r_state run = QUEUED /\ r_phase run = lifecycle j' /\ active_run j' = Some runId /\
        active_runs id (gs_db s') ≡ₚ (runId, run) :: active_runs id (gs_db s)
    | JobCancel => lifecycle j' = CANCELLED /\ active_run j' = active_run j /\
        runs (gs_db s') = stop_run now (active_run j) (runs (gs_db s))
    | JobComplete => lifecycle j' = COMPLETED /\ active_run j' = active_run j /\ runs (gs_db s') = runs (gs_db s)
    end.
Proof.
  unfold generationJobCommand. intros E.
  apply bind_Ok_inv in E as (id & Hid%or_throw_Ok & E). apply bind_Ok_inv in E as (j & Hj & E).
  apply bind_Ok_inv in E as ([] & Hfrom%throw_if_Ok & E). apply negb_false_iff, bool_decide_eq_true in Hfrom.
  apply bind_Ok_inv in E as (to & Hto & E). apply or_throw_Ok in Hto.
  apply bind_Ok_inv in E as ([o d1] & H1 & E). apply bind_Ok_inv in E as (x & _ & E). cbn [gs_db] in E.
  apply bind_Ok_inv in E as (d2 & H2%checkpoint_same & E). destruct H2 as [Ej2 Er2].
  assert (Hj' : jobs (gs_db s) !! id = Some j).
  { unfold jobForUpdate in Hj. apply bind_Ok_inv in Hj as (j0 & Hj0%or_throw_Ok & Hj). inv_ok. by subst. }
  apply update_job_row in H1 as (Er1 & Ho1 & Hu1).
  destruct (Hu1 j Hj' (Z.eqb_refl _)) as (_ & _ & Hj1). clear Hu1 Hj.
  rewrite Er1 in Er2. rewrite <- Ej2 in Hj1.
  assert (Ho2 : forall y, y <> id -> jobs d2 !! y = jobs (gs_db s) !! y) by (intros y Hy; rewrite Ej2; auto).
  exists id, j.
  apply bind_Ok_inv in E as (s3 & H3 & E).
  assert (H3' : jobs (gs_db s3) = jobs d2 /\
    runs (gs_db s3) = if bool_decide (to = CANCELLED) then stop_run now (active_run j) (runs (gs_db s)) else runs (gs_db s)).
  { unfold stop_run. rewrite <- Er2. destruct (bool_decide (to = CANCELLED)); [|by injection H3 as <-].
    destruct (truthy_id (active_run j)) as [kr|]; [|by injection H3 as <-].
    apply bind_Ok_inv in H3 as ([o3 d3] & H3%cancel_run_Ok & [= <-]). exact H3. }
  destruct H3' as [Ej3 Er3]. rewrite <- Ej3 in Hj1, Ho2.
  destruct k; apply bind_Ok_inv in E as (d4 & H4 & [= <- <-]); cbn [with_db gs_db].
  1,4: vm_compute in Hto; injection Hto as <-; apply (close_statements_Ok _ _ _ _ _ _ _ Hj1) in H4 as (Er4 & Hj4 & Ho4);
    rewrite Er3 in Er4; eexists; split_and!; try done; intros y Hy; rewrite Ho4 by done; auto.
  all: apply (resume_statements_Ok _ _ _ _ _ _ _ _ _ Hj1) in H4 as (Ht & Hf & Er4 & Hj4 & Ho4);
    assert (Hc : bool_decide (to = CANCELLED) = false) by (apply bool_decide_eq_false; intros ->; discriminate Ht);
    rewrite Hc in Er3; rewrite Er3 in Hf, Er4; eexists; split_and!; try done; [intros y Hy; rewrite Ho4 by done; auto|];
    eexists; split_and!; try done; apply active_runs_insert; try done; unfold active_of; cbn; by rewrite String.eqb_refl.
Qed.
End Properties.

(** ** Samples *)

Section Samples.
#[local] Existing Instances code_unit_locale toy_hash.
Definition sample_gen_context (operation : string) (args : list (string * json)) : CanonicalHandlerContext :=
  {| hc_operation := operation; hc_commandId := None; hc_targetId := Some uuid_a; hc_arguments := args; hc_logicalOperationId := uuid_b;
     hc_correlationId := uuid_b; hc_expectedStateVersion := None; hc_activationEpoch := 4; hc_platformIncarnationId := "incarnation";
     hc_applicationDeploymentEpoch := 2; hc_recoveryEpoch := 0 |}.
Definition gen_system_of (d : gen_db) : gen_system :=
  {| gs_db := d; gs_cancellations := ∅; gs_job_blocker := ∅; gs_run_error := ∅; gs_blockers := ∅; gs_audit := initial_db |}.
Definition job_input : start_input :=
  {| si_job := uuid_a; si_phase := DISCUSSING; si_expected := None; si_worker := "worker"; si_incarnation := None; si_deployment := None |}.
Definition job_completion : complete_input :=
  {| co_run := "run-1"; co_worker := "worker"; co_token := 1; co_outcome := OUT_SUCCEEDED; co_evidence := []; co_next := None;
     co_incarnation := None; co_deployment := None |}.
(** A job is created and its first phase started; the run is at work when the owner opens a blocker. *)
Definition at_work : gen_db :=
  let d := after empty_gen_db (sample_job BLOCKED) (createGenerationJob sample_create uuid_a "p" "rev-0" 0 empty_gen_db) in
  after d "" (startGenerationPhase job_input "run-1" "cp-1" 0 d).
Definition blocked_system : gen_system :=
  get_Ok (gen_system_of at_work)
    (handleGenerationBlockerOpen (sample_gen_context "generation.blocker.open"
       [("blockerCode", JStr "QUESTION"); ("title", JStr "t"); ("detail", JStr "d"); ("requiredResolution", JStr "answer")]) "blocker-1" (gen_system_of at_work)).
Definition resume_context : CanonicalHandlerContext := sample_gen_context "generation.job.resume" [("resumePhase", JStr "ANALYZING")].
Definition resumed_system : gen_system :=
  snd (get_Ok (None, blocked_system) (generationJobCommand JobResume resume_context "cp-2" "run-2" 5 blocked_system)).
Definition run_view (d : gen_db) : list (string * PhaseRunState) := map (fun kr => (kr.1, r_state kr.2)) (map_to_list (runs d)).
Definition job_view (d : gen_db) : option (GenerationJobState * option string) := (fun j => (lifecycle j, active_run j)) <$> jobs d !! uuid_a.

Example resume_history :
  job_view (gs_db blocked_system) = Some (BLOCKED, Some "run-1") /\ run_view (gs_db blocked_system) = [("run-1", RUNNING)] /\
  job_view (gs_db resumed_system) = Some (InPhase ANALYZING, Some "run-2") /\
  run_view (gs_db resumed_system) ≡ₚ [("run-1", RUNNING); ("run-2", QUEUED)].
Proof. split_and!; [vm_compute; reflexivity..|]. apply (bool_decide_unpack _). vm_compute. exact I. Qed.

(** The worker of the first run may still report on it: the job moves on from the first run's phase, a third run is
    queued, and the job no longer points to the run of the resume. *)
Example superseded_run_completes :
  (fun d => (job_view d, length (active_runs uuid_a d))) (snd (get_Ok (None, gs_db resumed_system)
     (completeGenerationPhase job_completion "cp-3" "run-3" 9 (gs_db resumed_system)))) =
    (Some (InPhase ANALYZING, Some "run-3"), 2%nat).
Proof. vm_compute. reflexivity. Qed.

Lemma job_command_runs_witness :
  exists j run, jobs (gs_db blocked_system) !! uuid_a = Some j /\ lifecycle j ∈ transition_from JobResume /\
    active_runs uuid_a (gs_db resumed_system) ≡ₚ ("run-2", run) :: active_runs uuid_a (gs_db blocked_system).
Proof.
  destruct (job_command_runs JobResume resume_context "cp-2" "run-2" 5 blocked_system (Some "run-2") resumed_system)
    as (id & j & j' & Hid & Hj & _ & Hl & _ & run & _ & _ & _ & _ & _ & _ & _ & Ha).
  - unfold resumed_system. vm_compute. reflexivity.
  - assert (E : id = uuid_a) by (vm_compute in Hid; injection Hid as <-; reflexivity). subst id.
    exists j, run. split; [exact Hj|]. split; [exact Hl|exact Ha].
Defined.
End Samples.
