(* ===== verification/Secrets.v ===== *)
(** * Secrets

    [packages/domain/src/secrets.ts], [SecretManager]: sealed versions of secrets, their activation, reading by the owner
    and by a bound runtime, and the owner's API key; the consistency checks of [secret-operations.ts]; and the operation
    handlers of [exact-operation-handlers.ts] that write the same tables.  A transaction is a function of the tables;
    random bytes, fresh identifiers and the time are arguments.  Identifiers are uuids, in the one spelling of
    [randomUUID].  [step] interleaves all of them. *)
From Stdlib Require Import Ascii String.
From S2P Require Import Prelude Bytes Json Text Digest CanonicalValue IpcFrame IpcChannel IpcBroker AuditChain Database RuntimeSystemd ErrorRegistry Contracts Crypto Schemas Commands Handlers.

(** ** Tables *)

Inductive secret_lifecycle := S_ACTIVE | S_CLOSED.
Inductive version_lifecycle := V_CREATED | V_ACTIVE | V_RETIRED.
#[export] Instance secret_lifecycle_eq_dec : EqDecision secret_lifecycle.
Proof. solve_decision. Defined.
#[export] Instance version_lifecycle_eq_dec : EqDecision version_lifecycle.
Proof. solve_decision. Defined.
Record secret_row := {
  sc_stable_name : string; sc_display_name : string; sc_kind : string; sc_lifecycle : secret_lifecycle; sc_active_version_id : option string; sc_epoch : Z;
  sc_metadata : json; sc_deleted : bool; sc_state_version : Z; sc_incarnation : string; sc_deployment : Z;
}.
Record version_row := {
  sv_secret : string; sv_number : Z; sv_ciphertext : list Z; sv_nonce : list Z; sv_tag : list Z; sv_key_id : string; sv_fingerprint : string;
  sv_digest : list Z; sv_lifecycle : version_lifecycle; sv_operation : option string; sv_created_by : string;
}.
(** The singleton [owner_api_credential] *)
Record credential_row := {
  cd_id : string; cd_secret : option string; cd_version : option string; cd_verifier : option (list Z); cd_fingerprint : option string;
  cd_credential_version : Z; cd_epoch : Z; cd_last_rotate : option string; cd_last_outcome : option (list Z); cd_state_version : Z;
}.
Record binding_row := {
  bi_stable_key : option string; bi_lifecycle : string; bi_secret : string; bi_source_kind : string; bi_source_object : string; bi_source_revision : string;
  bi_purpose : string; bi_target : option string; bi_selector : json; bi_policy : string; bi_revision : Z; bi_digest : list Z; bi_activation_set : option string;
  bi_expires : option Z; bi_retired : bool; bi_deleted : bool; bi_state_version : Z; bi_epoch : Z; bi_incarnation : option string; bi_deployment : Z;
}.
(** [binding_set_member] *)
Record member_row := { me_revision : string; me_kind : string; me_source : json; me_target : json; me_operation : string; me_purpose : string }.
Record resolution_row := {
  re_key : string; re_execution : string; re_secret : string; re_binding : string; re_revision : Z; re_alias : string; re_purpose : string;
  re_version : string; re_epoch : Z; re_fingerprint : string; re_expires : Z;
}.
Record access_row := { ax_key : string; ax_secret : string; ax_version : string; ax_execution : string; ax_binding : option string; ax_purpose : string; ax_operation : string }.
Record secrets_db := {
  platform : option recovery_row; records : gmap string secret_row; versions : gmap string version_row; credential : option credential_row;
  bindings : gmap string binding_row; members : list member_row; resolutions : gmap string resolution_row; accesses : list access_row; events : log_tables;
}.
Implicit Type d : secrets_db.
Definition set_records t d := {| platform := platform d; records := t; versions := versions d; credential := credential d; bindings := bindings d; members := members d; resolutions := resolutions d; accesses := accesses d; events := events d |}.
Definition set_versions t d := {| platform := platform d; records := records d; versions := t; credential := credential d; bindings := bindings d; members := members d; resolutions := resolutions d; accesses := accesses d; events := events d |}.
Definition set_credential t d := {| platform := platform d; records := records d; versions := versions d; credential := t; bindings := bindings d; members := members d; resolutions := resolutions d; accesses := accesses d; events := events d |}.
Definition set_bindings t d := {| platform := platform d; records := records d; versions := versions d; credential := credential d; bindings := t; members := members d; resolutions := resolutions d; accesses := accesses d; events := events d |}.
Definition set_evidence r a d := {| platform := platform d; records := records d; versions := versions d; credential := credential d; bindings := bindings d; members := members d; resolutions := r; accesses := a; events := events d |}.
Definition set_events t d := {| platform := platform d; records := records d; versions := versions d; credential := credential d; bindings := bindings d; members := members d; resolutions := resolutions d; accesses := accesses d; events := t |}.

(** *** Constraints and triggers *)

Definition unique_violation : exn := PgError "23505".
Definition check_violation : exn := PgError "23514".
Definition out_of_range : exn := PgError "22003".
(** [column = column + 1] on a bigint *)
Definition bump (z : Z) : result Z := _ ← throw_if (max_bigint <? z + 1) out_of_range; Ok (z + 1).
Definition secret_kinds : list string := ["PASSWORD"; "API_KEY"; "TOKEN"; "TOTP"; "CERTIFICATE"; "PRIVATE_KEY"; "OPAQUE"].
Definition insert_record (id : string) (r : secret_row) d : result secrets_db :=
  _ ← throw_if (negb (stable_name (sc_stable_name r)) || negb (bool_decide (sc_kind r ∈ secret_kinds))) check_violation;
  _ ← throw_if (is_some (records d !! id) || existsb (fun '(_, r') => String.eqb (sc_stable_name r') (sc_stable_name r)) (map_to_list (records d))) unique_violation;
  Ok (set_records (<[id := r]> (records d)) d).
Definition insert_version (id : string) (v : version_row) d : result secrets_db :=
  _ ← throw_if (sv_number v <=? 0) check_violation;
  _ ← throw_if (negb (length (sv_nonce v) =? 12)%nat || negb (length (sv_tag v) =? 16)%nat || negb (length (sv_digest v) =? 32)%nat) check_violation;
  _ ← throw_if (is_some (versions d !! id) || existsb (fun '(_, v') => String.eqb (sv_secret v') (sv_secret v) && (sv_number v' =? sv_number v)) (map_to_list (versions d))) unique_violation;
  _ ← throw_if (negb (is_some (records d !! sv_secret v))) (PgError "23503");
  Ok (set_versions (<[id := v]> (versions d)) d).
(** The trigger [protect_secret_version] *)
Definition transition_allowed (a b : version_lifecycle) : bool :=
  match a, b with V_CREATED, _ | V_ACTIVE, V_ACTIVE | V_ACTIVE, V_RETIRED | V_RETIRED, V_RETIRED => true | _, _ => false end.
(** The partial unique index [secret_version_one_active_uq] *)
Definition other_active (secret id : string) d : bool :=
  existsb (fun '(i, v) => negb (String.eqb i id) && String.eqb (sv_secret v) secret && bool_decide (sv_lifecycle v = V_ACTIVE)) (map_to_list (versions d)).
Definition with_lifecycle (l : version_lifecycle) (operation : option string) (v : version_row) : version_row :=
  {| sv_secret := sv_secret v; sv_number := sv_number v; sv_ciphertext := sv_ciphertext v; sv_nonce := sv_nonce v; sv_tag := sv_tag v; sv_key_id := sv_key_id v;
     sv_fingerprint := sv_fingerprint v; sv_digest := sv_digest v; sv_lifecycle := l; sv_operation := operation; sv_created_by := sv_created_by v |}.
(** [UPDATE secret_version SET lifecycle=... WHERE id=... AND lifecycle=...] and whether a row was changed *)
Definition move_version (id : string) (from to : version_lifecycle) (operation : version_row -> option string) d : result (bool * secrets_db) :=
  match versions d !! id with
  | Some v =>
      if negb (bool_decide (sv_lifecycle v = from)) then Ok (false, d)
      else
        _ ← throw_if (negb (transition_allowed from to)) check_violation;
        _ ← throw_if (bool_decide (to = V_ACTIVE) && other_active (sv_secret v) id d) unique_violation;
        Ok (true, set_versions (<[id := with_lifecycle to (operation v) v]> (versions d)) d)
  | None => Ok (false, d)
  end.
Definition activate_version (id logicalOperationId : string) : secrets_db -> result (bool * secrets_db) := move_version id V_CREATED V_ACTIVE (fun _ => Some logicalOperationId).
Definition retire_version (id : string) : secrets_db -> result (bool * secrets_db) := move_version id V_ACTIVE V_RETIRED sv_operation.
Definition put_record (id : string) (r : secret_row) d : secrets_db := set_records (<[id := r]> (records d)) d.
Definition with_active (version : option string) (epoch state : Z) (r : secret_row) : secret_row :=
  {| sc_stable_name := sc_stable_name r; sc_display_name := sc_display_name r; sc_kind := sc_kind r; sc_lifecycle := sc_lifecycle r; sc_active_version_id := version;
     sc_epoch := epoch; sc_metadata := sc_metadata r; sc_deleted := sc_deleted r; sc_state_version := state; sc_incarnation := sc_incarnation r; sc_deployment := sc_deployment r |}.
Definition with_lineage (h : RecoveryAuthorityHead) (r : secret_row) : secret_row :=
  {| sc_stable_name := sc_stable_name r; sc_display_name := sc_display_name r; sc_kind := sc_kind r; sc_lifecycle := sc_lifecycle r; sc_active_version_id := sc_active_version_id r;
     sc_epoch := sc_epoch r; sc_metadata := sc_metadata r; sc_deleted := sc_deleted r; sc_state_version := sc_state_version r; sc_incarnation := ah_incarnation h; sc_deployment := ah_current_epoch h |}.
(** A row that is there and not deleted *)
Definition live (id : string) d : option secret_row := match records d !! id with Some r => if sc_deleted r then None else Some r | None => None end.

(** ** The service *)

Record SecretSummary := {
  sm_id : string; sm_stableName : string; sm_displayName : string; sm_kind : string; sm_activeVersionId : option string; sm_epoch : string;
  sm_fingerprint : option string; sm_stateVersion : string;
}.
Record RuntimeSecretAuthority := {
  au_executionId : string; au_sourceObjectKind : string; au_sourceObjectId : string; au_sourceRevisionId : string; au_bindingSetRevisionId : string;
  au_activationSetId : option string; au_activationEpoch : Z; au_platformIncarnationId : string; au_applicationDeploymentEpoch : Z;
}.
Record Revealed := { rv_value : string; rv_fingerprint : string; rv_versionId : string }.
(** Who acts, in which logical operation *)
Record caller := { actorId : string; logicalOperationId : string; correlationId : string }.

Definition secret_missing : exn := DomainErr "KCIP_TARGET_NOT_FOUND" "Secret does not exist".
Definition secret_changed : exn := DomainErr "STATE_VERSION_CONFLICT" "Secret changed".
Definition OWNER_KEY : string := "KCML_OWNER_API_KEY".
(** [`${secretId}:${versionId}:${stableName}`] *)
Definition associated_data (secretId versionId stableName : string) : string := secretId +:+ ":" +:+ versionId +:+ ":" +:+ stableName.
Definition summary (id : string) (r : secret_row) (active fingerprint : option string) (epoch state : Z) : SecretSummary :=
  {| sm_id := id; sm_stableName := sc_stable_name r; sm_displayName := sc_display_name r; sm_kind := sc_kind r; sm_activeVersionId := active; sm_epoch := dec epoch;
     sm_fingerprint := fingerprint; sm_stateVersion := dec state |}.

Section Manager.
Context `{L : Locale} `{H : Hash} `{A : Aead} (cipher : list Z * string) (name_leb : string -> string -> bool).

(** *** Events *)

Definition appendSecretOutbox (secretId eventType : string) (payload : json) d : result secrets_db :=
  '(n, al) ← allocateContiguousSequence ("TRANSACTIONAL_OUTBOX", secretId, "SECRET_EVENT") (allocators (events d));
  Ok (set_events {| outbox := outbox (events d) ++ [{| ob_stream := "secret:" +:+ secretId; ob_sequence := n; ob_event := eventType; ob_aggregate := Some secretId;
                      ob_payload := payload; ob_digest := tokenDigest (canonicalJson payload) |}];
                    allocators := al; audit_log := audit_log (events d) |} d).
Definition append_event (type : string) (payload : json) d : result secrets_db :=
  log ← append_audit_event (audit_log (events d)) (type, utf8 (canonicalJson payload));
  Ok (set_events {| outbox := outbox (events d); allocators := allocators (events d); audit_log := log |} d).
Definition record_event (id type : string) (payload : json) d : result secrets_db :=
  d ← appendSecretOutbox id type payload d; append_event type payload d.
(** The next number of the versions of a secret *)
Definition next_number (id : string) d : result (Z * secrets_db) :=
  '(n, al) ← allocateContiguousSequence ("SECRET_VERSION", id, "VERSION_NUMBER") (allocators (events d));
  Ok (n, set_events {| outbox := outbox (events d); allocators := al; audit_log := audit_log (events d) |} d).
Definition sealed_row (secretId : string) (n : Z) (e : CipherEnvelope) (createdBy : string) : version_row :=
  {| sv_secret := secretId; sv_number := n; sv_ciphertext := ciphertext e; sv_nonce := env_nonce e; sv_tag := authTag e; sv_key_id := keyId e; sv_fingerprint := env_fingerprint e;
     sv_digest := valueDigest e; sv_lifecycle := V_CREATED; sv_operation := None; sv_created_by := createdBy |}.
(** A new version under the next number *)
Definition write_version (secretId versionId : string) (e : CipherEnvelope) (createdBy : string) d : result (Z * secrets_db) :=
  '(n, d) ← next_number secretId d; d ← insert_version versionId (sealed_row secretId n e createdBy) d; Ok (n, d).
(** The active version, if any, is retired, and another one activated. *)
Definition switch_version (old : option string) (versionId logicalOperationId : string) d : result secrets_db :=
  '(_, d) ← (match old with Some v => retire_version v d | None => Ok (false, d) end);
  '(_, d) ← activate_version versionId logicalOperationId d; Ok d.

(** *** Reading *)

Definition summary_of (d : secrets_db) (id : string) (r : secret_row) : SecretSummary :=
  summary id r (sc_active_version_id r) (v ← sc_active_version_id r; sv_fingerprint <$> versions d !! v) (sc_epoch r) (sc_state_version r).
Definition by_name {A} (name : A -> string) (a b : A) : bool := name_leb (name a) (name b).
Definition live_rows d : list (string * secret_row) :=
  stable_sort (by_name (fun '(_, r) => sc_stable_name r)) (List.filter (fun '(_, r) => negb (sc_deleted r)) (map_to_list (records d))).
Definition list_summaries d : list SecretSummary := map (fun '(id, r) => summary_of d id r) (live_rows d).
Definition get_secret (id : string) d : result SecretSummary := r ← or_throw (live id d) secret_missing; Ok (summary_of d id r).
Definition listVersions (secretId : string) d : list (string * version_row) :=
  stable_sort (fun a b => sv_number b.2 <=? sv_number a.2) (List.filter (fun '(_, v) => String.eqb (sv_secret v) secretId) (map_to_list (versions d))).

(** *** Writing *)

Definition create_txn (i : SecretInput) (id versionId : string) (e : CipherEnvelope) (c : caller) d : result secrets_db :=
  h ← lockAndVerifyPlatformRecovery (platform d);
  d ← insert_record id {| sc_stable_name := se_stableName i; sc_display_name := se_displayName i; sc_kind := se_kind i; sc_lifecycle := S_ACTIVE; sc_active_version_id := None;
        sc_epoch := 0; sc_metadata := JObj (se_metadata i); sc_deleted := false; sc_state_version := 1; sc_incarnation := ah_incarnation h; sc_deployment := ah_current_epoch h |} d;
  '(n, d) ← write_version id versionId e (actorId c) d;
  d ← switch_version None versionId (logicalOperationId c) d;
  r ← or_throw (records d !! id) secret_missing;
  let d := put_record id (with_active (Some versionId) 1 (sc_state_version r + 1) r) d in
  record_event id "secret.created"
    (JObj [("stableName", JStr (se_stableName i)); ("versionId", JStr versionId); ("versionNumber", JStr (dec n)); ("fingerprint", JStr (env_fingerprint e));
           ("logicalOperationId", JStr (logicalOperationId c))]) d.
(** [create] answers with what a second query finds. *)
Definition create (input : json) (id versionId : string) (nonce : list Z) (c : caller) : io secrets_db SecretSummary :=
  i ← lift (or_throw (secretInputSchema input) (JsError "ZodError"));
  _ ← Prelude.txn (fun d => d ← create_txn i id versionId (encrypt cipher nonce (se_value i) (associated_data id versionId (se_stableName i))) c d; Ok (tt, d));
  d ← get; lift (get_secret id d).
Definition addVersion (secretId value : string) (expectedStateVersion : Z) (c : caller) (activate : bool) (versionId : string) (nonce : list Z) d : result (SecretSummary * secrets_db) :=
  h ← lockAndVerifyPlatformRecovery (platform d);
  r ← or_throw (live secretId d) secret_missing;
  _ ← throw_if (negb (sc_state_version r =? expectedStateVersion)) secret_changed;
  let e := encrypt cipher nonce value (associated_data secretId versionId (sc_stable_name r)) in
  '(n, d) ← write_version secretId versionId e (actorId c) d;
  '(state, d) ← (if activate then
      d ← switch_version (sc_active_version_id r) versionId (logicalOperationId c) d;
      epoch ← bump (sc_epoch r); state ← bump (sc_state_version r);
      Ok (state, put_record secretId (with_active (Some versionId) epoch state r) d)
    else Ok (sc_state_version r, d));
  r' ← or_throw (records d !! secretId) secret_missing;
  let d := put_record secretId (with_lineage h r') d in
  d ← record_event secretId (if activate then "secret.version.activated" else "secret.version.created")
        (JObj [("secretId", JStr secretId); ("versionId", JStr versionId); ("versionNumber", JStr (dec n)); ("activate", JBool activate);
               ("fingerprint", JStr (env_fingerprint e)); ("logicalOperationId", JStr (logicalOperationId c))]) d;
  Ok (summary secretId r (if activate then Some versionId else sc_active_version_id r) (if activate then Some (env_fingerprint e) else None)
        (sc_epoch r + (if activate then 1 else 0)) state, d).
Definition update (id : string) (input : json) (expectedStateVersion : Z) (c : caller) d : result (SecretSummary * secrets_db) :=
  h ← lockAndVerifyPlatformRecovery (platform d);
  r ← or_throw (live id d) secret_missing;
  _ ← throw_if (negb (sc_state_version r =? expectedStateVersion)) secret_changed;
  let body k := match input with JObj l => get_prop k l | _ => None end in
  let displayName := match body "displayName" with Some (JStr s) => s | _ => sc_display_name r end in
  let metadata := match body "metadata" with Some (JObj l) => JObj l | _ => sc_metadata r end in
  state ← bump (sc_state_version r);
  let r' := {| sc_stable_name := sc_stable_name r; sc_display_name := displayName; sc_kind := sc_kind r; sc_lifecycle := sc_lifecycle r;
               sc_active_version_id := sc_active_version_id r; sc_epoch := sc_epoch r; sc_metadata := metadata; sc_deleted := sc_deleted r; sc_state_version := state;
               sc_incarnation := ah_incarnation h; sc_deployment := ah_current_epoch h |} in
  d ← record_event id "secret.updated" (JObj [("id", JStr id); ("displayName", JStr displayName); ("logicalOperationId", JStr (logicalOperationId c))]) (put_record id r' d);
  Ok (summary id r' (sc_active_version_id r) None (sc_epoch r) (expectedStateVersion + 1), d).
Definition softDelete (id : string) (expectedStateVersion : Z) (c : caller) d : result (string * secrets_db) :=
  let stale := DomainErr "STATE_VERSION_CONFLICT" "Secret is missing or stale" in
  h ← lockAndVerifyPlatformRecovery (platform d);
  r ← or_throw (live id d) stale;
  _ ← throw_if (negb (sc_state_version r =? expectedStateVersion)) stale;
  state ← bump (sc_state_version r);
  let r' := {| sc_stable_name := sc_stable_name r; sc_display_name := sc_display_name r; sc_kind := sc_kind r; sc_lifecycle := S_CLOSED;
               sc_active_version_id := sc_active_version_id r; sc_epoch := sc_epoch r; sc_metadata := sc_metadata r; sc_deleted := true; sc_state_version := state;
               sc_incarnation := ah_incarnation h; sc_deployment := ah_current_epoch h |} in
  d ← record_event id "secret.deleted" (JObj [("id", JStr id); ("deleted", JBool true); ("logicalOperationId", JStr (logicalOperationId c))]) (put_record id r' d);
  Ok (dec state, d).

(** *** Revealing *)

(** An access event whose stable key is taken is refused. *)
Definition insert_access (x : access_row) d : result secrets_db :=
  _ ← throw_if (existsb (fun y => String.eqb (ax_key y) (ax_key x)) (accesses d)) unique_violation;
  Ok (set_evidence (resolutions d) (accesses d ++ [x]) d).
(** The row of the version that a secret has active *)
Definition active_version (id : string) d : option (secret_row * string * version_row) :=
  r ← live id d; i ← sc_active_version_id r; v ← versions d !! i;
  if bool_decide (sv_lifecycle v = V_ACTIVE) then Some (r, i, v) else None.
Definition open_version (secretId versionId stableName : string) (v : version_row) : result string :=
  decrypt cipher {| ciphertext := sv_ciphertext v; env_nonce := sv_nonce v; authTag := sv_tag v; keyId := ""; env_fingerprint := ""; valueDigest := [] |}
    (associated_data secretId versionId stableName).
(** The evidence that [reveal] leaves *)
Definition record_reveal (secretId versionId fingerprint : string) (c : caller) d : result secrets_db :=
  d ← insert_access {| ax_key := secretId +:+ ":" +:+ versionId +:+ ":" +:+ correlationId c; ax_secret := secretId; ax_version := versionId;
        ax_execution := logicalOperationId c; ax_binding := None; ax_purpose := "OWNER_REVEAL"; ax_operation := "secret.reveal" |} d;
  append_event "secret.revealed" (JObj [("secretId", JStr secretId); ("versionId", JStr versionId); ("fingerprint", JStr fingerprint); ("actorId", JStr (actorId c));
    ("logicalOperationId", JStr (logicalOperationId c))]) d.
Definition reveal (secretId : string) (c : caller) d : result (Revealed * secrets_db) :=
  _ ← lockAndVerifyPlatformRecovery (platform d);
  '(r, i, v) ← or_throw (active_version secretId d) (DomainErr "KCIP_TARGET_NOT_FOUND" "Active secret does not exist");
  d ← record_reveal secretId i (sv_fingerprint v) c d;
  value ← open_version secretId i (sc_stable_name r) v;
  Ok ({| rv_value := value; rv_fingerprint := sv_fingerprint v; rv_versionId := i |}, d).
(** [exportActive]: one transaction for each secret of the list that was read before; [c n] are the identifiers of the [n]th. *)
Fixpoint reveal_all (c : nat -> caller) (n : nat) (l : list (string * secret_row)) : io secrets_db (list (secret_row * Revealed)) :=
  match l with
  | [] => mret []
  | (id, r) :: l => x ← Prelude.txn (reveal id (c n)); xs ← reveal_all c (S n) l; mret ((r, x) :: xs)
  end.
Definition exportActive (c : nat -> caller) : io secrets_db (list (secret_row * Revealed)) := d ← get; reveal_all c 0 (live_rows d).

(** *** A secret of a runtime *)

(** [/^[A-Za-z0-9][A-Za-z0-9._:/-]{0,127}$/u] *)
Definition alias_ok (s : string) : bool :=
  let alnum c := is_upper c || is_lower c || is_digit c in
  match chars s with
  | c :: l => alnum c && (length l <=? 127)%nat && forallb (fun c => alnum c || existsb (Ascii.eqb c) ["."; "_"; ":"; "/"; "-"]%char) l
  | [] => false
  end.
(** [column->>'key'], where it is compared with a uuid *)
Definition text_member (key : string) (j : json) : option string :=
  match j with JObj l => match get_prop key l with Some JNull | None => None | Some v => Some (to_text v) end | _ => None end.
Definition text_is (o : option string) (s : string) : bool := match o with Some x => String.eqb x s | None => false end.
Definition member_authorizes (a : RuntimeSecretAuthority) (purpose operation bindingId : string) (b : binding_row) (m : member_row) : bool :=
  String.eqb (me_revision m) (au_bindingSetRevisionId a) && String.eqb (me_kind m) "SECRET" && String.eqb (me_operation m) operation && String.eqb (me_purpose m) purpose
  && text_is (text_member "objectId" (me_source m)) (au_sourceObjectId a) && text_is (text_member "revisionId" (me_source m)) (au_sourceRevisionId a)
  && (text_is (text_member "bindingId" (me_target m)) bindingId || text_is (text_member "secretId" (me_target m)) (bi_secret b)).
Definition binding_authorizes (a : RuntimeSecretAuthority) (alias purpose : string) (now : Z) (b : binding_row) : bool :=
  text_is (bi_stable_key b) alias && String.eqb (bi_lifecycle b) "ACTIVE" && negb (bi_deleted b) && negb (bi_retired b)
  && String.eqb (bi_source_kind b) (au_sourceObjectKind a) && String.eqb (bi_source_object b) (au_sourceObjectId a) && String.eqb (bi_source_revision b) (au_sourceRevisionId a)
  && String.eqb (bi_purpose b) purpose && match bi_expires b with Some t => now <? t | None => true end
  && (bi_epoch b =? au_activationEpoch a) && text_is (bi_incarnation b) (au_platformIncarnationId a) && (bi_deployment b =? au_applicationDeploymentEpoch a)
  && bool_decide (bi_activation_set b = au_activationSetId a).
(** The rows of the join *)
Record authorized_secret := { as_binding_id : string; as_binding : binding_row; as_secret : secret_row; as_version_id : string; as_version : version_row }.
Definition authorized_rows (a : RuntimeSecretAuthority) (alias purpose operation : string) (now : Z) d : list authorized_secret :=
  '(i, b) ← map_to_list (bindings d);
  if negb (binding_authorizes a alias purpose now b) then []
  else match active_version (bi_secret b) d with
       | Some (r, vi, v) =>
           map (fun _ => {| as_binding_id := i; as_binding := b; as_secret := r; as_version_id := vi; as_version := v |})
             (List.filter (member_authorizes a purpose operation i b) (members d))
       | None => []
       end.
(** [row.version_selector?.versionId ?? row.version_selector?.version_id] *)
Definition pinned_version (selector : json) : option json :=
  match selector with JObj l => nullish (get_prop "versionId" l) (nullish (get_prop "version_id" l) None) | _ => None end.
Definition check_version_policy (x : authorized_secret) : result unit :=
  let pinned := match pinned_version (bi_selector (as_binding x)) with Some j => if js_truthy j then Some (to_text j) else None | None => None end in
  _ ← throw_if (negb (bool_decide (bi_policy (as_binding x) ∈ ["PINNED_VERSION"; "CURRENT_ACTIVE"]))) (JsError "SECRET_BINDING_VERSION_POLICY_INVALID");
  _ ← throw_if (String.eqb (bi_policy (as_binding x)) "PINNED_VERSION" && negb (is_some pinned)) (JsError "SECRET_BINDING_VERSION_POLICY_INVALID");
  throw_if (match pinned with Some p => negb (String.eqb p (as_version_id x)) | None => false end) (JsError "SECRET_BINDING_VERSION_STALE").
Definition insert_resolution (id : string) (x : resolution_row) d : result secrets_db :=
  _ ← throw_if (is_some (resolutions d !! id) || existsb (fun '(_, y) => String.eqb (re_key y) (re_key x)) (map_to_list (resolutions d))) unique_violation;
  Ok (set_evidence (<[id := x]> (resolutions d)) (accesses d) d).
Definition record_use (a : RuntimeSecretAuthority) (alias purpose operation correlation resolutionId logical : string) (now : Z) (x : authorized_secret) d : result secrets_db :=
  let b := as_binding x in let v := as_version x in
  let evidence := JObj [("executionId", JStr (au_executionId a)); ("bindingId", JStr (as_binding_id x)); ("bindingRevision", JStr (dec (bi_revision b)));
    ("bindingSetRevisionId", JStr (au_bindingSetRevisionId a)); ("purpose", JStr purpose); ("operation", JStr operation); ("secretId", JStr (bi_secret b));
    ("versionId", JStr (as_version_id x)); ("fingerprint", JStr (sv_fingerprint v)); ("activationEpoch", JStr (dec (au_activationEpoch a)))] in
  let soon := now + 5 * 60 * 1000 in
  d ← insert_resolution resolutionId {| re_key := au_executionId a +:+ ":" +:+ alias +:+ ":" +:+ correlation; re_execution := au_executionId a; re_secret := bi_secret b;
        re_binding := as_binding_id x; re_revision := bi_revision b; re_alias := alias; re_purpose := purpose; re_version := as_version_id x; re_epoch := sc_epoch (as_secret x);
        re_fingerprint := sv_fingerprint v; re_expires := Z.min (default soon (bi_expires b)) soon |} d;
  d ← insert_access {| ax_key := resolutionId +:+ ":access"; ax_secret := bi_secret b; ax_version := as_version_id x; ax_execution := au_executionId a;
        ax_binding := Some (as_binding_id x); ax_purpose := purpose; ax_operation := operation |} d;
  append_event "secret.used" evidence d.
Definition revealForRuntimeBinding (a : RuntimeSecretAuthority) (alias purpose operation correlation resolutionId logical : string) (now : Z) d : result (Revealed * string * secrets_db) :=
  _ ← throw_if (negb (alias_ok alias)) (JsError "SECRET_BINDING_ALIAS_INVALID");
  _ ← throw_if (negb (truthy purpose) || (256 <? Z.of_nat (String.length purpose))) (JsError "SECRET_PURPOSE_INVALID");
  h ← lockAndVerifyPlatformRecovery (platform d);
  _ ← throw_if (negb (String.eqb (ah_incarnation h) (au_platformIncarnationId a)) || negb (ah_current_epoch h =? au_applicationDeploymentEpoch a)) (JsError "RUNTIME_EXECUTION_AUTHORITY_STALE");
  match authorized_rows a alias purpose operation now d with
  | [x] =>
      _ ← check_version_policy x;
      d ← record_use a alias purpose operation correlation resolutionId logical now x d;
      value ← open_version (bi_secret (as_binding x)) (as_version_id x) (sc_stable_name (as_secret x)) (as_version x);
      Ok ({| rv_value := value; rv_fingerprint := sv_fingerprint (as_version x); rv_versionId := as_version_id x |}, as_binding_id x, d)
  | _ => Throw (JsError "SECRET_BINDING_NOT_AUTHORIZED")
  end.

(** *** The owner's API key *)

Definition api_key_value (random : list Z) : string := "kcml_live_" +:+ randomToken random.
Definition ensureOwnerApiKey (secretId versionId : string) (random nonce : list Z) (c : caller) d : result (option string * string * secrets_db) :=
  h ← lockAndVerifyPlatformRecovery (platform d);
  k ← or_throw (credential d) (JsError "TypeError");
  let present := default "" (cd_fingerprint k) in
  if is_some (cd_secret k) && is_some (cd_version k) && truthy present then Ok (None, present, d)
  else
    let value := api_key_value random in
    let e := encrypt cipher nonce value (associated_data secretId versionId OWNER_KEY) in
    d ← insert_record secretId {| sc_stable_name := OWNER_KEY; sc_display_name := "OWNER API key"; sc_kind := "API_KEY"; sc_lifecycle := S_ACTIVE; sc_active_version_id := None;
          sc_epoch := 0; sc_metadata := JObj []; sc_deleted := false; sc_state_version := 1; sc_incarnation := ah_incarnation h; sc_deployment := ah_current_epoch h |} d;
    '(_, d) ← write_version secretId versionId e (actorId c) d;
    d ← switch_version None versionId (logicalOperationId c) d;
    r ← or_throw (records d !! secretId) secret_missing;
    let d := put_record secretId (with_active (Some versionId) 1 (sc_state_version r + 1) r) d in
    state ← bump (cd_state_version k);
    let d := set_credential (Some {| cd_id := cd_id k; cd_secret := Some secretId; cd_version := Some versionId; cd_verifier := Some (tokenDigest value);
               cd_fingerprint := Some (fingerprint value); cd_credential_version := 1; cd_epoch := 1; cd_last_rotate := Some (logicalOperationId c);
               cd_last_outcome := cd_last_outcome k; cd_state_version := state |}) d in
    let payload := JObj [("secretId", JStr secretId); ("versionId", JStr versionId); ("fingerprint", JStr (fingerprint value)); ("logicalOperationId", JStr (logicalOperationId c))] in
    d ← record_event secretId "owner.api_key.initialized" payload d;
    Ok (Some value, fingerprint value, d).
Record Rotated := { ro_fingerprint : string; ro_credentialVersion : string; ro_stateVersion : string }.
Definition rotated_json (r : Rotated) : json :=
  JObj [("fingerprint", JStr (ro_fingerprint r)); ("credentialVersion", JStr (ro_credentialVersion r)); ("stateVersion", JStr (ro_stateVersion r))].
Definition rotateOwnerApiKey (expectedStateVersion : Z) (c : caller) (versionId : string) (random nonce : list Z) d : result (Rotated * secrets_db) :=
  let value := api_key_value random in
  h ← lockAndVerifyPlatformRecovery (platform d);
  let missing := DomainErr "AGENTIC_OPERATION_CONTEXT_INVALID" "Initialize the singleton credential first" in
  k ← or_throw (credential d) missing;
  secretId ← or_throw (cd_secret k) missing;
  _ ← throw_if (negb (cd_state_version k =? expectedStateVersion)) (DomainErr "STATE_VERSION_CONFLICT" "OWNER API key changed");
  if bool_decide (cd_last_rotate k = Some (logicalOperationId c)) && is_some (cd_last_outcome k) then
    Ok ({| ro_fingerprint := default "" (cd_fingerprint k); ro_credentialVersion := dec (cd_credential_version k); ro_stateVersion := dec (cd_state_version k) |}, d)
  else
    r ← or_throw (records d !! secretId) (DomainErr "AGENTIC_OWNER_INTENT_MISSING" "Singleton OWNER API secret is missing");
    let e := encrypt cipher nonce value (associated_data secretId versionId OWNER_KEY) in
    '(_, d) ← write_version secretId versionId e (actorId c) d;
    d ← switch_version (sc_active_version_id r) versionId (logicalOperationId c) d;
    epoch ← bump (sc_epoch r); state ← bump (sc_state_version r);
    let d := put_record secretId (with_lineage h (with_active (Some versionId) epoch state r)) d in
    let outcome := {| ro_fingerprint := fingerprint value; ro_credentialVersion := dec (cd_credential_version k + 1); ro_stateVersion := dec (cd_state_version k + 1) |} in
    credential_epoch ← bump (cd_epoch k); credential_state ← bump (cd_state_version k); credential_version ← bump (cd_credential_version k);
    let d := set_credential (Some {| cd_id := cd_id k; cd_secret := Some secretId; cd_version := Some versionId; cd_verifier := Some (tokenDigest value);
               cd_fingerprint := Some (fingerprint value); cd_credential_version := credential_version; cd_epoch := credential_epoch; cd_last_rotate := Some (logicalOperationId c);
               cd_last_outcome := Some (tokenDigest (canonicalJson (rotated_json outcome))); cd_state_version := credential_state |}) d in
    d ← record_event secretId "owner.api_key.rotated"
          (JObj [("logicalOperationId", JStr (logicalOperationId c)); ("fingerprint", JStr (fingerprint value)); ("credentialVersion", JStr (dec (cd_credential_version k + 1)));
                 ("secretVersionId", JStr versionId)]) d;
    Ok (outcome, d).
End Manager.

(** ** Consistency checks of the reports *)

(** [secret.usage.report]: the checks that do not depend on the platform's heads *)
Definition count_active (id : string) d : nat :=
  length (List.filter (fun '(_, v) => String.eqb (sv_secret v) id && bool_decide (sv_lifecycle v = V_ACTIVE)) (map_to_list (versions d))).
Definition activePointerConsistent (id : string) (r : secret_row) d : bool :=
  match sc_active_version_id r with
  | None => (count_active id d =? 0)%nat
  | Some i => match versions d !! i with
              | Some v => String.eqb (sv_secret v) id && bool_decide (sv_lifecycle v = V_ACTIVE) && (count_active id d =? 1)%nat
              | None => false
              end
  end.
Definition activeLifecycleConsistent (r : secret_row) : bool :=
  match sc_lifecycle r with S_ACTIVE => negb (sc_deleted r) | S_CLOSED => sc_deleted r end.
Definition activationEpochConsistent (r : secret_row) : bool :=
  match sc_active_version_id r with None => 0 <=? sc_epoch r | Some _ => 0 <? sc_epoch r end.
Definition usage_checks (id : string) (r : secret_row) d : bool := activePointerConsistent id r d && activeLifecycleConsistent r && activationEpochConsistent r.

(** [ownerApiKey.read]: the checks of an initialized credential *)
Record key_checks := { initializationAtomic : bool; keyPointerConsistent : bool; fingerprintConsistent : bool; epochConsistent : bool }.
Definition initialized (k : credential_row) : bool := is_some (cd_secret k) && is_some (cd_version k) && truthy (default "" (cd_fingerprint k)).
Definition read_checks (k : credential_row) d : key_checks :=
  let r := s ← cd_secret k; records d !! s in
  let v := (s ← cd_secret k; i ← cd_version k; v ← versions d !! i; if String.eqb (sv_secret v) s then Some v else None) in
  if initialized k then
    {| initializationAtomic := match r, v with Some r, Some _ => String.eqb (sc_stable_name r) OWNER_KEY && bool_decide (sc_lifecycle r = S_ACTIVE) && negb (sc_deleted r) | _, _ => false end;
       keyPointerConsistent := match r, v with Some r, Some v => bool_decide (sc_active_version_id r = cd_version k) && bool_decide (sv_lifecycle v = V_ACTIVE) | _, _ => false end;
       fingerprintConsistent := match v with Some v => bool_decide (cd_fingerprint k = Some (sv_fingerprint v)) | None => false end;
       epochConsistent := (0 <? cd_credential_version k) && (0 <? cd_epoch k) && match r with Some r => 0 <? sc_epoch r | None => false end |}
  else
    {| initializationAtomic := negb (is_some (cd_secret k)) && negb (is_some (cd_version k)) && negb (is_some (cd_fingerprint k)) && (cd_credential_version k =? 0) && (cd_epoch k =? 0);
       keyPointerConsistent := match r with Some r => negb (is_some (sc_active_version_id r)) | None => true end;
       fingerprintConsistent := match v with Some _ => false | None => true end; epochConsistent := true |}.
Definition key_consistent (x : key_checks) : bool := initializationAtomic x && keyPointerConsistent x && fingerprintConsistent x && epochConsistent x.

(** ** The operation handlers *)

Section SecretHandlers.
Context `{L : Locale} `{H : Hash} `{F : Formats}.
Implicit Type c : CanonicalHandlerContext.
Definition handler_event c (payload : list (string * json)) d : result secrets_db :=
  log ← recordAudit c payload (audit_log (events d)); Ok (set_events {| outbox := outbox (events d); allocators := allocators (events d); audit_log := log |} d).
(** The rows that [RETURNING *] answers *)
Definition secret_json (id : string) (r : secret_row) : json :=
  JObj [("id", JStr id); ("stable_name", JStr (sc_stable_name r)); ("display_name", JStr (sc_display_name r)); ("kind", JStr (sc_kind r));
        ("lifecycle", JStr (match sc_lifecycle r with S_ACTIVE => "ACTIVE" | S_CLOSED => "CLOSED" end)); ("active_version_id", jstr_opt (sc_active_version_id r));
        ("secret_activation_epoch", JStr (dec (sc_epoch r))); ("metadata", sc_metadata r); ("state_version", JStr (dec (sc_state_version r)));
        ("platform_incarnation_id", JStr (sc_incarnation r)); ("application_deployment_epoch", JStr (dec (sc_deployment r)))].
Definition bytes_json (l : list Z) : json := JStr ("base64:" +:+ base64 l).
Definition version_json (id : string) (v : version_row) : json :=
  JObj [("id", JStr id); ("secret_id", JStr (sv_secret v)); ("version_number", JStr (dec (sv_number v))); ("ciphertext", bytes_json (sv_ciphertext v)); ("nonce", bytes_json (sv_nonce v));
        ("auth_tag", bytes_json (sv_tag v)); ("algorithm", JStr "AES-256-GCM"); ("key_id", JStr (sv_key_id v)); ("fingerprint", JStr (sv_fingerprint v));
        ("value_digest", bytes_json (sv_digest v)); ("lifecycle", JStr (match sv_lifecycle v with V_CREATED => "CREATED" | V_ACTIVE => "ACTIVE" | V_RETIRED => "RETIRED" end));
        ("activation_logical_operation_id", jstr_opt (sv_operation v)); ("created_by", JStr (sv_created_by v))].
(** [{ ...objectArg(current, 'metadata'), rotation: ... }] *)
Definition with_rotation (metadata evidence : json) : json :=
  match objectArg (Some metadata) [] with JObj l => JObj (List.filter (fun kv => negb (String.eqb kv.1 "rotation")) l ++ [("rotation", evidence)]) | j => j end.
Definition handleSecretRotate c d : result (json * secrets_db) :=
  id ← target c;
  r ← or_throw (records d !! id) (not_found "Secret record does not exist");
  _ ← assertVersion c (sc_state_version r);
  _ ← throw_if (negb (bool_decide (sc_lifecycle r = S_ACTIVE))) (not_found "Secret record changed while rotating");
  epoch ← bump (sc_epoch r); state ← bump (sc_state_version r);
  let r' := {| sc_stable_name := sc_stable_name r; sc_display_name := sc_display_name r; sc_kind := sc_kind r; sc_lifecycle := sc_lifecycle r;
               sc_active_version_id := sc_active_version_id r; sc_epoch := epoch; sc_metadata := with_rotation (sc_metadata r) (objectArg (argument c "evidence") []);
               sc_deleted := sc_deleted r; sc_state_version := state; sc_incarnation := sc_incarnation r; sc_deployment := sc_deployment r |} in
  d ← handler_event c [("secretId", JStr id); ("secretActivationEpoch", JStr (dec epoch))] (put_record id r' d);
  Ok (handler_result c "secret_record" (secret_json id r') (Some state) [("rotationRequested", JBool true)], d).
Definition handleSecretVersionActivate c d : result (json * secrets_db) :=
  versionId ← target c;
  v ← or_throw (versions d !! versionId) (not_found "Secret version does not exist");
  r ← or_throw (records d !! sv_secret v) (not_found "Secret record does not exist");
  '(changed, d) ← activate_version versionId (hc_logicalOperationId c) d;
  _ ← throw_if (negb changed) (not_found "Secret version cannot be activated");
  epoch ← bump (sc_epoch r); state ← bump (sc_state_version r);
  let d := put_record (sv_secret v) (with_active (Some versionId) epoch state r) d in
  d ← handler_event c [("secretId", JStr (sv_secret v)); ("versionId", JStr versionId); ("secretActivationEpoch", JStr (dec epoch))] d;
  Ok (handler_result c "secret_version" (version_json versionId (with_lifecycle V_ACTIVE (Some (hc_logicalOperationId c)) v)) (Some state) [("activeVersionId", JStr versionId)], d).
(** A string of the arguments, never a buffer: [Buffer.from(String(value ?? ''))]; the nonce and the tag are zeros. *)
Definition handleSecretVersionCreate c (id : string) d : result (json * secrets_db) :=
  secretId ← uuidArg c "secretId" (hc_targetId c);
  number ← numberArg c "versionNumber" 1;
  let material := utf8 (match nullish (argument c "ciphertext") None with Some j => to_text j | None => "" end) in
  keyId ← textArg c "keyId" (Some "kcml-key");
  print ← textArg c "fingerprint" (Some ("version-" +:+ dec number));
  let digest := digestArgument c "valueDigest" (bytes_json material) in
  createdBy ← uuidArg c "createdBy" (Some (hc_logicalOperationId c));
  let v := {| sv_secret := secretId; sv_number := number; sv_ciphertext := material; sv_nonce := repeat 0 12; sv_tag := repeat 0 16; sv_key_id := keyId;
              sv_fingerprint := print; sv_digest := digest; sv_lifecycle := V_CREATED; sv_operation := None; sv_created_by := createdBy |} in
  d ← insert_version id v d;
  d ← handler_event c [("secretVersionId", JStr id); ("secretId", JStr secretId); ("versionNumber", JNum number)] d;
  Ok (handler_result c "secret_version" (version_json id v) None [("secretVersionId", JStr id)], d).
(** *** Bindings *)

(** A value that is sent for a uuid or a timestamp column *)
Definition pg_uuid (o : option json) : result (option string) :=
  match nullish o None with None => Ok None | Some (JStr s) => if uuid_text s then Ok (Some s) else Throw (PgError "22P02") | Some _ => Throw (PgError "22P02") end.
Definition pg_timestamp (o : option json) : result (option Z) :=
  match nullish o None with None => Ok None | Some (JStr s) => t ← or_throw (datetime_ms s) (PgError "22007"); Ok (Some t) | Some _ => Throw (PgError "22007") end.
Definition binding_json (id : string) (b : binding_row) : json :=
  JObj [("id", JStr id); ("stable_key", jstr_opt (bi_stable_key b)); ("lifecycle", JStr (bi_lifecycle b)); ("secret_id", JStr (bi_secret b));
        ("source_object_kind", JStr (bi_source_kind b)); ("source_object_id", JStr (bi_source_object b)); ("source_revision_id", JStr (bi_source_revision b));
        ("usage_purpose", JStr (bi_purpose b)); ("target_id", jstr_opt (bi_target b)); ("version_selector", bi_selector b); ("resolved_version_policy", JStr (bi_policy b));
        ("binding_revision", JStr (dec (bi_revision b))); ("state_version", JStr (dec (bi_state_version b)))].
Definition handleSecretBind c (id : string) d : result (json * secrets_db) :=
  secretId ← uuidArg c "secretId" None;
  kind ← textArg c "sourceObjectKind" None;
  object ← uuidArg c "sourceObjectId" None;
  revision ← uuidArg c "sourceRevisionId" None;
  purpose ← textArg c "usagePurpose" None;
  policy ← textArg c "resolvedVersionPolicy" (Some "ACTIVE_ONLY");
  number ← numberArg c "bindingRevision" 1;
  bound_target ← pg_uuid (argument c "targetId");
  _ ← pg_uuid (argument c "accountId");
  set ← pg_uuid (argument c "activationSetId");
  expires ← pg_timestamp (argument c "expiresAt");
  _ ← throw_if ((number <=? 0) || (hc_activationEpoch c <? 0) || (hc_applicationDeploymentEpoch c <? 0)) check_violation;
  _ ← throw_if (is_some (bindings d !! id)) unique_violation;
  let b := {| bi_stable_key := None; bi_lifecycle := "ACTIVE"; bi_secret := secretId; bi_source_kind := kind; bi_source_object := object; bi_source_revision := revision;
              bi_purpose := purpose; bi_target := bound_target; bi_selector := objectArg (argument c "versionSelector") []; bi_policy := policy; bi_revision := number;
              bi_digest := digestArgument c "bindingDigest" (JObj []); bi_activation_set := set; bi_expires := expires; bi_retired := false; bi_deleted := false;
              bi_state_version := 1; bi_epoch := hc_activationEpoch c; bi_incarnation := Some (hc_platformIncarnationId c); bi_deployment := hc_applicationDeploymentEpoch c |} in
  d ← handler_event c [("bindingId", JStr id); ("secretId", JStr secretId)] (set_bindings (<[id := b]> (bindings d)) d);
  Ok (handler_result c "secret_binding" (binding_json id b) (Some 1) [("bindingId", JStr id)], d).
Definition retire_binding (state : Z) (b : binding_row) : binding_row :=
  {| bi_stable_key := bi_stable_key b; bi_lifecycle := "RETIRED"; bi_secret := bi_secret b; bi_source_kind := bi_source_kind b; bi_source_object := bi_source_object b;
     bi_source_revision := bi_source_revision b; bi_purpose := bi_purpose b; bi_target := bi_target b; bi_selector := bi_selector b; bi_policy := bi_policy b;
     bi_revision := bi_revision b; bi_digest := bi_digest b; bi_activation_set := bi_activation_set b; bi_expires := bi_expires b; bi_retired := true;
     bi_deleted := bi_deleted b; bi_state_version := state; bi_epoch := bi_epoch b; bi_incarnation := bi_incarnation b; bi_deployment := bi_deployment b |}.
Definition handleSecretUnbind c d : result (json * secrets_db) :=
  id ← target c;
  b ← or_throw (bindings d !! id) (not_found "Secret binding does not exist");
  _ ← assertVersion c (bi_state_version b);
  _ ← throw_if (negb (String.eqb (bi_lifecycle b) "ACTIVE")) (not_found "Secret binding changed while unbinding");
  state ← bump (bi_state_version b);
  d ← handler_event c [("bindingId", JStr id); ("lifecycle", JStr "RETIRED")] (set_bindings (<[id := retire_binding state b]> (bindings d)) d);
  Ok (handler_result c "secret_binding" (binding_json id (retire_binding state b)) (Some state) [("lifecycle", JStr "RETIRED")], d).

(** *** The credential *)

Definition key_missing : exn := not_found "The singleton owner API credential is not initialized".
Definition key_json (k : credential_row) : json :=
  JObj [("id", JStr (cd_id k)); ("secret_id", jstr_opt (cd_secret k)); ("secret_version_id", jstr_opt (cd_version k)); ("fingerprint", jstr_opt (cd_fingerprint k));
        ("credential_version", JStr (dec (cd_credential_version k))); ("credential_activation_epoch", JStr (dec (cd_epoch k))); ("state_version", JStr (dec (cd_state_version k)))].
Definition touch_key (state : Z) (k : credential_row) : credential_row :=
  {| cd_id := cd_id k; cd_secret := cd_secret k; cd_version := cd_version k; cd_verifier := cd_verifier k; cd_fingerprint := cd_fingerprint k;
     cd_credential_version := cd_credential_version k; cd_epoch := cd_epoch k; cd_last_rotate := cd_last_rotate k; cd_last_outcome := cd_last_outcome k; cd_state_version := state |}.
(** [handleOwnerApiKeyReveal] answers with the row it read; its evidence has the time in it. *)
Definition handleOwnerApiKeyReveal c (time : string) d : result (json * secrets_db) :=
  k ← or_throw (credential d) key_missing;
  state ← bump (cd_state_version k);
  d ← handler_event c [("fingerprint", jstr_opt (cd_fingerprint k)); ("credentialVersion", JStr (dec (cd_credential_version k))); ("revealedTo", JStr "KRMAR78"); ("revealedAt", JStr time);
        ("secretMaterial", JStr "NEVER_PERSISTED_OR_RETURNED")] (set_credential (Some (touch_key state k)) d);
  Ok (handler_result c "owner_api_credential" (JObj [("id", JStr (cd_id k)); ("fingerprint", jstr_opt (cd_fingerprint k)); ("credentialVersion", JStr (dec (cd_credential_version k)))])
        (Some (cd_state_version k)) [("revealed", JBool true); ("secretMaterial", JNull)], d).
Definition handleOwnerApiKeyRotate c d : result (json * secrets_db) :=
  k ← or_throw (credential d) key_missing;
  let version := cd_credential_version k + 1 in
  _ ← throw_if (max_bigint <? version) out_of_range;
  _ ← throw_if (hc_activationEpoch c <? 0) check_violation;
  state ← bump (cd_state_version k);
  let outcome := [("rotated", JBool true); ("version", JStr (dec version)); ("evidence", objectArg (argument c "evidence") [])] in
  let k' := {| cd_id := cd_id k; cd_secret := cd_secret k; cd_version := cd_version k; cd_verifier := cd_verifier k; cd_fingerprint := cd_fingerprint k;
               cd_credential_version := version; cd_epoch := hc_activationEpoch c; cd_last_rotate := Some (hc_logicalOperationId c);
               cd_last_outcome := Some (digest_of (JObj outcome)); cd_state_version := state |} in
  d ← handler_event c [("credentialId", JStr (cd_id k)); ("credentialVersion", JStr (dec version)); ("rotated", JBool true)] (set_credential (Some k') d);
  Ok (handler_result c "owner_api_credential" (key_json k') (Some state) outcome, d).
End SecretHandlers.

(** ** The system *)

Section System.
Context `{L : Locale} `{H : Hash} `{F : Formats} `{A : Aead} (cipher : list Z * string).
(** [written]: the values that the service sealed, by their version *)
Record system := Sys { tables : secrets_db; written : list (string * string) }.
Definition log_new (id value : string) (d d' : secrets_db) (w : list (string * string)) : list (string * string) :=
  match versions d !! id, versions d' !! id with None, Some _ => (id, value) :: w | _, _ => w end.
Definition number_key (id : string) : sequence_key := ("SECRET_VERSION", id, "VERSION_NUMBER").
Definition last_number (id : string) d : Z := default 0 (allocators (events d) !! number_key id).
(** Everything else in the platform *)
Definition elsewhere d d' : Prop :=
  records d' = records d /\ versions d' = versions d /\ credential d' = credential d /\ bindings d' = bindings d /\ forall id, last_number id d' = last_number id d.

Inductive step : system -> system -> Prop :=
| st_create i id versionId nonce c d d' w :
    create_txn i id versionId (encrypt cipher nonce (se_value i) (associated_data id versionId (se_stableName i))) c d = Ok d' ->
    step (Sys d w) (Sys d' (log_new versionId (se_value i) d d' w))
| st_add id value state c activate versionId nonce d r d' w : addVersion cipher id value state c activate versionId nonce d = Ok (r, d') -> step (Sys d w) (Sys d' (log_new versionId value d d' w))
| st_update id input state c d r d' w : update id input state c d = Ok (r, d') -> step (Sys d w) (Sys d' w)
| st_delete id state c d r d' w : softDelete id state c d = Ok (r, d') -> step (Sys d w) (Sys d' w)
| st_reveal id c d r d' w : reveal cipher id c d = Ok (r, d') -> step (Sys d w) (Sys d' w)
| st_use a alias purpose operation correlation resolutionId logical now d r d' w :
    revealForRuntimeBinding cipher a alias purpose operation correlation resolutionId logical now d = Ok (r, d') -> step (Sys d w) (Sys d' w)
| st_ensure id versionId random nonce c d r d' w : ensureOwnerApiKey cipher id versionId random nonce c d = Ok (r, d') -> step (Sys d w) (Sys d' (log_new versionId (api_key_value random) d d' w))
| st_rotate_key state c versionId random nonce d r d' w :
    rotateOwnerApiKey cipher state c versionId random nonce d = Ok (r, d') -> step (Sys d w) (Sys d' (log_new versionId (api_key_value random) d d' w))
| st_handle_rotate c d r d' w : handleSecretRotate c d = Ok (r, d') -> step (Sys d w) (Sys d' w)
| st_handle_activate c d r d' w : handleSecretVersionActivate c d = Ok (r, d') -> step (Sys d w) (Sys d' w)
| st_handle_create c id d r d' w : handleSecretVersionCreate c id d = Ok (r, d') -> step (Sys d w) (Sys d' w)
| st_handle_bind c id d r d' w : handleSecretBind c id d = Ok (r, d') -> step (Sys d w) (Sys d' w)
| st_handle_unbind c d r d' w : handleSecretUnbind c d = Ok (r, d') -> step (Sys d w) (Sys d' w)
| st_handle_key_reveal c time d r d' w : handleOwnerApiKeyReveal c time d = Ok (r, d') -> step (Sys d w) (Sys d' w)
| st_handle_key_rotate c d r d' w : handleOwnerApiKeyRotate c d = Ok (r, d') -> step (Sys d w) (Sys d' w)
| st_elsewhere d d' w : elsewhere d d' -> step (Sys d w) (Sys d' w).
(** No secret yet *)
Definition initial (s : system) : Prop :=
  records (tables s) = ∅ /\ versions (tables s) = ∅ /\ bindings (tables s) = ∅ /\ written s = [] /\
  match credential (tables s) with Some k => cd_secret k = None | None => True end.
Definition reachable (s : system) : Prop := exists s0, initial s0 /\ star step s0 s.

(** *** What the parts of an operation change *)

(** The tables of the secrets, whatever is logged *)
Record same_core d d' : Prop := {
  co_records : records d' = records d; co_versions : versions d' = versions d; co_credential : credential d' = credential d; co_bindings : bindings d' = bindings d;
  co_platform : platform d' = platform d; co_numbers : forall id, last_number id d' = last_number id d;
}.
Lemma same_core_refl d : same_core d d.
Proof. by split. Qed.
Lemma same_core_trans d1 d2 d3 : same_core d1 d2 -> same_core d2 d3 -> same_core d1 d3.
Proof. intros [] []. split; congruence. Qed.
Lemma same_core_log d log : same_core d (set_events {| outbox := outbox (events d); allocators := allocators (events d); audit_log := log |} d).
Proof. by split. Qed.
Lemma same_core_evidence d r a : same_core d (set_evidence r a d).
Proof. by split. Qed.
Lemma append_event_core type p d d' : append_event type p d = Ok d' -> same_core d d'.
Proof. unfold append_event. intros E. inv_ok. subst d'. apply same_core_log. Qed.
Lemma handler_event_core c p d d' : handler_event c p d = Ok d' -> same_core d d'.
Proof. unfold handler_event. intros E. inv_ok. subst d'. apply same_core_log. Qed.
Lemma allocated k t n t' : allocateContiguousSequence k t = Ok (n, t') -> n = default 0 (t !! k) + 1 /\ forall k', default 0 (t' !! k') = if bool_decide (k' = k) then n else default 0 (t !! k').
Proof.
  intros E. apply allocate_Ok in E as (Hn & Hk & Ho). split; [exact Hn|]. intros k'. case_bool_decide as Hd; [subst k'; by rewrite Hk | by rewrite Ho].
Qed.
Lemma outbox_core id type p d d' : appendSecretOutbox id type p d = Ok d' -> same_core d d'.
Proof.
  unfold appendSecretOutbox. intros E. apply bind_Ok_inv in E as ([n al] & Ha & E). injection E as <-. apply allocated in Ha as [_ Ha]. split; try done.
  intros i. unfold last_number. cbn. rewrite Ha. by rewrite bool_decide_eq_false_2.
Qed.
Lemma record_event_core id type p d d' : record_event id type p d = Ok d' -> same_core d d'.
Proof. unfold record_event. intros E. apply bind_Ok_inv in E as (d1 & H1 & E). eapply same_core_trans; [by eapply outbox_core | by eapply append_event_core]. Qed.
Lemma insert_access_core x d d' : insert_access x d = Ok d' -> same_core d d'.
Proof. unfold insert_access. intros E. inv_ok. subst d'. apply same_core_evidence. Qed.
Lemma record_reveal_core id v f c d d' : record_reveal id v f c d = Ok d' -> same_core d d'.
Proof. unfold record_reveal. intros E. apply bind_Ok_inv in E as (d1 & H1 & E). eapply same_core_trans; [by eapply insert_access_core | by eapply append_event_core]. Qed.
Lemma record_use_core a alias p o co ri lo now x d d' : record_use a alias p o co ri lo now x d = Ok d' -> same_core d d'.
Proof.
  unfold record_use. intros E. apply bind_Ok_inv in E as (d1 & H1 & E). apply bind_Ok_inv in E as (d2 & H2 & E).
  unfold insert_resolution in H1. inv_ok. subst d1. eapply same_core_trans; [apply same_core_evidence|]. eapply same_core_trans; [by eapply insert_access_core | by eapply append_event_core].
Qed.
Lemma reveal_core id c d r d' : reveal cipher id c d = Ok (r, d') -> same_core d d'.
Proof.
  unfold reveal. intros E. apply bind_Ok_inv in E as (? & _ & E). apply bind_Ok_inv in E as ([[r0 i] v] & _ & E). apply bind_Ok_inv in E as (d1 & H1 & E). inv_ok. simplify_eq.
  by eapply record_reveal_core.
Qed.
Lemma use_core a alias p o co ri lo now d r d' : revealForRuntimeBinding cipher a alias p o co ri lo now d = Ok (r, d') -> same_core d d'.
Proof.
  unfold revealForRuntimeBinding. intros E. do 4 (apply bind_Ok_inv in E as (? & _ & E)). destruct (authorized_rows _ _ _ _ _ _) as [|x' [|? ?]]; try discriminate E.
  apply bind_Ok_inv in E as (? & _ & E). apply bind_Ok_inv in E as (d1 & H1 & E). inv_ok. simplify_eq. by eapply record_use_core.
Qed.

(** *** The invariant *)

(** The row of a version holds the value, sealed for its secret under its name. *)
Definition holds_value (i value name : string) (x : version_row) : Prop :=
  exists nonce, let e := encrypt cipher nonce value (associated_data (sv_secret x) i name) in
    sv_ciphertext x = ciphertext e /\ sv_nonce x = env_nonce e /\ sv_tag x = authTag e /\ sv_fingerprint x = env_fingerprint e.
Record sound (d : secrets_db) (w : list (string * string)) : Prop := {
  so_secret : forall i x, versions d !! i = Some x -> is_Some (records d !! sv_secret x);
  so_active : forall id r i, records d !! id = Some r -> sc_active_version_id r = Some i ->
    exists x, versions d !! i = Some x /\ sv_secret x = id /\ sv_lifecycle x = V_ACTIVE /\ 0 < sc_epoch r;
  so_only : forall i x, versions d !! i = Some x -> sv_lifecycle x = V_ACTIVE -> exists r, records d !! sv_secret x = Some r /\ sc_active_version_id r = Some i;
  so_row : forall id r, records d !! id = Some r -> 0 <= sc_epoch r /\ activeLifecycleConsistent r = true;
  so_written : forall i value, (i, value) ∈ w -> exists x r, versions d !! i = Some x /\ records d !! sv_secret x = Some r /\ holds_value i value (sc_stable_name r) x;
  so_key : forall k id, credential d = Some k -> cd_secret k = Some id -> exists r, records d !! id = Some r /\ sc_stable_name r = OWNER_KEY;
  so_bindings : forall i b, bindings d !! i = Some b -> bi_stable_key b = None;
}.
Lemma sound_core d d' w : same_core d d' -> sound d w -> sound d' w.
Proof. intros [E1 E2 E3 E4 _ _] []. split; rewrite ?E1, ?E2, ?E3, ?E4; done. Qed.
(** A change of a record that leaves its name, and keeps or checks its activation *)
Lemma sound_put id r r' d w : sound d w -> records d !! id = Some r -> sc_stable_name r' = sc_stable_name r -> sc_active_version_id r' = sc_active_version_id r ->
  sc_epoch r <= sc_epoch r' -> activeLifecycleConsistent r' = true -> sound (put_record id r' d) w.
Proof.
  intros [S1 S2 S3 S4 S5 S6 S7] Hr En Ea Ee El. assert (G : forall i r0, records (put_record id r' d) !! i = Some r0 -> exists r1, records d !! i = Some r1 /\
    sc_stable_name r0 = sc_stable_name r1 /\ sc_active_version_id r0 = sc_active_version_id r1 /\ sc_epoch r1 <= sc_epoch r0 /\ (activeLifecycleConsistent r1 = true -> activeLifecycleConsistent r0 = true)).
  { intros i r0. cbn. rewrite lookup_insert_Some. intros [[<- <-]|[_ H0]]; [exists r | exists r0]; split_and!; try done; lia. }
  assert (B : forall i r1, records d !! i = Some r1 -> exists r0, records (put_record id r' d) !! i = Some r0 /\ sc_stable_name r0 = sc_stable_name r1 /\ sc_active_version_id r0 = sc_active_version_id r1).
  { intros i r1 H1. cbn. destruct (decide (i = id)) as [->|]; [rewrite lookup_insert_eq; simplify_eq; eauto | rewrite lookup_insert_ne by done; eauto]. }
  split; cbn -[put_record].
  - intros i x Hx. destruct (S1 i x Hx) as [r1 H1]. destruct (B _ _ H1) as (r0 & H0 & _). by exists r0.
  - intros i r0 v H0 Hv. destruct (G _ _ H0) as (r1 & H1 & _ & E1 & E2 & _). rewrite E1 in Hv. destruct (S2 _ _ _ H1 Hv) as (x & ? & ? & ? & ?). exists x. split_and!; try done. lia.
  - intros i x Hx Hl. destruct (S3 i x Hx Hl) as (r1 & H1 & E1). destruct (B _ _ H1) as (r0 & H0 & _ & E0). exists r0. split; [done | congruence].
  - intros i r0 H0. destruct (G _ _ H0) as (r1 & H1 & _ & _ & E2 & E3). destruct (S4 _ _ H1). split; [lia | auto].
  - intros i v Hi. destruct (S5 i v Hi) as (x & r1 & Hx & H1 & Hv). destruct (B _ _ H1) as (r0 & H0 & E0 & _). exists x, r0. split_and!; try done. by rewrite E0.
  - intros k i Hk Hi. destruct (S6 k i Hk Hi) as (r1 & H1 & E1). destruct (B _ _ H1) as (r0 & H0 & E0 & _). exists r0. split; [done | congruence].
  - exact S7.
Qed.
Lemma sound_insert_record id r d d' w : sound d w -> insert_record id r d = Ok d' -> sc_active_version_id r = None -> 0 <= sc_epoch r -> activeLifecycleConsistent r = true ->
  sound d' w /\ records d !! id = None /\ d' = set_records (<[id := r]> (records d)) d.
Proof.
  intros [S1 S2 S3 S4 S5 S6 S7] E Ea Ee El. unfold insert_record in E. inv_ok. subst d'. match goal with Hx : (_ || _) = false, Hy : (is_some _ || _) = false |- _ => apply orb_false_iff in Hy as [Hn _] end.
  destruct (records d !! id) eqn:Hr; [discriminate Hn|]. split; [|done].
  assert (B : forall i r1, records d !! i = Some r1 -> <[id := r]> (records d) !! i = Some r1) by (intros i r1 H1; rewrite lookup_insert_ne; [done | congruence]).
  split; cbn.
  - intros i x Hx. destruct (S1 i x Hx) as [r1 H1]. rewrite (B _ _ H1). eauto.
  - intros i r0 v H0 Hv. apply lookup_insert_Some in H0 as [[<- <-]|[_ H0]]; [congruence | eauto].
  - intros i x Hx Hl. destruct (S3 i x Hx Hl) as (r1 & H1 & E1). eauto.
  - intros i r0 H0. apply lookup_insert_Some in H0 as [[<- <-]|[_ H0]]; [done | eauto].
  - intros i v Hi. destruct (S5 i v Hi) as (x & r1 & Hx & H1 & Hv). exists x, r1. eauto.
  - intros k i Hk Hi. destruct (S6 k i Hk Hi) as (r1 & H1 & E1). eauto.
  - exact S7.
Qed.
Lemma insert_version_Ok i x d d' : insert_version i x d = Ok d' ->
  versions d !! i = None /\ is_Some (records d !! sv_secret x) /\ d' = set_versions (<[i := x]> (versions d)) d /\
  forall j y, versions d !! j = Some y -> sv_secret y = sv_secret x -> sv_number y <> sv_number x.
Proof.
  unfold insert_version. intros E. inv_ok. subst d'. repeat match goal with Hx : (_ || _) = false |- _ => apply orb_false_iff in Hx as [? ?] end.
  split_and!; try done; [by destruct (versions d !! i) | by destruct (records d !! sv_secret x)|].
  intros j y Hy Es En. match goal with Hx : existsb _ (map_to_list (versions d)) = false |- _ => rewrite <- not_true_iff_false in Hx; apply Hx end.
  apply existsb_exists. exists (j, y). split; [by apply list_elem_of_In, elem_of_map_to_list|]. by rewrite Es, En, String.eqb_refl, Z.eqb_refl.
Qed.
Lemma sound_insert_version i x d d' w : sound d w -> insert_version i x d = Ok d' -> sv_lifecycle x = V_CREATED -> sound d' w.
Proof.
  intros [S1 S2 S3 S4 S5 S6 S7] E Hl. apply insert_version_Ok in E as (Hn & Hs & -> & _).
  assert (B : forall j y, versions d !! j = Some y -> <[i := x]> (versions d) !! j = Some y) by (intros j y H1; rewrite lookup_insert_ne; [done | congruence]).
  split; cbn.
  - intros j y Hy. apply lookup_insert_Some in Hy as [[<- <-]|[_ Hy]]; eauto.
  - intros id r v Hr Hv. destruct (S2 _ _ _ Hr Hv) as (y & ? & ? & ? & ?). exists y. eauto.
  - intros j y Hy Hy'. apply lookup_insert_Some in Hy as [[<- <-]|[_ Hy]]; [congruence | eauto].
  - exact S4.
  - intros j v Hj. destruct (S5 j v Hj) as (y & r1 & Hy & H1 & Hv). exists y, r1. eauto.
  - exact S6.
  - exact S7.
Qed.
(** The log of a new version *)
Lemma sound_log i value x r d w : sound d w -> versions d !! i = Some x -> records d !! sv_secret x = Some r -> holds_value i value (sc_stable_name r) x -> sound d ((i, value) :: w).
Proof.
  intros [S1 S2 S3 S4 S5 S6 S7] Hx Hr Hv. split; try done. intros j v Hj. apply list_elem_of_In in Hj as [[= <- <-]|Hj]; [eauto | apply S5; by apply list_elem_of_In].
Qed.

(** *** Changing the lifecycle of versions *)

Lemma move_Ok i from to op d b d' : move_version i from to op d = Ok (b, d') ->
  (b = false /\ d' = d /\ forall x, versions d !! i = Some x -> sv_lifecycle x <> from) \/
  (b = true /\ exists x, versions d !! i = Some x /\ sv_lifecycle x = from /\ d' = set_versions (<[i := with_lifecycle to (op x) x]> (versions d)) d /\
                         (to = V_ACTIVE -> other_active (sv_secret x) i d = false)).
Proof.
  unfold move_version. intros E. destruct (versions d !! i) as [x|] eqn:Hx; [|left; injection E as <- <-; split_and!; congruence].
  destruct (bool_decide (sv_lifecycle x = from)) eqn:Hf; cbn in E.
  - apply bool_decide_eq_true in Hf. apply bind_Ok_inv in E as ([] & _ & E). apply bind_Ok_inv in E as ([] & Ho & E). apply throw_if_Ok in Ho. injection E as <- <-.
    right. split; [done|]. exists x. split_and!; try done. intros ->. by rewrite bool_decide_eq_true_2 in Ho.
  - apply bool_decide_eq_false in Hf. injection E as <- <-. left. split_and!; congruence.
Qed.
(** The rows of the versions keep all but their lifecycle; nothing else changes. *)
Record relabeled d d' : Prop := {
  rl_records : records d' = records d; rl_credential : credential d' = credential d; rl_bindings : bindings d' = bindings d; rl_platform : platform d' = platform d;
  rl_events : events d' = events d;
  rl_forward : forall j y, versions d !! j = Some y -> exists l o, versions d' !! j = Some (with_lifecycle l o y);
  rl_backward : forall j z, versions d' !! j = Some z -> exists y, versions d !! j = Some y;
}.
Lemma relabeled_refl d : relabeled d d.
Proof. split; try done; [intros j y Hy; exists (sv_lifecycle y), (sv_operation y); by destruct y | eauto]. Qed.
Lemma relabeled_trans d1 d2 d3 : relabeled d1 d2 -> relabeled d2 d3 -> relabeled d1 d3.
Proof.
  intros [] []. split; try congruence.
  - intros j y Hy. destruct (rl_forward0 j y Hy) as (l & o & H2). destruct (rl_forward1 _ _ H2) as (l' & o' & H3). by exists l', o'.
  - intros j z Hz. destruct (rl_backward1 j z Hz) as [y Hy]. eauto.
Qed.
Lemma move_relabels i from to op d b d' : move_version i from to op d = Ok (b, d') -> relabeled d d'.
Proof.
  intros [(_ & -> & _)|(_ & x & Hx & _ & -> & _)]%move_Ok; [apply relabeled_refl|]. split; try done.
  - intros j y Hy. cbn. destruct (decide (j = i)) as [->|Hn]; [rewrite lookup_insert_eq; simplify_eq; eauto|]. rewrite lookup_insert_ne by done.
    exists (sv_lifecycle y), (sv_operation y). by destruct y.
  - intros j z Hz. cbn in Hz. apply lookup_insert_Some in Hz as [[<- _]|[_ Hz]]; eauto.
Qed.
Lemma retire_opt_relabels (old : option string) d b d' : (match old with Some v => retire_version v d | None => Ok (false, d) end) = Ok (b, d') -> relabeled d d'.
Proof. destruct old; [apply move_relabels | intros [= <- <-]; apply relabeled_refl]. Qed.
Lemma switch_relabels old i lo d d' : switch_version old i lo d = Ok d' -> relabeled d d'.
Proof.
  unfold switch_version. intros E. apply bind_Ok_inv in E as ([b1 d1] & H1 & E). apply bind_Ok_inv in E as ([b2 d2] & H2 & E). injection E as <-.
  eapply relabeled_trans; [by eapply retire_opt_relabels | by eapply move_relabels].
Qed.
(** After a switch the new version is active, the old one is not, and the others are as they were. *)
Lemma switch_lifecycles old i lo x d d' : switch_version old i lo d = Ok d' -> versions d !! i = Some x -> sv_lifecycle x = V_CREATED ->
  (forall o, old = Some o -> exists y, versions d !! o = Some y /\ sv_lifecycle y = V_ACTIVE) ->
  versions d' !! i = Some (with_lifecycle V_ACTIVE (Some lo) x) /\
  forall j, j <> i -> match versions d' !! j with
                      | Some z => exists y, versions d !! j = Some y /\ if bool_decide (old = Some j) then z = with_lifecycle V_RETIRED (sv_operation y) y else z = y
                      | None => versions d !! j = None end.
Proof.
  unfold switch_version. intros E Hx Hl Ho. apply bind_Ok_inv in E as ([b1 d1] & H1 & E). apply bind_Ok_inv in E as ([b2 d2] & H2 & E). injection E as <-.
  assert (G : forall j, match versions d1 !! j with Some z => exists y, versions d !! j = Some y /\ if bool_decide (old = Some j) then z = with_lifecycle V_RETIRED (sv_operation y) y else z = y
                        | None => versions d !! j = None end).
  { destruct old as [o|].
    - destruct (Ho o eq_refl) as (y & Hy & Hya). apply move_Ok in H1 as [(_ & _ & Hn)|(_ & y' & Hy' & _ & -> & _)]; [by destruct (Hn _ Hy)|]. assert (y' = y) as -> by congruence. intros j. cbn.
      destruct (decide (j = o)) as [->|Hj]; [rewrite lookup_insert_eq; exists y; by rewrite bool_decide_eq_true_2|]. rewrite lookup_insert_ne by done.
      destruct (versions d !! j) as [z|]; [|done]. exists z. rewrite bool_decide_eq_false_2 by congruence. done.
    - injection H1 as <- <-. intros j. destruct (versions d !! j) as [z|]; [|done]. exists z. by rewrite bool_decide_eq_false_2. }
  assert (Hi : versions d1 !! i = Some x).
  { specialize (G i). destruct (versions d1 !! i) as [z|]; [|congruence]. destruct G as (y & Hy & G). simplify_eq. case_bool_decide as Hd; [|by subst].
    destruct (Ho _ Hd) as (y' & Hy' & ?). congruence. }
  apply move_Ok in H2 as [(_ & _ & Hn)|(_ & x' & Hx' & _ & -> & _)]; [by destruct (Hn _ Hi)|]. assert (x' = x) as -> by congruence. cbn. split; [apply lookup_insert_eq|].
  intros j Hj. rewrite lookup_insert_ne by done. apply G.
Qed.
Lemma holds_value_relabel i v n l o y : holds_value i v n y -> holds_value i v n (with_lifecycle l o y).
Proof. done. Qed.
(** The record is pointed to the version that was switched to. *)
Lemma sound_switch id r i x lo epoch state d d' w : sound d w -> records d !! id = Some r -> versions d !! i = Some x -> sv_secret x = id -> sv_lifecycle x = V_CREATED ->
  switch_version (sc_active_version_id r) i lo d = Ok d' -> 0 < epoch -> sound (put_record id (with_active (Some i) epoch state r) d') w.
Proof.
  intros S Hr Hx Hs Hl E He. pose proof (switch_relabels _ _ _ _ _ E) as [R1 R2 R3 R4 R5 R6 R7].
  assert (Ho : forall o, sc_active_version_id r = Some o -> exists y, versions d !! o = Some y /\ sv_lifecycle y = V_ACTIVE).
  { intros o Ha. destruct (so_active _ _ S _ _ _ Hr Ha) as (y & ? & _ & ? & _). eauto. }
  destruct (switch_lifecycles _ _ _ _ _ _ E Hx Hl Ho) as [Hi Hj]. destruct S as [S1 S2 S3 S4 S5 S6 S7].
  set (r' := with_active (Some i) epoch state r).
  assert (B : forall j r0, records d !! j = Some r0 -> exists r1, <[id := r']> (records d) !! j = Some r1 /\ sc_stable_name r1 = sc_stable_name r0).
  { intros j r0 H0. destruct (decide (j = id)) as [->|]; [rewrite lookup_insert_eq; simplify_eq; by exists r' | rewrite lookup_insert_ne by done; eauto]. }
  split; cbn; rewrite ?R1, ?R2, ?R3.
  - intros j z Hz. destruct (R7 _ _ Hz) as [y Hy]. destruct (R6 _ _ Hy) as (l & o & Hz'). rewrite Hz in Hz'. injection Hz' as ->. destruct (S1 _ _ Hy) as [r0 H0]. destruct (B _ _ H0) as (r1 & H1 & _). by exists r1.
  - intros j r0 v H0 Hv. apply lookup_insert_Some in H0 as [[<- <-]|[Hn H0]].
    + injection Hv as <-. rewrite Hi. eexists. split; [done|]. by split_and!.
    + destruct (S2 _ _ _ H0 Hv) as (y & Hy & Es & El & ?). assert (v <> i) by (intros ->; congruence). specialize (Hj v ltac:(done)).
      destruct (R6 _ _ Hy) as (l & o & Hz). rewrite Hz in Hj |- *. destruct Hj as (y' & Hy' & Hj). simplify_eq. case_bool_decide as Hd; [|rewrite Hj; eauto].
      destruct (S2 _ _ _ Hr Hd) as (y2 & ? & ? & _). simplify_eq.
  - intros j z Hz Hza. destruct (decide (j = i)) as [->|Hn].
    + rewrite Hi in Hz. injection Hz as <-. cbn. rewrite Hs, lookup_insert_eq. by exists r'.
    + specialize (Hj j Hn). rewrite Hz in Hj. destruct Hj as (y & Hy & Hj). case_bool_decide as Hd; [subst z; discriminate Hza|]. subst z.
      destruct (S3 _ _ Hy Hza) as (r0 & H0 & Ha). assert (sv_secret y <> id) by (intros Hsy; rewrite Hsy in H0; simplify_eq; congruence). exists r0. by rewrite lookup_insert_ne.
  - intros j r0 H0. apply lookup_insert_Some in H0 as [[<- <-]|[_ H0]]; [|eauto]. destruct (S4 _ _ Hr). split; [cbn; lia | done].
  - intros j v Hj'. destruct (S5 _ _ Hj') as (y & r0 & Hy & H0 & Hv). destruct (R6 _ _ Hy) as (l & o & Hz). destruct (B _ _ H0) as (r1 & H1 & E1).
    exists (with_lifecycle l o y), r1. split_and!; [done | done|]. rewrite E1. by apply holds_value_relabel.
  - intros k s Hk Hks. destruct (S6 _ _ Hk Hks) as (r0 & H0 & E0). destruct (B _ _ H0) as (r1 & H1 & E1). exists r1. split; [done | congruence].
  - exact S7.
Qed.

(** *** The operations keep the invariant *)

Lemma sound_events t d w : sound d w -> sound (set_events t d) w.
Proof. by intros []. Qed.
Lemma next_number_Ok id d n d' : next_number id d = Ok (n, d') -> n = last_number id d + 1 /\ (exists t, d' = set_events t d) /\ forall j, last_number j d' = if bool_decide (j = id) then n else last_number j d.
Proof.
  unfold next_number. intros E. apply bind_Ok_inv in E as ([m al] & Ha & E). injection E as <- <-. apply allocated in Ha as [Hn Ha]. split; [exact Hn|]. split; [eauto|].
  intros j. unfold last_number at 1. cbn. rewrite Ha. unfold number_key. case_bool_decide as H1; case_bool_decide as H2; try done; congruence.
Qed.
Lemma write_version_Ok id i e by_ d n d' : write_version id i e by_ d = Ok (n, d') ->
  n = last_number id d + 1 /\ versions d !! i = None /\ is_Some (records d !! id) /\ (exists t, d' = set_versions (<[i := sealed_row id n e by_]> (versions d)) (set_events t d)) /\
  (forall j, last_number j d' = if bool_decide (j = id) then n else last_number j d) /\ (forall j y, versions d !! j = Some y -> sv_secret y = id -> sv_number y <> n).
Proof.
  unfold write_version. intros E. apply bind_Ok_inv in E as ([m d1] & H1 & E). apply bind_Ok_inv in E as (d2 & H2 & E). injection E as <- <-.
  apply next_number_Ok in H1 as (Hn & [t ->] & Hl). apply insert_version_Ok in H2 as (Hv & Hr & -> & Hd). cbn in *. split_and!; try done. by exists t.
Qed.
Lemma sound_write id i e by_ d n d' w : sound d w -> write_version id i e by_ d = Ok (n, d') -> sound d' w.
Proof.
  intros S. unfold write_version. intros E. apply bind_Ok_inv in E as ([m d1] & H1 & E). apply bind_Ok_inv in E as (d2 & H2 & E). injection E as <- <-.
  apply next_number_Ok in H1 as (_ & [t ->] & _). eapply sound_insert_version; [by apply sound_events | exact H2 | done].
Qed.
Lemma sealed_holds id i name value nonce n by_ : holds_value i value name (sealed_row id n (encrypt cipher nonce value (associated_data id i name)) by_).
Proof. exists nonce. by split_and!. Qed.
Lemma bump_Ok z n : bump z = Ok n -> n = z + 1.
Proof. unfold bump. intros E. inv_ok. congruence. Qed.
(** Writing, switching and pointing together *)
Lemma sound_install id r i value nonce by_ lo epoch state d n d1 d2 d' w :
  sound d w -> records d !! id = Some r ->
  write_version id i (encrypt cipher nonce value (associated_data id i (sc_stable_name r))) by_ d = Ok (n, d1) ->
  switch_version (sc_active_version_id r) i lo d1 = Ok d2 -> 0 < epoch -> d' = put_record id (with_active (Some i) epoch state r) d2 ->
  sound d' ((i, value) :: w) /\ versions d !! i = None /\ is_Some (versions d' !! i) /\ records d' !! id = Some (with_active (Some i) epoch state r) /\
  records d2 = records d /\ credential d2 = credential d /\ bindings d2 = bindings d.
Proof.
  intros S Hr Hw Hs He ->. pose proof (sound_write _ _ _ _ _ _ _ _ S Hw) as S1. apply write_version_Ok in Hw as (_ & Hn & _ & [t ->] & _).
  set (x := sealed_row id n _ by_) in *. pose proof (sound_switch id r i x lo epoch state _ d2 w S1 Hr (lookup_insert_eq _ _ _) eq_refl eq_refl Hs He) as S2.
  pose proof (switch_relabels _ _ _ _ _ Hs) as [R1 R2 R3 R4 R5 R6 R7]. destruct (R6 i x (lookup_insert_eq _ _ _)) as (l & o & Hx). split_and!; try done.
  - eapply (sound_log i value (with_lifecycle l o x) (with_active (Some i) epoch state r)); [exact S2 | exact Hx | apply lookup_insert_eq | apply holds_value_relabel, sealed_holds].
  - apply lookup_insert_eq.
Qed.
Lemma log_new_eq i v d d' w : versions d !! i = None -> is_Some (versions d' !! i) -> log_new i v d d' w = (i, v) :: w.
Proof. unfold log_new. intros -> [x ->]. done. Qed.
Lemma log_none i v d d' w : versions d' = versions d -> log_new i v d d' w = w.
Proof. unfold log_new. intros ->. by destruct (versions d !! i). Qed.
Lemma same_core_some d d' i : same_core d d' -> versions d' !! i = versions d !! i.
Proof. by intros [_ -> _ _ _ _]. Qed.
Lemma live_Ok id d r e : or_throw (live id d) e = Ok r -> records d !! id = Some r /\ sc_deleted r = false.
Proof. intros E. apply or_throw_Ok in E. unfold live in E. destruct (records d !! id) as [r0|]; [|done]. destruct (sc_deleted r0) eqn:Hd; [done|]. by injection E as ->. Qed.
Lemma sound_create i id vid nonce c d d' w : sound d w -> create_txn i id vid (encrypt cipher nonce (se_value i) (associated_data id vid (se_stableName i))) c d = Ok d' ->
  sound d' (log_new vid (se_value i) d d' w).
Proof.
  intros S E. unfold create_txn in E. apply bind_Ok_inv in E as (h & _ & E). apply bind_Ok_inv in E as (d1 & H1 & E). apply bind_Ok_inv in E as ([n d2] & H2 & E).
  apply bind_Ok_inv in E as (d3 & H3 & E). apply bind_Ok_inv in E as (r' & Hr' & E). apply or_throw_Ok in Hr'.
  destruct (sound_insert_record _ _ _ _ _ S H1) as (S1 & _ & ->); [done | cbn; lia | done|]. cbv zeta in E. apply record_event_core in E.
  pose proof (switch_relabels _ _ _ _ _ H3) as R. pose proof (write_version_Ok _ _ _ _ _ _ _ H2) as (_ & _ & _ & [t E2] & _).
  match type of S1 with sound (set_records (<[id := ?x]> _) _) _ => set (r := x) in * end.
  assert (r' = r) as -> by (rewrite (rl_records _ _ R), E2 in Hr'; cbn in Hr'; rewrite lookup_insert_eq in Hr'; congruence).
  edestruct (sound_install id r vid (se_value i) nonce (actorId c) (logicalOperationId c) 1 (sc_state_version r + 1)) as (S2 & Hn & Hs & _); [exact S1 | apply lookup_insert_eq | exact H2 | exact H3 | | reflexivity |]; [lia|].
  rewrite log_new_eq; [|exact Hn | by rewrite (same_core_some _ _ _ E)]. eapply sound_core; [exact E | exact S2].
Qed.
Lemma sound_add id value st c (activate : bool) vid nonce d r d' w : sound d w -> addVersion cipher id value st c activate vid nonce d = Ok (r, d') -> sound d' (log_new vid value d d' w).
Proof.
  intros S E. unfold addVersion in E. apply bind_Ok_inv in E as (h & _ & E). apply bind_Ok_inv in E as (row & Hr & E). apply live_Ok in Hr as [Hr Hd].
  apply bind_Ok_inv in E as ([] & _ & E). apply bind_Ok_inv in E as ([n d1] & H1 & E). apply bind_Ok_inv in E as ([state d2] & H2 & E).
  apply bind_Ok_inv in E as (r' & Hr' & E). apply or_throw_Ok in Hr'. apply bind_Ok_inv in E as (d3 & H3 & E). injection E as _ <-. apply record_event_core in H3.
  assert (K : sound d2 ((vid, value) :: w) /\ versions d !! vid = None /\ is_Some (versions d2 !! vid)).
  { destruct activate.
    - apply bind_Ok_inv in H2 as (d4 & H4 & H2). apply bind_Ok_inv in H2 as (ep & He & H2). apply bind_Ok_inv in H2 as (s1 & Hs & H2). injection H2 as <- <-. apply bump_Ok in He.
      destruct (so_row _ _ S _ _ Hr) as [Hep _]. edestruct (sound_install id row vid value nonce (actorId c) (logicalOperationId c) ep s1) as (S2 & Hn & Hs2 & _); [exact S | exact Hr | exact H1 | exact H4 | | reflexivity |]; [lia|]. done.
    - injection H2 as _ <-. pose proof (sound_write _ _ _ _ _ _ _ _ S H1) as S1. apply write_version_Ok in H1 as (_ & Hn & _ & [t ->] & _). split_and!; [|done | cbn; by rewrite lookup_insert_eq].
      eapply (sound_log vid value _ row); [exact S1 | apply lookup_insert_eq | exact Hr | apply sealed_holds]. }
  destruct K as (S2 & Hn & Hs). rewrite log_new_eq; [|exact Hn | by rewrite (same_core_some _ _ _ H3)]. eapply sound_core; [exact H3|].
  destruct (so_row _ _ S2 _ _ Hr'). eapply sound_put; [exact S2 | exact Hr' | done | done | cbn; lia | done].
Qed.
Lemma sound_update id input st c d r d' w : sound d w -> update id input st c d = Ok (r, d') -> sound d' w.
Proof.
  intros S E. unfold update in E. apply bind_Ok_inv in E as (h & _ & E). apply bind_Ok_inv in E as (row & Hr & E). apply live_Ok in Hr as [Hr _]. cbv zeta in E.
  apply bind_Ok_inv in E as ([] & _ & E). apply bind_Ok_inv in E as (s1 & _ & E). apply bind_Ok_inv in E as (d1 & H1 & E). injection E as _ <-. apply record_event_core in H1.
  destruct (so_row _ _ S _ _ Hr). eapply sound_core; [exact H1|]. eapply sound_put; [exact S | exact Hr | done | done | cbn; lia | done].
Qed.
Lemma sound_delete id st c d r d' w : sound d w -> softDelete id st c d = Ok (r, d') -> sound d' w.
Proof.
  intros S E. unfold softDelete in E. cbv zeta in E. apply bind_Ok_inv in E as (h & _ & E). apply bind_Ok_inv in E as (row & Hr & E). apply live_Ok in Hr as [Hr _].
  apply bind_Ok_inv in E as ([] & _ & E). apply bind_Ok_inv in E as (s1 & _ & E). apply bind_Ok_inv in E as (d1 & H1 & E). injection E as _ <-. apply record_event_core in H1.
  destruct (so_row _ _ S _ _ Hr). eapply sound_core; [exact H1|]. eapply sound_put; [exact S | exact Hr | done | done | cbn; lia | done].
Qed.
Lemma sound_credential k d w : sound d w -> (forall id, cd_secret k = Some id -> exists r, records d !! id = Some r /\ sc_stable_name r = OWNER_KEY) -> sound (set_credential (Some k) d) w.
Proof. intros [] Hk. split; try done. cbn. intros k0 id [= <-]. apply Hk. Qed.
Lemma sound_ensure id vid random nonce c d r d' w : sound d w -> ensureOwnerApiKey cipher id vid random nonce c d = Ok (r, d') -> sound d' (log_new vid (api_key_value random) d d' w).
Proof.
  intros S E. unfold ensureOwnerApiKey in E. apply bind_Ok_inv in E as (h & _ & E). apply bind_Ok_inv in E as (k & Hk & E). cbv zeta in E.
  destruct (_ && _); [injection E as _ <-; by rewrite log_none|].
  apply bind_Ok_inv in E as (d1 & H1 & E). apply bind_Ok_inv in E as ([n d2] & H2 & E). apply bind_Ok_inv in E as (d3 & H3 & E). apply bind_Ok_inv in E as (r' & Hr' & E). apply or_throw_Ok in Hr'.
  apply bind_Ok_inv in E as (s1 & _ & E). apply bind_Ok_inv in E as (d4 & H4 & E). injection E as _ <-. apply record_event_core in H4.
  destruct (sound_insert_record _ _ _ _ _ S H1) as (S1 & _ & ->); [done | cbn; lia | done|].
  pose proof (switch_relabels _ _ _ _ _ H3) as R. pose proof (write_version_Ok _ _ _ _ _ _ _ H2) as (_ & _ & _ & [t E2] & _).
  match type of S1 with sound (set_records (<[id := ?x]> _) _) _ => set (row := x) in * end.
  assert (r' = row) as -> by (rewrite (rl_records _ _ R), E2 in Hr'; cbn in Hr'; rewrite lookup_insert_eq in Hr'; congruence).
  edestruct (sound_install id row vid (api_key_value random) nonce (actorId c) (logicalOperationId c) 1 (sc_state_version row + 1)) as (S2 & Hn & Hs & Hrow & _); [exact S1 | apply lookup_insert_eq | exact H2 | exact H3 | | reflexivity |]; [lia|].
  rewrite log_new_eq; [|exact Hn | by rewrite (same_core_some _ _ _ H4)]. eapply sound_core; [exact H4|]. apply sound_credential; [exact S2|].
  intros i [= <-]. eexists. split; [exact Hrow | done].
Qed.
Lemma sound_rotate st c vid random nonce d r d' w : sound d w -> rotateOwnerApiKey cipher st c vid random nonce d = Ok (r, d') -> sound d' (log_new vid (api_key_value random) d d' w).
Proof.
  intros S E. unfold rotateOwnerApiKey in E. cbv zeta in E. apply bind_Ok_inv in E as (h & _ & E). apply bind_Ok_inv in E as (k & Hk & E). apply or_throw_Ok in Hk.
  apply bind_Ok_inv in E as (id & Hid & E). apply or_throw_Ok in Hid. apply bind_Ok_inv in E as ([] & _ & E). destruct (_ && _); [injection E as _ <-; by rewrite log_none|].
  apply bind_Ok_inv in E as (row & Hr & E). apply or_throw_Ok in Hr. apply bind_Ok_inv in E as ([n d1] & H1 & E). apply bind_Ok_inv in E as (d2 & H2 & E).
  apply bind_Ok_inv in E as (ep & He & E). apply bind_Ok_inv in E as (s1 & _ & E). do 3 (apply bind_Ok_inv in E as (? & _ & E)). apply bind_Ok_inv in E as (d3 & H3 & E). injection E as _ <-.
  apply record_event_core in H3. apply bump_Ok in He. destruct (so_row _ _ S _ _ Hr) as [Hep Hl]. destruct (so_key _ _ S _ _ Hk Hid) as (row' & Hrow' & Hname). assert (row' = row) as -> by congruence.
  rewrite <- Hname in H1. edestruct (sound_install id row vid (api_key_value random) nonce (actorId c) (logicalOperationId c) ep s1) as (S2 & Hn & Hs & Hrow & _); [exact S | exact Hr | exact H1 | exact H2 | lia | reflexivity |].
  rewrite log_new_eq; [|exact Hn | by rewrite (same_core_some _ _ _ H3)]. eapply sound_core; [exact H3|]. apply sound_credential.
  - eapply (sound_put id) in S2; [|exact Hrow | | | |].
    + unfold put_record in S2 |- *. cbn in S2 |- *. rewrite insert_insert_eq in S2. exact S2.
    + done.
    + done.
    + cbn. lia.
    + done.
  - intros i [= <-]. eexists. split; [cbn; apply lookup_insert_eq | exact Hname].
Qed.
Lemma sound_handle_rotate c d r d' w : sound d w -> handleSecretRotate c d = Ok (r, d') -> sound d' w.
Proof.
  intros S E. unfold handleSecretRotate in E. apply bind_Ok_inv in E as (id & _ & E). apply bind_Ok_inv in E as (row & Hr & E). apply or_throw_Ok in Hr.
  do 2 (apply bind_Ok_inv in E as ([] & _ & E)). apply bind_Ok_inv in E as (ep & He & E). apply bind_Ok_inv in E as (s1 & _ & E). cbv zeta in E.
  apply bind_Ok_inv in E as (d1 & H1 & E). injection E as _ <-. apply handler_event_core in H1. apply bump_Ok in He. destruct (so_row _ _ S _ _ Hr).
  eapply sound_core; [exact H1|]. eapply sound_put; [exact S | exact Hr | done | done | cbn; lia | done].
Qed.
(** The only version that the handler can activate is the first. *)
Lemma activate_vacant i lo x r d d' w : sound d w -> versions d !! i = Some x -> records d !! sv_secret x = Some r -> activate_version i lo d = Ok (true, d') ->
  sv_lifecycle x = V_CREATED /\ sc_active_version_id r = None.
Proof.
  intros S Hx Hr E. apply move_Ok in E as [[? _]|(_ & y & Hy & Hl & _ & Ho)]; [done|]. simplify_eq. split; [done|]. destruct (sc_active_version_id r) as [a|] eqn:Ha; [|done]. exfalso.
  destruct (so_active _ _ S _ _ _ Hr Ha) as (z & Hz & Hs & Hza & _). specialize (Ho eq_refl). rewrite <- not_true_iff_false in Ho. apply Ho. unfold other_active. apply existsb_exists. exists (a, z).
  split; [by apply list_elem_of_In, elem_of_map_to_list|]. rewrite Hs, String.eqb_refl, (bool_decide_eq_true_2 _ Hza). destruct (String.eqb_spec a i) as [->|]; [congruence | done].
Qed.
Lemma sound_handle_activate c d r d' w : sound d w -> handleSecretVersionActivate c d = Ok (r, d') -> sound d' w.
Proof.
  intros S E. unfold handleSecretVersionActivate in E. apply bind_Ok_inv in E as (i & _ & E). apply bind_Ok_inv in E as (x & Hx & E). apply or_throw_Ok in Hx.
  apply bind_Ok_inv in E as (row & Hr & E). apply or_throw_Ok in Hr. apply bind_Ok_inv in E as ([b d1] & H1 & E). apply bind_Ok_inv in E as ([] & Hb & E). apply throw_if_Ok, negb_false_iff in Hb. subst b.
  apply bind_Ok_inv in E as (ep & He & E). apply bind_Ok_inv in E as (s1 & _ & E). cbv zeta in E. apply bind_Ok_inv in E as (d2 & H2 & E). injection E as _ <-. apply handler_event_core in H2. apply bump_Ok in He.
  destruct (activate_vacant _ _ _ _ _ _ _ S Hx Hr H1) as [Hl Ha]. destruct (so_row _ _ S _ _ Hr) as [Hep _]. eapply sound_core; [exact H2|].
  eapply (sound_switch (sv_secret x) row i x (hc_logicalOperationId c) ep s1 d d1); [exact S | exact Hr | exact Hx | done | exact Hl | | lia]. rewrite Ha. unfold switch_version. cbn. by rewrite H1.
Qed.
Lemma sound_handle_create c id d r d' w : sound d w -> handleSecretVersionCreate c id d = Ok (r, d') -> sound d' w.
Proof.
  intros S E. unfold handleSecretVersionCreate in E. cbv zeta in E. do 5 (apply bind_Ok_inv in E as (? & _ & E)). apply bind_Ok_inv in E as (d1 & H1 & E). apply bind_Ok_inv in E as (d2 & H2 & E). injection E as _ <-.
  apply handler_event_core in H2. eapply sound_core; [exact H2|]. by eapply sound_insert_version.
Qed.
Lemma sound_put_binding i b d w : sound d w -> bi_stable_key b = None -> sound (set_bindings (<[i := b]> (bindings d)) d) w.
Proof. intros [] Hb. split; try done. cbn. intros j y Hy. apply lookup_insert_Some in Hy as [[_ <-]|[_ Hy]]; eauto. Qed.
Lemma sound_handle_bind c id d r d' w : sound d w -> handleSecretBind c id d = Ok (r, d') -> sound d' w.
Proof.
  intros S E. unfold handleSecretBind in E. cbv zeta in E. do 13 (apply bind_Ok_inv in E as (? & _ & E)). apply bind_Ok_inv in E as (d1 & H1 & E). injection E as _ <-.
  apply handler_event_core in H1. eapply sound_core; [exact H1|]. by apply sound_put_binding.
Qed.
Lemma sound_handle_unbind c d r d' w : sound d w -> handleSecretUnbind c d = Ok (r, d') -> sound d' w.
Proof.
  intros S E. unfold handleSecretUnbind in E. apply bind_Ok_inv in E as (i & _ & E). apply bind_Ok_inv in E as (b & Hb & E). apply or_throw_Ok in Hb. do 3 (apply bind_Ok_inv in E as (? & _ & E)).
  apply bind_Ok_inv in E as (d1 & H1 & E). injection E as _ <-. apply handler_event_core in H1. eapply sound_core; [exact H1|]. apply sound_put_binding; [done|]. exact (so_bindings _ _ S _ _ Hb).
Qed.
Lemma sound_key_row k k' d w : sound d w -> credential d = Some k -> cd_secret k' = cd_secret k -> sound (set_credential (Some k') d) w.
Proof. intros S Hk E. apply sound_credential; [done|]. intros id. rewrite E. by apply (so_key _ _ S). Qed.
Lemma sound_key_reveal c t d r d' w : sound d w -> handleOwnerApiKeyReveal c t d = Ok (r, d') -> sound d' w.
Proof.
  intros S E. unfold handleOwnerApiKeyReveal in E. apply bind_Ok_inv in E as (k & Hk & E). apply or_throw_Ok in Hk. apply bind_Ok_inv in E as (? & _ & E). apply bind_Ok_inv in E as (d1 & H1 & E). injection E as _ <-.
  apply handler_event_core in H1. eapply sound_core; [exact H1|]. by eapply sound_key_row.
Qed.
Lemma sound_key_rotate c d r d' w : sound d w -> handleOwnerApiKeyRotate c d = Ok (r, d') -> sound d' w.
Proof.
  intros S E. unfold handleOwnerApiKeyRotate in E. cbv zeta in E. apply bind_Ok_inv in E as (k & Hk & E). apply or_throw_Ok in Hk. do 3 (apply bind_Ok_inv in E as (? & _ & E)).
  apply bind_Ok_inv in E as (d1 & H1 & E). injection E as _ <-. apply handler_event_core in H1. eapply sound_core; [exact H1|]. by eapply sound_key_row.
Qed.
Lemma sound_initial s : initial s -> sound (tables s) (written s).
Proof.
  intros (E1 & E2 & E3 & E4 & Hk). split; rewrite ?E1, ?E2, ?E3, ?E4; try done.
  - intros i v Hi. by apply list_elem_of_In in Hi.
  - intros k id Hc Hs. rewrite Hc in Hk. congruence.
Qed.
Lemma step_sound s s' : sound (tables s) (written s) -> step s s' -> sound (tables s') (written s').
Proof.
  intros S St. destruct St as [i id vid nonce c d d' w E|id v st c a vid nonce d r d' w E|id input st c d r d' w E|id st c d r d' w E|id c d r d' w E|a al p o co ri lo now d r d' w E
    |id vid ra nonce c d r d' w E|st c vid ra nonce d r d' w E|c d r d' w E|c d r d' w E|c id d r d' w E|c id d r d' w E|c d r d' w E|c t d r d' w E|c d r d' w E|d d' w (E1 & E2 & E3 & E4 & _)]; cbn in *.
  - by eapply sound_create.
  - by eapply sound_add.
  - by eapply sound_update.
  - by eapply sound_delete.
  - eapply sound_core; [by eapply reveal_core | done].
  - eapply sound_core; [by eapply use_core | done].
  - by eapply sound_ensure.
  - by eapply sound_rotate.
  - by eapply sound_handle_rotate.
  - by eapply sound_handle_activate.
  - by eapply sound_handle_create.
  - by eapply sound_handle_bind.
  - by eapply sound_handle_unbind.
  - by eapply sound_key_reveal.
  - by eapply sound_key_rotate.
  - destruct S. split; rewrite ?E1, ?E2, ?E3, ?E4; done.
Qed.
Lemma reachable_sound s : reachable s -> sound (tables s) (written s).
Proof. intros (s0 & H0 & Hs). eapply (star_invariant _ (fun s => sound (tables s) (written s))); [intros x y; apply step_sound | by apply sound_initial | exact Hs]. Qed.

(** *** The reports *)

Lemma filter_one {X} (f : X -> bool) (l : list X) a : NoDup l -> a ∈ l -> f a = true -> (forall x, x ∈ l -> f x = true -> x = a) -> length (List.filter f l) = 1%nat.
Proof.
  intros Hn Ha Hf Hu. induction l as [|x l IH]; [by apply elem_of_nil in Ha|]. apply NoDup_cons in Hn as [Hx Hn]. cbn. destruct (f x) eqn:Ef.
  - assert (x = a) as -> by (apply Hu; [left | done]). cbn. f_equal. destruct (List.filter f l) as [|y l'] eqn:El; [done|]. exfalso.
    assert (Hy : List.In y (List.filter f l)) by (rewrite El; by left). apply List.filter_In in Hy as [Hy Hfy]. apply list_elem_of_In in Hy.
    rewrite (Hu y) in Hy; [done | by right | done].
  - apply elem_of_cons in Ha as [->|Ha]; [congruence|]. apply IH; [done | done|]. intros y Hy. apply Hu. by right.
Qed.
Lemma filter_empty {X} (f : X -> bool) (l : list X) : (forall x, x ∈ l -> f x = false) -> length (List.filter f l) = 0%nat.
Proof.
  intros Hf. destruct (List.filter f l) as [|y l'] eqn:El; [done|]. assert (Hy : List.In y (List.filter f l)) by (rewrite El; by left).
  apply List.filter_In in Hy as [Hy Hfy]. rewrite Hf in Hfy by (by apply list_elem_of_In). done.
Qed.
(** C28. The usage report of a secret never finds an issue of the service's making.  However the calls and the handlers
    interleave, a secret points to its one active version and no other version of it is active, a secret that has been
    activated has a positive activation epoch, and it is closed exactly when it is deleted. *)
Theorem usage_report_consistent s id r : reachable s -> records (tables s) !! id = Some r -> usage_checks id r (tables s) = true.
Proof.
  intros Hs Hr. pose proof (reachable_sound s Hs) as S. destruct (so_row _ _ S _ _ Hr) as [He Hl]. unfold usage_checks. rewrite Hl, andb_true_r. apply andb_true_iff. split.
  - unfold activePointerConsistent, count_active. destruct (sc_active_version_id r) as [i|] eqn:Ha.
    + destruct (so_active _ _ S _ _ _ Hr Ha) as (x & Hx & Hxs & Hxa & _). rewrite Hx, Hxs, String.eqb_refl, (bool_decide_eq_true_2 _ Hxa). cbn. apply Nat.eqb_eq.
      apply (filter_one _ _ (i, x)); [apply NoDup_map_to_list | by apply elem_of_map_to_list | by rewrite Hxs, String.eqb_refl, (bool_decide_eq_true_2 _ Hxa)|].
      intros [j y] Hy Hf. apply elem_of_map_to_list in Hy. apply andb_true_iff in Hf as [Hys Hya]. apply String.eqb_eq in Hys. apply bool_decide_eq_true in Hya.
      destruct (so_only _ _ S _ _ Hy Hya) as (r' & Hr' & Ha'). rewrite Hys in Hr'. assert (r' = r) as -> by congruence. congruence.
    + apply Nat.eqb_eq, filter_empty. intros [j y] Hy. apply elem_of_map_to_list in Hy. apply andb_false_iff. destruct (String.eqb_spec (sv_secret y) id) as [Hys|]; [right|by left].
      apply bool_decide_eq_false. intros Hya. destruct (so_only _ _ S _ _ Hy Hya) as (r' & Hr' & Ha'). rewrite Hys in Hr'. assert (r' = r) as -> by congruence. congruence.
  - unfold activationEpochConsistent. destruct (sc_active_version_id r) as [i|] eqn:Ha; [|lia]. destruct (so_active _ _ S _ _ _ Hr Ha) as (x & _ & _ & _ & ?). lia.
Qed.

(** *** Reading back *)

Lemma open_holds i value name x : holds_value i value name x -> open_version cipher (sv_secret x) i name x = Ok value /\ sv_fingerprint x = fingerprint value.
Proof.
  intros (nonce & E1 & E2 & E3 & E4). unfold open_version. rewrite E1, E2, E3, E4. split.
  - exact (decrypt_encrypt cipher nonce value (associated_data (sv_secret x) i name)).
  - unfold encrypt, fingerprint, tokenDigest. by destruct (seal _ _ _ _).
Qed.
Lemma active_Ok id d r i v : active_version id d = Some (r, i, v) -> records d !! id = Some r /\ sc_deleted r = false /\ sc_active_version_id r = Some i /\ versions d !! i = Some v /\ sv_lifecycle v = V_ACTIVE.
Proof.
  unfold active_version, live. intros E. destruct (records d !! id) as [r0|]; [|done]. destruct (sc_deleted r0) eqn:Hd; [done|]. cbn in E.
  destruct (sc_active_version_id r0) as [j|] eqn:Ha; [|done]. cbn in E. destruct (versions d !! j) as [x|] eqn:Hx; [|done]. cbn in E. case_bool_decide; [|done]. by injection E as <- <- <-.
Qed.
(** C27. What was stored is what is revealed.  Whatever happened since a value was sealed, once its version is the active
    one of its secret the owner reads exactly that value, with its fingerprint, whenever the access can be recorded:
    the ciphertext is bound to the secret, the version and a name that never change. *)
Theorem reveal_returns_written s id r i v value c h d' : reachable s -> active_version id (tables s) = Some (r, i, v) -> (i, value) ∈ written s ->
  lockAndVerifyPlatformRecovery (platform (tables s)) = Ok h -> record_reveal id i (fingerprint value) c (tables s) = Ok d' ->
  reveal cipher id c (tables s) = Ok ({| rv_value := value; rv_fingerprint := fingerprint value; rv_versionId := i |}, d').
Proof.
  intros Hs Hv Hw Hh He. pose proof (reachable_sound s Hs) as S. unfold reveal. rewrite Hh, Hv. cbn. apply active_Ok in Hv as (Hr & _ & Ha & Hx & _).
  destruct (so_active _ _ S _ _ _ Hr Ha) as (x & Hx' & Hxs & _). assert (x = v) as -> by congruence.
  destruct (so_written _ _ S _ _ Hw) as (x & r' & Hx2 & Hr' & Hval). assert (x = v) as -> by congruence. rewrite Hxs in Hr'. assert (r' = r) as -> by congruence.
  apply open_holds in Hval as [Ho Hf]. rewrite Hxs in Ho. rewrite Hf, He. cbn. by rewrite Ho.
Qed.

(** *** Behaviours that were not meant *)

Lemma target_Ok c i t : hc_targetId c = Some i -> target c = Ok t -> t = i.
Proof. unfold target. intros -> E. cbv zeta in E. inv_ok. congruence. Qed.
(** The handler of [secret.version.activate] does not retire the active version, so that the unique index refuses it on
    every secret that has one. *)
Theorem activation_needs_vacancy s c i x r : reachable s -> hc_targetId c = Some i -> versions (tables s) !! i = Some x -> records (tables s) !! sv_secret x = Some r ->
  is_Some (sc_active_version_id r) -> is_Ok (handleSecretVersionActivate c (tables s)) = false.
Proof.
  intros Hs Ht Hx Hr [a Ha]. pose proof (reachable_sound s Hs) as S. destruct (handleSecretVersionActivate c (tables s)) as [[out d']|e] eqn:E; [|done]. exfalso. unfold handleSecretVersionActivate in E.
  apply bind_Ok_inv in E as (j & Hj & E). apply (target_Ok _ _ _ Ht) in Hj as ->.
  apply bind_Ok_inv in E as (x' & Hx' & E). apply or_throw_Ok in Hx'. assert (x' = x) as -> by congruence. apply bind_Ok_inv in E as (r' & Hr' & E). apply or_throw_Ok in Hr'. assert (r' = r) as -> by congruence.
  apply bind_Ok_inv in E as ([b d1] & H1 & E). apply bind_Ok_inv in E as ([] & Hb & E). apply throw_if_Ok, negb_false_iff in Hb. subst b.
  destruct (activate_vacant _ _ _ _ _ _ _ S Hx Hr H1) as [_ Hn]. congruence.
Qed.
(** C29. No binding reaches a runtime.  [secret.bind] is the only writer of bindings and leaves their stable key empty,
    while the resolution for a runtime looks a binding up by that key: in every reachable state, with any members of the
    binding set, it is refused. *)
Theorem runtime_resolution_refused s a alias purpose operation correlation resolutionId logical now : reachable s ->
  is_Ok (revealForRuntimeBinding cipher a alias purpose operation correlation resolutionId logical now (tables s)) = false.
Proof.
  intros Hs. pose proof (so_bindings _ _ (reachable_sound s Hs)) as Hb. destruct (revealForRuntimeBinding _ _ _ _ _ _ _ _ _ _) as [[out d']|e] eqn:E; [|done]. exfalso.
  unfold revealForRuntimeBinding in E. do 4 (apply bind_Ok_inv in E as (? & _ & E)). assert (Hn : authorized_rows a alias purpose operation now (tables s) = []); [|by rewrite Hn in E].
  unfold authorized_rows. assert (G : forall l, (forall i b, (i, b) ∈ l -> bi_stable_key b = None) -> (l ≫= fun '(i, b) => if negb (binding_authorizes a alias purpose now b) then [] else
    match active_version (bi_secret b) (tables s) with Some (r, vi, v) => map (fun _ => {| as_binding_id := i; as_binding := b; as_secret := r; as_version_id := vi; as_version := v |})
      (List.filter (member_authorizes a purpose operation i b) (members (tables s))) | None => [] end) = []).
  { induction l as [|[i b] l IH]; intros Hl; [done|]. cbn. unfold binding_authorizes at 1. rewrite (Hl i b) by left. cbn. apply IH. intros j y Hy. apply (Hl j y). by right. }
  apply G. intros i b Hi. apply elem_of_map_to_list in Hi. by apply (Hb i).
Qed.

(** *** Numbers of versions *)

Definition blocked (id : string) d : Prop :=
  is_Some (records d !! id) /\ exists i x, versions d !! i = Some x /\ sv_secret x = id /\ sv_number x = last_number id d + 1.
(** Rows stay, and so does the last number of a secret. *)
Record extends (id : string) d d' : Prop := {
  ex_records : forall j, is_Some (records d !! j) -> is_Some (records d' !! j);
  ex_versions : forall j y, versions d !! j = Some y -> exists z, versions d' !! j = Some z /\ sv_secret z = sv_secret y /\ sv_number z = sv_number y;
  ex_number : last_number id d' = last_number id d;
}.
Lemma extends_refl id d : extends id d d.
Proof. split; eauto. Qed.
Lemma extends_trans id d1 d2 d3 : extends id d1 d2 -> extends id d2 d3 -> extends id d1 d3.
Proof.
  intros [A1 B1 C1] [A2 B2 C2]. split; [auto | | congruence]. intros j y Hy. destruct (B1 j y Hy) as (z & Hz & E1 & E2). destruct (B2 j z Hz) as (z' & Hz' & E3 & E4).
  exists z'. split_and!; congruence.
Qed.
Lemma extends_blocked id d d' : extends id d d' -> blocked id d -> blocked id d'.
Proof. intros [A1 B C] (Hr & i & x & Hx & Hs & Hn). split; [auto|]. destruct (B i x Hx) as (z & Hz & E1 & E2). exists i, z. split_and!; congruence. Qed.
Lemma extends_core id d d' : same_core d d' -> extends id d d'.
Proof. intros [E1 E2 _ _ _ E3]. split; [by rewrite E1 | rewrite E2; eauto | done]. Qed.
Lemma extends_relabel id d d' : relabeled d d' -> extends id d d'.
Proof.
  intros [E1 _ _ _ E2 E3 _]. split; [by rewrite E1 | | unfold last_number; by rewrite E2]. intros j y Hy. destruct (E3 j y Hy) as (l & o & Hz). by eexists.
Qed.
Lemma extends_put id i r d : extends id d (put_record i r d).
Proof. split; [|eauto|done]. intros j Hj. cbn. destruct (decide (j = i)) as [->|]; [by rewrite lookup_insert_eq | by rewrite lookup_insert_ne]. Qed.
Lemma extends_credential id k d : extends id d (set_credential k d).
Proof. split; eauto. Qed.
Lemma extends_bindings id b d : extends id d (set_bindings b d).
Proof. split; eauto. Qed.
Lemma extends_insert_record id i r d d' : insert_record i r d = Ok d' -> records d !! i = None /\ extends id d d'.
Proof.
  unfold insert_record. intros E. apply bind_Ok_inv in E as ([] & _ & E). apply bind_Ok_inv in E as ([] & Hn & E). apply throw_if_Ok, orb_false_iff in Hn as [Hn _]. injection E as <-.
  split; [by destruct (records d !! i)|]. apply extends_put.
Qed.
Lemma extends_insert_version id i x d d' : insert_version i x d = Ok d' -> extends id d d'.
Proof.
  intros (Hn & _ & -> & _)%insert_version_Ok. split; [eauto| |done]. intros j y Hy. cbn. rewrite lookup_insert_ne by congruence. by exists y.
Qed.
Lemma extends_write id i e by_ j d n d' : write_version j i e by_ d = Ok (n, d') -> j <> id -> extends id d d'.
Proof.
  intros Hw Hn. apply write_version_Ok in Hw as (_ & Hv & _ & [t ->] & Hl & _). split; [eauto| | rewrite Hl; by rewrite bool_decide_eq_false_2].
  intros k y Hy. cbn. rewrite lookup_insert_ne by congruence. by exists y.
Qed.
Lemma blocked_write id i e by_ d n d' : blocked id d -> write_version id i e by_ d = Ok (n, d') -> False.
Proof. intros (_ & j & x & Hx & Hs & Hn) Hw. apply write_version_Ok in Hw as (-> & _ & _ & _ & _ & Hd). exact (Hd j x Hx Hs Hn). Qed.
Lemma blocked_written id i e by_ j d n d' : blocked id d -> write_version j i e by_ d = Ok (n, d') -> extends id d d'.
Proof. intros B Hw. destruct (decide (j = id)) as [->|Hn]; [by destruct (blocked_write _ _ _ _ _ _ _ B Hw) | by eapply extends_write]. Qed.
Ltac extending := repeat first [exact (extends_refl _ _) | eapply extends_trans; [|first [eapply extends_core; eassumption | apply extends_put | apply extends_credential | apply extends_bindings
   | eapply extends_relabel, switch_relabels; eassumption | eapply extends_relabel, move_relabels; eassumption]]].
Lemma blocked_add id sid value st c (activate : bool) vid nonce d r d' : blocked id d -> addVersion cipher sid value st c activate vid nonce d = Ok (r, d') -> extends id d d' /\ sid <> id.
Proof.
  intros B E. unfold addVersion in E. do 3 (apply bind_Ok_inv in E as (? & _ & E)). apply bind_Ok_inv in E as ([n d1] & H1 & E). apply bind_Ok_inv in E as ([state d2] & H2 & E).
  apply bind_Ok_inv in E as (r' & _ & E). apply bind_Ok_inv in E as (d3 & H3 & E). injection E as _ <-. apply record_event_core in H3.
  split; [|intros ->; by eapply blocked_write]. eapply extends_trans; [by eapply blocked_written|]. destruct activate.
  - apply bind_Ok_inv in H2 as (d4 & H4 & H2). do 2 (apply bind_Ok_inv in H2 as (? & _ & H2)). injection H2 as _ <-. extending.
  - injection H2 as _ <-. extending.
Qed.
Lemma blocked_rotate id st c vid random nonce d r d' : blocked id d -> rotateOwnerApiKey cipher st c vid random nonce d = Ok (r, d') ->
  extends id d d' /\ (d' = d \/ exists k i, credential d = Some k /\ cd_secret k = Some i /\ i <> id).
Proof.
  intros B E. unfold rotateOwnerApiKey in E. cbv zeta in E. apply bind_Ok_inv in E as (h & _ & E). apply bind_Ok_inv in E as (k & Hk & E). apply or_throw_Ok in Hk.
  apply bind_Ok_inv in E as (i & Hi & E). apply or_throw_Ok in Hi. apply bind_Ok_inv in E as ([] & _ & E). destruct (_ && _); [injection E as _ <-; split; [apply extends_refl | by left]|].
  apply bind_Ok_inv in E as (row & _ & E). apply bind_Ok_inv in E as ([n d1] & H1 & E). apply bind_Ok_inv in E as (d2 & H2 & E). do 5 (apply bind_Ok_inv in E as (? & _ & E)).
  apply bind_Ok_inv in E as (d3 & H3 & E). injection E as _ <-. apply record_event_core in H3. split.
  - eapply extends_trans; [by eapply blocked_written|]. extending.
  - right. exists k, i. split_and!; [done | done|]. intros ->. by eapply blocked_write.
Qed.
Lemma blocked_step id s s' : blocked id (tables s) -> step s s' -> blocked id (tables s').
Proof.
  intros B St. enough (extends id (tables s) (tables s')) by (by eapply extends_blocked).
  destruct St as [i j vid nonce c d d' w E|j v st c a vid nonce d r d' w E|j input st c d r d' w E|j st c d r d' w E|j c d r d' w E|a al p o co ri lo now d r d' w E
    |j vid ra nonce c d r d' w E|st c vid ra nonce d r d' w E|c d r d' w E|c d r d' w E|c j d r d' w E|c j d r d' w E|c d r d' w E|c t d r d' w E|c d r d' w E|d d' w (E1 & E2 & E3 & E4 & E5)]; cbn in *.
  - unfold create_txn in E. apply bind_Ok_inv in E as (h & _ & E). apply bind_Ok_inv in E as (d1 & H1 & E). apply bind_Ok_inv in E as ([n d2] & H2 & E). apply bind_Ok_inv in E as (d3 & H3 & E).
    apply bind_Ok_inv in E as (r' & _ & E). cbv zeta in E. apply record_event_core in E. destruct (extends_insert_record id _ _ _ _ H1) as [Hn X].
    eapply extends_trans; [exact X|]. eapply extends_trans; [eapply extends_write; [exact H2|]; intros ->; destruct B as [[? ?] _]; congruence|]. extending.
  - by eapply blocked_add.
  - unfold update in E. cbv zeta in E. do 4 (apply bind_Ok_inv in E as (? & _ & E)). apply bind_Ok_inv in E as (d1 & H1 & E). injection E as _ <-. apply record_event_core in H1. extending.
  - unfold softDelete in E. cbv zeta in E. do 4 (apply bind_Ok_inv in E as (? & _ & E)). apply bind_Ok_inv in E as (d1 & H1 & E). injection E as _ <-. apply record_event_core in H1. extending.
  - by eapply extends_core, reveal_core.
  - by eapply extends_core, use_core.
  - unfold ensureOwnerApiKey in E. cbv zeta in E. do 2 (apply bind_Ok_inv in E as (? & _ & E)). destruct (_ && _); [injection E as _ <-; apply extends_refl|].
    apply bind_Ok_inv in E as (d1 & H1 & E). apply bind_Ok_inv in E as ([n d2] & H2 & E). apply bind_Ok_inv in E as (d3 & H3 & E). do 2 (apply bind_Ok_inv in E as (? & _ & E)).
    apply bind_Ok_inv in E as (d4 & H4 & E). injection E as _ <-. apply record_event_core in H4. destruct (extends_insert_record id _ _ _ _ H1) as [Hn X].
    eapply extends_trans; [exact X|]. eapply extends_trans; [eapply extends_write; [exact H2|]; intros ->; destruct B as [[? ?] _]; congruence|]. extending.
  - by eapply blocked_rotate.
  - unfold handleSecretRotate in E. cbv zeta in E. do 6 (apply bind_Ok_inv in E as (? & _ & E)). apply bind_Ok_inv in E as (d1 & H1 & E). injection E as _ <-. apply handler_event_core in H1. extending.
  - unfold handleSecretVersionActivate in E. do 3 (apply bind_Ok_inv in E as (? & _ & E)). apply bind_Ok_inv in E as ([b d1] & H1 & E). do 3 (apply bind_Ok_inv in E as (? & _ & E)). cbv zeta in E.
    apply bind_Ok_inv in E as (d2 & H2 & E). injection E as _ <-. apply handler_event_core in H2. extending.
  - unfold handleSecretVersionCreate in E. cbv zeta in E. do 5 (apply bind_Ok_inv in E as (? & _ & E)). apply bind_Ok_inv in E as (d1 & H1 & E). apply bind_Ok_inv in E as (d2 & H2 & E). injection E as _ <-.
    apply handler_event_core in H2. eapply extends_trans; [by eapply extends_insert_version | by eapply extends_core].
  - unfold handleSecretBind in E. cbv zeta in E. do 13 (apply bind_Ok_inv in E as (? & _ & E)). apply bind_Ok_inv in E as (d1 & H1 & E). injection E as _ <-. apply handler_event_core in H1. extending.
  - unfold handleSecretUnbind in E. do 5 (apply bind_Ok_inv in E as (? & _ & E)). apply bind_Ok_inv in E as (d1 & H1 & E). injection E as _ <-. apply handler_event_core in H1. extending.
  - unfold handleOwnerApiKeyReveal in E. do 2 (apply bind_Ok_inv in E as (? & _ & E)). apply bind_Ok_inv in E as (d1 & H1 & E). injection E as _ <-. apply handler_event_core in H1. extending.
  - unfold handleOwnerApiKeyRotate in E. cbv zeta in E. do 4 (apply bind_Ok_inv in E as (? & _ & E)). apply bind_Ok_inv in E as (d1 & H1 & E). injection E as _ <-. apply handler_event_core in H1. extending.
  - split; [by rewrite E1 | rewrite E2; eauto | apply E5].
Qed.
(** A secret that can never be changed again.  [secret.version.create] takes the number of the version from its
    caller and leaves the allocator alone.  Once it has used the next number of a secret, the service can never add a
    version to that secret again, in any later state and with any interleaving; if it is the secret of the owner's API
    key, the key can never be rotated. *)
Theorem version_number_collision s s' c id vid out d' : handleSecretVersionCreate c vid (tables s) = Ok (out, d') ->
  uuidArg c "secretId" (hc_targetId c) = Ok id -> numberArg c "versionNumber" 1 = Ok (last_number id (tables s) + 1) -> star step (Sys d' (written s)) s' ->
  (forall value state k activate i nonce, is_Ok (addVersion cipher id value state k activate i nonce (tables s')) = false) /\
  (forall k state x i random nonce r d2, credential (tables s') = Some k -> cd_secret k = Some id -> rotateOwnerApiKey cipher state x i random nonce (tables s') = Ok (r, d2) -> d2 = tables s').
Proof.
  intros E Hid Hn Hs. assert (B : blocked id (tables s')).
  { eapply (star_invariant _ (fun s => blocked id (tables s))); [intros x y; apply blocked_step | | exact Hs]. cbn.
    unfold handleSecretVersionCreate in E. rewrite Hid, Hn in E. cbv zeta in E. do 5 (apply bind_Ok_inv in E as (? & ?E & E)). simplify_eq.
    apply bind_Ok_inv in E as (d1 & H1 & E). apply bind_Ok_inv in E as (d2 & H2 & E). injection E as _ <-. apply handler_event_core in H2. apply insert_version_Ok in H1 as (Hv & Hr & -> & _).
    eapply extends_blocked; [by eapply extends_core|]. split; [exact Hr|]. eexists vid, _. split; [apply lookup_insert_eq|]. done. }
  split.
  - intros value state k activate i nonce. destruct (addVersion _ _ _ _ _ _ _ _ _) as [[r d2]|e] eqn:Ea; [|done]. by destruct (blocked_add _ _ _ _ _ _ _ _ _ _ _ B Ea) as [_ ?].
  - intros k state x i random nonce r d2 Hk Hks Er. destruct (blocked_rotate _ _ _ _ _ _ _ _ _ B Er) as [_ [?|(k' & j & Hk' & Hj & ?)]]; [done|]. congruence.
Qed.
End System.

(** ** Samples *)

#[local] Existing Instances code_unit_locale toy_hash toy_aead toy_dates.
Definition sample_cipher : list Z * string := (repeat 7 32, "key").
Definition sample_nonce (n : Z) : list Z := repeat n 12.
Definition sample_caller (n : Z) : caller := {| actorId := "owner"; logicalOperationId := "op" +:+ dec n; correlationId := "c" +:+ dec n |}.
Definition sample_secrets : secrets_db :=
  {| platform := Some sample_recovery; records := ∅; versions := ∅; bindings := ∅; members := []; resolutions := ∅; accesses := [];
     credential := Some {| cd_id := "key"; cd_secret := None; cd_version := None; cd_verifier := None; cd_fingerprint := None; cd_credential_version := 0; cd_epoch := 0;
                           cd_last_rotate := None; cd_last_outcome := None; cd_state_version := 1 |};
     events := {| outbox := []; allocators := ∅; audit_log := AuditChain.initial_db |} |}.
Definition secret_a : string := "aaaaaaaa-aaaa-4aaa-8aaa-aaaaaaaaaaaa".
Definition version_a (n : Z) : string := "bbbbbbbb-bbbb-4bbb-8bbb-bbbbbbbbbbb" +:+ dec n.
Definition sample_input : SecretInput := {| se_stableName := "DB_PASSWORD"; se_displayName := "Database"; se_kind := "PASSWORD"; se_value := "hunter1"; se_metadata := [] |}.
Definition sample_sealed (n : Z) (value : string) : CipherEnvelope := encrypt sample_cipher (sample_nonce n) value (associated_data secret_a (version_a n) "DB_PASSWORD").
Abbreviation created := (create_txn sample_input secret_a (version_a 1) (encrypt sample_cipher (sample_nonce 1) (se_value sample_input) (associated_data secret_a (version_a 1) (se_stableName sample_input))) (sample_caller 1) sample_secrets).
Definition ds1 : secrets_db := get_Ok sample_secrets created.
Abbreviation added := (addVersion sample_cipher secret_a "hunter2" 2 (sample_caller 2) true (version_a 2) (sample_nonce 2) ds1).
Definition no_summary : SecretSummary := {| sm_id := ""; sm_stableName := ""; sm_displayName := ""; sm_kind := ""; sm_activeVersionId := None; sm_epoch := ""; sm_fingerprint := None; sm_stateVersion := "" |}.
Definition ds2 : secrets_db := (get_Ok (no_summary, ds1) added).2.
Definition create_context : CanonicalHandlerContext :=
  {| hc_operation := "secret.version.create"; hc_commandId := None; hc_targetId := Some secret_a; hc_arguments := [("versionNumber", JNum 3); ("ciphertext", JStr "x")];
     hc_logicalOperationId := "cccccccc-cccc-4ccc-8ccc-cccccccccccc"; hc_correlationId := "c"; hc_expectedStateVersion := None; hc_activationEpoch := 4;
     hc_platformIncarnationId := "incarnation"; hc_applicationDeploymentEpoch := 2; hc_recoveryEpoch := 3 |}.
Abbreviation collided := (handleSecretVersionCreate create_context (version_a 3) ds2).
Definition ds3 : secrets_db := (get_Ok (JNull, ds2) collided).2.
(** The owner reads the second value, which replaced the first, and no version can be added after the handler's. *)
Definition revealed_value (r : result (Revealed * secrets_db)) : option string := match r with Ok (x, _) => Some (rv_value x) | Throw _ => None end.
Example reveal_runs : revealed_value (reveal sample_cipher secret_a (sample_caller 1) ds1) = Some "hunter1" /\ revealed_value (reveal sample_cipher secret_a (sample_caller 3) ds2) = Some "hunter2" /\
  is_Ok (addVersion sample_cipher secret_a "hunter3" 3 (sample_caller 3) true (version_a 4) (sample_nonce 4) ds2) = true /\
  is_Ok (addVersion sample_cipher secret_a "hunter3" 3 (sample_caller 3) true (version_a 4) (sample_nonce 4) ds3) = false.
Proof. vm_compute. split_and!; reflexivity. Qed.
(** The owner's key, and the version that detaches it *)
Example key_detached :
  let first := (get_Ok (None, "", sample_secrets) (ensureOwnerApiKey sample_cipher secret_a (version_a 1) (repeat 5 32) (sample_nonce 1) (sample_caller 1) sample_secrets)).2 in
  let second := (get_Ok (no_summary, first) (addVersion sample_cipher secret_a "typed" 2 (sample_caller 2) true (version_a 2) (sample_nonce 2) first)).2 in
  option_map (fun k => key_consistent (read_checks k first)) (credential first) = Some true /\
  option_map (fun k => key_consistent (read_checks k second)) (credential second) = Some false.
Proof. vm_compute. split; reflexivity. Qed.
Example secret_runs_ok : is_Ok created && is_Ok added && is_Ok collided = true.
Proof. vm_compute. reflexivity. Qed.

Definition secrets_start : system := Sys sample_secrets [].
Definition run_written : list (string * string) := log_new (version_a 2) "hunter2" ds1 ds2 (log_new (version_a 1) "hunter1" sample_secrets ds1 []).
Definition run_added : system := Sys ds2 run_written.
Lemma created_eq : is_Ok created = true -> created = Ok ds1.
Proof. exact (get_Ok_spec sample_secrets created). Qed.
Lemma added_eq : is_Ok added = true -> added = Ok ((get_Ok (no_summary, ds1) added).1, ds2).
Proof. intros E. rewrite (get_Ok_spec (no_summary, ds1) _ E) at 1. unfold ds2. by destruct (get_Ok _ _). Qed.
Lemma collided_eq : is_Ok collided = true -> collided = Ok ((get_Ok (JNull, ds2) collided).1, ds3).
Proof. intros E. rewrite (get_Ok_spec (JNull, ds2) _ E) at 1. unfold ds3. by destruct (get_Ok _ _). Qed.
Lemma run_added_reachable : reachable sample_cipher run_added.
Proof.
  pose proof secret_runs_ok as E. apply andb_true_iff in E as [E _]. apply andb_true_iff in E as [E1 E2]. exists secrets_start. split; [by split_and!|].
  eapply star_step; [exact (st_create sample_cipher sample_input secret_a (version_a 1) (sample_nonce 1) (sample_caller 1) sample_secrets ds1 [] (created_eq E1))|].
  apply star_one. exact (st_add sample_cipher secret_a "hunter2" 2 (sample_caller 2) true (version_a 2) (sample_nonce 2) ds1 _ ds2 _ (added_eq E2)).
Qed.
Example run_added_row : match records ds2 !! secret_a with Some r => bool_decide (sc_active_version_id r = Some (version_a 2)) | None => false end = true.
Proof. vm_compute. reflexivity. Qed.
Lemma usage_report_consistent_witness : exists r, records ds2 !! secret_a = Some r /\ usage_checks secret_a r ds2 = true.
Proof.
  pose proof run_added_row as E. destruct (records ds2 !! secret_a) as [r|] eqn:Hr; [|discriminate E]. exists r. split; [reflexivity|].
  exact (usage_report_consistent sample_cipher run_added secret_a r run_added_reachable Hr).
Defined.
Definition sample_lock : RecoveryAuthorityHead := {| ah_incarnation := "incarnation"; ah_current_epoch := 2; ah_recovery_epoch := 3; ah_fencing_token := 1 |}.
Abbreviation recorded := (record_reveal secret_a (version_a 2) (fingerprint "hunter2") (sample_caller 3) ds2).
Example reveal_ready : (match active_version secret_a ds2 with Some (_, i, _) => String.eqb i (version_a 2) | None => false end) && bool_decide ((version_a 2, "hunter2") ∈ run_written) && is_Ok recorded = true.
Proof. vm_compute. reflexivity. Qed.
Example reveal_locked : lockAndVerifyPlatformRecovery (platform ds2) = Ok sample_lock.
Proof. vm_compute. reflexivity. Qed.
Lemma reveal_returns_written_witness : reveal sample_cipher secret_a (sample_caller 3) ds2 =
  Ok ({| rv_value := "hunter2"; rv_fingerprint := fingerprint "hunter2"; rv_versionId := version_a 2 |}, get_Ok ds2 recorded).
Proof.
  pose proof reveal_ready as E. apply andb_true_iff in E as [E E3]. apply andb_true_iff in E as [E1 E2]. apply bool_decide_eq_true in E2.
  destruct (active_version secret_a ds2) as [[[r i] v]|] eqn:Hv; [|discriminate E1]. apply String.eqb_eq in E1. subst i.
  exact (reveal_returns_written sample_cipher run_added secret_a r (version_a 2) v "hunter2" (sample_caller 3) sample_lock _ run_added_reachable Hv E2 reveal_locked (get_Ok_spec ds2 _ E3)).
Defined.
Definition sample_authority_of (execution : string) : RuntimeSecretAuthority :=
  {| au_executionId := execution; au_sourceObjectKind := "COMPONENT"; au_sourceObjectId := secret_a; au_sourceRevisionId := secret_a; au_bindingSetRevisionId := secret_a; au_activationSetId := None;
     au_activationEpoch := 4; au_platformIncarnationId := "incarnation"; au_applicationDeploymentEpoch := 2 |}.
Lemma runtime_resolution_refused_witness : is_Ok (revealForRuntimeBinding sample_cipher (sample_authority_of "e") "db" "read" "query" "c" "r" "l" 0 ds2) = false.
Proof. exact (runtime_resolution_refused sample_cipher run_added (sample_authority_of "e") "db" "read" "query" "c" "r" "l" 0 run_added_reachable). Defined.
Example collision_numbers : uuidArg create_context "secretId" (hc_targetId create_context) = Ok secret_a /\ numberArg create_context "versionNumber" 1 = Ok (last_number secret_a ds2 + 1).
Proof. vm_compute. split; reflexivity. Qed.
Lemma version_number_collision_witness : is_Ok (addVersion sample_cipher secret_a "hunter3" 3 (sample_caller 3) true (version_a 4) (sample_nonce 4) ds3) = false.
Proof.
  pose proof secret_runs_ok as E. apply andb_true_iff in E as [_ E]. destruct collision_numbers as [Hid Hn].
  exact (proj1 (version_number_collision sample_cipher run_added (Sys ds3 run_written) create_context secret_a (version_a 3) _ ds3 (collided_eq E) Hid Hn (star_refl _ _))
           "hunter3" 3 (sample_caller 3) true (version_a 4) (sample_nonce 4)).
Defined.
