(* ===== verification/PlatformRecovery.v ===== *)
(** * Recovery of the platform

    [packages/domain/src/platform-recovery.ts], the coordinator that runs when the database or the deployment has been
    replaced: it takes the recovery lease over or opens a new recovery epoch, classifies everything that was in
    flight, and opens the gate of the authoritative writes ([Database.lockAndVerifyPlatformRecovery]) only when the
    whole inventory is accounted for.  It works on the tables of [Commands] through [CommandWorker.resume_command]; its
    own tables are the [rest] of that database, and the tables it only inventories are rows of columns, read through the
    conditions of the code's queries.  The triggers and checks of
    [database/baseline/00000000000001_ssot_surface.sql] on its tables are part of every write.  [state_version] is kept
    where the inventory reads it. *)
From Stdlib Require Import Ascii String.
From S2P Require Import Prelude Bytes Json Text Digest CanonicalValue IpcFrame IpcChannel IpcBroker AuditChain Database ErrorRegistry Contracts Schemas Commands CommandWorker.

(** ** Conditions of the inventory queries *)

(** A row is its columns, with [JNull] for NULL and milliseconds for a timestamp. *)
Abbreviation table_row := (list (string * json)).
Definition column (c : string) (r : table_row) : json := default JNull (get_prop c r).
(** [column = text] *)
Definition column_is (c s : string) (r : table_row) : bool := match column c r with JStr v => String.eqb v s | _ => false end.
Inductive condition :=
| SqlIn (c : string) (l : list string) | SqlNotIn (c : string) (l : list string) | SqlNull (c : string) | SqlDistinct (c s : string)
| SqlAfterNow (c : string) | SqlOr (p q : condition) | SqlAnd (p q : condition).
(** Three-valued logic: [None] is NULL. *)
Definition sql_or (a b : option bool) : option bool :=
  match a, b with
  | Some true, _ | _, Some true => Some true
  | Some false, Some false => Some false
  | _, _ => None
  end.
Definition sql_and (a b : option bool) : option bool :=
  match a, b with
  | Some false, _ | _, Some false => Some false
  | Some true, Some true => Some true
  | _, _ => None
  end.
Fixpoint truth (now : Z) (p : condition) (r : table_row) : option bool :=
  match p with
  | SqlIn c l => match column c r with JNull => None | v => Some (includes (to_text v) l) end
  | SqlNotIn c l => match column c r with JNull => None | v => Some (negb (includes (to_text v) l)) end
  | SqlNull c => Some (match column c r with JNull => true | _ => false end)
  | SqlDistinct c s => Some (match column c r with JNull => true | v => negb (String.eqb (to_text v) s) end)
  | SqlAfterNow c => match column c r with JNum t => Some (now <? t) | _ => None end
  | SqlOr p q => sql_or (truth now p r) (truth now q r)
  | SqlAnd p q => sql_and (truth now p r) (truth now q r)
  end.
(** [WHERE] keeps the rows whose condition is true. *)
Definition satisfied (now : Z) (p : condition) (r : table_row) : bool := bool_decide (truth now p r = Some true).

Record inventory_query := { iq_kind : string; iq_table : string; iq_owner : list string; iq_predicate : condition; iq_snapshot : list (string * string) }.
Definition query_by_id (kind table : string) (p : condition) (snapshot : list (string * string)) : inventory_query :=
  {| iq_kind := kind; iq_table := table; iq_owner := ["id"]; iq_predicate := p; iq_snapshot := snapshot |}.
Definition TERMINAL_SIDE_EFFECT_STATES : list string := ["CONFIRMED_APPLIED"; "CONFIRMED_NOT_APPLIED"; "FAILED_FINAL"].
Definition upload_live : condition := SqlAnd (SqlNull "cleanup_at") (SqlOr (SqlNull "consumed_at") (SqlAfterNow "expires_at")).
Definition download_live : condition := SqlOr (SqlNotIn "state" ["COMPLETED"; "FAILED"; "CANCELLED"]) (SqlDistinct "cleanup_state" "COMPLETE").
Definition MANUAL_INVENTORY_QUERIES : list inventory_query :=
  let three := ["SUCCEEDED"; "FAILED"; "CANCELLED"] in
  [query_by_id "SIDE_EFFECT_OPERATION" "side_effect_operation" (SqlNotIn "status" TERMINAL_SIDE_EFFECT_STATES)
     [("status", "status"); ("stateVersion", "state_version"); ("recoveryEpoch", "recovery_epoch")];
   {| iq_kind := "SIDE_EFFECT_ATTEMPT"; iq_table := "side_effect_attempt_state"; iq_owner := ["operation_id"; "attempt_sequence"];
      iq_predicate := SqlNotIn "status" TERMINAL_SIDE_EFFECT_STATES;
      iq_snapshot := [("operationId", "operation_id"); ("attemptSequence", "attempt_sequence"); ("status", "status"); ("stateVersion", "state_version")] |};
   query_by_id "AI_MODEL_CALL" "ai_model_call" (SqlNotIn "submit_state" ["COMPLETED"; "FAILED_FINAL"])
     [("submitState", "submit_state"); ("stateVersion", "state_version"); ("providerResponseId", "provider_response_id")];
   query_by_id "AGENT_RUN" "agent_run" (SqlNotIn "status" three) [("status", "status"); ("stateVersion", "state_version"); ("leaseFence", "lease_fencing_token")];
   query_by_id "AGENT_TOOL_CALL" "agent_tool_call" (SqlNotIn "status" three) [("status", "status"); ("stateVersion", "state_version"); ("runId", "agent_run_id")];
   query_by_id "AGENT_HANDOFF_RUN" "agent_handoff_run" (SqlNotIn "status" three) [("status", "status"); ("stateVersion", "state_version"); ("rootRunId", "root_agent_run_id")];
   query_by_id "MCP_CALL_RUN" "mcp_call_run" (SqlNotIn "state" three) [("state", "state"); ("stateVersion", "state_version"); ("leaseFence", "lease_fencing_token")];
   query_by_id "MCP_TASK" "mcp_task" (SqlNotIn "state" ["COMPLETED"; "FAILED"; "CANCELLED"]) [("state", "state"); ("stateVersion", "state_version"); ("leaseFence", "lease_fencing_token")];
   query_by_id "MCP_INPUT_EXCHANGE" "mcp_input_exchange" (SqlNotIn "status" ["CONSUMED"; "EXPIRED"; "INVALIDATED"])
     [("status", "status"); ("stateVersion", "state_version"); ("exchangeSequence", "exchange_sequence")];
   query_by_id "BROWSER_SESSION" "browser_session" (SqlNotIn "lifecycle" ["CLOSED"; "FAILED"; "EXPIRED"])
     [("lifecycle", "lifecycle"); ("stateVersion", "state_version"); ("controlFence", "control_fence"); ("contextGeneration", "context_generation")];
   query_by_id "BROWSER_ACTION_RUN" "browser_action_run" (SqlNotIn "dispatch_phase" TERMINAL_SIDE_EFFECT_STATES)
     [("dispatchPhase", "dispatch_phase"); ("stateVersion", "state_version"); ("sideEffectOperationId", "side_effect_operation_id")];
   query_by_id "BROWSER_AUTOMATION_RUN" "browser_automation_run" (SqlNull "completed_at")
     [("status", "status"); ("stateVersion", "state_version"); ("leaseFence", "lease_fencing_token")];
   query_by_id "BROWSER_CHALLENGE" "browser_challenge" (SqlIn "status" ["PENDING"])
     [("status", "status"); ("stateVersion", "state_version"); ("challengeType", "challenge_type")];
   query_by_id "BROWSER_AUTH_ATTEMPT" "browser_auth_attempt" (SqlNull "completed_at") [("state", "state"); ("stateVersion", "state_version"); ("challengeId", "challenge_id")];
   query_by_id "BROWSER_DOWNLOAD" "browser_download" download_live [("state", "state"); ("cleanupState", "cleanup_state"); ("stateVersion", "state_version")];
   query_by_id "BROWSER_UPLOAD_HANDLE" "browser_upload_handle" upload_live
     [("consumedAt", "consumed_at"); ("expiresAt", "expires_at"); ("cleanupAt", "cleanup_at"); ("stateVersion", "state_version")];
   query_by_id "RUNTIME_INSTANCE" "runtime_instance" (SqlNotIn "effective_state" ["ABSENT"; "STOPPED"; "FAILED"])
     [("effectiveState", "effective_state"); ("runtimeGeneration", "runtime_generation"); ("stateVersion", "state_version")];
   query_by_id "RUNTIME_PROCESS_IDENTITY" "runtime_process_identity" (SqlNull "exited_at")
     [("runtimeInstanceId", "runtime_instance_id"); ("runtimeGeneration", "runtime_generation"); ("linuxPid", "linux_pid"); ("stateVersion", "state_version")];
   query_by_id "RUNTIME_EXECUTION_CONTEXT" "runtime_execution_context" (SqlNull "completed_at")
     [("state", "state"); ("stateVersion", "state_version"); ("executionKind", "execution_kind")];
   query_by_id "RUNTIME_IPC_CALL" "runtime_ipc_call" (SqlNotIn "state" three) [("state", "state"); ("stateVersion", "state_version"); ("sequence", "sequence")];
   query_by_id "RUNTIME_IPC_CONNECTION" "runtime_ipc_connection" (SqlNotIn "state" ["CLOSED"; "REJECTED"])
     [("state", "state"); ("stateVersion", "state_version"); ("inflightCount", "inflight_count")];
   query_by_id "RUNTIME_CLEANUP_OPERATION" "runtime_cleanup_operation" (SqlNull "completed_at")
     [("lifecycle", "lifecycle"); ("stateVersion", "state_version"); ("fencingToken", "fencing_token")];
   query_by_id "GENERATION_JOB" "generation_job" (SqlNotIn "lifecycle" ["SUCCEEDED"; "FAILED_FINAL"; "CANCELLED_FINAL"])
     [("lifecycle", "lifecycle"); ("stateVersion", "state_version"); ("leaseFence", "lease_fencing_token")];
   query_by_id "GENERATION_PHASE_RUN" "generation_phase_run" (SqlNull "completed_at")
     [("phase", "phase"); ("state", "state"); ("stateVersion", "state_version"); ("leaseFence", "lease_fencing_token")];
   query_by_id "GENERATION_ACTIVATION_SET" "generation_activation_set" (SqlIn "state" ["SWITCHING"; "VERIFYING"; "ROLLING_BACK"; "ROLLBACK_VERIFYING"; "MANUAL_REVIEW"])
     [("state", "state"); ("stateVersion", "state_version"); ("activationEpoch", "activation_epoch")];
   query_by_id "DEPLOYMENT_RUN" "deployment_run" (SqlNotIn "status" ["SUCCEEDED"; "ROLLED_BACK"; "FAILED"])
     [("status", "status"); ("stateVersion", "state_version"); ("leaseFence", "lease_fencing_token")];
   query_by_id "CLEANUP_OPERATION" "cleanup_operation" (SqlNotIn "status" ["CLOSED"]) [("status", "status"); ("stateVersion", "state_version")];
   query_by_id "CLEANUP_RESOURCE" "cleanup_resource" (SqlNotIn "status" ["VERIFIED_ABSENT"; "RETAINED_EVIDENCE"])
     [("status", "status"); ("stateVersion", "state_version"); ("cleanupOperationId", "cleanup_operation_id")];
   query_by_id "CONFIGURATION_APPLY_RUN" "configuration_apply_run" (SqlNull "completed_at")
     [("state", "state"); ("stateVersion", "state_version"); ("leaseFence", "lease_fencing_token")];
   query_by_id "SCHEMA_MIGRATION" "schema_migration" (SqlNotIn "state" ["APPLIED"; "FAILED"])
     [("state", "state"); ("stateVersion", "state_version"); ("version", "version"); ("leaseFence", "lease_fencing_token")];
   query_by_id "OPERATION_CONTEXT" "operation_context" (SqlIn "state" ["DISPATCH_RESERVED"; "DISPATCHED"; "MANUAL_REVIEW"])
     [("state", "state"); ("stateVersion", "state_version"); ("activationEpoch", "activation_epoch")];
   query_by_id "CAPACITY_RESERVATION" "capacity_reservation" (SqlNull "released_at")
     [("capacityKind", "capacity_kind"); ("reservationClass", "reservation_class"); ("reservedUnits", "reserved_units"); ("fencingToken", "fencing_token");
      ("recoveryEpoch", "recovery_epoch"); ("stateVersion", "state_version")];
   query_by_id "ARTIFACT_PUBLICATION" "artifact_publication" (SqlNotIn "artifact_state" ["PUBLISHED"; "CLEANED"; "FAILED"])
     [("artifactState", "artifact_state"); ("publicationRevision", "publication_revision"); ("fencingToken", "fencing_token");
      ("recoveryEpoch", "recovery_epoch"); ("stateVersion", "state_version")]].
Definition INVENTORY_LOCK_TABLES : list string :=
  stable_sort str_leb (remove_dups (["domain_command"; "queue_item"; "concurrency_claim"; "domain_command_activation_domain"; "activation_domain_head";
    "domain_command_execution_checkpoint"; "transactional_outbox"] ++ map iq_table MANUAL_INVENTORY_QUERIES ++ ["platform_recovery_item"; "platform_recovery_attempt"])).

(** ** Tables of the recovery *)

Inductive RecoveryState := RS_STARTING | RS_RECONCILING | RS_READY | RS_BLOCKED | RS_MANUAL_REVIEW.
#[export] Instance recovery_state_eq_dec : EqDecision RecoveryState.
Proof. solve_decision. Defined.
Definition state_name (s : RecoveryState) : string :=
  match s with
  | RS_STARTING => "STARTING" | RS_RECONCILING => "RECONCILING" | RS_READY => "READY" | RS_BLOCKED => "BLOCKED" | RS_MANUAL_REVIEW => "MANUAL_REVIEW"
  end.
Inductive RecoveryClassification := CL_TERMINAL_REPLAY | CL_RESUME | CL_RECONCILE | CL_CANCEL | CL_CLEANUP | CL_MANUAL_REVIEW.
#[export] Instance recovery_classification_eq_dec : EqDecision RecoveryClassification.
Proof. solve_decision. Defined.
Definition classification_name (c : RecoveryClassification) : string :=
  match c with
  | CL_TERMINAL_REPLAY => "TERMINAL_REPLAY" | CL_RESUME => "RESUME" | CL_RECONCILE => "RECONCILE" | CL_CANCEL => "CANCEL" | CL_CLEANUP => "CLEANUP"
  | CL_MANUAL_REVIEW => "MANUAL_REVIEW"
  end.
Record RecoveryAuthority := {
  ra_attempt : string; ra_epoch : Z; ra_fence : Z; ra_identity : list Z; ra_incarnation : string; ra_deployment : Z;
}.
Definition authority_lineage (a : RecoveryAuthority) : lineage :=
  {| ln_incarnation := ra_incarnation a; ln_deployment := ra_deployment a; ln_recovery := ra_epoch a |}.
Record InventoryRecord := { ownerKind : string; ownerId : string; snapshot : json }.
Record attempt_row := {
  pa_identity : list Z; pa_incarnation : string; pa_deployment : Z; pa_epoch : Z; pa_state : RecoveryState; pa_owner : string; pa_fence : Z;
  pa_expires : Z; pa_finished : bool; pa_schema : list Z; pa_first : option (list Z); pa_watermark : option json; pa_stable : option (list Z);
  pa_counts : json; pa_unresolved : list string; pa_evidence : option (list Z);
}.
Record item_row := {
  it_classification : RecoveryClassification; it_digest : list Z; it_successor : option (string * string); it_blocking : bool; it_evidence : json;
  it_epoch : Z; it_fence : Z;
}.
(** [(recovery_attempt_id, owner_kind, owner_id)]: every item has the first revision. *)
Abbreviation item_key := (string * string * string)%type.
(** The delivery columns of [transactional_outbox] *)
Inductive delivery_status := D_PENDING | D_CLAIMED | D_DELIVERED | D_FAILED_FINAL.
#[export] Instance delivery_status_eq_dec : EqDecision delivery_status.
Proof. solve_decision. Defined.
Definition delivery_name (s : delivery_status) : string :=
  match s with D_PENDING => "PENDING" | D_CLAIMED => "CLAIMED" | D_DELIVERED => "DELIVERED" | D_FAILED_FINAL => "FAILED_FINAL" end.
Record delivery_row := {
  dl_status : delivery_status; dl_dispatch : bool; dl_effect : option string; dl_owner : option string; dl_expires : option Z; dl_fence : Z;
  dl_epoch : Z; dl_version : Z;
}.
(** [application_deployment_head], whose epoch is [current_epoch] of the joined head *)
Record deployment_head := { dp_release : string; dp_source : string; dp_run : string }.
(** The head of the recovery is the [recovery] row of the database with these columns. *)
Record recovery_tables (W : Type) := Tables {
  rt_attempt : option string; rt_evidence : option (list Z); rt_attempts : gmap string attempt_row; rt_items : gmap item_key item_row;
  rt_outbox : gmap string delivery_row; rt_versions : gmap (string * string) Z; rt_deployment : option deployment_head; rt_rest : W;
}.
Arguments Tables {W}. Arguments rt_attempt {W}. Arguments rt_evidence {W}. Arguments rt_attempts {W}. Arguments rt_items {W}. Arguments rt_outbox {W}.
Arguments rt_versions {W}. Arguments rt_deployment {W}. Arguments rt_rest {W}.
(** The tables that are only inventoried, in the order of their identifiers, and the rows of [pg_constraint] *)
Class InventorySource (W : Type) := { tableRows : W -> string -> list table_row; constraintRows : W -> json }.

Section Tables.
Context {W : Type}.
Abbreviation rec_db := (cmd_db (recovery_tables W)).
Implicit Types (d : rec_db) (t : recovery_tables W).
Definition with_head (a : option string) (e : option (list Z)) t := Tables a e (rt_attempts t) (rt_items t) (rt_outbox t) (rt_versions t) (rt_deployment t) (rt_rest t).
Definition with_attempts m t := Tables (rt_attempt t) (rt_evidence t) m (rt_items t) (rt_outbox t) (rt_versions t) (rt_deployment t) (rt_rest t).
Definition with_items m t := Tables (rt_attempt t) (rt_evidence t) (rt_attempts t) m (rt_outbox t) (rt_versions t) (rt_deployment t) (rt_rest t).
Definition with_outbox m t := Tables (rt_attempt t) (rt_evidence t) (rt_attempts t) (rt_items t) m (rt_versions t) (rt_deployment t) (rt_rest t).
Definition with_versions m t := Tables (rt_attempt t) (rt_evidence t) (rt_attempts t) (rt_items t) (rt_outbox t) m (rt_deployment t) (rt_rest t).
Definition on_rest (f : recovery_tables W -> recovery_tables W) d : rec_db := set_rest (f (rest d)) d.
Definition attempt d (id : string) : option attempt_row := rt_attempts (rest d) !! id.
Definition item d (attemptId kind id : string) : option item_row := rt_items (rest d) !! (attemptId, kind, id).
(** [state_version], 1 in a new row *)
Definition version d (table id : string) : Z := default 1 (rt_versions (rest d) !! (table, id)).
Definition bump (table id : string) d : rec_db := on_rest (with_versions (<[(table, id) := version d table id + 1]> (rt_versions (rest d)))) d.

(** *** The triggers and checks *)

Definition attempt_transition (s s' : RecoveryState) : bool :=
  bool_decide (s' = s) || match s, s' with
                          | RS_STARTING, RS_RECONCILING => true
                          | RS_RECONCILING, (RS_READY | RS_BLOCKED | RS_MANUAL_REVIEW) => true
                          | _, _ => false end.
Definition terminal_state (s : RecoveryState) : bool := match s with RS_READY | RS_BLOCKED | RS_MANUAL_REVIEW => true | _ => false end.
Definition guard_platform_recovery_attempt (old new : attempt_row) : result unit :=
  _ ← throw_if (pa_finished old) (PgError "55000");
  _ ← throw_if ((pa_fence new <? pa_fence old) || negb (pa_epoch new =? pa_epoch old)) (PgError "40001");
  throw_if (negb (attempt_transition (pa_state old) (pa_state new))) (PgError "23514").
Definition attempt_check (a : attempt_row) : result unit :=
  throw_if (negb (Bool.eqb (terminal_state (pa_state a)) (pa_finished a))) (PgError "23514").
Definition head_transition (s s' : string) : bool :=
  String.eqb s' s
  || String.eqb s "STARTING" && String.eqb s' "RECONCILING"
  || String.eqb s "RECONCILING" && includes s' ["READY"; "BLOCKED"; "MANUAL_REVIEW"]
  || includes s ["BLOCKED"; "MANUAL_REVIEW"] && String.eqb s' "RECONCILING"
  || String.eqb s "READY" && String.eqb s' "STARTING".
Definition guard_platform_recovery_head (old new : recovery_row) (attempt : option string) : result unit :=
  _ ← throw_if ((recovery_epoch new <? recovery_epoch old) || (recovery_fencing_token new <? recovery_fencing_token old)) (PgError "40001");
  if recovery_epoch old <? recovery_epoch new then
    throw_if (negb (recovery_epoch new =? recovery_epoch old + 1) || negb (String.eqb (rec_state new) "STARTING") || negb (is_some attempt)) (PgError "23514")
  else throw_if (negb (head_transition (rec_state old) (rec_state new))) (PgError "23514").
Definition head_check (new : recovery_row) (evidence : option (list Z)) : result unit :=
  throw_if (String.eqb (rec_state new) "READY" && negb (is_some evidence)) (PgError "23514").
Definition item_check (i : item_row) : result unit :=
  _ ← throw_if (negb (Bool.eqb (bool_decide (it_classification i = CL_MANUAL_REVIEW)) (it_blocking i))) (PgError "23514");
  _ ← throw_if (negb (bool_decide (it_classification i = CL_MANUAL_REVIEW)) && negb (is_some (it_successor i))) (PgError "23514");
  throw_if ((it_epoch i <=? 0) || (it_fence i <=? 0)) (PgError "23514").

(** [UPDATE ... WHERE id]: no row is no error. *)
Definition update_attempt (id : string) (f : attempt_row -> attempt_row) d : result rec_db :=
  match attempt d id with
  | None => Ok d
  | Some a => _ ← guard_platform_recovery_attempt a (f a); _ ← attempt_check (f a);
              Ok (on_rest (with_attempts (<[id := f a]> (rt_attempts (rest d)))) d)
  end.
Definition set_recovery (r : recovery_row) d : rec_db :=
  Db (Some r) (activation d) (idempotency d) (domains d) (claims d) (commands d) (admissions d) (queue d) (checkpoints d) (failed d) (logs d) (rest d).
Definition write_head (f : recovery_row -> recovery_row) (attempt : option string) (evidence : option (list Z)) d : result rec_db :=
  match recovery d with
  | None => Ok d
  | Some r => _ ← guard_platform_recovery_head r (f r) attempt; _ ← head_check (f r) evidence;
              Ok (on_rest (with_head attempt evidence) (set_recovery (f r) d))
  end.
Definition set_head_state (s : RecoveryState) (r : recovery_row) : recovery_row :=
  {| database_start_identity := database_start_identity r; current_database_start_identity := current_database_start_identity r;
     rec_incarnation := rec_incarnation r; current_incarnation := current_incarnation r; application_deployment_epoch := application_deployment_epoch r;
     current_epoch := current_epoch r; recovery_epoch := recovery_epoch r; recovery_fencing_token := recovery_fencing_token r; rec_state := state_name s |}.
Definition set_head_fence (fence : Z) (r : recovery_row) : recovery_row :=
  {| database_start_identity := database_start_identity r; current_database_start_identity := current_database_start_identity r;
     rec_incarnation := rec_incarnation r; current_incarnation := current_incarnation r; application_deployment_epoch := application_deployment_epoch r;
     current_epoch := current_epoch r; recovery_epoch := recovery_epoch r; recovery_fencing_token := fence; rec_state := rec_state r |}.
(** The query of [checkpointRecoveryAuthorized] (its caller has checked the state and the epoch of the head) *)
Definition terminal_replay t (commandId : string) : bool :=
  match rt_attempt t with
  | Some id => match rt_items t !! (id, "DOMAIN_COMMAND", commandId) with
               | Some i => bool_decide (it_classification i = CL_TERMINAL_REPLAY) && negb (it_blocking i) | None => false end
  | None => false
  end.
Definition head_at (attemptId : string) (fence : Z) d : bool :=
  bool_decide (rt_attempt (rest d) = Some attemptId) && match recovery d with Some r => recovery_fencing_token r =? fence | None => false end.
End Tables.

(** ** The inventory *)

Definition TERMINAL_COMMAND_STATES : list command_status := [C_SUCCEEDED; C_FAILED_FINAL; C_CANCELLED_FINAL].
Definition command_status_name (s : command_status) : string :=
  match s with
  | C_ACCEPTED => "ACCEPTED" | C_RUNNING => "RUNNING" | C_WAITING => "WAITING" | C_SUCCEEDED => "SUCCEEDED" | C_FAILED_FINAL => "FAILED_FINAL"
  | C_CANCELLED_FINAL => "CANCELLED_FINAL" | C_MANUAL_REVIEW => "MANUAL_REVIEW"
  end.
Definition queue_status_name (s : queue_status) : string :=
  match s with
  | Q_READY => "READY" | Q_CLAIMED => "CLAIMED" | Q_SUCCEEDED => "SUCCEEDED" | Q_FAILED_FINAL => "FAILED_FINAL" | Q_CANCELLED_FINAL => "CANCELLED_FINAL"
  | Q_DEAD_LETTER => "DEAD_LETTER"
  end.
Definition admission_state_name (s : admission_state) : string :=
  match s with ADMITTED => "ADMITTED" | CHECKPOINTED => "CHECKPOINTED" | RECONCILING => "RECONCILING" | TERMINAL => "TERMINAL" end.
Definition opt_json {A} (f : A -> json) (o : option A) : json := match o with Some a => f a | None => JNull end.
Definition record_json (r : InventoryRecord) : json := JObj [("ownerKind", JStr (ownerKind r)); ("ownerId", JStr (ownerId r)); ("snapshot", snapshot r)].
(** [claim.id], by its natural key *)
Definition claim_name (k : claim_key) : string := k.1 +:+ ":" +:+ hex k.2.
(** [ORDER BY id] on identifiers *)
Definition ids {A} (l : list (string * A)) : list string := stable_sort str_leb (map fst l).

Section Inventory.
Context `{L : Locale} `{H : Hash} {W : Type} `{Src : InventorySource W}.
Abbreviation rec_db := (cmd_db (recovery_tables W)).
Implicit Types (d : rec_db).

Definition table d (name : string) : list table_row := tableRows (rt_rest (rest d)) name.
(** The statuses of the side effects of a command *)
Definition effect_statuses d (commandId : string) : list string :=
  map (fun r => to_text (column "status" r))
    (List.filter (column_is "command_id" commandId) (table d "side_effect_operation")).
Definition uncertain_effects d (commandId : string) : list string :=
  List.filter (fun s => negb (includes s TERMINAL_SIDE_EFFECT_STATES)) (effect_statuses d commandId).
Definition commandInventoryRecord d (commandId : string) : option InventoryRecord :=
  match commands d !! commandId with
  | Some c =>
      if final (cr_status c) then None
      else
        let q := queue d !! commandId in
        Some {| ownerKind := "DOMAIN_COMMAND"; ownerId := commandId; snapshot := JObj [
          ("status", JStr (command_status_name (cr_status c))); ("stateVersion", JNum (version d "domain_command" commandId));
          ("recoveryEpoch", JNum (ln_recovery (cr_lineage c))); ("fence", JNum (cr_fence c));
          ("queueStatus", opt_json (fun q => JStr (queue_status_name (qi_status q))) q);
          ("queueStateVersion", opt_json (fun q => JNum (version d "queue_item" (qi_id q))) q);
          ("queueRecoveryEpoch", opt_json (fun q => JNum (ln_recovery (qi_lineage q))) q); ("queueFence", opt_json (fun q => JNum (qi_fence q)) q);
          ("checkpoint", JBool (is_some (checkpoints d !! commandId)));
          ("admissionState", opt_json (fun a => JStr (admission_state_name (ad_state a))) (admissions d !! commandId));
          ("nonterminalSideEffects", JNum (Z.of_nat (length (uncertain_effects d commandId))))] |}
  | None => None
  end.
Definition in_delivery (o : delivery_row) : bool := bool_decide (dl_status o = D_PENDING) || bool_decide (dl_status o = D_CLAIMED).
Definition outboxInventoryRecord d (outboxId : string) : option InventoryRecord :=
  match rt_outbox (rest d) !! outboxId with
  | Some o =>
      if in_delivery o then
        Some {| ownerKind := "TRANSACTIONAL_OUTBOX"; ownerId := outboxId; snapshot := JObj [
          ("status", JStr (delivery_name (dl_status o))); ("stateVersion", JNum (dl_version o)); ("recoveryEpoch", JNum (dl_epoch o));
          ("dispatchAuthority", JBool (dl_dispatch o)); ("sideEffectOperationId", jstr_opt (dl_effect o)); ("deliveryFence", JNum (dl_fence o))] |}
      else None
  | None => None
  end.
Definition command_ids d : list string := ids (List.filter (fun p => negb (final (cr_status p.2))) (map_to_list (commands d))).
Definition outbox_ids d : list string := ids (List.filter (fun p => in_delivery p.2) (map_to_list (rt_outbox (rest d)))).
Definition row_record (q : inventory_query) (r : table_row) : InventoryRecord :=
  {| ownerKind := iq_kind q; ownerId := String.concat ":" (map (fun c => to_text (column c r)) (iq_owner q));
     snapshot := JObj (map (fun '(k, c) => (k, column c r)) (iq_snapshot q)) |}.
Definition query_records (now : Z) d (q : inventory_query) : list InventoryRecord :=
  map (row_record q) (List.filter (satisfied now (iq_predicate q)) (table d (iq_table q))).
Definition live_item (q : queue_row) : bool := bool_decide (qi_status q = Q_READY) || bool_decide (qi_status q = Q_CLAIMED).
Definition by_owner (a b : InventoryRecord) : bool := str_leb (ownerId a) (ownerId b).
Definition orphan_queues d : list InventoryRecord :=
  stable_sort by_owner (omap (fun '(id, q) =>
    if live_item q && match commands d !! id with Some c => final (cr_status c) | None => true end then
      Some {| ownerKind := "ORPHAN_QUEUE_ITEM"; ownerId := qi_id q; snapshot := JObj [
        ("status", JStr (queue_status_name (qi_status q))); ("commandId", JStr id); ("stateVersion", JNum (version d "queue_item" (qi_id q)));
        ("recoveryEpoch", JNum (ln_recovery (qi_lineage q)))] |}
    else None) (map_to_list (queue d))).
Definition command_of_logical d (logical : string) : option command_row :=
  option_map snd (List.find (fun p => String.eqb (cr_logical p.2) logical) (map_to_list (commands d))).
Definition orphan_claims d : list InventoryRecord :=
  stable_sort by_owner (omap (fun '(k, c) =>
    if negb (kc_released c) && match command_of_logical d (kc_logical c) with Some r => final (cr_status r) | None => true end then
      Some {| ownerKind := "ORPHAN_CONCURRENCY_CLAIM"; ownerId := claim_name k; snapshot := JObj [
        ("logicalOperationId", JStr (kc_logical c)); ("fence", JNum (kc_fence c)); ("recoveryEpoch", JNum (ln_recovery (kc_lineage c)));
        ("stateVersion", JNum (version d "concurrency_claim" (claim_name k)))] |}
    else None) (map_to_list (claims d))).
(** [left.ownerKind.localeCompare(right.ownerKind) || left.ownerId.localeCompare(right.ownerId)] *)
Definition record_leb (a b : InventoryRecord) : bool :=
  if locale_leb (ownerKind a) (ownerKind b) then if locale_leb (ownerKind b) (ownerKind a) then locale_leb (ownerId a) (ownerId b) else true else false.
Definition collectInventory (now : Z) d : list InventoryRecord :=
  stable_sort record_leb (omap (commandInventoryRecord d) (command_ids d) ++ omap (outboxInventoryRecord d) (outbox_ids d)
    ++ (MANUAL_INVENTORY_QUERIES ≫= query_records now d) ++ orphan_queues d ++ orphan_claims d).
Definition json_digest (j : json) : list Z := digestBytes (Digest.canonicalDigest j).
Definition recordDigest (r : InventoryRecord) : list Z := json_digest (record_json r).
Definition schemaConstraintDigest d : list Z := json_digest (constraintRows (rt_rest (rest d))).

(** ** The coordinator *)

Definition insertRecoveryItem (a : RecoveryAuthority) (r : InventoryRecord) (c : RecoveryClassification) (blocking : bool) (successor : option (string * string))
    (evidence : json) d : result rec_db :=
  let i := {| it_classification := c; it_digest := recordDigest r; it_successor := successor; it_blocking := blocking; it_evidence := evidence;
              it_epoch := ra_epoch a; it_fence := ra_fence a |} in
  _ ← item_check i;
  Ok (match item d (ra_attempt a) (ownerKind r) (ownerId r) with
      | Some _ => d
      | None => on_rest (with_items (<[(ra_attempt a, ownerKind r, ownerId r) := i]> (rt_items (rest d)))) d
      end).
Definition RECOVERY_LEASE : Z := 2 * 60 * 1000.
Definition take_lease (workerId : string) (fence now : Z) (a : attempt_row) : attempt_row :=
  {| pa_identity := pa_identity a; pa_incarnation := pa_incarnation a; pa_deployment := pa_deployment a; pa_epoch := pa_epoch a; pa_state := pa_state a;
     pa_owner := workerId; pa_fence := fence; pa_expires := now + RECOVERY_LEASE; pa_finished := pa_finished a; pa_schema := pa_schema a; pa_first := pa_first a;
     pa_watermark := pa_watermark a; pa_stable := pa_stable a; pa_counts := pa_counts a; pa_unresolved := pa_unresolved a; pa_evidence := pa_evidence a |}.
Definition set_attempt_state (s : RecoveryState) (expires : Z) (a : attempt_row) : attempt_row :=
  {| pa_identity := pa_identity a; pa_incarnation := pa_incarnation a; pa_deployment := pa_deployment a; pa_epoch := pa_epoch a; pa_state := s;
     pa_owner := pa_owner a; pa_fence := pa_fence a; pa_expires := expires; pa_finished := pa_finished a; pa_schema := pa_schema a; pa_first := pa_first a;
     pa_watermark := pa_watermark a; pa_stable := pa_stable a; pa_counts := pa_counts a; pa_unresolved := pa_unresolved a; pa_evidence := pa_evidence a |}.
Definition finish_attempt (s : RecoveryState) (expires : Z) (stable : option (list Z)) (counts : json) (unresolved : list string) (evidence : list Z)
    (a : attempt_row) : attempt_row :=
  {| pa_identity := pa_identity a; pa_incarnation := pa_incarnation a; pa_deployment := pa_deployment a; pa_epoch := pa_epoch a; pa_state := s;
     pa_owner := pa_owner a; pa_fence := pa_fence a; pa_expires := expires; pa_finished := true; pa_schema := pa_schema a; pa_first := pa_first a;
     pa_watermark := pa_watermark a; pa_stable := stable; pa_counts := counts; pa_unresolved := unresolved; pa_evidence := Some evidence |}.
Definition set_first (digest : list Z) (watermark : json) (expires : Z) (a : attempt_row) : attempt_row :=
  {| pa_identity := pa_identity a; pa_incarnation := pa_incarnation a; pa_deployment := pa_deployment a; pa_epoch := pa_epoch a; pa_state := pa_state a;
     pa_owner := pa_owner a; pa_fence := pa_fence a; pa_expires := expires; pa_finished := pa_finished a; pa_schema := pa_schema a; pa_first := Some digest;
     pa_watermark := Some watermark; pa_stable := pa_stable a; pa_counts := pa_counts a; pa_unresolved := pa_unresolved a; pa_evidence := pa_evidence a |}.
Definition new_attempt (r : recovery_row) (workerId : string) (fence now : Z) (schema : list Z) : attempt_row :=
  {| pa_identity := current_database_start_identity r; pa_incarnation := current_incarnation r; pa_deployment := current_epoch r; pa_epoch := recovery_epoch r + 1;
     pa_state := RS_STARTING; pa_owner := workerId; pa_fence := fence; pa_expires := now + RECOVERY_LEASE; pa_finished := false; pa_schema := schema;
     pa_first := None; pa_watermark := None; pa_stable := None; pa_counts := JObj []; pa_unresolved := []; pa_evidence := None |}.
Definition reusable (r : recovery_row) (a : attempt_row) : bool :=
  negb (pa_finished a) && bool_decide (pa_identity a = current_database_start_identity r) && String.eqb (pa_incarnation a) (current_incarnation r)
  && (pa_deployment a =? current_epoch r).
Definition authority_of (r : recovery_row) (attemptId : string) (epoch fence : Z) : RecoveryAuthority :=
  {| ra_attempt := attemptId; ra_epoch := epoch; ra_fence := fence; ra_identity := current_database_start_identity r; ra_incarnation := current_incarnation r;
     ra_deployment := current_epoch r |}.
(** An unfinished attempt of another lineage is closed. *)
Definition supersede (id : string) (a : attempt_row) d : result rec_db :=
  if pa_finished a then Ok d
  else
    d ← (if bool_decide (pa_state a = RS_STARTING) then update_attempt id (fun a => set_attempt_state RS_RECONCILING (pa_expires a) a) d else Ok d);
    update_attempt id (fun a => finish_attempt RS_BLOCKED (pa_expires a) (pa_stable a) (pa_counts a) ["SUPERSEDED_AUTHORITY_LINEAGE"] (hash (utf8 "SUPERSEDED_AUTHORITY_LINEAGE")) a) d.
Definition open_epoch (fence : Z) (r : recovery_row) : recovery_row :=
  {| database_start_identity := current_database_start_identity r; current_database_start_identity := current_database_start_identity r;
     rec_incarnation := current_incarnation r; current_incarnation := current_incarnation r; application_deployment_epoch := current_epoch r;
     current_epoch := current_epoch r; recovery_epoch := recovery_epoch r + 1; recovery_fencing_token := fence; rec_state := state_name RS_STARTING |}.
(** A text as a value of type [uuid]: 32 hexadecimal digits with a hyphen allowed after every group of four; it is read back in
    lower case in the standard form. *)
Fixpoint uuid_digits (bytes : nat) (s : string) : option string :=
  match bytes with
  | O => match s with EmptyString => Some EmptyString | _ => None end
  | S n =>
      match s with
      | String x (String y r) =>
          if (is_hex (to_lower_char x) && is_hex (to_lower_char y))%bool then
            option_map (fun t => String (to_lower_char x) (String (to_lower_char y) t))
              (uuid_digits n (match r with String h r' => if Ascii.eqb h "-" && Nat.even n && (0 <? n)%nat then r' else r | EmptyString => r end))
          else None
      | _ => None
      end
  end.
Definition uuid_value (s : string) : option string :=
  option_map (fun t => substring 0 8 t +:+ "-" +:+ substring 8 4 t +:+ "-" +:+ substring 12 4 t +:+ "-" +:+ substring 16 4 t +:+ "-" +:+ substring 20 12 t) (uuid_digits 16 s).
Definition begin_epoch (workerId attemptId : string) (now : Z) (r : recovery_row) d : result (RecoveryAuthority * rec_db) :=
  let epoch := recovery_epoch r + 1 in
  let fence := recovery_fencing_token r + 1 in
  _ ← throw_if (max_bigint <? epoch) (PgError "22003");
  owner ← or_throw (uuid_value workerId) (PgError "22P02");
  _ ← throw_if (max_bigint <? fence) (PgError "22003");
  _ ← throw_if (is_some (attempt d attemptId) || existsb (fun '(_, a) => pa_epoch a =? epoch) (map_to_list (rt_attempts (rest d)))) duplicate;
  let d := on_rest (with_attempts (<[attemptId := new_attempt r owner fence now (schemaConstraintDigest d)]> (rt_attempts (rest d)))) d in
  d ← write_head (open_epoch fence) (Some attemptId) None d;
  Ok (authority_of r attemptId epoch fence, d).
(** [attemptId] is the new [randomUUID]. *)
Definition beginOrTakeOver (workerId attemptId : string) (now : Z) d : result (RecoveryAuthority * rec_db) :=
  r ← or_throw (recovery d) (DomainErr "PLATFORM_RECOVERY_IN_PROGRESS" "Platform recovery authority is missing");
  let current := match rt_attempt (rest d) with Some id => match attempt d id with Some a => Some (id, a) | None => None end | None => None end in
  match current with
  | Some (id, a) =>
      if reusable r a then
        let fence := pa_fence a + 1 in
        owner ← or_throw (uuid_value workerId) (PgError "22P02");
        _ ← throw_if (max_bigint <? fence) (PgError "22003");
        d ← update_attempt id (take_lease owner fence now) d;
        d ← write_head (set_head_fence fence) (rt_attempt (rest d)) (rt_evidence (rest d)) d;
        Ok (authority_of r id (pa_epoch a) fence, d)
      else
        d ← supersede id a d;
        begin_epoch workerId attemptId now r d
  | None => begin_epoch workerId attemptId now r d
  end.
(** The transaction has no lease check, only the fence. *)
Definition enterReconciling (a : RecoveryAuthority) (workerId : string) (now : Z) d : result rec_db :=
  let stale := DomainErr "FENCING_TOKEN_STALE" "Recovery attempt fence is not current" in
  p ← or_throw (attempt d (ra_attempt a)) stale;
  _ ← throw_if (negb (String.eqb (pa_owner p) workerId) || negb (pa_fence p =? ra_fence a)) stale;
  d ← (if bool_decide (pa_state p = RS_STARTING) then update_attempt (ra_attempt a) (set_attempt_state RS_RECONCILING (now + RECOVERY_LEASE)) d else Ok d);
  if head_at (ra_attempt a) (ra_fence a) d then write_head (set_head_state RS_RECONCILING) (rt_attempt (rest d)) (rt_evidence (rest d)) d else Ok d.
Definition recovery_fence_stale : exn := DomainErr "FENCING_TOKEN_STALE" "Recovery worker no longer owns the current attempt fence".
Definition assertFence (a : RecoveryAuthority) (workerId : string) d : result unit :=
  p ← or_throw (attempt d (ra_attempt a)) recovery_fence_stale;
  r ← or_throw (recovery d) recovery_fence_stale;
  throw_if (negb (bool_decide (rt_attempt (rest d) = Some (ra_attempt a))) || negb (String.eqb (pa_owner p) workerId) || negb (pa_fence p =? ra_fence a)
            || negb (recovery_fencing_token r =? ra_fence a) || negb (recovery_epoch r =? ra_epoch a) || negb (bool_decide (pa_state p = RS_RECONCILING)))
    recovery_fence_stale.

(** *** Classification *)

Definition classified (a : RecoveryAuthority) (kind id : string) d : bool := is_some (item d (ra_attempt a) kind id).
(** [claim&&!claim.released_at&&...] *)
Definition claim_valid (c : command_row) d : bool :=
  match claims d !! cr_claim c with Some k => negb (kc_released k) && String.eqb (kc_logical k) (cr_logical c) | None => false end.
Definition live_queue d (id : string) : option queue_row := match queue d !! id with Some q => if live_item q then Some q else None | None => None end.
Definition effect_uncertain d (id : string) : bool := existsb (fun s => negb (includes s TERMINAL_SIDE_EFFECT_STATES)) (effect_statuses d id).
Definition classify_command (a : RecoveryAuthority) (workerId id : string) (now : Z) d : result rec_db :=
  _ ← assertFence a workerId d;
  if classified a "DOMAIN_COMMAND" id d then Ok d
  else match commands d !! id with
  | None => Ok d
  | Some c =>
      if final (cr_status c) then Ok d
      else
        let uncertain := effect_uncertain d id in
        let checkpoint := is_some (checkpoints d !! id) in
        match live_queue d id, claim_valid c d && negb uncertain with
        | Some q, true =>
            d' ← resume_command id workerId (authority_lineage a) uncertain now d;
            let d' := bump "domain_command" id (bump "queue_item" (qi_id q) (bump "concurrency_claim" (claim_name (cr_claim c)) d')) in
            match commandInventoryRecord d' id with
            | None => Ok d'
            | Some record =>
                insertRecoveryItem a record (if checkpoint then CL_TERMINAL_REPLAY else CL_RESUME) false (Some ("QUEUE_ITEM", qi_id q))
                  (JObj [("reason", JStr (if checkpoint then "IMMUTABLE_APPLY_CHECKPOINT_PRESENT" else "NO_APPLY_CHECKPOINT_AND_NO_POSSIBLE_EXTERNAL_EFFECT"));
                         ("queueId", JStr (qi_id q)); ("previousCommandStatus", JStr (command_status_name (cr_status c)));
                         ("previousQueueStatus", JStr (queue_status_name (qi_status q)));
                         ("successorFence", opt_json (fun c => JStr (dec (cr_fence c))) (commands d' !! id))]) d'
            end
        | _, _ =>
            match commandInventoryRecord d id with
            | None => Ok d
            | Some record =>
                insertRecoveryItem a record CL_MANUAL_REVIEW true None
                  (JObj [("reason", JStr "COMMAND_RECOVERY_INVENTORY_INCOMPLETE"); ("queuePresent", JBool (is_some (live_queue d id)));
                         ("claimValid", JBool (claim_valid c d)); ("effectUncertain", JBool uncertain)]) d
            end
        end
  end.
Definition resume_delivery (epoch : Z) (o : delivery_row) : delivery_row :=
  {| dl_status := D_PENDING; dl_dispatch := dl_dispatch o; dl_effect := dl_effect o; dl_owner := None; dl_expires := None; dl_fence := dl_fence o;
     dl_epoch := epoch; dl_version := dl_version o + 1 |}.
Definition classify_outbox (a : RecoveryAuthority) (workerId id : string) d : result rec_db :=
  _ ← assertFence a workerId d;
  if classified a "TRANSACTIONAL_OUTBOX" id d then Ok d
  else match rt_outbox (rest d) !! id with
  | None => Ok d
  | Some o =>
      if negb (in_delivery o) then Ok d
      else
        let uncertain := dl_dispatch o || match dl_effect o with Some e => truthy e | None => false end in
        let d := if uncertain then d else on_rest (with_outbox (<[id := resume_delivery (ra_epoch a) o]> (rt_outbox (rest d)))) d in
        match outboxInventoryRecord d id with
        | None => Ok d
        | Some record =>
            insertRecoveryItem a record (if uncertain then CL_MANUAL_REVIEW else CL_RESUME) uncertain (if uncertain then None else Some ("TRANSACTIONAL_OUTBOX", id))
              (JObj [("reason", JStr (if uncertain then "POSSIBLE_EXTERNAL_DISPATCH_REQUIRES_RECONCILIATION" else "IDEMPOTENT_DOMAIN_EVENT_DELIVERY_RESUME"));
                     ("previousStatus", JStr (delivery_name (dl_status o)))]) d
        end
  end.
Definition find_record (now : Z) d (kind id : string) : option InventoryRecord :=
  List.find (fun r => String.eqb (ownerKind r) kind && String.eqb (ownerId r) id) (collectInventory now d).
Definition row_with_id (id : string) (l : list table_row) : option table_row := List.find (column_is "id" id) l.
Definition current_run d : option (deployment_head * table_row) :=
  match rt_deployment (rest d) with
  | Some h =>
      match row_with_id (dp_run h) (table d "deployment_run") with
      | Some run => if includes (to_text (column "status" run)) ["PLANNED"; "PREFLIGHT"; "BACKUP"; "MIGRATING"; "INSTALLING"; "SWITCHING"; "VERIFYING"; "ROLLING_BACK"]
                    then Some (h, run) else None
      | None => None
      end
  | None => None
  end.
Definition exact_current (a : RecoveryAuthority) (r : recovery_row) (h : deployment_head) (run : table_row) : bool :=
  (current_epoch r =? ra_deployment a) && match column "deployment_epoch" run with JNum e => e =? ra_deployment a | _ => false end
  && String.eqb (to_text (column "release_id" run)) (dp_release h) && String.eqb (to_text (column "source_sha" run)) (dp_source h)
  && String.eqb (to_text (column "platform_incarnation_id" run)) (ra_incarnation a).
Definition classify_deployment (a : RecoveryAuthority) (workerId : string) (now : Z) d : result rec_db :=
  _ ← assertFence a workerId d;
  match recovery d, current_run d with
  | Some r, Some (h, run) =>
      if negb (exact_current a r h run) then Ok d
      else match find_record now d "DEPLOYMENT_RUN" (dp_run h) with
      | None => Ok d
      | Some record =>
          if classified a "DEPLOYMENT_RUN" (dp_run h) d then Ok d
          else insertRecoveryItem a record CL_RESUME false (Some ("DEPLOYMENT_RUN", dp_run h))
                 (JObj [("reason", JStr "CURRENT_DEPLOYMENT_HEAD_EXACTLY_MATCHES_IN_FLIGHT_RUN"); ("releaseId", JStr (to_text (column "release_id" run)));
                        ("sourceSha", JStr (to_text (column "source_sha" run))); ("deploymentEpoch", JStr (to_text (column "deployment_epoch" run)));
                        ("status", JStr (to_text (column "status" run)))]) d
      end
  | _, _ => Ok d
  end.
(** The snapshot is built in the program: [state_version] is the text of a [bigint], not the number of the inventory. *)
Definition ai_record (id : string) (call : table_row) : InventoryRecord :=
  {| ownerKind := "AI_MODEL_CALL"; ownerId := id; snapshot := JObj [
    ("submitState", column "submit_state" call); ("stateVersion", JStr (to_text (column "state_version" call)));
    ("providerResponseId", column "provider_response_id" call)] |}.
Definition has_provider_response (call : table_row) : bool :=
  match column "provider_response_id" call with JStr s => (0 <? String.length s)%nat | _ => false end.
Definition classify_ai_call (a : RecoveryAuthority) (workerId id : string) d : result rec_db :=
  _ ← assertFence a workerId d;
  match row_with_id id (table d "ai_model_call") with
  | None => Ok d
  | Some call =>
      if includes (to_text (column "submit_state" call)) ["COMPLETED"; "FAILED_FINAL"] then Ok d
      else if classified a "AI_MODEL_CALL" id d then Ok d
      else
        let known := has_provider_response call in
        insertRecoveryItem a (ai_record id call) (if known then CL_RESUME else CL_MANUAL_REVIEW) (negb known) (if known then Some ("AI_MODEL_CALL", id) else None)
          (JObj [("reason", JStr (if known then "PROVIDER_RESPONSE_ID_PRESENT_CANONICAL_RETRIEVE_REQUIRED" else "PROVIDER_RESPONSE_ID_MISSING_OUTCOME_UNKNOWN"));
                 ("providerResponseId", column "provider_response_id" call)]) d
  end.
(** The five [NOT EXISTS] of a session that nothing depends on *)
Definition session_children : list (string * condition) :=
  [("browser_session_dispatch_lease", SqlNull "released_at"); ("browser_action_run", SqlNotIn "dispatch_phase" TERMINAL_SIDE_EFFECT_STATES);
   ("browser_challenge", SqlIn "status" ["PENDING"]); ("browser_download", download_live); ("browser_upload_handle", upload_live)].
Definition session_safe (now : Z) d (id : string) : bool :=
  forallb (fun '(name, p) => negb (existsb (fun r => column_is "session_id" id r && satisfied now p r) (table d name))) session_children.
Definition classify_session (a : RecoveryAuthority) (workerId id : string) (now : Z) d : result rec_db :=
  _ ← assertFence a workerId d;
  if classified a "BROWSER_SESSION" id d then Ok d
  else match find_record now d "BROWSER_SESSION" id with
  | None => Ok d
  | Some record =>
      match row_with_id id (table d "browser_session") with
      | Some session =>
          if negb (session_safe now d id) then Ok d
          else insertRecoveryItem a record CL_CLEANUP false (Some ("BROWSER_SESSION", id))
                 (JObj [("reason", JStr "NO_HOST_AUTHORITY_OR_UNCERTAIN_BROWSER_EFFECT"); ("lifecycle", JStr (to_text (column "lifecycle" session)));
                        ("stateVersion", JStr (to_text (column "state_version" session)));
                        ("oracle", JObj (map (fun k => (k, JBool true)) ["noActiveLease"; "noUncertainAction"; "noPendingChallenge"; "noPendingDownload"; "noLiveUpload"]))]) d
      | None => Ok d
      end
  end.
Definition remaining_evidence (r : InventoryRecord) : json :=
  JObj [("reason", JStr "NO_AUTOMATIC_RECOVERY_ORACLE_IMPLEMENTED_FOR_AUTHORITY_KIND"); ("ownerKind", JStr (ownerKind r))].
Definition review_record (a : RecoveryAuthority) d (r : InventoryRecord) : result rec_db :=
  if classified a (ownerKind r) (ownerId r) d then Ok d else insertRecoveryItem a r CL_MANUAL_REVIEW true None (remaining_evidence r) d.
Definition inventory_json (l : list InventoryRecord) : json := JArr (map record_json l).
Definition watermark (l : list InventoryRecord) : json :=
  JObj [("count", JNum (Z.of_nat (length l)));
        ("kinds", JObj (map (fun k => (k, JNum (Z.of_nat (length (List.filter (fun r => String.eqb (ownerKind r) k) l)))))
                            (stable_sort str_leb (remove_dups (map ownerKind l)))))].
Definition classify_remaining (a : RecoveryAuthority) (workerId : string) (now : Z) d : result rec_db :=
  _ ← assertFence a workerId d;
  d ← fold_result (review_record a) d (collectInventory now d);
  let stable := collectInventory now d in
  update_attempt (ra_attempt a) (set_first (json_digest (inventory_json stable)) (watermark stable) (now + RECOVERY_LEASE)) d.

(** *** The decision *)

Definition owner_text (kind id : string) : string := kind +:+ ":" +:+ id.
(** [ORDER BY owner_kind, owner_id] *)
Definition item_leb (p q : item_key * item_row) : bool :=
  let '((_, k, i), _) := p in let '((_, k', i'), _) := q in if String.eqb k k' then str_leb i i' else str_leb k k'.
Definition attempt_items (a : RecoveryAuthority) d : list (item_key * item_row) :=
  stable_sort item_leb (List.filter (fun '((id, _, _), _) => String.eqb id (ra_attempt a)) (map_to_list (rt_items (rest d)))).
Definition item_owner (p : item_key * item_row) : string := owner_text p.1.1.2 p.1.2.
Definition missing (a : RecoveryAuthority) d (l : list InventoryRecord) : list string :=
  omap (fun r => match item d (ra_attempt a) (ownerKind r) (ownerId r) with None => Some (owner_text (ownerKind r) (ownerId r)) | Some _ => None end) l.
Definition changed (a : RecoveryAuthority) d (l : list InventoryRecord) : list string :=
  omap (fun r => match item d (ra_attempt a) (ownerKind r) (ownerId r) with
                 | Some i => if bytes_eqb (it_digest i) (recordDigest r) then None else Some (owner_text (ownerKind r) (ownerId r))
                 | None => None end) l.
Definition blockers (a : RecoveryAuthority) d : list string := map item_owner (List.filter (fun p => it_blocking p.2) (attempt_items a d)).
Definition nonBlockingOwners (a : RecoveryAuthority) d : list string := map item_owner (List.filter (fun p => negb (it_blocking p.2)) (attempt_items a d)).
Definition digest_stable (p : attempt_row) (l : list InventoryRecord) : bool :=
  match pa_first p with Some b => bytes_eqb b (json_digest (inventory_json l)) | None => false end.
Definition unresolved_of (a : RecoveryAuthority) (p : attempt_row) d (l : list InventoryRecord) : list string :=
  let settled id := includes id (nonBlockingOwners a d) in
  stable_sort str_leb (remove_dups (List.filter (fun id => negb (settled id)) (missing a d l) ++ List.filter (fun id => negb (settled id)) (changed a d l) ++ blockers a d
    ++ (if digest_stable p l then [] else ["INVENTORY_DIGEST_CHANGED"])
    ++ (if bytes_eqb (pa_schema p) (schemaConstraintDigest d) then [] else ["SCHEMA_CONSTRAINT_DIGEST_CHANGED"]))).
Definition classification_counts (a : RecoveryAuthority) d : list (string * Z) :=
  fold_left (fun counts p => let k := classification_name (it_classification p.2) in define_prop k (default 0 (get_prop k counts) + 1) counts) (attempt_items a d) [].
Definition decide_state (a : RecoveryAuthority) d (unresolved : list string) : RecoveryState :=
  match unresolved with [] => RS_READY | _ => match blockers a d with [] => RS_BLOCKED | _ => RS_MANUAL_REVIEW end end.
Record PlatformRecoveryResult := {
  pr_state : RecoveryState; pr_attempt : string; pr_epoch : Z; pr_inventoryCount : Z; pr_classificationCounts : list (string * Z);
  pr_unresolvedObjectIds : list string; pr_evidenceDigest : string;
}.
Definition finalize (a : RecoveryAuthority) (workerId : string) (now : Z) d : result (PlatformRecoveryResult * rec_db) :=
  _ ← assertFence a workerId d;
  p ← or_throw (attempt d (ra_attempt a)) (JsError "TypeError");
  let inventory := collectInventory now d in
  let stableDigest := json_digest (inventory_json inventory) in
  let unresolved := unresolved_of a p d inventory in
  let counts := classification_counts a d in
  let counts_json := JObj (map (fun '(k, n) => (k, JNum n)) counts) in
  let state := decide_state a d unresolved in
  let evidence := JObj [
    ("attemptId", JStr (ra_attempt a)); ("recoveryEpoch", JStr (dec (ra_epoch a))); ("databaseStartIdentity", JStr (hex (ra_identity a)));
    ("platformIncarnationId", JStr (ra_incarnation a)); ("deploymentEpoch", JStr (dec (ra_deployment a))); ("inventoryCount", JNum (Z.of_nat (length inventory)));
    ("inventoryDigest", JStr (hex stableDigest)); ("digestStable", if is_some (pa_first p) then JBool (digest_stable p inventory) else JNull);
    ("schemaConstraintDigest", JStr (hex (schemaConstraintDigest d))); ("schemaStable", JBool (bytes_eqb (pa_schema p) (schemaConstraintDigest d)));
    ("classificationCounts", counts_json); ("unresolved", JArr (map JStr unresolved))] in
  let evidenceDigest := json_digest evidence in
  d ← update_attempt (ra_attempt a) (finish_attempt state now (Some stableDigest) counts_json unresolved evidenceDigest) d;
  d ← (if head_at (ra_attempt a) (ra_fence a) d
       then write_head (set_head_state state) (rt_attempt (rest d)) (if bool_decide (state = RS_READY) then Some evidenceDigest else None) d
       else Ok d);
  Ok ({| pr_state := state; pr_attempt := ra_attempt a; pr_epoch := ra_epoch a; pr_inventoryCount := Z.of_nat (length inventory);
         pr_classificationCounts := counts; pr_unresolvedObjectIds := unresolved; pr_evidenceDigest := "sha256:" +:+ hex evidenceDigest |}, d).

(** *** The whole run *)

Inductive PlatformRecoveryFaultPoint := AFTER_RECOVERY_STARTING | AFTER_RECOVERY_RECONCILING | BEFORE_RECOVERY_READY_TRANSITION.
Inductive recovery_phase := PH_BEGIN | PH_ENTER | PH_COMMANDS | PH_DEPLOYMENT | PH_SESSIONS | PH_REMAINING | PH_FINALIZE.
Definition txn_unit (body : rec_db -> result rec_db) : io rec_db unit := Prelude.txn (fun d => d ← body d; Ok (tt, d)).
(** [for (const id of ids) await inTransaction(...)]; the list is read before the loop. *)
Fixpoint for_ids (body : string -> rec_db -> result rec_db) (l : list string) : io rec_db unit :=
  match l with [] => mret tt | id :: l => _ ← txn_unit (body id); for_ids body l end.
Definition ai_call_ids d : list string :=
  stable_sort str_leb (map (fun r => to_text (column "id" r)) (List.filter (satisfied 0 (SqlNotIn "submit_state" ["COMPLETED"; "FAILED_FINAL"])) (table d "ai_model_call"))).
Definition safe_session_ids (now : Z) d : list string :=
  stable_sort str_leb (List.filter (session_safe now d) (map (fun r => to_text (column "id" r))
    (List.filter (satisfied now (SqlNotIn "lifecycle" ["CLOSED"; "FAILED"; "EXPIRED"])) (table d "browser_session")))).
Definition classifyCommands (a : RecoveryAuthority) (workerId : string) (now : Z) : io rec_db unit :=
  d ← get; for_ids (fun id => classify_command a workerId id now) (command_ids d).
Definition classifyOutbox (a : RecoveryAuthority) (workerId : string) : io rec_db unit := d ← get; for_ids (classify_outbox a workerId) (outbox_ids d).
Definition classifyAiModelCalls (a : RecoveryAuthority) (workerId : string) : io rec_db unit := d ← get; for_ids (classify_ai_call a workerId) (ai_call_ids d).
Definition classifySafeBrowserCleanup (a : RecoveryAuthority) (workerId : string) (now : Z) : io rec_db unit :=
  d ← get; for_ids (fun id => classify_session a workerId id now) (safe_session_ids now d).
(** [clock] is the time in each phase, [inject] the fault injector and [attemptId] the new [randomUUID]. *)
Definition recover (inject : PlatformRecoveryFaultPoint -> result unit) (clock : recovery_phase -> Z) (attemptId workerId : string) : io rec_db PlatformRecoveryResult :=
  _ ← lift (throw_if (negb (uuid_text workerId)) (DomainErr "AGENTIC_OPERATION_CONTEXT_INVALID" "Recovery worker identity must be a UUID"));
  a ← Prelude.txn (beginOrTakeOver workerId attemptId (clock PH_BEGIN));
  _ ← lift (inject AFTER_RECOVERY_STARTING);
  _ ← txn_unit (enterReconciling a workerId (clock PH_ENTER));
  _ ← lift (inject AFTER_RECOVERY_RECONCILING);
  _ ← classifyCommands a workerId (clock PH_COMMANDS);
  _ ← classifyOutbox a workerId;
  _ ← txn_unit (classify_deployment a workerId (clock PH_DEPLOYMENT));
  _ ← classifyAiModelCalls a workerId;
  _ ← classifySafeBrowserCleanup a workerId (clock PH_SESSIONS);
  _ ← txn_unit (classify_remaining a workerId (clock PH_REMAINING));
  _ ← lift (inject BEFORE_RECOVERY_READY_TRANSITION);
  Prelude.txn (finalize a workerId (clock PH_FINALIZE)).
End Inventory.

(** ** Theory of the operations *)

Section Theory.
Context `{L : Locale} `{H : Hash} {W : Type} `{Src : InventorySource W}.
Abbreviation rec_db := (cmd_db (recovery_tables W)).
Implicit Types (d : rec_db) (a : RecoveryAuthority).

(** What a transaction passed that passed [assertFence] *)
Record fenced a (workerId : string) d (p : attempt_row) (r : recovery_row) : Prop := {
  fe_attempt : attempt d (ra_attempt a) = Some p;
  fe_head : recovery d = Some r;
  fe_current : rt_attempt (rest d) = Some (ra_attempt a);
  fe_owner : pa_owner p = workerId;
  fe_fence : pa_fence p = ra_fence a /\ recovery_fencing_token r = ra_fence a;
  fe_epoch : recovery_epoch r = ra_epoch a;
  fe_state : pa_state p = RS_RECONCILING;
}.
Lemma assertFence_Ok a w d u : assertFence a w d = Ok u <-> exists p r, fenced a w d p r.
Proof.
  unfold assertFence. split.
  - intros Hf. inv_ok. reflect_bools. exists a0, a1. split; done.
  - intros (p & r & [Hp Hr Hc <- [<- Hf] <- Hs]). rewrite Hp, Hr. cbn. rewrite Hc, Hf, Hs. rewrite !bool_decide_eq_true_2, String.eqb_refl, !Z.eqb_refl by done. by destruct u.
Qed.
Lemma assertFence_result a w d : assertFence a w d = Ok tt \/ assertFence a w d = Throw recovery_fence_stale.
Proof.
  unfold assertFence. destruct (attempt d (ra_attempt a)) as [p|]; cbn; [|by right]. destruct (recovery d) as [r|]; cbn; [|by right].
  destruct (_ || _); cbn; auto.
Qed.

(** The head, the attempts and what is only inventoried stay as they are. *)
Record same_authority d d' : Prop := {
  sa_head : recovery d' = recovery d;
  sa_attempt : rt_attempt (rest d') = rt_attempt (rest d) /\ rt_evidence (rest d') = rt_evidence (rest d);
  sa_attempts : rt_attempts (rest d') = rt_attempts (rest d);
  sa_source : rt_rest (rest d') = rt_rest (rest d) /\ rt_deployment (rest d') = rt_deployment (rest d);
}.
#[export] Instance same_authority_preorder : PreOrder same_authority.
Proof.
  split; [by intros d; split|]. intros d1 d2 d3 [? [? ?] ? [? ?]] [? [? ?] ? [? ?]]. split; try split; congruence.
Qed.
Lemma fenced_same a w d d' p r : same_authority d d' -> fenced a w d p r -> fenced a w d' p r.
Proof. intros [Hr [Ha _] Hp _] []. split; try done; [unfold attempt; by rewrite Hp|by rewrite Hr|by rewrite Ha]. Qed.

(** *** Items *)

(** Items are only added, to the attempt of the authority. *)
Record items_grow a d d' : Prop := {
  ig_kept : forall k i, rt_items (rest d) !! k = Some i -> rt_items (rest d') !! k = Some i;
  ig_new : forall k i, rt_items (rest d') !! k = Some i -> rt_items (rest d) !! k = Some i \/
    k.1.1 = ra_attempt a /\ it_epoch i = ra_epoch a /\ it_fence i = ra_fence a /\ (it_blocking i = true <-> it_classification i = CL_MANUAL_REVIEW) /\ includes_char ":" k.1.2 = false;
}.
#[export] Instance items_grow_preorder a : PreOrder (items_grow a).
Proof.
  split; [split; auto|]. intros d1 d2 d3 [K1 N1] [K2 N2]. split; [auto|]. intros k i Hk. destruct (N2 k i Hk) as [Hk2|]; [auto|by right].
Qed.
Lemma items_grow_same a d d' : rt_items (rest d') = rt_items (rest d) -> items_grow a d d'.
Proof. intros E. split; intros k i; rewrite E; auto. Qed.
Lemma insertRecoveryItem_Ok a rec c b s e d d' : includes_char ":" (ownerKind rec) = false -> insertRecoveryItem a rec c b s e d = Ok d' ->
  same_authority d d' /\ items_grow a d d' /\ same_commands d d' /\
  (exists i, item d' (ra_attempt a) (ownerKind rec) (ownerId rec) = Some i /\
     (item d (ra_attempt a) (ownerKind rec) (ownerId rec) = None ->
      it_classification i = c /\ it_blocking i = b /\ it_digest i = recordDigest rec)) /\
  forall k, k <> (ra_attempt a, ownerKind rec, ownerId rec) -> rt_items (rest d') !! k = rt_items (rest d) !! k.
Proof.
  intros Hcol Hi. unfold insertRecoveryItem in Hi. inv_ok. unfold item_check in Hok. inv_ok. cbn in *. apply negb_false_iff, Bool.eqb_prop in Hok0.
  destruct (item d (ra_attempt a) (ownerKind rec) (ownerId rec)) as [i|] eqn:E; subst d'.
  { split_and!; [done|done|split; done| |done]. exists i. split; [done|]. congruence. }
  split_and!; [by split| |split; done| |].
  - split; cbn; intros k i; rewrite lookup_insert_Some.
    + intros Hk. right. split; [|done]. intros <-. unfold item in E. congruence.
    + intros [[<- <-]|[_ ?]]; [right|by left]. cbn. split_and!; try done. by rewrite <- Hok0, bool_decide_eq_true.
  - unfold item. cbn. rewrite lookup_insert_eq. by eexists.
  - intros k Hk. cbn. by rewrite lookup_insert_ne.
Qed.
(** No check refuses what the coordinator inserts. *)
Lemma insertRecoveryItem_total a rec c s e d : 0 < ra_epoch a -> 0 < ra_fence a -> (c <> CL_MANUAL_REVIEW -> is_some s = true) ->
  is_Ok (insertRecoveryItem a rec c (bool_decide (c = CL_MANUAL_REVIEW)) s e d) = true.
Proof.
  intros He Hf Hs. unfold insertRecoveryItem, item_check. cbn. rewrite Bool.eqb_reflx. cbn.
  destruct (bool_decide_reflect (c = CL_MANUAL_REVIEW)) as [->|Hn]; cbn; [|rewrite (Hs Hn); cbn];
    rewrite !(proj2 (Z.leb_gt _ _)) by done; done.
Qed.

(** *** Updates of an attempt and of the head *)

Lemma update_attempt_Ok id f d d' : update_attempt id f d = Ok d' ->
  attempt d id = None /\ d' = d \/
  exists p, attempt d id = Some p /\ d' = on_rest (with_attempts (<[id := f p]> (rt_attempts (rest d)))) d /\
    pa_finished p = false /\ pa_fence p <= pa_fence (f p) /\ pa_epoch (f p) = pa_epoch p /\ pa_finished (f p) = terminal_state (pa_state (f p)).
Proof.
  unfold update_attempt, guard_platform_recovery_attempt, attempt_check. destruct (attempt d id) as [p|]; intros Hu; inv_ok; [|by left].
  reflect_bools. right. exists p. split_and!; try done. symmetry. by apply Bool.eqb_prop.
Qed.
Lemma write_head_Ok f ida ev d d' r : recovery d = Some r -> write_head f ida ev d = Ok d' ->
  d' = on_rest (with_head ida ev) (set_recovery (f r) d) /\ recovery_epoch r <= recovery_epoch (f r) /\ recovery_fencing_token r <= recovery_fencing_token (f r).
Proof.
  intros Hr. unfold write_head, guard_platform_recovery_head. rewrite Hr. intros Hw. inv_ok. reflect_bools. done.
Qed.
Lemma same_commands_rest d t : same_commands d (set_rest t d).
Proof. by split. Qed.
Lemma same_commands_head d t r : same_commands d (set_rest t (set_recovery r d)).
Proof. by split. Qed.
Lemma same_commands_trans d1 d2 d3 : same_commands d1 d2 -> same_commands d2 d3 -> same_commands d1 d3.
Proof. intros [(?&?&?&?&?&?) P1 D1] [(?&?&?&?&?&?) P2 D2]. split; [split_and!; congruence|intros k; by rewrite P2, P1|auto]. Qed.
Lemma update_attempt_same id f d d' : update_attempt id f d = Ok d' -> same_commands d d'.
Proof. intros [[_ ->]|(p & _ & -> & _)]%update_attempt_Ok; split; done. Qed.
Lemma write_head_same f ida ev d d' : write_head f ida ev d = Ok d' -> same_commands d d'.
Proof.
  destruct (recovery d) as [r|] eqn:Hr; [|unfold write_head; rewrite Hr; intros [= <-]; by split]. intros Hw.
  destruct (write_head_Ok _ _ _ _ _ _ Hr Hw) as [-> _]. apply same_commands_head.
Qed.

(** *** Classification *)

(** What one classification does: it resumes at most one command, and adds items. *)
Record classifies a d d' : Prop := {
  cf_authority : same_authority d d';
  cf_items : items_grow a d d';
  cf_commands : exists d1, (d1 = d \/ exists id w u now, resume_command id w (authority_lineage a) u now d = Ok d1) /\ same_commands d1 d';
}.
Lemma classifies_refl a d : classifies a d d.
Proof. split; [done|done|]. exists d. split; [by left|by split]. Qed.
Lemma inserted_classifies a rec c b s e d d' : includes_char ":" (ownerKind rec) = false -> insertRecoveryItem a rec c b s e d = Ok d' -> classifies a d d'.
Proof. intros Hc Hi. destruct (insertRecoveryItem_Ok _ _ _ _ _ _ _ _ Hc Hi) as (? & ? & ? & _). split; [done|done|]. exists d. split; [by left|done]. Qed.
Lemma resume_command_same id w ln u now d d1 : resume_command id w ln u now d = Ok d1 -> recovery d1 = recovery d /\ rest d1 = rest d.
Proof.
  unfold resume_command. destruct (resumable id u d) as [[[c q] k]|]; intros Hr; inv_ok; subst; [|done].
  cbn. destruct (admissions d !! id) as [x|]; [|done]. by destruct (domains d !! ad_domain x).
Qed.
Lemma bump_same_commands t id d : same_commands d (bump t id d).
Proof. by split. Qed.
Lemma bump_same_authority t id d : same_authority d (bump t id d).
Proof. by split. Qed.
Lemma commandInventoryRecord_Some d id rec : commandInventoryRecord d id = Some rec ->
  ownerKind rec = "DOMAIN_COMMAND" /\ ownerId rec = id /\ exists c, commands d !! id = Some c /\ final (cr_status c) = false.
Proof.
  unfold commandInventoryRecord. destruct (commands d !! id) as [c|]; [|done]. destruct (final (cr_status c)) eqn:E; [done|]. intros [= <-]. eauto.
Qed.
Lemma outboxInventoryRecord_Some d id rec : outboxInventoryRecord d id = Some rec -> ownerKind rec = "TRANSACTIONAL_OUTBOX" /\ ownerId rec = id.
Proof. unfold outboxInventoryRecord. destruct (rt_outbox (rest d) !! id) as [o|]; [|done]. destruct (in_delivery o); [|done]. by intros [= <-]. Qed.
Lemma manual_kinds : forallb (fun q => negb (includes_char ":" (iq_kind q))) MANUAL_INVENTORY_QUERIES = true.
Proof. vm_compute. reflexivity. Qed.
Lemma elem_of_query_records now d q rec : rec ∈ query_records now d q <-> exists x, x ∈ table d (iq_table q) /\ satisfied now (iq_predicate q) x = true /\ rec = row_record q x.
Proof.
  unfold query_records. rewrite list_elem_of_fmap. setoid_rewrite list_elem_of_In. setoid_rewrite filter_In. naive_solver.
Qed.
Lemma elem_of_inventory now d rec : rec ∈ collectInventory now d <->
  (exists id, id ∈ command_ids d /\ commandInventoryRecord d id = Some rec) \/ (exists id, id ∈ outbox_ids d /\ outboxInventoryRecord d id = Some rec) \/
  (exists q, q ∈ MANUAL_INVENTORY_QUERIES /\ rec ∈ query_records now d q) \/ rec ∈ orphan_queues d \/ rec ∈ orphan_claims d.
Proof.
  unfold collectInventory. rewrite elem_of_stable_sort, !elem_of_app, !list_elem_of_omap, list_elem_of_bind.
  assert (E : forall q, (rec ∈ query_records now d q /\ q ∈ MANUAL_INVENTORY_QUERIES) <-> (q ∈ MANUAL_INVENTORY_QUERIES /\ rec ∈ query_records now d q)) by tauto.
  setoid_rewrite E. tauto.
Qed.
Lemma inventory_kinds now d rec : rec ∈ collectInventory now d -> includes_char ":" (ownerKind rec) = false.
Proof.
  rewrite elem_of_inventory. intros [(id & _ & Hr)|[(id & _ & Hr)|[(q & Hq & Hr)|[Hr|Hr]]]].
  - by apply commandInventoryRecord_Some in Hr as [-> _].
  - by apply outboxInventoryRecord_Some in Hr as [-> _].
  - apply elem_of_query_records in Hr as (x & _ & _ & ->). pose proof manual_kinds as Hm. rewrite forallb_forall in Hm.
    apply list_elem_of_In in Hq. specialize (Hm _ Hq). by apply negb_true_iff in Hm.
  - unfold orphan_queues in Hr. rewrite elem_of_stable_sort, list_elem_of_omap in Hr. destruct Hr as ([id q] & _ & Hr). destruct (_ && _); [|done]. by injection Hr as <-.
  - unfold orphan_claims in Hr. rewrite elem_of_stable_sort, list_elem_of_omap in Hr. destruct Hr as ([id q] & _ & Hr). destruct (_ && _); [|done]. by injection Hr as <-.
Qed.
Lemma find_record_Some now d kind id rec : find_record now d kind id = Some rec -> rec ∈ collectInventory now d /\ ownerKind rec = kind /\ ownerId rec = id.
Proof. intros Hf. apply find_some in Hf as [Hin Hb]. reflect_bools. split; [by apply list_elem_of_In|done]. Qed.

(** The guard of the classification is that of [CommandWorker.resume_command]. *)
Lemma resumable_live id c d : commands d !! id = Some c -> final (cr_status c) = false ->
  match live_queue d id, claim_valid c d && negb (effect_uncertain d id) with
  | Some q, true => exists k, claims d !! cr_claim c = Some k /\ resumable id (effect_uncertain d id) d = Some (c, q, k)
  | _, _ => resumable id (effect_uncertain d id) d = None
  end.
Proof.
  intros Hc Hf. unfold live_queue, claim_valid, resumable. rewrite Hc. destruct (queue d !! id) as [q|]; [|done].
  unfold live_item. rewrite Hf. cbn [negb andb]. destruct (claims d !! cr_claim c) as [k|]; cbn; [|by destruct (_ || _)].
  destruct (bool_decide _ || bool_decide _); [|done]. cbn. destruct (negb (kc_released k)); [|done]. cbn.
  destruct (String.eqb _ _); [|done]. cbn. destruct (negb _); [eauto|done].
Qed.
(** The verdict on a command *)
Definition recoverable d (id : string) (c : command_row) : bool := is_some (live_queue d id) && (claim_valid c d && negb (effect_uncertain d id)).

Lemma resumed_command id w ln u now d d1 c q k : resumable id u d = Some (c, q, k) -> resume_command id w ln u now d = Ok d1 ->
  commands d1 = <[id := set_command C_ACCEPTED (cr_result c) (cr_error c) ln (kc_fence k + 1) c]> (commands d) /\
  claims d1 = <[cr_claim c := resume_claim w (kc_fence k + 1) now ln k]> (claims d) /\ queue d1 = <[id := resume_item (kc_fence k + 1) now ln q]> (queue d) /\
  admissions d1 = admissions d /\ checkpoints d1 = checkpoints d.
Proof.
  unfold resume_command. intros ->. intros Hr. inv_ok. subst d1. destruct (admissions d !! id) as [x|]; [|done]. cbn. by destruct (domains d !! ad_domain x).
Qed.
Lemma resumable_Some id u d c q k : resumable id u d = Some (c, q, k) ->
  commands d !! id = Some c /\ queue d !! id = Some q /\ claims d !! cr_claim c = Some k /\ final (cr_status c) = false /\ kc_released k = false /\ kc_logical k = cr_logical c /\
  live_item q = true /\ u = false.
Proof.
  unfold resumable. destruct (commands d !! id) as [c0|]; [|done]. destruct (queue d !! id) as [q0|]; [|done]. destruct (claims d !! cr_claim c0) as [k0|] eqn:E; [|done].
  destruct (_ && _) eqn:Hb; [|done]. intros [= -> -> ->]. reflect_bools. unfold live_item. by split_and!.
Qed.

(** Whether an item was there or is new *)
Definition has_item a d (kind id : string) (c : RecoveryClassification) : Prop :=
  exists i, item d (ra_attempt a) kind id = Some i /\ it_classification i = c /\ it_blocking i = bool_decide (c = CL_MANUAL_REVIEW).
(** The rows of a resumed command in a database *)
Definition resumed_rows a (w id : string) (now : Z) (c : command_row) (q : queue_row) (k : claim_row) d : Prop :=
  commands d !! id = Some (set_command C_ACCEPTED (cr_result c) (cr_error c) (authority_lineage a) (kc_fence k + 1) c) /\
  claims d !! cr_claim c = Some (resume_claim w (kc_fence k + 1) now (authority_lineage a) k) /\
  queue d !! id = Some (resume_item (kc_fence k + 1) now (authority_lineage a) q).
Lemma classify_command_Ok a w id now d d' : classify_command a w id now d = Ok d' -> (exists p r, fenced a w d p r) /\ classifies a d d' /\
  (classified a "DOMAIN_COMMAND" id d = false -> forall c, commands d !! id = Some c -> final (cr_status c) = false ->
   if recoverable d id c
   then has_item a d' "DOMAIN_COMMAND" id (if is_some (checkpoints d !! id) then CL_TERMINAL_REPLAY else CL_RESUME) /\
        (exists q k, resumable id (effect_uncertain d id) d = Some (c, q, k) /\ resumed_rows a w id now c q k d') /\
        admissions d' = admissions d /\ checkpoints d' = checkpoints d
   else has_item a d' "DOMAIN_COMMAND" id CL_MANUAL_REVIEW /\ same_commands d d').
Proof.
  intros Hc. unfold classify_command in Hc. apply bind_Ok_inv in Hc as ([] & Hf & Hc). apply assertFence_Ok in Hf. split; [done|].
  destruct (classified a "DOMAIN_COMMAND" id d) eqn:Hcl; [inv_ok; subst; split; [apply classifies_refl|done]|].
  destruct (commands d !! id) as [c|] eqn:Hcm; [|inv_ok; subst; split; [apply classifies_refl|done]].
  destruct (final (cr_status c)) eqn:Hfin; [inv_ok; subst; split; [apply classifies_refl|]; intros _ c2 [= <-] ?; congruence|].
  pose proof (resumable_live id c d Hcm Hfin) as Hres. unfold recoverable.
  assert (Hno : item d (ra_attempt a) "DOMAIN_COMMAND" id = None) by (unfold classified in Hcl; by destruct (item d _ _ _)).
  assert (Hmanual : forall ev rec, commandInventoryRecord d id = Some rec -> insertRecoveryItem a rec CL_MANUAL_REVIEW true None ev d = Ok d' ->
    classifies a d d' /\ has_item a d' "DOMAIN_COMMAND" id CL_MANUAL_REVIEW /\ same_commands d d').
  { intros ev rec Hrec Hi. apply commandInventoryRecord_Some in Hrec as (Hk & Hid & _). assert (Hcol : includes_char ":" (ownerKind rec) = false) by (by rewrite Hk).
    split; [by eapply inserted_classifies|]. destruct (insertRecoveryItem_Ok _ _ _ _ _ _ _ _ Hcol Hi) as (_ & _ & Hs & (i & Hit & Hnew) & _).
    rewrite Hk, Hid in Hit, Hnew. destruct (Hnew Hno) as (? & ? & _). split; [|done]. by exists i. }
  destruct (live_queue d id) as [q|]; [|clear Hres].
  2:{ destruct (commandInventoryRecord d id) as [rec|] eqn:Hrec; [|unfold commandInventoryRecord in Hrec; rewrite Hcm, Hfin in Hrec; done].
      destruct (Hmanual _ _ eq_refl Hc) as [? ?]. split; [done|]. intros _ c2 [= <-] _. done. }
  destruct (claim_valid c d && negb (effect_uncertain d id)) eqn:Hv.
  2:{ destruct (commandInventoryRecord d id) as [rec|] eqn:Hrec; [|unfold commandInventoryRecord in Hrec; rewrite Hcm, Hfin in Hrec; done].
      destruct (Hmanual _ _ eq_refl Hc) as [? ?]. split; [done|]. intros _ c2 [= <-] _. by rewrite Hv. }
  destruct Hres as (k & Hk & Hres). apply bind_Ok_inv in Hc as (d1 & Hr & Hc). cbv zeta in Hc. set (d2 := bump "domain_command" _ _) in Hc.
  destruct (resume_command_same _ _ _ _ _ _ _ Hr) as [Hhd Hrs].
  destruct (resumed_command _ _ _ _ _ _ _ _ _ _ Hres Hr) as (E1 & E2 & E3 & E4 & E5).
  assert (A12 : same_authority d d2) by (split; cbn; rewrite ?Hrs; done).
  assert (Hrows : resumed_rows a w id now c q k d2) by (unfold resumed_rows; cbn; rewrite E1, E2, E3, !lookup_insert_eq; done).
  destruct (commandInventoryRecord d2 id) as [rec|] eqn:Hrec.
  2:{ unfold commandInventoryRecord in Hrec. destruct Hrows as [Hrow _]. rewrite Hrow in Hrec. done. }
  apply commandInventoryRecord_Some in Hrec as (Hkd & Hid & _). assert (Hcol : includes_char ":" (ownerKind rec) = false) by (by rewrite Hkd).
  destruct (insertRecoveryItem_Ok _ _ _ _ _ _ _ _ Hcol Hc) as (Ha & Hg & Hs & (i & Hit & Hnew) & _). rewrite Hkd, Hid in Hit, Hnew.
  split.
  - split; [by etrans| |].
    + etrans; [apply (items_grow_same a d d2); cbn; by rewrite Hrs|done].
    + exists d1. split; [right; eauto 10|]. eapply same_commands_trans; [|exact Hs]. by split.
  - intros _ c2 [= <-] _. rewrite Hv. cbn [is_some andb]. pose proof Hs as [(_ & Scl & Scm & Sad & Sq & Sck) _ _]. split_and!.
    + assert (Hno2 : item d2 (ra_attempt a) "DOMAIN_COMMAND" id = None) by (unfold item; cbn; by rewrite Hrs).
      destruct (Hnew Hno2) as (? & ? & _). exists i. split_and!; [done|done|]. by destruct (is_some _).
    + exists q, k. split; [done|]. unfold resumed_rows. by rewrite Scm, Scl, Sq.
    + rewrite Sad. exact E4.
    + rewrite Sck. exact E5.
Qed.
Lemma classify_outbox_Ok a w id d d' : classify_outbox a w id d = Ok d' -> (exists p r, fenced a w d p r) /\ classifies a d d'.
Proof.
  intros Hc. unfold classify_outbox in Hc. apply bind_Ok_inv in Hc as ([] & Hf & Hc). apply assertFence_Ok in Hf. split; [done|].
  destruct (classified a _ id d); [inv_ok; subst; apply classifies_refl|]. destruct (rt_outbox (rest d) !! id) as [o|]; [|inv_ok; subst; apply classifies_refl].
  destruct (negb (in_delivery o)); [inv_ok; subst; apply classifies_refl|]. cbv zeta in Hc. set (u := _ || _) in Hc. set (d1 := if u then d else _) in Hc.
  assert (Hd1 : same_authority d d1 /\ items_grow a d d1 /\ same_commands d d1) by (unfold d1; destruct u; split_and!; try reflexivity; try (apply items_grow_same; reflexivity); by split).
  destruct Hd1 as (A1 & G1 & S1). destruct (outboxInventoryRecord d1 id) as [rec|] eqn:Hrec; [|inv_ok; subst; split; [done|done|]; exists d; split; [by left|done]].
  apply outboxInventoryRecord_Some in Hrec as (Hk & Hid). assert (Hcol : includes_char ":" (ownerKind rec) = false) by (by rewrite Hk).
  destruct (insertRecoveryItem_Ok _ _ _ _ _ _ _ _ Hcol Hc) as (Ha & Hg & Hs & _). split; [by etrans|by etrans|]. exists d. split; [by left|by eapply same_commands_trans].
Qed.
Lemma classify_deployment_Ok a w now d d' : classify_deployment a w now d = Ok d' -> (exists p r, fenced a w d p r) /\ classifies a d d'.
Proof.
  intros Hc. unfold classify_deployment in Hc. apply bind_Ok_inv in Hc as ([] & Hf & Hc). apply assertFence_Ok in Hf. split; [done|].
  destruct (recovery d) as [r|]; [|inv_ok; subst; apply classifies_refl]. destruct (current_run d) as [[h run]|]; [|inv_ok; subst; apply classifies_refl].
  destruct (negb _); [inv_ok; subst; apply classifies_refl|]. destruct (find_record _ _ _ _) as [rec|] eqn:Hrec; [|inv_ok; subst; apply classifies_refl].
  destruct (classified _ _ _ _); [inv_ok; subst; apply classifies_refl|]. eapply inserted_classifies; [|exact Hc]. by apply find_record_Some in Hrec as (_ & -> & _).
Qed.
Lemma classify_ai_call_Ok a w id d d' : classify_ai_call a w id d = Ok d' -> (exists p r, fenced a w d p r) /\ classifies a d d'.
Proof.
  intros Hc. unfold classify_ai_call in Hc. apply bind_Ok_inv in Hc as ([] & Hf & Hc). apply assertFence_Ok in Hf. split; [done|].
  destruct (row_with_id id _) as [call|]; [|inv_ok; subst; apply classifies_refl]. destruct (includes _ _); [inv_ok; subst; apply classifies_refl|].
  destruct (classified _ _ _ _); [inv_ok; subst; apply classifies_refl|]. eapply inserted_classifies; [|exact Hc]. done.
Qed.
Lemma classify_session_Ok a w id now d d' : classify_session a w id now d = Ok d' -> (exists p r, fenced a w d p r) /\ classifies a d d'.
Proof.
  intros Hc. unfold classify_session in Hc. apply bind_Ok_inv in Hc as ([] & Hf & Hc). apply assertFence_Ok in Hf. split; [done|].
  destruct (classified _ _ _ _); [inv_ok; subst; apply classifies_refl|]. destruct (find_record _ _ _ _) as [rec|] eqn:Hrec; [|inv_ok; subst; apply classifies_refl].
  destruct (row_with_id id _) as [session|]; [|inv_ok; subst; apply classifies_refl]. destruct (negb _); [inv_ok; subst; apply classifies_refl|].
  eapply inserted_classifies; [|exact Hc]. by apply find_record_Some in Hrec as (_ & -> & _).
Qed.

(** *** The rest of the inventory *)

Lemma review_records_Ok a l d d' : Forall (fun rec => includes_char ":" (ownerKind rec) = false) l -> fold_result (review_record a) d l = Ok d' ->
  same_authority d d' /\ items_grow a d d' /\ same_commands d d' /\
  (forall rec, rec ∈ l -> is_Some (item d' (ra_attempt a) (ownerKind rec) (ownerId rec))) /\
  (forall rec, rec ∈ l -> item d (ra_attempt a) (ownerKind rec) (ownerId rec) = None ->
     exists i, item d' (ra_attempt a) (ownerKind rec) (ownerId rec) = Some i /\ it_blocking i = true) /\
  (forall k i, rt_items (rest d') !! k = Some i -> rt_items (rest d) !! k = Some i \/ it_blocking i = true /\ exists rec, rec ∈ l /\ k = (ra_attempt a, ownerKind rec, ownerId rec)).
Proof.
  intros Hl. revert d. induction Hl as [|rec l Hrec Hl IH]; intros d; cbn; intros Hf.
  { inv_ok. subst. split_and!; try done; try (by split); auto; intros rec Hx; by apply not_elem_of_nil in Hx. }
  apply bind_Ok_inv in Hf as (d1 & H1 & H2). destruct (IH _ H2) as (A2 & G2 & S2 & K2 & B2 & N2).
  assert (H1' : same_authority d d1 /\ items_grow a d d1 /\ same_commands d d1 /\ (exists i, item d1 (ra_attempt a) (ownerKind rec) (ownerId rec) = Some i /\
    (item d (ra_attempt a) (ownerKind rec) (ownerId rec) = None -> it_blocking i = true)) /\
    (forall k, k <> (ra_attempt a, ownerKind rec, ownerId rec) -> rt_items (rest d1) !! k = rt_items (rest d) !! k)).
  { unfold review_record in H1. unfold classified in H1. destruct (item d (ra_attempt a) (ownerKind rec) (ownerId rec)) as [i|] eqn:E; cbn in H1.
    - inv_ok. subst. split_and!; try done; try (by split). by exists i.
    - destruct (insertRecoveryItem_Ok _ _ _ _ _ _ _ _ Hrec H1) as (? & ? & ? & (i & ? & Hn) & ?). split_and!; try done. exists i. split; [done|]. intros _. by apply Hn. }
  destruct H1' as (A1 & G1 & S1 & (i & Hi & Hb) & F1).
  assert (Hi2 : item d' (ra_attempt a) (ownerKind rec) (ownerId rec) = Some i) by (by apply (ig_kept _ _ _ G2)).
  split_and!; [by etrans|by etrans|by eapply same_commands_trans| | |].
  - intros rec' [->|Hin]%elem_of_cons; [eauto|auto].
  - intros rec' [->|Hin]%elem_of_cons Hno; [eauto|].
    destruct (decide ((ra_attempt a, ownerKind rec', ownerId rec') = (ra_attempt a, ownerKind rec, ownerId rec))) as [[= E1 E2]|Hne].
    + rewrite E1, E2 in *. eauto.
    + apply B2; [done|]. unfold item in *. by rewrite F1.
  - intros k j Hk. destruct (N2 _ _ Hk) as [Hk1|(? & rec' & ? & ->)]; [|right; split; [done|]; exists rec'; split; [by right|done]].
    destruct (decide (k = (ra_attempt a, ownerKind rec, ownerId rec))) as [->|Hne]; [|left; by rewrite <- F1].
    unfold item in *. destruct (rt_items (rest d) !! (ra_attempt a, ownerKind rec, ownerId rec)) as [j'|] eqn:E.
    + left. apply (ig_kept _ _ _ G1) in E. congruence.
    + right. rewrite Hi in Hk1. injection Hk1 as <-. split; [auto|]. exists rec. split; [left|done].
Qed.
Lemma classify_remaining_Ok a w now d d' : classify_remaining a w now d = Ok d' -> exists p r d1, fenced a w d p r /\
  fold_result (review_record a) d (collectInventory now d) = Ok d1 /\ fenced a w d1 p r /\
  d' = on_rest (with_attempts (<[ra_attempt a := set_first (json_digest (inventory_json (collectInventory now d1))) (watermark (collectInventory now d1)) (now + RECOVERY_LEASE) p]>
         (rt_attempts (rest d1)))) d1.
Proof.
  intros Hc. unfold classify_remaining in Hc. apply bind_Ok_inv in Hc as ([] & Hf & Hc). apply assertFence_Ok in Hf as (p & r & Hf).
  apply bind_Ok_inv in Hc as (d1 & Hfold & Hc). exists p, r, d1. split; [done|]. split; [done|].
  assert (Hk : Forall (fun rec => includes_char ":" (ownerKind rec) = false) (collectInventory now d)) by (apply Forall_forall; apply inventory_kinds).
  destruct (review_records_Ok _ _ _ _ Hk Hfold) as (A & _). pose proof (fenced_same _ _ _ _ _ _ A Hf) as Hf1. split; [done|].
  destruct (update_attempt_Ok _ _ _ _ Hc) as [[Hno _]|(p' & Hp' & -> & _)]; [rewrite (fe_attempt _ _ _ _ _ Hf1) in Hno; done|].
  rewrite (fe_attempt _ _ _ _ _ Hf1) in Hp'. by injection Hp' as <-.
Qed.

(** *** The decision *)

Lemma app_sep_inj (c : ascii) (l1 l2 r1 r2 : list ascii) : c ∉ l1 -> c ∉ l2 -> l1 ++ c :: r1 = l2 ++ c :: r2 -> l1 = l2 /\ r1 = r2.
Proof.
  revert l2. induction l1 as [|x l1 IH]; intros [|y l2]; cbn; rewrite ?not_elem_of_cons.
  - by intros _ _ [= ->].
  - intros _ [] [=]. congruence.
  - intros [] _ [=]. congruence.
  - intros [_ H1] [_ H2] [= -> E]. by destruct (IH l2 H1 H2 E) as [-> ->].
Qed.
Lemma includes_char_false c s : includes_char c s = false -> c ∉ chars s.
Proof.
  unfold includes_char. induction s as [|x s IH]; cbn; [by intros _ ?%not_elem_of_nil|]. intros [Hx Hs]%orb_false_iff. rewrite not_elem_of_cons.
  apply Ascii.eqb_neq in Hx. auto.
Qed.
Lemma owner_text_inj k i k' i' : includes_char ":" k = false -> includes_char ":" k' = false -> owner_text k i = owner_text k' i' -> k = k' /\ i = i'.
Proof.
  intros Hk Hk' E. apply (f_equal chars) in E. unfold owner_text in E. rewrite !chars_app in E. cbn in E.
  apply app_sep_inj in E as [E1 E2]; [|by apply includes_char_false..]. split; by apply chars_inj.
Qed.
Lemma includes_elem s l : includes s l = true <-> s ∈ l.
Proof.
  unfold includes. rewrite existsb_exists. setoid_rewrite String.eqb_eq. rewrite list_elem_of_In. naive_solver.
Qed.

(** The kinds of the items hold no separator. *)
Definition kinds_ok d : Prop := forall k i, rt_items (rest d) !! k = Some i -> includes_char ":" k.1.2 = false.
Lemma elem_of_attempt_items a d kind id i : (ra_attempt a, kind, id, i) ∈ attempt_items a d <-> item d (ra_attempt a) kind id = Some i.
Proof.
  unfold attempt_items. rewrite elem_of_stable_sort, list_elem_of_In, filter_In, <- list_elem_of_In, elem_of_map_to_list. rewrite String.eqb_refl. unfold item. naive_solver.
Qed.
Lemma attempt_items_key a d x : x ∈ attempt_items a d -> x.1.1.1 = ra_attempt a.
Proof.
  unfold attempt_items. rewrite elem_of_stable_sort, list_elem_of_In, filter_In. destruct x as [[[x k] i] y]. intros [_ E]. cbn. by apply String.eqb_eq.
Qed.
Lemma settled_spec a d kind id : kinds_ok d -> includes_char ":" kind = false ->
  includes (owner_text kind id) (nonBlockingOwners a d) = true <-> exists i, item d (ra_attempt a) kind id = Some i /\ it_blocking i = false.
Proof.
  intros Hk Hc. rewrite includes_elem. unfold nonBlockingOwners. rewrite list_elem_of_fmap. setoid_rewrite list_elem_of_In. setoid_rewrite filter_In.
  setoid_rewrite <- list_elem_of_In. split.
  - intros ([[[x k'] i'] y] & E & Hin & Hb). pose proof (attempt_items_key _ _ _ Hin) as Hx. cbn in Hx. subst x. apply elem_of_attempt_items in Hin.
    unfold item_owner in E. cbn in E. apply owner_text_inj in E as [-> ->]; [|done|exact (Hk _ _ Hin)]. exists y. split; [done|]. by apply negb_true_iff.
  - intros (i & Hi & Hb). exists (ra_attempt a, kind, id, i). rewrite elem_of_attempt_items. cbn. by rewrite Hb.
Qed.
Lemma blockers_spec a d : blockers a d = [] <-> forall kind id i, item d (ra_attempt a) kind id = Some i -> it_blocking i = false.
Proof.
  unfold blockers. split.
  - intros E kind id i Hi. apply map_eq_nil in E. destruct (it_blocking i) eqn:Hb; [|done]. exfalso.
    assert (Hin : (ra_attempt a, kind, id, i) ∈ List.filter (fun p => it_blocking p.2) (attempt_items a d)).
    { rewrite list_elem_of_In, filter_In, <- list_elem_of_In, elem_of_attempt_items. done. }
    rewrite E in Hin. by apply not_elem_of_nil in Hin.
  - intros Hall. destruct (List.filter _ _) as [|x l] eqn:E; [done|]. exfalso.
    assert (Hin : x ∈ List.filter (fun p => it_blocking p.2) (attempt_items a d)) by (rewrite E; left).
    rewrite list_elem_of_In, filter_In, <- list_elem_of_In in Hin. destruct x as [[[x k] i] y], Hin as [Hin Hb].
    pose proof (attempt_items_key _ _ _ Hin) as Hx. cbn in Hx. subst x. apply elem_of_attempt_items in Hin. cbn in Hb. by rewrite (Hall _ _ _ Hin) in Hb.
Qed.
(** Everything the inventory holds is accounted for by an item that needs no review. *)
Definition accounted a d (l : list InventoryRecord) : Prop :=
  forall rec, rec ∈ l -> exists i, item d (ra_attempt a) (ownerKind rec) (ownerId rec) = Some i /\ it_blocking i = false.
Definition nothing_blocks a d : Prop := forall kind id i, item d (ra_attempt a) kind id = Some i -> it_blocking i = false.
Lemma stable_sort_nil (l : list string) : stable_sort str_leb (remove_dups l) = [] <-> l = [].
Proof.
  split; [|by intros ->]. intros E. destruct l as [|x l]; [done|]. exfalso.
  assert (Hx : x ∈ stable_sort str_leb (remove_dups (x :: l))) by (rewrite elem_of_stable_sort, elem_of_remove_dups; left).
  rewrite E in Hx. by apply not_elem_of_nil in Hx.
Qed.
Lemma omap_nil {A B} (f : A -> option B) l : omap f l = [] <-> forall x, x ∈ l -> f x = None.
Proof.
  split.
  - intros E x Hx. destruct (f x) as [y|] eqn:Ef; [|done]. assert (Hy : y ∈ omap f l) by (apply list_elem_of_omap; eauto). rewrite E in Hy. by apply not_elem_of_nil in Hy.
  - intros Hall. induction l as [|x l IH]; cbn; [done|]. rewrite (Hall x) by left. apply IH. intros y Hy. apply Hall. by right.
Qed.
Lemma filter_nil_iff {A} (f : A -> bool) l : List.filter f l = [] <-> forall x, x ∈ l -> f x = false.
Proof.
  split.
  - intros E x Hx. destruct (f x) eqn:Ef; [|done]. assert (Hy : In x (List.filter f l)) by (apply filter_In; by rewrite <- list_elem_of_In). rewrite E in Hy. by destruct Hy.
  - intros Hall. induction l as [|x l IH]; cbn; [done|]. rewrite (Hall x) by left. apply IH. intros y Hy. apply Hall. by right.
Qed.
Lemma digest_stable_spec p l : digest_stable p l = true <-> pa_first p = Some (json_digest (inventory_json l)).
Proof. unfold digest_stable, bytes_eqb. destruct (pa_first p); [|done]. rewrite bool_decide_eq_true. naive_solver. Qed.
Lemma unresolved_nil a p d l : kinds_ok d -> Forall (fun rec => includes_char ":" (ownerKind rec) = false) l ->
  unresolved_of a p d l = [] <-> accounted a d l /\ nothing_blocks a d /\ pa_first p = Some (json_digest (inventory_json l)) /\ pa_schema p = schemaConstraintDigest d.
Proof.
  intros Hk Hl. unfold unresolved_of. rewrite stable_sort_nil, !app_nil, blockers_spec. rewrite <- digest_stable_spec. unfold bytes_eqb.
  assert (Hd : (if digest_stable p l then [] else ["INVENTORY_DIGEST_CHANGED"]) = [] <-> digest_stable p l = true) by (by destruct (digest_stable p l)).
  assert (Hs : (if bool_decide (pa_schema p = schemaConstraintDigest d) then [] else ["SCHEMA_CONSTRAINT_DIGEST_CHANGED"]) = [] <-> pa_schema p = schemaConstraintDigest d)
    by (by case_bool_decide).
  rewrite Hd, Hs, !filter_nil_iff. unfold nothing_blocks.
  assert (Hm : (forall x, x ∈ missing a d l -> negb (includes x (nonBlockingOwners a d)) = false) /\
    (forall kind id i, item d (ra_attempt a) kind id = Some i -> it_blocking i = false) <-> accounted a d l /\
    (forall kind id i, item d (ra_attempt a) kind id = Some i -> it_blocking i = false)).
  { split; intros [Hx Hb]; (split; [|done]).
    - intros rec Hin. destruct (item d (ra_attempt a) (ownerKind rec) (ownerId rec)) as [i|] eqn:E; [eauto|]. exfalso.
      rewrite Forall_forall in Hl. specialize (Hx (owner_text (ownerKind rec) (ownerId rec))). rewrite negb_false_iff, settled_spec in Hx by auto.
      destruct Hx as (i & Hi & _); [|congruence]. unfold missing. apply list_elem_of_omap. exists rec. by rewrite E.
    - intros x. unfold missing. rewrite list_elem_of_omap. intros (rec & Hin & E). destruct (Hx _ Hin) as (i & Hi & _). by rewrite Hi in E. }
  assert (Hc : accounted a d l -> forall x, x ∈ changed a d l -> negb (includes x (nonBlockingOwners a d)) = false).
  { intros Ha x. unfold changed. rewrite list_elem_of_omap. intros (rec & Hin & E). destruct (Ha _ Hin) as (i & Hi & Hb). rewrite Hi in E.
    destruct (Commands.bytes_eqb _ _); [done|]. injection E as <-. rewrite negb_false_iff, settled_spec; [eauto|done|]. rewrite Forall_forall in Hl. auto. }
  tauto.
Qed.

Lemma finalize_Ok a w now d res d' : finalize a w now d = Ok (res, d') -> exists p r ev, fenced a w d p r /\
  pr_unresolvedObjectIds res = unresolved_of a p d (collectInventory now d) /\ pr_state res = decide_state a d (pr_unresolvedObjectIds res) /\
  pr_attempt res = ra_attempt a /\ pr_epoch res = ra_epoch a /\
  d' = on_rest (with_head (Some (ra_attempt a)) (if bool_decide (pr_state res = RS_READY) then Some ev else None)) (set_recovery (set_head_state (pr_state res) r)
         (on_rest (with_attempts (<[ra_attempt a := finish_attempt (pr_state res) now (Some (json_digest (inventory_json (collectInventory now d))))
            (JObj (map (fun '(k, n) => (k, JNum n)) (classification_counts a d))) (pr_unresolvedObjectIds res) ev p]> (rt_attempts (rest d)))) d)).
Proof.
  intros Hf. unfold finalize in Hf. apply bind_Ok_inv in Hf as ([] & Hfe & Hf). apply assertFence_Ok in Hfe as (p & r & Hfe).
  apply bind_Ok_inv in Hf as (p' & Hp' & Hf). rewrite (fe_attempt _ _ _ _ _ Hfe) in Hp'. cbn in Hp'. injection Hp' as <-.
  set (unresolved := unresolved_of a p d (collectInventory now d)) in *. set (state := decide_state a d unresolved) in *. set (ev := json_digest (JObj _)) in *.
  apply bind_Ok_inv in Hf as (d1 & H1 & Hf). apply bind_Ok_inv in Hf as (d2 & H2 & Hf). injection Hf as <- <-. cbn.
  exists p, r, ev. split; [done|]. split; [done|]. split; [done|]. split; [done|]. split; [done|].
  apply update_attempt_Ok in H1 as [[Hno _]|(p' & Hp' & -> & _)]; [rewrite (fe_attempt _ _ _ _ _ Hfe) in Hno; done|].
  rewrite (fe_attempt _ _ _ _ _ Hfe) in Hp'. injection Hp' as <-.
  assert (Hat : forall m, head_at (ra_attempt a) (ra_fence a) (on_rest (with_attempts m) d) = true).
  { intros m. unfold head_at. cbn. rewrite (fe_head _ _ _ _ _ Hfe), (fe_current _ _ _ _ _ Hfe), (proj2 (fe_fence _ _ _ _ _ Hfe)), Z.eqb_refl. by rewrite bool_decide_eq_true_2. }
  rewrite Hat in H2. apply (write_head_Ok _ _ _ _ _ r) in H2 as [-> _]; [|cbn; apply Hfe]. cbn. by rewrite (fe_current _ _ _ _ _ Hfe).
Qed.

(** *** Leases and epochs *)

Lemma supersede_Ok id p d d' : attempt d id = Some p -> supersede id p d = Ok d' ->
  d' = d /\ pa_finished p = true \/
  exists p', d' = on_rest (with_attempts (<[id := p']> (rt_attempts (rest d)))) d /\ pa_finished p = false /\ pa_finished p' = true /\ pa_state p' = RS_BLOCKED /\
    pa_fence p' = pa_fence p /\ pa_epoch p' = pa_epoch p.
Proof.
  intros Hp. unfold supersede. destruct (pa_finished p) eqn:Hfin; [intros [= <-]; by left|]. intros Hs. right.
  apply bind_Ok_inv in Hs as (d1 & H1 & H2).
  assert (Hd1 : exists p1, d1 = on_rest (with_attempts (<[id := p1]> (rt_attempts (rest d)))) d /\ pa_fence p1 = pa_fence p /\ pa_epoch p1 = pa_epoch p).
  { case_bool_decide.
    - apply update_attempt_Ok in H1 as [[Hno _]|(p0 & Hp0 & -> & _)]; [congruence|]. rewrite Hp in Hp0. injection Hp0 as <-. eexists. split; [reflexivity|done].
    - injection H1 as <-. exists p. split; [|done]. unfold on_rest, with_attempts. unfold attempt in Hp. rewrite insert_id by done. by destruct d as [? ? ? ? ? ? ? ? ? ? ? []]. }
  destruct Hd1 as (p1 & -> & Hf1 & He1). apply update_attempt_Ok in H2 as [[Hno _]|(p0 & Hp0 & -> & _ & _ & He & _)]; [unfold attempt in Hno; cbn in Hno; by rewrite lookup_insert_eq in Hno|].
  unfold attempt in Hp0. cbn in Hp0. rewrite lookup_insert_eq in Hp0. injection Hp0 as <-. eexists. split_and!; [cbn; by rewrite insert_insert_eq|done..| |]; cbn; congruence.
Qed.
Lemma begin_epoch_Ok w id now r d a d' : recovery d = Some r -> begin_epoch w id now r d = Ok (a, d') -> exists u, uuid_value w = Some u /\
  a = authority_of r id (recovery_epoch r + 1) (recovery_fencing_token r + 1) /\ attempt d id = None /\
  (forall id' p, attempt d id' = Some p -> pa_epoch p <> recovery_epoch r + 1) /\
  d' = on_rest (with_head (Some id) None) (set_recovery (open_epoch (recovery_fencing_token r + 1) r)
         (on_rest (with_attempts (<[id := new_attempt r u (recovery_fencing_token r + 1) now (schemaConstraintDigest d)]> (rt_attempts (rest d)))) d)).
Proof.
  intros Hr Hb. unfold begin_epoch in Hb. inv_ok. simplify_eq. reflect_bools.
  match goal with Hu : uuid_value w = Some ?u |- _ => exists u; split; [exact Hu|] end.
  match goal with Hw : write_head _ _ _ _ = Ok _ |- _ => apply (write_head_Ok _ _ _ _ _ r) in Hw as [-> _]; [|exact Hr] end.
  split_and!; [done|by destruct (attempt d id)| |done]. intros id' p Hp He.
  match goal with Hx : existsb _ _ = false |- _ => revert Hx end. apply not_false_iff_true, existsb_exists. exists (id', p).
  split; [|by apply Z.eqb_eq]. apply list_elem_of_In, elem_of_map_to_list. exact Hp.
Qed.
(** [u] is the owner that the attempt records. *)
Inductive began u id (now : Z) (r : recovery_row) d a d' : Prop :=
| began_takeover (id0 : string) (p : attempt_row) : rt_attempt (rest d) = Some id0 -> attempt d id0 = Some p -> reusable r p = true ->
    a = authority_of r id0 (pa_epoch p) (pa_fence p + 1) ->
    d' = on_rest (with_head (Some id0) (rt_evidence (rest d))) (set_recovery (set_head_fence (pa_fence p + 1) r)
           (on_rest (with_attempts (<[id0 := take_lease u (pa_fence p + 1) now p]> (rt_attempts (rest d)))) d)) -> began u id now r d a d'
| began_epoch (d1 : rec_db) : attempt d1 id = None -> a = authority_of r id (recovery_epoch r + 1) (recovery_fencing_token r + 1) ->
    (d1 = d /\ (forall id0 p, rt_attempt (rest d) = Some id0 -> attempt d id0 = Some p -> pa_finished p = true) \/
     exists id0 p p', rt_attempt (rest d) = Some id0 /\ attempt d id0 = Some p /\ d1 = on_rest (with_attempts (<[id0 := p']> (rt_attempts (rest d)))) d /\
       pa_finished p = false /\ pa_finished p' = true /\ pa_state p' = RS_BLOCKED /\ pa_fence p' = pa_fence p /\ pa_epoch p' = pa_epoch p) ->
    d' = on_rest (with_head (Some id) None) (set_recovery (open_epoch (recovery_fencing_token r + 1) r)
           (on_rest (with_attempts (<[id := new_attempt r u (recovery_fencing_token r + 1) now (schemaConstraintDigest d1)]> (rt_attempts (rest d1)))) d1)) ->
    began u id now r d a d'.
Lemma beginOrTakeOver_Ok w id now d a d' : beginOrTakeOver w id now d = Ok (a, d') -> exists u r, uuid_value w = Some u /\ recovery d = Some r /\ began u id now r d a d'.
Proof.
  intros Hb. unfold beginOrTakeOver in Hb. apply bind_Ok_inv in Hb as (r & Hr & Hb). apply or_throw_Ok in Hr.
  assert (Hfresh : forall d1, recovery d1 = Some r -> begin_epoch w id now r d1 = Ok (a, d') ->
    (d1 = d /\ (forall id0 p, rt_attempt (rest d) = Some id0 -> attempt d id0 = Some p -> pa_finished p = true) \/
     exists id0 p p', rt_attempt (rest d) = Some id0 /\ attempt d id0 = Some p /\ d1 = on_rest (with_attempts (<[id0 := p']> (rt_attempts (rest d)))) d /\
       pa_finished p = false /\ pa_finished p' = true /\ pa_state p' = RS_BLOCKED /\ pa_fence p' = pa_fence p /\ pa_epoch p' = pa_epoch p) ->
    exists u r, uuid_value w = Some u /\ recovery d = Some r /\ began u id now r d a d').
  { intros d1 Hr1 H1 Hd1. destruct (begin_epoch_Ok _ _ _ _ _ _ _ Hr1 H1) as (u & Hu & -> & Hno & _ & ->). exists u, r. split_and!; [done|done|]. by eapply began_epoch. }
  destruct (rt_attempt (rest d)) as [id0|] eqn:Hat; [|apply (Hfresh d); [done..|]; left; split; [done|]; intros ? ? [=]].
  destruct (attempt d id0) as [p|] eqn:Hp; [|apply (Hfresh d); [done..|]; left; split; [done|]; intros ? ? [= <-]; congruence].
  destruct (reusable r p) eqn:Hre.
  - apply bind_Ok_inv in Hb as (u & Hu & Hb). apply or_throw_Ok in Hu. apply bind_Ok_inv in Hb as (? & _ & Hb). apply bind_Ok_inv in Hb as (d1 & H1 & Hb). apply bind_Ok_inv in Hb as (d2 & H2 & Hb). injection Hb as <- <-.
    apply update_attempt_Ok in H1 as [[Hno _]|(p0 & Hp0 & -> & _)]; [congruence|]. rewrite Hp in Hp0. injection Hp0 as <-.
    apply (write_head_Ok _ _ _ _ _ r) in H2 as [-> _]; [|exact Hr]. cbn. rewrite Hat. exists u, r. split_and!; [done|done|]. by eapply began_takeover.
  - apply bind_Ok_inv in Hb as (d1 & H1 & Hb). destruct (supersede_Ok _ _ _ _ Hp H1) as [[-> Hfin]|(p' & -> & Hu & ?)].
    + apply (Hfresh d); [done..|]. left. split; [done|]. intros id1 p1 [= <-] Hp1. congruence.
    + apply (Hfresh (on_rest (with_attempts (<[id0 := p']> (rt_attempts (rest d)))) d)); [done..|]. right. exists id0, p, p'. split_and!; tauto.
Qed.
Lemma began_same_commands w id now r d a d' : began w id now r d a d' -> same_commands d d'.
Proof. intros [id0 p _ _ _ _ ->|d1 _ _ [[-> _]|(id0 & p & p' & _ & _ & -> & _)] ->]; split; done. Qed.
Lemma enterReconciling_Ok a w now d d' : enterReconciling a w now d = Ok d' -> exists p, attempt d (ra_attempt a) = Some p /\ pa_owner p = w /\ pa_fence p = ra_fence a /\
  exists d1, (pa_state p = RS_STARTING /\ pa_finished p = false /\ d1 = on_rest (with_attempts (<[ra_attempt a := set_attempt_state RS_RECONCILING (now + RECOVERY_LEASE) p]> (rt_attempts (rest d)))) d \/
              pa_state p <> RS_STARTING /\ d1 = d) /\
    (head_at (ra_attempt a) (ra_fence a) d = false /\ d' = d1 \/
     exists r, recovery d = Some r /\ recovery_fencing_token r = ra_fence a /\ rt_attempt (rest d) = Some (ra_attempt a) /\
       d' = on_rest (with_head (Some (ra_attempt a)) (rt_evidence (rest d))) (set_recovery (set_head_state RS_RECONCILING r) d1)).
Proof.
  intros He. unfold enterReconciling in He. apply bind_Ok_inv in He as (p & Hp & He). apply or_throw_Ok in Hp. apply bind_Ok_inv in He as (? & Hst & He).
  apply throw_if_Ok in Hst. reflect_bools. apply bind_Ok_inv in He as (d1 & Hup & He). exists p. split_and!; [done..|]. exists d1.
  assert (Hd1 : (pa_state p = RS_STARTING /\ pa_finished p = false /\ d1 = on_rest (with_attempts (<[ra_attempt a := set_attempt_state RS_RECONCILING (now + RECOVERY_LEASE) p]> (rt_attempts (rest d)))) d \/
              pa_state p <> RS_STARTING /\ d1 = d)).
  { case_bool_decide; [|injection Hup as <-; by right]. left. apply update_attempt_Ok in Hup as [[Hno _]|(p0 & Hp0 & -> & Hfin & _)]; [congruence|].
    rewrite Hp in Hp0. by injection Hp0 as <-. }
  split; [exact Hd1|]. assert (Hat : head_at (ra_attempt a) (ra_fence a) d1 = head_at (ra_attempt a) (ra_fence a) d) by (by destruct Hd1 as [(_ & _ & ->)|[_ ->]]).
  rewrite Hat in He. destruct (head_at _ _ d) eqn:Hh; [|left; by injection He as <-]. right.
  unfold head_at in Hh. apply andb_true_iff in Hh as [Hc Hh]. apply bool_decide_eq_true in Hc. destruct (recovery d) as [r|] eqn:Hr; [|done]. apply Z.eqb_eq in Hh.
  exists r. split_and!; [done..|]. apply (write_head_Ok _ _ _ _ _ r) in He as [-> _]; [|by destruct Hd1 as [(_ & _ & ->)|[_ ->]]].
  assert (Hrt : rt_attempt (rest d1) = Some (ra_attempt a) /\ rt_evidence (rest d1) = rt_evidence (rest d)) by (by destruct Hd1 as [(_ & _ & ->)|[_ ->]]).
  destruct Hrt as [-> ->]. done.
Qed.
End Theory.
