(* ===== verification/RecoverySystem.v ===== *)
(** * The recovery among the workers

    The transactions of [PlatformRecovery] interleaved with the system of [CommandWorker]: any number of coordinators
    that may crash, be taken over or be superseded, restarts that change the identity of the database or the deployment,
    and the workers of the commands.  The steps are atomic transactions; what runs in between leaves the tables of the
    recovery alone, which only the coordinator writes. *)
From Stdlib Require Import Ascii String.
From S2P Require Import Prelude Bytes Json Text Digest CanonicalValue IpcFrame IpcChannel IpcBroker AuditChain Database ErrorRegistry Contracts Schemas Commands CommandWorker PlatformRecovery.

(** ** The transactions of a coordinator *)

Inductive recovery_op :=
| OpEnter | OpCommand (id : string) | OpOutbox (id : string) | OpDeployment | OpAiCall (id : string) | OpSession (id : string) | OpRemaining | OpFinalize.
#[export] Instance recovery_op_eq_dec : EqDecision recovery_op.
Proof. solve_decision. Defined.

Section System.
Context `{L : Locale} `{H : Hash} `{F : Formats} {W : Type} `{Src : InventorySource W} `{D : CommandDomain (recovery_tables W)}
  `{M : CommandHandlers (recovery_tables W)} `{Law : !LawfulHandlers}.
Context (cat : OperationCatalogService) (reg : gmap string StableErrorRecord).
Abbreviation rec_db := (cmd_db (recovery_tables W)).
Implicit Types (d : rec_db) (a : RecoveryAuthority).

Definition run_op a (workerId : string) (op : recovery_op) (now : Z) d : result rec_db :=
  match op with
  | OpEnter => enterReconciling a workerId now d
  | OpCommand id => classify_command a workerId id now d
  | OpOutbox id => classify_outbox a workerId id d
  | OpDeployment => classify_deployment a workerId now d
  | OpAiCall id => classify_ai_call a workerId id d
  | OpSession id => classify_session a workerId id now d
  | OpRemaining => classify_remaining a workerId now d
  | OpFinalize => snd <$> finalize a workerId now d
  end.
Lemma run_op_Ok a w op now d d' : run_op a w op now d = Ok d' -> op <> OpEnter -> exists p r, fenced a w d p r /\
  (classifies a d d' \/
   (exists d1, classifies a d d1 /\ (forall k i, rt_items (rest d1) !! k = Some i -> rt_items (rest d) !! k = Some i \/ it_blocking i = true) /\
      exists digest mark expires, d' = on_rest (with_attempts (<[ra_attempt a := set_first digest mark expires p]> (rt_attempts (rest d1)))) d1) \/
   exists res, finalize a w now d = Ok (res, d')).
Proof.
  intros Hr Hn. destruct op; cbn in Hr; [done|..].
  - apply classify_command_Ok in Hr as ((p & r & Hf) & Hc & _). eauto.
  - apply classify_outbox_Ok in Hr as ((p & r & Hf) & Hc). eauto.
  - apply classify_deployment_Ok in Hr as ((p & r & Hf) & Hc). eauto.
  - apply classify_ai_call_Ok in Hr as ((p & r & Hf) & Hc). eauto.
  - apply classify_session_Ok in Hr as ((p & r & Hf) & Hc). eauto.
  - apply classify_remaining_Ok in Hr as (p & r & d1 & Hf & Hfold & _ & ->). exists p, r. split; [done|]. right. left. exists d1.
    assert (Hk : Forall (fun rec => includes_char ":" (ownerKind rec) = false) (collectInventory now d)) by (apply Forall_forall; apply inventory_kinds).
    destruct (review_records_Ok _ _ _ _ Hk Hfold) as (A & G & Sm & _ & _ & N). split; [|split; [|by eauto]].
    + split; [done|done|]. exists d. split; [by left|done].
    + intros k i Hi. destruct (N k i Hi) as [?|[? _]]; auto.
  - destruct (finalize a w now d) as [[res d1]|] eqn:E; [|done]. cbn in Hr. injection Hr as <-.
    pose proof (finalize_Ok _ _ _ _ _ _ E) as (p & r & ev & Hf & _). eauto 10.
Qed.

(** ** The system *)

(** The coordinators by attempt and fence, with whether they entered the reconciliation *)
Abbreviation crew_map := (gmap (string * Z) (RecoveryAuthority * string * bool)).
Record recovery_system := RSys { crew : system (W := recovery_tables W); coordinators : crew_map }.
Abbreviation data s := (db (crew s)).
Record same_recovery d d' : Prop := {
  sr_head : recovery d' = recovery d;
  sr_tables : rt_attempt (rest d') = rt_attempt (rest d) /\ rt_attempts (rest d') = rt_attempts (rest d) /\ rt_items (rest d') = rt_items (rest d);
}.
(** The database restarts or a deployment moves on: only what the head is compared with changes. *)
Record restarted (r r' : recovery_row) : Prop := {
  rr_lineage : database_start_identity r' = database_start_identity r /\ rec_incarnation r' = rec_incarnation r /\
               application_deployment_epoch r' = application_deployment_epoch r;
  rr_fence : recovery_epoch r' = recovery_epoch r /\ recovery_fencing_token r' = recovery_fencing_token r /\ rec_state r' = rec_state r;
}.
Inductive rstep : recovery_system -> recovery_system -> Prop :=
| rs_crew s s' c : step cat reg s s' -> same_recovery (db s) (db s') -> rstep (RSys s c) (RSys s' c)
| rs_restart d fl l c r r' : recovery d = Some r -> restarted r r' -> rstep (RSys (Sys d fl l) c) (RSys (Sys (set_recovery r' d) fl l) c)
| rs_begin w id now d a d' fl l c : beginOrTakeOver w id now d = Ok (a, d') ->
    rstep (RSys (Sys d fl l) c) (RSys (Sys d' fl l) (<[(ra_attempt a, ra_fence a) := (a, w, false)]> c))
| rs_enter w now d a d' fl l c : c !! (ra_attempt a, ra_fence a) = Some (a, w, false) -> run_op a w OpEnter now d = Ok d' ->
    rstep (RSys (Sys d fl l) c) (RSys (Sys d' fl l) (<[(ra_attempt a, ra_fence a) := (a, w, true)]> c))
| rs_op w op now d a d' fl l c : c !! (ra_attempt a, ra_fence a) = Some (a, w, true) -> op <> OpEnter -> run_op a w op now d = Ok d' ->
    rstep (RSys (Sys d fl l) c) (RSys (Sys d' fl l) c).
(** The head of a new platform is ready without an attempt. *)
Definition recovery_initial (s : recovery_system) : Prop :=
  initial (crew s) /\ coordinators s = ∅ /\ rt_attempt (rest (data s)) = None /\ rt_attempts (rest (data s)) = ∅ /\ rt_items (rest (data s)) = ∅ /\
  forall r, recovery (data s) = Some r -> 0 < recovery_epoch r /\ 0 <= recovery_fencing_token r.
Definition recovery_reachable (s : recovery_system) : Prop := exists s0, recovery_initial s0 /\ star rstep s0 s.

(** ** The invariant *)

(** The head repeats its attempt. *)
Record head_of (p : attempt_row) (r : recovery_row) : Prop := {
  ho_lineage : pa_identity p = database_start_identity r /\ pa_incarnation p = rec_incarnation r /\ pa_deployment p = application_deployment_epoch r;
  ho_epoch : pa_epoch p = recovery_epoch r;
  ho_fence : pa_fence p = recovery_fencing_token r;
  ho_state : rec_state r = state_name (pa_state p);
}.
Record attempt_ok d (id : string) (p : attempt_row) : Prop := {
  ao_finished : pa_finished p = terminal_state (pa_state p);
  ao_positive : 0 < pa_fence p /\ 0 < pa_epoch p;
  ao_former : rt_attempt (rest d) <> Some id -> pa_finished p = true;
  ao_bound : forall r, recovery d = Some r -> pa_epoch p <= recovery_epoch r;
  ao_ready : pa_state p = RS_READY -> pa_unresolved p = [] /\ forall kind i x, item d id kind i = Some x -> it_blocking x = false;
}.
Record coordinator_ok d (a : RecoveryAuthority) (entered : bool) (p : attempt_row) : Prop := {
  co_fence : ra_fence a <= pa_fence p;
  co_epoch : ra_epoch a = pa_epoch p;
  co_entered : entered = false -> ra_fence a < pa_fence p \/ pa_finished p = false \/ rt_attempt (rest d) <> Some (ra_attempt a);
}.
Record recovery_inv d (c : crew_map) : Prop := {
  ri_current : forall id, rt_attempt (rest d) = Some id -> exists p r, attempt d id = Some p /\ recovery d = Some r /\ head_of p r;
  ri_greenfield : rt_attempt (rest d) = None -> rt_attempts (rest d) = ∅;
  ri_attempts : forall id p, attempt d id = Some p -> attempt_ok d id p;
  ri_kinds : kinds_ok d;
  ri_positive : forall r, recovery d = Some r -> 0 < recovery_epoch r /\ 0 <= recovery_fencing_token r;
  ri_coordinators : forall id f a w e, c !! (id, f) = Some (a, w, e) -> ra_attempt a = id /\ ra_fence a = f /\
                    exists p, attempt d id = Some p /\ coordinator_ok d a e p;
}.

Lemma inv_crew d d' c : recovery_inv d c -> same_recovery d d' -> recovery_inv d' c.
Proof.
  intros [Hc Hg Ha Hk Hp Hco] [Er (Ea & Et & Ei)]. split; unfold attempt, kinds_ok, item in *; rewrite ?Er, ?Ea, ?Et, ?Ei; try done.
  - intros id p Hid. destruct (Ha id p Hid) as [? ? ? ? Hr]. split; unfold item in *; rewrite ?Ea, ?Er, ?Ei; done.
  - intros id f a w e Hin. destruct (Hco _ _ _ _ _ Hin) as (? & ? & p & ? & [? ? He]). split_and!; try done. exists p. split; [done|]. split; [done..|]. by rewrite Ea.
Qed.
Lemma inv_restart d c r r' : recovery_inv d c -> recovery d = Some r -> restarted r r' -> recovery_inv (set_recovery r' d) c.
Proof.
  intros [Hc Hg Ha Hk Hp Hco] Hr [(E1 & E2 & E3) (E4 & E5 & E6)]. split; try done.
  - intros id Hid. destruct (Hc id Hid) as (p & r0 & Hp0 & Hr0 & [[H1 [H2 H3]] ? ? ?]). rewrite Hr in Hr0. injection Hr0 as <-. exists p, r'. split_and!; [done|done|]. split; [split_and!|..]; congruence.
  - intros id p Hid. destruct (Ha id p Hid) as [? ? ? Hb ?]. split; try done. intros r0 [= <-]. rewrite E4. by apply Hb.
  - intros r0 [= <-]. rewrite E4, E5. by apply Hp.
  - intros id f a w e Hin. destruct (Hco _ _ _ _ _ Hin) as (? & ? & p & ? & [? ? ?]). split_and!; try done. exists p. split; [done|]. by split.
Qed.
(** Items are added to an attempt that is being reconciled. *)
Lemma inv_classifies a w d d' p r c : recovery_inv d c -> fenced a w d p r -> same_authority d d' -> items_grow a d d' -> recovery_inv d' c.
Proof.
  intros [Hc Hg Ha Hk Hp Hco] Hf [Er [Ea _] Et _] [_ Hnew]. split; unfold attempt in *; rewrite ?Er, ?Ea, ?Et; try done.
  - intros id p0 Hid. destruct (Ha id p0 Hid) as [? ? ? ? Hr]. split; rewrite ?Ea, ?Er; try done. intros Hs. destruct (Hr Hs) as [Hu Hb]. split; [done|].
    intros kind i x Hx. destruct (Hnew _ _ Hx) as [Ho|(E & _)]; [by apply (Hb kind i)|]. cbn in E. subst id. pose proof (fe_attempt _ _ _ _ _ Hf) as Hfa. pose proof (fe_state _ _ _ _ _ Hf). unfold attempt in Hfa. congruence.
  - intros k i Hi. destruct (Hnew _ _ Hi) as [Ho|(_ & _ & _ & _ & Hcol)]; [by apply (Hk k i)|done].
  - intros id f a0 w0 e Hin. destruct (Hco _ _ _ _ _ Hin) as (? & ? & p0 & ? & [? ? He]). split_and!; try done. exists p0. split; [done|]. split; [done..|]. by rewrite Ea.
Qed.
(** The current attempt gets a new row, and the head follows it. *)
Lemma inv_update d d' c id p p' r r' : recovery_inv d c -> rt_attempt (rest d) = Some id -> attempt d id = Some p -> recovery d = Some r ->
  rt_attempts (rest d') = <[id := p']> (rt_attempts (rest d)) -> rt_attempt (rest d') = Some id -> recovery d' = Some r' -> rt_items (rest d') = rt_items (rest d) ->
  head_of p' r' -> pa_finished p' = terminal_state (pa_state p') -> pa_fence p <= pa_fence p' -> pa_epoch p' = pa_epoch p -> recovery_epoch r' = recovery_epoch r ->
  (pa_state p' = RS_READY -> pa_unresolved p' = [] /\ forall kind i x, item d id kind i = Some x -> it_blocking x = false) ->
  (forall a w, c !! (id, pa_fence p) = Some (a, w, false) -> pa_finished p' = false \/ pa_fence p < pa_fence p') -> recovery_inv d' c.
Proof.
  intros [Hc Hg Ha Hk Hp Hco] Hat Hid Hr Et Ea Er Ei Hh Hfin Hfe Hep Here Hrdy Hent. destruct (Ha id p Hid) as [_ [P1 P2] _ Hb _].
  split; unfold attempt, kinds_ok, item in *; rewrite ?Er, ?Ea, ?Et, ?Ei; try done.
  - intros id0 [= <-]. exists p', r'. by rewrite lookup_insert_eq.
  - intros id0 p0. rewrite lookup_insert_Some. intros [[<- <-]|[Hne Hid0]].
    + split; unfold item; rewrite ?Ea, ?Er, ?Ei; try done; [split; [lia|congruence]|]. intros r0 [= <-]. rewrite Hep, Here. by apply Hb.
    + destruct (Ha id0 p0 Hid0) as [? ? Hf0 Hb0 Hr0]. split; unfold item in *; rewrite ?Ea, ?Er, ?Ei; try done; [intros _; apply Hf0; congruence|]. intros r0 [= <-]. rewrite Here. by apply Hb0.
  - intros r0 [= <-]. destruct (Hp r Hr). rewrite Here. split; [done|]. rewrite <- (ho_fence _ _ Hh). lia.
  - intros id0 f a w e Hin. destruct (Hco _ _ _ _ _ Hin) as (<- & <- & p0 & Hp0 & [Hle He0 Hee]). split_and!; try done.
    destruct (decide (ra_attempt a = id)) as [E|Hne].
    + exists p'. rewrite E in Hp0, Hin |- *. rewrite lookup_insert_eq. rewrite Hid in Hp0. injection Hp0 as <-. split; [done|]. split; [lia|congruence|]. intros ->.
      destruct (Hee eq_refl) as [?|[?|?]]; [left; lia| |congruence].
      destruct (decide (ra_fence a = pa_fence p)) as [E2|]; [|left; lia]. rewrite E2 in Hin. destruct (Hent _ _ Hin); [by right; left|left; lia].
    + exists p0. rewrite lookup_insert_ne by done. split; [done|]. split; [done..|]. intros _. right. right. congruence.
Qed.
(** The attempts when the current one, if it was not finished, has been closed *)
Definition closed_attempts d (m : gmap string attempt_row) : Prop := forall id,
  match attempt d id, m !! id with
  | Some q, Some q' => q' = q /\ (rt_attempt (rest d) = Some id -> pa_finished q = true) \/
                       rt_attempt (rest d) = Some id /\ pa_finished q' = true /\ pa_state q' = RS_BLOCKED /\ pa_fence q' = pa_fence q /\ pa_epoch q' = pa_epoch q
  | None, None => True
  | _, _ => False
  end.
(** An attempt of a new epoch *)
Lemma inv_epoch d d' c id p r r' m : recovery_inv d c -> recovery d = Some r -> m !! id = None -> closed_attempts d m ->
  rt_attempts (rest d') = <[id := p]> m -> rt_attempt (rest d') = Some id -> recovery d' = Some r' -> rt_items (rest d') = rt_items (rest d) ->
  head_of p r' -> recovery_epoch r' = recovery_epoch r + 1 -> recovery_fencing_token r' = recovery_fencing_token r + 1 -> pa_state p = RS_STARTING -> pa_finished p = false ->
  recovery_inv d' c.
Proof.
  intros [Hc Hg Ha Hk Hp Hco] Hr Hno Hm Et Ea Er Ei Hh Ee Ef Hst Hfin. destruct (Hp r Hr) as [P1 P2].
  split; unfold attempt, kinds_ok, item in *; rewrite ?Er, ?Ea, ?Et, ?Ei; try done.
  - intros id0 [= <-]. exists p, r'. by rewrite lookup_insert_eq.
  - intros id0 p0. rewrite lookup_insert_Some. intros [[<- <-]|[Hne Hid0]].
    + split; unfold item; rewrite ?Ea, ?Er, ?Ei; try done; [by rewrite Hst, Hfin|rewrite (ho_fence _ _ Hh), (ho_epoch _ _ Hh); lia|intros r0 [= <-]; rewrite (ho_epoch _ _ Hh); lia|by rewrite Hst].
    + specialize (Hm id0). unfold attempt in Hm. rewrite Hid0 in Hm. destruct (rt_attempts (rest d) !! id0) as [q|] eqn:Hq; [|done].
      destruct (Ha id0 q Hq) as [? ? Hf0 Hb0 Hr0]. specialize (Hb0 r Hr). destruct Hm as [[-> Hcur]|(Hcur & Hf & Hs & Hfe & Hep)].
      * split; unfold item in *; rewrite ?Ea, ?Er, ?Ei; try done; [|intros r0 [= <-]; lia]. intros _. destruct (decide (rt_attempt (rest d) = Some id0)); auto.
      * split; unfold item; rewrite ?Ea, ?Er, ?Ei; try done; [by rewrite Hs, Hf|by rewrite Hfe, Hep|intros r0 [= <-]; lia|by rewrite Hs].
  - intros r0 [= <-]. lia.
  - intros id0 f a w e Hin. destruct (Hco _ _ _ _ _ Hin) as (<- & <- & q & Hq & [Hle He0 Hee]). split_and!; try done.
    specialize (Hm (ra_attempt a)). unfold attempt in Hm. rewrite Hq in Hm. destruct (m !! ra_attempt a) as [q'|] eqn:Hq'; [|done]. exists q'.
    assert (ra_attempt a <> id) by (intros E; rewrite E in Hq'; congruence). rewrite lookup_insert_ne by done.
    assert (Hsame : pa_fence q' = pa_fence q /\ pa_epoch q' = pa_epoch q) by (destruct Hm as [[-> _]|(_ & _ & _ & ? & ?)]; done). destruct Hsame as [E1 E2].
    split; [done|]. split; rewrite ?E1, ?E2; [done..|]. intros _. right. right. congruence.
Qed.
Lemma inv_add d c a w p : recovery_inv d c -> attempt d (ra_attempt a) = Some p -> ra_fence a <= pa_fence p -> ra_epoch a = pa_epoch p -> pa_finished p = false ->
  recovery_inv d (<[(ra_attempt a, ra_fence a) := (a, w, false)]> c).
Proof.
  intros [Hc Hg Ha Hk Hp Hco] Hat Hle He Hf. split; try done. intros id f a0 w0 e. rewrite lookup_insert_Some. intros [[[= <- <-] [= <- <- <-]]|[_ Hin]]; [|eauto].
  split_and!; try done. exists p. split; [done|]. split; [done..|]. by right; left.
Qed.
Lemma inv_entered d c a w : recovery_inv d c -> c !! (ra_attempt a, ra_fence a) = Some (a, w, false) -> recovery_inv d (<[(ra_attempt a, ra_fence a) := (a, w, true)]> c).
Proof.
  intros [Hc Hg Ha Hk Hp Hco] Hin. split; try done. intros id f a0 w0 e. rewrite lookup_insert_Some. intros [[[= <- <-] [= <- <- <-]]|[_ Hin0]]; [|eauto].
  destruct (Hco _ _ _ _ _ Hin) as (_ & _ & p & Hp0 & [? ? _]). split_and!; try done. exists p. split; [done|]. by split.
Qed.

Lemma inv_begin d d' c w id now a : recovery_inv d c -> beginOrTakeOver w id now d = Ok (a, d') -> recovery_inv d' (<[(ra_attempt a, ra_fence a) := (a, w, false)]> c).
Proof.
  intros I Hb. apply beginOrTakeOver_Ok in Hb as (u & r & _ & Hr & Hb). destruct Hb as [id0 p Hat Hp Hre -> ->|d1 Hno -> Hd1 ->].
  - destruct (ri_current _ _ I _ Hat) as (p0 & r0 & Hp0 & Hr0 & Hh). rewrite Hp in Hp0. injection Hp0 as <-. rewrite Hr in Hr0. injection Hr0 as <-. unfold reusable in Hre. reflect_bools.
    destruct (ri_attempts _ _ I _ _ Hp) as [Hfin _ _ _ _]. destruct Hh as [(? & ? & ?) ? ? ?].
    apply (inv_add _ _ _ _ (take_lease u (pa_fence p + 1) now p)); cbn; try done; [|unfold attempt; cbn; by rewrite lookup_insert_eq].
    eapply (inv_update d _ c id0 p (take_lease u (pa_fence p + 1) now p) r); try done; cbn; try done; [lia|by apply (ri_attempts _ _ I)|intros; right; lia].
  - set (p := new_attempt _ _ _ _ _). apply (inv_add _ _ _ _ p); try done; [|unfold attempt; cbn; by rewrite lookup_insert_eq].
    destruct Hd1 as [[-> Hd]|(id0 & q & q' & Hat & Hq & -> & Hu & Hf & Hs & Hfe & He)].
    + eapply (inv_epoch d _ c id _ r _ (rt_attempts (rest d))); try done.
      intros id0. destruct (attempt d id0) as [q|] eqn:Hq; unfold attempt in Hq; rewrite Hq; [|done]. left. split; [done|]. intros ?. by eapply Hd.
    + eapply (inv_epoch d _ c id _ r _ (<[id0 := q']> (rt_attempts (rest d)))); try done. intros id1. destruct (decide (id1 = id0)) as [->|Hne].
      * rewrite Hq, lookup_insert_eq. by right.
      * rewrite lookup_insert_ne by done. destruct (attempt d id1) as [q1|] eqn:Hq1; unfold attempt in Hq1; rewrite Hq1; [|done]. left. split; [done|]. congruence.
Qed.
Lemma inv_enter d d' c w now a : recovery_inv d c -> c !! (ra_attempt a, ra_fence a) = Some (a, w, false) -> enterReconciling a w now d = Ok d' -> recovery_inv d' c.
Proof.
  intros I Hin He. apply enterReconciling_Ok in He as (p & Hp & Ho & Hf & d1 & Hd1 & Hd').
  destruct (ri_coordinators _ _ I _ _ _ _ _ Hin) as (_ & _ & p0 & Hp0 & [_ _ Hent]). rewrite Hp in Hp0. injection Hp0 as <-. destruct (Hent eq_refl) as [?|Hopen]; [lia|]. clear Hent.
  destruct (decide (rt_attempt (rest d) = Some (ra_attempt a))) as [Hat|Hat].
  - destruct Hopen as [Hopen|]; [|done]. destruct (ri_current _ _ I _ Hat) as (p0 & r & Hp0 & Hr & Hh). rewrite Hp in Hp0. injection Hp0 as <-.
    destruct Hd' as [[Hhd _]|(r0 & Hr0 & Hfe & _ & ->)].
    { exfalso. unfold head_at in Hhd. rewrite Hr, bool_decide_eq_true_2 in Hhd by done. apply andb_false_iff in Hhd as [?|Hz]; [done|]. apply Z.eqb_neq in Hz. apply Hz. rewrite <- (ho_fence _ _ Hh). done. }
    rewrite Hr in Hr0. injection Hr0 as <-. destruct Hh as [(? & ? & ?) ? ? Hs]. destruct (ri_attempts _ _ I _ _ Hp) as [Hfin _ _ _ _].
    assert (Hst : pa_state p = RS_STARTING \/ pa_state p = RS_RECONCILING) by (rewrite Hopen in Hfin; destruct (pa_state p); auto; done).
    destruct Hd1 as [(Hs1 & Hf1 & ->)|[Hs1 ->]].
    + eapply (inv_update d _ c _ p _ r); try done; cbn; try done. intros. by left.
    + destruct Hst as [|Hs2]; [done|]. eapply (inv_update d _ c _ p p r); try done; cbn; try done; [by rewrite insert_id|by split; [|..]; cbn; rewrite ?Hs2|by rewrite Hs2|by left].
  - assert (Hfin : pa_finished p = true) by (by eapply (ao_former _ _ _ (ri_attempts _ _ I _ _ Hp))).
    assert (Hd : d1 = d) by (destruct Hd1 as [(_ & ? & _)|[_ ->]]; congruence). destruct Hd' as [[_ ->]|(? & _ & _ & ? & _)]; [by rewrite Hd|done].
Qed.
Lemma fenced_head a w d p r c : recovery_inv d c -> fenced a w d p r -> head_of p r.
Proof.
  intros I Hf. destruct (ri_current _ _ I _ (fe_current _ _ _ _ _ Hf)) as (p0 & r0 & Hp0 & Hr0 & Hh).
  rewrite (fe_attempt _ _ _ _ _ Hf) in Hp0. rewrite (fe_head _ _ _ _ _ Hf) in Hr0. injection Hp0 as <-. by injection Hr0 as <-.
Qed.
Lemma inv_op d d' c w op now a : recovery_inv d c -> c !! (ra_attempt a, ra_fence a) = Some (a, w, true) -> op <> OpEnter -> run_op a w op now d = Ok d' -> recovery_inv d' c.
Proof.
  intros I Hin Hn Hop. destruct (run_op_Ok _ _ _ _ _ _ Hop Hn) as (p & r & Hf & Hd).
  assert (Hown : forall a0 w0, c !! (ra_attempt a, pa_fence p) <> Some (a0, w0, false)) by (intros a0 w0; rewrite (proj1 (fe_fence _ _ _ _ _ Hf)); congruence).
  destruct Hd as [[A G _]|[(d1 & [A G _] & _ & digest & mark & expires & ->)|[res Hfin]]].
  - by eapply inv_classifies.
  - assert (I1 : recovery_inv d1 c) by (by eapply inv_classifies). apply (fenced_same _ _ _ _ _ _ A) in Hf.
    pose proof (fenced_head _ _ _ _ _ _ I1 Hf) as [(? & ? & ?) ? ? ?]. destruct (fe_fence _ _ _ _ _ Hf).
    eapply (inv_update d1 _ c _ p (set_first digest mark expires p) r r); try done; cbn; try apply Hf; try done;
      [exact (ao_finished _ _ _ (ri_attempts _ _ I1 _ _ (fe_attempt _ _ _ _ _ Hf)))|by rewrite (fe_state _ _ _ _ _ Hf)|intros a0 w0 Ho; by apply Hown in Ho].
  - apply finalize_Ok in Hfin as (p0 & r0 & ev & Hf0 & Hu & Hs & _ & _ & ->).
    pose proof (fe_attempt _ _ _ _ _ Hf0) as E1. pose proof (fe_head _ _ _ _ _ Hf0) as E2.
    rewrite (fe_attempt _ _ _ _ _ Hf) in E1. rewrite (fe_head _ _ _ _ _ Hf) in E2. injection E1 as <-. injection E2 as <-.
    pose proof (fenced_head _ _ _ _ _ _ I Hf) as [(? & ? & ?) ? ? ?].
    eapply (inv_update d _ c _ p _ r); try done; cbn; try apply Hf; try done.
    + rewrite Hs. unfold decide_state. destruct (pr_unresolvedObjectIds res); [done|]. by destruct (blockers a d).
    + rewrite Hs. unfold decide_state. destruct (pr_unresolvedObjectIds res) as [|x l] eqn:El; [|by destruct (blockers a d)]. intros _. split; [done|].
      assert (Hk : Forall (fun rec => includes_char ":" (ownerKind rec) = false) (collectInventory now d)) by (apply Forall_forall; apply inventory_kinds).
      symmetry in Hu. apply (unresolved_nil _ _ _ _ (ri_kinds _ _ I) Hk) in Hu as (_ & Hb & _). exact Hb.
    + intros a0 w0 Ho. by apply Hown in Ho.
Qed.
Lemma inv_step s s' : recovery_inv (data s) (coordinators s) -> rstep s s' -> recovery_inv (data s') (coordinators s').
Proof.
  intros I St. destruct St; cbn in *; [by eapply inv_crew|by eapply inv_restart|by eapply inv_begin| |by eapply inv_op].
  apply inv_entered; [by eapply inv_enter|done].
Qed.
Lemma reachable_inv s : recovery_reachable s -> recovery_inv (data s) (coordinators s).
Proof.
  intros (s0 & (_ & Hc & Ha & Ht & Hi & Hp) & Hs). eapply (star_invariant rstep (fun s => recovery_inv (data s) (coordinators s))); [intros; by eapply inv_step| |exact Hs].
  split; unfold attempt, kinds_ok; rewrite ?Ha, ?Ht, ?Hi, ?Hc; try done.
Qed.

(** ** The recovery refines the workers' view of it *)

Lemma classifies_star a d d' fl l : classifies a d d' -> star (step cat reg) (Sys d fl l) (Sys d' fl l).
Proof.
  intros [_ _ (d1 & [->|(id & w & u & now & Hr)] & Hs)]; [by apply star_one, st_other|].
  eapply star_step; [by eapply st_resume|]. by apply star_one, st_other.
Qed.
Lemma run_op_star a w op now d d' fl l : run_op a w op now d = Ok d' -> star (step cat reg) (Sys d fl l) (Sys d' fl l).
Proof.
  intros Hr. destruct (decide (op = OpEnter)) as [->|Hn].
  - apply star_one, st_other. apply enterReconciling_Ok in Hr as (p & _ & _ & _ & d1 & Hd1 & Hd').
    assert (S1 : same_commands d d1) by (destruct Hd1 as [(_ & _ & ->)|[_ ->]]; by split).
    eapply same_commands_trans; [exact S1|]. destruct Hd' as [[_ ->]|(r & _ & _ & _ & ->)]; by split.
  - destruct (run_op_Ok _ _ _ _ _ _ Hr Hn) as (p & r & _ & [Hc|[(d1 & Hc & _ & digest & mark & expires & ->)|[res Hf]]]).
    + by eapply classifies_star.
    + eapply star_trans; [by eapply classifies_star|]. apply star_one, st_other. by split.
    + apply finalize_Ok in Hf as (p0 & r0 & ev & _ & _ & _ & _ & _ & ->). apply star_one, st_other. by split.
Qed.
Lemma rstep_star s s' : rstep s s' -> star (step cat reg) (crew s) (crew s').
Proof.
  intros St. destruct St; cbn.
  - by apply star_one.
  - apply star_one, st_other. by split.
  - apply star_one, st_other. match goal with Hb : beginOrTakeOver _ _ _ _ = _ |- _ => apply beginOrTakeOver_Ok in Hb as (u & r & _ & _ & Hb) end. by eapply began_same_commands.
  - by eapply run_op_star.
  - by eapply run_op_star.
Qed.

(** *** Takeover *)

(** The fence of a coordinator is behind, or its attempt is no longer the current one. *)
Definition stale a d : Prop := exists p, attempt d (ra_attempt a) = Some p /\ (ra_fence a < pa_fence p \/ rt_attempt (rest d) <> Some (ra_attempt a)).
(** Attempts stay, their fences never go back, and one that is not current never becomes so again. *)
Definition attempts_advance d d' : Prop := forall id p, attempt d id = Some p ->
  exists p', attempt d' id = Some p' /\ pa_fence p <= pa_fence p' /\ (rt_attempt (rest d) <> Some id -> rt_attempt (rest d') <> Some id).
Lemma advance_same d d' : rt_attempt (rest d') = rt_attempt (rest d) -> rt_attempts (rest d') = rt_attempts (rest d) -> attempts_advance d d'.
Proof. intros E1 E2 id p Hp. exists p. unfold attempt in *. rewrite E1, E2. done. Qed.
Lemma advance_put d d' id p p' : attempt d id = Some p -> pa_fence p <= pa_fence p' -> rt_attempts (rest d') = <[id := p']> (rt_attempts (rest d)) ->
  rt_attempt (rest d') = rt_attempt (rest d) -> attempts_advance d d'.
Proof.
  intros Hp Hle Et Ea id0 p0 Hp0. unfold attempt in *. rewrite Et, Ea. destruct (decide (id0 = id)) as [->|].
  - exists p'. rewrite lookup_insert_eq. rewrite Hp in Hp0. by injection Hp0 as <-.
  - exists p0. by rewrite lookup_insert_ne by congruence.
Qed.
Lemma advance_begin w id now r d a d' : began w id now r d a d' -> attempts_advance d d' /\ forall b p, attempt d (ra_attempt b) = Some p -> ra_fence b <= pa_fence p -> stale b d'.
Proof.
  intros [id0 p Hat Hp _ -> ->|d1 Hno -> Hd1 ->].
  - split; [by eapply (advance_put _ _ id0 p (take_lease w (pa_fence p + 1) now p)); [done|cbn; lia|..]|].
    intros b q Hq Hle. destruct (decide (ra_attempt b = id0)) as [E|Hne].
    + exists (take_lease w (pa_fence p + 1) now p). unfold attempt. cbn. rewrite E, lookup_insert_eq. rewrite E, Hp in Hq. injection Hq as <-. split; [done|]. left. lia.
    + exists q. unfold attempt in *. cbn. rewrite lookup_insert_ne by done. split; [done|]. right. congruence.
  - assert (Hkeep : forall id0 p, attempt d id0 = Some p -> exists p', attempt d1 id0 = Some p' /\ pa_fence p <= pa_fence p').
    { intros id0 p Hp. destruct Hd1 as [[-> _]|(id1 & q & q' & _ & Hq & -> & _ & _ & _ & Hf & _)]; [eauto with lia|]. unfold attempt in *. cbn. destruct (decide (id0 = id1)) as [->|].
      - exists q'. rewrite lookup_insert_eq. rewrite Hq in Hp. injection Hp as <-. split; [done|lia].
      - exists p. rewrite lookup_insert_ne by done. split; [done|lia]. }
    assert (Hnew : forall id0 p, attempt d1 id0 = Some p -> id0 <> id) by (intros id0 p Hp ->; congruence).
    split.
    + intros id0 p Hp. destruct (Hkeep _ _ Hp) as (p' & Hp' & Hle). exists p'. unfold attempt. cbn. pose proof (Hnew _ _ Hp'). rewrite lookup_insert_ne by done. split; [done|]. split; [done|congruence].
    + intros b p Hp _. destruct (Hkeep _ _ Hp) as (p' & Hp' & _). exists p'. pose proof (Hnew _ _ Hp'). unfold attempt. cbn. rewrite lookup_insert_ne by done. split; [done|]. right. congruence.
Qed.
Lemma advance_enter a w now d d' : enterReconciling a w now d = Ok d' -> attempts_advance d d'.
Proof.
  intros He. apply enterReconciling_Ok in He as (p & Hp & _ & _ & d1 & Hd1 & Hd').
  assert (E : rt_attempt (rest d') = rt_attempt (rest d) /\ rt_attempts (rest d') = rt_attempts (rest d1)).
  { assert (rt_attempt (rest d1) = rt_attempt (rest d)) by (by destruct Hd1 as [(_ & _ & ->)|[_ ->]]).
    destruct Hd' as [[_ ->]|(r & _ & _ & Hat & ->)]; [done|]. cbn. by rewrite Hat. }
  destruct E as [E1 E2], Hd1 as [(_ & _ & ->)|[_ ->]]; [|by apply advance_same]. by apply (advance_put _ _ _ p (set_attempt_state RS_RECONCILING (now + RECOVERY_LEASE) p) Hp (Z.le_refl _)).
Qed.
Lemma advance_op a w op now d d' : op <> OpEnter -> run_op a w op now d = Ok d' -> attempts_advance d d'.
Proof.
  intros Hn Hop. destruct (run_op_Ok _ _ _ _ _ _ Hop Hn) as (p & r & Hf & [[A _ _]|[(d1 & [A _ _] & _ & digest & mark & expires & ->)|[res Hfin]]]).
  - destruct A as [_ [? _] ? _]. by apply advance_same.
  - destruct A as [_ [Ea _] Et _]. eapply (advance_put _ _ _ p (set_first digest mark expires p)); [apply Hf|done|cbn; by rewrite Et|done].
  - apply finalize_Ok in Hfin as (p0 & r0 & ev & Hf0 & _ & _ & _ & _ & ->).
    eapply (advance_put _ _ _ p0); [apply Hf0| |cbn; reflexivity|]; [by apply Z.le_refl|]. cbn. symmetry. apply Hf0.
Qed.
Lemma rstep_advances s s' : rstep s s' -> attempts_advance (data s) (data s').
Proof.
  intros St. destruct St as [? ? ? _ [_ (? & ? & _)]| |? ? ? ? ? ? ? ? ? Hb|? ? ? ? ? ? ? ? _ He|? ? ? ? ? ? ? ? ? _ Hn Hop]; cbn.
  - by apply advance_same.
  - by apply advance_same.
  - apply beginOrTakeOver_Ok in Hb as (u & r & _ & _ & Hb). by apply advance_begin in Hb as [? _].
  - by eapply advance_enter.
  - by eapply advance_op.
Qed.
Lemma stale_forever a s s' : star rstep s s' -> stale a (data s) -> stale a (data s').
Proof.
  induction 1 as [|s1 s2 s3 St _ IH]; [done|]. intros (p & Hp & Hs). apply IH. destruct (rstep_advances _ _ St _ _ Hp) as (p' & Hp' & Hle & Hcur).
  exists p'. split; [done|]. destruct Hs; [left; lia|right; auto].
Qed.
Lemma stale_fence a w d p r : stale a d -> ~ fenced a w d p r.
Proof. intros (p0 & Hp0 & Hs) [Hp _ Hc _ [Hf _] _ _]. rewrite Hp in Hp0. injection Hp0 as <-. destruct Hs; [lia|done]. Qed.
Lemma stale_refused a w op now d : stale a d -> op <> OpEnter -> run_op a w op now d = Throw recovery_fence_stale.
Proof.
  intros Hs Hn. destruct (assertFence_result a w d) as [Hok|Hth]; [apply assertFence_Ok in Hok as (p & r & Hf); by apply (stale_fence a w d p r) in Hs|].
  destruct op; cbn; [done|unfold classify_command|unfold classify_outbox|unfold classify_deployment|unfold classify_ai_call|unfold classify_session|unfold classify_remaining|unfold finalize];
    by rewrite Hth.
Qed.
Lemma stale_enter a w now d d' c : recovery_inv d c -> stale a d -> enterReconciling a w now d = Ok d' -> d' = d.
Proof.
  intros I (p0 & Hp0 & Hs) He. apply enterReconciling_Ok in He as (p & Hp & _ & Hf & d1 & Hd1 & Hd'). rewrite Hp in Hp0. injection Hp0 as <-.
  destruct Hs as [|Hcur]; [lia|]. pose proof (ao_former _ _ _ (ri_attempts _ _ I _ _ Hp) Hcur) as Hfin.
  assert (Hd : d1 = d) by (destruct Hd1 as [(_ & ? & _)|[_ ->]]; congruence). destruct Hd' as [[_ ->]|(? & _ & _ & ? & _)]; [by rewrite Hd|done].
Qed.

Lemma crew_reachable s : recovery_reachable s -> reachable cat reg (crew s).
Proof.
  intros (s0 & (Hi & _) & Hs). exists (crew s0). split; [done|]. clear Hi. induction Hs as [|s1 s2 s3 St _ IH]; [constructor|].
  eapply star_trans; [by apply rstep_star|done].
Qed.

(** ** Properties *)

(** C16. The recovery is a refinement of what the system of the workers allows: whatever coordinators, restarts, takeovers and
    crashes interleave with the workers, the state of the workers is one that [CommandWorker.step] reaches, so the
    handlers still run at most once for every command and the guards of the commands hold across any number of recoveries. *)
Theorem recovery_refines_workers s : recovery_reachable s -> reachable cat reg (crew s).
Proof. apply crew_reachable. Qed.

(** C13. The gate is opened by evidence only.  In every reachable state, when authoritative writes are admitted, either no recovery
    ever began on this platform, or the current attempt ended READY for exactly the database, incarnation, deployment
    and epoch that are current; it left nothing unresolved and none of its items blocks. *)
Theorem gate_open_reconciled s h : recovery_reachable s -> lockAndVerifyPlatformRecovery (recovery (data s)) = Ok h ->
  match rt_attempt (rest (data s)) with
  | None => coordinators s = ∅
  | Some id => exists p r, attempt (data s) id = Some p /\ recovery (data s) = Some r /\ pa_state p = RS_READY /\ pa_finished p = true /\ pa_unresolved p = [] /\
      pa_identity p = current_database_start_identity r /\ now_lineage h = Build_lineage (pa_incarnation p) (pa_deployment p) (pa_epoch p) /\
      forall kind i x, item (data s) id kind i = Some x -> it_blocking x = false
  end.
Proof.
  intros I%reachable_inv Hl. unfold lockAndVerifyPlatformRecovery in Hl. apply bind_Ok_inv in Hl as (r & Hr & Hl). apply or_throw_Ok in Hr.
  apply bind_Ok_inv in Hl as (? & Hb & Hl). apply throw_if_Ok in Hb. injection Hl as <-. reflect_bools.
  destruct (rt_attempt (rest (data s))) as [id|] eqn:Hat.
  - destruct (ri_current _ _ I _ Hat) as (p & r0 & Hp & Hr0 & [(E1 & E2 & E3) E4 E5 E6]). rewrite Hr in Hr0. injection Hr0 as <-. exists p, r.
    assert (Hs : pa_state p = RS_READY) by (destruct (pa_state p); cbn in *; congruence). destruct (ri_attempts _ _ I _ _ Hp) as [Hfin _ _ _ Hrdy].
    destruct (Hrdy Hs) as [Hu Hnb]. split_and!; try done; [by rewrite Hfin, Hs|congruence|unfold now_lineage; cbn; congruence].
  - apply map_eq. intros [id f]. rewrite lookup_empty. destruct (coordinators s !! (id, f)) as [[[a w] e]|] eqn:Hc; [|done].
    destruct (ri_coordinators _ _ I _ _ _ _ _ Hc) as (_ & _ & p & Hp & _). unfold attempt in Hp. by rewrite (ri_greenfield _ _ I Hat) in Hp.
Qed.

(** C14. A coordinator that was taken over is fenced off for good.  Once another coordinator began, whatever happens
    afterwards, every classification and the final decision of the earlier one are refused as stale; its entry into
    the reconciliation is refused or changes nothing. *)
Theorem takeover_fences s s' k a v e w id now b d' : recovery_reachable s -> coordinators s !! k = Some (a, v, e) ->
  beginOrTakeOver w id now (data s) = Ok (b, d') ->
  star rstep (RSys (Sys d' (flights (crew s)) (ran (crew s))) (<[(ra_attempt b, ra_fence b) := (b, w, false)]> (coordinators s))) s' ->
  forall op now', (op <> OpEnter -> run_op a v op now' (data s') = Throw recovery_fence_stale) /\
                  forall d2, run_op a v OpEnter now' (data s') = Ok d2 -> d2 = data s'.
Proof.
  intros Hr Hk Hb Hs op now'. pose proof (reachable_inv _ Hr) as I. destruct k as [id0 f]. destruct (ri_coordinators _ _ I _ _ _ _ _ Hk) as (<- & <- & p & Hp & [Hle _ _]).
  assert (Hst : stale a (data s')).
  { eapply stale_forever; [exact Hs|]. pose proof Hb as Hb'. apply beginOrTakeOver_Ok in Hb' as (u & r & _ & _ & Hb'). apply advance_begin in Hb' as [_ Hb']. cbn. by eapply Hb'. }
  split; [by apply stale_refused|]. intros d2 He. eapply stale_enter; [|exact Hst|exact He].
  eapply (star_invariant rstep (fun s => recovery_inv (data s) (coordinators s))); [intros; by eapply inv_step| |exact Hs]. by eapply (inv_begin _ _ _ _ _ now).
Qed.

(** What the final decision says.  In a reachable state, a coordinator that may finalize decides READY exactly when every
    record of the inventory has an item that needs no review, no item of the attempt blocks, the inventory is still the
    one that was recorded after the classification, and the constraints of the schema are those the attempt began
    with; otherwise MANUAL_REVIEW exactly when an item blocks.  The decision and the list of what is unresolved are
    what the attempt and the head then say. *)
Theorem finalize_decides s a w now res d' : recovery_reachable s -> finalize a w now (data s) = Ok (res, d') ->
  exists p p' r', attempt (data s) (ra_attempt a) = Some p /\ attempt d' (ra_attempt a) = Some p' /\ recovery d' = Some r' /\
    (pr_state res = RS_READY <->
       accounted a (data s) (collectInventory now (data s)) /\ nothing_blocks a (data s) /\
       pa_first p = Some (json_digest (inventory_json (collectInventory now (data s)))) /\ pa_schema p = schemaConstraintDigest (data s)) /\
    (pr_state res = RS_MANUAL_REVIEW <-> ~ nothing_blocks a (data s)) /\ (pr_unresolvedObjectIds res = [] <-> pr_state res = RS_READY) /\
    pa_state p' = pr_state res /\ pa_unresolved p' = pr_unresolvedObjectIds res /\ rec_state r' = state_name (pr_state res).
Proof.
  intros I%reachable_inv Hf. apply finalize_Ok in Hf as (p & r & ev & Hf & Hu & Hs & _ & _ & ->).
  eexists p, _, _. split; [apply Hf|]. split; [unfold attempt; cbn; by rewrite lookup_insert_eq|]. split; [reflexivity|].
  assert (Hk : Forall (fun rec => includes_char ":" (ownerKind rec) = false) (collectInventory now (data s))) by (apply Forall_forall; apply inventory_kinds).
  pose proof (unresolved_nil a p (data s) _ (ri_kinds _ _ I) Hk) as Hnil. rewrite <- Hu in Hnil. unfold decide_state in Hs.
  assert (Hbl : blockers a (data s) = [] <-> nothing_blocks a (data s)) by apply blockers_spec.
  assert (Hready : pr_state res = RS_READY <-> pr_unresolvedObjectIds res = []).
  { rewrite Hs. destruct (pr_unresolvedObjectIds res); [done|]. by destruct (blockers a (data s)). }
  split_and!; try done; [by rewrite Hready|].
  rewrite <- Hbl, Hs. destruct (pr_unresolvedObjectIds res) as [|x l].
  - split; [done|]. intros Hn. exfalso. apply Hn, Hbl. by apply Hnil.
  - destruct (blockers a (data s)); split; done.
Qed.

(** C15. The verdict on a command in flight.  A command that has its item in the queue, its claim, and no side effect whose
    outcome is open is resumed under the lineage of the recovery: its item is ready, it is marked for terminal replay
    exactly when it has a checkpoint, and once the gate is open for that lineage every worker that serves its queue can
    claim it.  Any other command is left exactly as it is, with an item that blocks. *)
Theorem classify_command_verdict a w id now d d' c : classify_command a w id now d = Ok d' -> classified a "DOMAIN_COMMAND" id d = false ->
  commands d !! id = Some c -> final (cr_status c) = false ->
  if recoverable d id c
  then exists q, queue d' !! id = Some q /\ qi_status q = Q_READY /\ terminal_replay (rest d') id = is_some (checkpoints d !! id) /\
       forall opts h adm now', now_lineage h = authority_lineage a -> now <= now' -> admissions d !! id = Some adm -> admission_claimable id adm d = true ->
         includes (qi_queue q) (queueNames opts) = true -> (forall l, allowedOperations opts = Some l -> includes (cr_operation c) l = true) ->
         candidate opts h now' d' id q = true
  else same_commands d d' /\ has_item a d' "DOMAIN_COMMAND" id CL_MANUAL_REVIEW.
Proof.
  intros Hc Hcl Hcm Hfin. destruct (classify_command_Ok _ _ _ _ _ _ Hc) as ((p & r & Hf) & [A _ _] & Hv). specialize (Hv Hcl c Hcm Hfin).
  destruct (recoverable d id c); [|tauto]. destruct Hv as ((i & Hi & Hcls & Hbl) & (q & k & Hres & (Rc & Rk & Rq)) & Ead & Eck).
  apply resumable_Some in Hres as (_ & _ & Hk & _ & Hrel & Hlog & _ & _). exists (resume_item (kc_fence k + 1) now (authority_lineage a) q). split; [done|]. split; [done|]. split.
  - unfold terminal_replay. destruct A as [_ [Ea _] _ _]. rewrite Ea, (fe_current _ _ _ _ _ Hf). unfold item in Hi. rewrite Hi, Hcls, Hbl. by destruct (is_some _).
  - intros opts h adm now' Hh Hle Hadm Hclm Hq Hop. unfold candidate. rewrite Rc, Ead, Hadm. cbn [cr_claim set_command]. rewrite Rk. unfold claim_current, admission_claimable in *. cbn in *. rewrite Eck, Hh, Hq, Hlog.
    rewrite !bool_decide_eq_true_2 by done. rewrite Hclm, String.eqb_refl, !Z.eqb_refl, (proj2 (Z.leb_le _ _) Hle). destruct (allowedOperations opts) as [l|]; [by rewrite Hop|done].
Qed.
End System.

(** ** Samples *)

(** The other tables, by name *)
Abbreviation sample_rows := (list (string * list table_row)).
#[local] Instance sample_source : InventorySource sample_rows := {| tableRows := fun w name => default [] (get_prop name w); constraintRows := fun _ => JArr [] |}.
Abbreviation sample_rest := (recovery_tables sample_rows).
#[local] Instance recovery_domain : CommandDomain sample_rest :=
  {| byOperation := @byOperation Z sample_domain; validateCanonicalOperationCommand := fun _ _ _ => Ok tt; runQuery := fun _ _ _ _ => Ok JNull;
     entityRow := fun _ _ _ => Ok (Some (Some 1)); deregisteredComponent := fun _ _ => false |}.
#[local] Instance recovery_handlers : CommandHandlers sample_rest :=
  {| runMutation := fun _ _ _ _ d => Ok (JObj [], d); terminalReplay := fun t _ id => terminal_replay t id; canHandle := fun _ => false; prepared := unit;
     prepare := fun _ _ _ _ d => Ok (tt, d); reconcile := fun _ _ _ _ d => Ok (APPLIED JNull, d) |}.
#[local] Instance recovery_lawful : LawfulHandlers.
Proof.
  split.
  - intros o args row h d out d' E. injection E as _ <-. left. apply same_commands_refl.
  - intros o args row h d p d' E. injection E as E E2. subst d'. left. apply same_commands_refl.
  - intros p e row h d r d' E. injection E as E E2. subst d'. left. apply same_commands_refl.
Qed.
#[local] Existing Instances code_unit_locale toy_hash toy_dates.
Definition call_rows (response : json) : sample_rows := [("ai_model_call", [[("id", JStr "call"); ("submit_state", JStr "SUBMITTED"); ("state_version", JNum 2); ("provider_response_id", response)]])].
Definition platform_db (rows : sample_rows) : cmd_db sample_rest :=
  {| recovery := Some sample_recovery; activation := Some 4; idempotency := ∅; domains := ∅; claims := ∅; commands := ∅; admissions := ∅; queue := ∅;
     checkpoints := ∅; failed := failed sample_db; logs := logs sample_db; rest := Tables None None ∅ ∅ ∅ ∅ None rows |}.
Abbreviation admission rows := (execute sample_catalog "component.create" JNull (sample_context "a") (sample_fresh 1) (platform_db rows)).
(** A command was admitted, and the database restarted. *)
Definition admitted rows : cmd_db sample_rest := (get_Ok (JNull, platform_db rows) (admission rows)).2.
Definition restart_row : recovery_row :=
  {| database_start_identity := [1]; current_database_start_identity := [2]; rec_incarnation := "incarnation"; current_incarnation := "incarnation";
     application_deployment_epoch := 2; current_epoch := 2; recovery_epoch := 3; recovery_fencing_token := 1; rec_state := "READY" |}.
Definition restarted_db rows : cmd_db sample_rest := set_recovery restart_row (admitted rows).
Definition coordinator1 : string := "00000000-0000-4000-8000-0000000000c1".
Definition coordinator2 : string := "00000000-0000-4000-8000-0000000000c2".
Definition known_rows : sample_rows := call_rows (JStr "response").
Definition no_authority : RecoveryAuthority := authority_of sample_recovery "" 0 0.
Abbreviation begin1 := (beginOrTakeOver coordinator1 "attempt" 100000 (restarted_db known_rows)).
Definition authority1 : RecoveryAuthority := (get_Ok (no_authority, restarted_db known_rows) begin1).1.
Definition begun_db : cmd_db sample_rest := (get_Ok (no_authority, restarted_db known_rows) begin1).2.
Abbreviation begin2 := (beginOrTakeOver coordinator2 "other" 101000 begun_db).
Definition authority2 : RecoveryAuthority := (get_Ok (no_authority, begun_db) begin2).1.
Definition taken_db : cmd_db sample_rest := (get_Ok (no_authority, begun_db) begin2).2.
Definition apply_op a w op now (d : cmd_db sample_rest) : cmd_db sample_rest := get_Ok d (run_op a w op now d).
Definition entered_db : cmd_db sample_rest := apply_op authority1 coordinator1 OpEnter 100001 begun_db.
Definition the_command : string := fr_command (sample_fresh 1).
Definition resumed_db : cmd_db sample_rest := apply_op authority1 coordinator1 (OpCommand the_command) 100002 entered_db.
Definition called_db : cmd_db sample_rest := apply_op authority1 coordinator1 (OpAiCall "call") 100003 resumed_db.
Definition remaining_db : cmd_db sample_rest := apply_op authority1 coordinator1 OpRemaining 100004 called_db.
Definition ready_db : cmd_db sample_rest := apply_op authority1 coordinator1 OpFinalize 100005 remaining_db.
Example known_admitted : is_Ok (admission known_rows) && is_Ok begin1 && is_Ok begin2 = true.
Proof. vm_compute. reflexivity. Qed.
Example run_Ok : is_Ok (run_op authority1 coordinator1 OpEnter 100001 begun_db) && is_Ok (run_op authority1 coordinator1 (OpCommand the_command) 100002 entered_db)
  && is_Ok (run_op authority1 coordinator1 (OpAiCall "call") 100003 resumed_db) && is_Ok (run_op authority1 coordinator1 OpRemaining 100004 called_db)
  && is_Ok (run_op authority1 coordinator1 OpFinalize 100005 remaining_db) = true.
Proof. vm_compute. reflexivity. Qed.
(** The gate is closed from the restart to the decision. *)
Example gate_of_run : map (fun d => is_Ok (lockAndVerifyPlatformRecovery (recovery d))) [admitted known_rows; restarted_db known_rows; begun_db; entered_db; remaining_db; ready_db]
  = [true; false; false; false; false; true].
Proof. vm_compute. reflexivity. Qed.

(** *** A run of the system *)

Abbreviation sample_rstep := (rstep sample_catalog ∅).
Definition platform (d : cmd_db sample_rest) c : recovery_system := RSys (Sys d [] []) c.
Lemma admission_eq rows : admission rows = Ok ((get_Ok (JNull, platform_db rows) (admission rows)).1, admitted rows).
Proof.
  assert (Hok : is_Ok (admission rows) = true) by (vm_compute; reflexivity). rewrite (get_Ok_spec (JNull, platform_db rows) _ Hok) at 1. unfold admitted. by destruct (get_Ok _ _).
Qed.
Lemma platform_initial rows : recovery_initial (platform (platform_db rows) ∅).
Proof. unfold recovery_initial, initial. split_and!; try done. intros r [= <-]. done. Qed.
Lemma restarted_star rows : star sample_rstep (platform (platform_db rows) ∅) (platform (restarted_db rows) ∅).
Proof.
  eapply star_step; [|apply star_one; eapply (rs_restart _ _ (admitted rows) [] [] ∅ sample_recovery restart_row); [vm_compute; reflexivity|by split]].
  apply (rs_crew _ _ (Sys (platform_db rows) [] []) (Sys (admitted rows) [] [])); [exact (st_execute sample_catalog ∅ _ _ _ _ _ _ _ [] [] (admission_eq rows))|].
  split; [vm_compute; reflexivity|split_and!; vm_compute; reflexivity].
Qed.
Lemma restarted_reachable rows : recovery_reachable sample_catalog ∅ (platform (restarted_db rows) ∅).
Proof. exists (platform (platform_db rows) ∅). split; [apply platform_initial|apply restarted_star]. Qed.
Definition crew1 (entered : bool) : gmap (string * Z) (RecoveryAuthority * string * bool) := {[ (ra_attempt authority1, ra_fence authority1) := (authority1, coordinator1, entered) ]}.
Lemma begin1_eq : begin1 = Ok (authority1, begun_db).
Proof.
  pose proof known_admitted as Hok. apply andb_true_iff in Hok as [[_ Hok]%andb_true_iff _]. rewrite (get_Ok_spec (no_authority, restarted_db known_rows) _ Hok) at 1.
  unfold authority1, begun_db. by destruct (get_Ok _ _).
Qed.
Lemma begin2_eq : begin2 = Ok (authority2, taken_db).
Proof.
  pose proof known_admitted as Hok. apply andb_true_iff in Hok as [_ Hok]. rewrite (get_Ok_spec (no_authority, begun_db) _ Hok) at 1.
  unfold authority2, taken_db. by destruct (get_Ok _ _).
Qed.
Lemma begun_star : star sample_rstep (platform (platform_db known_rows) ∅) (platform begun_db (crew1 false)).
Proof. eapply star_trans; [apply restarted_star|]. apply star_one. exact (rs_begin _ _ _ _ _ _ _ _ [] [] ∅ begin1_eq). Qed.
Lemma begun_reachable : recovery_reachable sample_catalog ∅ (platform begun_db (crew1 false)).
Proof. exists (platform (platform_db known_rows) ∅). split; [apply platform_initial|exact begun_star]. Qed.
Lemma apply_op_eq a w op now d : is_Ok (run_op a w op now d) = true -> run_op a w op now d = Ok (apply_op a w op now d).
Proof. apply get_Ok_spec. Qed.
Lemma op_star d op now : is_Ok (run_op authority1 coordinator1 op now d) = true -> op <> OpEnter ->
  star sample_rstep (platform d (crew1 true)) (platform (apply_op authority1 coordinator1 op now d) (crew1 true)).
Proof.
  intros Hok Hn. apply star_one. eapply (rs_op _ _ coordinator1 op now d authority1); [unfold crew1; by rewrite lookup_singleton_eq|done|by apply apply_op_eq].
Qed.
Lemma run_OpOk : is_Ok (run_op authority1 coordinator1 OpEnter 100001 begun_db) = true /\ is_Ok (run_op authority1 coordinator1 (OpCommand the_command) 100002 entered_db) = true /\
  is_Ok (run_op authority1 coordinator1 (OpAiCall "call") 100003 resumed_db) = true /\ is_Ok (run_op authority1 coordinator1 OpRemaining 100004 called_db) = true /\
  is_Ok (run_op authority1 coordinator1 OpFinalize 100005 remaining_db) = true.
Proof. pose proof run_Ok as Hok. rewrite !andb_true_iff in Hok. tauto. Qed.
Lemma entered_reachable : recovery_reachable sample_catalog ∅ (platform entered_db (crew1 true)).
Proof.
  exists (platform (platform_db known_rows) ∅). split; [apply platform_initial|]. eapply star_trans; [exact begun_star|]. apply star_one.
  assert (E : crew1 true = <[(ra_attempt authority1, ra_fence authority1) := (authority1, coordinator1, true)]> (crew1 false)) by (unfold crew1; by rewrite insert_singleton_eq).
  rewrite E. eapply (rs_enter _ _ coordinator1 100001 begun_db authority1); [unfold crew1; by rewrite lookup_singleton_eq|]. apply apply_op_eq, run_OpOk.
Qed.
Lemma remaining_reachable : recovery_reachable sample_catalog ∅ (platform remaining_db (crew1 true)).
Proof.
  destruct entered_reachable as (s0 & Hi & Hs). exists s0. split; [done|]. destruct run_OpOk as (_ & H2 & H3 & H4 & _).
  eapply star_trans; [exact Hs|]. eapply star_trans; [by apply (op_star _ _ _ H2)|]. eapply star_trans; [by apply (op_star _ _ _ H3)|]. by apply (op_star _ _ _ H4).
Qed.
Lemma ready_reachable : recovery_reachable sample_catalog ∅ (platform ready_db (crew1 true)).
Proof.
  destruct remaining_reachable as (s0 & Hi & Hs). exists s0. split; [done|]. eapply star_trans; [exact Hs|]. apply (op_star remaining_db OpFinalize 100005); [apply run_OpOk|done].
Qed.

Lemma recovery_refines_workers_witness : reachable sample_catalog ∅ (Sys ready_db [] []).
Proof. exact (recovery_refines_workers sample_catalog ∅ _ ready_reachable). Defined.
Definition gate_now (d : cmd_db sample_rest) : result RecoveryAuthorityHead := lockAndVerifyPlatformRecovery (recovery d).
Example gate_is_open : is_Ok (gate_now ready_db) = true.
Proof. vm_compute. reflexivity. Qed.
Definition sample_head : RecoveryAuthorityHead := get_Ok {| ah_incarnation := ""; ah_current_epoch := 0; ah_recovery_epoch := 0; ah_fencing_token := 0 |} (gate_now ready_db).
Lemma gate_open_reconciled_witness : rt_attempt (rest ready_db) = Some "attempt" /\ exists p, attempt ready_db "attempt" = Some p /\ pa_state p = RS_READY /\ pa_unresolved p = [].
Proof.
  pose proof (gate_open_reconciled sample_catalog ∅ _ sample_head ready_reachable (get_Ok_spec _ _ gate_is_open)) as G.
  assert (E : rt_attempt (rest ready_db) = Some "attempt") by (vm_compute; reflexivity). split; [exact E|].
  change (match rt_attempt (rest ready_db) with None => crew1 true = ∅ | Some id => exists p r, attempt ready_db id = Some p /\ recovery ready_db = Some r /\ pa_state p = RS_READY /\
    pa_finished p = true /\ pa_unresolved p = [] /\ pa_identity p = current_database_start_identity r /\ now_lineage sample_head = Build_lineage (pa_incarnation p) (pa_deployment p) (pa_epoch p) /\
      forall kind i x, item ready_db id kind i = Some x -> it_blocking x = false end) in G.
  rewrite E in G. destruct G as (p & r & Hp & _ & Hs & _ & Hu & _). exists p. split; [exact Hp|split; [exact Hs|exact Hu]].
Defined.
Lemma takeover_fences_witness : run_op authority1 coordinator1 OpFinalize 102000 taken_db = Throw recovery_fence_stale.
Proof.
  assert (Hk : coordinators (platform begun_db (crew1 false)) !! (ra_attempt authority1, ra_fence authority1) = Some (authority1, coordinator1, false)) by (unfold crew1; apply lookup_singleton_eq).
  apply (takeover_fences sample_catalog ∅ _ _ _ _ _ _ _ _ _ _ _ begun_reachable Hk begin2_eq (star_refl _ _) OpFinalize 102000). discriminate.
Defined.
Abbreviation decision := (finalize authority1 coordinator1 100005 remaining_db).
Definition no_result : PlatformRecoveryResult :=
  {| pr_state := RS_STARTING; pr_attempt := ""; pr_epoch := 0; pr_inventoryCount := 0; pr_classificationCounts := []; pr_unresolvedObjectIds := []; pr_evidenceDigest := "" |}.
Definition decided : PlatformRecoveryResult * cmd_db sample_rest := get_Ok (no_result, remaining_db) decision.
Example decision_ok : is_Ok decision = true.
Proof. vm_compute. reflexivity. Qed.
Lemma decision_eq : decision = Ok (decided.1, decided.2).
Proof. rewrite (get_Ok_spec (no_result, remaining_db) _ decision_ok) at 1. unfold decided. by destruct (get_Ok _ _). Qed.
Lemma finalize_decides_witness : pr_unresolvedObjectIds decided.1 = [] /\ accounted authority1 remaining_db (collectInventory 100005 remaining_db).
Proof.
  assert (E : pr_unresolvedObjectIds decided.1 = []) by (vm_compute; reflexivity). split; [exact E|].
  destruct (finalize_decides sample_catalog ∅ _ _ _ _ _ _ remaining_reachable decision_eq) as (p & p' & r' & _ & _ & _ & Hready & _ & Hnil & _).
  exact (proj1 (proj1 Hready (proj1 Hnil E))).
Defined.
Example sample_recoverable : match commands entered_db !! the_command with Some c => negb (final (cr_status c)) && recoverable entered_db the_command c | None => false end = true.
Proof. vm_compute. reflexivity. Qed.
Lemma classify_command_verdict_witness : exists q, queue resumed_db !! the_command = Some q /\ qi_status q = Q_READY.
Proof.
  pose proof sample_recoverable as Hs. destruct (commands entered_db !! the_command) as [c|] eqn:Hc; [|discriminate Hs]. apply andb_true_iff in Hs as [Hf Hr]. apply negb_true_iff in Hf.
  assert (Hno : classified authority1 "DOMAIN_COMMAND" the_command entered_db = false) by (vm_compute; reflexivity).
  pose proof (classify_command_verdict authority1 coordinator1 the_command 100002 entered_db resumed_db c (apply_op_eq _ _ (OpCommand the_command) _ _ (proj1 (proj2 run_OpOk))) Hno Hc Hf) as Hv.
  rewrite Hr in Hv. destruct Hv as (q & Hq & Hst & _). exists q. split; [exact Hq|exact Hst].
Defined.
