(* ===== verification/RecoveryVerdict.v ===== *)
(** * The verdict of a recovery that nothing disturbs

    The transactions of [PlatformRecovery] composed by [recover] are followed to their end: what each part of the run adds to the items of
    the attempt ([stage]), that the triggers and checks refuse none of it, and which state the
    attempt ends in, read from the data that the recovery found ([review_needed]). *)
From Stdlib Require Import Ascii String.
From S2P Require Import Prelude Bytes Json Text Digest CanonicalValue IpcFrame IpcChannel IpcBroker AuditChain Database ErrorRegistry Contracts Schemas Commands CommandWorker PlatformRecovery RecoverySystem.

Section Verdict.
Context `{L : Locale} `{H : Hash} {W : Type} `{Src : InventorySource W}.
Abbreviation rec_db := (cmd_db (recovery_tables W)).
Implicit Types (d : rec_db) (a : RecoveryAuthority).

(** *** What a new attempt has to leave to a person *)

Definition dispatch_uncertain (o : delivery_row) : bool := dl_dispatch o || match dl_effect o with Some e => truthy e | None => false end.
Definition manual_records (now : Z) d : list InventoryRecord := MANUAL_INVENTORY_QUERIES ≫= query_records now d.
Definition deployment_current d (id : string) : bool :=
  match recovery d, current_run d with
  | Some r, Some (h, run) => String.eqb (dp_run h) id && exact_current (authority_of r "" 0 0) r h run | _, _ => false
  end.
Definition response_known d (id : string) : bool :=
  match row_with_id id (table d "ai_model_call") with
  | Some call => negb (includes (to_text (column "submit_state" call)) ["COMPLETED"; "FAILED_FINAL"]) && has_provider_response call | None => false
  end.
Definition session_closable (now : Z) d (id : string) : bool := includes id (safe_session_ids now d) && is_some (row_with_id id (table d "browser_session")).
(** The records of the tables that the program settles by itself *)
Definition settled_record (sessions : Z) d (rec : InventoryRecord) : bool :=
  String.eqb (ownerKind rec) "DEPLOYMENT_RUN" && deployment_current d (ownerId rec)
  || String.eqb (ownerKind rec) "AI_MODEL_CALL" && response_known d (ownerId rec)
  || String.eqb (ownerKind rec) "BROWSER_SESSION" && session_closable sessions d (ownerId rec).
Definition review_needed (sessions remaining : Z) d : bool :=
  existsb (fun '(id, c) => negb (final (cr_status c)) && negb (recoverable d id c)) (map_to_list (commands d))
  || existsb (fun '(_, o) => in_delivery o && dispatch_uncertain o) (map_to_list (rt_outbox (rest d)))
  || existsb (fun rec => negb (settled_record sessions d rec)) (manual_records remaining d)
  || existsb (fun '(id, q) => live_item q && match commands d !! id with Some c => final (cr_status c) | None => true end) (map_to_list (queue d)).

(** *** Phases *)

Definition covered a d (kind id : string) : Prop := is_Some (item d (ra_attempt a) kind id).
Definition blocked a d : Prop := exists kind id x, item d (ra_attempt a) kind id = Some x /\ it_blocking x = true.
(** The items that a part of the run adds, and whether one of them blocks *)
Record stage a d d' (P : string -> string -> Prop) (B : Prop) : Prop := {
  ph_authority : same_authority d d';
  ph_covered : forall kind id, covered a d' kind id <-> covered a d kind id \/ P kind id;
  ph_blocked : blocked a d' <-> blocked a d \/ B;
}.
Lemma stage_refl a d : stage a d d (fun _ _ => False) False.
Proof. split; [done|tauto|tauto]. Qed.
Lemma stage_trans a d1 d2 d3 P1 P2 B1 B2 : stage a d1 d2 P1 B1 -> stage a d2 d3 P2 B2 -> stage a d1 d3 (fun k i => P1 k i \/ P2 k i) (B1 \/ B2).
Proof. intros [A1 C1 K1] [A2 C2 K2]. split; [by etrans| |rewrite K2, K1; tauto]. intros k i. rewrite C2, C1. tauto. Qed.
Lemma stage_iff a d d' (P Q : string -> string -> Prop) (B C : Prop) : (forall k i, P k i <-> Q k i) -> (B <-> C) -> stage a d d' P B -> stage a d d' Q C.
Proof. intros E F [A C0 K]. split; [done| |by rewrite K, F]. intros k i. by rewrite C0, E. Qed.
Lemma stage_items a d d' : same_authority d d' -> rt_items (rest d') = rt_items (rest d) -> stage a d d' (fun _ _ => False) False.
Proof. intros A E. split; [done|..]; unfold covered, blocked, item; rewrite E; tauto. Qed.
Lemma uncovered a d kind id : ~ covered a d kind id <-> item d (ra_attempt a) kind id = None.
Proof. unfold covered. destruct (item _ _ _ _); split; [intros Hn; destruct Hn; eauto|done|done|intros _ []; congruence]. Qed.
Lemma classified_covered a kind id d : classified a kind id d = true <-> covered a d kind id.
Proof. unfold classified, covered. destruct (item _ _ _ _); cbn; split; eauto; [done|intros []; congruence]. Qed.
Lemma insertion a rec c s e d : includes_char ":" (ownerKind rec) = false -> 0 < ra_epoch a -> 0 < ra_fence a -> (c <> CL_MANUAL_REVIEW -> is_some s = true) ->
  ~ covered a d (ownerKind rec) (ownerId rec) -> exists d', insertRecoveryItem a rec c (bool_decide (c = CL_MANUAL_REVIEW)) s e d = Ok d' /\
    stage a d d' (fun k i => k = ownerKind rec /\ i = ownerId rec) (c = CL_MANUAL_REVIEW) /\ same_commands d d' /\ rt_outbox (rest d') = rt_outbox (rest d) /\
    rt_versions (rest d') = rt_versions (rest d).
Proof.
  intros Hcol He Hf Hs Hn. pose proof (insertRecoveryItem_total a rec c s e d He Hf Hs) as Ht.
  destruct (insertRecoveryItem a rec c _ s e d) as [d'|] eqn:Hi; [|done]. exists d'. split; [done|].
  destruct (insertRecoveryItem_Ok _ _ _ _ _ _ _ _ Hcol Hi) as (A & G & Sm & (i & Hit & Hnew) & Hother). apply uncovered in Hn. destruct (Hnew Hn) as (_ & Hb & _).
  assert (Hrows : rt_outbox (rest d') = rt_outbox (rest d) /\ rt_versions (rest d') = rt_versions (rest d)).
  { unfold insertRecoveryItem in Hi. apply bind_Ok_inv in Hi as (? & _ & Hi). injection Hi as <-. by destruct (item d _ _ _). }
  assert (Hother' : forall k j, ~ (k = ownerKind rec /\ j = ownerId rec) -> item d' (ra_attempt a) k j = item d (ra_attempt a) k j) by (intros k j Hkj; apply Hother; naive_solver).
  split_and!; try done; [|apply Hrows..]. split; [done|..].
  - intros k j. unfold covered. destruct (decide (k = ownerKind rec /\ j = ownerId rec)) as [[-> ->]|Hne]; [rewrite Hit, Hn; split; [by right|eauto]|]. rewrite Hother' by done. tauto.
  - split.
    + intros (k & j & x & Hx & Hbx). destruct (decide (k = ownerKind rec /\ j = ownerId rec)) as [[-> ->]|Hne].
      * right. rewrite Hit in Hx. injection Hx as <-. rewrite Hb in Hbx. by apply bool_decide_eq_true in Hbx.
      * left. exists k, j, x. by rewrite <- Hother'.
    + intros [(k & j & x & Hx & Hbx)|Hc].
      * exists k, j, x. split; [|done]. rewrite Hother'; [done|]. intros [-> ->]. congruence.
      * exists (ownerKind rec), (ownerId rec), i. split; [done|]. rewrite Hb. by apply bool_decide_eq_true.
Qed.

(** The coordinator is at work under its fence. *)
Record at_work a w d : Prop := {
  aw_fenced : exists p r, fenced a w d p r;
  aw_positive : 0 < ra_epoch a /\ 0 < ra_fence a;
}.
Lemma at_work_same a w d d' : same_authority d d' -> at_work a w d -> at_work a w d'.
Proof. intros A [(p & r & Hf) ?]. split; [|done]. exists p, r. by eapply fenced_same. Qed.
Lemma at_work_fence a w d : at_work a w d -> assertFence a w d = Ok tt.
Proof. intros [Hf _]. by apply assertFence_Ok. Qed.

(** *** Commands *)

Definition open_command d (id : string) : Prop := exists c, commands d !! id = Some c /\ final (cr_status c) = false.
(** The row of an open command may have changed, but not what it is. *)
Definition still_open d d' (id : string) : Prop := exists c c', commands d !! id = Some c /\ commands d' !! id = Some c' /\
  final (cr_status c) = false /\ final (cr_status c') = false /\ cr_logical c' = cr_logical c.
Definition claim_flags d (k : claim_key) : option (bool * string) := option_map (fun x => (kc_released x, kc_logical x)) (claims d !! k).
(** What the classification of the commands [P] leaves alone *)
Record untouched (P : string -> Prop) d d' : Prop := {
  un_rows : forall id, ~ P id -> commands d' !! id = commands d !! id /\ queue d' !! id = queue d !! id;
  un_open : forall id, P id -> still_open d d' id;
  un_claims : forall k, claim_flags d' k = claim_flags d k;
  un_outbox : rt_outbox (rest d') = rt_outbox (rest d);
}.
Lemma untouched_same P d d' : (forall id, ~ P id) -> same_commands d d' -> rt_outbox (rest d') = rt_outbox (rest d) -> untouched P d d'.
Proof. intros HP [(_ & Hcl & Hcm & _ & Hq & _) _ _] Ho. split; [by rewrite Hcm, Hq|intros id Hid; by destruct (HP id)|unfold claim_flags; by rewrite Hcl|done]. Qed.
Lemma recoverable_untouched P d d' id c : untouched P d d' -> rt_rest (rest d') = rt_rest (rest d) -> ~ P id -> recoverable d' id c = recoverable d id c.
Proof.
  intros [Hr _ Hk _] Hs Hn. destruct (Hr id Hn) as [_ Hq]. unfold recoverable, live_queue, claim_valid, effect_uncertain, effect_statuses, table. rewrite Hq, Hs.
  specialize (Hk (cr_claim c)). unfold claim_flags in Hk. destruct (claims d' !! cr_claim c) as [x|], (claims d !! cr_claim c) as [y|]; cbn in Hk; try done.
  by injection Hk as -> ->.
Qed.
Definition room (n : nat) d : Prop := forall k c, claims d !! k = Some c -> kc_fence c + Z.of_nat n <= max_bigint.
Lemma resume_total id w ln u now d c q k n : resumable id u d = Some (c, q, k) -> room (S n) d -> exists d', resume_command id w ln u now d = Ok d'.
Proof.
  intros Hres Hroom. pose proof (resumable_Some _ _ _ _ _ _ Hres) as (_ & _ & Hk & _). specialize (Hroom _ _ Hk). unfold resume_command. rewrite Hres.
  rewrite (proj2 (Z.ltb_ge _ _)) by lia. cbn. eauto.
Qed.
Lemma command_phase a w id now d c n : at_work a w d -> room (S n) d -> ~ covered a d "DOMAIN_COMMAND" id -> commands d !! id = Some c -> final (cr_status c) = false ->
  exists d', classify_command a w id now d = Ok d' /\ stage a d d' (fun k i => k = "DOMAIN_COMMAND" /\ i = id) (recoverable d id c = false) /\
    untouched (fun i => i = id) d d' /\ room n d'.
Proof.
  intros Hw Hroom Hn Hc Hfin. unfold classify_command. rewrite (at_work_fence _ _ _ Hw). cbn [mbind result_bind].
  assert (Hcl : classified a "DOMAIN_COMMAND" id d = false) by (apply not_true_iff_false; by rewrite classified_covered). rewrite Hcl, Hc, Hfin. cbn zeta.
  assert (Hopen : open_command d id) by (exists c; done). destruct (aw_positive _ _ _ Hw) as [Pe Pf].
  assert (Hroom1 : forall d1, claims d1 = claims d -> room n d1) by (intros d1 E k x; rewrite E; intros Hx; specialize (Hroom k x Hx); lia).
  assert (Hrec : exists rec, commandInventoryRecord d id = Some rec) by (unfold commandInventoryRecord; rewrite Hc, Hfin; eauto).
  pose proof (resumable_live id c d Hc Hfin) as Hres.
  assert (Hmanual : forall ev, (is_some (live_queue d id) && (claim_valid c d && negb (effect_uncertain d id))) = false ->
    exists d', match commandInventoryRecord d id with None => Ok d | Some record => insertRecoveryItem a record CL_MANUAL_REVIEW true None ev d end = Ok d' /\
      stage a d d' (fun k i => k = "DOMAIN_COMMAND" /\ i = id) (recoverable d id c = false) /\ untouched (fun i => i = id) d d' /\ room n d').
  { intros ev Hno. destruct Hrec as [rec Hrec]. rewrite Hrec. apply commandInventoryRecord_Some in Hrec as (Hk & Hid & _).
    destruct (insertion a rec CL_MANUAL_REVIEW None ev d) as (d' & Hi & Hp & Hs & Ho & _); [by rewrite Hk|done|done|done|by rewrite Hk, Hid|].
    exists d'. split; [exact Hi|]. rewrite Hk, Hid in Hp. split; [|split].
    - eapply stage_iff; [| |exact Hp]; [done|]. by unfold recoverable.
    - destruct Hs as [(_ & Hcl' & Hcm & _ & Hq & _) _ _]. split; [by rewrite Hcm, Hq|intros i ->; exists c, c; by rewrite Hcm|unfold claim_flags; by rewrite Hcl'|done].
    - apply Hroom1. apply Hs. }
  destruct (live_queue d id) as [q|] eqn:Hlq; [|by apply Hmanual]. destruct (claim_valid c d && negb (effect_uncertain d id)) eqn:Hv; [|by apply Hmanual]. clear Hmanual.
  destruct Hres as (k & Hk & Hres). destruct (resume_total id w (authority_lineage a) _ now d c q k n Hres Hroom) as [d1 Hr]. rewrite Hr. cbn [mbind result_bind].
  destruct (resumed_command _ _ _ _ _ _ _ _ _ _ Hres Hr) as (E1 & E2 & E3 & _). destruct (resume_command_same _ _ _ _ _ _ _ Hr) as [Hhd Hrs].
  pose proof (resumable_Some _ _ _ _ _ _ Hres) as (_ & _ & _ & _ & Hrel & Hlog & _). set (d2 := bump "domain_command" _ _).
  assert (A12 : same_authority d d2) by (split; cbn; rewrite ?Hrs; done).
  destruct (commandInventoryRecord d2 id) as [rec|] eqn:Hrec2; [|unfold commandInventoryRecord in Hrec2; cbn in Hrec2; rewrite E1, lookup_insert_eq in Hrec2; done].
  apply commandInventoryRecord_Some in Hrec2 as (Hkd & Hid & Hop2). set (cls := if is_some (checkpoints d !! id) then CL_TERMINAL_REPLAY else CL_RESUME).
  assert (Hncls : cls <> CL_MANUAL_REVIEW) by (unfold cls; by destruct (is_some _)).
  match goal with |- context [insertRecoveryItem a rec cls false ?s ?e d2] => destruct (insertion a rec cls s e d2) as (d' & Hi & Hp & Hs & Ho & _); [by rewrite Hkd|done|done|done| |] end.
  { rewrite Hkd, Hid. intros Hcov. apply Hn. unfold covered, item in *. cbn in Hcov. by rewrite Hrs in Hcov. }
  rewrite bool_decide_eq_false_2 in Hi by done. exists d'. split; [exact Hi|]. rewrite Hkd, Hid in Hp. pose proof Hs as [(_ & Scl & Scm & _ & Sq & _) _ _].
  split; [|split].
  - eapply stage_iff; [| |eapply stage_trans; [apply (stage_items a d d2); [done|cbn; by rewrite Hrs]|exact Hp]]; [tauto|]. unfold recoverable. rewrite Hv, Hlq. cbn. intuition done.
  - split.
    + intros i Hi'. rewrite Scm, Sq. cbn. rewrite E1, E3. by rewrite !lookup_insert_ne by congruence.
    + intros i ->. eexists c, _. rewrite Scm. cbn. rewrite E1, lookup_insert_eq. done.
    + intros x. unfold claim_flags. rewrite Scl. cbn. rewrite E2. destruct (decide (x = cr_claim c)) as [->|]; [rewrite lookup_insert_eq, Hk; cbn; by rewrite Hrel|by rewrite lookup_insert_ne by congruence].
    + rewrite Ho. cbn. by rewrite Hrs.
  - intros x y. rewrite Scl. cbn. rewrite E2, lookup_insert_Some. intros [[<- <-]|[_ Hy]]; cbn; [specialize (Hroom _ _ Hk)|specialize (Hroom _ _ Hy)]; lia.
Qed.

(** *** Loops *)

Lemma for_ids_cons (body : string -> rec_db -> result rec_db) id l d d1 : body id d = Ok d1 -> for_ids body (id :: l) d = for_ids body l d1.
Proof. intros E. cbn. unfold mbind, io_bind, txn_unit, Prelude.txn. rewrite E. done. Qed.
Lemma commands_loop a w now l d : NoDup l -> at_work a w d -> room (length l) d ->
  (forall i, i ∈ l -> ~ covered a d "DOMAIN_COMMAND" i /\ open_command d i) ->
  exists d', for_ids (fun id => classify_command a w id now) l d = (Ok tt, d') /\
    stage a d d' (fun k i => k = "DOMAIN_COMMAND" /\ i ∈ l) (exists i c, i ∈ l /\ commands d !! i = Some c /\ recoverable d i c = false) /\ untouched (fun i => i ∈ l) d d'.
Proof.
  intros Hnd. revert d. induction Hnd as [|id l Hid Hnd IH]; intros d Hw Hroom Hl.
  { exists d. split; [done|]. split.
    - eapply stage_iff; [| |apply stage_refl]; [intros; rewrite elem_of_nil; tauto|]. setoid_rewrite elem_of_nil. naive_solver.
    - apply untouched_same; [by intros i ?%elem_of_nil|by split|done]. }
  destruct (Hl id) as [Hn (c & Hc & Hf)]; [left|]. destruct (command_phase a w id now d c (length l) Hw Hroom Hn Hc Hf) as (d1 & H1 & P1 & U1 & R1).
  destruct P1 as [A1 C1 B1]. pose proof (at_work_same _ _ _ _ A1 Hw) as Hw1.
  destruct (IH d1 Hw1 R1) as (d' & H2 & [A2 C2 B2] & U2).
  { intros i Hi. assert (Hne : i <> id) by (intros ->; done). destruct (Hl i) as [Hni (ci & Hci & Hfi)]; [by right|]. split.
    - rewrite C1. intros [?|[_ ?]]; done.
    - exists ci. by rewrite (proj1 (un_rows _ _ _ U1 i Hne)). }
  exists d'. split; [by rewrite (for_ids_cons _ _ _ _ _ H1)|]. split; [split; [by etrans|..]|].
  - intros k i. rewrite C2, C1, elem_of_cons. tauto.
  - rewrite B2, B1. split.
    + intros [[?|Hr]|(i & ci & Hi & Hci & Hr)]; [by left|right; exists id, c; by split_and!; [left|..]|]. right. exists i, ci.
      assert (Hne : i <> id) by (intros ->; done). rewrite (proj1 (un_rows _ _ _ U1 i Hne)) in Hci. split_and!; [by right|done|].
      by rewrite (recoverable_untouched _ _ _ _ _ U1 (proj1 (sa_source _ _ A1)) Hne) in Hr.
    + intros [?|(i & ci & [->|Hi]%elem_of_cons & Hci & Hr)]; [by do 2 left|left; right; rewrite Hc in Hci; by injection Hci as <-|]. right. exists i, ci.
      assert (Hne : i <> id) by (intros ->; done). rewrite (proj1 (un_rows _ _ _ U1 i Hne)). split_and!; [done|done|].
      by rewrite (recoverable_untouched _ _ _ _ _ U1 (proj1 (sa_source _ _ A1)) Hne).
  - destruct U1 as [R1' O1 K1 B1'], U2 as [R2 O2 K2 B2']. split.
    + intros i. rewrite not_elem_of_cons. intros [Hne Hni]. destruct (R2 i Hni) as [-> ->]. by apply R1'.
    + intros i [->|Hi]%elem_of_cons.
      * destruct (O1 id eq_refl) as (c1 & c2 & ? & ? & ?). exists c1, c2. by rewrite (proj1 (R2 id Hid)).
      * destruct (O2 i Hi) as (c1 & c2 & ? & ? & ?). exists c1, c2. assert (Hne : i <> id) by (intros ->; done). by rewrite <- (proj1 (R1' i Hne)).
    + intros k. by rewrite K2.
    + by rewrite B2'.
Qed.
(** A loop over records of one kind whose verdicts [C] (an item is due) and [B] (it blocks) do not change meanwhile *)
Lemma records_loop a (body : string -> rec_db -> result rec_db) (kind : string) (C B : string -> Prop) (Inv : rec_db -> Prop) :
  (forall id d, Inv d -> exists d', body id d = Ok d' /\ Inv d' /\ stage a d d' (fun k i => k = kind /\ i = id /\ C id) (~ covered a d kind id /\ B id)) ->
  (forall id, B id -> C id) -> forall l d, Inv d -> exists d', for_ids body l d = (Ok tt, d') /\ Inv d' /\
    stage a d d' (fun k i => k = kind /\ i ∈ l /\ C i) (exists i, i ∈ l /\ ~ covered a d kind i /\ B i).
Proof.
  intros Hbody HBC l. induction l as [|id l IH]; intros d Hd.
  { exists d. split; [done|]. split; [done|]. eapply stage_iff; [| |apply stage_refl]; [intros; rewrite elem_of_nil; tauto|]. setoid_rewrite elem_of_nil. naive_solver. }
  destruct (Hbody id d Hd) as (d1 & H1 & I1 & [A1 C1 B1]). destruct (IH d1 I1) as (d' & H2 & I2 & [A2 C2 B2]).
  exists d'. split; [by rewrite (for_ids_cons _ _ _ _ _ H1)|]. split; [done|]. split; [by etrans|..].
  - intros k i. rewrite C2, C1, elem_of_cons. naive_solver.
  - rewrite B2, B1. split.
    + intros [[?|[? ?]]|(i & Hi & Hn & Hb)]; [by left|right; exists id; split_and!; [left|..]; done|]. right. exists i. split_and!; [by right|rewrite C1 in Hn; tauto|done].
    + intros [?|(i & [->|Hi]%elem_of_cons & Hn & Hb)]; [by do 2 left|by left; right|]. destruct (decide (i = id)) as [->|Hne]; [by left; right|].
      right. exists i. rewrite C1. split_and!; [done|tauto|done].
Qed.

(** *** Outbox, deployment, calls and sessions *)

Lemma no_phase a d kind id (C B : Prop) : covered a d kind id \/ ~ C /\ ~ B ->
  stage a d d (fun k i => k = kind /\ i = id /\ C) (~ covered a d kind id /\ B).
Proof. intros Hc. split; [done|intros k i; naive_solver|tauto]. Qed.
(** The outbox is as in [d0] but for the events that have their item. *)
Record outbox_pending a w d0 d : Prop := {
  op_work : at_work a w d;
  op_same : same_authority d0 d /\ same_commands d0 d;
  op_rows : forall i, covered a d "TRANSACTIONAL_OUTBOX" i \/ rt_outbox (rest d) !! i = rt_outbox (rest d0) !! i;
}.
Lemma outbox_loop a w l d0 : at_work a w d0 -> exists d', for_ids (classify_outbox a w) l d0 = (Ok tt, d') /\ outbox_pending a w d0 d' /\
  stage a d0 d' (fun k i => k = "TRANSACTIONAL_OUTBOX" /\ i ∈ l /\ exists o, rt_outbox (rest d0) !! i = Some o /\ in_delivery o = true)
    (exists i, i ∈ l /\ ~ covered a d0 "TRANSACTIONAL_OUTBOX" i /\ exists o, rt_outbox (rest d0) !! i = Some o /\ in_delivery o = true /\ dispatch_uncertain o = true).
Proof.
  intros Hw0. apply (records_loop a (classify_outbox a w) "TRANSACTIONAL_OUTBOX" (fun i => exists o, rt_outbox (rest d0) !! i = Some o /\ in_delivery o = true)
    (fun i => exists o, rt_outbox (rest d0) !! i = Some o /\ in_delivery o = true /\ dispatch_uncertain o = true) (outbox_pending a w d0)).
  2:{ intros id (o & ? & ? & _). eauto. }
  2:{ split; [done|split; [done|by split]|by right]. }
  intros id d I. pose proof I as [Hw [A S0] Hrows]. unfold classify_outbox. rewrite (at_work_fence _ _ _ Hw). cbn [mbind result_bind].
  destruct (classified a "TRANSACTIONAL_OUTBOX" id d) eqn:Hcl.
  { apply classified_covered in Hcl. exists d. split; [done|]. split; [done|]. apply no_phase. by left. }
  assert (Hn : ~ covered a d "TRANSACTIONAL_OUTBOX" id) by (rewrite <- classified_covered; by rewrite Hcl). destruct (Hrows id) as [?|Hrow]; [done|].
  rewrite Hrow. destruct (rt_outbox (rest d0) !! id) as [o|] eqn:Ho.
  2:{ exists d. split; [done|]. split; [done|]. apply no_phase. right. split; intros (o2 & E1 & E2); [|destruct E2]; congruence. }
  destruct (in_delivery o) eqn:Hin; cbn [negb].
  2:{ exists d. split; [done|]. split; [done|]. apply no_phase. right. split; intros (o2 & E1 & E2); [|destruct E2]; congruence. }
  cbn zeta. fold (dispatch_uncertain o). set (u := dispatch_uncertain o). set (d1 := if u then d else _).
  assert (Hd1 : same_authority d d1 /\ same_commands d d1 /\ rt_items (rest d1) = rt_items (rest d) /\ (exists o', rt_outbox (rest d1) !! id = Some o' /\ in_delivery o' = true) /\
    (forall i, i <> id -> rt_outbox (rest d1) !! i = rt_outbox (rest d) !! i)).
  { unfold d1. destruct u; [split_and!; try done; try (by split); eauto|]. split_and!; try done; cbn; [eexists; by rewrite lookup_insert_eq|]. intros i Hi. by rewrite lookup_insert_ne. }
  destruct Hd1 as (A1 & S1 & I1 & (o' & Ho' & Hin') & Hoth). unfold outboxInventoryRecord. rewrite Ho', Hin'.
  match goal with |- context [insertRecoveryItem a ?rec _ u ?s ?e d1] =>
    destruct (insertion a rec (if u then CL_MANUAL_REVIEW else CL_RESUME) s e d1) as (d' & Hi & [A2 C2 B2] & S2 & Eo & _);
      [done|apply Hw|apply Hw|by destruct u|cbn; unfold covered, item in *; by rewrite I1|] end.
  assert (Eu : bool_decide ((if u then CL_MANUAL_REVIEW else CL_RESUME) = CL_MANUAL_REVIEW) = u) by (by destruct u). rewrite Eu in Hi.
  exists d'. split; [exact Hi|].
  assert (Hcov : forall k i, covered a d1 k i <-> covered a d k i) by (intros; unfold covered, item; by rewrite I1).
  assert (Hblk : blocked a d1 <-> blocked a d) by (unfold blocked, item; by rewrite I1).
  assert (A3 : same_authority d d') by (by etrans). split; [|split].
  - split; [by eapply at_work_same|split; [by etrans|by eapply same_commands_trans; [|eapply same_commands_trans]]|].
    intros i. destruct (decide (i = id)) as [->|Hne]; [left; rewrite C2; by right|]. rewrite Eo, (Hoth i Hne). destruct (Hrows i) as [Hc|]; [left|by right]. rewrite C2, Hcov. by left.
  - done.
  - intros k i. rewrite C2, Hcov. cbn. naive_solver.
  - rewrite B2, Hblk. unfold u. destruct (dispatch_uncertain o) eqn:Eun.
      + split; [intros [?|_]; [by left|right; eauto]|intros [?|_]; [by left|by right]].
      + split; [intros [?|?]; [by left|done]|intros [?|[_ (o2 & E1 & _ & E3)]]; [by left|congruence]].
Qed.

Definition other_kinds : list string := ["DOMAIN_COMMAND"; "TRANSACTIONAL_OUTBOX"; "ORPHAN_QUEUE_ITEM"; "ORPHAN_CONCURRENCY_CLAIM"].
Lemma orphan_queue_kind d rec : rec ∈ orphan_queues d -> ownerKind rec = "ORPHAN_QUEUE_ITEM".
Proof. unfold orphan_queues. rewrite elem_of_stable_sort, list_elem_of_omap. intros ([id q] & _ & E). destruct (_ && _); [|done]. by injection E as <-. Qed.
Lemma orphan_claim_kind d rec : rec ∈ orphan_claims d -> ownerKind rec = "ORPHAN_CONCURRENCY_CLAIM".
Proof. unfold orphan_claims. rewrite elem_of_stable_sort, list_elem_of_omap. intros ([id q] & _ & E). destruct (_ && _); [|done]. by injection E as <-. Qed.
Lemma find_manual now d kind id : kind ∉ other_kinds ->
  is_Some (find_record now d kind id) <-> exists rec, rec ∈ manual_records now d /\ ownerKind rec = kind /\ ownerId rec = id.
Proof.
  intros Hk. unfold find_record. split.
  - intros [rec Hf]. apply find_some in Hf as [Hin Hb]. reflect_bools. apply list_elem_of_In, elem_of_inventory in Hin. exists rec. split; [|done].
    destruct Hin as [(i & _ & Hr)|[(i & _ & Hr)|[(q & Hq & Hr)|[Hr|Hr]]]].
    + apply commandInventoryRecord_Some in Hr as (E & _). exfalso. apply Hk. subst kind. rewrite E. left.
    + apply outboxInventoryRecord_Some in Hr as (E & _). exfalso. apply Hk. subst kind. rewrite E. right; left.
    + unfold manual_records. rewrite list_elem_of_bind. eauto.
    + apply orphan_queue_kind in Hr. exfalso. apply Hk. subst kind. rewrite Hr. do 2 right; left.
    + apply orphan_claim_kind in Hr. exfalso. apply Hk. subst kind. rewrite Hr. do 3 right; left.
  - intros (rec & Hin & E1 & E2). destruct (List.find _ _) as [x|] eqn:Hf; [eauto|]. exfalso. eapply List.find_none in Hf; [|apply list_elem_of_In, elem_of_inventory].
    + cbn in Hf. rewrite E1, E2, !String.eqb_refl in Hf. discriminate Hf.
    + right. right. left. unfold manual_records in Hin. rewrite list_elem_of_bind in Hin. destruct Hin as (q & ? & ?). eauto.
Qed.

(** Only items were added since [d0]. *)
Record recorded a w d0 d : Prop := {
  rd_work : at_work a w d;
  rd_authority : same_authority d0 d;
  rd_commands : same_commands d0 d;
  rd_rows : rt_outbox (rest d) = rt_outbox (rest d0) /\ rt_versions (rest d) = rt_versions (rest d0);
}.
Lemma recorded_refl a w d : at_work a w d -> recorded a w d d.
Proof. intros Hw. split; [done|done|by split|done]. Qed.
Lemma recorded_trans a w d1 d2 d3 : recorded a w d1 d2 -> recorded a w d2 d3 -> recorded a w d1 d3.
Proof. intros [_ A1 S1 [R1 V1]] [Hw A2 S2 [R2 V2]]. split; [done|by etrans|by eapply same_commands_trans|split; congruence]. Qed.
Lemma recorded_insertion a w d d' P B : at_work a w d -> stage a d d' P B -> same_commands d d' -> rt_outbox (rest d') = rt_outbox (rest d) -> rt_versions (rest d') = rt_versions (rest d) ->
  recorded a w d d'.
Proof. intros Hw [A _ _] Hs Ho Hv. split; [by eapply at_work_same|done|done|done]. Qed.
Lemma recorded_table a w d0 d name : recorded a w d0 d -> table d name = table d0 name.
Proof. intros [_ A _ _]. unfold table. by rewrite (proj1 (sa_source _ _ A)). Qed.
Lemma recorded_manual a w d0 d now : recorded a w d0 d -> manual_records now d = manual_records now d0.
Proof. intros [_ A _ _]. unfold manual_records, query_records, table. by rewrite (proj1 (sa_source _ _ A)). Qed.

Definition own_lineage a d : Prop := exists r, recovery d = Some r /\ ra_deployment a = current_epoch r /\ ra_incarnation a = current_incarnation r.
Lemma deployment_phase a w now d : at_work a w d -> own_lineage a d -> (forall i, ~ covered a d "DEPLOYMENT_RUN" i) ->
  exists d', classify_deployment a w now d = Ok d' /\ recorded a w d d' /\
    stage a d d' (fun k i => k = "DEPLOYMENT_RUN" /\ deployment_current d i = true /\ exists rec, rec ∈ manual_records now d /\ ownerKind rec = "DEPLOYMENT_RUN" /\ ownerId rec = i) False.
Proof.
  intros Hw (r & Hr & E1 & E2) Hn. unfold classify_deployment. rewrite (at_work_fence _ _ _ Hw). cbn [mbind result_bind]. unfold deployment_current. rewrite Hr.
  destruct (current_run d) as [[h run]|].
  2:{ exists d. split; [done|]. split; [by apply recorded_refl|]. eapply stage_iff; [| |apply stage_refl]; [|done]. intros k i. split; [done|by intros (_ & ? & _)]. }
  assert (Ex : exact_current a r h run = exact_current (authority_of r "" 0 0) r h run) by (unfold exact_current; cbn; by rewrite E1, E2).
  rewrite <- Ex. destruct (exact_current a r h run) eqn:He; cbn [negb].
  2:{ exists d. split; [done|]. split; [by apply recorded_refl|]. eapply stage_iff; [| |apply stage_refl]; [|done]. intros k i. split; [done|]. rewrite andb_false_r. by intros (_ & ? & _). }
  assert (Hfm := find_manual now d "DEPLOYMENT_RUN" (dp_run h) ltac:(vm_compute; intros Hx; repeat (apply elem_of_cons in Hx as [Hx|Hx]; [discriminate Hx|]); by apply elem_of_nil in Hx)).
  destruct (find_record now d "DEPLOYMENT_RUN" (dp_run h)) as [rec|] eqn:Hf.
  - assert (Hcl : classified a "DEPLOYMENT_RUN" (dp_run h) d = false) by (apply not_true_iff_false; rewrite classified_covered; apply Hn). rewrite Hcl.
    apply find_record_Some in Hf as (_ & K1 & K2).
    match goal with |- context [insertRecoveryItem a rec CL_RESUME false ?s ?e d] =>
      destruct (insertion a rec CL_RESUME s e d) as (d' & Hi & P & S2 & Eo & Ev); [by rewrite K1|apply Hw|apply Hw|done|rewrite K1; apply Hn|] end.
    exists d'. split; [exact Hi|]. split; [by eapply recorded_insertion|]. eapply stage_iff; [| |exact P]; [|by split]. rewrite K1, K2. intros k i. rewrite andb_true_r, String.eqb_eq.
    split; [intros [-> ->]; split; [done|]; split; [done|]; by apply Hfm|by intros (-> & <- & _)].
  - exists d. split; [done|]. split; [by apply recorded_refl|]. eapply stage_iff; [| |apply stage_refl]; [|done]. intros k i. split; [done|]. rewrite andb_true_r, String.eqb_eq.
    intros (_ & <- & Hrec). apply Hfm in Hrec as [? [=]].
Qed.
Lemma ai_loop a w l d0 : at_work a w d0 -> exists d', for_ids (classify_ai_call a w) l d0 = (Ok tt, d') /\ recorded a w d0 d' /\
  stage a d0 d' (fun k i => k = "AI_MODEL_CALL" /\ i ∈ l /\ exists call, row_with_id i (table d0 "ai_model_call") = Some call /\
      includes (to_text (column "submit_state" call)) ["COMPLETED"; "FAILED_FINAL"] = false)
    (exists i, i ∈ l /\ ~ covered a d0 "AI_MODEL_CALL" i /\ exists call, row_with_id i (table d0 "ai_model_call") = Some call /\
      includes (to_text (column "submit_state" call)) ["COMPLETED"; "FAILED_FINAL"] = false /\ has_provider_response call = false).
Proof.
  intros Hw0. apply (records_loop a (classify_ai_call a w) "AI_MODEL_CALL" (fun i => exists call, row_with_id i (table d0 "ai_model_call") = Some call /\
      includes (to_text (column "submit_state" call)) ["COMPLETED"; "FAILED_FINAL"] = false)
    (fun i => exists call, row_with_id i (table d0 "ai_model_call") = Some call /\
      includes (to_text (column "submit_state" call)) ["COMPLETED"; "FAILED_FINAL"] = false /\ has_provider_response call = false) (recorded a w d0)).
  2:{ intros id (o & ? & ? & _). eauto. }
  2:{ by apply recorded_refl. }
  intros id d I. pose proof (rd_work _ _ _ _ I) as Hw. unfold classify_ai_call. rewrite (at_work_fence _ _ _ Hw). cbn [mbind result_bind].
  rewrite (recorded_table _ _ _ _ _ I). destruct (row_with_id id _) as [call|] eqn:Hrow.
  2:{ exists d. split; [done|]. split; [done|]. apply no_phase. right. split; intros (o2 & E1 & E2); congruence. }
  destruct (includes _ _) eqn:Hin.
  { exists d. split; [done|]. split; [done|]. apply no_phase. right. split; intros (o2 & E1 & E2); [|destruct E2]; congruence. }
  destruct (classified a "AI_MODEL_CALL" id d) eqn:Hcl; [apply classified_covered in Hcl; exists d; split; [done|]; split; [done|]; apply no_phase; by left|].
  assert (Hn : ~ covered a d "AI_MODEL_CALL" id) by (rewrite <- classified_covered; by rewrite Hcl). cbn zeta. set (u := has_provider_response call).
  match goal with |- context [insertRecoveryItem a ?rec _ (negb u) ?s ?e d] =>
    destruct (insertion a rec (if u then CL_RESUME else CL_MANUAL_REVIEW) s e d) as (d' & Hi & P & S2 & Eo & Ev); [done|apply Hw|apply Hw|by destruct u|done|] end.
  assert (Eu : bool_decide ((if u then CL_RESUME else CL_MANUAL_REVIEW) = CL_MANUAL_REVIEW) = negb u) by (by destruct u). rewrite Eu in Hi.
  exists d'. split; [exact Hi|]. split; [eapply recorded_trans; [exact I|by eapply recorded_insertion]|]. eapply stage_iff; [| |exact P]; cbn.
  - intros k i. split; [intros [-> ->]; eauto|intros (-> & -> & _); done].
  - unfold u. destruct (has_provider_response call) eqn:Eun; (split; [intros ?|intros (_ & o2 & E1 & _ & E3)]); try done; [congruence|eauto].
Qed.
Lemma session_loop a w now l d0 : at_work a w d0 -> exists d', for_ids (fun id => classify_session a w id now) l d0 = (Ok tt, d') /\ recorded a w d0 d' /\
  stage a d0 d' (fun k i => k = "BROWSER_SESSION" /\ i ∈ l /\ session_safe now d0 i && is_some (row_with_id i (table d0 "browser_session")) = true /\
      exists rec, rec ∈ manual_records now d0 /\ ownerKind rec = "BROWSER_SESSION" /\ ownerId rec = i) False.
Proof.
  intros Hw0. set (C := fun i => session_safe now d0 i && is_some (row_with_id i (table d0 "browser_session")) = true /\
      exists rec, rec ∈ manual_records now d0 /\ ownerKind rec = "BROWSER_SESSION" /\ ownerId rec = i).
  destruct (records_loop a (fun id => classify_session a w id now) "BROWSER_SESSION" C (fun _ => False) (recorded a w d0)) with (l := l) (d := d0) as (d' & E & I & P);
    [|done|by apply recorded_refl|exists d'; split; [done|]; split; [done|]; eapply stage_iff; [| |exact P]; [done|]; split; [intros (? & _ & _ & ?)|]; done].
  intros id d I. pose proof (rd_work _ _ _ _ I) as Hw. unfold classify_session. rewrite (at_work_fence _ _ _ Hw). cbn [mbind result_bind].
  destruct (classified a "BROWSER_SESSION" id d) eqn:Hcl; [apply classified_covered in Hcl; exists d; split; [done|]; split; [done|]; apply no_phase; by left|].
  assert (Hn : ~ covered a d "BROWSER_SESSION" id) by (rewrite <- classified_covered; by rewrite Hcl).
  assert (Hfm := find_manual now d "BROWSER_SESSION" id ltac:(vm_compute; intros Hx; repeat (apply elem_of_cons in Hx as [Hx|Hx]; [discriminate Hx|]); by apply elem_of_nil in Hx)).
  rewrite (recorded_manual _ _ _ _ _ I) in Hfm.
  assert (Es : session_safe now d id = session_safe now d0 id) by (unfold session_safe, table; by rewrite (proj1 (sa_source _ _ (rd_authority _ _ _ _ I)))).
  assert (Hskip : ~ C id -> stage a d d (fun k i => k = "BROWSER_SESSION" /\ i = id /\ C id) (~ covered a d "BROWSER_SESSION" id /\ False)) by (intros ?; apply no_phase; tauto).
  destruct (find_record now d "BROWSER_SESSION" id) as [rec|] eqn:Hf.
  2:{ exists d. split; [done|]. split; [done|]. apply Hskip. intros [_ Hr]. apply Hfm in Hr as [? [=]]. }
  rewrite (recorded_table _ _ _ _ _ I). destruct (row_with_id id _) as [session|] eqn:Hrow.
  2:{ exists d. split; [done|]. split; [done|]. apply Hskip. unfold C. rewrite Hrow, andb_false_r. by intros [? _]. }
  rewrite Es. destruct (session_safe now d0 id) eqn:Hsafe; cbn [negb].
  2:{ exists d. split; [done|]. split; [done|]. apply Hskip. unfold C. rewrite Hsafe. by intros [? _]. }
  apply find_record_Some in Hf as (_ & K1 & K2).
  match goal with |- context [insertRecoveryItem a rec CL_CLEANUP false ?s ?e d] =>
    destruct (insertion a rec CL_CLEANUP s e d) as (d' & Hi & P & S2 & Eo & Ev); [by rewrite K1|apply Hw|apply Hw|done|by rewrite K1, K2|] end.
  exists d'. split; [exact Hi|]. split; [eapply recorded_trans; [exact I|by eapply recorded_insertion]|]. eapply stage_iff; [| |exact P]; [|split; [done|by intros [_ ?]]].
  rewrite K1, K2. intros k i. split; [intros [-> ->]|by intros (-> & -> & _)]. split; [done|]. split; [done|]. unfold C. rewrite Hsafe, Hrow. split; [done|]. apply Hfm. eauto.
Qed.
Lemma remaining_fold a w l d : at_work a w d -> Forall (fun rec => includes_char ":" (ownerKind rec) = false) l ->
  exists d', fold_result (review_record a) d l = Ok d' /\ recorded a w d d' /\
    stage a d d' (fun k i => exists rec, rec ∈ l /\ k = ownerKind rec /\ i = ownerId rec) (exists rec, rec ∈ l /\ ~ covered a d (ownerKind rec) (ownerId rec)).
Proof.
  intros Hw Hl. revert d Hw. induction Hl as [|rec l Hrec Hl IH]; intros d Hw.
  { exists d. split; [done|]. split; [by apply recorded_refl|]. eapply stage_iff; [| |apply stage_refl].
    - intros k i. split; [done|]. intros (? & Hx & _). by apply elem_of_nil in Hx.
    - split; [done|]. intros (? & Hx & _). by apply elem_of_nil in Hx. }
  assert (H1 : exists d1, review_record a d rec = Ok d1 /\ recorded a w d d1 /\ stage a d d1 (fun k i => k = ownerKind rec /\ i = ownerId rec) (~ covered a d (ownerKind rec) (ownerId rec))).
  { unfold review_record. destruct (classified a (ownerKind rec) (ownerId rec) d) eqn:Hcl.
    - apply classified_covered in Hcl. exists d. split; [done|]. split; [by apply recorded_refl|]. split; [done|intros k i; split; [by left|intros [?|[-> ->]]; done]|tauto].
    - assert (Hn : ~ covered a d (ownerKind rec) (ownerId rec)) by (rewrite <- classified_covered; by rewrite Hcl).
      destruct (insertion a rec CL_MANUAL_REVIEW None (remaining_evidence rec) d) as (d' & Hi & P & S2 & Eo & Ev); [done|apply Hw|apply Hw|done|done|].
      exists d'. split; [exact Hi|]. split; [by eapply recorded_insertion|]. eapply stage_iff; [| |exact P]; [done|]. split; done. }
  destruct H1 as (d1 & E1 & R1 & [A1 C1 B1]). destruct (IH d1 (rd_work _ _ _ _ R1)) as (d' & E2 & R2 & [A2 C2 B2]).
  exists d'. cbn. rewrite E1. split; [exact E2|]. split; [by eapply recorded_trans|]. split; [by etrans|..].
  - intros k i. rewrite C2, C1. split.
    + intros [[?|[-> ->]]|(x & ? & ?)]; [by left|right; exists rec; split; [left|done]|right; exists x; split; [by right|done]].
    + intros [?|(x & [->|?]%elem_of_cons & ?)]; [by do 2 left|by left; right|right; eauto].
  - rewrite B2, B1. split.
    + intros [[?|?]|(x & ? & Hx)]; [by left|right; exists rec; split; [left|done]|right; exists x; split; [by right|]]. rewrite C1 in Hx. tauto.
    + intros [?|(x & [->|?]%elem_of_cons & Hx)]; [by do 2 left|by left; right|].
      destruct (decide (ownerKind x = ownerKind rec /\ ownerId x = ownerId rec)) as [[Ek Ei]|Hne]; [left; right; by rewrite <- Ek, <- Ei|].
      right. exists x. split; [done|]. rewrite C1. tauto.
Qed.

(** *** Opening the attempt and closing it *)

Definition fresh_attempt (id : string) d : Prop := attempt d id = None /\ forall kind i, item d id kind i = None.
Definition not_reusable (r : recovery_row) d : Prop := forall id p, rt_attempt (rest d) = Some id -> attempt d id = Some p -> reusable r p = false.
(** The state in which the classification of a new attempt begins, with the data of [d0] *)
Record opened a w d0 d : Prop := {
  on_work : at_work a w d;
  on_row : exists p r, attempt d (ra_attempt a) = Some p /\ recovery d = Some r /\ rec_state r = "RECONCILING" /\ pa_finished p = false /\ pa_schema p = schemaConstraintDigest d0 /\
           database_start_identity r = current_database_start_identity r /\ rec_incarnation r = current_incarnation r /\ application_deployment_epoch r = current_epoch r;
  on_heads : exists r r0, recovery d = Some r /\ recovery d0 = Some r0 /\ current_epoch r = current_epoch r0 /\ current_incarnation r = current_incarnation r0;
  on_lineage : own_lineage a d;
  on_commands : same_commands d0 d;
  on_tables : rt_items (rest d) = rt_items (rest d0) /\ rt_outbox (rest d) = rt_outbox (rest d0) /\ rt_versions (rest d) = rt_versions (rest d0) /\
              rt_deployment (rest d) = rt_deployment (rest d0) /\ rt_rest (rest d) = rt_rest (rest d0);
}.
Lemma update_attempt_total id f d p : attempt d id = Some p -> pa_finished p = false -> pa_fence (f p) = pa_fence p -> pa_epoch (f p) = pa_epoch p ->
  attempt_transition (pa_state p) (pa_state (f p)) = true -> pa_finished (f p) = terminal_state (pa_state (f p)) ->
  update_attempt id f d = Ok (on_rest (with_attempts (<[id := f p]> (rt_attempts (rest d)))) d).
Proof.
  intros Hp Hf E1 E2 Ht Hc. unfold update_attempt, guard_platform_recovery_attempt, attempt_check. rewrite Hp, Hf, E1, E2, Ht, Hc, Z.ltb_irrefl, Z.eqb_refl, Bool.eqb_reflx. done.
Qed.
Lemma supersede_total id p d : attempt d id = Some p -> pa_finished p = terminal_state (pa_state p) -> exists d', supersede id p d = Ok d'.
Proof.
  intros Hp Ht. unfold supersede. destruct (pa_finished p) eqn:Hf; [eauto|].
  assert (Hs : pa_state p = RS_STARTING \/ pa_state p = RS_RECONCILING) by (destruct (pa_state p); auto; done). case_bool_decide as Hst.
  - rewrite (update_attempt_total id _ d p) by (cbn; rewrite ?Hst; done). cbn [mbind result_bind].
    eexists. eapply update_attempt_total; [unfold attempt; cbn; apply lookup_insert_eq|done..].
  - destruct Hs as [|Hs]; [done|]. cbn [mbind result_bind]. eexists. eapply update_attempt_total; [exact Hp|done|done|done|by rewrite Hs|done].
Qed.
Lemma open_attempt w id (tb te : Z) d c r : recovery_inv d c -> recovery d = Some r -> fresh_attempt id d -> not_reusable r d -> uuid_value w = Some w ->
  recovery_epoch r < max_bigint -> recovery_fencing_token r < max_bigint ->
  exists a d1 d2, beginOrTakeOver w id tb d = Ok (a, d1) /\ enterReconciling a w te d1 = Ok d2 /\ ra_attempt a = id /\ opened a w d d2.
Proof.
  intros I Hr [Hno Hni] Hre Huu Hme Hmf. destruct (ri_positive _ _ I _ Hr) as [Pe Pf]. set (fence := recovery_fencing_token r + 1). set (a := authority_of r id (recovery_epoch r + 1) fence).
  assert (Hb : forall d1, recovery d1 = Some r -> attempt d1 id = None -> (forall i p, attempt d1 i = Some p -> pa_epoch p <= recovery_epoch r) ->
    begin_epoch w id tb r d1 = Ok (a, on_rest (with_head (Some id) None) (set_recovery (open_epoch fence r)
      (on_rest (with_attempts (<[id := new_attempt r w fence tb (schemaConstraintDigest d1)]> (rt_attempts (rest d1)))) d1)))).
  { intros d1 Hr1 Hn1 Hb. unfold begin_epoch. cbv zeta. fold fence.
    rewrite (proj2 (Z.ltb_ge max_bigint (recovery_epoch r + 1))), (proj2 (Z.ltb_ge max_bigint fence)), Huu by (unfold fence; lia). rewrite Hn1.
    cbn [is_some orb or_throw throw_if mbind result_bind].
    assert (He : existsb (fun '(_, q) => pa_epoch q =? recovery_epoch r + 1) (map_to_list (rt_attempts (rest d1))) = false).
    { apply not_true_iff_false. rewrite existsb_exists. intros ([i q] & Hin & E). apply Z.eqb_eq in E. apply list_elem_of_In, elem_of_map_to_list in Hin. specialize (Hb i q Hin). lia. }
    rewrite He. cbn [throw_if mbind result_bind]. unfold write_head. cbn [recovery on_rest set_rest]. rewrite Hr1. unfold guard_platform_recovery_head, head_check. cbn.
    rewrite (proj2 (Z.ltb_ge (recovery_epoch r + 1) (recovery_epoch r))), (proj2 (Z.ltb_ge fence (recovery_fencing_token r))) by (unfold fence; lia).
    rewrite (proj2 (Z.ltb_lt (recovery_epoch r) (recovery_epoch r + 1))) by lia. rewrite Z.eqb_refl. done. }
  assert (Hd1 : exists d1, beginOrTakeOver w id tb d = begin_epoch w id tb r d1 /\ recovery d1 = Some r /\ attempt d1 id = None /\
    (forall i p, attempt d1 i = Some p -> pa_epoch p <= recovery_epoch r) /\ same_commands d d1 /\
    (rt_items (rest d1) = rt_items (rest d) /\ rt_outbox (rest d1) = rt_outbox (rest d) /\ rt_versions (rest d1) = rt_versions (rest d) /\
     rt_deployment (rest d1) = rt_deployment (rest d) /\ rt_rest (rest d1) = rt_rest (rest d))).
  { unfold beginOrTakeOver. rewrite Hr. cbn [or_throw mbind result_bind].
    assert (Hold : forall i p, attempt d i = Some p -> pa_epoch p <= recovery_epoch r) by (intros i p Hp; by eapply (ao_bound _ _ _ (ri_attempts _ _ I _ _ Hp))).
    assert (Hself : exists d1, begin_epoch w id tb r d = begin_epoch w id tb r d1 /\ recovery d1 = Some r /\ attempt d1 id = None /\
      (forall i p, attempt d1 i = Some p -> pa_epoch p <= recovery_epoch r) /\ same_commands d d1 /\
      (rt_items (rest d1) = rt_items (rest d) /\ rt_outbox (rest d1) = rt_outbox (rest d) /\ rt_versions (rest d1) = rt_versions (rest d) /\
       rt_deployment (rest d1) = rt_deployment (rest d) /\ rt_rest (rest d1) = rt_rest (rest d))) by (exists d; split_and!; try done; by split).
    destruct (rt_attempt (rest d)) as [id0|] eqn:Hat; [|exact Hself]. destruct (attempt d id0) as [p|] eqn:Hp; [|exact Hself]. rewrite (Hre _ _ Hat Hp).
    destruct (supersede_total id0 p d Hp) as [d1 Hs]; [apply (ri_attempts _ _ I _ _ Hp)|]. rewrite Hs. cbn [mbind result_bind].
    destruct (supersede_Ok _ _ _ _ Hp Hs) as [[-> _]|(p' & -> & _ & _ & _ & _ & He)]; [exact Hself|].
    assert (Hne : id0 <> id) by congruence. eexists. split; [reflexivity|]. split_and!; try done.
    - unfold attempt. cbn. by rewrite lookup_insert_ne.
    - intros i q. unfold attempt. cbn. rewrite lookup_insert_Some. intros [[<- <-]|[_ Hq]]; [rewrite He|]; by eapply Hold. }
  destruct Hd1 as (d1 & Eb & Hr1 & Hn1 & Hb1 & S1 & T1). rewrite Eb, (Hb d1 Hr1 Hn1 Hb1). exists a. set (p := new_attempt _ _ _ _ _). set (d2 := on_rest (with_head _ _) _).
  assert (Hp2 : attempt d2 id = Some p) by (unfold attempt; cbn; by rewrite lookup_insert_eq).
  assert (Hat : forall m, head_at id fence (on_rest (with_attempts m) d2) = true).
  { intros m. unfold head_at, d2. cbn. by rewrite bool_decide_eq_true_2, Z.eqb_refl by done. }
  assert (He : exists d3, enterReconciling a w te d2 = Ok d3 /\ d3 = on_rest (with_head (Some id) None) (set_recovery (set_head_state RS_RECONCILING (open_epoch fence r))
    (on_rest (with_attempts (<[id := set_attempt_state RS_RECONCILING (te + RECOVERY_LEASE) p]> (rt_attempts (rest d2)))) d2))).
  { eexists. split; [|reflexivity]. unfold enterReconciling. change (ra_attempt a) with id. rewrite Hp2. cbn [or_throw mbind result_bind].
    change (pa_owner p) with w. change (pa_fence p) with fence. change (ra_fence a) with fence. rewrite String.eqb_refl, Z.eqb_refl. cbn [negb orb throw_if mbind result_bind].
    change (pa_state p) with RS_STARTING. rewrite bool_decide_eq_true_2 by done. rewrite (update_attempt_total id _ d2 p) by done.
    unfold mbind, result_bind. cbv beta iota. rewrite Hat. unfold write_head, guard_platform_recovery_head, head_check, d2. cbn. rewrite !Z.ltb_irrefl. done. }
  destruct He as (d3 & He & Hd3). exists d2, d3. split; [done|]. split; [done|]. split; [done|].
  assert (Hp3 : attempt d3 id = Some (set_attempt_state RS_RECONCILING (te + RECOVERY_LEASE) p)) by (rewrite Hd3; unfold attempt; cbn; by rewrite lookup_insert_eq).
  assert (Hr3 : recovery d3 = Some (set_head_state RS_RECONCILING (open_epoch fence r))) by (by rewrite Hd3).
  split.
  - split; [|cbn; lia]. eexists _, _. split; [exact Hp3|exact Hr3|by rewrite Hd3|done..].
  - eexists _, _. split; [exact Hp3|]. split; [exact Hr3|]. split_and!; try done. cbn. unfold schemaConstraintDigest. by destruct T1 as (_ & _ & _ & _ & ->).
  - exists (set_head_state RS_RECONCILING (open_epoch fence r)), r. done.
  - exists (set_head_state RS_RECONCILING (open_epoch fence r)). done.
  - eapply same_commands_trans; [exact S1|]. rewrite Hd3. by split.
  - rewrite Hd3. exact T1.
Qed.
Lemma finalize_total a w now d p r : fenced a w d p r -> pa_finished p = false -> rec_state r = "RECONCILING" -> exists res d', finalize a w now d = Ok (res, d').
Proof.
  intros Hf Hfin Hs. unfold finalize. assert (Has : assertFence a w d = Ok tt) by (apply assertFence_Ok; eauto). rewrite Has. cbn [mbind result_bind].
  rewrite (fe_attempt _ _ _ _ _ Hf). cbn [or_throw mbind result_bind]. set (state := decide_state _ _ _).
  assert (Hst : state = RS_READY \/ state = RS_BLOCKED \/ state = RS_MANUAL_REVIEW) by (unfold state, decide_state; destruct (unresolved_of _ _ _ _); [by left|destruct (blockers a d); auto]).
  rewrite (update_attempt_total _ _ d p) by (first [apply Hf|done|cbn; rewrite (fe_state _ _ _ _ _ Hf); by destruct Hst as [->|[->| ->]]|cbn; by destruct Hst as [->|[->| ->]]]).
  cbn [mbind result_bind]. assert (Hat : forall m, head_at (ra_attempt a) (ra_fence a) (on_rest (with_attempts m) d) = true).
  { intros m. unfold head_at. cbn. rewrite (fe_head _ _ _ _ _ Hf), (fe_current _ _ _ _ _ Hf), (proj2 (fe_fence _ _ _ _ _ Hf)), Z.eqb_refl. by rewrite bool_decide_eq_true_2. }
  rewrite Hat. unfold write_head. cbn [recovery on_rest set_rest]. rewrite (fe_head _ _ _ _ _ Hf). unfold guard_platform_recovery_head, head_check. cbn [recovery_epoch recovery_fencing_token rec_state set_head_state].
  rewrite !Z.ltb_irrefl, Hs. cbn [orb throw_if mbind result_bind].
  destruct Hst as [E|[E|E]]; rewrite E; cbn; eauto.
Qed.

(** *** The verdict *)

Lemma elem_of_ids {A} (f : string * A -> bool) (m : gmap string A) id : id ∈ ids (List.filter f (map_to_list m)) <-> exists x, m !! id = Some x /\ f (id, x) = true.
Proof.
  unfold ids. rewrite elem_of_stable_sort, list_elem_of_fmap. setoid_rewrite list_elem_of_In. setoid_rewrite filter_In. setoid_rewrite <- list_elem_of_In. split.
  - intros ([i x] & -> & Hin & Hf). apply elem_of_map_to_list in Hin. eauto.
  - intros (x & Hx & Hf). exists (id, x). by rewrite elem_of_map_to_list.
Qed.
Lemma elem_of_command_ids d id : id ∈ command_ids d <-> open_command d id.
Proof. unfold command_ids, open_command. rewrite elem_of_ids. cbn. setoid_rewrite negb_true_iff. done. Qed.
Lemma elem_of_outbox_ids d id : id ∈ outbox_ids d <-> exists o, rt_outbox (rest d) !! id = Some o /\ in_delivery o = true.
Proof. unfold outbox_ids. by rewrite elem_of_ids. Qed.
Lemma filter_sublist {A} (f : A -> bool) (l : list A) : List.filter f l `sublist_of` l.
Proof. induction l as [|x l IH]; cbn; [done|]. destruct (f x); by constructor. Qed.
Lemma command_ids_bound d : NoDup (command_ids d) /\ (length (command_ids d) <= size (commands d))%nat.
Proof.
  unfold command_ids, ids. split.
  - rewrite stable_sort_perm. eapply sublist_NoDup; [|apply fmap_sublist, filter_sublist]. apply NoDup_fst_map_to_list.
  - rewrite stable_sort_perm, length_map. rewrite (sublist_length _ _ (filter_sublist _ _)). by rewrite length_map_to_list.
Qed.
Lemma find_unique {A} (f : A -> string) (l : list A) x : NoDup (map f l) -> x ∈ l -> List.find (fun y => String.eqb (f y) (f x)) l = Some x.
Proof.
  induction l as [|y l IH]; cbn; [by intros _ ?%elem_of_nil|]. rewrite NoDup_cons. intros [Hy Hl] [->|Hx]%elem_of_cons; [by rewrite String.eqb_refl|].
  destruct (String.eqb_spec (f y) (f x)) as [E|]; [|by apply IH]. exfalso. apply Hy. rewrite E. apply list_elem_of_fmap. eauto.
Qed.
Lemma query_kinds_unique : NoDup (map iq_kind MANUAL_INVENTORY_QUERIES).
Proof. vm_compute. repeat (constructor; [intros Hx; repeat (apply elem_of_cons in Hx as [Hx|Hx]; [discriminate Hx|]); by apply elem_of_nil in Hx|]). constructor. Qed.
Lemma manual_record now d rec q : rec ∈ manual_records now d -> List.find (fun y => String.eqb (iq_kind y) (ownerKind rec)) MANUAL_INVENTORY_QUERIES = Some q ->
  exists x, x ∈ table d (iq_table q) /\ satisfied now (iq_predicate q) x = true /\ rec = row_record q x.
Proof.
  unfold manual_records. rewrite list_elem_of_bind. intros (q' & Hr & Hq) Hf. apply elem_of_query_records in Hr as (x & Hx & Hs & ->).
  change (ownerKind (row_record q' x)) with (iq_kind q') in Hf. rewrite (find_unique iq_kind _ q') in Hf; [|apply query_kinds_unique|done]. injection Hf as <-. eauto.
Qed.
Lemma row_manual now d q x : q ∈ MANUAL_INVENTORY_QUERIES -> x ∈ table d (iq_table q) -> satisfied now (iq_predicate q) x = true -> row_record q x ∈ manual_records now d.
Proof. intros Hq Hx Hs. unfold manual_records. rewrite list_elem_of_bind. exists q. split; [|done]. apply elem_of_query_records. eauto. Qed.
Lemma find_In {A} (f : A -> bool) l x : List.find f l = Some x -> x ∈ l.
Proof. intros Hf. apply find_some in Hf as [? _]. by apply list_elem_of_In. Qed.
Lemma manual_kind_not now d rec : rec ∈ manual_records now d -> ownerKind rec <> "DOMAIN_COMMAND" /\ ownerKind rec <> "TRANSACTIONAL_OUTBOX".
Proof.
  unfold manual_records. rewrite list_elem_of_bind. intros (q & Hr & Hq). apply elem_of_query_records in Hr as (x & _ & _ & ->). cbn.
  assert (Hall : forallb (fun q => negb (String.eqb (iq_kind q) "DOMAIN_COMMAND") && negb (String.eqb (iq_kind q) "TRANSACTIONAL_OUTBOX")) MANUAL_INVENTORY_QUERIES = true) by (vm_compute; reflexivity).
  rewrite forallb_forall in Hall. apply list_elem_of_In in Hq. specialize (Hall q Hq). reflect_bools. done.
Qed.
Lemma elem_of_ai_call_ids d i : i ∈ ai_call_ids d <-> exists rec, rec ∈ manual_records 0 d /\ ownerKind rec = "AI_MODEL_CALL" /\ ownerId rec = i.
Proof.
  unfold ai_call_ids. rewrite elem_of_stable_sort, list_elem_of_fmap. setoid_rewrite list_elem_of_In. setoid_rewrite filter_In. setoid_rewrite <- list_elem_of_In.
  destruct (List.find (fun y => String.eqb (iq_kind y) "AI_MODEL_CALL") MANUAL_INVENTORY_QUERIES) as [q|] eqn:Hq; [|discriminate Hq]. pose proof (find_In _ _ _ Hq) as Hin.
  split.
  - intros (x & -> & Hx & Hs). exists (row_record q x). injection Hq as <-. split; [by apply row_manual|done].
  - intros (rec & Hr & Hk & <-). rewrite <- Hk in Hq. destruct (manual_record _ _ _ _ Hr Hq) as (x & Hx & Hs & ->). rewrite Hk in Hq. injection Hq as <-. exists x. done.
Qed.
Lemma elem_of_safe_session_ids now d i : i ∈ safe_session_ids now d <->
  session_safe now d i = true /\ exists rec, rec ∈ manual_records now d /\ ownerKind rec = "BROWSER_SESSION" /\ ownerId rec = i.
Proof.
  unfold safe_session_ids. rewrite elem_of_stable_sort, list_elem_of_In, filter_In, <- list_elem_of_In, list_elem_of_fmap.
  setoid_rewrite list_elem_of_In. setoid_rewrite filter_In. setoid_rewrite <- list_elem_of_In.
  destruct (List.find (fun y => String.eqb (iq_kind y) "BROWSER_SESSION") MANUAL_INVENTORY_QUERIES) as [q|] eqn:Hq; [|discriminate Hq]. pose proof (find_In _ _ _ Hq) as Hin.
  split.
  - intros [(x & -> & Hx & Hs) ?]. split; [done|]. exists (row_record q x). injection Hq as <-. split; [by apply row_manual|done].
  - intros [? (rec & Hr & Hk & <-)]. split; [|done]. rewrite <- Hk in Hq. destruct (manual_record _ _ _ _ Hr Hq) as (x & Hx & Hs & ->). rewrite Hk in Hq. injection Hq as <-. exists x. done.
Qed.
(** The conditions of these three kinds do not look at the clock. *)
Lemma timeless_record t t' d rec : ownerKind rec ∈ ["DEPLOYMENT_RUN"; "AI_MODEL_CALL"; "BROWSER_SESSION"] -> rec ∈ manual_records t d -> rec ∈ manual_records t' d.
Proof.
  intros Hk Hr. destruct (List.find (fun y => String.eqb (iq_kind y) (ownerKind rec)) MANUAL_INVENTORY_QUERIES) as [q|] eqn:Hq.
  - destruct (manual_record _ _ _ _ Hr Hq) as (x & Hx & Hs & ->). apply row_manual; [by eapply find_In|done|].
    change (ownerKind (row_record q x)) with (iq_kind q) in Hk, Hq.
    apply elem_of_cons in Hk as [Hk|Hk]; [rewrite Hk in Hq; injection Hq as <-; exact Hs|]. apply elem_of_cons in Hk as [Hk|Hk]; [rewrite Hk in Hq; injection Hq as <-; exact Hs|].
    apply elem_of_cons in Hk as [Hk|Hk]; [rewrite Hk in Hq; injection Hq as <-; exact Hs|]. by apply elem_of_nil in Hk.
  - apply elem_of_cons in Hk as [Hk|Hk]; [rewrite Hk in Hq; discriminate Hq|]. apply elem_of_cons in Hk as [Hk|Hk]; [rewrite Hk in Hq; discriminate Hq|].
    apply elem_of_cons in Hk as [Hk|Hk]; [rewrite Hk in Hq; discriminate Hq|]. by apply elem_of_nil in Hk.
Qed.
Definition orphaned d (id : string) (q : queue_row) : bool := live_item q && match commands d !! id with Some c => final (cr_status c) | None => true end.
Lemma review_needed_spec ts tr d : review_needed ts tr d = true <->
  (exists id c, commands d !! id = Some c /\ final (cr_status c) = false /\ recoverable d id c = false) \/
  (exists id o, rt_outbox (rest d) !! id = Some o /\ in_delivery o = true /\ dispatch_uncertain o = true) \/
  (exists rec, rec ∈ manual_records tr d /\ settled_record ts d rec = false) \/
  (exists id q, queue d !! id = Some q /\ orphaned d id q = true).
Proof.
  assert (E1 : existsb (fun '(id, c) => negb (final (cr_status c)) && negb (recoverable d id c)) (map_to_list (commands d)) = true <->
    exists id c, commands d !! id = Some c /\ final (cr_status c) = false /\ recoverable d id c = false).
  { rewrite existsb_exists. setoid_rewrite <- list_elem_of_In. split.
    - intros ([id c] & Hin & Hb). apply elem_of_map_to_list in Hin. reflect_bools. eauto.
    - intros (id & c & Hc & Hf & Hr). exists (id, c). rewrite elem_of_map_to_list, Hf, Hr. done. }
  assert (E2 : existsb (fun '(_, o) => in_delivery o && dispatch_uncertain o) (map_to_list (rt_outbox (rest d))) = true <->
    exists id o, rt_outbox (rest d) !! id = Some o /\ in_delivery o = true /\ dispatch_uncertain o = true).
  { rewrite existsb_exists. setoid_rewrite <- list_elem_of_In. split.
    - intros ([id o] & Hin & Hb). apply elem_of_map_to_list in Hin. reflect_bools. eauto.
    - intros (id & o & Ho & Hi & Hu). exists (id, o). rewrite elem_of_map_to_list, Hi, Hu. done. }
  assert (E3 : existsb (fun rec => negb (settled_record ts d rec)) (manual_records tr d) = true <-> exists rec, rec ∈ manual_records tr d /\ settled_record ts d rec = false).
  { rewrite existsb_exists. setoid_rewrite <- list_elem_of_In. by setoid_rewrite negb_true_iff. }
  assert (E4 : existsb (fun '(id, q) => orphaned d id q) (map_to_list (queue d)) = true <-> exists id q, queue d !! id = Some q /\ orphaned d id q = true).
  { rewrite existsb_exists. setoid_rewrite <- list_elem_of_In. split.
    - intros ([id q] & Hin & Hb). apply elem_of_map_to_list in Hin. eauto.
    - intros (id & q & Hq & Hb). exists (id, q). by rewrite elem_of_map_to_list. }
  unfold review_needed. change (existsb (fun '(id, q) => live_item q && _) _) with (existsb (fun '(id, q) => orphaned d id q) (map_to_list (queue d))).
  rewrite !orb_true_iff, E1, E2, E3, E4. tauto.
Qed.
Lemma elem_of_orphan_queues d rec : rec ∈ orphan_queues d <-> exists id q, queue d !! id = Some q /\ orphaned d id q = true /\ rec = {| ownerKind := "ORPHAN_QUEUE_ITEM"; ownerId := qi_id q; snapshot := JObj [
        ("status", JStr (queue_status_name (qi_status q))); ("commandId", JStr id); ("stateVersion", JNum (version d "queue_item" (qi_id q)));
        ("recoveryEpoch", JNum (ln_recovery (qi_lineage q)))] |}.
Proof.
  unfold orphan_queues, orphaned. rewrite elem_of_stable_sort, list_elem_of_omap. split.
  - intros ([id q] & Hin & E). apply elem_of_map_to_list in Hin. exists id, q. destruct (live_item q && _); [|done]. by injection E as <-.
  - intros (id & q & Hq & Ho & ->). exists (id, q). rewrite elem_of_map_to_list. split; [done|]. by rewrite Ho.
Qed.
(** In a consistent database every claim that is held belongs to an open command. *)
Lemma no_orphan_claims (l : list string) d d' : guards d -> untouched (fun i => i ∈ l) d d' -> orphan_claims d' = [].
Proof.
  intros G [Hr Ho Hk _]. destruct (orphan_claims d') as [|rec t] eqn:E; [done|]. exfalso.
  assert (Hin : rec ∈ orphan_claims d') by (rewrite E; left). unfold orphan_claims in Hin. rewrite elem_of_stable_sort, list_elem_of_omap in Hin.
  destruct Hin as ([k x] & Hin & Hx). apply elem_of_map_to_list in Hin. destruct (negb (kc_released x) && _) eqn:Hb; [|done]. clear Hx E. reflect_bools.
  specialize (Hk k). unfold claim_flags in Hk. rewrite Hin in Hk. destruct (claims d !! k) as [x0|] eqn:Hx0; [|done]. injection Hk as Er El.
  destruct (g_owner _ G _ _ Hx0 ltac:(congruence)) as (id & c & Hc & Hf & _ & (Hl & _)).
  assert (Hrow : forall i y, commands d' !! i = Some y -> exists y0, commands d !! i = Some y0 /\ cr_logical y = cr_logical y0 /\ final (cr_status y) = final (cr_status y0)).
  { intros i y Hy. destruct (decide (i ∈ l)) as [Hi|Hi].
    - destruct (Ho i Hi) as (y0 & y1 & E0 & E1 & F0 & F1 & E2). rewrite Hy in E1. injection E1 as <-. exists y0. split_and!; [done|done|congruence].
    - exists y. destruct (Hr i Hi) as [<- _]. done. }
  unfold command_of_logical in *. destruct (List.find _ (map_to_list (commands d'))) as [[i y]|] eqn:Hf2.
  - apply find_some in Hf2 as [Hy Hb2]. apply list_elem_of_In, elem_of_map_to_list in Hy. cbn in *. apply String.eqb_eq in Hb2.
    destruct (Hrow _ _ Hy) as (y0 & Hy0 & E1 & E2). assert (i = id) by (eapply (g_logical _ G); [exact Hy0|exact Hc|congruence]). subst i. rewrite Hc in Hy0. injection Hy0 as <-. congruence.
  - assert (Hy : exists y, commands d' !! id = Some y /\ cr_logical y = kc_logical x).
    { destruct (decide (id ∈ l)) as [Hi|Hi].
      - destruct (Ho id Hi) as (y0 & y1 & E0 & E1 & _ & _ & E2). exists y1. split; [done|]. rewrite Hc in E0. injection E0 as <-. congruence.
      - exists c. destruct (Hr id Hi) as [-> _]. split; [done|congruence]. }
    destruct Hy as (y & Hy & Ey). eapply List.find_none in Hf2; [|apply list_elem_of_In, elem_of_map_to_list; exact Hy]. cbn in Hf2. by rewrite Ey, String.eqb_refl in Hf2.
Qed.
Lemma collect_recorded a w d d' now : recorded a w d d' -> collectInventory now d' = collectInventory now d.
Proof.
  intros [_ [_ _ _ [Es _]] [(_ & Ecl & Ecm & Ead & Eq & Eck) _ _] [Eo Ev]].
  unfold collectInventory, command_ids, outbox_ids, commandInventoryRecord, outboxInventoryRecord, uncertain_effects, effect_statuses, query_records, orphan_queues, orphan_claims,
    command_of_logical, table, version. rewrite Es, Ecl, Ecm, Ead, Eq, Eck, Eo, Ev. done.
Qed.

(** The classification of a new attempt, from the state [d] in which it was opened *)
Record classification a w (tc td ts tr : Z) d d7 d8 : Prop := {
  cl_run : exists d3 d4 d5 d6,
    for_ids (fun id => classify_command a w id tc) (command_ids d) d = (Ok tt, d3) /\ for_ids (classify_outbox a w) (outbox_ids d3) d3 = (Ok tt, d4) /\
    classify_deployment a w td d4 = Ok d5 /\ for_ids (classify_ai_call a w) (ai_call_ids d5) d5 = (Ok tt, d6) /\
    for_ids (fun id => classify_session a w id ts) (safe_session_ids ts d6) d6 = (Ok tt, d7) /\ fold_result (review_record a) d7 (collectInventory tr d7) = Ok d8;
  cl_recorded : recorded a w d7 d8;
  cl_authority : same_authority d d8;
  cl_covered : forall rec, rec ∈ collectInventory tr d7 -> covered a d8 (ownerKind rec) (ownerId rec);
  cl_blocked : blocked a d8 <-> review_needed ts tr d = true;
}.
Lemma settled_kinds ts d rec : settled_record ts d rec = true <->
  ownerKind rec = "DEPLOYMENT_RUN" /\ deployment_current d (ownerId rec) = true \/ ownerKind rec = "AI_MODEL_CALL" /\ response_known d (ownerId rec) = true \/
  ownerKind rec = "BROWSER_SESSION" /\ session_closable ts d (ownerId rec) = true.
Proof. unfold settled_record. rewrite !orb_true_iff, !andb_true_iff, !String.eqb_eq. tauto. Qed.
Lemma session_closable_spec ts d i : session_closable ts d i = true <->
  (session_safe ts d i && is_some (row_with_id i (table d "browser_session")) = true /\ exists rec, rec ∈ manual_records ts d /\ ownerKind rec = "BROWSER_SESSION" /\ ownerId rec = i).
Proof. unfold session_closable. rewrite !andb_true_iff, includes_elem, elem_of_safe_session_ids. tauto. Qed.
(** What has its item when everything but the rest of the inventory was classified *)
Definition classified_before (td ts : Z) d (kind i : string) : Prop :=
  kind = "DOMAIN_COMMAND" /\ i ∈ command_ids d \/
  kind = "TRANSACTIONAL_OUTBOX" /\ i ∈ outbox_ids d \/
  kind = "DEPLOYMENT_RUN" /\ deployment_current d i = true /\ (exists rec, rec ∈ manual_records td d /\ ownerKind rec = "DEPLOYMENT_RUN" /\ ownerId rec = i) \/
  kind = "AI_MODEL_CALL" /\ i ∈ ai_call_ids d /\ (exists call, row_with_id i (table d "ai_model_call") = Some call /\
     includes (to_text (column "submit_state" call)) ["COMPLETED"; "FAILED_FINAL"] = false) \/
  kind = "BROWSER_SESSION" /\ session_closable ts d i = true.
(** The records that are left over are those of the tables that the program does not settle, and orphans. *)
Lemma left_over td ts tr d d7 : (forall i, i ∉ command_ids d -> commands d7 !! i = commands d !! i /\ queue d7 !! i = queue d !! i) ->
  (forall i, i ∈ command_ids d -> still_open d d7 i) -> orphan_claims d7 = [] ->
  (forall i, i ∈ outbox_ids d \/ rt_outbox (rest d7) !! i = rt_outbox (rest d) !! i) -> rt_rest (rest d7) = rt_rest (rest d) ->
  (exists rec, rec ∈ collectInventory tr d7 /\ ~ classified_before td ts d (ownerKind rec) (ownerId rec)) <->
  (exists rec, rec ∈ manual_records tr d /\ ~ classified_before td ts d (ownerKind rec) (ownerId rec)) \/ (exists id q, queue d !! id = Some q /\ orphaned d id q = true).
Proof.
  intros Hrows Hopen Hclaims Hout Hs.
  assert (Hman : manual_records tr d7 = manual_records tr d) by (unfold manual_records, query_records, table; by rewrite Hs).
  assert (Horph : forall id q, queue d7 !! id = Some q -> orphaned d7 id q = true -> queue d !! id = Some q /\ orphaned d id q = true).
  { intros id q Hq Ho. destruct (decide (id ∈ command_ids d)) as [Hi|Hi].
    - destruct (Hopen id Hi) as (c & c' & _ & Hc' & _ & Hf' & _). unfold orphaned in Ho. rewrite Hc', Hf', andb_false_r in Ho. done.
    - destruct (Hrows id Hi) as [E1 E2]. unfold orphaned in *. rewrite <- E1, <- E2. done. }
  split.
  - intros (rec & Hin & Hn). apply elem_of_inventory in Hin as [(i & Hi & Hr)|[(i & Hi & Hr)|[(q & Hq & Hr)|[Hr|Hr]]]].
    + exfalso. apply Hn. left. apply commandInventoryRecord_Some in Hr as (-> & -> & c & Hc & Hf). split; [done|].
      destruct (decide (i ∈ command_ids d)) as [|Hni]; [done|]. apply elem_of_command_ids. exists c. destruct (Hrows i Hni) as [<- _]. done.
    + exfalso. apply Hn. right; left. apply outboxInventoryRecord_Some in Hr as (-> & ->). split; [done|]. destruct (Hout i) as [|E]; [done|].
      rewrite elem_of_outbox_ids in *. by rewrite <- E.
    + left. exists rec. split; [|done]. rewrite <- Hman. unfold manual_records. rewrite list_elem_of_bind. eauto.
    + right. apply elem_of_orphan_queues in Hr as (id & q & Hq & Ho & _). exists id, q. by apply Horph.
    + rewrite Hclaims in Hr. by apply elem_of_nil in Hr.
  - intros [(rec & Hin & Hn)|(id & q & Hq & Ho)].
    + exists rec. split; [|done]. apply elem_of_inventory. right; right; left. rewrite <- Hman in Hin. unfold manual_records in Hin. rewrite list_elem_of_bind in Hin. destruct Hin as (x & ? & ?). eauto.
    + assert (Hni : id ∉ command_ids d).
      { rewrite elem_of_command_ids. intros (c & Hc & Hf). unfold orphaned in Ho. rewrite Hc, Hf, andb_false_r in Ho. done. }
      destruct (Hrows id Hni) as [E1 E2].
      set (rec := {| ownerKind := "ORPHAN_QUEUE_ITEM"; ownerId := qi_id q; snapshot := JObj [
        ("status", JStr (queue_status_name (qi_status q))); ("commandId", JStr id); ("stateVersion", JNum (version d7 "queue_item" (qi_id q)));
        ("recoveryEpoch", JNum (ln_recovery (qi_lineage q)))] |}).
      exists rec. split.
      * apply elem_of_inventory. do 3 right; left. apply elem_of_orphan_queues. exists id, q. unfold orphaned in *. rewrite E1, E2. done.
      * unfold classified_before. cbn. intros [[? _]|[[? _]|[[? _]|[[? _]|[? _]]]]]; discriminate.
Qed.
(** A record of the tables blocks exactly when the program does not settle it. *)
Lemma unsettled_blocks td ts tr d :
  (exists rec, rec ∈ manual_records tr d /\ settled_record ts d rec = false) <->
  (exists i, i ∈ ai_call_ids d /\ exists call, row_with_id i (table d "ai_model_call") = Some call /\
      includes (to_text (column "submit_state" call)) ["COMPLETED"; "FAILED_FINAL"] = false /\ has_provider_response call = false) \/
  (exists rec, rec ∈ manual_records tr d /\ ~ classified_before td ts d (ownerKind rec) (ownerId rec)).
Proof.
  split.
  - intros (rec & Hin & Hs). destruct (manual_kind_not _ _ _ Hin) as [N1 N2].
    destruct (decide (ownerKind rec = "AI_MODEL_CALL")) as [Hk|Hk].
    + assert (Hi : ownerId rec ∈ ai_call_ids d) by (apply elem_of_ai_call_ids; exists rec; split; [|done]; eapply timeless_record; [|exact Hin]; rewrite Hk; right; left).
      assert (Hr : response_known d (ownerId rec) = false) by (apply not_true_iff_false; intros Hr; apply not_true_iff_false in Hs; apply Hs, settled_kinds; tauto).
      unfold response_known in Hr. destruct (row_with_id (ownerId rec) (table d "ai_model_call")) as [call|] eqn:Hrow.
      * destruct (includes _ _) eqn:Hinc; cbn in Hr; [|left; exists (ownerId rec); eauto]. right. exists rec. split; [done|]. rewrite Hk.
        intros [[? _]|[[? _]|[[? _]|[(_ & _ & c2 & E1 & E2)|[? _]]]]]; try discriminate. congruence.
      * right. exists rec. split; [done|]. rewrite Hk. intros [[? _]|[[? _]|[[? _]|[(_ & _ & c2 & E1 & E2)|[? _]]]]]; try discriminate. congruence.
    + right. exists rec. split; [done|]. intros [[? _]|[[? _]|[(K & E & _)|[[? _]|[K E]]]]]; [congruence|congruence| |congruence|];
        apply not_true_iff_false in Hs; apply Hs, settled_kinds; tauto.
  - intros [(i & Hi & call & Hrow & Hinc & Hprov)|(rec & Hin & Hn)].
    + apply elem_of_ai_call_ids in Hi as (rec & Hin & Hk & Hid). exists rec. split; [eapply timeless_record; [|exact Hin]; rewrite Hk; right; left|].
      apply not_true_iff_false. rewrite settled_kinds, Hk, Hid. intros [[? _]|[[_ Hr]|[? _]]]; try discriminate. unfold response_known in Hr. rewrite Hrow, Hinc, Hprov in Hr. discriminate.
    + exists rec. split; [done|]. apply not_true_iff_false. intros Hs. apply Hn. apply settled_kinds in Hs as [[K E]|[[K E]|[K E]]].
      * do 2 right; left. split; [done|]. split; [done|]. exists rec. split; [|done]. eapply timeless_record; [|exact Hin]. rewrite K. left.
      * do 3 right; left. split; [done|]. split.
        -- apply elem_of_ai_call_ids. exists rec. split; [|done]. eapply timeless_record; [|exact Hin]. rewrite K. right; left.
        -- unfold response_known in E. destruct (row_with_id _ _) as [call|]; [|done]. exists call. split; [done|]. reflect_bools. done.
      * do 4 right. done.
Qed.

Lemma blocked_none a d : (forall kind i, item d (ra_attempt a) kind i = None) -> ~ blocked a d.
Proof. intros Hn (k & i & x & Hx & _). by rewrite Hn in Hx. Qed.
Lemma deployment_current_same d d' i : same_authority d d' -> deployment_current d' i = deployment_current d i.
Proof. intros [E _ _ [Es Ed]]. unfold deployment_current, current_run, table. by rewrite E, Es, Ed. Qed.
Lemma recorded_ai_ids a w d d' : recorded a w d d' -> ai_call_ids d' = ai_call_ids d.
Proof. intros R. unfold ai_call_ids. by rewrite (recorded_table _ _ _ _ _ R). Qed.
Lemma same_tables d d' name : same_authority d d' -> table d' name = table d name.
Proof. intros A. unfold table. by rewrite (proj1 (sa_source _ _ A)). Qed.
Lemma same_manual d d' t : same_authority d d' -> manual_records t d' = manual_records t d.
Proof. intros A. unfold manual_records, query_records, table. by rewrite (proj1 (sa_source _ _ A)). Qed.
Lemma same_safe_sessions d d' t : same_authority d d' -> safe_session_ids t d' = safe_session_ids t d.
Proof. intros A. unfold safe_session_ids, session_safe, table. by rewrite (proj1 (sa_source _ _ A)). Qed.
Lemma own_lineage_same a d d' : same_authority d d' -> own_lineage a d -> own_lineage a d'.
Proof. intros [E _ _ _] (r & Hr & ? & ?). exists r. by rewrite E. Qed.
(** Everything before the rest of the inventory *)
Lemma classify_before a w (tc td ts : Z) d : at_work a w d -> own_lineage a d -> (forall kind i, item d (ra_attempt a) kind i = None) -> room (size (commands d)) d ->
  exists d3 d4 d5 d6 d7,
    (for_ids (fun id => classify_command a w id tc) (command_ids d) d = (Ok tt, d3) /\ for_ids (classify_outbox a w) (outbox_ids d3) d3 = (Ok tt, d4) /\
     classify_deployment a w td d4 = Ok d5 /\ for_ids (classify_ai_call a w) (ai_call_ids d5) d5 = (Ok tt, d6) /\
     for_ids (fun id => classify_session a w id ts) (safe_session_ids ts d6) d6 = (Ok tt, d7)) /\
    untouched (fun i => i ∈ command_ids d) d d3 /\ outbox_pending a w d3 d4 /\ recorded a w d4 d7 /\
    (forall i, i ∈ outbox_ids d \/ rt_outbox (rest d7) !! i = rt_outbox (rest d) !! i) /\
    stage a d d7 (classified_before td ts d)
      ((exists i c, commands d !! i = Some c /\ final (cr_status c) = false /\ recoverable d i c = false) \/
       (exists i o, rt_outbox (rest d) !! i = Some o /\ in_delivery o = true /\ dispatch_uncertain o = true) \/
       (exists i, i ∈ ai_call_ids d /\ exists call, row_with_id i (table d "ai_model_call") = Some call /\
          includes (to_text (column "submit_state" call)) ["COMPLETED"; "FAILED_FINAL"] = false /\ has_provider_response call = false)).
Proof.
  intros Hw Hown Hnone Hroom. destruct (command_ids_bound d) as [Hnd Hlen].
  assert (Hnc : forall k i, ~ covered a d k i) by (intros k i; by rewrite uncovered).
  destruct (commands_loop a w tc (command_ids d) d Hnd Hw) as (d3 & E3 & P3 & U3).
  { intros k c Hk. specialize (Hroom k c Hk). lia. }
  { intros i Hi. split; [apply Hnc|by apply elem_of_command_ids]. }
  pose proof P3 as [A3 C3 B3]. pose proof (at_work_same _ _ _ _ A3 Hw) as Hw3.
  assert (Eout : outbox_ids d3 = outbox_ids d) by (unfold outbox_ids; by rewrite (un_outbox _ _ _ U3)).
  destruct (outbox_loop a w (outbox_ids d3) d3 Hw3) as (d4 & E4 & O4 & P4). pose proof P4 as [A4 C4 B4].
  pose proof (op_work _ _ _ _ O4) as Hw4. assert (A34 : same_authority d d4) by (by etrans).
  assert (Hc4 : forall k i, covered a d4 k i <-> k = "DOMAIN_COMMAND" /\ i ∈ command_ids d \/ k = "TRANSACTIONAL_OUTBOX" /\ i ∈ outbox_ids d).
  { intros k i. rewrite C4, C3, Eout, (un_outbox _ _ _ U3). pose proof (elem_of_outbox_ids d i). specialize (Hnc k i). tauto. }
  destruct (deployment_phase a w td d4 Hw4 (own_lineage_same _ _ _ A34 Hown)) as (d5 & E5 & R5 & P5).
  { intros i. rewrite Hc4. intros [[? _]|[? _]]; discriminate. }
  pose proof P5 as [A5 C5 B5]. destruct (ai_loop a w (ai_call_ids d5) d5 (rd_work _ _ _ _ R5)) as (d6 & E6 & R6 & P6). pose proof P6 as [A6 C6 B6].
  destruct (session_loop a w ts (safe_session_ids ts d6) d6 (rd_work _ _ _ _ R6)) as (d7 & E7 & R7 & P7). pose proof P7 as [A7 C7 B7].
  exists d3, d4, d5, d6, d7. split; [done|]. split; [done|]. split; [done|]. assert (R7' : recorded a w d4 d7) by (eapply recorded_trans; [exact R5|by eapply recorded_trans]).
  split; [exact R7'|]. split.
  { intros i. rewrite (proj1 (rd_rows _ _ _ _ R7')). destruct (op_rows _ _ _ _ O4 i) as [Hc|E]; [left|right; by rewrite E, (un_outbox _ _ _ U3)].
    apply Hc4 in Hc as [[? _]|[_ ?]]; [discriminate|done]. }
  assert (A05 : same_authority d d5) by (by etrans). assert (A06 : same_authority d d6) by (by etrans).
  rewrite (same_tables _ _ _ A05) in C6, B6. assert (Eai : ai_call_ids d5 = ai_call_ids d) by (unfold ai_call_ids; by rewrite (same_tables _ _ _ A05)). rewrite Eai in C6, B6.
  rewrite (same_safe_sessions _ _ _ A06), (same_tables _ _ _ A06), (same_manual _ _ _ A06) in C7.
  assert (Esafe : forall i, session_safe ts d6 i = session_safe ts d i) by (intros i; unfold session_safe, table; by rewrite (proj1 (sa_source _ _ A06))).
  setoid_rewrite Esafe in C7. setoid_rewrite (deployment_current_same _ _ _ A34) in C5. rewrite (same_manual _ _ _ A34) in C5. rewrite Eout, (un_outbox _ _ _ U3) in B4.
  split; [by etrans|..].
  - intros k i. rewrite C7, C6, C5, Hc4. unfold classified_before. rewrite session_closable_spec, elem_of_safe_session_ids. specialize (Hnc k i).
    rewrite andb_true_iff. tauto.
  - rewrite B7, B6, B5, B4, B3. setoid_rewrite C5. setoid_rewrite Hc4. setoid_rewrite C3. setoid_rewrite elem_of_outbox_ids. setoid_rewrite elem_of_command_ids. split.
    + intros [[[[[Hb|(i & c & (c' & Hc' & Hf) & Hc & Hr)]|(i & _ & _ & o & Ho)]|[]]|(i & Hi & _ & call & Hcall)]|[]].
      * by left.
      * right; left. exists i, c. rewrite Hc in Hc'. by injection Hc' as <-.
      * right; right; left. eauto.
      * right; right; right. eauto.
    + intros [Hb|[(i & c & Hc & Hf & Hr)|[(i & o & Ho & Hd & Hu)|(i & Hi & call & Hcall)]]].
      * by do 5 left.
      * do 4 left; right. exists i, c. split_and!; [exists c; done|done..].
      * do 3 left; right. exists i. split; [eauto|]. split; [|eauto]. intros [?|[? _]]; [by eapply Hnc|discriminate].
      * left; right. exists i. split; [done|]. split; [|eauto]. intros [[[? _]|[? _]]|[? _]]; discriminate.
Qed.
Lemma classify_all a w (tc td ts tr : Z) d : guards d -> at_work a w d -> own_lineage a d -> (forall kind i, item d (ra_attempt a) kind i = None) -> room (size (commands d)) d ->
  exists d7 d8, classification a w tc td ts tr d d7 d8.
Proof.
  intros G Hw Hown Hnone Hroom.
  destruct (classify_before a w tc td ts d Hw Hown Hnone Hroom) as (d3 & d4 & d5 & d6 & d7 & (E3 & E4 & E5 & E6 & E7) & U3 & O4 & R7 & Hout & [A7 C7 B7]).
  assert (Hk : Forall (fun rec => includes_char ":" (ownerKind rec) = false) (collectInventory tr d7)) by (apply Forall_forall; apply inventory_kinds).
  destruct (remaining_fold a w (collectInventory tr d7) d7 (rd_work _ _ _ _ R7) Hk) as (d8 & E8 & R8 & [A8 C8 B8]).
  exists d7, d8. pose proof (op_same _ _ _ _ O4) as [A4 S4].
  pose proof (same_commands_trans _ _ _ S4 (rd_commands _ _ _ _ R7)) as [(_ & Ecl & Ecm & _ & Eq & _) _ _].
  assert (Hclaims : orphan_claims d7 = []).
  { change (orphan_claims (on_rest (with_outbox (rt_outbox (rest d3))) d7) = []). apply (no_orphan_claims (command_ids d) d); [done|]. destruct U3 as [Ur Uo Uc Ub].
    split; unfold still_open, claim_flags in *; change (commands (on_rest _ d7)) with (commands d7); change (queue (on_rest _ d7)) with (queue d7);
      change (claims (on_rest _ d7)) with (claims d7); rewrite ?Ecl, ?Ecm, ?Eq; done. }
  assert (Hleft := left_over td ts tr d d7).
  split; [exists d3, d4, d5, d6; done|done|by etrans| |].
  - intros rec Hin. apply C8. right. eauto.
  - rewrite B8, B7, review_needed_spec, (unsettled_blocks td). pose proof (blocked_none a d Hnone). setoid_rewrite C7.
    assert (Hrest : (exists rec, rec ∈ collectInventory tr d7 /\ ~ (covered a d (ownerKind rec) (ownerId rec) \/ classified_before td ts d (ownerKind rec) (ownerId rec))) <->
      (exists rec, rec ∈ collectInventory tr d7 /\ ~ classified_before td ts d (ownerKind rec) (ownerId rec))).
    { assert (Hnc : forall k i, ~ covered a d k i) by (intros k i; by rewrite uncovered). split; intros (rec & Hin & Hn); exists rec; split; try done; [tauto|]. intros [Hx|Hx]; [by eapply Hnc|done]. }
    rewrite Hrest, Hleft; try done; [tauto|..].
    + intros i Hi. destruct U3 as [Ur _ _ _]. rewrite Ecm, Eq. by apply Ur.
    + intros i Hi. destruct U3 as [_ Uo _ _]. unfold still_open. rewrite Ecm. by apply Uo.
    + apply (proj1 (sa_source _ _ A7)).
Qed.
Lemma review_needed_opened a w d0 d ts tr : opened a w d0 d -> review_needed ts tr d = review_needed ts tr d0.
Proof.
  intros [_ _ (r & r0 & Hr & Hr0 & E1 & E2) _ [(_ & Ecl & Ecm & _ & Eq & _) _ _] (_ & Eo & _ & Ed & Es)].
  assert (Edc : forall i, deployment_current d i = deployment_current d0 i).
  { intros i. unfold deployment_current, current_run, table, exact_current. rewrite Ed, Es, Hr, Hr0. cbn. by rewrite E1, E2. }
  assert (Est : forall rec, settled_record ts d rec = settled_record ts d0 rec).
  { intros rec. unfold settled_record. rewrite Edc. unfold response_known, session_closable, safe_session_ids, session_safe, table. by rewrite Es. }
  assert (Erc : forall i c, recoverable d i c = recoverable d0 i c).
  { intros i c. unfold recoverable, live_queue, claim_valid, effect_uncertain, effect_statuses, table. by rewrite Eq, Ecl, Es. }
  unfold review_needed, manual_records, query_records, table. rewrite Ecm, Eo, Eq, Es. f_equal. f_equal; [f_equal|].
  - clear -Erc. induction (map_to_list (commands d0)) as [|[i c] l IH]; cbn; [done|]. by rewrite Erc, IH.
  - clear -Est. induction (MANUAL_INVENTORY_QUERIES ≫= _) as [|rec l IH]; cbn; [done|]. by rewrite Est, IH.
Qed.
Lemma steady_inventory t t' d : manual_records t d = manual_records t' d -> collectInventory t d = collectInventory t' d.
Proof. unfold manual_records, collectInventory. by intros ->. Qed.
Lemma for_ids_grow a (body : string -> rec_db -> result rec_db) l d d' : (forall id d1 d2, body id d1 = Ok d2 -> items_grow a d1 d2) ->
  for_ids body l d = (Ok tt, d') -> items_grow a d d'.
Proof.
  intros Hb. revert d. induction l as [|id l IH]; intros d Hl; [by injection Hl as <-|]. destruct (body id d) as [d1|e] eqn:E.
  - rewrite (for_ids_cons _ _ _ _ _ E) in Hl. etrans; [by eapply Hb|by apply IH].
  - cbn in Hl. unfold mbind, io_bind, txn_unit, Prelude.txn in Hl. rewrite E in Hl. discriminate Hl.
Qed.
Lemma classification_grows a w tc td ts tr d d7 d8 : classification a w tc td ts tr d d7 d8 -> items_grow a d d8.
Proof.
  intros [(d3 & d4 & d5 & d6 & E3 & E4 & E5 & E6 & E7 & E8) _ _ _ _].
  assert (Hk : Forall (fun rec => includes_char ":" (ownerKind rec) = false) (collectInventory tr d7)) by (apply Forall_forall; apply inventory_kinds).
  apply review_records_Ok in E8 as (_ & G8 & _); [|done]. apply classify_deployment_Ok in E5 as [_ [_ G5 _]].
  apply (for_ids_grow a) in E3; [|by intros id d1 d2 (_ & [_ ? _] & _)%classify_command_Ok]. apply (for_ids_grow a) in E4; [|by intros id d1 d2 (_ & [_ ? _])%classify_outbox_Ok].
  apply (for_ids_grow a) in E6; [|by intros id d1 d2 (_ & [_ ? _])%classify_ai_call_Ok]. apply (for_ids_grow a) in E7; [|by intros id d1 d2 (_ & [_ ? _])%classify_session_Ok].
  by repeat (etrans; [eassumption|]).
Qed.
(** The last two transactions of a classified attempt *)
Lemma conclude a w (tc td ts tr tf : Z) d0 d d7 d8 : kinds_ok d0 -> opened a w d0 d -> classification a w tc td ts tr d d7 d8 -> manual_records tr d = manual_records tf d ->
  exists d9 res d', classify_remaining a w tr d7 = Ok d9 /\ finalize a w tf d9 = Ok (res, d') /\ pr_attempt res = ra_attempt a /\
    pr_state res = (if review_needed ts tr d then RS_MANUAL_REVIEW else RS_READY) /\ is_Ok (lockAndVerifyPlatformRecovery (recovery d')) = negb (review_needed ts tr d).
Proof.
  intros Hkinds Hop Hcl. pose proof (classification_grows _ _ _ _ _ _ _ _ _ Hcl) as [_ Hgrow]. destruct Hcl as [(d3 & d4 & d5 & d6 & _ & _ & _ & _ & _ & E8) R8 A8 C8 B8]. intros Hst.
  destruct Hop as [Hw (p0 & r0 & Hp & Hr & Hrs & Hfin & Hsc & Hlin) _ _ _ (Ei & _ & _ & _ & Es)].
  assert (Hkinds8 : kinds_ok d8).
  { intros k i Hki. destruct (Hgrow _ _ Hki) as [Ho|(_ & _ & _ & _ & ?)]; [|done]. rewrite Ei in Ho. by apply (Hkinds k i). }
  pose proof (at_work_same _ _ _ _ A8 Hw) as Hw8. destruct (aw_fenced _ _ _ Hw8) as (p & r & Hf8).
  assert (p = p0 /\ r = r0) as [-> ->].
  { pose proof (fe_attempt _ _ _ _ _ Hf8) as X. pose proof (fe_head _ _ _ _ _ Hf8) as Y. unfold attempt in *. rewrite (sa_attempts _ _ A8), Hp in X. rewrite (sa_head _ _ A8), Hr in Y.
    split; congruence. }
  pose proof (fe_state _ _ _ _ _ Hf8) as Hstate.
  set (stable := collectInventory tr d8). set (f := set_first (json_digest (inventory_json stable)) (watermark stable) (tr + RECOVERY_LEASE)). set (p := f p0).
  set (d9 := on_rest (with_attempts (<[ra_attempt a := p]> (rt_attempts (rest d8)))) d8).
  assert (E9 : classify_remaining a w tr d7 = Ok d9).
  { unfold classify_remaining. assert (Hf7 : assertFence a w d7 = Ok tt).
    { apply assertFence_Ok. exists p0, r0. destruct R8 as [_ [X1 [X2 X3] X4 _] _ _]. destruct Hf8 as [Y1 Y2 Y3 ? ? ? ?]. unfold attempt in Y1.
      split; unfold attempt; rewrite <- ?X1, <- ?X2, <- ?X4; done. }
    rewrite Hf7. cbn [mbind result_bind]. rewrite E8. cbn [mbind result_bind].
    apply (update_attempt_total _ f _ p0); [apply Hf8|done..| |]; cbn; rewrite Hstate; [done|by rewrite Hfin]. }
  assert (Hf9 : fenced a w d9 p r0).
  { destruct Hf8 as [Y1 Y2 Y3 Y4 Y5 Y6 Y7]. split; try done. unfold attempt. cbn. by rewrite lookup_insert_eq. }
  destruct (finalize_total a w tf d9 p r0 Hf9) as (res & d' & Efin); [done|done|]. exists d9, res, d'. split; [done|]. split; [done|].
  apply finalize_Ok in Efin as (p' & r' & ev & Hf' & Hu & Hs & Hat & _ & ->). split; [done|].
  assert (p' = p) as -> by (pose proof (fe_attempt _ _ _ _ _ Hf9); pose proof (fe_attempt _ _ _ _ _ Hf'); congruence).
  assert (r' = r0) as -> by (pose proof (fe_head _ _ _ _ _ Hf9); pose proof (fe_head _ _ _ _ _ Hf'); congruence).
  assert (Einv : collectInventory tf d9 = stable).
  { transitivity (collectInventory tf d8); [done|]. unfold stable. symmetry. apply steady_inventory. by rewrite !(same_manual _ _ _ A8). }
  assert (Hk : Forall (fun rec => includes_char ":" (ownerKind rec) = false) (collectInventory tf d9)) by (apply Forall_forall; apply inventory_kinds).
  pose proof (unresolved_nil a p d9 (collectInventory tf d9) Hkinds8 Hk) as Hnil.
  assert (Hb : nothing_blocks a d9 <-> ~ blocked a d8).
  { unfold nothing_blocks, blocked. split.
    - intros Hn (k & i & x & Hx & Hbx). change (item d8) with (item d9) in Hx. rewrite (Hn _ _ _ Hx) in Hbx. done.
    - intros Hn k i x Hx. apply not_true_iff_false. intros Hbx. apply Hn. exists k, i, x. done. }
  assert (Hstate' : pr_state res = (if review_needed ts tr d then RS_MANUAL_REVIEW else RS_READY)).
  { rewrite Hs. unfold decide_state. destruct (review_needed ts tr d) eqn:Hrv.
    - destruct (pr_unresolvedObjectIds res) as [|x l] eqn:El.
      + symmetry in Hu. apply Hnil in Hu as (_ & Hn & _). exfalso. apply Hb in Hn. apply Hn, B8. done.
      + destruct (blockers a d9) eqn:Ebl; [|done]. exfalso. rewrite (blockers_spec a d9) in Ebl. apply Hb in Ebl. apply Ebl, B8. done.
    - assert (Hn : nothing_blocks a d9) by (apply Hb; rewrite B8; congruence).
      assert (Hnu : pr_unresolvedObjectIds res = []); [|by rewrite Hnu]. rewrite Hu. apply Hnil. rewrite Einv. split_and!; try done.
      + intros rec Hin. unfold stable in Hin. rewrite (collect_recorded _ _ _ _ _ R8) in Hin. destruct (C8 rec Hin) as [x Hx]. exists x. split; [done|]. by eapply Hn.
      + cbn. rewrite Hsc. unfold schemaConstraintDigest. cbn. by rewrite (proj1 (sa_source _ _ A8)), Es. }
  split; [done|]. rewrite Hstate'. cbn. unfold lockAndVerifyPlatformRecovery. cbn. destruct Hlin as (L1 & L2 & L3). rewrite L1, L2, L3, String.eqb_refl, Z.eqb_refl, bool_decide_eq_true_2 by done.
  by destruct (review_needed ts tr d).
Qed.
Lemma io_step {A B} (m : io rec_db A) (f : A -> io rec_db B) d x d' : m d = (Ok x, d') -> (m ≫= f) d = f x d'.
Proof. intros E. unfold mbind, io_bind. by rewrite E. Qed.
Lemma txn_unit_Ok (body : rec_db -> result rec_db) d d' : body d = Ok d' -> txn_unit body d = (Ok tt, d').
Proof. intros E. unfold txn_unit, Prelude.txn. by rewrite E. Qed.
End Verdict.

Section Run.
Context `{L : Locale} `{H : Hash} `{F : Formats} {W : Type} `{Src : InventorySource W} `{D : CommandDomain (recovery_tables W)}
  `{M : CommandHandlers (recovery_tables W)} `{Law : !LawfulHandlers}.
Context (cat : OperationCatalogService) (reg : gmap string StableErrorRecord).
Abbreviation data s := (db (crew s)).

(** C12. A recovery that nothing disturbs ends, and its verdict is known from the data it found.  In a reachable state whose current
    attempt cannot be taken over, a coordinator with a worker identity in the standard form, a new attempt, room in the counters and no injected fault
    passes all its transactions; the attempt ends READY, and authoritative writes are admitted again, exactly when every open command has its
    live item and its claim and no open side effect, no event of the outbox may have been dispatched, every record of the inventoried tables
    is the current deployment, a model call with a response to retrieve or a session without dependents, and
    no item of the queue is an orphan; otherwise it ends in MANUAL_REVIEW and the gate stays closed.  (Nothing that depends on
    the time may expire between the last two transactions.) *)
Theorem recover_meets_verdict (s : recovery_system (W := W)) (r : recovery_row) id w inject (clock : recovery_phase -> Z) :
  recovery_reachable cat reg s -> recovery (data s) = Some r -> uuid_text w = true -> uuid_value w = Some w -> (forall p, inject p = Ok tt) ->
  fresh_attempt id (data s) -> not_reusable r (data s) -> room (size (commands (data s))) (data s) -> recovery_epoch r < max_bigint -> recovery_fencing_token r < max_bigint ->
  manual_records (clock PH_REMAINING) (data s) = manual_records (clock PH_FINALIZE) (data s) ->
  exists res d', recover inject clock id w (data s) = (Ok res, d') /\ pr_attempt res = id /\
    pr_state res = (if review_needed (clock PH_SESSIONS) (clock PH_REMAINING) (data s) then RS_MANUAL_REVIEW else RS_READY) /\
    is_Ok (lockAndVerifyPlatformRecovery (recovery d')) = negb (review_needed (clock PH_SESSIONS) (clock PH_REMAINING) (data s)).
Proof.
  intros Hs Hr Hw Huu Hinj Hfresh Hre Hroom He Hf Hst. pose proof (reachable_inv _ _ _ Hs) as I.
  assert (G : guards (data s)) by (by apply (v_guards (crew s)), (reachable_safe cat reg), crew_reachable).
  destruct (open_attempt w id (clock PH_BEGIN) (clock PH_ENTER) (data s) (coordinators s) r I Hr Hfresh Hre Huu He Hf) as (a & d1 & d2 & Eb & Ee & Ea & O).
  pose proof (on_commands _ _ _ _ O) as Sc. destruct (on_tables _ _ _ _ O) as (Ei & _ & _ & _ & Es).
  assert (G2 : guards d2) by (by eapply guards_same).
  assert (Hroom2 : room (size (commands d2)) d2).
  { pose proof Sc as [(_ & Ecl & Ecm & _) _ _]. unfold room. by rewrite Ecl, Ecm. }
  destruct (classify_all a w (clock PH_COMMANDS) (clock PH_DEPLOYMENT) (clock PH_SESSIONS) (clock PH_REMAINING) d2 G2 (on_work _ _ _ _ O) (on_lineage _ _ _ _ O)) as (d7 & d8 & Hcl); [|done|].
  { intros kind i. unfold item. rewrite Ei, Ea. apply Hfresh. }
  assert (Hst2 : manual_records (clock PH_REMAINING) d2 = manual_records (clock PH_FINALIZE) d2) by (unfold manual_records, query_records, table in *; by rewrite Es).
  destruct (conclude _ _ _ _ _ _ _ _ _ _ _ (ri_kinds _ _ I) O Hcl Hst2) as (d9 & res & d' & E9 & Ef & Eat & Hres & Hgate).
  rewrite (review_needed_opened _ _ _ _ _ _ O) in Hres, Hgate. exists res, d'. split; [|by rewrite Eat].
  destruct (cl_run _ _ _ _ _ _ _ _ _ Hcl) as (d3 & d4 & d5 & d6 & E3 & E4 & E5 & E6 & E7 & _).
  unfold recover. rewrite Hw. rewrite (io_step _ _ _ tt (data s)) by done. rewrite (io_step _ _ _ a d1) by (unfold Prelude.txn; by rewrite Eb).
  rewrite (io_step _ _ _ tt d1) by (unfold lift; by rewrite Hinj). rewrite (io_step _ _ _ tt d2) by (by apply txn_unit_Ok).
  rewrite (io_step _ _ _ tt d2) by (unfold lift; by rewrite Hinj). rewrite (io_step _ _ _ tt d3) by exact E3.
  rewrite (io_step _ _ _ tt d4) by exact E4. rewrite (io_step _ _ _ tt d5) by (by apply txn_unit_Ok). rewrite (io_step _ _ _ tt d6) by exact E6.
  rewrite (io_step _ _ _ tt d7) by exact E7. rewrite (io_step _ _ _ tt d9) by (by apply txn_unit_Ok). rewrite (io_step _ _ _ tt d9) by (unfold lift; by rewrite Hinj).
  unfold Prelude.txn. by rewrite Ef.
Qed.
End Run.

(** ** Samples *)

#[local] Existing Instances code_unit_locale toy_hash toy_dates sample_source recovery_domain recovery_handlers recovery_lawful.
Definition sample_worker : string := "22222222-2222-4222-8222-222222222222".
Definition sample_clock (p : recovery_phase) : Z := 100000.
Definition no_fault (p : PlatformRecoveryFaultPoint) : result unit := Ok tt.
Abbreviation sample_run rows := (recover no_fault sample_clock "attempt" sample_worker (restarted_db rows)).
Definition run_state (r : result PlatformRecoveryResult * cmd_db (recovery_tables (list (string * list table_row)))) : option (RecoveryState * list string * bool) :=
  match r with (Ok res, d) => Some (pr_state res, pr_unresolvedObjectIds res, is_Ok (lockAndVerifyPlatformRecovery (recovery d))) | _ => None end.
(** A model call without a response is left to a person. *)
Definition unknown_rows : list (string * list table_row) := call_rows JNull.
Example runs : map run_state [sample_run known_rows; sample_run unknown_rows] = [Some (RS_READY, [], true); Some (RS_MANUAL_REVIEW, ["AI_MODEL_CALL:call"], false)].
Proof. vm_compute. reflexivity. Qed.
(** The check of the worker identity admits upper case, but the fence is compared with the text that the column gives back. *)
Definition upper_worker : string := "22222222-2222-4222-8222-AAAAAAAAAAAA".
Example upper_case_worker : (uuid_text upper_worker, uuid_value upper_worker, fst (recover no_fault sample_clock "attempt" upper_worker (restarted_db known_rows)))
  = (true, Some "22222222-2222-4222-8222-aaaaaaaaaaaa", Throw (DomainErr "FENCING_TOKEN_STALE" "Recovery attempt fence is not current")).
Proof. vm_compute. reflexivity. Qed.
Lemma room_check (n : nat) (d : cmd_db (recovery_tables (list (string * list table_row)))) :
  forallb (fun p => kc_fence p.2 + Z.of_nat n <=? max_bigint) (map_to_list (claims d)) = true -> room n d.
Proof. rewrite forallb_forall. intros Hall k c Hk. apply Z.leb_le, (Hall (k, c)), list_elem_of_In, elem_of_map_to_list. exact Hk. Qed.
Lemma recover_meets_verdict_witness : exists res d', sample_run known_rows = (Ok res, d') /\ pr_state res = RS_READY /\ is_Ok (lockAndVerifyPlatformRecovery (recovery d')) = true.
Proof.
  assert (Hr : recovery (restarted_db known_rows) = Some restart_row) by reflexivity.
  assert (Hn : rt_attempt (rest (restarted_db known_rows)) = None /\ rt_attempts (rest (restarted_db known_rows)) = ∅ /\ rt_items (rest (restarted_db known_rows)) = ∅)
    by (split; [|split]; vm_compute; reflexivity).
  destruct Hn as (Hat & Hno & Hni).
  assert (Hfresh : fresh_attempt "attempt" (restarted_db known_rows)) by (split; [unfold attempt; rewrite Hno; apply lookup_empty|intros k i; unfold item; rewrite Hni; apply lookup_empty]).
  assert (Hre : not_reusable restart_row (restarted_db known_rows)) by (intros i p Hi; rewrite Hat in Hi; discriminate Hi).
  assert (Hroom : room (size (commands (restarted_db known_rows))) (restarted_db known_rows)) by (apply room_check; vm_compute; reflexivity).
  destruct (recover_meets_verdict sample_catalog ∅ (platform (restarted_db known_rows) ∅) restart_row "attempt" sample_worker no_fault sample_clock
    (restarted_reachable known_rows) Hr ltac:(vm_compute; reflexivity) ltac:(vm_compute; reflexivity) (fun _ => eq_refl) Hfresh Hre Hroom ltac:(vm_compute; reflexivity) ltac:(vm_compute; reflexivity) eq_refl)
    as (res & d' & Hrun & _ & Hs & Hg).
  assert (Hv : review_needed (sample_clock PH_SESSIONS) (sample_clock PH_REMAINING) (restarted_db known_rows) = false) by (vm_compute; reflexivity).
  change (db (crew (platform (restarted_db known_rows) ∅))) with (restarted_db known_rows) in *.
  exists res, d'. split; [exact Hrun|]. rewrite Hv in Hs, Hg. split; [exact Hs|exact Hg].
Defined.
