(* ===== verification/StateBroker.v ===== *)
(** * The state broker

    [stateRead], [stateWrite] and the part of [handleBrokerRequest] that leads to them in
    [packages/worker-runtime/src/index.ts]: the local state of a runtime execution, one document per lineage with a
    versioned record for every key.  The lineage is that of [Authority.loadRuntimeExecutionLineage], the requests are those that
    [IpcBroker] admits, and every write leaves an event of [AuditChain].  The rows of [kcml.component_runtime_target] are
    those of the broker, which nothing else writes; [jsonb] keeps a document as it is, up to the order of its keys, which
    nothing reads, and refuses the character NUL. *)
From Stdlib Require Import Ascii String.
From S2P Require Import Prelude Bytes Json Text Digest CanonicalValue IpcFrame IpcChannel IpcBroker AuditChain Database RuntimeSystemd ErrorRegistry Authority Contracts Schemas Commands Handlers.

(** ** Objects *)

(** The objects of [JSON.parse] inherit from [Object.prototype]: these of its names are keys of a local state.  What they name is a
    function, which has none of the properties the broker reads. *)
Definition inherited_names : list string :=
  ["constructor"; "hasOwnProperty"; "isPrototypeOf"; "propertyIsEnumerable"; "toLocaleString"; "toString"; "valueOf"].
(** [values[key]] *)
Definition indexed (key : string) (values : list (string * json)) : option json :=
  match get_prop key values with Some j => Some j | None => if includes key inherited_names then Some (JObj []) else None end.
(** [(value ?? {}) as JsonObject] *)
Definition fields (j : option json) : list (string * json) := match j with Some (JObj l) => l | _ => [] end.
Definition field (key : string) (j : json) : option json := get_prop key (fields (Some j)).
(** [value ?? null] *)
Definition or_null (j : option json) : json := default JNull j.
(** [payload.key]: reading a member of null or undefined throws. *)
Definition payload_member (payload : option json) (key : string) : result (option json) :=
  match payload with
  | None | Some JNull => Throw (JsError ("Cannot read properties of " +:+ (if payload is Some _ then "null" else "undefined") +:+ " (reading '" +:+ key +:+ "')"))
  | _ => Ok (get_prop key (fields payload))
  end.
(** [String(value ?? fallback)] *)
Definition text_or (fallback : string) (j : option json) : string := match nullish j None with Some v => to_text v | None => fallback end.
(** [value === text], [value === true] *)
Definition is_text (s : string) (j : option json) : bool := match j with Some (JStr t) => String.eqb t s | _ => false end.
Definition is_true (j : option json) : bool := match j with Some (JBool b) => b | _ => false end.
(** Text that [jsonb] can hold *)
Definition no_nul (s : string) : bool := negb (includes_char (char_of 0) s).
Fixpoint jsonb_ok (j : json) : bool :=
  match j with
  | JStr s => no_nul s
  | JArr l => forallb jsonb_ok l
  | JObj l => forallb (fun '(k, v) => no_nul k && jsonb_ok v) l
  | _ => true
  end.
Definition jsonb (j : json) : result unit := throw_if (negb (jsonb_ok j)) (PgError "22P05").

(** [/^[0-9a-f-]{36}$/iu] *)
Definition correlation_like (s : string) : bool :=
  (String.length s =? 36)%nat && str_forallb (fun c => is_hex (to_lower_char c) || Ascii.eqb c "-"%char) s.
(** The input of a [uuid]: [n] bytes are left of 16; a hyphen may follow every second one but the last. *)
Fixpoint uuid_digits (n : nat) (l : list ascii) : bool :=
  match n, l with
  | O, [] => true
  | S m, a :: b :: l =>
      is_hex (to_lower_char a) && is_hex (to_lower_char b)
      && uuid_digits m (match l with "-"%char :: l' => if Nat.odd (16 - n) && (0 <? m)%nat then l' else l | _ => l end)
  | _, _ => false
  end.

(** ** Tables *)

(** The columns of [kcml.component_runtime_target] that the broker reads or writes, by [stable_key] *)
Record target_row := {
  tr_id : string; tr_lifecycle : string; tr_state : json; tr_digest : list Z; tr_version : Z; tr_activation : Z; tr_incarnation : string; tr_deployment : Z;
}.
Record state_db := { st_authority : authority_tables; st_targets : gmap string target_row; st_log : audit_db }.
Definition set_targets m (d : state_db) : state_db := {| st_authority := st_authority d; st_targets := m; st_log := st_log d |}.
Definition set_state_log l (d : state_db) : state_db := {| st_authority := st_authority d; st_targets := st_targets d; st_log := l |}.
Definition set_authority t (d : state_db) : state_db := {| st_authority := t; st_targets := st_targets d; st_log := st_log d |}.
(** [FROM platform_incarnation CROSS JOIN application_deployment_head CROSS JOIN activation_head], each with its singleton key *)
Definition heads (t : authority_tables) : option (incarnation_row * deployment_row * activation_row) :=
  p ← List.find (fun p => p_singleton_key p =? 1) (t_incarnations t);
  d ← List.find (fun d => d_singleton_key d =? 1) (t_deployments t);
  a ← List.find (fun a => a_singleton_key a =? 1) (t_activations t);
  Some (p, d, a).

Section Broker.
Context `{L : Locale} `{H : Hash}.

Definition sha256_hex (j : json) : string := hex (hash (utf8 (canonicalJson (jsonSafe j)))).
Definition appendBrokerAudit (type : string) (payload : json) (d : state_db) : result state_db :=
  _ ← throw_if (match field "correlationId" payload with Some (JStr s) => correlation_like s && negb (uuid_digits 16 (chars s)) | _ => false end) (PgError "22P02");
  _ ← jsonb (jsonSafe payload);
  log ← append_audit_event (st_log d) (type, utf8 (canonicalJson (jsonSafe payload)));
  Ok (set_state_log log d).

(** ** Operations *)

Definition stateRead (l : RuntimeExecutionLineage) (payload : option json) (d : state_db) : result json :=
  k ← payload_member payload "key";
  key ← assertRuntimeLocalStateKey (text_or "" k);
  match st_targets d !! runtimeStateNamespace l with
  | None => Ok JNull
  | Some row =>
      if negb (String.eqb (tr_lifecycle row) "ACTIVE") then Ok JNull
      else
        let document := tr_state row in
        _ ← throw_if (negb (is_text (lineageDigest l) (field "lineageDigest" document))) (JsError "RUNTIME_STATE_LINEAGE_MISMATCH");
        let values := fields (field "values" document) in
        match indexed key values with
        | None => Ok JNull
        | Some record =>
            if negb (js_truthy record) || is_true (field "deleted" record) then Ok JNull
            else Ok (JObj [("value", or_null (field "value" record)); ("valueDigest", or_null (field "valueDigest" record));
                           ("schemaVersion", default (JNum 1) (nullish (field "schemaVersion" record) None)); ("stateVersion", or_null (field "stateVersion" record));
                           ("namespaceVersion", JStr (dec (tr_version row))); ("activationEpoch", JStr (dec (tr_activation row)));
                           ("deploymentEpoch", JStr (dec (tr_deployment row)))])
        end
  end.

Inductive state_operation := PUT | CREATE | DELETE.
#[export] Instance state_operation_eq_dec : EqDecision state_operation.
Proof. solve_decision. Defined.
Definition state_operation_name (o : state_operation) : string := match o with PUT => "put" | CREATE => "create" | DELETE => "delete" end.
Definition parse_operation (s : string) : result state_operation :=
  let s := to_lower s in
  if String.eqb s "put" then Ok PUT else if String.eqb s "create" then Ok CREATE else if String.eqb s "delete" then Ok DELETE
  else Throw (JsError "RUNTIME_STATE_OPERATION_UNSUPPORTED").
(** What a write asks for, when its payload is accepted *)
Record write_request := { wr_operation : state_operation; wr_key : string; wr_schema : Z; wr_value : json; wr_expected : option Z; wr_correlation : option json }.
Definition parse_write (payload : option json) : result write_request :=
  o ← payload_member payload "operation";
  op ← parse_operation (text_or "put" o);
  let get k := get_prop k (fields payload) in
  key ← assertRuntimeLocalStateKey (text_or "" (get "key"));
  let schema := js_Number (default (JNum 1) (nullish (get "schemaVersion") None)) in
  schema ← or_throw (schema ≫= fun n => if (1 <=? n) && (n <=? max_safe_integer) then Some n else None) (JsError "RUNTIME_STATE_SCHEMA_VERSION_INVALID");
  value ← (if bool_decide (op = DELETE) then Ok JNull
           else v ← or_throw (get "value") (JsError "CanonicalJsonConversionError"); _ ← assertStateValueWithinLimits v; Ok v);
  expected ← match nullish (get "expectedStateVersion") None with
             | None => Ok None
             | Some e => n ← or_throw (StringToBigInt (to_text e)) (JsError "SyntaxError"); Ok (Some n)
             end;
  Ok {| wr_operation := op; wr_key := key; wr_schema := schema; wr_value := value; wr_expected := expected; wr_correlation := get "correlationId" |}.

Definition lineage_object (l : RuntimeExecutionLineage) : json :=
  JObj (fields (Some (raw_json (raw l))) ++ [("lineageDigest", JStr (lineageDigest l))]).
Definition initial_document (l : RuntimeExecutionLineage) : json :=
  JObj [("lineage", lineage_object l); ("lineageDigest", JStr (lineageDigest l)); ("persistentState", JBool true); ("namespaceVersion", JNum 1); ("values", JObj [])].
Definition document_digest (document : json) : list Z := hash (utf8 (canonicalJson (jsonSafe document))).
Definition new_target (id : string) (document : json) (hd : incarnation_row * deployment_row * activation_row) : target_row :=
  {| tr_id := id; tr_lifecycle := "ACTIVE"; tr_state := document; tr_digest := document_digest document; tr_version := 1;
     tr_activation := a_current_epoch hd.2; tr_incarnation := p_platform_incarnation_id hd.1.1; tr_deployment := d_current_epoch hd.1.2 |}.
Definition write_target (document : json) (hd : incarnation_row * deployment_row * activation_row) (r : target_row) : target_row :=
  {| tr_id := tr_id r; tr_lifecycle := tr_lifecycle r; tr_state := document; tr_digest := document_digest document; tr_version := tr_version r + 1;
     tr_activation := a_current_epoch hd.2; tr_incarnation := tr_incarnation r; tr_deployment := d_current_epoch hd.1.2 |}.
Definition state_record (w : write_request) (version : Z) (updatedAt digest : string) : json :=
  JObj [("value", wr_value w); ("valueDigest", JStr (sha256_hex (wr_value w))); ("schemaVersion", JNum (wr_schema w)); ("stateVersion", JStr (dec version));
        ("deleted", JBool (bool_decide (wr_operation w = DELETE))); ("updatedAt", JStr updatedAt); ("lineageDigest", JStr digest)].
(** [current ? BigInt(String(current.stateVersion ?? 0)) : 0n] *)
Definition record_version (current : option json) : result Z :=
  match current with
  | Some j => if js_truthy j then or_throw (StringToBigInt (to_text (default (JNum 0) (nullish (field "stateVersion" j) None)))) (JsError "SyntaxError") else Ok 0
  | None => Ok 0
  end.
(** [current && current.deleted !== true] *)
Definition live_record (current : option json) : bool := match current with Some j => js_truthy j && negb (is_true (field "deleted" j)) | None => false end.
(** The version of the record of the key, when the write may proceed *)
Definition check_versions (w : write_request) (values : list (string * json)) : result Z :=
  let current := indexed (wr_key w) values in
  version ← record_version current;
  _ ← throw_if (bool_decide (wr_operation w = CREATE) && live_record current)
        (JsError "RUNTIME_STATE_ALREADY_EXISTS");
  _ ← throw_if (negb (bool_decide (wr_operation w = CREATE)) && negb (is_some (wr_expected w))) (JsError "STATE_VERSION_REQUIRED");
  _ ← throw_if (match wr_expected w with Some e => negb (version =? e) | None => false end) (JsError "STATE_VERSION_CONFLICT");
  Ok version.
(** The transaction; [id] is the identifier of a new row and [now] the time. *)
Definition write_transaction (l : RuntimeExecutionLineage) (w : write_request) (id now : string) (d : state_db) : result (json * state_db) :=
  current ← loadRuntimeExecutionLineage (st_authority d) (executionId (raw l));
  _ ← throw_if (negb (String.eqb (lineageDigest current) (lineageDigest l))) (JsError "RUNTIME_STATE_FENCING_TOKEN_STALE");
  let stableKey := runtimeStateNamespace current in
  hd ← or_throw (heads (st_authority d)) (JsError "TypeError");
  row ← match st_targets d !! stableKey with
        | Some row => Ok row
        | None =>
            _ ← throw_if (bool_decide (wr_operation w = DELETE)) (JsError "RUNTIME_STATE_NOT_FOUND");
            _ ← jsonb (initial_document current);
            Ok (new_target id (initial_document current) hd)
        end;
  let document := fields (Some (tr_state row)) in
  _ ← throw_if (negb (is_text (lineageDigest current) (get_prop "lineageDigest" document))) (JsError "RUNTIME_STATE_LINEAGE_MISMATCH");
  let values := fields (get_prop "values" document) in
  version ← check_versions w values;
  let values := define_prop (wr_key w) (state_record w (version + 1) now (lineageDigest current)) values in
  _ ← assertStateDocumentWithinLimits values;
  let document := define_prop "values" (JObj values) document in
  let document := define_prop "namespaceVersion" (JStr (dec (tr_version row + 1))) document in
  let document := define_prop "lastCorrelationId" (match wr_correlation w with Some (JStr s) => JStr s | _ => JNull end) document in
  _ ← jsonb (JObj document);
  _ ← throw_if (max_bigint <? tr_version row + 1) (PgError "22003");
  let row := write_target (JObj document) hd row in
  let d := set_targets (<[stableKey := row]> (st_targets d)) d in
  d ← appendBrokerAudit ("runtime.state." +:+ state_operation_name (wr_operation w))
        (JObj [("key", JStr (wr_key w)); ("stateVersion", JStr (dec (version + 1))); ("valueDigest", JStr (sha256_hex (wr_value w)));
               ("lineageDigest", JStr (lineageDigest current)); ("correlationId", or_null (wr_correlation w))]) d;
  Ok (JObj [("id", JStr (tr_id row)); ("key", JStr (wr_key w)); ("value", wr_value w); ("valueDigest", JStr (sha256_hex (wr_value w)));
            ("schemaVersion", JNum (wr_schema w)); ("stateVersion", JStr (dec (version + 1))); ("namespaceVersion", JStr (dec (tr_version row)));
            ("deleted", JBool (bool_decide (wr_operation w = DELETE)))], d).
Definition stateWrite (l : RuntimeExecutionLineage) (payload : option json) (id now : string) (d : state_db) : result (json * state_db) :=
  w ← parse_write payload; write_transaction l w id now d.
(** [handleBrokerRequest] of the state broker after its lineage was loaded *)
Definition serve_state (l : RuntimeExecutionLineage) (q : UnsignedRequest) (id now : string) (d : state_db) : result (json * state_db) :=
  match cr_capability q with
  | STATE_READ => r ← stateRead l (cr_payload q) d; Ok (r, d)
  | STATE_WRITE => stateWrite l (cr_payload q) id now d
  | _ => Throw (JsError "CAPABILITY_MISMATCH")
  end.
End Broker.

(** ** The broker under any interleaving *)

(** A write that was committed: its request, its version, the time and the digest of its lineage *)
Record commit := { cm_namespace : string; cm_write : write_request; cm_version : Z; cm_now : string; cm_digest : string }.
Definition cm_key (c : commit) : string := wr_key (cm_write c).
Definition cm_deleted (c : commit) : bool := bool_decide (wr_operation (cm_write c) = DELETE).

Section System.
Context `{L : Locale} `{H : Hash}.

Definition values_at (ns : string) (d : state_db) : list (string * json) :=
  match st_targets d !! ns with Some row => fields (field "values" (tr_state row)) | None => [] end.
(** Requests in flight have loaded their lineage; [history] are the committed writes, the latest last. *)
Record broker_system := BSys { bs_db : state_db; bs_flights : list (RuntimeExecutionLineage * UnsignedRequest); bs_history : list commit }.
Definition commits (l : RuntimeExecutionLineage) (q : UnsignedRequest) (now : string) (d : state_db) : list commit :=
  match cr_capability q, parse_write (cr_payload q) with
  | STATE_WRITE, Ok w =>
      match check_versions w (values_at (runtimeStateNamespace l) d) with
      | Ok v => [{| cm_namespace := runtimeStateNamespace l; cm_write := w; cm_version := v + 1; cm_now := now; cm_digest := lineageDigest l |}]
      | Throw _ => []
      end
  | _, _ => []
  end.
(** Between the steps anything may happen to the tables of the authority and to the audit log. *)
Inductive bstep : broker_system -> broker_system -> Prop :=
| bs_load d fl h q l : loadRuntimeExecutionLineage (st_authority d) (cr_executionId q) = Ok l -> bstep (BSys d fl h) (BSys d ((l, q) :: fl) h)
| bs_serve d fl1 fl2 h q l id now r d' : serve_state l q id now d = Ok (r, d') ->
    bstep (BSys d (fl1 ++ (l, q) :: fl2) h) (BSys d' (fl1 ++ fl2) (h ++ commits l q now d))
| bs_refuse d fl1 fl2 h q l id now : is_Ok (serve_state l q id now d) = false -> bstep (BSys d (fl1 ++ (l, q) :: fl2) h) (BSys d (fl1 ++ fl2) h)
| bs_other d fl h t log : bstep (BSys d fl h) (BSys (set_state_log log (set_authority t d)) fl h).
Definition broker_initial (s : broker_system) : Prop := bs_flights s = [] /\ bs_history s = [] /\ st_targets (bs_db s) = ∅.
Definition broker_reachable (s : broker_system) : Prop := exists s0, broker_initial s0 /\ star bstep s0 s.
(** The commits of one key, the latest last *)
Definition commits_of (ns key : string) (h : list commit) : list commit :=
  List.filter (fun c => String.eqb (cm_namespace c) ns && String.eqb (cm_key c) key) h.
Definition last_commit (ns key : string) (h : list commit) : option commit := last (commits_of ns key h).
Definition committed_record (c : commit) : json := state_record (cm_write c) (cm_version c) (cm_now c) (cm_digest c).

(** ** Theory *)

Lemma is_text_Some s j : is_text s j = true <-> j = Some (JStr s).
Proof. destruct j as [[| | |t| |]|]; cbn; try done. rewrite String.eqb_eq. split; congruence. Qed.
Lemma parse_write_key payload w : parse_write payload = Ok w -> assertRuntimeLocalStateKey (wr_key w) = Ok (wr_key w).
Proof.
  intros Hp. unfold parse_write in Hp. inv_ok. subst w. cbn. clear -Hok1. unfold assertRuntimeLocalStateKey in *. inv_ok. subst. by rewrite Hok.
Qed.
(** What a committed write has passed and done *)
Record written (l : RuntimeExecutionLineage) (w : write_request) (now : string) (d d' : state_db) (current : RuntimeExecutionLineage) (version : Z) : Prop := {
  wn_current : loadRuntimeExecutionLineage (st_authority d) (executionId (raw l)) = Ok current /\ lineageDigest current = lineageDigest l;
  wn_version : check_versions w (values_at (runtimeStateNamespace l) d) = Ok version;
  wn_limits : assertStateDocumentWithinLimits (define_prop (wr_key w) (state_record w (version + 1) now (lineageDigest l)) (values_at (runtimeStateNamespace l) d)) = Ok tt;
  wn_row : exists row, st_targets d' = <[runtimeStateNamespace l := row]> (st_targets d) /\ tr_version row = 1 + default 1 (tr_version <$> st_targets d !! runtimeStateNamespace l) /\
    tr_lifecycle row = default "ACTIVE" (tr_lifecycle <$> st_targets d !! runtimeStateNamespace l) /\ field "lineageDigest" (tr_state row) = Some (JStr (lineageDigest l)) /\
    field "values" (tr_state row) = Some (JObj (define_prop (wr_key w) (state_record w (version + 1) now (lineageDigest l)) (values_at (runtimeStateNamespace l) d)));
}.
Lemma document_fields (document : list (string * json)) (v1 v2 v3 : json) : let doc := define_prop "lastCorrelationId" v3 (define_prop "namespaceVersion" v2 (define_prop "values" v1 document)) in
  get_prop "values" doc = Some v1 /\ get_prop "lineageDigest" doc = get_prop "lineageDigest" document.
Proof. cbv zeta. split; rewrite 2!get_define_ne by done; [apply get_define_eq|by apply get_define_ne]. Qed.
Lemma write_transaction_Ok l w id now d r d' : write_transaction l w id now d = Ok (r, d') -> exists current version, written l w now d d' current version /\
  r = JObj [("id", default (JStr id) (JStr ∘ tr_id <$> st_targets d !! runtimeStateNamespace l)); ("key", JStr (wr_key w)); ("value", wr_value w); ("valueDigest", JStr (sha256_hex (wr_value w)));
            ("schemaVersion", JNum (wr_schema w)); ("stateVersion", JStr (dec (version + 1)));
            ("namespaceVersion", JStr (dec (1 + default 1 (tr_version <$> st_targets d !! runtimeStateNamespace l)))); ("deleted", JBool (bool_decide (wr_operation w = DELETE)))].
Proof.
  intros Hw. unfold write_transaction in Hw. apply bind_Ok_inv in Hw as (current & Hl & Hw). apply bind_Ok_inv in Hw as (? & Hd & Hw). apply throw_if_Ok, negb_false_iff, String.eqb_eq in Hd.
  assert (Hns : runtimeStateNamespace current = runtimeStateNamespace l) by (unfold runtimeStateNamespace; by rewrite Hd). rewrite Hns, Hd in Hw.
  apply bind_Ok_inv in Hw as (hd & Hhd & Hw). apply bind_Ok_inv in Hw as (row & Hrow & Hw). apply bind_Ok_inv in Hw as (? & Hdig & Hw). apply throw_if_Ok, negb_false_iff, is_text_Some in Hdig.
  assert (Hvals : fields (get_prop "values" (fields (Some (tr_state row)))) = values_at (runtimeStateNamespace l) d /\
    tr_version row = default 1 (tr_version <$> st_targets d !! runtimeStateNamespace l) /\ tr_lifecycle row = default "ACTIVE" (tr_lifecycle <$> st_targets d !! runtimeStateNamespace l) /\
    JStr (tr_id row) = default (JStr id) (JStr ∘ tr_id <$> st_targets d !! runtimeStateNamespace l)).
  { unfold values_at. destruct (st_targets d !! runtimeStateNamespace l) as [row0|]; inv_ok; subst; done. }
  destruct Hvals as (Hv & Hver & Hlc & Hid). rewrite Hv in Hw.
  apply bind_Ok_inv in Hw as (version & Hcv & Hw). apply bind_Ok_inv in Hw as ([] & Hlim & Hw). apply bind_Ok_inv in Hw as (? & _ & Hw). apply bind_Ok_inv in Hw as (? & _ & Hw).
  apply bind_Ok_inv in Hw as (d2 & Haud & Hw). unfold appendBrokerAudit in Haud. do 2 (apply bind_Ok_inv in Haud as (? & _ & Haud)). apply bind_Ok_inv in Haud as (log & _ & Haud). injection Haud as <-.
  injection Hw as <- <-. exists current, version. cbn. rewrite Hid, Hver, (Z.add_comm 1). split; [|done].
  split; try done. eexists. split; [reflexivity|]. cbn. destruct (document_fields (fields (Some (tr_state row)))
    (JObj (define_prop (wr_key w) (state_record w (version + 1) now (lineageDigest l)) (values_at (runtimeStateNamespace l) d)))
    (JStr (dec (tr_version row + 1))) (match wr_correlation w with Some (JStr s) => JStr s | _ => JNull end)) as [E1 E2].
  rewrite Hver in E1, E2. split_and!; [by rewrite Hver, Z.add_comm|done| |exact E1]. exact (eq_trans E2 Hdig).
Qed.

(** Versions *)
Lemma committed_fields c : field "deleted" (committed_record c) = Some (JBool (cm_deleted c)) /\ field "stateVersion" (committed_record c) = Some (JStr (dec (cm_version c))).
Proof. done. Qed.
Lemma indexed_record key values c : get_prop key values = Some (committed_record c) -> indexed key values = Some (committed_record c).
Proof. unfold indexed. by intros ->. Qed.
(** The version that a write finds: that of the last commit of its key, or zero *)
Definition version_of (c : option commit) : Z := default 0 (cm_version <$> c).
Lemma record_version_spec key values c : get_prop key values = committed_record <$> c -> 0 <= version_of c -> record_version (indexed key values) = Ok (version_of c).
Proof.
  intros Hg Hv. destruct c as [c|]; cbn in Hg.
  - rewrite (indexed_record _ _ _ Hg). unfold record_version. cbn [js_truthy committed_record state_record]. cbn. cbn in Hv. by rewrite StringToBigInt_dec.
  - unfold indexed. rewrite Hg. by destruct (includes key inherited_names).
Qed.
Definition alive (c : option commit) : bool := match c with Some c => negb (cm_deleted c) | None => false end.
Lemma expected_spec (e : option Z) (n v : Z) (P : Prop) : P ->
  (_ ← throw_if (match e with Some e => negb (n =? e) | None => false end) (JsError "STATE_VERSION_CONFLICT"); Ok n) = Ok v <-> v = n /\ (forall x, e = Some x -> x = v) /\ P.
Proof.
  intros HP. destruct e as [e|]; cbn; [destruct (Z.eqb_spec n e); cbn|]; (split; [intros [= <-]; split_and!; (done || congruence)|intros (-> & He & _)]); try done.
  destruct n0. by rewrite (He e).
Qed.
(** A write proceeds exactly when its expectations meet the last commit. *)
Lemma check_versions_spec w values c v : get_prop (wr_key w) values = committed_record <$> c -> 0 <= version_of c ->
  check_versions w values = Ok v <->
  v = version_of c /\ (forall e, wr_expected w = Some e -> e = v) /\
  (if bool_decide (wr_operation w = CREATE) then alive c = false /\ (c = None -> includes (wr_key w) inherited_names = false) else is_Some (wr_expected w)).
Proof.
  intros Hg Hv. unfold check_versions. rewrite (record_version_spec _ _ _ Hg Hv). cbn.
  assert (Hal : live_record (indexed (wr_key w) values) = alive c || (negb (is_some c) && includes (wr_key w) inherited_names)).
  { destruct c as [c|]; cbn in Hg; [rewrite (indexed_record _ _ _ Hg); cbn; by rewrite orb_false_r|]. unfold indexed. rewrite Hg. by destruct (includes _ _). }
  rewrite Hal. clear Hal Hg.
  assert (Hc : (alive c || negb (is_some c) && includes (wr_key w) inherited_names = false) <-> alive c = false /\ (c = None -> includes (wr_key w) inherited_names = false)).
  { rewrite orb_false_iff. destruct c; cbn; naive_solver. }
  destruct (bool_decide (wr_operation w = CREATE)); cbn [andb negb].
  - destruct (alive c || _) eqn:E; cbn [throw_if mbind result_bind].
    + split; [done|]. intros (_ & _ & G%Hc). done.
    + apply expected_spec, Hc. done.
  - destruct (is_some (wr_expected w)) eqn:E; cbn.
    + apply expected_spec. by destruct (wr_expected w).
    + split; [done|]. intros (_ & _ & [? G]). by rewrite G in E.
Qed.

(** Commits of a key *)
Lemma commits_of_app ns key h c : commits_of ns key (h ++ [c]) = commits_of ns key h ++ (if String.eqb (cm_namespace c) ns && String.eqb (cm_key c) key then [c] else []).
Proof. unfold commits_of. rewrite List.filter_app. cbn. by destruct (String.eqb (cm_namespace c) ns && _). Qed.
Definition loaded (l : RuntimeExecutionLineage) : Prop := exists t id, loadRuntimeExecutionLineage t id = Ok l.
Lemma loaded_namespace l1 l2 : loaded l1 -> loaded l2 -> runtimeStateNamespace l1 = runtimeStateNamespace l2 -> lineageDigest l1 = lineageDigest l2.
Proof. intros (t1 & i1 & H1%loaded_digest) (t2 & i2 & H2%loaded_digest). unfold runtimeStateNamespace. rewrite H1, H2. apply namespace_digest. Qed.

(** ** The invariant *)

(** What a committed write asked for and found *)
Definition commit_found (c : commit) : Prop := (exists payload, parse_write payload = Ok (cm_write c)) /\ (forall e, wr_expected (cm_write c) = Some e -> cm_version c = e + 1) /\ (wr_operation (cm_write c) <> CREATE -> is_Some (wr_expected (cm_write c))).
Definition creations_replace (l : list commit) : Prop := forall l1 c1 c2 l2, l = l1 ++ c1 :: c2 :: l2 -> wr_operation (cm_write c2) = CREATE -> cm_deleted c1 = true.
Lemma creations_snoc l c : creations_replace l -> (wr_operation (cm_write c) = CREATE -> alive (last l) = false) -> creations_replace (l ++ [c]).
Proof.
  intros Hl Hc l1 c1 c2 l2 E Ho. destruct l2 as [|c3 l2 _] using rev_ind.
  - change (l1 ++ [c1; c2]) with (l1 ++ [c1] ++ [c2]) in E. rewrite app_assoc in E. apply app_inj_tail in E as [-> ->].
    specialize (Hc Ho). rewrite last_snoc in Hc. cbn in Hc. by apply negb_false_iff.
  - change (l1 ++ c1 :: c2 :: l2 ++ [c3]) with (l1 ++ (c1 :: c2 :: l2) ++ [c3]) in E. rewrite app_assoc in E. apply app_inj_tail in E as [-> _]. by eapply Hl.
Qed.
Record broker_inv (s : broker_system) : Prop := {
  bi_flights : Forall (fun f => loaded f.1) (bs_flights s);
  bi_rows : forall ns row, st_targets (bs_db s) !! ns = Some row ->
    tr_lifecycle row = "ACTIVE" /\ (exists l, loaded l /\ ns = runtimeStateNamespace l /\ field "lineageDigest" (tr_state row) = Some (JStr (lineageDigest l))) /\
    assertStateDocumentWithinLimits (values_at ns (bs_db s)) = Ok tt;
  bi_records : forall ns key, get_prop key (values_at ns (bs_db s)) = committed_record <$> last_commit ns key (bs_history s);
  bi_versions : forall ns key, map cm_version (commits_of ns key (bs_history s)) = seqZ 1 (Z.of_nat (length (commits_of ns key (bs_history s))));
  bi_creations : forall ns key, creations_replace (commits_of ns key (bs_history s));
  bi_commits : forall c, In c (bs_history s) -> commit_found c;
  bi_namespace : forall ns, tr_version <$> st_targets (bs_db s) !! ns =
    (if existsb (fun c => String.eqb (cm_namespace c) ns) (bs_history s) then Some (1 + Z.of_nat (length (List.filter (fun c => String.eqb (cm_namespace c) ns) (bs_history s)))) else None);
}.
Lemma version_of_last s ns key : broker_inv s -> version_of (last_commit ns key (bs_history s)) = Z.of_nat (length (commits_of ns key (bs_history s))).
Proof.
  intros I. pose proof (bi_versions s I ns key) as E. unfold last_commit. revert E. generalize (commits_of ns key (bs_history s)). intros l.
  destruct l as [|x l _] using rev_ind; [done|]. rewrite last_snoc, map_app, length_app. cbn. intros E.
  rewrite Nat.add_1_r, seqZ_S in E. apply app_inj_tail in E as [_ E]. lia.
Qed.

Lemma commits_written l q w now d d' current v : cr_capability q = STATE_WRITE -> parse_write (cr_payload q) = Ok w -> written l w now d d' current v ->
  commits l q now d = [{| cm_namespace := runtimeStateNamespace l; cm_write := w; cm_version := v + 1; cm_now := now; cm_digest := lineageDigest l |}].
Proof. intros Hc Hp W. unfold commits. by rewrite Hc, Hp, (wn_version _ _ _ _ _ _ _ W). Qed.
(** A served request either read, and changed nothing, or wrote. *)
Lemma serve_state_Ok l q id now d r d' : serve_state l q id now d = Ok (r, d') ->
  (cr_capability q = STATE_READ /\ d' = d /\ commits l q now d = [] /\ stateRead l (cr_payload q) d = Ok r) \/
  exists w current v, cr_capability q = STATE_WRITE /\ parse_write (cr_payload q) = Ok w /\ written l w now d d' current v.
Proof.
  unfold serve_state. intros Hs. destruct (cr_capability q) eqn:Ec; try discriminate Hs.
  - left. apply bind_Ok_inv in Hs as (r' & Hr & [= <- <-]). unfold commits. by rewrite Ec.
  - right. apply bind_Ok_inv in Hs as (w & Hw & Hs). destruct (write_transaction_Ok _ _ _ _ _ _ _ Hs) as (current & v & W & _). by exists w, current, v.
Qed.
Lemma values_at_written l w now d d' current v ns : written l w now d d' current v -> values_at ns d' =
  if String.eqb (runtimeStateNamespace l) ns then define_prop (wr_key w) (state_record w (v + 1) now (lineageDigest l)) (values_at ns d) else values_at ns d.
Proof.
  intros W. destruct (wn_row _ _ _ _ _ _ _ W) as (row & E & _ & _ & _ & Hv). unfold values_at at 1. rewrite E.
  destruct (String.eqb_spec (runtimeStateNamespace l) ns) as [<-|Hn]; [by rewrite lookup_insert_eq, Hv|by rewrite lookup_insert_ne].
Qed.
Lemma last_commit_app ns key h c : last_commit ns key (h ++ [c]) = if String.eqb (cm_namespace c) ns && String.eqb (cm_key c) key then Some c else last_commit ns key h.
Proof. unfold last_commit. rewrite commits_of_app. destruct (String.eqb (cm_namespace c) ns && _); [apply last_snoc|by rewrite app_nil_r]. Qed.
Lemma write_preserves l w now d d' current v fl fl' h : broker_inv (BSys d fl h) -> loaded l -> Forall (fun f => loaded f.1) fl' -> (exists payload, parse_write payload = Ok w) -> written l w now d d' current v ->
  broker_inv (BSys d' fl' (h ++ [{| cm_namespace := runtimeStateNamespace l; cm_write := w; cm_version := v + 1; cm_now := now; cm_digest := lineageDigest l |}])).
Proof.
  intros I Hl Hfl Hp W. pose proof (version_of_last _ (runtimeStateNamespace l) (wr_key w) I) as Hlen. cbn [bs_history] in Hlen.
  pose proof (proj1 (check_versions_spec w _ _ v (bi_records _ I (runtimeStateNamespace l) (wr_key w)) ltac:(cbn [bs_history]; lia)) (wn_version _ _ _ _ _ _ _ W)) as (Hv & Hexp & Hop). cbn [bs_history] in Hv, Hop.
  destruct (wn_row _ _ _ _ _ _ _ W) as (row & E & Hrv & Hrl & Hrd & Hrvals). split; cbn [bs_flights bs_db bs_history]; [done| | | | | |].
  - intros ns row'. rewrite E, lookup_insert. destruct (decide (runtimeStateNamespace l = ns)) as [<-|Hn].
    + intros [= <-]. split_and!.
      * rewrite Hrl. destruct (st_targets d !! runtimeStateNamespace l) as [row0|] eqn:E0; [|done]. apply (bi_rows _ I _ _ E0).
      * by exists l.
      * rewrite (values_at_written _ _ _ _ _ _ _ _ W), String.eqb_refl. apply (wn_limits _ _ _ _ _ _ _ W).
    + intros Hr. destruct (bi_rows _ I _ _ Hr) as (? & ? & ?). rewrite (values_at_written _ _ _ _ _ _ _ _ W), (proj2 (String.eqb_neq _ _) Hn). done.
  - intros ns key. rewrite (values_at_written _ _ _ _ _ _ _ _ W), last_commit_app. cbn [cm_namespace cm_key cm_write].
    destruct (String.eqb_spec (runtimeStateNamespace l) ns) as [<-|Hn]; [|apply (bi_records _ I)]. unfold cm_key; cbn [cm_write].
    destruct (String.eqb_spec (wr_key w) key) as [<-|Hk]; cbn; [by rewrite get_define_eq|]. rewrite get_define_ne by congruence. apply (bi_records _ I).
  - intros ns key. rewrite commits_of_app. destruct (_ && _) eqn:B; [|rewrite app_nil_r; apply (bi_versions _ I)]. unfold cm_key in B; cbn in B.
    apply andb_true_iff in B as [<-%String.eqb_eq <-%String.eqb_eq]. rewrite map_app, length_app, Nat.add_1_r, seqZ_S, (bi_versions _ I). cbn. do 2 f_equal. lia.
  - intros ns key. rewrite commits_of_app. destruct (_ && _) eqn:B; [|rewrite app_nil_r; apply (bi_creations _ I)]. unfold cm_key in B; cbn in B.
    apply andb_true_iff in B as [<-%String.eqb_eq <-%String.eqb_eq]. apply creations_snoc; [apply (bi_creations _ I)|]. cbn [cm_write]. intros Ho.
    rewrite (bool_decide_eq_true_2 _ Ho) in Hop. apply Hop.
  - intros c [Hc|[<-|[]]]%in_app_iff; [by apply (bi_commits _ I)|]. split; [exact Hp|]. split; cbn; [intros e He; by rewrite (Hexp e He)|].
    intros Hn. by rewrite (bool_decide_eq_false_2 _ Hn) in Hop.
  - intros ns. rewrite E, List.filter_app, existsb_app, length_app. cbn. rewrite lookup_insert, orb_false_r. pose proof (bi_namespace _ I ns) as Hns. cbn in Hns.
    destruct (decide (runtimeStateNamespace l = ns)) as [<-|Hn]; [|by rewrite (proj2 (String.eqb_neq _ _) Hn), orb_false_r, Nat.add_0_r].
    rewrite String.eqb_refl, orb_true_r. cbn. f_equal. rewrite Hrv, Hns. destruct (existsb _ h) eqn:Ex; cbn; [lia|].
    assert (Ef : List.filter (fun c => String.eqb (cm_namespace c) (runtimeStateNamespace l)) h = []).
    { clear -Ex. induction h as [|c h IH]; [done|]. cbn in *. apply orb_false_iff in Ex as [-> Ex]. auto. }
    rewrite Ef. done.
Qed.
Lemma step_preserves s s' : broker_inv s -> bstep s s' -> broker_inv s'.
Proof.
  intros I St. destruct St as [d fl h q l Hl|d fl1 fl2 h q l id now r d' Hs|d fl1 fl2 h q l id now Hs|d fl h t log].
  - destruct I as [I1 I2 I3 I4 I5 I6 I7]. split; try done. constructor; [by exists (st_authority d), (cr_executionId q)|done].
  - pose proof (bi_flights _ I) as Hf. cbn in Hf. apply Forall_app in Hf as [Hf1 [Hl Hf2]%Forall_cons].
    destruct (serve_state_Ok _ _ _ _ _ _ _ Hs) as [(_ & -> & -> & _)|(w & current & v & Hc & Hp & W)].
    + rewrite app_nil_r. destruct I as [I1 I2 I3 I4 I5 I6 I7]. split; try done. by apply Forall_app.
    + rewrite (commits_written _ _ _ _ _ _ _ _ Hc Hp W). eapply write_preserves; [exact I|exact Hl|by apply Forall_app|by eexists|exact W].
  - destruct I as [I1 I2 I3 I4 I5 I6 I7]. split; try done. cbn in *. apply Forall_app in I1 as [? [_ ?]%Forall_cons]. by apply Forall_app.
  - destruct I as [I1 I2 I3 I4 I5 I6 I7]. split; try done.
Qed.
Lemma initial_inv s : broker_initial s -> broker_inv s.
Proof.
  destruct s as [d fl h]. intros (Hf & Hh & Ht). cbn in *. subst. assert (Hv : forall ns, values_at ns d = []) by (intros ns; unfold values_at; by rewrite Ht).
  split; cbn; [done| | | | |done|].
  - intros ns row. by rewrite Ht.
  - intros ns key. by rewrite Hv.
  - done.
  - intros ns key l1 c1 c2 l2 E. by destruct l1.
  - intros ns. by rewrite Ht.
Qed.
Lemma broker_reachable_inv s : broker_reachable s -> broker_inv s.
Proof. intros (s0 & Hi & St). eapply star_invariant; [exact step_preserves|by apply initial_inv|exact St]. Qed.

Lemma parse_write_limits payload w : parse_write payload = Ok w -> assertStateValueWithinLimits (wr_value w) = Ok tt.
Proof.
  unfold parse_write. intros Hp. inv_ok. subst w. cbn [wr_value]. case_bool_decide; inv_ok; subst; [reflexivity|]. match goal with G : assertStateValueWithinLimits _ = Ok ?u |- _ => by destruct u end.
Qed.
Lemma get_prop_in {A} k (v : A) l : get_prop k l = Some v -> In k (map fst l).
Proof. induction l as [|[k' v'] l IH]; cbn; [done|]. destruct (String.eqb_spec k k'); auto. Qed.
(** What a read of a key answers, by the last commit of the key and the row of the namespace *)
Definition read_value (key : string) (last : option commit) (row : option target_row) : json :=
  match row, last with
  | Some row, Some c =>
      if cm_deleted c then JNull
      else JObj [("value", wr_value (cm_write c)); ("valueDigest", JStr (sha256_hex (wr_value (cm_write c)))); ("schemaVersion", JNum (wr_schema (cm_write c)));
                 ("stateVersion", JStr (dec (cm_version c))); ("namespaceVersion", JStr (dec (tr_version row))); ("activationEpoch", JStr (dec (tr_activation row)));
                 ("deploymentEpoch", JStr (dec (tr_deployment row)))]
  | Some row, None =>
      if includes key inherited_names
      then JObj [("value", JNull); ("valueDigest", JNull); ("schemaVersion", JNum 1); ("stateVersion", JNull); ("namespaceVersion", JStr (dec (tr_version row)));
                 ("activationEpoch", JStr (dec (tr_activation row))); ("deploymentEpoch", JStr (dec (tr_deployment row)))]
      else JNull
  | None, _ => JNull
  end.

(** ** Properties *)

(** C17. No update of a runtime's local state is lost, under any interleaving of the requests of all executions, with the authority moving
    between any two of them: the commits of a key carry the versions 1, 2, 3 and so on, each but a creation named the version
    it replaced, a creation found the key absent or deleted, and two commits of a key never named the same version. *)
Theorem no_lost_update s ns key : broker_reachable s ->
  map cm_version (commits_of ns key (bs_history s)) = seqZ 1 (Z.of_nat (length (commits_of ns key (bs_history s)))) /\
  (forall c, In c (commits_of ns key (bs_history s)) -> wr_operation (cm_write c) <> CREATE -> wr_expected (cm_write c) = Some (cm_version c - 1)) /\
  (forall l1 c1 c2 l2, commits_of ns key (bs_history s) = l1 ++ c1 :: c2 :: l2 -> wr_operation (cm_write c2) = CREATE -> cm_deleted c1 = true) /\
  forall (i j : nat) c1 c2 e, commits_of ns key (bs_history s) !! i = Some c1 -> commits_of ns key (bs_history s) !! j = Some c2 ->
    wr_expected (cm_write c1) = Some e -> wr_expected (cm_write c2) = Some e -> i = j.
Proof.
  intros R. pose proof (broker_reachable_inv _ R) as I. pose proof (bi_versions _ I ns key) as Hv.
  assert (Hc : forall c, In c (commits_of ns key (bs_history s)) -> commit_found c) by (intros c [Hc _]%filter_In; by apply (bi_commits _ I)).
  split_and!; [exact Hv| |apply (bi_creations _ I)|].
  - intros c Hin Hn. destruct (Hc c Hin) as (_ & He & Hs). destruct (Hs Hn) as [e E]. rewrite E. f_equal. specialize (He _ E). lia.
  - intros i j c1 c2 e H1 H2 E1 E2. assert (Hat : forall (k : nat) c, commits_of ns key (bs_history s) !! k = Some c -> cm_version c = 1 + Z.of_nat k).
    { intros k c Hk. assert (G : map cm_version (commits_of ns key (bs_history s)) !! k = Some (cm_version c)) by (rewrite list_lookup_fmap, Hk; done).
      rewrite Hv in G. by apply lookup_seqZ in G as [-> _]. }
    assert (Hf : forall (k : nat) c, commits_of ns key (bs_history s) !! k = Some c -> commit_found c).
    { intros k c Hk. apply Hc. by apply list_elem_of_In, list_elem_of_lookup_2 with k. }
    pose proof (Hat _ _ H1). pose proof (Hat _ _ H2). pose proof (proj1 (proj2 (Hf _ _ H1)) _ E1). pose proof (proj1 (proj2 (Hf _ _ H2)) _ E2). lia.
Qed.

(** C18. A read returns what the last committed write of its key left, and nothing when that write deleted the key or there is none: with
    its value, digest, schema and version, and the version of the namespace, which counts its commits.  It never meets the state of
    another lineage.  A key that names a method of [Object.prototype] and was never written is the exception the last case shows:
    it reads as an existing record of no version once its namespace exists. *)
Theorem read_last_commit s l payload k key : broker_reachable s -> loaded l -> payload_member payload "key" = Ok k -> assertRuntimeLocalStateKey (text_or "" k) = Ok key ->
  stateRead l payload (bs_db s) = Ok (read_value key (last_commit (runtimeStateNamespace l) key (bs_history s)) (st_targets (bs_db s) !! runtimeStateNamespace l)) /\
  forall row, st_targets (bs_db s) !! runtimeStateNamespace l = Some row ->
    tr_version row = 1 + Z.of_nat (length (List.filter (fun c => String.eqb (cm_namespace c) (runtimeStateNamespace l)) (bs_history s))).
Proof.
  intros R Hl Hk Hkey. pose proof (broker_reachable_inv _ R) as I. pose proof (bi_records _ I (runtimeStateNamespace l) key) as Hrec. pose proof (bi_namespace _ I (runtimeStateNamespace l)) as Hns.
  unfold stateRead, read_value. rewrite Hk. cbn [mbind result_bind]. rewrite Hkey. cbn [mbind result_bind]. unfold values_at in Hrec.
  destruct (st_targets (bs_db s) !! runtimeStateNamespace l) as [row|] eqn:E; [|done]. destruct (bi_rows _ I _ _ E) as (Hlc & (l' & Hl' & Hn & Hd) & _). split.
  - rewrite Hlc. cbn [negb String.eqb]. rewrite (loaded_namespace _ _ Hl Hl' Hn), Hd, (proj2 (is_text_Some _ _) eq_refl). cbn [negb throw_if mbind result_bind].
    destruct (last_commit (runtimeStateNamespace l) key (bs_history s)) as [c|]; cbn [fmap option_fmap option_map] in Hrec.
    + rewrite (indexed_record _ _ _ Hrec). cbn. fold (cm_deleted c). destruct (cm_deleted c); [done|]. cbn. by destruct (wr_value (cm_write c)).
    + unfold indexed. rewrite Hrec. by destruct (includes key inherited_names).
  - intros row' [= <-]. cbn in Hns. destruct (existsb _ _); [by injection Hns|done].
Qed.

(** The local state of a lineage stays within its quota in every reachable state: at most 256 keys have ever been written to a
    namespace, deleted ones included, its records fit into a mebibyte as canonical JSON and every value that a write ever stored into
    64 KiB, under a key of the accepted form. *)
Theorem state_quota s ns ks : broker_reachable s -> NoDup ks -> (forall key, In key ks -> commits_of ns key (bs_history s) <> []) ->
  (length ks <= 256)%nat /\ (ks <> [] -> json_bytes (JObj (values_at ns (bs_db s))) <= 1024 * 1024) /\
  forall key c, In c (commits_of ns key (bs_history s)) -> assertRuntimeLocalStateKey key = Ok key /\ json_bytes (wr_value (cm_write c)) <= 64 * 1024.
Proof.
  intros R Hnd Hks. pose proof (broker_reachable_inv _ R) as I.
  assert (Hin : forall key, In key ks -> In key (map fst (values_at ns (bs_db s)))).
  { intros key Hk. pose proof (bi_records _ I ns key) as Hr. unfold last_commit in Hr. specialize (Hks _ Hk). destruct (commits_of ns key (bs_history s)) as [|c l _] using rev_ind; [done|].
    rewrite last_snoc in Hr. by apply get_prop_in in Hr. }
  assert (Hlim : ks <> [] -> assertStateDocumentWithinLimits (values_at ns (bs_db s)) = Ok tt).
  { intros Hne. destruct ks as [|key ks]; [done|]. pose proof (Hin key (or_introl eq_refl)) as Hv. unfold values_at in Hv. destruct (st_targets (bs_db s) !! ns) as [row|] eqn:E; [|done].
    apply (bi_rows _ I _ _ E). }
  split_and!.
  - destruct ks as [|key ks']; [cbn; lia|]. specialize (Hlim ltac:(done)). apply bind_Ok_inv in Hlim as (? & Hlen & _). apply throw_if_Ok, Nat.ltb_ge in Hlen.
    etrans; [|exact Hlen]. rewrite <- (length_map fst). apply NoDup_incl_length; [by apply NoDup_ListNoDup|exact Hin].
  - intros Hne. specialize (Hlim Hne). apply bind_Ok_inv in Hlim as (? & _ & Hb). apply throw_if_Ok in Hb. rewrite Z.gtb_ltb in Hb. by apply Z.ltb_ge in Hb.
  - intros key c [Hc Hb]%filter_In. apply andb_true_iff in Hb as [_ <-%String.eqb_eq]. destruct (bi_commits _ I _ Hc) as [[payload Hp] _].
    split; [by apply (parse_write_key payload)|]. apply parse_write_limits, throw_if_Ok in Hp. rewrite Z.gtb_ltb in Hp. by apply Z.ltb_ge in Hp.
Qed.
End System.

(** ** Witnesses *)

#[local] Existing Instances code_unit_locale toy_hash.
Definition state_request (c : capability) (payload : list (string * json)) : UnsignedRequest :=
  {| IpcBroker.cr_requestId := "request"; IpcBroker.cr_executionId := "exec"; IpcBroker.cr_capability := c; IpcBroker.cr_operation := ""; IpcBroker.cr_channelGeneration := "1"; IpcBroker.cr_capabilityBinding := "binding";
     IpcBroker.cr_issuedAt := "2026-01-01T00:00:00.000Z"; IpcBroker.cr_payload := Some (JObj payload);
     IpcBroker.cr_deadlineAt := "2026-01-01T00:01:00.000Z"; IpcBroker.cr_nonce := "nonce" |}.
Definition empty_state_db : state_db := {| st_authority := sample_tables; st_targets := ∅; st_log := initial_db |}.
(** Two executions of the lineage write the key concurrently; the second names a version that is gone. *)
Definition put_request (expected value : string) : UnsignedRequest :=
  state_request STATE_WRITE [("operation", JStr "PUT"); ("key", JStr "cursor"); ("value", JStr value); ("expectedStateVersion", JStr expected)].
Definition read_request : UnsignedRequest := state_request STATE_READ [("key", JStr "cursor")].
Definition the_answer (q : UnsignedRequest) (now : string) (d : state_db) : result (json * state_db) := serve_state sample_lineage q "row" now d.
Definition state_db1 : state_db := (get_Ok (JNull, empty_state_db) (the_answer (put_request "0" "a") "t1" empty_state_db)).2.
Definition state_db2 : state_db := (get_Ok (JNull, empty_state_db) (the_answer (put_request "1" "b") "t2" state_db1)).2.
Definition state_history : list commit := commits sample_lineage (put_request "0" "a") "t1" empty_state_db ++ commits sample_lineage (put_request "1" "b") "t2" state_db1.
Definition state_system : broker_system := BSys state_db2 [] state_history.
Example the_stale_write : the_answer (put_request "1" "c") "t3" state_db2 = Throw (JsError "STATE_VERSION_CONFLICT").
Proof. vm_compute. reflexivity. Qed.
Example the_read : fst <$> the_answer read_request "t3" state_db2 =
  Ok (JObj [("value", JStr "b"); ("valueDigest", JStr (sha256_hex (JStr "b"))); ("schemaVersion", JNum 1); ("stateVersion", JStr "2"); ("namespaceVersion", JStr "3");
            ("activationEpoch", JStr "3"); ("deploymentEpoch", JStr "4")]).
Proof. vm_compute. reflexivity. Qed.
(** Creating [constructor] is refused though no such key exists, and once the namespace exists the key reads as a record. *)
Example phantom_create : the_answer (state_request STATE_WRITE [("operation", JStr "create"); ("key", JStr "constructor"); ("value", JNull)]) "t" empty_state_db
  = Throw (JsError "RUNTIME_STATE_ALREADY_EXISTS").
Proof. vm_compute. reflexivity. Qed.
Example phantom_read : fst <$> the_answer (state_request STATE_READ [("key", JStr "constructor")]) "t" state_db2 <> Ok JNull.
Proof. vm_compute. discriminate. Qed.
(** A correlation identifier of 36 hyphens passes the pattern, and the database refuses it. *)
Example odd_correlation : the_answer (state_request STATE_WRITE [("operation", JStr "PUT"); ("key", JStr "k"); ("value", JNull); ("expectedStateVersion", JNum 0);
    ("correlationId", JStr "------------------------------------")]) "t" empty_state_db = Throw (PgError "22P02").
Proof. vm_compute. reflexivity. Qed.
(** The limit of a value does not count a property named [__proto__]. *)
Example uncounted_bytes : json_bytes (JObj [("__proto__", JStr "a long value")]) = 2.
Proof. vm_compute. reflexivity. Qed.

Lemma sample_loaded : loadRuntimeExecutionLineage sample_tables "exec" = Ok sample_lineage.
Proof. vm_compute. reflexivity. Qed.
Lemma served {A} (x : A) (r : result (json * A)) : is_Ok r = true -> exists j, r = Ok (j, (get_Ok (JNull, x) r).2).
Proof. destruct r as [[j y]|]; [by exists j|done]. Qed.
Lemma state_system_reachable : broker_reachable state_system.
Proof.
  exists (BSys empty_state_db [] []). split; [done|].
  eapply star_step; [apply (bs_load empty_state_db _ _ (put_request "1" "b") _ sample_loaded)|]. eapply star_step; [apply (bs_load empty_state_db _ _ (put_request "0" "a") _ sample_loaded)|].
  destruct (served empty_state_db (the_answer (put_request "0" "a") "t1" empty_state_db)) as [j1 E1]; [vm_compute; reflexivity|].
  destruct (served empty_state_db (the_answer (put_request "1" "b") "t2" state_db1)) as [j2 E2]; [vm_compute; reflexivity|].
  eapply star_step; [apply (bs_serve _ [] [(sample_lineage, put_request "1" "b")] _ _ _ "row" "t1" _ _ E1)|].
  eapply star_step; [apply (bs_serve _ [] [] _ _ _ "row" "t2" _ _ E2)|]. apply star_refl.
Qed.
Lemma no_lost_update_witness : map cm_version (commits_of (runtimeStateNamespace sample_lineage) "cursor" (bs_history state_system)) = [1; 2].
Proof. rewrite (proj1 (no_lost_update state_system (runtimeStateNamespace sample_lineage) "cursor" state_system_reachable)). vm_compute. reflexivity. Defined.
Lemma read_last_commit_witness : exists j, stateRead sample_lineage (cr_payload read_request) state_db2 = Ok j /\ field "value" j = Some (JStr "b").
Proof.
  eexists. split.
  - refine (proj1 (read_last_commit state_system sample_lineage (cr_payload read_request) _ "cursor" state_system_reachable _ _ _)).
    + by exists sample_tables, "exec"; apply sample_loaded.
    + reflexivity.
    + vm_compute. reflexivity.
  - vm_compute. reflexivity.
Defined.
Lemma state_quota_witness : json_bytes (JObj (values_at (runtimeStateNamespace sample_lineage) (bs_db state_system))) <= 1024 * 1024.
Proof.
  assert (Hk : forall key, In key ["cursor"] -> commits_of (runtimeStateNamespace sample_lineage) key (bs_history state_system) <> []).
  { intros key [<-|[]]. vm_compute. discriminate. }
  exact (proj1 (proj2 (state_quota state_system (runtimeStateNamespace sample_lineage) ["cursor"] state_system_reachable (NoDup_singleton _) Hk)) ltac:(done)).
Defined.
