(* ===== verification/EgressBroker.v ===== *)
(** * The egress broker

    [egressRequest] and its part of [handleBrokerRequest] in [packages/worker-runtime/src/index.ts]: the authorization of a request of a
    runtime by its external binding, its rate and concurrency limits, the redirects, and the evidence that is left.  The URL, the
    addresses and the pinned request are those of [Egress].  The secret of a target is an argument: what
    [Secrets.revealForRuntimeBinding] returned.  Other processes write the tables: an operation reads them as arguments. *)
From Stdlib Require Import Ascii String.
From S2P Require Import Prelude Bytes Json Text Digest CanonicalValue IpcFrame IpcChannel IpcBroker AuditChain Database ErrorRegistry Authority Egress Contracts Schemas Commands Handlers Secrets StateBroker.

(** ** Tables *)

(** [external_target] *)
Record target_row := {
  et_id : string; et_base_url : string; et_allowed_paths : json; et_allowed_methods : list string; et_timeout_ms : Z; et_rate_limit : json; et_circuit_state : string;
  et_auth_binding_id : option string; et_monitoring : json; et_lifecycle : string; et_deleted : bool; et_state_version : Z; et_epoch : Z; et_incarnation : option string; et_deployment : Z;
}.
(** [external_target_binding] *)
Record external_binding := {
  eb_id : string; eb_stable_key : option string; eb_lifecycle : string; eb_deleted : bool; eb_component : string; eb_source_revision : string; eb_target : string; eb_route : string;
  eb_method : string; eb_revision : Z; eb_activation_set : option string; eb_epoch : Z; eb_incarnation : option string; eb_deployment : Z;
}.
Record egress_tables := {
  x_targets : list target_row; x_bindings : list external_binding; x_members : list member_row;
  x_secret_bindings : list (string * (option string * string));  (** [secret_binding]: the key, then the alias and the purpose *)
}.
(** A row of the join, with the alias and the purpose of the secret *)
Record egress_row := { er_binding : external_binding; er_target : target_row; er_alias : option string; er_purpose : option string }.
Definition binding_current (l : RawLineage) (alias : string) (b : external_binding) : bool :=
  Secrets.text_is (eb_stable_key b) alias && String.eqb (eb_lifecycle b) "ACTIVE" && negb (eb_deleted b)
  && String.eqb (eb_component b) (sourceObjectId l) && String.eqb (eb_source_revision b) (sourceRevisionId l)
  && String.eqb (dec (eb_epoch b)) (activationEpoch l) && Secrets.text_is (eb_incarnation b) (platformIncarnationId l) && String.eqb (dec (eb_deployment b)) (applicationDeploymentEpoch l)
  && bool_decide (eb_activation_set b = activationSetId l).
Definition target_current (l : RawLineage) (t : target_row) : bool :=
  String.eqb (et_lifecycle t) "ACTIVE" && negb (et_deleted t)
  && String.eqb (dec (et_epoch t)) (activationEpoch l) && Secrets.text_is (et_incarnation t) (platformIncarnationId l) && String.eqb (dec (et_deployment t)) (applicationDeploymentEpoch l).
Definition member_binds (l : RawLineage) (operation : string) (b : external_binding) (t : target_row) (m : member_row) : bool :=
  String.eqb (me_revision m) (bindingSetRevisionId l) && String.eqb (me_kind m) "EXTERNAL_TARGET" && String.eqb (me_operation m) operation
  && Secrets.text_is (text_member "objectId" (me_source m)) (sourceObjectId l) && Secrets.text_is (text_member "revisionId" (me_source m)) (sourceRevisionId l)
  && (Secrets.text_is (text_member "bindingId" (me_target m)) (eb_id b) || Secrets.text_is (text_member "targetId" (me_target m)) (et_id t)).
Definition egress_query (t : egress_tables) (l : RawLineage) (operation alias : string) : list egress_row :=
  b ← x_bindings t;
  if negb (binding_current l alias b) then []
  else
    t' ← x_targets t;
    if negb (String.eqb (et_id t') (eb_target b) && target_current l t') then []
    else
      let secret := et_auth_binding_id t' ≫= fun id => snd <$> List.find (fun kv => String.eqb (fst kv) id) (x_secret_bindings t) in
      map (fun _ => {| er_binding := b; er_target := t'; er_alias := secret ≫= fst; er_purpose := snd <$> secret |}) (List.filter (member_binds l operation b t') (x_members t)).

(** ** A request *)

(** [boundedInteger] *)
Definition boundedInteger (value : option json) (fallback minimum maximum : Z) : Z :=
  match value ≫= js_Number with
  | Some n => if Z.abs n <=? max_safe_integer then Z.max minimum (Z.min n maximum) else fallback
  | None => fallback
  end.
Definition egress_policy (test_env : bool) (t : target_row) : EgressPolicy :=
  let monitoring := fields (Some (et_monitoring t)) in
  {| baseUrl := et_base_url t;
     allowedPaths := match et_allowed_paths t with JArr l => map to_text l | _ => ["/"] end;
     allowedMethods := et_allowed_methods t;
     timeoutMs := boundedInteger (Some (JNum (et_timeout_ms t))) 30000 100 120000;
     maxRequestBytes := boundedInteger (get_prop "maxRequestBytes" monitoring) (256 * 1024) 0 (1024 * 1024);
     maxResponseBytes := boundedInteger (get_prop "maxResponseBytes" monitoring) (2 * 1024 * 1024) 1 (8 * 1024 * 1024);
     allowPlainHttp := is_true (get_prop "allowPlainHttp" monitoring) && test_env |}.
Definition read_only (method : string) : bool := includes method ["GET"; "HEAD"].
Definition caller_credentials : list string := ["authorization"; "proxy-authorization"; "cookie"; "set-cookie"; "x-api-key"].
Definition caller_headers : list string := ["accept"; "content-type"; "idempotency-key"; "x-request-id"].
Definition default_headers : list (string * string) :=
  [("accept", "application/json"); ("content-type", "application/json"); ("user-agent", "K" +:+ String (char_of 225) "jovoCML-NG/2026.8.30-8")].
(** A request that was authorized *)
Record prepared := {
  pr_row : egress_row; pr_method : string; pr_policy : EgressPolicy; pr_url : Url; pr_headers : list (string * string); pr_body : option (list Z);
}.
Definition pr_target (p : prepared) : string := et_id (er_target (pr_row p)).
Definition pr_route (p : prepared) : string := eb_route (er_binding (pr_row p)).
Definition pr_rate (p : prepared) : list (string * json) := fields (Some (et_rate_limit (er_target (pr_row p)))).
Definition windowMs (p : prepared) : Z := boundedInteger (get_prop "windowMs" (pr_rate p)) 60000 1000 3600000.
Definition requestLimit (p : prepared) : Z := boundedInteger (get_prop "requests" (pr_rate p)) 60 1 10000.
Definition maxConcurrency (p : prepared) : Z := boundedInteger (get_prop "maxConcurrency" (pr_rate p)) 4 1 64.

Section Egress.
Context `{L : Locale} `{H : Hash} `{N : Net} `{U : UrlParser}.

Definition check_route (route : string) (url : Url) : result unit := throw_if (negb (path_allowed (pathname url) route)) (JsError "EGRESS_BINDING_ROUTE_MISMATCH").
(** The headers of the caller, in order *)
Definition caller_header (headers : list (string * string)) (kv : string * json) : result (list (string * string)) :=
  match snd kv with
  | JStr value =>
      _ ← throw_if (negb (includes (to_lower (fst kv)) caller_headers) || includes_char (char_of 13) value || includes_char (char_of 10) value) (JsError "EGRESS_HEADER_DENIED");
      Ok (define_prop (to_lower (fst kv)) value headers)
  | _ => Throw (JsError "EGRESS_HEADER_DENIED")
  end.
Fixpoint caller_header_list (headers : list (string * string)) (l : list (string * json)) : result (list (string * string)) :=
  match l with [] => Ok headers | kv :: l => headers ← caller_header headers kv; caller_header_list headers l end.
Definition merge_headers (requestHeaders : list (string * json)) : result (list (string * string)) :=
  _ ← throw_if (existsb (fun kv => includes (to_lower (fst kv)) caller_credentials) requestHeaders) (JsError "EGRESS_CALLER_CREDENTIAL_DENIED");
  caller_header_list default_headers requestHeaders.
(** The header that authenticates the request; [reveal] is the secret of an alias for a purpose. *)
Definition inject_secret (reveal : string -> string -> result string) (row : egress_row) (headers : list (string * string)) : result (list (string * string)) :=
  match et_auth_binding_id (er_target row) with
  | None => Ok headers
  | Some _ =>
      match er_alias row, er_purpose row with
      | Some alias, Some purpose =>
          _ ← throw_if (negb (truthy alias) || negb (truthy purpose)) (JsError "EGRESS_AUTH_BINDING_INVALID");
          let injection := fields (get_prop "authInjection" (fields (Some (et_monitoring (er_target row))))) in
          let headerName := to_lower (text_or "" (get_prop "headerName" injection)) in
          _ ← throw_if (negb (includes headerName ["authorization"; "x-api-key"])) (JsError "EGRESS_AUTH_INJECTION_POLICY_INVALID");
          value ← reveal alias purpose;
          Ok (define_prop headerName (match get_prop "scheme" injection with Some (JStr scheme) => scheme +:+ " " +:+ value | _ => value end) headers)
      | _, _ => Throw (JsError "EGRESS_AUTH_BINDING_INVALID")
      end
  end.
(** [egressRequest] up to the admission *)
Definition prepare (test_env : bool) (t : egress_tables) (reveal : string -> string -> result string) (l : RawLineage) (operation : string) (payload : option json) : result prepared :=
  alias ← payload_member payload "bindingAlias";
  let bindingAlias := text_or "" alias in
  _ ← throw_if (negb (alias_ok bindingAlias)) (JsError "EXTERNAL_BINDING_ALIAS_INVALID");
  row ← or_throw (match firstn 2 (egress_query t l operation bindingAlias) with [row] => Some row | _ => None end) (JsError "EXTERNAL_BINDING_NOT_AUTHORIZED");
  _ ← throw_if (negb (includes (et_circuit_state (er_target row)) ["CLOSED"; "HEALTHY"])) (JsError "EGRESS_CIRCUIT_OPEN");
  let outgoing := fields (get_prop "request" (fields payload)) in
  let method := to_upper (text_or "GET" (get_prop "method" outgoing)) in
  _ ← throw_if (negb (String.eqb method (to_upper (eb_method (er_binding row))))) (JsError "EGRESS_BINDING_METHOD_MISMATCH");
  let policy := egress_policy test_env (er_target row) in
  url ← authorizeEgressUrl policy (text_or "/" (get_prop "path" outgoing)) method;
  _ ← check_route (eb_route (er_binding row)) url;
  headers ← merge_headers (fields (get_prop "headers" outgoing));
  let body := if read_only method then None else Some (utf8 (canonicalJson (jsonSafe (or_null (get_prop "body" outgoing))))) in
  _ ← throw_if (match body with Some b => maxRequestBytes policy <? lengthZ b | None => false end) (JsError "EGRESS_REQUEST_TOO_LARGE");
  headers ← inject_secret reveal row headers;
  Ok {| pr_row := row; pr_method := method; pr_policy := policy; pr_url := url; pr_headers := headers; pr_body := body |}.

(** ** Admission *)

(** [egressRateWindows] and [egressInflight] of the process *)
Record egress_process := { rate_windows : gmap string (list Z); inflight : gmap string Z }.
Definition new_process : egress_process := {| rate_windows := ∅; inflight := ∅ |}.
Definition recent (now window : Z) (l : list Z) : list Z := List.filter (fun t => now - window <? t) l.
(** The outcome and the process after it: a request that is one too many at a time still counts in its window. *)
Definition admit_request (now : Z) (p : prepared) (s : egress_process) : result unit * egress_process :=
  let target := pr_target p in
  let l := recent now (windowMs p) (default [] (rate_windows s !! target)) in
  if requestLimit p <=? lengthZ l then (Throw (JsError "EGRESS_RATE_LIMITED"), s)
  else
    let s := {| rate_windows := <[target := l ++ [now]]> (rate_windows s); inflight := inflight s |} in
    let current := default 0 (inflight s !! target) in
    if maxConcurrency p <=? current then (Throw (JsError "EGRESS_CONCURRENCY_LIMITED"), s)
    else (Ok tt, {| rate_windows := rate_windows s; inflight := <[target := current + 1]> (inflight s) |}).
(** [finally] *)
Definition release (target : string) (s : egress_process) : egress_process :=
  let remaining := default 1 (inflight s !! target) - 1 in
  {| rate_windows := rate_windows s; inflight := if 0 <? remaining then <[target := remaining]> (inflight s) else delete target (inflight s) |}.

(** ** Redirects *)

Definition redirect_statuses : list Z := [301; 302; 303; 307; 308].
Definition is_redirect (r : pinned_response) : bool := existsb (Z.eqb (rs_status r)) redirect_statuses.
(** The body of the loop after a response: the answer, or the next URL and the number of redirects *)
Definition after_response (p : prepared) (url : Url) (redirects : Z) (r : pinned_response) : result (pinned_response + Url * Z) :=
  if negb (is_redirect r) then Ok (inl r)
  else
    _ ← throw_if (negb (existsb (Z.eqb (rs_status r)) [307; 308]) && negb (read_only (pr_method p))) (JsError "EGRESS_REDIRECT_METHOD_CHANGE_DENIED");
    _ ← throw_if (3 <? redirects + 1) (JsError "EGRESS_REDIRECT_LIMIT_EXCEEDED");
    location ← or_throw (match get_prop "location" (rs_headers r) with Some (JStr s) => Some s | _ => None end) (JsError "EGRESS_REDIRECT_LOCATION_INVALID");
    redirected ← or_throw (url_resolve location url) (JsError "ERR_INVALID_URL");
    base ← or_throw (url_parse (baseUrl (pr_policy p))) (JsError "ERR_INVALID_URL");
    _ ← throw_if (negb (String.eqb (origin redirected) (origin base))) (JsError "EGRESS_REDIRECT_TARGET_DENIED");
    url ← authorizeEgressUrl (pr_policy p) (pathname redirected +:+ search redirected) (pr_method p);
    _ ← check_route (pr_route p) url;
    Ok (inr (url, redirects + 1)).

(** ** Evidence *)

(** The columns of [external_request_event] that the answer decides *)
Record request_event := {
  ev_target : string; ev_binding : string; ev_route : string; ev_method : string; ev_idempotency_key : option string; ev_request_digest : list Z; ev_response_digest : list Z;
  ev_http_status : Z; ev_redirects : Z; ev_outcome : string; ev_reconciliation : string; ev_next_action : string; ev_retry : string; ev_address : string;
}.
Definition event_of (p : prepared) (url : Url) (redirects : Z) (r : pinned_response) : request_event :=
  {| ev_target := pr_target p; ev_binding := eb_id (er_binding (pr_row p)); ev_route := pathname url; ev_method := pr_method p;
     ev_idempotency_key := get_prop "idempotency-key" (pr_headers p); ev_request_digest := hash (default [] (pr_body p)); ev_response_digest := hash (rs_body r);
     ev_http_status := rs_status r; ev_redirects := redirects; ev_outcome := if read_only (pr_method p) then "READ_ONLY_RESULT" else "UNKNOWN";
     ev_reconciliation := if read_only (pr_method p) then "NOT_REQUIRED" else "PENDING"; ev_next_action := if read_only (pr_method p) then "NONE" else "RECONCILE";
     ev_retry := if read_only (pr_method p) then "NOT_RETRYABLE" else "RECONCILE_REQUIRED"; ev_address := sha256_hex (JStr (remoteAddress r)) |}.
Definition answer_headers : list string := ["content-type"; "content-length"; "etag"; "x-request-id"].
Definition response_headers (r : pinned_response) : list (string * json) :=
  name ← answer_headers; match get_prop name (rs_headers r) with Some v => [(name, v)] | None => [] end.
(** What the runtime is told; the body as bytes *)
Record egress_answer := {
  an_status : Z; an_headers : list (string * json); an_body : list Z; an_target : string; an_binding : string; an_target_version : Z; an_execution : string; an_outcome : string;
}.
Definition answer_of (l : RawLineage) (p : prepared) (r : pinned_response) : egress_answer :=
  {| an_status := rs_status r; an_headers := response_headers r; an_body := rs_body r; an_target := pr_target p; an_binding := eb_id (er_binding (pr_row p));
     an_target_version := et_state_version (er_target (pr_row p)); an_execution := executionId l; an_outcome := if read_only (pr_method p) then "READ_ONLY_RESULT" else "UNKNOWN" |}.
End Egress.

(** ** The broker process *)

(** A request that was sent: to which URL, address, method, headers and body *)
Record sent := { sn_url : Url; sn_address : LookupAddress; sn_method : string; sn_headers : list (string * string); sn_body : option (list Z) }.
(** An admitted request: the URL of its next try, its redirects, and what it sent, the latest last *)
Record flight := { fl_request : prepared; fl_url : Url; fl_redirects : Z; fl_sent : list sent }.
Definition fl_target (f : flight) : string := pr_target (fl_request f).
(** An admission to a window, with the time and the request *)
Definition admission : Type := Z * prepared.

Section System.
Context `{L : Locale} `{H : Hash} `{N : Net} `{U : UrlParser}.

Record egress_system := ESys {
  es_process : egress_process; es_flights : list flight; es_clock : Z;
  es_admissions : list admission;  (** those that a window recorded, the latest last *)
  es_ended : list flight; es_events : list request_event;
}.
Definition is_prepared (p : prepared) : Prop := exists test_env t reveal l operation payload, prepare test_env t reveal l operation payload = Ok p.
(** Whether the window of the target recorded the request *)
Definition recorded (now : Z) (p : prepared) (s : egress_process) : bool := lengthZ (recent now (windowMs p) (default [] (rate_windows s !! pr_target p))) <? requestLimit p.
(** One try: nothing was sent, or a request to the selected address that was settled *)
Definition try_request (resolver : string -> result (list LookupAddress)) (events : list net_event) (f : flight) (tried : list sent) (r : result pinned_response) : Prop :=
  (exists e, performPinnedRequest resolver (fl_url f) (maxResponseBytes (pr_policy (fl_request f))) events = Throw e /\ r = Throw e /\ tried = []) \/
  exists selected st, performPinnedRequest resolver (fl_url f) (maxResponseBytes (pr_policy (fl_request f))) events = Ok (selected, st) /\ settled st = Some r /\
    tried = [{| sn_url := fl_url f; sn_address := selected; sn_method := pr_method (fl_request f); sn_headers := pr_headers (fl_request f); sn_body := pr_body (fl_request f) |}].
Definition after_try (f : flight) (r : result pinned_response) : result (pinned_response + Url * Z) := r ← r; after_response (fl_request f) (fl_url f) (fl_redirects f) r.
Definition tried_flight (f : flight) (tried : list sent) : flight := {| fl_request := fl_request f; fl_url := fl_url f; fl_redirects := fl_redirects f; fl_sent := fl_sent f ++ tried |}.
(** The awaits of all requests interleave; between them the tables may hold anything.  The newest flight comes first. *)
Inductive estep : egress_system -> egress_system -> Prop :=
| es_admit now p s fl clock adm ended ev : is_prepared p -> clock <= now -> fst (admit_request now p s) = Ok tt ->
    estep (ESys s fl clock adm ended ev)
      (ESys (snd (admit_request now p s)) ({| fl_request := p; fl_url := pr_url p; fl_redirects := 0; fl_sent := [] |} :: fl) now (adm ++ [(now, p)]) ended ev)
| es_deny now p s fl clock adm ended ev e : is_prepared p -> clock <= now -> fst (admit_request now p s) = Throw e ->
    estep (ESys s fl clock adm ended ev) (ESys (snd (admit_request now p s)) fl now (adm ++ if recorded now p s then [(now, p)] else []) ended ev)
| es_redirect s fl1 f fl2 clock adm ended ev resolver events tried r url redirects : try_request resolver events f tried r -> after_try f r = Ok (inr (url, redirects)) ->
    estep (ESys s (fl1 ++ f :: fl2) clock adm ended ev)
      (ESys s (fl1 ++ {| fl_request := fl_request f; fl_url := url; fl_redirects := redirects; fl_sent := fl_sent f ++ tried |} :: fl2) clock adm ended ev)
| es_answer s fl1 f fl2 clock adm ended ev resolver events tried r response : try_request resolver events f tried r -> after_try f r = Ok (inl response) ->
    estep (ESys s (fl1 ++ f :: fl2) clock adm ended ev)
      (ESys (release (fl_target f) s) (fl1 ++ fl2) clock adm (tried_flight f tried :: ended) (ev ++ [event_of (fl_request f) (fl_url f) (fl_redirects f) response]))
| es_answer_lost s fl1 f fl2 clock adm ended ev resolver events tried r response : try_request resolver events f tried r -> after_try f r = Ok (inl response) ->
    (** the insertion of the event failed *)
    estep (ESys s (fl1 ++ f :: fl2) clock adm ended ev) (ESys (release (fl_target f) s) (fl1 ++ fl2) clock adm (tried_flight f tried :: ended) ev)
| es_throw s fl1 f fl2 clock adm ended ev resolver events tried r e : try_request resolver events f tried r -> after_try f r = Throw e ->
    estep (ESys s (fl1 ++ f :: fl2) clock adm ended ev) (ESys (release (fl_target f) s) (fl1 ++ fl2) clock adm (tried_flight f tried :: ended) ev).
Definition egress_initial (s : egress_system) : Prop := es_process s = new_process /\ es_flights s = [] /\ es_admissions s = [] /\ es_ended s = [] /\ es_events s = [].
Definition egress_reachable (s : egress_system) : Prop := exists s0, egress_initial s0 /\ star estep s0 s.
Definition flights_to (target : string) (l : list flight) : list flight := List.filter (fun f => String.eqb (fl_target f) target) l.
(** The times recorded for a target *)
Definition admissions_of (target : string) (l : list admission) : list admission := List.filter (fun a => String.eqb (pr_target (snd a)) target) l.

(** ** Theory of the limits *)

Lemma flights_to_app t l1 l2 : flights_to t (l1 ++ l2) = flights_to t l1 ++ flights_to t l2.
Proof. apply List.filter_app. Qed.
Lemma flights_to_cons t f l : flights_to t (f :: l) = (if String.eqb (fl_target f) t then [f] else []) ++ flights_to t l.
Proof. unfold flights_to. cbn. by destruct (String.eqb _ t). Qed.
(** The counter of a target *)
Definition counted (t : string) (l : list flight) : option Z := match length (flights_to t l) with O => None | n => Some (Z.of_nat n) end.
Lemma counted_cons t f l : counted t (f :: l) = if String.eqb (fl_target f) t then Some (default 0 (counted t l) + 1) else counted t l.
Proof.
  unfold counted. rewrite flights_to_cons. destruct (String.eqb (fl_target f) t); [|done]. cbn [app length].
  destruct (length (flights_to t l)); cbn; [done|]. f_equal. lia.
Qed.
Lemma counted_middle t l1 f l2 : counted t (l1 ++ f :: l2) = counted t (f :: l1 ++ l2).
Proof. unfold counted. rewrite flights_to_app, !flights_to_cons, flights_to_app, !length_app. by rewrite Nat.add_assoc, (Nat.add_comm (length (flights_to t l1))), <- Nat.add_assoc. Qed.
Lemma counted_same t f f' l1 l2 : fl_target f' = fl_target f -> counted t (l1 ++ f' :: l2) = counted t (l1 ++ f :: l2).
Proof. intros E. by rewrite !counted_middle, !counted_cons, E. Qed.
Lemma length_flights t l : Z.of_nat (length (flights_to t l)) = default 0 (counted t l).
Proof. unfold counted. by destruct (length _). Qed.
(** Every flight met its limit when it was admitted, and the flights that were there have only become fewer. *)
Definition admitted_within (l : list flight) : Prop := forall l1 f l2, l = l1 ++ f :: l2 -> default 0 (counted (fl_target f) (f :: l2)) <= maxConcurrency (fl_request f).
Record counter_inv (s : egress_process) (l : list flight) : Prop := { ci_counted t : inflight s !! t = counted t l; ci_within : admitted_within l }.
Lemma counted_le t l1 f l2 : default 0 (counted t (l1 ++ l2)) <= default 0 (counted t (l1 ++ f :: l2)).
Proof. rewrite counted_middle, counted_cons. destruct (String.eqb _ t); cbn; lia. Qed.
Lemma within_drop l1 f l2 : admitted_within (l1 ++ f :: l2) -> admitted_within (l1 ++ l2).
Proof.
  intros W k1 g k2 E. apply app_eq_app in E as (m & [[-> E]|[-> E]]).
  - destruct m as [|x m]; cbn in E.
    + subst l2. apply (W (k1 ++ [f]) g k2). by rewrite app_nil_r, <- app_assoc.
    + injection E as <- ->. etrans; [|apply (W k1 g (m ++ f :: l2)); by rewrite <- app_assoc]. apply (counted_le _ (g :: m)).
  - subst l2. apply (W (l1 ++ f :: m) g k2). by rewrite <- app_assoc.
Qed.
Lemma within_same l1 f f' l2 : fl_request f' = fl_request f -> admitted_within (l1 ++ f :: l2) -> admitted_within (l1 ++ f' :: l2).
Proof.
  intros Er W k1 g k2 E. assert (Et : fl_target f' = fl_target f) by (unfold fl_target; by rewrite Er). apply app_eq_app in E as (m & [[-> E]|[-> E]]).
  - destruct m as [|x m]; cbn in E.
    + injection E as <- ->. rewrite Er, Et. pose proof (W (k1 ++ []) f l2 eq_refl) as G. rewrite (counted_cons _ f) in G. by rewrite counted_cons, Et.
    + injection E as <- ->. rewrite (counted_same _ f f' (g :: m) l2 Et). apply (W k1). by rewrite <- app_assoc.
  - destruct m as [|x m]; cbn in E.
    + injection E as <- ->. rewrite Er, Et. pose proof (W l1 f k2 eq_refl) as G. rewrite (counted_cons _ f) in G. by rewrite counted_cons, Et.
    + injection E as <- ->. apply (W (l1 ++ f :: m)). by rewrite <- app_assoc.
Qed.
Lemma admit_counter now p s l url redirects tries : counter_inv s l -> fst (admit_request now p s) = Ok tt ->
  counter_inv (snd (admit_request now p s)) ({| fl_request := p; fl_url := url; fl_redirects := redirects; fl_sent := tries |} :: l).
Proof.
  intros [Hc Hw]. unfold admit_request. destruct (requestLimit p <=? _); [done|]. cbn [inflight]. destruct (Z.leb_spec (maxConcurrency p) (default 0 (inflight s !! pr_target p))) as [|Hlt]; [done|].
  intros _. cbn [snd]. split; cbn [inflight].
  - intros t. rewrite lookup_insert, counted_cons. unfold fl_target at 1; cbn [fl_request]. destruct (decide (pr_target p = t)) as [<-|Hn]; [by rewrite String.eqb_refl, Hc|by rewrite (proj2 (String.eqb_neq _ _) Hn)].
  - intros [|g l1] f l2 E; [|injection E as <- ->; by apply (Hw l1)]. injection E as <- <-. rewrite counted_cons, String.eqb_refl. unfold fl_target; cbn [fl_request default]. rewrite Hc in Hlt. cbn in *. lia.
Qed.
Lemma admit_denied now p s l e : counter_inv s l -> fst (admit_request now p s) = Throw e -> counter_inv (snd (admit_request now p s)) l.
Proof. intros [Hc Hw]. unfold admit_request. destruct (requestLimit p <=? _); [done|]. cbn [inflight]. by destruct (maxConcurrency p <=? _). Qed.
Lemma remaining_one x : default 1 (Some (x + 1)) - 1 = x.
Proof. cbn. lia. Qed.
Lemma release_counter s l1 f l2 : counter_inv s (l1 ++ f :: l2) -> counter_inv (release (fl_target f) s) (l1 ++ l2).
Proof.
  intros [Hc Hw]. split; [|by eapply within_drop]. intros t. unfold release. cbn [inflight]. pose proof (Hc (fl_target f)) as Hf.
  rewrite counted_middle, counted_cons, String.eqb_refl in Hf. rewrite Hf. rewrite (remaining_one (default 0 (counted (fl_target f) (l1 ++ l2)))). specialize (Hc t). rewrite counted_middle, counted_cons in Hc.
  pose proof (length_flights (fl_target f) (l1 ++ l2)) as Hl. destruct (String.eqb_spec (fl_target f) t) as [E|Hn]; [subst t|].
  - destruct (Z.ltb_spec 0 (default 0 (counted (fl_target f) (l1 ++ l2)))) as [Hp|Hp].
    + rewrite lookup_insert_eq. destruct (counted (fl_target f) (l1 ++ l2)); [done|cbn in Hp; lia].
    + rewrite lookup_delete_eq. unfold counted in *. destruct (length (flights_to (fl_target f) (l1 ++ l2))); [done|cbn in Hp; lia].
  - destruct (0 <? _); [rewrite lookup_insert_ne by done|rewrite lookup_delete_ne by done]; exact Hc.
Qed.
Lemma first_flight t l f k : flights_to t l = f :: k -> exists l1 l2, l = l1 ++ f :: l2 /\ fl_target f = t /\ flights_to (fl_target f) (f :: l2) = f :: k.
Proof.
  induction l as [|g l IH]; [done|]. rewrite flights_to_cons. destruct (String.eqb_spec (fl_target g) t) as [Et|].
  - intros [= -> <-]. exists [], l. by rewrite flights_to_cons, String.eqb_refl, Et.
  - intros (l1 & l2 & -> & Ht & E)%IH. by exists (g :: l1), l2.
Qed.

Definition times (t : string) (adm : list admission) : list Z := map fst (admissions_of t adm).
(** All recorded admissions of the target had this window and this limit. *)
Definition uniform (t : string) (window limit : Z) (adm : list admission) : Prop := forall a, In a (admissions_of t adm) -> windowMs (snd a) = window /\ requestLimit (snd a) = limit.
Definition in_window (T window : Z) (l : list Z) : list Z := List.filter (fun y => (T - window <? y) && (y <=? T)) l.
Record rate_inv (s : egress_process) (clock : Z) (adm : list admission) : Prop := {
  ri_clock : forall a, In a adm -> fst a <= clock;
  ri_window : forall t w n, uniform t w n adm -> exists x, x <= clock /\ default [] (rate_windows s !! t) = recent x w (times t adm);
  ri_limit : forall t w n T, uniform t w n adm -> 0 <= n -> lengthZ (in_window T w (times t adm)) <= n;
}.
Lemma filter_length_le {A} (p q : A -> bool) l : (forall x, In x l -> p x = true -> q x = true) -> (length (List.filter p l) <= length (List.filter q l))%nat.
Proof.
  induction l as [|x l IH]; intros G; cbn; [done|]. assert (G' : forall y, In y l -> p y = true -> q y = true) by (intros; apply G; [by right|done]). specialize (IH G').
  pose proof (G x (or_introl eq_refl)) as Gx. destruct (p x); [rewrite Gx by done; cbn; lia|]. destruct (q x); cbn; lia.
Qed.
Lemma recent_recent now x w l : x <= now -> recent now w (recent x w l) = recent now w l.
Proof.
  intros Hx. unfold recent. induction l as [|y l IH]; cbn; [done|]. destruct (Z.ltb_spec (x - w) y); cbn; [by rewrite IH|]. rewrite IH.
  destruct (Z.ltb_spec (now - w) y); [lia|done].
Qed.
Lemma boundedInteger_bounds v fallback lo hi : lo <= fallback <= hi -> lo <= boundedInteger v fallback lo hi <= hi.
Proof. intros Hb. unfold boundedInteger. destruct (_ ≫= _) as [n|]; [|done]. destruct (Z.abs n <=? _); lia. Qed.
Lemma windowMs_pos p : 1000 <= windowMs p.
Proof. apply boundedInteger_bounds. lia. Qed.
Lemma admissions_of_app t l1 l2 : admissions_of t (l1 ++ l2) = admissions_of t l1 ++ admissions_of t l2.
Proof. apply List.filter_app. Qed.
Lemma uniform_prefix t w n l1 l2 : uniform t w n (l1 ++ l2) -> uniform t w n l1.
Proof. intros Hu a Ha. apply Hu. rewrite admissions_of_app. apply in_or_app. by left. Qed.
Lemma admissions_single t now p : admissions_of t [(now, p)] = if String.eqb (pr_target p) t then [(now, p)] else [].
Proof. unfold admissions_of. cbn. by destruct (String.eqb _ t). Qed.
(** What an admission does to the windows *)
Lemma admit_windows now p s : rate_windows (snd (admit_request now p s)) =
  if recorded now p s then <[pr_target p := recent now (windowMs p) (default [] (rate_windows s !! pr_target p)) ++ [now]]> (rate_windows s) else rate_windows s.
Proof.
  unfold admit_request, recorded. rewrite Z.leb_antisym. destruct (lengthZ _ <? requestLimit p) eqn:E; cbn [negb]; [|done]. cbn [inflight]. by destruct (maxConcurrency p <=? _).
Qed.
Lemma admit_recorded now p s : fst (admit_request now p s) = Ok tt -> recorded now p s = true.
Proof. unfold admit_request, recorded. rewrite Z.leb_antisym. by destruct (lengthZ _ <? requestLimit p). Qed.
Lemma push_rate now p s s' clock adm : rate_inv s clock adm -> clock <= now -> recorded now p s = true ->
  rate_windows s' = <[pr_target p := recent now (windowMs p) (default [] (rate_windows s !! pr_target p)) ++ [now]]> (rate_windows s) ->
  rate_inv s' now (adm ++ [(now, p)]).
Proof.
  intros [I1 I2 I3] Hc Hr E. split.
  - intros a [Ha%I1|[<-|[]]]%in_app_iff; [lia|done].
  - intros t w n Hu. destruct (I2 t w n (uniform_prefix _ _ _ _ _ Hu)) as (x & Hx & Hl). rewrite E, lookup_insert. unfold times. rewrite admissions_of_app, admissions_single, map_app.
    destruct (decide (pr_target p = t)) as [<-|Hn].
    + rewrite String.eqb_refl. exists now. split; [done|]. destruct (Hu (now, p)) as [<- _]. { rewrite admissions_of_app, admissions_single, String.eqb_refl. apply in_or_app. right. by left. }
      cbn. rewrite Hl, recent_recent by lia. unfold recent at 2. rewrite List.filter_app. cbn. pose proof (windowMs_pos p). destruct (Z.ltb_spec (now - windowMs p) now); [done|lia].
    + rewrite (proj2 (String.eqb_neq _ _) Hn). cbn. rewrite app_nil_r. exists x. split; [lia|done].
  - intros t w n T Hu Hn. pose proof (uniform_prefix _ _ _ _ _ Hu) as Hu'. specialize (I3 t w n T Hu' Hn). unfold times in *. rewrite admissions_of_app, admissions_single, map_app.
    destruct (String.eqb_spec (pr_target p) t) as [<-|]; cbn; [|by rewrite app_nil_r]. unfold in_window. rewrite List.filter_app. cbn.
    destruct (Z.leb_spec now T) as [HT|]; [|by rewrite andb_false_r, app_nil_r]. destruct (Hu (now, p)) as [Ew En]. { rewrite admissions_of_app, admissions_single, String.eqb_refl. apply in_or_app. right. by left. }
    cbn in Ew, En. destruct (I2 _ _ _ Hu') as (x & Hx & Hl). unfold recorded in Hr. rewrite Hl, Ew, recent_recent in Hr by lia. apply Z.ltb_lt in Hr.
    assert (G : lengthZ (in_window T w (times (pr_target p) adm)) <= lengthZ (recent now w (times (pr_target p) adm))).
    { apply inj_le, filter_length_le. intros y _ [Hy%Z.ltb_lt _]%andb_true_iff. apply Z.ltb_lt. lia. }
    unfold in_window, times in *.
    unfold lengthZ in *. rewrite length_app. destruct (_ && _); cbn; unfold admission in *; lia.
Qed.
Lemma rate_later s clock now adm s' : rate_inv s clock adm -> clock <= now -> rate_windows s' = rate_windows s -> rate_inv s' now adm.
Proof.
  intros [I1 I2 I3] Hc E. split; [intros a Ha; specialize (I1 a Ha); lia| |done]. intros t w n Hu. rewrite E. destruct (I2 t w n Hu) as (x & Hx & Hl). exists x. split; [lia|done].
Qed.

(** ** Theory of the tries *)

Definition url_confined (p : prepared) (url : Url) : Prop :=
  (exists base, url_parse (baseUrl (pr_policy p)) = Some base /\ origin url = origin base /\
    (protocol base = "https:" \/ allowPlainHttp (pr_policy p) = true /\ protocol base = "http:")) /\
  existsb (path_allowed (pathname url)) (allowedPaths (pr_policy p)) = true /\ path_allowed (pathname url) (pr_route p) = true.
Lemma authorized_confined p path method url : authorizeEgressUrl (pr_policy p) path method = Ok url -> check_route (pr_route p) url = Ok tt -> url_confined p url.
Proof.
  intros Ha Hr. destruct (authorizeEgressUrl_Ok _ _ _ _ Ha) as (base & Hb & Ho & Hp & Hpath). apply throw_if_Ok, negb_false_iff in Hr. split; [by exists base|done].
Qed.
(** A header that a request may carry: of the caller, the agent, or the secret of a target that has one *)
Definition header_ok (row : egress_row) (k : string) : Prop :=
  In k caller_headers \/ k = "user-agent" \/ is_Some (et_auth_binding_id (er_target row)) /\ In k ["authorization"; "x-api-key"].
Lemma define_prop_keys {A} k (v : A) l x : In x (map fst (define_prop k v l)) -> x = k \/ In x (map fst l).
Proof. intros Hx. apply list_elem_of_In, define_keys in Hx as [->|Hx]; [by left|right]. by apply list_elem_of_In. Qed.
Lemma caller_header_keys row headers l out : caller_header_list headers l = Ok out -> (forall k, In k (map fst headers) -> header_ok row k) -> forall k, In k (map fst out) -> header_ok row k.
Proof.
  revert headers. induction l as [|[k0 v0] l IH]; intros headers Hc Hk; cbn in Hc; [by injection Hc as <-|].
  apply bind_Ok_inv in Hc as (h2 & H1 & Hc). apply (IH _ Hc). unfold caller_header in H1. cbn [fst snd] in H1. destruct v0; try discriminate H1.
  apply bind_Ok_inv in H1 as (? & Hin & [= <-]). apply throw_if_Ok in Hin. rewrite !orb_false_iff in Hin. destruct Hin as [[Hin _] _]. apply negb_false_iff in Hin.
  intros k [->|Hx]%define_prop_keys; [left|by apply Hk]. by apply includes_In.
Qed.
Lemma merged_keys row l out : merge_headers l = Ok out -> forall k, In k (map fst out) -> header_ok row k.
Proof.
  unfold merge_headers. intros Hm. apply bind_Ok_inv in Hm as (? & _ & Hm). eapply caller_header_keys; [exact Hm|].
  intros k [<-|[<-|[<-|[]]]]; [left; by left|left; right; by left|right; by left].
Qed.
Lemma injected_keys reveal row headers out : inject_secret reveal row headers = Ok out -> (forall k, In k (map fst headers) -> header_ok row k) -> forall k, In k (map fst out) -> header_ok row k.
Proof.
  unfold inject_secret. intros Hi Hk. destruct (et_auth_binding_id (er_target row)) eqn:Ea; [|by injection Hi as <-]. destruct (er_alias row) as [alias|]; [|done]. destruct (er_purpose row) as [purpose|]; [|done].
  apply bind_Ok_inv in Hi as (? & _ & Hi). apply bind_Ok_inv in Hi as (? & Hn & Hi). apply bind_Ok_inv in Hi as (value & _ & [= <-]). apply throw_if_Ok, negb_false_iff in Hn.
  intros k [->|Hx]%define_prop_keys; [right; right; split; [by rewrite Ea|]|by apply Hk]. by apply includes_In.
Qed.
(** What an authorized request is *)
Record authorized (p : prepared) : Prop := {
  au_binding : exists t l operation alias, egress_query t l operation alias = [pr_row p];
  au_method : pr_method p = to_upper (eb_method (er_binding (pr_row p)));
  au_url : url_confined p (pr_url p);
  au_headers : forall k, In k (map fst (pr_headers p)) -> header_ok (pr_row p) k;
  au_body : forall b, pr_body p = Some b -> read_only (pr_method p) = false /\ lengthZ b <= 1024 * 1024;
  au_response : 0 <= maxResponseBytes (pr_policy p);
}.
Lemma prepared_authorized p : is_prepared p -> authorized p.
Proof.
  intros (env & t & reveal & l & operation & payload & Hp). unfold prepare in Hp.
  apply bind_Ok_inv in Hp as (alias & _ & Hp). apply bind_Ok_inv in Hp as (? & _ & Hp). apply bind_Ok_inv in Hp as (row & Hrow & Hp). apply bind_Ok_inv in Hp as (? & _ & Hp).
  apply bind_Ok_inv in Hp as (? & Hm & Hp). apply throw_if_Ok, negb_false_iff, String.eqb_eq in Hm. apply bind_Ok_inv in Hp as (url & Hu & Hp). apply bind_Ok_inv in Hp as ([] & Hr & Hp).
  apply bind_Ok_inv in Hp as (h1 & Hh & Hp). apply bind_Ok_inv in Hp as (? & Hb & Hp). apply bind_Ok_inv in Hp as (h2 & Hi & [= <-]). split; cbn [pr_row pr_method pr_url pr_headers pr_body pr_policy].
  - exists t, l, operation, (text_or "" alias). destruct (egress_query t l operation (text_or "" alias)) as [|r1 [|r2 rs]]; cbn in Hrow; try discriminate Hrow. by injection Hrow as ->.
  - exact Hm.
  - by eapply authorized_confined.
  - eapply injected_keys; [exact Hi|]. by eapply merged_keys.
  - intros b Eb. destruct (read_only _); [discriminate Eb|]. split; [reflexivity|]. apply throw_if_Ok in Hb. injection Eb as Eb. rewrite Eb in Hb. apply Z.ltb_ge in Hb.
    etrans; [exact Hb|]. apply (boundedInteger_bounds _ (256 * 1024) 0 (1024 * 1024)). lia.
  - apply Z.le_trans with 1; [lia|]. apply (boundedInteger_bounds _ (2 * 1024 * 1024) 1 (8 * 1024 * 1024)). lia.
Qed.
Definition public_address (a : LookupAddress) : Prop := exists i, ip_parse (default (address a) (mapped_quad (address a))) = Some i /\ blocklist_check i = false.
Record sent_ok (p : prepared) (x : sent) : Prop := {
  so_url : url_confined p (sn_url x); so_address : public_address (sn_address x);
  so_same : sn_method x = pr_method p /\ sn_headers x = pr_headers p /\ sn_body x = pr_body p;
}.
Record flight_ok (extra : Z) (f : flight) : Prop := {
  fo_prepared : is_prepared (fl_request f); fo_url : url_confined (fl_request f) (fl_url f); fo_redirects : 0 <= fl_redirects f <= 3;
  fo_tries : lengthZ (fl_sent f) <= fl_redirects f + extra; fo_sent : Forall (sent_ok (fl_request f)) (fl_sent f);
}.
Lemma try_sent resolver events f tried r : try_request resolver events f tried r -> flight_ok 0 f -> Forall (sent_ok (fl_request f)) tried /\ lengthZ tried <= 1.
Proof.
  intros [(e & _ & _ & ->)|(selected & st & Hp & _ & ->)] Hf; [by split|]. split; [|done]. constructor; [|done].
  pose proof (prepared_authorized _ (fo_prepared _ _ Hf)) as A. destruct (pinned_request_public _ _ _ _ _ _ (au_response _ A) Hp) as ((answers & _ & Hin & Hall) & _).
  split; cbn; [apply (fo_url _ _ Hf)| |done]. rewrite Forall_forall in Hall. apply Hall. by apply list_elem_of_In.
Qed.
Lemma try_response resolver events f tried r : try_request resolver events f tried (Ok r) ->
  exists a, tried = [{| sn_url := fl_url f; sn_address := a; sn_method := pr_method (fl_request f); sn_headers := pr_headers (fl_request f); sn_body := pr_body (fl_request f) |}].
Proof. intros [(e & _ & ? & _)|(selected & st & _ & _ & ->)]; [done|by exists selected]. Qed.
Lemma redirected_ok p url redirects r url' redirects' : after_response p url redirects r = Ok (inr (url', redirects')) ->
  url_confined p url' /\ redirects' = redirects + 1 /\ redirects' <= 3 /\ is_redirect r = true.
Proof.
  unfold after_response. intros Ha. destruct (is_redirect r); [|done]. cbn [negb] in Ha.
  apply bind_Ok_inv in Ha as (? & _ & Ha). apply bind_Ok_inv in Ha as (? & Hn & Ha). apply throw_if_Ok, Z.ltb_ge in Hn. apply bind_Ok_inv in Ha as (location & _ & Ha).
  apply bind_Ok_inv in Ha as (red & _ & Ha). apply bind_Ok_inv in Ha as (base & _ & Ha). apply bind_Ok_inv in Ha as (? & _ & Ha). apply bind_Ok_inv in Ha as (u & Hu & Ha).
  apply bind_Ok_inv in Ha as ([] & Hr & Ha). injection Ha as <- <-. split_and!; [by eapply authorized_confined|done|done|done].
Qed.
Lemma tried_ok resolver events f tried r : try_request resolver events f tried r -> flight_ok 0 f -> flight_ok 1 (tried_flight f tried).
Proof.
  intros Ht Hf. destruct (try_sent _ _ _ _ _ Ht Hf) as [Hs Hl]. destruct Hf as [F1 F2 F3 F4 F5]. split; cbn; try done.
  - unfold lengthZ in *. rewrite length_app. lia.
  - by apply Forall_app.
Qed.
Lemma redirected_flight resolver events f tried r url redirects : try_request resolver events f tried r -> after_try f r = Ok (inr (url, redirects)) -> flight_ok 0 f ->
  flight_ok 0 {| fl_request := fl_request f; fl_url := url; fl_redirects := redirects; fl_sent := fl_sent f ++ tried |}.
Proof.
  intros Ht Ha Hf. destruct (try_sent _ _ _ _ _ Ht Hf) as [Hs Hl]. apply bind_Ok_inv in Ha as (response & -> & Ha). destruct (redirected_ok _ _ _ _ _ _ Ha) as (Hu & -> & Hr & _).
  destruct Hf as [F1 F2 F3 F4 F5]. split; cbn; try done; [lia| |by apply Forall_app]. unfold lengthZ in *. rewrite length_app. lia.
Qed.

(** ** The invariant *)

(** The evidence of an answered request *)
Definition evidence_of (ended : list flight) (e : request_event) : Prop := exists f x status, In f ended /\ last (fl_sent f) = Some x /\
  ev_target e = fl_target f /\ ev_method e = sn_method x /\ ev_route e = pathname (sn_url x) /\ ev_request_digest e = hash (default [] (sn_body x)) /\ ev_http_status e = status /\
  existsb (Z.eqb status) redirect_statuses = false /\
  ev_outcome e = (if read_only (sn_method x) then "READ_ONLY_RESULT" else "UNKNOWN") /\ ev_reconciliation e = (if read_only (sn_method x) then "NOT_REQUIRED" else "PENDING").
Record egress_inv (s : egress_system) : Prop := {
  ei_counter : counter_inv (es_process s) (es_flights s);
  ei_rate : rate_inv (es_process s) (es_clock s) (es_admissions s);
  ei_flights : Forall (flight_ok 0) (es_flights s);
  ei_ended : Forall (flight_ok 1) (es_ended s);
  ei_events : Forall (evidence_of (es_ended s)) (es_events s);
}.
Lemma evidence_more f ended e : evidence_of ended e -> evidence_of (f :: ended) e.
Proof. intros (g & x & st & Hg & E). exists g, x, st. split; [by right|exact E]. Qed.
Lemma answered_evidence resolver events f tried r response ended : try_request resolver events f tried r -> after_try f r = Ok (inl response) ->
  evidence_of (tried_flight f tried :: ended) (event_of (fl_request f) (fl_url f) (fl_redirects f) response).
Proof.
  intros Ht Ha. apply bind_Ok_inv in Ha as (r' & -> & Ha). destruct (try_response _ _ _ _ _ Ht) as [a ->].
  assert (Er : is_redirect r' = false /\ r' = response).
  { unfold after_response in Ha. destruct (is_redirect r'); cbn [negb] in Ha; [|by injection Ha as <-]. repeat (apply bind_Ok_inv in Ha as (? & _ & Ha)). discriminate. }
  destruct Er as [Er <-]. eexists (tried_flight f _), _, _. split; [by left|]. split; [cbn; apply last_snoc|]. cbn. split_and!; done.
Qed.
(** What a request leaves when it ends *)
Lemma ended_preserves s fl1 f fl2 clock adm ended ev resolver events tried r : egress_inv (ESys s (fl1 ++ f :: fl2) clock adm ended ev) -> try_request resolver events f tried r ->
  egress_inv (ESys (release (fl_target f) s) (fl1 ++ fl2) clock adm (tried_flight f tried :: ended) ev).
Proof.
  intros [I1 I2 I3 I4 I5] Ht. cbn in I1, I2, I3, I4, I5. apply Forall_app in I3 as [I31 [If I32]%Forall_cons]. split; cbn.
  - by apply release_counter.
  - apply (rate_later s clock); [done|lia|done].
  - by apply Forall_app.
  - constructor; [by eapply tried_ok|done].
  - eapply Forall_impl; [exact I5|]. intros e. apply evidence_more.
Qed.
Lemma estep_preserves s s' : egress_inv s -> estep s s' -> egress_inv s'.
Proof.
  intros I St. destruct St as [now p s fl clock adm ended ev Hp Hc Ha|now p s fl clock adm ended ev e Hp Hc Ha|s fl1 f fl2 clock adm ended ev resolver events tried r url redirects Ht Ha
    |s fl1 f fl2 clock adm ended ev resolver events tried r response Ht Ha|s fl1 f fl2 clock adm ended ev resolver events tried r response Ht Ha|s fl1 f fl2 clock adm ended ev resolver events tried r e Ht Ha].
  - destruct I as [I1 I2 I3 I4 I5]. cbn in I1, I2, I3, I4, I5. split; cbn [es_process es_flights es_clock es_admissions es_ended es_events]; try done.
    + by apply admit_counter.
    + eapply push_rate; [exact I2|done|by apply admit_recorded|]. by rewrite admit_windows, admit_recorded.
    + constructor; [|done]. split; cbn; [done|apply (au_url _ (prepared_authorized _ Hp))|lia|unfold lengthZ; cbn; lia|constructor].
  - destruct I as [I1 I2 I3 I4 I5]. cbn in I1, I2, I3, I4, I5. split; cbn [es_process es_flights es_clock es_admissions es_ended es_events]; try done.
    + by eapply admit_denied.
    + destruct (recorded now p s) eqn:Er.
      * eapply push_rate; [exact I2|done|done|]. by rewrite admit_windows, Er.
      * rewrite app_nil_r. eapply rate_later; [exact I2|done|]. by rewrite admit_windows, Er.
  - destruct I as [I1 I2 I3 I4 I5]. cbn in I1, I2, I3, I4, I5. split; cbn [es_process es_flights es_clock es_admissions es_ended es_events]; try done.
    + destruct I1 as [C1 C2]. split; [|by apply (within_same fl1 f)]. intros t. rewrite C1. symmetry. by apply counted_same.
    + apply Forall_app in I3 as [I31 [If I32]%Forall_cons]. apply Forall_app. split; [done|]. constructor; [by eapply redirected_flight|done].
  - pose proof (ended_preserves _ _ _ _ _ _ _ _ _ _ _ _ I Ht) as [J1 J2 J3 J4 J5]. split; try done. cbn in *. apply Forall_app. split; [done|]. constructor; [|done]. by eapply answered_evidence.
  - by eapply ended_preserves.
  - by eapply ended_preserves.
Qed.
Lemma egress_initial_inv s : egress_initial s -> egress_inv s.
Proof.
  destruct s as [p fl clock adm ended ev]. intros (Hp & Hf & Ha & He & Hv). cbn in *. subst. split; cbn; try done.
  - split; [done|]. intros l1 f l2 E. by destruct l1.
  - split; cbn; [done| |done]. intros t w n _. by exists clock.
Qed.
Lemma egress_reachable_inv s : egress_reachable s -> egress_inv s.
Proof. intros (s0 & Hi & St). eapply star_invariant; [exact estep_preserves|by apply egress_initial_inv|exact St]. Qed.

(** ** Properties *)

(** C20. The limits of external requests hold under any interleaving within a process.  The counter of a target is the number of its requests in
    flight, and never more than the limit of the one admitted last; and while the target keeps its window and its limit, no window of that
    length, wherever it starts, has more admissions than the limit.  Requests that were refused for concurrency are counted in the window. *)
Theorem egress_limits s target : egress_reachable s ->
  default 0 (inflight (es_process s) !! target) = lengthZ (flights_to target (es_flights s)) /\
  (forall f l, flights_to target (es_flights s) = f :: l -> lengthZ (f :: l) <= maxConcurrency (fl_request f)) /\
  (forall window limit T, uniform target window limit (es_admissions s) -> 0 <= limit -> lengthZ (in_window T window (times target (es_admissions s))) <= limit).
Proof.
  intros R. pose proof (egress_reachable_inv _ R) as [[Hc Hw] Hr _ _ _]. split_and!.
  - rewrite Hc. symmetry. apply length_flights.
  - intros f l E. apply first_flight in E as (l1 & l2 & E & Ht & <-). unfold lengthZ. rewrite length_flights. by apply (Hw l1).
  - apply (ri_limit _ _ _ Hr).
Qed.

(** C19. Whatever a runtime asks for and whatever the network answers, everything the broker sends belongs to a request that exactly one current
    binding authorized: at most four tries each, to a checked public address, within the origin, the paths and the route of the target
    after every redirect too, with the method of the binding, and with no credential of the caller: only permitted headers, and the secret
    of a target that has one.  All tries of a request carry the same method, headers and body of at most a mebibyte. *)
Theorem egress_confined s f : egress_reachable s -> In f (es_flights s ++ es_ended s) ->
  lengthZ (fl_sent f) <= 4 /\ (exists t l operation alias, egress_query t l operation alias = [pr_row (fl_request f)]) /\
  forall x, In x (fl_sent f) -> url_confined (fl_request f) (sn_url x) /\ public_address (sn_address x) /\
    sn_method x = to_upper (eb_method (er_binding (pr_row (fl_request f)))) /\ (forall k, In k (map fst (sn_headers x)) -> header_ok (pr_row (fl_request f)) k) /\
    (forall b, sn_body x = Some b -> read_only (sn_method x) = false /\ lengthZ b <= 1024 * 1024) /\
    forall y, In y (fl_sent f) -> sn_method y = sn_method x /\ sn_headers y = sn_headers x /\ sn_body y = sn_body x.
Proof.
  intros R Hin. pose proof (egress_reachable_inv _ R) as [_ _ Hf He _].
  assert (F : flight_ok 1 f).
  { apply in_app_iff in Hin as [Hin%list_elem_of_In|Hin%list_elem_of_In]; rewrite Forall_forall in Hf, He; [|by apply He]. destruct (Hf _ Hin) as [F1 F2 F3 F4 F5]. split; try done. lia. }
  destruct F as [F1 F2 F3 F4 F5]. pose proof (prepared_authorized _ F1) as A. split; [lia|]. split; [apply (au_binding _ A)|]. rewrite Forall_forall in F5.
  intros x Hx%list_elem_of_In. destruct (F5 x Hx) as [S1 S2 (S3 & S4 & S5)]. rewrite S3, S4, S5. split_and!; [done|done|apply (au_method _ A)|apply (au_headers _ A)|apply (au_body _ A)|].
  intros y Hy%list_elem_of_In. destruct (F5 y Hy) as [_ _ (T3 & T4 & T5)]. done.
Qed.

(** Every event row stands for an ended request that was answered with no redirect, and tells its last try; a request that may have changed the
    target is recorded as unknown and left for reconciliation, whatever its status says. *)
Theorem egress_evidence s e : egress_reachable s -> In e (es_events s) -> evidence_of (es_ended s) e.
Proof. intros R Hin%list_elem_of_In. pose proof (egress_reachable_inv _ R) as [_ _ _ _ Hev]. rewrite Forall_forall in Hev. by apply Hev. Qed.
End System.

(** ** Witnesses *)

#[local] Existing Instances code_unit_locale toy_hash toy_net.
Definition toy_url (path : string) : Url :=
  {| protocol := "https:"; username := ""; password := ""; hostname := "example.org"; origin := "https://example.org"; pathname := path; search := ""; url_hash := "";
     href := "https://example.org" +:+ path |}.
#[local] Instance toy_parser : UrlParser :=
  {| url_parse := fun s => if String.eqb s "https://example.org" then Some (toy_url "/") else None; url_resolve := fun path _ => Some (toy_url path) |}.
Definition sample_target : target_row :=
  {| et_id := "target"; et_base_url := "https://example.org"; et_allowed_paths := JArr [JStr "/v1"]; et_allowed_methods := ["POST"]; et_timeout_ms := 5000;
     et_rate_limit := JObj [("requests", JNum 2); ("windowMs", JNum 1000); ("maxConcurrency", JNum 1)]; et_circuit_state := "CLOSED"; et_auth_binding_id := Some "secret";
     et_monitoring := JObj [("authInjection", JObj [("headerName", JStr "Authorization"); ("scheme", JStr "Bearer")])]; et_lifecycle := "ACTIVE"; et_deleted := false;
     et_state_version := 1; et_epoch := 3; et_incarnation := Some "inc"; et_deployment := 4 |}.
Definition sample_binding : external_binding :=
  {| eb_id := "external"; eb_stable_key := Some "orders"; eb_lifecycle := "ACTIVE"; eb_deleted := false; eb_component := "comp"; eb_source_revision := "rev"; eb_target := "target";
     eb_route := "/v1/"; eb_method := "post"; eb_revision := 1; eb_activation_set := None; eb_epoch := 3; eb_incarnation := Some "inc"; eb_deployment := 4 |}.
Definition sample_member : member_row :=
  {| me_revision := "bind"; me_kind := "EXTERNAL_TARGET"; me_source := JObj [("objectId", JStr "comp"); ("revisionId", JStr "rev")]; me_target := JObj [("bindingId", JStr "external")];
     me_operation := "order"; me_purpose := "" |}.
Definition sample_egress : egress_tables :=
  {| x_targets := [sample_target]; x_bindings := [sample_binding]; x_members := [sample_member]; x_secret_bindings := [("secret", (Some "token", "orders"))] |}.
Definition sample_row : egress_row := {| er_binding := sample_binding; er_target := sample_target; er_alias := Some "token"; er_purpose := Some "orders" |}.
Definition sample_payload : option json :=
  Some (JObj [("bindingAlias", JStr "orders"); ("request", JObj [("method", JStr "POST"); ("path", JStr "/v1/new"); ("headers", JObj [("Idempotency-Key", JStr "k1")]); ("body", JNum 1)])]).
Definition sample_request : prepared :=
  {| pr_row := sample_row; pr_method := "POST"; pr_policy := egress_policy false sample_target; pr_url := toy_url "/v1/new";
     pr_headers := default_headers ++ [("idempotency-key", "k1"); ("authorization", "Bearer s3cret")]; pr_body := Some [49] |}.
Lemma sample_prepared : is_prepared sample_request.
Proof. exists false, sample_egress, (fun _ _ => Ok "s3cret"), (raw sample_lineage), "order", sample_payload. vm_compute. reflexivity. Qed.
(** A caller may not bring a credential of its own. *)
Example credential_denied :
  prepare false sample_egress (fun _ _ => Ok "s3cret") (raw sample_lineage) "order" (Some (JObj [("bindingAlias", JStr "orders"); ("request", JObj [("method", JStr "POST"); ("path", JStr "/v1/new");
    ("headers", JObj [("X-API-Key", JStr "k")])])])) = Throw (JsError "EGRESS_CALLER_CREDENTIAL_DENIED").
Proof. vm_compute. reflexivity. Qed.
Definition temporary_redirect : list net_event := [End 307 [("location", JStr "/v1/created")]].
Definition found : list net_event := [Data [50]; End 200 []].
Definition flight0 : flight := {| fl_request := sample_request; fl_url := toy_url "/v1/new"; fl_redirects := 0; fl_sent := [] |}.
Definition send (path : string) : sent := {| sn_url := toy_url path; sn_address := sample_answer; sn_method := "POST"; sn_headers := pr_headers sample_request; sn_body := Some [49] |}.
Definition flight1 : flight := {| fl_request := sample_request; fl_url := toy_url "/v1/created"; fl_redirects := 1; fl_sent := [send "/v1/new"] |}.
Definition response_of (events : list net_event) : result pinned_response := default (Throw (JsError "")) (settled (fold_left (on_net_event sample_answer (2 * 1024 * 1024)) events new_request)).
Lemma tried events path f r : settled (fold_left (on_net_event sample_answer (2 * 1024 * 1024)) events new_request) = Some r -> fl_request f = sample_request -> fl_url f = toy_url path ->
  try_request sample_resolver events f [send path] r.
Proof. intros Hs Hr Hu. right. eexists _, _. rewrite Hr, Hu. split; [reflexivity|]. split; [exact Hs|done]. Qed.
(** A POST that is answered with 307 is sent again as the same POST; then 200 ends it with an event. *)
Definition ended_flight : flight := tried_flight flight1 [send "/v1/created"].
Definition admitted_process : egress_process := snd (admit_request 100 sample_request new_process).
(** While it is in flight a second request is refused, and counted. *)
Definition egress_now : egress_system := ESys (snd (admit_request 150 sample_request admitted_process)) [flight1] 150 [(100, sample_request); (150, sample_request)] [] [].
Lemma egress_now_reachable : egress_reachable egress_now.
Proof.
  exists (ESys new_process [] 0 [] [] []). split; [done|].
  eapply star_step; [apply (es_admit 100 sample_request _ _ _ _ _ _ sample_prepared); [lia|vm_compute; reflexivity]|].
  eapply star_step; [apply (es_redirect _ [] flight0 [] _ _ _ _ sample_resolver temporary_redirect [send "/v1/new"] (response_of temporary_redirect) (toy_url "/v1/created") 1); [by apply tried|vm_compute; reflexivity]|].
  eapply star_step; [apply (es_deny 150 sample_request _ _ _ _ _ _ (JsError "EGRESS_CONCURRENCY_LIMITED") sample_prepared); [lia|vm_compute; reflexivity]|]. apply star_refl.
Qed.
Definition found_response : pinned_response := get_Ok {| rs_status := 0; rs_headers := []; rs_body := []; remoteAddress := "" |} (response_of found).
Definition egress_later : egress_system :=
  ESys (release "target" (es_process egress_now)) [] 150 (es_admissions egress_now) [ended_flight] [event_of sample_request (toy_url "/v1/created") 1 found_response].
Lemma egress_later_reachable : egress_reachable egress_later.
Proof.
  destruct egress_now_reachable as (s0 & Hi & St). exists s0. split; [done|]. eapply star_trans; [exact St|]. apply star_one.
  refine (es_answer (es_process egress_now) [] flight1 [] 150 (es_admissions egress_now) [] [] sample_resolver found [send "/v1/created"] (response_of found) found_response _ _); [by apply tried|vm_compute; reflexivity].
Qed.

Lemma egress_limits_witness : lengthZ (in_window 200 1000 (times "target" (es_admissions egress_now))) <= 2.
Proof.
  apply (egress_limits egress_now "target" egress_now_reachable); [|lia]. intros a [<-|[<-|[]]]; vm_compute; by split.
Defined.
Lemma egress_confined_witness : lengthZ (fl_sent ended_flight) <= 4.
Proof. apply (egress_confined egress_later ended_flight egress_later_reachable). cbn. by left. Defined.
