(* ===== verification/BrowserAction.v ===== *)
(** * Browser actions

    The life of a browser action: its admission and the outcome handlers ([browserMutation] in
    [packages/domain/src/canonical-operation-handlers.ts] and [handleBrowserActionReconcile] in [exact-operation-handlers.ts]), its dispatch to the
    browser host in two transactions ([BrowserSessionService.dispatchOne] in [packages/browser-automation-runtime/src/session-service.ts]), and the
    wait of its caller for the outcome ([packages/browser-interaction/src/index.ts]), whose query names a column that the table does not have.  The host is outside: it is sent requests and answers
    anything, or nothing.  Sessions, leases and references have other writers, which may do anything to them but give a fence of a session out
    again.  The rows of pages, frames, documents and observations are only written: the outcome of those statements is an argument of [commitAction]. *)
From Stdlib Require Import Ascii String.
From S2P Require Import Prelude Bytes Json Text Digest CanonicalValue IpcFrame IpcChannel IpcBroker AuditChain Database ErrorRegistry Authority Egress Contracts Schemas Commands Handlers Secrets StateBroker.

(** ** Tables *)

Inductive action_phase :=
| P_INTENT_RECORDED | P_TARGET_RESOLVED | P_PRECONDITION_VERIFIED | P_DISPATCH_AUTHORIZED | P_POSSIBLE_EFFECT | P_OUTCOME_OBSERVED | P_RECONCILING
| P_CONFIRMED_APPLIED | P_CONFIRMED_NOT_APPLIED | P_FAILED_FINAL | P_UNKNOWN.
#[export] Instance action_phase_eq_dec : EqDecision action_phase.
Proof. solve_decision. Defined.
(** [browserDispatchPhases] *)
Inductive dispatch_phase :=
| E_COMMAND_ACCEPTED | E_TARGET_RESOLVED | E_ACTIONABILITY_PASSED | E_INPUT_SEQUENCE_STARTED | E_MUTATION_TRIGGER_POSSIBLY_ISSUED | E_NAVIGATION_OR_REQUEST_OBSERVED
| E_METHOD_RETURNED | E_POST_OBSERVATION_CAPTURED.
#[export] Instance dispatch_phase_eq_dec : EqDecision dispatch_phase.
Proof. solve_decision. Defined.
Definition dispatch_phase_name (p : dispatch_phase) : string :=
  match p with
  | E_COMMAND_ACCEPTED => "COMMAND_ACCEPTED" | E_TARGET_RESOLVED => "TARGET_RESOLVED" | E_ACTIONABILITY_PASSED => "ACTIONABILITY_PASSED"
  | E_INPUT_SEQUENCE_STARTED => "INPUT_SEQUENCE_STARTED" | E_MUTATION_TRIGGER_POSSIBLY_ISSUED => "MUTATION_TRIGGER_POSSIBLY_ISSUED"
  | E_NAVIGATION_OR_REQUEST_OBSERVED => "NAVIGATION_OR_REQUEST_OBSERVED" | E_METHOD_RETURNED => "METHOD_RETURNED" | E_POST_OBSERVATION_CAPTURED => "POST_OBSERVATION_CAPTURED"
  end.
(** [browserDispatchPhaseOrder] *)
Definition dispatch_order (p : dispatch_phase) : Z :=
  match p with
  | E_COMMAND_ACCEPTED => 1 | E_TARGET_RESOLVED => 2 | E_ACTIONABILITY_PASSED => 3 | E_INPUT_SEQUENCE_STARTED => 4 | E_MUTATION_TRIGGER_POSSIBLY_ISSUED => 5
  | E_NAVIGATION_OR_REQUEST_OBSERVED => 6 | E_METHOD_RETURNED => 7 | E_POST_OBSERVATION_CAPTURED => 8
  end.
Definition browserDispatchPhases : list dispatch_phase :=
  [E_COMMAND_ACCEPTED; E_TARGET_RESOLVED; E_ACTIONABILITY_PASSED; E_INPUT_SEQUENCE_STARTED; E_MUTATION_TRIGGER_POSSIBLY_ISSUED; E_NAVIGATION_OR_REQUEST_OBSERVED; E_METHOD_RETURNED;
   E_POST_OBSERVATION_CAPTURED].
Definition action_phase_of (p : dispatch_phase) : action_phase :=
  match p with
  | E_COMMAND_ACCEPTED => P_INTENT_RECORDED | E_TARGET_RESOLVED => P_TARGET_RESOLVED | E_ACTIONABILITY_PASSED => P_PRECONDITION_VERIFIED
  | E_INPUT_SEQUENCE_STARTED => P_DISPATCH_AUTHORIZED | E_MUTATION_TRIGGER_POSSIBLY_ISSUED => P_POSSIBLE_EFFECT | E_POST_OBSERVATION_CAPTURED => P_OUTCOME_OBSERVED
  | E_NAVIGATION_OR_REQUEST_OBSERVED | E_METHOD_RETURNED => P_RECONCILING
  end.

Record Identity := {
  hostGeneration : Z; contextGeneration : Z; pageId : string; pageGeneration : Z; frameId : string; documentId : string; documentEpoch : Z;
}.
Record browser_session := {
  ss_lifecycle : string; ss_holder : string; ss_control_epoch : Z; ss_control_expires : option Z; ss_context_generation : Z; ss_page_generation : Z; ss_page : option string;
  ss_frame : option string; ss_document_epoch : Z; ss_observation_revision : Z; ss_scope : json; ss_bound_origins : json; ss_host : option string; ss_next_action_fence : Z; ss_version : Z;
}.
(** [browser_session_dispatch_lease] *)
Record lease_row := { le_state : string; le_released : bool; le_token : Z; le_expires : Z; le_identity : Identity }.
(** [browser_target_reference] *)
Record reference_row := { rf_session : string; rf_page : string; rf_frame : string; rf_document_epoch : Z; rf_locator : json }.
(** [browser_action_run]; [rn_created] is [created_at]. *)
Record run_row := {
  rn_session : string; rn_operation : string; rn_action : string; rn_target : option string; rn_payload : json; rn_control_epoch : Z; rn_document_epoch : Z; rn_observation : Z;
  rn_phase : action_phase; rn_trigger : option string; rn_next_attempt : Z; rn_outcome : json; rn_created : Z; rn_version : Z;
}.
(** [browser_action_attempt] with its rows of [browser_action_dispatch_event], the latest last *)
Record attempt_row := {
  at_run : string; at_number : Z; at_command : string; at_fence : Z; at_lease : string; at_token : Z; at_identity : Identity; at_events : list dispatch_phase; at_t2 : bool;
  at_classification : option string; at_readback : json; at_failed : bool;
}.
(** What a reconciliation or an upload reads of other aggregates *)
Record upload_row := {
  up_session : string; up_consumed : bool; up_cleaned : bool; up_expires : Z; up_digest : list Z; up_size : Z; up_artifact_digest : list Z; up_artifact_size : Z; up_policy : json;
}.
Record download_row := { dl_action : string; dl_session : string; dl_state : string; dl_verification : json; dl_storage : option string }.
Record challenge_row := { cl_session : string; cl_status : string; cl_created : Z }.
Record browser_db := {
  b_sessions : gmap string browser_session; b_leases : gmap string lease_row; b_references : gmap string reference_row; b_runs : gmap string run_row;
  b_attempts : gmap string attempt_row; b_uploads : gmap string upload_row; b_downloads : list download_row; b_challenges : list challenge_row;
}.
Definition set_runs m (d : browser_db) : browser_db :=
  {| b_sessions := b_sessions d; b_leases := b_leases d; b_references := b_references d; b_runs := m; b_attempts := b_attempts d; b_uploads := b_uploads d;
     b_downloads := b_downloads d; b_challenges := b_challenges d |}.
Definition set_attempts m (d : browser_db) : browser_db :=
  {| b_sessions := b_sessions d; b_leases := b_leases d; b_references := b_references d; b_runs := b_runs d; b_attempts := m; b_uploads := b_uploads d;
     b_downloads := b_downloads d; b_challenges := b_challenges d |}.
Definition set_sessions m (d : browser_db) : browser_db :=
  {| b_sessions := m; b_leases := b_leases d; b_references := b_references d; b_runs := b_runs d; b_attempts := b_attempts d; b_uploads := b_uploads d;
     b_downloads := b_downloads d; b_challenges := b_challenges d |}.
Definition set_leases m (d : browser_db) : browser_db :=
  {| b_sessions := b_sessions d; b_leases := m; b_references := b_references d; b_runs := b_runs d; b_attempts := b_attempts d; b_uploads := b_uploads d;
     b_downloads := b_downloads d; b_challenges := b_challenges d |}.
(** Every update of a run counts its version. *)
Definition move_run (p : action_phase) (trigger : option string) (outcome : json) (next : Z) (r : run_row) : run_row :=
  {| rn_session := rn_session r; rn_operation := rn_operation r; rn_action := rn_action r; rn_target := rn_target r; rn_payload := rn_payload r; rn_control_epoch := rn_control_epoch r;
     rn_document_epoch := rn_document_epoch r; rn_observation := rn_observation r; rn_phase := p; rn_trigger := trigger; rn_next_attempt := next; rn_outcome := outcome;
     rn_created := rn_created r; rn_version := rn_version r + 1 |}.
Definition with_outcome (p : action_phase) (outcome : json) (r : run_row) : run_row := move_run p (rn_trigger r) outcome (rn_next_attempt r) r.
Definition attempts_of (run : string) (d : browser_db) : list (string * attempt_row) := List.filter (fun kv => String.eqb (at_run (snd kv)) run) (map_to_list (b_attempts d)).
(** [ORDER BY attempt DESC LIMIT 1] *)
Definition later_attempt (a b : string * attempt_row) : string * attempt_row := if at_number (snd a) <? at_number (snd b) then b else a.
Definition latest_attempt (run : string) (d : browser_db) : option (string * attempt_row) :=
  match attempts_of run d with [] => None | a :: l => Some (fold_left later_attempt l a) end.
Definition append_events (l : list dispatch_phase) (a : attempt_row) : attempt_row :=
  {| at_run := at_run a; at_number := at_number a; at_command := at_command a; at_fence := at_fence a; at_lease := at_lease a; at_token := at_token a; at_identity := at_identity a;
     at_events := at_events a ++ l; at_t2 := at_t2 a; at_classification := at_classification a; at_readback := at_readback a; at_failed := at_failed a |}.
Definition classify_attempt (t2 : bool) (classification : option string) (readback : json) (a : attempt_row) : attempt_row :=
  {| at_run := at_run a; at_number := at_number a; at_command := at_command a; at_fence := at_fence a; at_lease := at_lease a; at_token := at_token a; at_identity := at_identity a;
     at_events := at_events a; at_t2 := at_t2 a || t2; at_classification := classification; at_readback := readback; at_failed := at_failed a |}.
Definition fail_attempt (a : attempt_row) : attempt_row :=
  {| at_run := at_run a; at_number := at_number a; at_command := at_command a; at_fence := at_fence a; at_lease := at_lease a; at_token := at_token a; at_identity := at_identity a;
     at_events := at_events a; at_t2 := at_t2 a; at_classification := at_classification a; at_readback := at_readback a; at_failed := true |}.

(** ** Handlers *)

Implicit Type c : CanonicalHandlerContext.

Section Browser.
Context `{L : Locale} `{H : Hash} `{U : UrlParser}.

Definition schema_invalid (message : string) : exn := DomainErr "TOOL_ARGUMENT_SCHEMA_INVALID" message.
Definition requireTarget c : result string :=
  let required := schema_invalid (hc_operation c +:+ " requires a targetId") in t ← or_throw (hc_targetId c) required; _ ← throw_if (negb (truthy t)) required; Ok t.
Definition requireString c (key : string) : result string :=
  match argument c key with Some (JStr s) => if truthy s then Ok s else Throw (schema_invalid (key +:+ " is required for this operation")) | _ => Throw (schema_invalid (key +:+ " is required for this operation")) end.
Definition requireUuid c (key : string) : result string := s ← requireString c key; _ ← throw_if (negb (UUID_any s)) (schema_invalid (key +:+ " must be a UUID")); Ok s.
Definition all_digits (s : string) : bool := truthy s && str_forallb is_digit s.
Definition requireNonNegativeInteger c (key : string) : result Z :=
  let invalid := schema_invalid (key +:+ " must be a non-negative integer") in
  match nullish (argument c key) None with
  | Some j => _ ← throw_if (negb (all_digits (to_text j))) invalid; or_throw (StringToBigInt (to_text j)) invalid
  | None => Throw invalid
  end.
Definition terminal_sessions : list string := ["CLOSED"; "FAILED"; "EXPIRED"; "MANUAL_REVIEW"].
Definition control_holders : list string := ["AI"; "OWNER"; "AUTOMATION"].
(** [sessionFor] *)
Definition sessionFor (id : string) (d : browser_db) : result browser_session :=
  s ← or_throw (b_sessions d !! id) (DomainErr "BROWSER_SESSION_NOT_READY" "Browser session does not exist");
  _ ← throw_if (includes (ss_lifecycle s) terminal_sessions) (DomainErr "BROWSER_SESSION_TERMINAL" ("Browser session is not mutable in lifecycle " +:+ ss_lifecycle s));
  Ok s.
Definition stale_fence : exn := DomainErr "FENCING_TOKEN_STALE" "argument does not match the current session fence".
Definition check_fence c (key : string) (current : Z) : result unit :=
  match argument c key with
  | None => Ok tt
  | Some _ => n ← requireNonNegativeInteger c key; throw_if (negb (n =? current)) stale_fence
  end.
Definition version_conflict : exn := DomainErr "STATE_VERSION_CONFLICT" "Browser state changed".
Definition check_version c (v : Z) : result unit := throw_if (match hc_expectedStateVersion c with Some e => negb (v =? e) | None => false end) version_conflict.
Definition check_reference c (sessionId : string) (s : browser_session) (d : browser_db) : result (option string) :=
  match nullish (argument c "targetReferenceId") None with
  | None => Ok None
  | Some _ =>
      t ← requireUuid c "targetReferenceId";
      r ← or_throw (b_references d !! t ≫= fun r => if String.eqb (rf_session r) sessionId then Some r else None) (DomainErr "BROWSER_TARGET_MISSING" "Target reference does not belong to the browser session");
      _ ← throw_if (negb (rf_document_epoch r =? ss_document_epoch s) || negb (String.eqb (rf_page r) (default "null" (ss_page s))) || negb (String.eqb (rf_frame r) (default "null" (ss_frame s))))
            (DomainErr "BROWSER_DOCUMENT_STALE" "Target reference belongs to a stale page or document fence");
      Ok (Some t)
  end.
(** What the handlers return: the row under the name [action] *)
Definition run_json (id : string) (r : run_row) : json := JObj [("id", JStr id); ("session_id", JStr (rn_session r)); ("action", JStr (rn_action r)); ("state_version", JStr (dec (rn_version r)))].
Definition run_output c (extra : list (string * json)) (id : string) (r : run_row) : json :=
  JObj ([("operation", JStr (hc_operation c)); ("action", run_json id r)] ++ extra ++ [("state_version", JStr (dec (rn_version r)))]).
(** [browser.action.start] *)
Definition action_start c (id : string) (created : Z) (d : browser_db) : result (json * browser_db) :=
  sessionId ← requireUuid c "sessionId";
  action ← requireString c "action";
  s ← sessionFor sessionId d;
  _ ← check_fence c "expectedControlEpoch" (ss_control_epoch s);
  _ ← check_fence c "expectedDocumentEpoch" (ss_document_epoch s);
  _ ← check_fence c "expectedObservationRevision" (ss_observation_revision s);
  _ ← throw_if (negb (includes (ss_holder s) control_holders)) (DomainErr "BROWSER_CONTROL_HELD" "Browser session has no active control holder");
  t ← check_reference c sessionId s d;
  let r := {| rn_session := sessionId; rn_operation := hc_logicalOperationId c; rn_action := action; rn_target := t;
              rn_payload := default (JObj []) (nullish (argument c "payload") None); rn_control_epoch := ss_control_epoch s; rn_document_epoch := ss_document_epoch s;
              rn_observation := ss_observation_revision s; rn_phase := P_INTENT_RECORDED; rn_trigger := None; rn_next_attempt := 1; rn_outcome := JNull; rn_created := created; rn_version := 1 |} in
  _ ← throw_if (is_some (b_runs d !! id) || existsb (fun '(_, x) => String.eqb (rn_session x) sessionId && String.eqb (rn_operation x) (hc_logicalOperationId c)) (map_to_list (b_runs d))) (PgError "23505");
  Ok (run_output c [] id r, set_runs (<[id := r]> (b_runs d)) d).
Definition run_of (id : string) (d : browser_db) : result run_row := or_throw (b_runs d !! id) (DomainErr "BROWSER_TARGET_MISSING" "Browser action does not exist").
Definition put_run (id : string) (r : run_row) (d : browser_db) : browser_db := set_runs (<[id := r]> (b_runs d)) d.
Definition put_attempt (id : string) (a : attempt_row) (d : browser_db) : browser_db := set_attempts (<[id := a]> (b_attempts d)) d.
Definition put_session (id : string) (s : browser_session) (d : browser_db) : browser_db := set_sessions (<[id := s]> (b_sessions d)) d.
Definition is_object (j : option json) : bool := match j with Some (JObj _) | Some (JArr _) => true | _ => false end.
(** [browser.action.dispatchPhase] *)
Definition action_dispatch_phase c (d : browser_db) : result (json * browser_db) :=
  id ← requireTarget c;
  r ← run_of id d;
  _ ← check_version c (rn_version r);
  phase ← or_throw (List.find (fun p => String.eqb (dispatch_phase_name p) (match argument c "phase" with Some j => to_text j | None => "undefined" end)) browserDispatchPhases)
            (DomainErr "BROWSER_ACTIONABILITY_FAILED" "Browser dispatch phase is not in the canonical phase set");
  _ ← throw_if (negb (is_object (argument c "evidence"))) (DomainErr "BROWSER_CHALLENGE_REQUIRED" "Every browser dispatch phase requires typed adapter evidence");
  a ← or_throw (latest_attempt id d) (DomainErr "BROWSER_ACTIONABILITY_FAILED" "Browser action has no persisted attempt");
  let lastPhase := last (at_events (snd a)) in
  _ ← throw_if (match lastPhase with Some p => dispatch_order phase <? dispatch_order p | None => false end) (DomainErr "BROWSER_RECOVERY_UNKNOWN" "Browser dispatch phase is not monotonic");
  if bool_decide (lastPhase = Some phase) then Ok (run_output c [("duplicate", JBool true); ("phase", JStr (dispatch_phase_name phase))] id r, d)
  else
    let d := put_attempt (fst a) (append_events [phase] (snd a)) d in
    let trigger := if bool_decide (action_phase_of phase = P_POSSIBLE_EFFECT)
                   then Some (match nullish (argument c "mutationTrigger") None with Some j => to_text j | None => dispatch_phase_name phase end) else rn_trigger r in
    let r := move_run (action_phase_of phase) trigger (rn_outcome r) (rn_next_attempt r) r in
    Ok (run_output c [("phase", JStr (dispatch_phase_name phase)); ("evidence", or_null (argument c "evidence"))] id r, put_run id r d).
Inductive outcome_operation := O_CANCEL | O_COMPLETE | O_FAIL | O_RESOLVE.
#[export] Instance outcome_operation_eq_dec : EqDecision outcome_operation.
Proof. solve_decision. Defined.
Definition reconciliation_required : exn := DomainErr "BROWSER_RECONCILIATION_REQUIRED" "Independent read-back is required for reconciliation".
Definition phase_text (p : action_phase) : string := match p with P_CONFIRMED_APPLIED => "CONFIRMED_APPLIED" | P_CONFIRMED_NOT_APPLIED => "CONFIRMED_NOT_APPLIED" | P_UNKNOWN => "UNKNOWN" | _ => "FAILED_FINAL" end.
(** The phase that an operation leads to; a text that is no phase is a failure. *)
Definition outcome_phase (op : outcome_operation) c : action_phase :=
  match op with
  | O_CANCEL => P_CONFIRMED_NOT_APPLIED
  | O_FAIL => P_FAILED_FINAL
  | O_COMPLETE => P_CONFIRMED_APPLIED
  | O_RESOLVE =>
      let s := match argument c "outcome" with Some j => to_text j | None => "undefined" end in
      if String.eqb s "CONFIRMED_APPLIED" then P_CONFIRMED_APPLIED else if String.eqb s "CONFIRMED_NOT_APPLIED" then P_CONFIRMED_NOT_APPLIED
      else if String.eqb s "UNKNOWN" then P_UNKNOWN else P_FAILED_FINAL
  end.
Definition fail_session (s : browser_session) : browser_session :=
  {| ss_lifecycle := "FAILED"; ss_holder := "NONE"; ss_control_epoch := ss_control_epoch s; ss_control_expires := ss_control_expires s; ss_context_generation := ss_context_generation s;
     ss_page_generation := ss_page_generation s; ss_page := ss_page s; ss_frame := ss_frame s; ss_document_epoch := ss_document_epoch s; ss_observation_revision := ss_observation_revision s;
     ss_scope := ss_scope s; ss_bound_origins := ss_bound_origins s; ss_host := ss_host s; ss_next_action_fence := ss_next_action_fence s; ss_version := ss_version s + 1 |}.
(** [browser.action.cancel], [.complete], [.fail], [.resolveOutcome] *)
Definition action_outcome (op : outcome_operation) c (d : browser_db) : result (json * browser_db) :=
  id ← requireTarget c;
  r ← run_of id d;
  _ ← check_version c (rn_version r);
  _ ← throw_if (bool_decide (op = O_CANCEL) && bool_decide (rn_phase r ∈ [P_POSSIBLE_EFFECT; P_RECONCILING; P_UNKNOWN])) reconciliation_required;
  _ ← throw_if (bool_decide (op = O_COMPLETE) && negb (bool_decide (rn_phase r = P_CONFIRMED_APPLIED))) (DomainErr "BROWSER_POSTCONDITION_FAILED" "Action completion requires an independently reconciled applied outcome");
  _ ← throw_if (bool_decide (op = O_RESOLVE) && negb (match argument c "readBack" with Some j => js_truthy j | None => false end)) reconciliation_required;
  let phase := outcome_phase op c in
  let outcome := if bool_decide (op = O_FAIL) then default (JObj []) (nullish (argument c "error") None)
                 else JObj [("classification", JStr (phase_text phase)); ("readBack", or_null (argument c "readBack"))] in
  let r := with_outcome phase outcome r in
  let d := put_run id r d in
  let d := match phase with
           | P_UNKNOWN => match b_sessions d !! rn_session r with Some s => put_session (rn_session r) (fail_session s) d | None => d end
           | P_CONFIRMED_APPLIED | P_CONFIRMED_NOT_APPLIED =>
               match latest_attempt id d with Some a => put_attempt (fst a) (classify_attempt false (Some (phase_text phase)) (or_null (argument c "readBack")) (snd a)) d | None => d end
           | _ => d
           end in
  Ok (run_output c [] id r, d).

(** *** Reconciliation *)

(** [new URL(a).href === new URL(b).href]; both must parse. *)
Definition same_url (a b : string) : result bool :=
  x ← or_throw (url_parse a) (JsError "ERR_INVALID_URL"); y ← or_throw (url_parse b) (JsError "ERR_INVALID_URL"); Ok (String.eqb (href x) (href y)).
(** [String(value)] *)
Definition js_String (j : option json) : string := match j with Some j => to_text j | None => "undefined" end.
Definition identity_current (identity : list (string * json)) (sessionId : string) (s : browser_session) : result bool :=
  let texts := String.eqb (js_String (get_prop "sessionId" identity)) sessionId && String.eqb (js_String (get_prop "pageId" identity)) (default "null" (ss_page s))
               && String.eqb (js_String (get_prop "frameId" identity)) (default "null" (ss_frame s)) in
  if texts then
    e ← or_throw (StringToBigInt (to_text (default (JNum (-1)) (nullish (get_prop "documentEpoch" identity) None)))) (JsError "SyntaxError");
    Ok (e =? ss_document_epoch s)
  else Ok false.
Definition open_phases : list action_phase := [P_RECONCILING; P_POSSIBLE_EFFECT; P_OUTCOME_OBSERVED; P_UNKNOWN].
(** What the evidence shows; a later rule overrides an earlier one. *)
Definition derive_outcome (id : string) (r : run_row) (independent : bool) (evidence : list (string * json)) (d : browser_db) : result action_phase :=
  let payload := fields (Some (rn_payload r)) in
  navigated ← (if independent && String.eqb (rn_action r) "NAVIGATE" then
                 match get_prop "url" payload, get_prop "url" evidence with Some (JStr a), Some (JStr b) => same_url a b | _, _ => Ok false end
               else Ok false);
  let uploaded := independent && String.eqb (rn_action r) "UPLOAD" &&
    match get_prop "uploadHandleId" payload with
    | Some (JStr u) => match b_uploads d !! u with Some x => String.eqb (up_session x) (rn_session r) && up_consumed x | None => false end
    | _ => false
    end in
  let downloaded := independent && String.eqb (rn_action r) "DOWNLOAD" &&
    match List.find (fun x => String.eqb (dl_action x) id && String.eqb (dl_session x) (rn_session r)) (b_downloads d) with
    | Some x => String.eqb (dl_state x) "COMPLETED" && is_true (field "verified" (dl_verification x)) && is_some (dl_storage x)
    | None => false
    end in
  let challenged := independent && includes (rn_action r) ["CHALLENGE"; "DIALOG"; "PERMISSION"] &&
    existsb (fun x => String.eqb (cl_session x) (rn_session r) && String.eqb (cl_status x) "PENDING" && (rn_created r <=? cl_created x)) (b_challenges d) in
  let observed := independent && String.eqb (rn_action r) "OBSERVE" in
  Ok (if challenged then P_CONFIRMED_NOT_APPLIED else if downloaded || uploaded then P_CONFIRMED_APPLIED else if observed then P_CONFIRMED_NOT_APPLIED
      else if (navigated : bool) then P_CONFIRMED_APPLIED else P_UNKNOWN).
(** [handleBrowserActionReconcile] *)
Definition handleBrowserActionReconcile c (d : browser_db) : result (json * browser_db) :=
  id ← target c;
  r ← or_throw (b_runs d !! id) (not_found "Browser action does not exist");
  _ ← assertVersion c (rn_version r);
  let readBack := objectArg (argument c "readBack") [] in
  s ← or_throw (b_sessions d !! rn_session r) (not_found "Browser session does not exist");
  let evidence := fields (field "evidence" readBack) in
  let identity := fields (field "identity" readBack) in
  let digestValid := is_text (Digest.canonicalDigest (jsonSafe (match field "evidence" readBack with Some (JArr l) => JArr l | _ => JObj evidence end))) (field "digest" readBack) in
  current ← identity_current identity (rn_session r) s;
  outcome ← derive_outcome id r (is_text "INDEPENDENT_HOST_OBSERVE" (field "oracle" readBack) && digestValid && current) evidence d;
  _ ← throw_if (is_some (argument c "outcome")) reconciliation_required;
  _ ← throw_if (negb (bool_decide (rn_phase r ∈ open_phases))) version_conflict;
  let r := with_outcome outcome (JObj [("readBack", readBack); ("derived", JBool true)]) r in
  let d := put_run id r d in
  let d := match latest_attempt id d with Some a => put_attempt (fst a) (classify_attempt false (Some (phase_text outcome)) readBack (snd a)) d | None => d end in
  Ok (handler_result c "browser_action_run" (run_json id r) (Some (rn_version r)) [("outcome", JStr (phase_text outcome))], d).

(** ** The session service *)

(** [ActionIntent], without the parts that only the host reads *)
Record ActionIntent := {
  in_action : string; in_attempt : string; in_session : string; in_identity : Identity; in_lease : string; in_token : Z; in_fence : Z; in_name : BrowserActionName; in_locator : option json;
  in_payload : json; in_origins : list string; in_upload : option string;
}.
(** The join of [prepareAction] *)
Definition candidate (id : string) (d : browser_db) : option (run_row * browser_session * (string * lease_row)) :=
  r ← b_runs d !! id;
  s ← b_sessions d !! rn_session r;
  h ← ss_host s;
  l ← b_leases d !! h;
  if bool_decide (rn_phase r = P_INTENT_RECORDED) && includes (ss_lifecycle s) ["READY"; "ACTIVE"] && String.eqb (le_state l) "ATTACHED" && negb (le_released l)
  then Some (r, s, (h, l)) else None.
Definition named_action (s : string) : option BrowserActionName := List.find (fun a => String.eqb (action_name a) s) browserActionNames.
Definition string_items (j : option json) : list string := match j with Some (JArr l) => omap (fun j => match j with JStr s => Some s | _ => None end) l | _ => [] end.
Definition allowed_origins (s : browser_session) : list string :=
  rev (nodup string_dec (rev (string_items (Some (ss_bound_origins s)) ++ string_items (get_prop "allowedOrigins" (fields (Some (ss_scope s))))))).
Definition find_upload (now : Z) (r : run_row) (d : browser_db) : option (string * upload_row) :=
  j ← get_prop "uploadHandleId" (fields (Some (rn_payload r)));
  x ← b_uploads d !! to_text j;
  if String.eqb (up_session x) (rn_session r) && negb (up_consumed x) && negb (up_cleaned x) && (now <? up_expires x) then Some (to_text j, x) else None.
(** The part of an upload *)
Definition check_upload (now : Z) (r : run_row) (target : option string) (locator : option json) (d : browser_db) : result (option string) :=
  u ← or_throw (find_upload now r d) (JsError "BROWSER_UPLOAD_EXPIRED");
  _ ← throw_if (negb (bool_decide (up_digest u.2 = up_artifact_digest u.2)) || negb (up_size u.2 =? up_artifact_size u.2)) (JsError "BROWSER_UPLOAD_ARTIFACT_MISMATCH");
  let policy := fields (Some (up_policy u.2)) in
  _ ← throw_if (match get_prop "locatorKind" policy with Some (JStr k) => negb (String.eqb (js_String (match locator with Some j => field "kind" j | None => None end)) k) | _ => false end)
        (JsError "BROWSER_UPLOAD_TARGET_POLICY_DENIED");
  _ ← throw_if (match get_prop "allowedTargetReferenceIds" policy with Some (JArr l) => negb (existsb (fun j => is_text (default "undefined" target) (Some j)) l) | _ => false end)
        (JsError "BROWSER_UPLOAD_TARGET_POLICY_DENIED");
  Ok (Some u.1).
Definition possible_effect (a : BrowserActionName) : bool := match bd_effect (browserActionRegistry a) with READ_ONLY | OWNER_CHALLENGE => false | _ => true end.
Definition lease_identity_current (i : Identity) (s : browser_session) : bool :=
  (contextGeneration i =? ss_context_generation s) && (pageGeneration i =? ss_page_generation s) && String.eqb (pageId i) (default "null" (ss_page s))
  && String.eqb (frameId i) (default "null" (ss_frame s)) && (documentEpoch i =? ss_document_epoch s).
Definition advance_fence (s : browser_session) : browser_session :=
  {| ss_lifecycle := ss_lifecycle s; ss_holder := ss_holder s; ss_control_epoch := ss_control_epoch s; ss_control_expires := ss_control_expires s; ss_context_generation := ss_context_generation s;
     ss_page_generation := ss_page_generation s; ss_page := ss_page s; ss_frame := ss_frame s; ss_document_epoch := ss_document_epoch s; ss_observation_revision := ss_observation_revision s;
     ss_scope := ss_scope s; ss_bound_origins := ss_bound_origins s; ss_host := ss_host s; ss_next_action_fence := ss_next_action_fence s + 1; ss_version := ss_version s + 1 |}.
Definition renew_lease (expires : Z) (l : lease_row) : lease_row :=
  {| le_state := le_state l; le_released := le_released l; le_token := le_token l; le_expires := expires; le_identity := le_identity l |}.
(** The fences of a run against its session *)
Definition fences_current (r : run_row) (s : browser_session) : bool :=
  (rn_control_epoch r =? ss_control_epoch s) && (rn_document_epoch r =? ss_document_epoch s) && (rn_observation r =? ss_observation_revision s).
Definition control_current (now : Z) (s : browser_session) : bool := match ss_control_expires s with Some e => now <? e | None => false end && includes (ss_holder s) control_holders.
(** [prepareAction]: T1, for the run that the query chose *)
Definition prepareAction (now : Z) (attemptId id : string) (d : browser_db) : result (ActionIntent * browser_db) :=
  x ← or_throw (candidate id d) (JsError "no candidate");
  let r := x.1.1 in let s := x.1.2 in let h := x.2.1 in let l := x.2.2 in
  _ ← throw_if (negb (control_current now s)) (JsError "BROWSER_CONTROL_LEASE_STALE");
  _ ← throw_if (negb (fences_current r s)) (JsError "BROWSER_ACTION_FENCE_STALE");
  name ← or_throw (named_action (rn_action r)) (JsError "BROWSER_ACTION_UNREGISTERED");
  let reference : option (string * reference_row) := t ← rn_target r; f ← b_references d !! t; (if String.eqb (rf_session f) (rn_session r) then Some (t, f) else None) in
  let locator := match reference with Some (_, f) => if is_object (Some (rf_locator f)) then Some (rf_locator f) else None | None => None end in
  descriptor ← validateBrowserActionDescriptor name (fst <$> reference) (fields (Some (rn_payload r)));
  let identity := le_identity l in
  _ ← throw_if (negb (lease_identity_current identity s)) (JsError "BROWSER_HOST_IDENTITY_STALE");
  let origins := allowed_origins s in
  _ ← throw_if (bool_decide (origins = [])) (JsError "BROWSER_ALLOWED_ORIGINS_REQUIRED");
  upload ← (if bool_decide (name = UPLOAD) then check_upload now r (fst <$> reference) locator d else Ok None);
  let fence := ss_next_action_fence s in
  _ ← throw_if (is_some (b_attempts d !! attemptId)
        || existsb (fun '(_, a) => (String.eqb (at_run a) id && (at_number a =? rn_next_attempt r)) || String.eqb (at_command a) (rn_operation r) || (String.eqb (at_lease a) h && (at_fence a =? fence)))
             (map_to_list (b_attempts d))) (PgError "23505");
  let effect := possible_effect name in
  let events := [E_COMMAND_ACCEPTED] ++ (if reference is Some _ then [E_TARGET_RESOLVED] else []) ++ [E_ACTIONABILITY_PASSED; E_INPUT_SEQUENCE_STARTED]
                ++ (if effect then [E_MUTATION_TRIGGER_POSSIBLY_ISSUED] else []) in
  let a := {| at_run := id; at_number := rn_next_attempt r; at_command := rn_operation r; at_fence := fence; at_lease := h; at_token := le_token l; at_identity := identity; at_events := events;
              at_t2 := false; at_classification := None; at_readback := JNull; at_failed := false |} in
  let d := put_session (rn_session r) (advance_fence s) d in
  let d := set_leases (<[h := renew_lease (now + 30000) l]> (b_leases d)) d in
  let d := put_attempt attemptId a d in
  let d := put_run id (move_run (if effect then P_POSSIBLE_EFFECT else P_DISPATCH_AUTHORIZED) (if effect then Some "BEFORE_ADAPTER_DISPATCH" else rn_trigger r) (rn_outcome r)
                         (rn_next_attempt r + 1) r) d in
  Ok ({| in_action := id; in_attempt := attemptId; in_session := rn_session r; in_identity := identity; in_lease := h; in_token := le_token l; in_fence := fence; in_name := name;
         in_locator := locator; in_payload := rn_payload r; in_origins := origins; in_upload := upload |}, d).

(** *** After the answer of the host *)

Definition hex_text (n : nat) (s : string) : bool := (String.length s =? n)%nat && str_forallb is_hex s.
Definition storage_reference (j : option json) : bool :=
  match j with Some (JStr s) => String.prefix "artifact:sha256:" s && hex_text 64 (String.substring 16 (String.length s - 16) s) | _ => false end.
Definition content_digest (j : option json) : bool := match j with Some (JStr s) => String.prefix "sha256:" s && hex_text 64 (String.substring 7 (String.length s - 7) s) | _ => false end.
Definition is_string (j : option json) : bool := match j with Some (JStr _) => true | _ => false end.
Definition byte_count (j : option json) : bool := match j with Some (JNum n) => 0 <=? n | _ => false end.
Definition artifact_ok (l : list (string * json)) : bool :=
  storage_reference (get_prop "storageReference" l) && content_digest (get_prop "contentDigest" l) && byte_count (get_prop "sizeBytes" l) && is_string (get_prop "mimeType" l).
(** The screenshot of an observation *)
Definition screenshot_ok (observation : json) : bool := match field "screenshotCandidate" observation with Some (JObj l) => artifact_ok l | Some (JArr _) => false | _ => true end.
(** [downloadCandidate] *)
Definition download_ok (j : option json) : bool :=
  match nullish j None with
  | None => true
  | Some (JObj l) => artifact_ok l && forallb (fun k => is_string (get_prop k l)) ["downloadId"; "artifactId"; "safeName"; "sourceUrl"; "sourceOrigin"]
  | Some _ => false
  end.
(** [challengeCandidate] *)
Definition challenge_ok (evidence : list (string * json)) : bool :=
  negb (is_true (get_prop "challengeRequired" evidence))
  || is_string (get_prop "challengeType" evidence) && is_string (get_prop "safePrompt" evidence)
     && match get_prop "allowedResolutionMethods" evidence with Some (JArr l) => forallb (fun j => is_string (Some j)) l | _ => false end.
Definition observe_session (epoch revision : Z) (s : browser_session) : browser_session :=
  {| ss_lifecycle := ss_lifecycle s; ss_holder := ss_holder s; ss_control_epoch := ss_control_epoch s; ss_control_expires := ss_control_expires s; ss_context_generation := ss_context_generation s;
     ss_page_generation := ss_page_generation s; ss_page := ss_page s; ss_frame := ss_frame s; ss_document_epoch := epoch; ss_observation_revision := revision;
     ss_scope := ss_scope s; ss_bound_origins := ss_bound_origins s; ss_host := ss_host s; ss_next_action_fence := ss_next_action_fence s; ss_version := ss_version s + 1 |}.
Definition next_document (documentId : string) (i : Identity) : Identity :=
  {| hostGeneration := hostGeneration i; contextGeneration := contextGeneration i; pageId := pageId i; pageGeneration := pageGeneration i; frameId := frameId i; documentId := documentId;
     documentEpoch := documentEpoch i + 1 |}.
Definition set_identity (i : Identity) (l : lease_row) : lease_row :=
  {| le_state := le_state l; le_released := le_released l; le_token := le_token l; le_expires := le_expires l; le_identity := i |}.
(** What an observation changes, when there is one *)
Definition record_observation (i : ActionIntent) (documentId : string) (pages : result unit) (observation : json) (s : browser_session) (d : browser_db) : result browser_db :=
  _ ← (if bool_decide (in_name i = NAVIGATE) then
         _ ← or_throw (url_parse (js_String (field "url" observation))) (JsError "ERR_INVALID_URL"); Ok tt
       else Ok tt);
  _ ← pages;
  let identity := if bool_decide (in_name i = NAVIGATE) then next_document documentId (in_identity i) else in_identity i in
  let d := if bool_decide (in_name i = NAVIGATE) then set_leases (alter (set_identity identity) (in_lease i) (b_leases d)) d else d in
  _ ← throw_if (negb (screenshot_ok observation)) (JsError "BROWSER_SCREENSHOT_ARTIFACT_INVALID");
  Ok (put_session (in_session i) (observe_session (documentEpoch identity) (ss_observation_revision s + 1) s) d).
(** [commitAction]: T2 *)
Definition commitAction (i : ActionIntent) (documentId : string) (pages : result unit) (evidence : list (string * json)) (d : browser_db) : result browser_db :=
  let stale := JsError "BROWSER_ACTION_T2_STALE" in
  a ← or_throw (b_attempts d !! in_attempt i) stale;
  r ← or_throw (b_runs d !! at_run a) stale;
  s ← or_throw (b_sessions d !! rn_session r) stale;
  _ ← throw_if (negb (bool_decide (rn_phase r ∈ [P_DISPATCH_AUTHORIZED; P_POSSIBLE_EFFECT])) || negb (at_fence a =? in_fence i)) stale;
  let observation := match get_prop "observation" evidence with Some (JObj l) => Some (JObj l) | Some (JArr l) => Some (JArr l) | _ => None end in
  d ← match observation with Some o => record_observation i documentId pages o s d | None => Ok d end;
  let terminal := if bool_decide (in_name i = OBSERVE) then P_CONFIRMED_NOT_APPLIED else P_RECONCILING in
  let a := append_events (E_METHOD_RETURNED :: match observation with Some _ => [E_POST_OBSERVATION_CAPTURED] | None => [] end) a in
  let d := put_attempt (in_attempt i) (classify_attempt true (Some (if bool_decide (terminal = P_RECONCILING) then "RECONCILING" else "CONFIRMED_NOT_APPLIED")) (default JNull observation) a) d in
  let d := match b_runs d !! in_action i with Some r => put_run (in_action i) (with_outcome terminal (JObj [("evidence", JObj evidence)]) r) d | None => d end in
  _ ← throw_if (negb (download_ok (get_prop "downloadCandidate" evidence))) (JsError "BROWSER_DOWNLOAD_ARTIFACT_INVALID");
  _ ← throw_if (negb (challenge_ok evidence)) (JsError "BROWSER_CHALLENGE_EVIDENCE_INVALID");
  Ok d.
(** [failAction] *)
Definition failAction (i : ActionIntent) (message : string) (d : browser_db) : browser_db :=
  let d := match b_attempts d !! in_attempt i with Some a => if at_t2 a then d else put_attempt (in_attempt i) (fail_attempt a) d | None => d end in
  match b_runs d !! in_action i with
  | Some r => if bool_decide (rn_phase r ∈ [P_DISPATCH_AUTHORIZED; P_POSSIBLE_EFFECT])
              then put_run (in_action i) (with_outcome P_UNKNOWN (JObj [("code", JStr "BROWSER_ACTION_EFFECT_AMBIGUOUS"); ("message", JStr message)]) r) d else d
  | None => d
  end.

(** ** What the caller is told *)

(** [ActionOutcome] *)
Record ActionOutcome := { ao_phase : action_phase; ao_possibleSideEffect : bool; ao_retryAllowed : bool }.
Definition TERMINAL_ACTION_PHASES : list action_phase := [P_CONFIRMED_APPLIED; P_CONFIRMED_NOT_APPLIED; P_FAILED_FINAL; P_UNKNOWN].
(** The columns of [kcml.browser_action_attempt] after the baseline and every migration *)
Definition browser_action_attempt_columns : list string :=
  ["id"; "parent_id"; "stable_key"; "display_name"; "lifecycle"; "action_run_id"; "attempt"; "command_id"; "action_fence"; "browser_identity_snapshot"; "resolved_target_candidates";
   "chosen_target_digest"; "actionability_evidence"; "trial_evidence"; "force_evidence"; "input_strategy"; "prearmed_waiters"; "method_outcome"; "navigation_outcome"; "popup_outcome";
   "dialog_outcome"; "permission_outcome"; "filechooser_outcome"; "download_outcome"; "postcondition"; "readback"; "evidence"; "started_at"; "ended_at"; "error"; "canonical_digest";
   "logical_operation_id"; "correlation_id"; "created_at"; "updated_at"; "state_version"; "activation_epoch"; "platform_incarnation_id"; "application_deployment_epoch"; "deleted_at";
   "dispatch_worker_id"; "dispatch_lease_id"; "dispatch_lease_fencing_token"; "dispatch_lease_expires_at"; "t1_committed_at"; "adapter_response_digest"; "mutation_trigger_observed_at";
   "t2_committed_at"; "effect_commands_admitted_at"].
(** The columns of it that the query of [waitForActionOutcome] names *)
Definition attempt_columns_read : list string := ["id"; "attempt"; "dispatch_phase"; "t1_committed_at"; "t2_committed_at"; "readback"; "postcondition"; "action_run_id"].
(** One round, against a table with the given columns: PostgreSQL refuses a query that names another one (undefined_column). *)
Definition action_outcome_of (columns : list string) (id : string) (d : browser_db) : result (option ActionOutcome) :=
  _ ← throw_if (negb (forallb (fun x => includes x columns) attempt_columns_read)) (PgError "42703");
  r ← or_throw (b_runs d !! id) (not_found "Browser action aggregate disappeared");
  Ok (if bool_decide (rn_phase r ∈ TERMINAL_ACTION_PHASES)
      then Some {| ao_phase := rn_phase r; ao_possibleSideEffect := bool_decide (rn_phase r ∈ [P_CONFIRMED_APPLIED; P_UNKNOWN]) || is_some (rn_trigger r);
                   ao_retryAllowed := bool_decide (rn_phase r = P_CONFIRMED_NOT_APPLIED) |}
      else None).
Definition deadline_outcome : ActionOutcome := {| ao_phase := P_UNKNOWN; ao_possibleSideEffect := true; ao_retryAllowed := false |}.
(** The rounds until the deadline, each against the database as it is then *)
Fixpoint waitForActionOutcome (columns : list string) (id : string) (rounds : list browser_db) : result ActionOutcome :=
  match rounds with
  | [] => Ok deadline_outcome
  | d :: rounds => o ← action_outcome_of columns id d; match o with Some o => Ok o | None => waitForActionOutcome columns id rounds end
  end.
(** The identifier that [waitForActionId] reads from the output of a command *)
Definition action_id_of (output : json) : option string := match field "value" output with Some (JObj l) => match get_prop "id" l with Some (JStr s) => Some s | _ => None end | _ => None end.
End Browser.

(** ** Handlers, services, hosts and crashes in any order *)

(** Where [dispatchOne] is with its intent *)
Inductive dispatch_state := D_PREPARED | D_SENT | D_FAILING.
(** An [ACTION] request that left for the host *)
Record host_request := { hr_action : string; hr_attempt : string; hr_session : string; hr_fence : Z; hr_name : BrowserActionName }.
Definition request_of (i : ActionIntent) : host_request :=
  {| hr_action := in_action i; hr_attempt := in_attempt i; hr_session := in_session i; hr_fence := in_fence i; hr_name := in_name i |}.

Section System.
Context `{L : Locale} `{H : Hash} `{U : UrlParser}.

Record action_system := ASys { as_db : browser_db; as_flights : list (ActionIntent * dispatch_state); as_host : list host_request }.
(** The handlers of the operations on an action *)
Inductive action_call := C_START (id : string) (created : Z) | C_PHASE | C_OUTCOME (op : outcome_operation) | C_RECONCILE.
Definition run_call (k : action_call) (c : CanonicalHandlerContext) (d : browser_db) : result (json * browser_db) :=
  match k with
  | C_START id created => action_start c id created d
  | C_PHASE => action_dispatch_phase c d
  | C_OUTCOME op => action_outcome op c d
  | C_RECONCILE => handleBrowserActionReconcile c d
  end.
(** What others may do: anything to the other tables, but a session keeps existing and its fences are not given out again *)
Record others (d d' : browser_db) : Prop := {
  ot_runs : b_runs d' = b_runs d; ot_attempts : b_attempts d' = b_attempts d;
  ot_sessions : forall id s, b_sessions d !! id = Some s -> exists s', b_sessions d' !! id = Some s' /\ ss_next_action_fence s <= ss_next_action_fence s';
}.
Inductive astep : action_system -> action_system -> Prop :=
| as_call k c d fl h j d' : run_call k c d = Ok (j, d') -> astep (ASys d fl h) (ASys d' fl h)
| as_prepare now attempt id d fl h i d' : prepareAction now attempt id d = Ok (i, d') -> astep (ASys d fl h) (ASys d' ((i, D_PREPARED) :: fl) h)
| as_send d fl1 i fl2 h : astep (ASys d (fl1 ++ (i, D_PREPARED) :: fl2) h) (ASys d (fl1 ++ (i, D_SENT) :: fl2) (h ++ [request_of i]))
| as_commit d fl1 i fl2 h document pages evidence d' rest : commitAction i document pages evidence d = Ok d' ->
    (** the service is done, or goes on to fail after its commit *)
    rest = [] \/ rest = [(i, D_FAILING)] -> astep (ASys d (fl1 ++ (i, D_SENT) :: fl2) h) (ASys d' (fl1 ++ rest ++ fl2) h)
| as_refused d fl1 i st fl2 h : astep (ASys d (fl1 ++ (i, st) :: fl2) h) (ASys d (fl1 ++ (i, D_FAILING) :: fl2) h)
| as_failed d fl1 i fl2 h message : astep (ASys d (fl1 ++ (i, D_FAILING) :: fl2) h) (ASys (failAction i message d) (fl1 ++ fl2) h)
| as_crash d fl1 f fl2 h : astep (ASys d (fl1 ++ f :: fl2) h) (ASys d (fl1 ++ fl2) h)
| as_others d d' fl h : others d d' -> astep (ASys d fl h) (ASys d' fl h).
Definition action_initial (s : action_system) : Prop := b_runs (as_db s) = ∅ /\ b_attempts (as_db s) = ∅ /\ as_flights s = [] /\ as_host s = [].
Definition action_reachable (s : action_system) : Prop := exists s0, action_initial s0 /\ star astep s0 s.

(** ** The invariant *)

(** The events of an attempt start with the four of its preparation, or with those of a later order. *)
Definition dispatched_events (l : list dispatch_phase) : Prop := exists p, last l = Some p /\ 4 <= dispatch_order p.
Definition before_dispatch : list action_phase := [P_INTENT_RECORDED; P_TARGET_RESOLVED; P_PRECONDITION_VERIFIED].
Definition fence_below (d : browser_db) (session : string) (fence : Z) : Prop := exists s, b_sessions d !! session = Some s /\ fence < ss_next_action_fence s.
(** An attempt and its run; the run names the action that the host is sent *)
Record attempt_ok (d : browser_db) (i : string) (a : attempt_row) (r : run_row) : Prop := {
  ao_run : b_runs d !! at_run a = Some r;
  ao_dispatched : rn_phase r ∉ before_dispatch;
  ao_events : dispatched_events (at_events a);
  ao_named : exists name, named_action (rn_action r) = Some name /\ (possible_effect name = true -> is_Some (rn_trigger r));
  ao_fence : fence_below d (rn_session r) (at_fence a);
}.
Record db_inv (d : browser_db) : Prop := {
  di_attempt : forall i a, b_attempts d !! i = Some a -> exists r, attempt_ok d i a r;
  di_single : forall i j a b, b_attempts d !! i = Some a -> b_attempts d !! j = Some b -> at_run a = at_run b -> i = j;
  di_fences : forall i j a b r q, b_attempts d !! i = Some a -> b_attempts d !! j = Some b -> b_runs d !! at_run a = Some r -> b_runs d !! at_run b = Some q ->
    rn_session r = rn_session q -> at_fence a = at_fence b -> i = j;
}.
(** A request or an intent stands for its attempt. *)
Definition stands_for (d : browser_db) (q : host_request) : Prop := exists a r, b_attempts d !! hr_attempt q = Some a /\ at_run a = hr_action q /\ at_fence a = hr_fence q /\
  b_runs d !! hr_action q = Some r /\ rn_session r = hr_session q /\ named_action (rn_action r) = Some (hr_name q).
Record action_inv (s : action_system) : Prop := {
  ai_db : db_inv (as_db s);
  ai_flights : Forall (fun f => stands_for (as_db s) (request_of f.1)) (as_flights s);
  ai_host : Forall (stands_for (as_db s)) (as_host s);
  ai_attempts : NoDup (map (in_attempt ∘ fst) (as_flights s));
  ai_once : NoDup (map hr_attempt (as_host s));
  ai_unsent : forall i, In (i, D_PREPARED) (as_flights s) -> in_attempt i ∉ map hr_attempt (as_host s);
}.

(** ** Theory *)

Record attempt_kept (a a' : attempt_row) : Prop := { ak_run : at_run a' = at_run a; ak_fence : at_fence a' = at_fence a; ak_events : dispatched_events (at_events a) -> dispatched_events (at_events a') }.
Record run_kept (r r' : run_row) : Prop := {
  rk_session : rn_session r' = rn_session r; rk_action : rn_action r' = rn_action r; rk_trigger : is_Some (rn_trigger r) -> is_Some (rn_trigger r');
  rk_phase : rn_phase r ∉ before_dispatch -> rn_phase r' ∉ before_dispatch;
}.
(** Everything but a preparation changes the tables in this way. *)
Record evolves (d d' : browser_db) : Prop := {
  ev_attempts : forall i a, b_attempts d !! i = Some a -> exists a', b_attempts d' !! i = Some a' /\ attempt_kept a a';
  ev_no_attempt : forall i, b_attempts d !! i = None -> b_attempts d' !! i = None;
  ev_runs : forall id r, b_runs d !! id = Some r -> exists r', b_runs d' !! id = Some r' /\ run_kept r r';
  ev_sessions : forall id s, b_sessions d !! id = Some s -> exists s', b_sessions d' !! id = Some s' /\ ss_next_action_fence s <= ss_next_action_fence s';
}.
Lemma attempt_kept_refl a : attempt_kept a a. Proof. by split. Qed.
Lemma run_kept_refl r : run_kept r r. Proof. by split. Qed.
Lemma evolves_refl d : evolves d d.
Proof. split; intros ? x Hx || intros i Hi; [exists x; split; [done|apply attempt_kept_refl]|exact Hi|exists x; split; [done|apply run_kept_refl]|exists x; split; [done|lia]]. Qed.
Lemma evolves_trans d1 d2 d3 : evolves d1 d2 -> evolves d2 d3 -> evolves d1 d3.
Proof.
  intros [A1 N1 R1 S1] [A2 N2 R2 S2]. split.
  - intros i a (a2 & Ha & [K1 K2 K3])%A1. destruct (A2 _ _ Ha) as (a3 & Ha3 & [L1 L2 L3]). exists a3. split; [done|]. split; [congruence|congruence|auto].
  - auto.
  - intros i r (r2 & Hr & [K1 K2 K3 K4])%R1. destruct (R2 _ _ Hr) as (r3 & Hr3 & [M1 M2 M3 M4]). exists r3. split; [done|]. split; [congruence|congruence|auto|auto].
  - intros i s (s2 & Hs & Hle)%S1. destruct (S2 _ _ Hs) as (s3 & Hs3 & Hle3). exists s3. split; [done|lia].
Qed.
Lemma insert_kept {A} (R : A -> A -> Prop) (m : gmap string A) k x x' : (forall y, R y y) -> m !! k = Some x -> R x x' ->
  forall i y, m !! i = Some y -> exists y', <[k := x']> m !! i = Some y' /\ R y y'.
Proof.
  intros Hr Hk Hx i y Hi. destruct (decide (k = i)) as [<-|Hn]; [|exists y; by rewrite lookup_insert_ne]. rewrite Hk in Hi. injection Hi as <-. exists x'. by rewrite lookup_insert_eq.
Qed.
Lemma evolves_run d id r r' : b_runs d !! id = Some r -> run_kept r r' -> evolves d (put_run id r' d).
Proof. intros Hr Hk. destruct (evolves_refl d) as [A N R S]. split; try done. cbn. by apply (insert_kept run_kept _ _ r); [apply run_kept_refl|..]. Qed.
Lemma evolves_new_run d id r : b_runs d !! id = None -> evolves d (set_runs (<[id := r]> (b_runs d)) d).
Proof.
  intros Hr. destruct (evolves_refl d) as [A N R S]. split; try done. cbn. intros i x Hx. exists x. split; [|apply run_kept_refl]. destruct (decide (id = i)) as [<-|]; [congruence|by rewrite lookup_insert_ne].
Qed.
Lemma evolves_attempt d i a a' : b_attempts d !! i = Some a -> attempt_kept a a' -> evolves d (put_attempt i a' d).
Proof.
  intros Ha Hk. destruct (evolves_refl d) as [A N R S]. split; try done; cbn.
  - by apply (insert_kept attempt_kept _ _ a); [apply attempt_kept_refl|..].
  - intros j Hj. destruct (decide (i = j)) as [<-|]; [congruence|by rewrite lookup_insert_ne].
Qed.
Lemma evolves_session d id s s' : b_sessions d !! id = Some s -> ss_next_action_fence s <= ss_next_action_fence s' -> evolves d (put_session id s' d).
Proof.
  intros Hs Hle. destruct (evolves_refl d) as [A N R S]. split; try done. cbn.
  by apply (insert_kept (fun s s' => ss_next_action_fence s <= ss_next_action_fence s') _ _ s); [intros; lia|..].
Qed.
Lemma evolves_leases d m : evolves d (set_leases m d).
Proof. destruct (evolves_refl d) as [A N R S]. by split. Qed.
Lemma evolves_others d d' : others d d' -> evolves d d'.
Proof. intros [Hr Ha Hs]. destruct (evolves_refl d) as [A N R S]. split; [by rewrite Ha|by rewrite Ha|by rewrite Hr|done]. Qed.
Lemma attempt_ok_evolves d d' i a a' r r' : evolves d d' -> attempt_ok d i a r -> b_runs d' !! at_run a = Some r' -> attempt_kept a a' -> run_kept r r' -> attempt_ok d' i a' r'.
Proof.
  intros E [O1 O2 O3 (name & Hn & Ht) (s & Hs & Hf)] Hr [K1 K2 K3] [L1 L2 L3 L4]. split; [by rewrite K1|auto|auto| |].
  - exists name. rewrite L2. auto.
  - destruct (ev_sessions _ _ E _ _ Hs) as (s' & Hs' & Hle). exists s'. rewrite L1, K2. split; [done|lia].
Qed.
Lemma evolves_back d d' i a' : evolves d d' -> b_attempts d' !! i = Some a' -> exists a, b_attempts d !! i = Some a /\ attempt_kept a a'.
Proof.
  intros E Ha. destruct (b_attempts d !! i) as [a|] eqn:Hi; [|by rewrite (ev_no_attempt _ _ E _ Hi) in Ha]. destruct (ev_attempts _ _ E _ _ Hi) as (a2 & Ha2 & K). exists a. split; [done|]. congruence.
Qed.
Lemma evolves_inv d d' : db_inv d -> evolves d d' -> db_inv d'.
Proof.
  intros [I1 I2 I3] E. split.
  - intros i a' (a & Ha & K)%(evolves_back _ _ _ _ E). destruct (I1 _ _ Ha) as (r & O). destruct (ev_runs _ _ E _ _ (ao_run _ _ _ _ O)) as (r' & Hr & Kr). exists r'. by eapply attempt_ok_evolves.
  - intros i j a' b' (a & Ha & [Ka1 _ _])%(evolves_back _ _ _ _ E) (b & Hb & [Kb1 _ _])%(evolves_back _ _ _ _ E) Hr. apply (I2 i j a b Ha Hb). congruence.
  - intros i j a' b' r' q' (a & Ha & [Ka1 Ka2 _])%(evolves_back _ _ _ _ E) (b & Hb & [Kb1 Kb2 _])%(evolves_back _ _ _ _ E) Hr Hq Hs Hf.
    destruct (I1 _ _ Ha) as (r & O). destruct (I1 _ _ Hb) as (q & P). destruct (ev_runs _ _ E _ _ (ao_run _ _ _ _ O)) as (r2 & Hr2 & [Kr _ _ _]). destruct (ev_runs _ _ E _ _ (ao_run _ _ _ _ P)) as (q2 & Hq2 & [Kq _ _ _]).
    rewrite Ka1 in Hr. rewrite Kb1 in Hq. apply (I3 i j a b r q Ha Hb (ao_run _ _ _ _ O) (ao_run _ _ _ _ P)); congruence.
Qed.
Lemma evolves_stands d d' q : stands_for d q -> evolves d d' -> stands_for d' q.
Proof.
  intros (a & r & Ha & H1 & H2 & Hr & H3 & H4) E. destruct (ev_attempts _ _ E _ _ Ha) as (a' & Ha' & [K1 K2 _]). destruct (ev_runs _ _ E _ _ Hr) as (r' & Hr' & [L1 L2 _ _]).
  exists a', r'. rewrite K1, K2, L1, L2. done.
Qed.

Lemma latest_attempt_Some run d i a : latest_attempt run d = Some (i, a) -> b_attempts d !! i = Some a /\ at_run a = run.
Proof.
  unfold latest_attempt. destruct (attempts_of run d) as [|x l] eqn:E; [done|]. intros [= Hf].
  assert (G : In (fold_left later_attempt l x) (x :: l)).
  { clear E Hf. revert x. induction l as [|y l IH]; intros x; [by left|]. cbn [fold_left]. unfold later_attempt at 2. destruct (_ <? _); [right; apply IH|]. destruct (IH x) as [E|E]; [by left|right; by right]. }
  rewrite <- E, Hf in G. apply filter_In in G as [Hin Hr]. apply String.eqb_eq in Hr. split; [|exact Hr]. by apply list_elem_of_In, elem_of_map_to_list in Hin.
Qed.
Lemma outcome_kept p outcome r : p ∉ before_dispatch -> run_kept r (with_outcome p outcome r).
Proof. by split. Qed.
Lemma classified_kept t2 k j a : attempt_kept a (classify_attempt t2 k j a).
Proof. by split. Qed.
Lemma evolves_classified run t2 k j d : evolves d (match latest_attempt run d with Some a => put_attempt (fst a) (classify_attempt t2 k j (snd a)) d | None => d end).
Proof. destruct (latest_attempt run d) as [[i a]|] eqn:E; [|apply evolves_refl]. apply latest_attempt_Some in E as [Ha _]. eapply evolves_attempt; [exact Ha|apply classified_kept]. Qed.
Lemma classified_run run t2 k j id r d : match latest_attempt run (put_run id r d) with Some a => put_attempt (fst a) (classify_attempt t2 k j (snd a)) (put_run id r d) | None => put_run id r d end
  = put_run id r (match latest_attempt run d with Some a => put_attempt (fst a) (classify_attempt t2 k j (snd a)) d | None => d end).
Proof. change (latest_attempt run (put_run id r d)) with (latest_attempt run d). by destruct (latest_attempt run d). Qed.
Lemma action_start_evolves c id created d j d' : action_start c id created d = Ok (j, d') -> evolves d d'.
Proof.
  unfold action_start. intros Hs. do 8 (apply bind_Ok_inv in Hs as (? & _ & Hs)). apply bind_Ok_inv in Hs as (? & Hu & [= <- <-]).
  apply throw_if_Ok, orb_false_iff in Hu as [Hu _]. apply evolves_new_run. by destruct (b_runs d !! id).
Qed.
(** What a phase event does: once the action was dispatched it cannot go back before that. *)
Lemma later_phase p q : 4 <= dispatch_order p -> (dispatch_order q <? dispatch_order p) = false -> (action_phase_of q ∉ before_dispatch) /\ 4 <= dispatch_order q.
Proof. intros Hp Hq%Z.ltb_ge. split; [|lia]. destruct q; cbn in *; try lia; unfold before_dispatch; rewrite !elem_of_cons, elem_of_nil; naive_solver. Qed.
Lemma action_phase_evolves c d j d' : db_inv d -> action_dispatch_phase c d = Ok (j, d') -> evolves d d'.
Proof.
  intros I Hs. unfold action_dispatch_phase in Hs. apply bind_Ok_inv in Hs as (id & _ & Hs). apply bind_Ok_inv in Hs as (r & Hr & Hs). do 3 (apply bind_Ok_inv in Hs as (? & _ & Hs)). rename x0 into phase.
  apply bind_Ok_inv in Hs as ([i a] & Ha & Hs). apply or_throw_Ok in Ha, Hr. apply latest_attempt_Some in Ha as [Ha Hrun]. apply bind_Ok_inv in Hs as (? & Hm & Hs). apply throw_if_Ok in Hm. cbn in Hs, Hm.
  case_bool_decide; [injection Hs as _ <-; apply evolves_refl|]. injection Hs as _ <-. destruct (di_attempt _ I _ _ Ha) as (r2 & O).
  assert (r2 = r) as -> by (pose proof (ao_run _ _ _ _ O); congruence). destruct (ao_events _ _ _ _ O) as (p & Hl & Ho). rewrite Hl in Hm. destruct (later_phase _ _ Ho Hm) as [Hb Hq].
  eapply evolves_trans; [eapply evolves_attempt; [exact Ha|]|eapply evolves_run; [exact Hr|]].
  - split; [done|done|]. intros _. exists phase. split; [apply last_snoc|done].
  - split; [done|done| |done]. cbn. case_bool_decide; [by eexists|done].
Qed.
Lemma action_outcome_evolves op c d j d' : action_outcome op c d = Ok (j, d') -> evolves d d'.
Proof.
  intros Hs. unfold action_outcome in Hs. apply bind_Ok_inv in Hs as (id & _ & Hs). apply bind_Ok_inv in Hs as (r & Hr & Hs). do 4 (apply bind_Ok_inv in Hs as (? & _ & Hs)). apply or_throw_Ok in Hr.
  injection Hs as _ <-. assert (Hp : outcome_phase op c ∉ before_dispatch).
  { unfold outcome_phase, before_dispatch. rewrite !elem_of_cons, elem_of_nil. destruct op; [naive_solver..|]. repeat destruct (String.eqb _ _); naive_solver. }
  assert (E : forall o, evolves d (put_run id (with_outcome (outcome_phase op c) o r) d)) by (intros o; eapply evolves_run; [exact Hr|by apply outcome_kept]).
  destruct (outcome_phase op c); try apply E.
  - eapply evolves_trans; [apply E|apply evolves_classified].
  - eapply evolves_trans; [apply E|apply evolves_classified].
  - destruct (b_sessions d !! _) eqn:Es; [|apply E]. eapply evolves_trans; [apply E|]. eapply evolves_session; [exact Es|cbn; lia].
Qed.
Lemma derived_phase id r b evidence d p : derive_outcome id r b evidence d = Ok p -> p ∉ before_dispatch.
Proof.
  unfold derive_outcome, before_dispatch. intros Hd. apply bind_Ok_inv in Hd as (x & _ & [= <-]). rewrite !elem_of_cons, elem_of_nil.
  destruct (b && _ && existsb _ _); [naive_solver|]. destruct (_ || _); [naive_solver|]. destruct (b && _); [naive_solver|]. destruct x; naive_solver.
Qed.
Lemma reconcile_evolves c d j d' : handleBrowserActionReconcile c d = Ok (j, d') -> evolves d d'.
Proof.
  intros Hs. unfold handleBrowserActionReconcile in Hs. apply bind_Ok_inv in Hs as (id & _ & Hs). apply bind_Ok_inv in Hs as (r & Hr & Hs). apply bind_Ok_inv in Hs as (? & _ & Hs).
  apply bind_Ok_inv in Hs as (s & _ & Hs). apply bind_Ok_inv in Hs as (? & _ & Hs). apply bind_Ok_inv in Hs as (outcome & Ho & Hs). do 2 (apply bind_Ok_inv in Hs as (? & _ & Hs)). apply or_throw_Ok in Hr.
  injection Hs as _ <-. eapply evolves_trans; [eapply evolves_run; [exact Hr|by apply outcome_kept; eapply derived_phase]|apply evolves_classified].
Qed.
Lemma run_call_evolves k c d j d' : db_inv d -> run_call k c d = Ok (j, d') -> evolves d d'.
Proof. intros I. destruct k; cbn; [apply action_start_evolves|by apply action_phase_evolves|apply action_outcome_evolves|apply reconcile_evolves]. Qed.
Lemma failAction_evolves i message d : evolves d (failAction i message d).
Proof.
  unfold failAction. eapply evolves_trans with (match b_attempts d !! in_attempt i with Some a => if at_t2 a then d else put_attempt (in_attempt i) (fail_attempt a) d | None => d end).
  - destruct (b_attempts d !! in_attempt i) eqn:Ea; [|apply evolves_refl]. destruct (at_t2 a); [apply evolves_refl|]. by eapply evolves_attempt.
  - destruct (b_runs _ !! in_action i) as [r|] eqn:Er; [|apply evolves_refl]. case_bool_decide; [|apply evolves_refl].
    eapply evolves_run; [exact Er|]. apply outcome_kept. unfold before_dispatch. rewrite !elem_of_cons, elem_of_nil. naive_solver.
Qed.
Lemma record_observation_evolves i document pages o r s d d' : record_observation i document pages o s d = Ok d' -> b_sessions d !! rn_session r = Some s -> rn_session r = in_session i ->
  evolves d d' /\ b_attempts d' = b_attempts d.
Proof.
  unfold record_observation. intros Hr Hs Es. do 3 (apply bind_Ok_inv in Hr as (? & _ & Hr)). injection Hr as <-. rewrite Es in Hs. split; [|by destruct (bool_decide _)].
  destruct (bool_decide (in_name i = NAVIGATE)); [eapply evolves_trans; [apply evolves_leases|]|]; (eapply evolves_session; [exact Hs|cbn; lia]).
Qed.
Lemma last_events (l : list dispatch_phase) x l' : last (l ++ x :: l') = last (x :: l').
Proof. rewrite last_app. by destruct (last (x :: l')) eqn:E; [|apply last_None in E]. Qed.
Lemma returned_kept t2 k j l a : l = [] \/ l = [E_POST_OBSERVATION_CAPTURED] -> attempt_kept a (classify_attempt t2 k j (append_events (E_METHOD_RETURNED :: l) a)).
Proof. intros Hl. split; [done|done|]. intros _. unfold dispatched_events. cbn [at_events classify_attempt append_events]. rewrite last_events. destruct Hl as [->| ->]; by eexists. Qed.
Lemma commitAction_evolves i document pages evidence d d' : stands_for d (request_of i) -> commitAction i document pages evidence d = Ok d' -> evolves d d'.
Proof.
  intros (a0 & r0 & Ha0 & H1 & H2 & Hr0 & H3 & H4) Hc. unfold commitAction in Hc. apply bind_Ok_inv in Hc as (a & Ha & Hc). apply bind_Ok_inv in Hc as (r & Hr & Hc). apply bind_Ok_inv in Hc as (s & Hs & Hc).
  apply bind_Ok_inv in Hc as (? & _ & Hc). apply or_throw_Ok in Ha, Hr, Hs. cbn in Ha0, H1, H2, Hr0, H3. assert (a0 = a) as -> by congruence. rewrite H1 in Hr. assert (r0 = r) as -> by congruence.
  apply bind_Ok_inv in Hc as (d1 & Ho & Hc). do 2 (apply bind_Ok_inv in Hc as (? & _ & Hc)). injection Hc as <-.
  assert (E1 : evolves d d1 /\ b_attempts d1 = b_attempts d).
  { revert Ho. destruct (get_prop "observation" evidence) as [[| | | | |]|]; try (intros [= <-]; split; [apply evolves_refl|done]); intros Ho; by eapply record_observation_evolves. }
  destruct E1 as [E1 Ea]. eapply evolves_trans; [exact E1|]. eapply evolves_trans; [eapply evolves_attempt; [rewrite Ea; exact Ha|]|]; cycle 1.
  - match goal with |- context [match ?m with Some r => put_run _ _ _ | None => _ end] => destruct m as [r2|] eqn:Er end; [|apply evolves_refl]. eapply evolves_run; [exact Er|]. apply outcome_kept. unfold before_dispatch. rewrite !elem_of_cons, elem_of_nil. case_bool_decide; naive_solver.
  - apply returned_kept. destruct (match get_prop "observation" evidence with Some (JObj l) => Some (JObj l) | Some (JArr l) => Some (JArr l) | _ => None end); auto.
Qed.

(** What T1 has checked and written *)
Definition prepared_attempt (id h : string) (r : run_row) (s : browser_session) (l : lease_row) (events : list dispatch_phase) : attempt_row :=
  {| at_run := id; at_number := rn_next_attempt r; at_command := rn_operation r; at_fence := ss_next_action_fence s; at_lease := h; at_token := le_token l; at_identity := le_identity l;
     at_events := events; at_t2 := false; at_classification := None; at_readback := JNull; at_failed := false |}.
Definition prepared_run (name : BrowserActionName) (r : run_row) : run_row :=
  move_run (if possible_effect name then P_POSSIBLE_EFFECT else P_DISPATCH_AUTHORIZED) (if possible_effect name then Some "BEFORE_ADAPTER_DISPATCH" else rn_trigger r) (rn_outcome r)
    (rn_next_attempt r + 1) r.
Record prepared_by (now : Z) (attempt id : string) (d : browser_db) (i : ActionIntent) (d' : browser_db) (r : run_row) (s : browser_session) (l : lease_row) : Prop := {
  pb_run : b_runs d !! id = Some r /\ rn_phase r = P_INTENT_RECORDED /\ b_sessions d !! rn_session r = Some s;
  pb_fenced : control_current now s = true /\ fences_current r s = true /\ lease_identity_current (le_identity l) s = true /\ le_state l = "ATTACHED" /\ includes (ss_lifecycle s) ["READY"; "ACTIVE"] = true;
  pb_fresh : b_attempts d !! attempt = None;
  pb_intent : in_action i = id /\ in_attempt i = attempt /\ in_session i = rn_session r /\ in_fence i = ss_next_action_fence s /\ in_identity i = le_identity l;
  pb_name : named_action (rn_action r) = Some (in_name i);
  pb_tables : exists h events, dispatched_events events /\ b_attempts d' = <[attempt := prepared_attempt id h r s l events]> (b_attempts d) /\
    b_runs d' = <[id := prepared_run (in_name i) r]> (b_runs d) /\ b_sessions d' = <[rn_session r := advance_fence s]> (b_sessions d);
}.
Lemma candidate_Some id d r s h l : candidate id d = Some (r, s, (h, l)) -> b_runs d !! id = Some r /\ rn_phase r = P_INTENT_RECORDED /\ b_sessions d !! rn_session r = Some s /\
  le_state l = "ATTACHED" /\ includes (ss_lifecycle s) ["READY"; "ACTIVE"] = true.
Proof.
  unfold candidate. intros (r0 & Hr & Hc)%bind_Some. apply bind_Some in Hc as (s0 & Hs & Hc). apply bind_Some in Hc as (h0 & Hh & Hc). apply bind_Some in Hc as (l0 & Hl & Hc).
  destruct (_ && _) eqn:B; [|done]. injection Hc as <- <- <- <-. rewrite !andb_true_iff in B. destruct B as [[[B1 B2] B3] _]. apply bool_decide_eq_true in B1. apply String.eqb_eq in B3. done.
Qed.
Lemma prepareAction_Ok now attempt id d i d' : prepareAction now attempt id d = Ok (i, d') -> exists r s l, prepared_by now attempt id d i d' r s l.
Proof.
  intros Hp. unfold prepareAction in Hp. apply bind_Ok_inv in Hp as ([[r s] [h l]] & Hc & Hp). apply or_throw_Ok, candidate_Some in Hc as (Hr & Hph & Hs & Hst & Hlc). cbn [fst snd] in Hp.
  apply bind_Ok_inv in Hp as (? & Hcc & Hp). apply throw_if_Ok, negb_false_iff in Hcc. apply bind_Ok_inv in Hp as (? & Hfc & Hp). apply throw_if_Ok, negb_false_iff in Hfc.
  apply bind_Ok_inv in Hp as (name & Hn & Hp). apply or_throw_Ok in Hn. apply bind_Ok_inv in Hp as (? & _ & Hp). apply bind_Ok_inv in Hp as (? & Hi & Hp). apply throw_if_Ok, negb_false_iff in Hi.
  apply bind_Ok_inv in Hp as (? & _ & Hp). apply bind_Ok_inv in Hp as (up & _ & Hp). apply bind_Ok_inv in Hp as (? & Hu & Hp). apply throw_if_Ok, orb_false_iff in Hu as [Hu _].
  injection Hp as <- <-. exists r, s, l. split; cbn [in_action in_attempt in_session in_fence in_identity in_name]; try done.
  - by destruct (b_attempts d !! attempt).
  - exists h. eexists. split; [|done]. destruct (possible_effect name); [exists E_MUTATION_TRIGGER_POSSIBLY_ISSUED|exists E_INPUT_SEQUENCE_STARTED]; (split; [|done]);
      match goal with |- context [match ?x with Some _ => [E_TARGET_RESOLVED] | None => [] end] => by destruct x end.
Qed.
Lemma no_attempt_before d id r i a : db_inv d -> b_runs d !! id = Some r -> rn_phase r ∈ before_dispatch -> b_attempts d !! i = Some a -> at_run a <> id.
Proof. intros I Hr Hp Ha E. destruct (di_attempt _ I _ _ Ha) as (r2 & O). pose proof (ao_run _ _ _ _ O) as Hr2. rewrite E in Hr2. apply (ao_dispatched _ _ _ _ O). by assert (r2 = r) as -> by congruence. Qed.
Section Prepared.
Context (now : Z) (attempt id : string) (d : browser_db) (i : ActionIntent) (d' : browser_db) (r : run_row) (s : browser_session) (l : lease_row).
Context (I : db_inv d) (P : prepared_by now attempt id d i d' r s l).
Lemma prepared_old j a : b_attempts d !! j = Some a -> j <> attempt /\ at_run a <> id.
Proof.
  intros Ha. destruct (pb_run _ _ _ _ _ _ _ _ _ P) as (Hr & Hp & _). split; [intros ->; by rewrite (pb_fresh _ _ _ _ _ _ _ _ _ P) in Ha|].
  eapply no_attempt_before; [exact I|exact Hr| |exact Ha]. rewrite Hp. by left.
Qed.
Lemma prepared_sessions x q : b_sessions d !! x = Some q -> exists q', b_sessions d' !! x = Some q' /\ ss_next_action_fence q <= ss_next_action_fence q' /\ (x = rn_session r -> ss_next_action_fence q' = ss_next_action_fence q + 1).
Proof.
  destruct (pb_run _ _ _ _ _ _ _ _ _ P) as (_ & _ & Hs). destruct (pb_tables _ _ _ _ _ _ _ _ _ P) as (h & events & _ & _ & _ & ->). intros Hx.
  destruct (decide (rn_session r = x)) as [<-|Hn].
  - rewrite Hs in Hx. injection Hx as <-. exists (advance_fence s). rewrite lookup_insert_eq. split_and!; [done|cbn; lia|done].
  - exists q. rewrite lookup_insert_ne by done. split_and!; [done|lia|congruence].
Qed.
Lemma prepared_cases j a : b_attempts d' !! j = Some a -> (j = attempt /\ at_run a = id /\ at_fence a = ss_next_action_fence s /\ b_runs d' !! id = Some (prepared_run (in_name i) r) /\ dispatched_events (at_events a)) \/
  (b_attempts d !! j = Some a /\ j <> attempt /\ at_run a <> id /\ b_runs d' !! at_run a = b_runs d !! at_run a).
Proof.
  destruct (pb_tables _ _ _ _ _ _ _ _ _ P) as (h & events & He & Ea & Er & _). rewrite Ea, Er. destruct (decide (attempt = j)) as [<-|Hn].
  - rewrite lookup_insert_eq. intros [= <-]. left. cbn. by rewrite lookup_insert_eq.
  - rewrite lookup_insert_ne by done. intros Ha. right. destruct (prepared_old _ _ Ha) as [_ Hi]. split_and!; [done|congruence|done|by rewrite lookup_insert_ne].
Qed.
Lemma prepared_stands q : stands_for d q -> stands_for d' q.
Proof.
  intros (a & r0 & Ha & H1 & H2 & Hr & H3). destruct (prepared_old _ _ Ha) as [Hn Hi]. destruct (pb_tables _ _ _ _ _ _ _ _ _ P) as (h & events & _ & Ea & Er & _). exists a, r0.
  rewrite Ea, Er, !lookup_insert_ne by congruence. done.
Qed.
Lemma prepared_request : stands_for d' (request_of i).
Proof.
  destruct (pb_tables _ _ _ _ _ _ _ _ _ P) as (h & events & _ & Ea & Er & _). destruct (pb_intent _ _ _ _ _ _ _ _ _ P) as (H1 & H2 & H3 & H4 & _). pose proof (pb_name _ _ _ _ _ _ _ _ _ P).
  exists (prepared_attempt id h r s l events), (prepared_run (in_name i) r). cbn. rewrite H1, H2, Ea, Er, !lookup_insert_eq. done.
Qed.
Lemma prepared_inv : db_inv d'.
Proof.
  destruct (pb_run _ _ _ _ _ _ _ _ _ P) as (Hr & Hp & Hs). split.
  - intros j a [(-> & Hrun & Hf & Hr' & He)|(Ha & _ & Hne & Hre)]%prepared_cases.
    + exists (prepared_run (in_name i) r). split; [by rewrite Hrun|cbn; destruct (possible_effect _); unfold before_dispatch; rewrite !elem_of_cons, elem_of_nil; naive_solver|done| |].
      * exists (in_name i). split; [apply (pb_name _ _ _ _ _ _ _ _ _ P)|]. cbn. intros ->. by eexists.
      * destruct (prepared_sessions _ _ Hs) as (q & Hq & _ & Hadv). exists q. cbn. split; [done|]. rewrite (Hadv eq_refl). lia.
    + destruct (di_attempt _ I _ _ Ha) as (r0 & [O1 O2 O3 O4 (q & Hq & Hlt)]). exists r0. split; [by rewrite Hre|done|done|done|]. destruct (prepared_sessions _ _ Hq) as (q' & Hq' & Hle & _). exists q'. split; [done|lia].
  - intros j k a b [(-> & Hrun & _)|(Ha & _ & Hne & _)]%prepared_cases [(-> & Hrun' & _)|(Hb & _ & Hne' & _)]%prepared_cases E; [done|congruence|congruence|by eapply (di_single _ I)].
  - intros j k a b ra rb [(-> & Hrun & Hf & Hr' & _)|(Ha & _ & Hne & Hre)]%prepared_cases [(-> & Hrun' & Hf' & Hr'' & _)|(Hb & _ & Hne' & Hre')]%prepared_cases Era Erb Es Ef; [done| | |].
    + destruct (di_attempt _ I _ _ Hb) as (r0 & [O1 _ _ _ (q & Hq & Hlt)]). rewrite Hre', O1 in Erb. injection Erb as <-. rewrite Hrun, Hr' in Era. injection Era as <-. cbn in Es.
      rewrite <- Es, Hs in Hq. injection Hq as <-. lia.
    + destruct (di_attempt _ I _ _ Ha) as (r0 & [O1 _ _ _ (q & Hq & Hlt)]). rewrite Hre, O1 in Era. injection Era as <-. rewrite Hrun', Hr'' in Erb. injection Erb as <-. cbn in Es.
      rewrite Es, Hs in Hq. injection Hq as <-. lia.
    + rewrite Hre in Era. rewrite Hre' in Erb. by eapply (di_fences _ I).
Qed.
End Prepared.

(** The flights that go on: the one in the middle is dropped, or goes on without being prepared any more. *)
Definition goes_on (i : ActionIntent) (rest : list (ActionIntent * dispatch_state)) : Prop := rest = [] \/ exists st, rest = [(i, st)] /\ st <> D_PREPARED.
Lemma flights_go_on d fl1 i st rest fl2 h : goes_on i rest -> action_inv (ASys d (fl1 ++ (i, st) :: fl2) h) -> action_inv (ASys d (fl1 ++ rest ++ fl2) h).
Proof.
  intros G [I F Q N O W]. cbn in *. apply Forall_app in F as [F1 F2]. rewrite map_app in N. cbn [map] in N. apply Forall_cons in F2 as [Fi F2]. split; cbn; [done| |done| |done|].
  - destruct G as [->|(x & -> & _)]; apply Forall_app; (split; [done|]); [done|by constructor].
  - destruct G as [->|(x & -> & _)]; rewrite map_app; cbn [map app]; [|exact N]. rewrite <- Permutation_middle in N. by apply NoDup_cons in N as [_ N].
  - intros j Hj. apply W. rewrite in_app_iff in Hj |- *. destruct Hj as [Hj|Hj]; [by left|]. right. right. destruct G as [->|(x & -> & Hx)]; [done|]. destruct Hj as [[= -> ->]|Hj]; [by destruct Hx|done].
Qed.
Lemma inv_evolves d d' fl h : action_inv (ASys d fl h) -> evolves d d' -> action_inv (ASys d' fl h).
Proof.
  intros [I F Q N O W] E. split; cbn in *; [by eapply evolves_inv| | |done|done|done].
  - eapply Forall_impl; [exact F|]. intros f Hf. exact (evolves_stands _ _ _ Hf E).
  - eapply Forall_impl; [exact Q|]. intros q Hq. exact (evolves_stands _ _ _ Hq E).
Qed.
Lemma inv_flight d fl1 i st fl2 h : action_inv (ASys d (fl1 ++ (i, st) :: fl2) h) -> stands_for d (request_of i).
Proof. intros [_ F _ _ _ _]. cbn in F. apply Forall_app in F as [_ F]. by apply Forall_cons in F as [F _]. Qed.
Lemma inv_prepare now attempt id d fl h i d' : action_inv (ASys d fl h) -> prepareAction now attempt id d = Ok (i, d') -> action_inv (ASys d' ((i, D_PREPARED) :: fl) h).
Proof.
  intros [I F Q N O W] (r & s & l & P)%prepareAction_Ok. cbn in *. destruct (pb_intent _ _ _ _ _ _ _ _ _ P) as (H1 & H2 & _). pose proof (pb_fresh _ _ _ _ _ _ _ _ _ P) as Hnew.
  assert (G : forall q, stands_for d q -> hr_attempt q <> in_attempt i) by (intros q (a & _ & Ha & _) E; rewrite E, H2 in Ha; congruence).
  assert (Hh : in_attempt i ∉ map hr_attempt h).
  { intros (q & E & Hq)%list_elem_of_In%in_map_iff. rewrite Forall_forall in Q. apply (G q); [|done]. by apply Q, list_elem_of_In. }
  split; cbn; [by eapply prepared_inv| | | |done|].
  - constructor; [by eapply prepared_request|]. eapply Forall_impl; [exact F|]. intros f Hf. by eapply prepared_stands.
  - eapply Forall_impl; [exact Q|]. intros q Hq. by eapply prepared_stands.
  - constructor; [|exact N]. intros (f & E & Hf)%list_elem_of_In%in_map_iff. rewrite Forall_forall in F. apply (G (request_of f.1)); [by apply F, list_elem_of_In|done].
  - intros j [[= ->]|Hj]; [exact Hh|by apply W].
Qed.
Lemma sent_goes_on i : goes_on i [(i, D_SENT)].
Proof. right. by exists D_SENT. Qed.
Lemma inv_send d fl1 i fl2 h : action_inv (ASys d (fl1 ++ (i, D_PREPARED) :: fl2) h) -> action_inv (ASys d (fl1 ++ (i, D_SENT) :: fl2) (h ++ [request_of i])).
Proof.
  intros V. pose proof (inv_flight _ _ _ _ _ _ V) as Hi. assert (V2 := flights_go_on d fl1 i D_PREPARED [(i, D_SENT)] fl2 h (sent_goes_on i) V).
  destruct V as [_ _ _ N _ W]. destruct V2 as [I F Q N2 O W2]. cbn in *. assert (Hf : in_attempt i ∉ map hr_attempt h) by (apply W; rewrite in_app_iff; right; by left).
  split; cbn; [done|done|apply Forall_app; split; [done|by constructor]|done| |].
  - rewrite map_app. apply NoDup_app. split; [done|]. split; [|apply NoDup_singleton]. intros x Hx E. apply list_elem_of_singleton in E. cbn in E. congruence.
  - intros j Hj. rewrite map_app. intros [E|E]%elem_of_app; [by apply (W2 j Hj)|]. apply list_elem_of_singleton in E. cbn in E.
    rewrite map_app in N. cbn [map] in N. rewrite <- Permutation_middle in N. apply NoDup_cons in N as [N _]. apply N. rewrite <- map_app. apply list_elem_of_In, in_map_iff. exists (j, D_PREPARED). split; [done|].
    rewrite in_app_iff in Hj |- *. destruct Hj as [Hj|[Hj|Hj]]; [by left|done|by right].
Qed.
Lemma astep_inv s s' : action_inv s -> astep s s' -> action_inv s'.
Proof.
  intros V St. destruct St as [k c d fl h j d' Hc|now attempt id d fl h i d' Hp|d fl1 i fl2 h|d fl1 i fl2 h document pages evidence d' rest Hc Hr|d fl1 i st fl2 h|d fl1 i fl2 h message|d fl1 [i st] fl2 h|d d' fl h Ho].
  - eapply inv_evolves; [exact V|]. eapply run_call_evolves; [apply V|exact Hc].
  - by eapply inv_prepare.
  - by apply inv_send.
  - eapply flights_go_on; [|eapply inv_evolves; [exact V|]; eapply commitAction_evolves; [by eapply inv_flight|exact Hc]]. destruct Hr as [->| ->]; [by left|right; by eexists].
  - apply (flights_go_on _ _ i st [(i, D_FAILING)]); [right; by eexists|done].
  - apply (flights_go_on _ _ i D_FAILING []); [by left|]. eapply inv_evolves; [exact V|apply failAction_evolves].
  - apply (flights_go_on _ _ i st []); [by left|done].
  - eapply inv_evolves; [exact V|by apply evolves_others].
Qed.
Lemma action_initial_inv s : action_initial s -> action_inv s.
Proof.
  destruct s as [d fl h]. unfold action_initial. cbn. intros (Hr & Ha & -> & ->). split; cbn; try done; try constructor.
  - intros i a. by rewrite Ha.
  - intros i j a b. by rewrite Ha.
  - intros i j a b r q. by rewrite Ha.
Qed.
Lemma action_reachable_inv s : action_reachable s -> action_inv s.
Proof. intros (s0 & H0 & St). apply action_initial_inv in H0. induction St; eauto using astep_inv. Qed.
Lemma NoDup_map_from {A B C} (f : A -> B) (g : A -> C) (l : list A) : NoDup (map g l) -> (forall x y, In x l -> In y l -> f x = f y -> g x = g y) -> NoDup (map f l).
Proof.
  induction l as [|x l IH]; [constructor|]. cbn [map]. intros [Hx Hl]%NoDup_cons Hf. constructor.
  - intros (y & E & Hy)%list_elem_of_In%in_map_iff. apply Hx. apply list_elem_of_In, in_map_iff. exists y. split; [|done]. apply Hf; [by right|by left|done].
  - apply IH; [done|]. intros a b Ha Hb. apply Hf; by right.
Qed.

(** C21. However the handlers of actions, workers, hosts and crashes are interleaved — any number of workers at any point of [dispatchOne], answers that are refused, lost or late, other writers of
    sessions and leases — the host is sent at most one request for an action, and never two requests of one session under the same fence. *)
Theorem host_acts_once (s : action_system) : action_reachable s -> NoDup (map hr_action (as_host s)) /\ NoDup (map (fun q => (hr_session q, hr_fence q)) (as_host s)).
Proof.
  intros [I _ Q _ O _]%action_reachable_inv. rewrite Forall_forall in Q. split; (eapply NoDup_map_from; [exact O|]); intros x y (a & r & Ha & H1 & H2 & Hr & H3 & _)%list_elem_of_In%Q (b & q & Hb & K1 & K2 & Hq & K3 & _)%list_elem_of_In%Q E.
  - apply (di_single _ I _ _ a b Ha Hb). congruence.
  - injection E as E1 E2. apply (di_fences _ I _ _ a b r q Ha Hb); congruence.
Qed.
Lemma effect_run (s : action_system) (q : host_request) : action_reachable s -> In q (as_host s) -> possible_effect (hr_name q) = true ->
  exists r, b_runs (as_db s) !! hr_action q = Some r /\ is_Some (rn_trigger r) /\ rn_phase r ∉ before_dispatch.
Proof.
  intros [I _ Q _ _ _]%action_reachable_inv Hq Hp. rewrite Forall_forall in Q. destruct (Q _ (proj2 (list_elem_of_In _ _) Hq)) as (a & r & Ha & H1 & _ & Hr & _ & Hn).
  destruct (di_attempt _ I _ _ Ha) as (r1 & [O1 O2 _ (name & Hn1 & Ht) _]). rewrite H1 in O1. assert (r1 = r) as -> by congruence. assert (name = hr_name q) as -> by congruence. eauto.
Qed.
(** C22. The effect of an action is never denied by what the database holds.  Once the host was sent a request for an action of an effect, then in every later state, whatever handlers, workers, hosts and crashes did, the run
    of the action names the trigger of the effect and is past its dispatch, so that no worker selects it again; and a caller that sees only such states would be told of a possible side effect, at the deadline or before,
    if its query could run.  It cannot: against the table as the migrations leave it every wait fails at its first round. *)
Theorem effect_trigger_recorded (q : host_request) (seen : list action_system) : possible_effect (hr_name q) = true -> Forall (fun s => action_reachable s /\ In q (as_host s)) seen ->
  Forall (fun s => exists r, b_runs (as_db s) !! hr_action q = Some r /\ is_Some (rn_trigger r) /\ (rn_phase r ∉ before_dispatch) /\ candidate (hr_action q) (as_db s) = None) seen /\
  (forall columns, (forall x, In x attempt_columns_read -> In x columns) ->
     exists o, waitForActionOutcome columns (hr_action q) (map as_db seen) = Ok o /\ ao_possibleSideEffect o = true) /\
  (seen <> [] -> waitForActionOutcome browser_action_attempt_columns (hr_action q) (map as_db seen) = Throw (PgError "42703")).
Proof.
  intros Hp Hs. split_and!.
  - eapply Forall_impl; [exact Hs|]. intros s [Hr Hq]. destruct (effect_run s q Hr Hq Hp) as (r & Er & Et & Eph). exists r. split_and!; try done.
    destruct (candidate _ _) as [[[r0 s0] [h l]]|] eqn:Ec; [|done]. apply candidate_Some in Ec as (Er0 & E0 & _). destruct Eph. assert (r0 = r) as -> by congruence. rewrite E0. by left.
  - intros columns Hc. assert (Ef : forallb (fun x => includes x columns) attempt_columns_read = true) by (apply forallb_forall; intros x Hx; by apply includes_In, Hc).
    induction Hs as [|s seen [Hr Hq] _ IH]; [by exists deadline_outcome|]. destruct (effect_run s q Hr Hq Hp) as (r & Er & [t Et] & _).
    cbn [map waitForActionOutcome]. unfold action_outcome_of. rewrite Ef, Er. cbn. case_bool_decide; cbn; [|exact IH]. eexists. split; [done|]. cbn. rewrite Et. apply orb_true_r.
  - destruct seen; [done|]. intros _. vm_compute. reflexivity.
Qed.

(** *** Reconciliation *)

(** The read-back comes from an independent observation of the document that the session is at. *)
Record independent_read_back (readBack : json) (sessionId : string) (s : browser_session) : Prop := {
  ir_oracle : field "oracle" readBack = Some (JStr "INDEPENDENT_HOST_OBSERVE");
  ir_digest : exists e, fields (Some e) = fields (field "evidence" readBack) /\ field "digest" readBack = Some (JStr (Digest.canonicalDigest (jsonSafe e)));
  ir_session : js_String (get_prop "sessionId" (fields (field "identity" readBack))) = sessionId;
  ir_page : js_String (get_prop "pageId" (fields (field "identity" readBack))) = default "null" (ss_page s);
  ir_frame : js_String (get_prop "frameId" (fields (field "identity" readBack))) = default "null" (ss_frame s);
  ir_epoch : 0 < ss_document_epoch s -> exists j, get_prop "documentEpoch" (fields (field "identity" readBack)) = Some j /\ StringToBigInt (to_text j) = Some (ss_document_epoch s);
}.
(** What has to be seen before an action counts as applied *)
Inductive seen_applied (id : string) (r : run_row) (evidence : list (string * json)) (d : browser_db) : Prop :=
| sa_navigated a b x y : rn_action r = "NAVIGATE" -> get_prop "url" (fields (Some (rn_payload r))) = Some (JStr a) -> get_prop "url" evidence = Some (JStr b) -> url_parse a = Some x -> url_parse b = Some y ->
    href x = href y -> seen_applied id r evidence d
| sa_uploaded u x : rn_action r = "UPLOAD" -> get_prop "uploadHandleId" (fields (Some (rn_payload r))) = Some (JStr u) -> b_uploads d !! u = Some x -> up_session x = rn_session r -> up_consumed x = true ->
    seen_applied id r evidence d
| sa_downloaded x : rn_action r = "DOWNLOAD" -> In x (b_downloads d) -> dl_action x = id -> dl_session x = rn_session r -> dl_state x = "COMPLETED" -> is_true (field "verified" (dl_verification x)) = true ->
    is_Some (dl_storage x) -> seen_applied id r evidence d.
Lemma fields_object l : fields (Some (JObj l)) = l. Proof. done. Qed.
Lemma same_url_true a b : same_url a b = Ok true -> exists x y, url_parse a = Some x /\ url_parse b = Some y /\ href x = href y.
Proof.
  unfold same_url. intros Hs. apply bind_Ok_inv in Hs as (x & Hx & Hs). apply bind_Ok_inv in Hs as (y & Hy & [= Hs]). apply or_throw_Ok in Hx, Hy. apply String.eqb_eq in Hs. eauto.
Qed.
Lemma derive_applied id r b evidence d : derive_outcome id r b evidence d = Ok P_CONFIRMED_APPLIED -> b = true /\ seen_applied id r evidence d.
Proof.
  unfold derive_outcome. intros Hd. apply bind_Ok_inv in Hd as (n & Hn & Hd). destruct b; [|cbn in Hd, Hn; injection Hn as <-; done]. split; [done|]. cbn [andb] in Hd, Hn.
  destruct (includes _ _ && _); [done|]. destruct (String.eqb (rn_action r) "DOWNLOAD" && _) eqn:Bd; [|destruct (String.eqb (rn_action r) "UPLOAD" && _) eqn:Bu].
  - apply andb_true_iff in Bd as [Ba Bd]. apply String.eqb_eq in Ba. destruct (List.find _ (b_downloads d)) as [x|] eqn:E; [|done]. apply find_some in E as [Hi E]. rewrite !andb_true_iff in E. rewrite !andb_true_iff in Bd.
    destruct E as [E1 E2]. destruct Bd as [[E3 E4] E5]. apply String.eqb_eq in E1, E2, E3. eapply sa_downloaded; eauto. destruct (dl_storage x); [by eexists|done].
  - apply andb_true_iff in Bu as [Ba Bu]. apply String.eqb_eq in Ba. destruct (get_prop "uploadHandleId" _) as [[| | |u| |]|] eqn:E; try done. destruct (b_uploads d !! u) as [x|] eqn:Ex; [|done].
    apply andb_true_iff in Bu as [E1 E2]. apply String.eqb_eq in E1. eapply sa_uploaded; eauto.
  - cbn [orb] in Hd. destruct (String.eqb (rn_action r) "OBSERVE"); [done|]. destruct n; [|done]. destruct (String.eqb (rn_action r) "NAVIGATE") eqn:Ba; [|done]. apply String.eqb_eq in Ba.
    destruct (get_prop "url" (fields (Some (rn_payload r)))) as [[| | |a| |]|] eqn:Ea; try done. destruct (get_prop "url" evidence) as [[| | |e| |]|] eqn:Ee; try done.
    apply same_url_true in Hn as (x & y & Hx & Hy & Hh). eapply sa_navigated; eauto.
Qed.
Lemma derive_not_applied id r b evidence d : derive_outcome id r b evidence d = Ok P_CONFIRMED_NOT_APPLIED -> b = true /\ rn_action r ∈ ["OBSERVE"; "CHALLENGE"; "DIALOG"; "PERMISSION"].
Proof.
  unfold derive_outcome. intros Hd. apply bind_Ok_inv in Hd as (n & Hn & Hd). destruct b; [|cbn in Hd, Hn; injection Hn as <-; done]. split; [done|]. cbn [andb] in Hd.
  destruct (includes (rn_action r) _) eqn:Ei; cbn [andb] in Hd.
  - apply includes_In in Ei. right. by apply list_elem_of_In.
  - destruct (_ || _); [done|]. destruct (String.eqb (rn_action r) "OBSERVE") eqn:E; [apply String.eqb_eq in E; rewrite E; by left|by destruct n].
Qed.
Lemma derive_phases id r b evidence d p : derive_outcome id r b evidence d = Ok p -> p ∈ [P_CONFIRMED_APPLIED; P_CONFIRMED_NOT_APPLIED; P_UNKNOWN].
Proof.
  unfold derive_outcome. intros Hd. apply bind_Ok_inv in Hd as (x & _ & [= <-]). rewrite !elem_of_cons.
  destruct (b && _ && existsb _ _); [naive_solver|]. destruct (_ || _); [naive_solver|]. destruct (b && _); [naive_solver|]. destruct x; naive_solver.
Qed.
Lemma put_run_lookup id r d (f : browser_db -> option (string * attempt_row)) (g : attempt_row -> attempt_row) :
  b_runs (match f (put_run id r d) with Some a => put_attempt (fst a) (g (snd a)) (put_run id r d) | None => put_run id r d end) !! id = Some r.
Proof. destruct (f _); cbn; apply lookup_insert_eq. Qed.

Lemma identity_current_true identity sessionId s : identity_current identity sessionId s = Ok true ->
  js_String (get_prop "sessionId" identity) = sessionId /\ js_String (get_prop "pageId" identity) = default "null" (ss_page s) /\ js_String (get_prop "frameId" identity) = default "null" (ss_frame s) /\
  (0 < ss_document_epoch s -> exists j, get_prop "documentEpoch" identity = Some j /\ StringToBigInt (to_text j) = Some (ss_document_epoch s)).
Proof.
  unfold identity_current. destruct (_ && _) eqn:B; [|done]. rewrite !andb_true_iff, !String.eqb_eq in B. destruct B as [[B1 B2] B3]. intros Hc. apply bind_Ok_inv in Hc as (e & He & Hc).
  apply or_throw_Ok in He. injection Hc as Hc%Z.eqb_eq. subst e. split_and!; try done. intros Hpos. assert (Em : StringToBigInt (to_text (JNum (-1))) = Some (-1)) by by vm_compute.
  destruct (get_prop "documentEpoch" identity) as [[]|] eqn:Ej; cbn [nullish default] in He; eauto; change (StringToBigInt (to_text (JNum (-1))) = Some (ss_document_epoch s)) in He; rewrite Em in He;
    injection He as He; lia.
Qed.
(** C23. A reconciliation that is accepted leaves an open phase and ends in one of three.  It confirms an outcome, applied or not, only from a read-back that names the independent observation as its oracle, carries the digest of its
    evidence, and names the session, its page and frame and the epoch of the document that the session is at now.  That the action was applied it confirms, for a navigation, from the address in that
    evidence; for an upload and a download, whatever the evidence shows, from the record of the consumed upload or of the completed and verified download; that it was not applied, only for the actions
    that apply nothing.  Otherwise the outcome stays unknown.  An outcome among the arguments is refused. *)
Theorem reconcile_sound (c : CanonicalHandlerContext) (d d' : browser_db) (j : json) : handleBrowserActionReconcile c d = Ok (j, d') ->
  exists id r s r', target c = Ok id /\ b_runs d !! id = Some r /\ b_sessions d !! rn_session r = Some s /\ rn_phase r ∈ open_phases /\ argument c "outcome" = None /\
    b_runs d' !! id = Some r' /\ rn_phase r' ∈ [P_CONFIRMED_APPLIED; P_CONFIRMED_NOT_APPLIED; P_UNKNOWN] /\
    (rn_phase r' <> P_UNKNOWN -> independent_read_back (objectArg (argument c "readBack") []) (rn_session r) s) /\
    (rn_phase r' = P_CONFIRMED_APPLIED -> seen_applied id r (fields (field "evidence" (objectArg (argument c "readBack") []))) d) /\
    (rn_phase r' = P_CONFIRMED_NOT_APPLIED -> rn_action r ∈ ["OBSERVE"; "CHALLENGE"; "DIALOG"; "PERMISSION"]).
Proof.
  unfold handleBrowserActionReconcile. intros Hs. apply bind_Ok_inv in Hs as (id & Hid & Hs). apply bind_Ok_inv in Hs as (r & Hr & Hs). apply bind_Ok_inv in Hs as (? & _ & Hs).
  apply bind_Ok_inv in Hs as (s & Hse & Hs). apply bind_Ok_inv in Hs as (current & Hc & Hs). apply bind_Ok_inv in Hs as (outcome & Ho & Hs). apply bind_Ok_inv in Hs as (? & Hn & Hs).
  apply bind_Ok_inv in Hs as (? & Hp & Hs). apply or_throw_Ok in Hr, Hse. apply throw_if_Ok in Hn, Hp. apply negb_false_iff, bool_decide_eq_true in Hp. injection Hs as _ <-.
  match type of Ho with context [derive_outcome _ _ ?x] => set (b := x) in Ho end.
  assert (B : b = true -> independent_read_back (objectArg (argument c "readBack") []) (rn_session r) s).
  { subst b. rewrite !andb_true_iff. intros [[B1 B2] ->]. apply is_text_Some in B1, B2. apply identity_current_true in Hc as (C1 & C2 & C3 & C4). split; [done| |done..]. eexists. split; [|exact B2].
    by destruct (field "evidence" (objectArg _ _)) as [[| | | | |]|]. }
  exists id, r, s. eexists. split_and!; [exact Hid|exact Hr|exact Hse|exact Hp|by destruct (argument c "outcome")|apply put_run_lookup| | | |]; cbn [rn_phase with_outcome move_run].
  - by eapply derive_phases.
  - intros Hne. pose proof (derive_phases _ _ _ _ _ _ Ho) as Hin. rewrite !elem_of_cons, elem_of_nil in Hin. destruct Hin as [->|[->|[->|[]]]]; [by apply derive_applied in Ho as [Ho%B _]|by apply derive_not_applied in Ho as [Ho%B _]|by destruct Hne].
  - intros ->. by apply derive_applied in Ho as [_ Ho].
  - intros ->. by apply derive_not_applied in Ho as [_ Ho].
Qed.
End System.

(** ** Examples *)

#[local] Existing Instances code_unit_locale toy_hash.
(** A parser that takes a text for the address it is *)
#[local] Instance toy_browser_urls : UrlParser :=
  {| url_parse s := Some {| protocol := "https:"; username := ""; password := ""; hostname := "host"; origin := "https://host"; pathname := "/"; search := ""; url_hash := ""; href := s |};
     url_resolve s _ := None |}.
Definition session_a : string := "11111111-1111-4111-8111-111111111111".
Definition action_a : string := "22222222-2222-4222-8222-222222222222".
Definition action_b : string := "33333333-3333-4333-8333-333333333333".
Definition identity_a : Identity := {| hostGeneration := 1; contextGeneration := 1; pageId := "page"; pageGeneration := 1; frameId := "frame"; documentId := "document"; documentEpoch := 1 |}.
Definition ready_session : browser_session :=
  {| ss_lifecycle := "READY"; ss_holder := "AI"; ss_control_epoch := 1; ss_control_expires := Some 1000; ss_context_generation := 1; ss_page_generation := 1; ss_page := Some "page";
     ss_frame := Some "frame"; ss_document_epoch := 1; ss_observation_revision := 0; ss_scope := JObj [("allowedOrigins", JArr [JStr "https://host"])]; ss_bound_origins := JArr [];
     ss_host := Some "lease"; ss_next_action_fence := 1; ss_version := 1 |}.
Definition browser_db0 : browser_db :=
  {| b_sessions := {[session_a := ready_session]};
     b_leases := {["lease" := {| le_state := "ATTACHED"; le_released := false; le_token := 7; le_expires := 500; le_identity := identity_a |}]};
     b_references := ∅; b_runs := ∅; b_attempts := ∅; b_uploads := ∅; b_downloads := []; b_challenges := [] |}.
Definition browser_context (op : string) (target : option string) (arguments : list (string * json)) : CanonicalHandlerContext :=
  {| hc_operation := op; hc_commandId := None; hc_targetId := target; hc_arguments := arguments; hc_logicalOperationId := op +:+ default "" target; hc_correlationId := "correlation";
     hc_expectedStateVersion := None; hc_activationEpoch := 1; hc_platformIncarnationId := "incarnation"; hc_applicationDeploymentEpoch := 1; hc_recoveryEpoch := 1 |}.
Definition start_context (name : string) (payload : list (string * json)) : CanonicalHandlerContext :=
  browser_context "browser.action.start" (Some name) [("sessionId", JStr session_a); ("action", JStr name); ("payload", JObj payload)].
Definition navigate_context : CanonicalHandlerContext := start_context "NAVIGATE" [("url", JStr "https://host/next")].
Definition page_evidence : list (string * json) := [("url", JStr "https://host/next"); ("observation", JObj [("url", JStr "https://host/next")])].
Definition page_read_back : json :=
  JObj [("oracle", JStr "INDEPENDENT_HOST_OBSERVE"); ("evidence", JObj page_evidence); ("digest", JStr (Digest.canonicalDigest (jsonSafe (JObj page_evidence))));
        ("identity", JObj [("sessionId", JStr session_a); ("pageId", JStr "page"); ("frameId", JStr "frame"); ("documentEpoch", JStr "2")])].
Definition reconcile_context : CanonicalHandlerContext := browser_context "browser.action.reconcile" (Some action_a) [("readBack", page_read_back)].
Definition called (k : action_call) (c : CanonicalHandlerContext) (d : browser_db) : browser_db := snd (get_Ok (JNull, d) (run_call k c d)).
Definition no_intent : ActionIntent :=
  {| in_action := ""; in_attempt := ""; in_session := ""; in_identity := identity_a; in_lease := ""; in_token := 0; in_fence := 0; in_name := OBSERVE; in_locator := None; in_payload := JNull;
     in_origins := []; in_upload := None |}.
Definition prepared (attempt id : string) (d : browser_db) : ActionIntent * browser_db := get_Ok (no_intent, d) (prepareAction 10 attempt id d).
(** A navigation is started, dispatched and committed; an observation follows it to the host; the navigation is reconciled. *)
Definition browser_db1 : browser_db := called (C_START action_a 5) navigate_context browser_db0.
Definition navigation : ActionIntent := fst (prepared "attempt1" action_a browser_db1).
Definition browser_db2 : browser_db := snd (prepared "attempt1" action_a browser_db1).
Definition browser_db3 : browser_db := get_Ok browser_db2 (commitAction navigation "document2" (Ok tt) page_evidence browser_db2).
Definition browser_db4 : browser_db := called (C_START action_b 6) (start_context "OBSERVE" []) browser_db3.
Definition observation : ActionIntent := fst (prepared "attempt2" action_b browser_db4).
Definition browser_db5 : browser_db := snd (prepared "attempt2" action_b browser_db4).
Definition browser_db6 : browser_db := called C_RECONCILE reconcile_context browser_db5.
Definition browser_now : action_system := ASys browser_db6 [(observation, D_SENT)] [request_of navigation; request_of observation].
Lemma called_step k c d fl h : is_Ok (run_call k c d) = true -> astep (ASys d fl h) (ASys (called k c d) fl h).
Proof. unfold called. destruct (run_call k c d) as [[j d']|] eqn:E; [|done]. intros _. by eapply as_call. Qed.
Lemma prepared_step attempt id d fl h : is_Ok (prepareAction 10 attempt id d) = true -> astep (ASys d fl h) (ASys (prepared attempt id d).2 (((prepared attempt id d).1, D_PREPARED) :: fl) h).
Proof. unfold prepared. destruct (prepareAction 10 attempt id d) as [[i d']|] eqn:E; [|done]. intros _. by eapply as_prepare. Qed.
Lemma browser_now_reachable : action_reachable browser_now.
Proof.
  exists (ASys browser_db0 [] []). split; [by split_and!|].
  eapply star_step; [apply (called_step (C_START action_a 5) navigate_context); by vm_compute|]. eapply star_step; [apply (prepared_step "attempt1" action_a); by vm_compute|].
  eapply star_step; [apply (as_send _ [] _ [])|]. eapply star_step; [apply (as_commit _ [] _ [] _ "document2" (Ok tt) page_evidence browser_db3 []); [by vm_compute|by left]|].
  eapply star_step; [apply (called_step (C_START action_b 6) (start_context "OBSERVE" [])); by vm_compute|]. eapply star_step; [apply (prepared_step "attempt2" action_b); by vm_compute|].
  eapply star_step; [apply (as_send _ [] _ [])|]. eapply star_step; [apply (called_step C_RECONCILE reconcile_context); by vm_compute|]. apply star_refl.
Qed.
Definition no_run : run_row :=
  {| rn_session := ""; rn_operation := ""; rn_action := ""; rn_target := None; rn_payload := JNull; rn_control_epoch := 0; rn_document_epoch := 0; rn_observation := 0; rn_phase := P_FAILED_FINAL;
     rn_trigger := None; rn_next_attempt := 0; rn_outcome := JNull; rn_created := 0; rn_version := 0 |}.
Definition navigation_run : run_row := default no_run (b_runs browser_db6 !! action_a).
(** What the caller would be told of the state, if the attempts had a dispatch phase *)
Definition outcome_in (id : string) (d : browser_db) : result ActionOutcome := waitForActionOutcome ("dispatch_phase" :: browser_action_attempt_columns) id [d].
Example navigation_applied : outcome_in action_a browser_db6 = Ok {| ao_phase := P_CONFIRMED_APPLIED; ao_possibleSideEffect := true; ao_retryAllowed := false |}. Proof. by vm_compute. Qed.
(** An action that was confirmed as applied can be cancelled, and then counts as not applied, so that a retry is allowed. *)
Example applied_is_cancelled : outcome_in action_a (called (C_OUTCOME O_CANCEL) (browser_context "browser.action.cancel" (Some action_a) []) browser_db6)
  = Ok {| ao_phase := P_CONFIRMED_NOT_APPLIED; ao_possibleSideEffect := true; ao_retryAllowed := true |}. Proof. by vm_compute. Qed.
(** The oldest action whose fence is stale fails the preparation and stays the oldest: the observation has moved the document on. *)
Definition stale_db : browser_db := snd (get_Ok (JNull, browser_db1) (action_start (start_context "OBSERVE" []) action_b 6 browser_db1)).
Definition stale_db2 : browser_db := get_Ok stale_db (commitAction navigation "document2" (Ok tt) page_evidence (prepared "attempt1" action_a stale_db).2).
Example stale_action_stays : prepareAction 10 "attempt2" action_b stale_db2 = Throw (JsError "BROWSER_ACTION_FENCE_STALE") /\ is_some (candidate action_b stale_db2) = true. Proof. split; by vm_compute. Qed.
(** What the start of an action returns has no [value], so its caller finds no identifier in it. *)
Example start_without_value : action_id_of (fst (get_Ok (JNull, browser_db0) (action_start navigate_context action_a 5 browser_db0))) = None. Proof. by vm_compute. Qed.

Lemma host_acts_once_witness : NoDup [action_a; action_b].
Proof. apply (host_acts_once browser_now browser_now_reachable). Defined.
Lemma effect_trigger_recorded_witness : waitForActionOutcome browser_action_attempt_columns action_a [browser_db6] = Throw (PgError "42703") /\
  exists r, b_runs browser_db6 !! action_a = Some r /\ is_Some (rn_trigger r).
Proof.
  destruct (effect_trigger_recorded (request_of navigation) [browser_now]) as (Hrun & _ & Hwait);
    [by vm_compute|apply Forall_singleton; split; [exact browser_now_reachable|by left]|].
  split; [exact (Hwait ltac:(discriminate))|]. apply Forall_singleton in Hrun as (r & Hr & Ht & _). exists r. split; [exact Hr|exact Ht].
Defined.
Lemma reconcile_sound_witness : (run_of action_a browser_db5 ≫= fun r => Ok (rn_phase r)) = Ok P_RECONCILING /\ exists r', b_runs browser_db6 !! action_a = Some r'.
Proof.
  split; [by vm_compute|]. destruct (reconcile_sound reconcile_context browser_db5 browser_db6 (fst (get_Ok (JNull, browser_db5) (handleBrowserActionReconcile reconcile_context browser_db5)))) as
    (id & r & s & r' & Ht & _ & _ & _ & _ & Hr & _); [by vm_compute|]. exists r'. by vm_compute in Ht; injection Ht as <-.
Defined.
